(* ===== verification/_CoqProject ===== *)
-Q . S2P
Prelude.v
CvcTypes.v
EventQueue.v
VirtualNet.v
Numeric.v
Power.v
Db.v
ExampleDb.v
Connection.v
Netlist.v
Links.v
Short.v
Enqueue.v
Propagate.v
Simulate.v
Resistor.v
Divider.v
Logic.v
Pending.v
Forest.v
Work.v
Dependency.v
MinMax.v
MinMaxReset.v
MinMaxLoop.v
SimPower.v
Analog.v
Inverter.v
Overvoltage.v
InverterCheck.v
GateSource.v
Bias.v
Diode.v
Mirror.v
Leak.v
Frame.v
Equivalent.v
Text.v
Equation.v
Conditions.v
Model.v
Hierarchy.v
Counting.v
Flatten.v
Merging.v
Reads.v
Latch.v
LatchMux.v
PowerText.v
PowerFile.v
Names.v
Paths.v
Search.v
ModePower.v
InstancePower.v
NonConducting.v
DeadEnds.v
Shorting.v
Expected.v
Fuses.v
CheckFiles.v
Environment.v
Driver.v
Quiet.v
Stages.v
