(* ===== verification/Prelude.v ===== *)
(** * Verification of the CVC circuit validity checker

    CVC reads a transistor netlist and a list of power definitions and
    propagates voltages through the devices to find circuit errors (shorts,
    leaks, forward diodes, floating inputs).  This library models the program
    from the circuits, models and powers that are read to the checks that
    report errors (the class [CCvcDb] and the classes it uses, C++ files under
    src/src/), and proves that it keeps its data structures consistent and
    computes what they promise.

    ** The program

    The circuits of a netlist are read with the names of their signals, counted
    and linked, and flattened into vectors indexed by net and by device
    ([CNetlist] in Db.v).  Model and power files say what the devices are and
    which nets are supplies.  Each net has a level at three sample points: the
    lowest (min), the simulated (sim) and the highest (max) voltage.  A level
    is a [CPower] object, or is inherited through a chain of [CVirtualNet]s
    that ends at a net with a power.  A pass enqueues the devices attached to
    the powers in one of three [CEventQueue]s; a handler takes one event,
    decides by the voltages of the device's terminals whether the device
    conducts, attaches the unknown side to the known one ([ShortNets]),
    records the level ([CalculatePower]) and enqueues the neighbours.  The
    passes are, in order: resistors, first min/max, simulation, later min/max
    with leaks.  A device whose two sides are already known is compared
    ([AlreadyShorted], [VoltageConflict]) and may be reported as a short.  The
    error checks then look at every device of the propagated database.

    ** The files: foundations

    - Prelude.v: wrap-around at a machine width, the error type [outcome],
      vectors with C++'s undefined accesses, the state monad, hint databases.
    - CvcTypes.v (CvcTypes.hh, utility.h): identifiers, enumerations, status
      bits, saturating [AddResistance], [SimKey].
    - Text.v (std::string, CvcTypes.hh, utility.h): strings, positions and
      numbers in text; Equation.v (utility.cc): infix equations and the stack
      machine that evaluates them.
    - Numeric.v (utility.cc, CConnection.cc): printed voltages and binary32
      currents, on the Standard Library's [SpecFloat].

    ** The files: reading and preparing a design

    - Conditions.v (CNormalValue.cc, CParameterMap.cc, CCondition.cc) and
      Model.v (CModel.cc, CvcMaps.cc, CPower.cc): parameters, conditions, device
      models, [FindModel], [SetDeviceModels], voltage equations.
    - PowerText.v (CPower.cc), PowerFile.v (CCvcParameters.cc): the definition of a
      power as text, families, the model and power files.
    - Environment.v (CCvcParameters.cc): the settings of a mode, read from and printed as
      shell assignments; what the shell echoes for a value is a parameter.
    - Hierarchy.v, Counting.v (CCircuit.cc), Flatten.v, Merging.v (CInstance.cc,
      CDevice.cc): circuits, the count of everything below a circuit, global
      numbers of instances, nets and devices, merging of parallel instances.
    - Names.v, Paths.v (CCvcDb_print.cc, CCvcDb_interactive.cc,
      CCvcDb_utility.cc): printed names and the search by name.
    - Search.v, ModePower.v, InstancePower.v (CCvcDb_init.cc): nets by pattern,
      [SetModePower], [SetExpectedPower], [SetInstancePower].
    - Netlist.v, Links.v (CCvcDb_init.cc, CCvcDb_utility.cc): the device lists
      of the nets; Equivalent.v (CCvcDb_init.cc): nets shorted by switches.
    - NonConducting.v (CCvcDb_init.cc): [ShortNonConductingResistors] and the merging of
      device lists; Shorting.v and DeadEnds.v hold its theorem.
    - Fuses.v, CheckFiles.v (CCvcDb_init.cc, CCvcDb_interactive.cc, CModel.cc): fuse files,
      cell error limits and checksums, net and model checks.

    ** The files: propagation

    - EventQueue.v (CEventQueue.cc, .hh): lists threaded through
      [queueArray], the sub-queues and the queue, and their abstraction to two
      maps from time to device lists ([absQueue], [qinv]).
    - VirtualNet.v (CVirtualNet.cc, .hh; walks of CCvcDb_utility.cc): the
      chains, their cached ends and update stamps, [Set] and [operator()].
    - Power.v (CPower.cc, .hh, CSet.cc): powers in an explicit heap (pointers
      are shared between vectors), family relations, base powers,
      [CalculatePower].
    - Db.v (CCvcDb.hh, CCvcDb_utility.cc, parts of CCvcDb_error.cc): the state
      record [CCvcDb], the monad [DB], the loops over attached devices, level
      and resistance lookups, [MapDeviceNets], error counting.
    - ExampleDb.v: an inverter and a resistor divider, for the witnesses.
    - Connection.v (CConnection.cc): [CFullConnection] and its checks.
    - Short.v, Enqueue.v, Propagate.v, Simulate.v, Resistor.v (CCvcDb.cc): the
      handlers in the order of the source: shorts, event keys and
      enqueueing, resistor and min/max events, simulation events, the resistor
      phase; Divider.v: the voltage of a resistor divider.
    - Logic.v: the program logic of the handlers (triples [safe_ strict P m Q],
      the class [Stable] as the interface between a predicate and the code that
      keeps it).  Reads.v: the class of computations that only read.
    - Pending.v, Forest.v, Work.v: the invariants over all handlers: pending
      bits and queues, forests of virtual nets, the measure of the resistor
      loop.
    - MinMax.v (CCvcDb.cc, CCvcDb_utility.cc): the min/max pass:
      [ResetMinMaxPower], [SetInitialMinMaxPower], [RemoveInvalidPower];
      MinMaxReset.v and MinMaxLoop.v hold its theorems.
    - SimPower.v (CCvcDb.cc, CCvcDb_utility.cc): [SetSimPower],
      [SetAnalogNets], [CheckConnections], [HasLeakPath]; Analog.v holds the
      theorem on analog nets.
    - Latch.v, LatchMux.v (CCvcDb_init.cc): latch and SCRC power.
    - Dependency.v, Inverter.v (CCvcDb.cc): estimate dependencies and inverter
      chains.

    ** The files: checks

    - Overvoltage.v, GateSource.v, Bias.v, Diode.v, Leak.v, InverterCheck.v
      (CCvcDb_error.cc, CConnection.cc, CCvcDb_utility.cc): the checks in the
      order of the source; Expected.v (CCvcDb_error.cc): [CheckExpectedValues].
    - Mirror.v: PMOS checks as mirror images of NMOS checks; Frame.v: what the
      checks leave alone.

    ** The files: a mode

    - Driver.v (CCvcDb_main.cc, CCvcDb_init.cc): [ResetMinSimMaxAndQueues] and the stages 2
      to 7 of [VerifyCircuitForAllModes] as one computation [VerifyMode], which calls the
      operations of the files above in the order of the source.
    - Quiet.v: the class of predicates that only look at queues, pending bits and virtual
      nets, and for every pass that leaves these alone that it keeps them; Stages.v: the
      state between the stages.

    ** What is shown

    - A mode (Stages.v): from queues that hold nothing every stage starts and the mode ends
      at rest (empty queues, nothing pending, sized vectors, forests), so modes can follow
      each other.  This composes the theorems below on queues, virtual nets and loops.

    - Reading (Equation.v, Conditions.v, Model.v, PowerText.v, PowerFile.v):
      printed equations and power definitions are read back, equations have
      the value of their expression, conditions compare numbers, the first
      matching model is found and every model chains its devices.
    - Settings (Environment.v): the resource file a mode prints restores its settings.
    - Hierarchy (Hierarchy.v, Counting.v, Flatten.v, Merging.v): circuits are
      numbered or rejected, counts are those of the expanded design, flattening
      builds the expanded design, hashing finds the first equal instance.
    - Names and powers (Paths.v, Search.v, ModePower.v, InstancePower.v): every
      net is found again by the name it is printed with, also as a pattern; the
      definitions of a net are merged; instance files only add powers.
    - Links (Links.v, Equivalent.v): the lists of a net hold exactly its
      devices; equivalence classes are those the merged switches connect.
    - Resistors and fuses (Shorting.v, DeadEnds.v, Fuses.v): the shorting of dangling
      resistors ends without an error, keeps lists, counts and virtual nets consistent and
      leaves no dangling net; fuses that pass the check are overridden as the file says.
    - Queues (EventQueue.v): a queue behaves as two time-ordered maps of lists
      under any sequence of operations; events come out in time order; each
      device is queued at most once; draining returns every device once.
    - Virtual nets (VirtualNet.v, Forest.v): [operator()] returns the end of
      the chain whatever the state of the cache; [Set] keeps the nets a
      forest and the cache coherent; every state the handlers reach has only
      finite chains, so that the unbounded walks of the source end.
    - Powers (Power.v): effect and frame of [CalculatePower] on every queue,
      base power of a net, symmetry of relatives.
    - Handlers (Pending.v): in every reachable state the pending bit of a
      device says whether it is in the queue, and no handler ever raises
      [EQueueError].
    - Resistor phase (Work.v, Divider.v): its event loop ends after at most
      four events per device, with empty queues; a net between two resistors
      gets the exact voltage of the divider, between the two levels.
    - Min/max pass (MinMaxReset.v, MinMaxLoop.v): the reset leaves the min and
      max chains as parts of the simulation chains; the event loop never takes
      an event from an empty queue and returns only with both queues empty.
    - Analog nets (Analog.v): the recursion is bounded by the number of nets.
      Latches (LatchMux.v): arrays suffice, voltages come from complementary
      devices, SCRC switches are switched off.
    - Connections (Connection.v), dependencies and inverters: leak flags are
      ordered, transfer gates, path queries; [CheckEstimateDependencies] and
      [SetInverters] end and compute what they mean.
    - Checks (Overvoltage.v, Bias.v, Mirror.v, Frame.v): overvoltage errors are
      exact, a device that passes the bias check has no forward junction, the
      checks change nothing but counters, reports and caches; Expected.v: the errors are
      exactly the levels that differ from their expectation.

    ** Conventions

    Integers are [Z] with the wrap-around of their C type written out
    ([u32], [s16], ...); signed overflow, a vector access out of range and a
    null dereference are [Err UndefinedBehaviour], a failed [assert] is
    [Err AssertionFailed], an exception is the [Err] of its class.  Loops
    without a structural bound take fuel and end in [Err OutOfFuel] when it is
    used up: chain walks get one step more than there are nets (a chain of a
    forest visits no net twice) or the 5021 steps of the source's own link
    counter; loops over attached devices one step more than there are devices
    (the links [next] of a net are a list without repetition); the resistor
    loop [4 * devices + 1] (Work.v); [PropagateAnalogNetType] one more than the
    number of nets (Analog.v); [RemoveInvalidPower], which only calls itself
    for nets with greater numbers, likewise; [SetInverters] a bound proved
    sufficient in Inverter.v; loops over a text one step more than its length;
    the recursion over the hierarchy is bounded by the number of circuits
    (Counting.v, Flatten.v); [ShortNonConductingResistor] one more than the number of
    devices (Shorting.v).  The source does not bound the number of events
    of the min/max and simulation passes, nor that of the latch passes; their fuel is the
    argument [fuel] of [VerifyMode].  An update array that [ClearUpdateArray] has emptied is
    still written by [Set]: the write, undefined in C++, is modelled as lost ([stamp]).  The
    iteration order of unordered containers is an argument.  Text written to the
    log, report and debug files is reduced to the list [reports], which keeps
    the order and the subject of the reports; the text of a power's definition
    is kept in full.  [std::regex] is a parameter.

    ** What is not modelled

    The command line, lock files and signals of the driver, the progress reports and
    [PrintNetSuggestions]; the CDL grammar and scanner (generated by bison and flex from cdlParser.yy
    and cdlScanner.ll; the actions that build circuits are modelled as
    [readCircuit]), the interactive commands and the text of the reports, which
    only format what is modelled, compressed and memory-mapped files, resource
    limits, the vendored sources and the Python GUI. *)

From stdpp Require Import base list strings gmap sets.
From Stdlib Require Import ZArith Lia.

#[local] Open Scope Z_scope.

(** ** Machine integers

    A [w]-bit C integer is a [Z]; every operation of the code that may leave
    the range is followed by one of these reductions. *)

Definition wrap_u (w : Z) (z : Z) : Z := z mod 2 ^ w.
Definition wrap_s (w : Z) (z : Z) : Z := (z + 2 ^ (w - 1)) mod 2 ^ w - 2 ^ (w - 1).

Abbreviation u32 := (wrap_u 32).
Abbreviation u64 := (wrap_u 64).
Abbreviation s16 := (wrap_s 16).
Abbreviation s32 := (wrap_s 32).
Abbreviation s64 := (wrap_s 64).

Definition fits_u (w : Z) (z : Z) : Prop := 0 <= z < 2 ^ w.
Definition fits_s (w : Z) (z : Z) : Prop := - 2 ^ (w - 1) <= z < 2 ^ (w - 1).

Lemma wrap_u_id w z : fits_u w z -> wrap_u w z = z.
Proof. unfold fits_u, wrap_u. intros H. apply Z.mod_small. lia. Qed.

Lemma wrap_u_range w z : 0 <= w -> fits_u w (wrap_u w z).
Proof.
  intros Hw. unfold fits_u, wrap_u. apply Z.mod_pos_bound.
  apply Z.pow_pos_nonneg; lia.
Qed.

Lemma wrap_s_id w z : 0 < w -> fits_s w z -> wrap_s w z = z.
Proof.
  unfold fits_s, wrap_s. intros Hw H.
  assert (2 ^ w = 2 * 2 ^ (w - 1)) as E.
  { rewrite <- Z.pow_succ_r by lia. f_equal. lia. }
  rewrite Z.mod_small by lia. lia.
Qed.

Lemma wrap_s_range w z : 0 < w -> fits_s w (wrap_s w z).
Proof.
  unfold fits_s, wrap_s. intros Hw.
  assert (2 ^ w = 2 * 2 ^ (w - 1)) as E.
  { rewrite <- Z.pow_succ_r by lia. f_equal. lia. }
  assert (0 < 2 ^ (w - 1)) by (apply Z.pow_pos_nonneg; lia).
  pose proof (Z.mod_pos_bound (z + 2 ^ (w - 1)) (2 ^ w)). lia.
Qed.

Lemma s32_id z : -2147483648 <= z <= 2147483647 -> s32 z = z.
Proof. intros H. apply wrap_s_id; [lia | unfold fits_s; simpl; lia]. Qed.

Lemma s16_id z : -32768 <= z <= 32767 -> s16 z = z.
Proof. intros H. apply wrap_s_id; [lia | unfold fits_s; simpl; lia]. Qed.

Lemma s64_id z : -9223372036854775808 <= z <= 9223372036854775807 -> s64 z = z.
Proof. intros H. apply wrap_s_id; [lia | unfold fits_s; simpl; lia]. Qed.

Lemma u32_id z : 0 <= z <= 4294967295 -> u32 z = z.
Proof. intros H. apply wrap_u_id. unfold fits_u. simpl. lia. Qed.

Lemma u64_id z : 0 <= z <= 18446744073709551615 -> u64 z = z.
Proof. intros H. apply wrap_u_id. unfold fits_u. simpl. lia. Qed.

Create Rewrite HintDb cvc_int.
Create Rewrite HintDb cvc_vec.
#[export] Hint Rewrite s16_id s32_id s64_id u32_id u64_id using lia : cvc_int.

(** ** Failing computations

    [UndefinedBehaviour] stands for an access the C++ standard leaves
    undefined (vector index out of range, null pointer, [begin()] or [back()]
    of an empty container); [AssertionFailed] for a failing [assert]; the
    [E...] values for the exception classes of CCvcExceptions.hh;
    [OutOfFuel] only for a loop of the model whose fuel ran out. *)

Inductive failure : Set :=
| UndefinedBehaviour
| AssertionFailed
| EFatalError
| EBadEnvironment
| EQueueError
| EDatabaseError
| EPowerError
| EResistanceError
| EModelError
| EUnknownModel
| EDuplicateInstance
| EInvalidTerminal
| EOutOfRange
| ERegexError
| OutOfFuel.

#[export] Instance failure_eq_dec : EqDecision failure.
Proof. solve_decision. Defined.

Inductive outcome (A : Type) : Type :=
| Ok (a : A)
| Err (e : failure).
Arguments Ok {A} a.
Arguments Err {A} e.

#[export] Instance outcome_ret : MRet outcome := fun A a => Ok a.
#[export] Instance outcome_bind : MBind outcome :=
  fun A B f m => match m with Ok a => f a | Err e => Err e end.

Definition throw {A} (e : failure) : outcome A := Err e.
Definition assert_ (b : bool) : outcome unit := if b then Ok tt else Err AssertionFailed.

Lemma bind_Ok_inv {A B} (m : outcome A) (f : A -> outcome B) b :
  m ≫= f = Ok b -> exists a, m = Ok a /\ f a = Ok b.
Proof. destruct m as [a | e]; simpl; [eauto | discriminate]. Qed.

Lemma assert_Ok b : assert_ b = Ok tt <-> b = true.
Proof. destruct b; simpl; split; congruence. Qed.

(** Peel the binds of a successful computation, one hypothesis per step. *)
Ltac inv_ok H :=
  let a := fresh "a" in let Ha := fresh "Ha" in
  apply bind_Ok_inv in H as (a & Ha & H).

(** ** State and failure: handlers that thread a state *)

Definition M (S A : Type) : Type := S -> outcome (A * S).

#[export] Instance M_ret {S} : MRet (M S) := fun A a s => Ok (a, s).
#[export] Instance M_bind {S} : MBind (M S) :=
  fun A B f m s => match m s with Ok (a, s') => f a s' | Err e => Err e end.

Definition get {S} : M S S := fun s => Ok (s, s).
Definition gets {S A} (f : S -> A) : M S A := fun s => Ok (f s, s).
Definition put {S} (s : S) : M S unit := fun _ => Ok (tt, s).
Definition modify {S} (f : S -> S) : M S unit := fun s => Ok (tt, f s).
Definition lift {S A} (o : outcome A) : M S A :=
  fun s => match o with Ok a => Ok (a, s) | Err e => Err e end.
Definition raise {S A} (e : failure) : M S A := fun _ => Err e.
Definition assertM {S} (b : bool) : M S unit := lift (assert_ b).
Definition when {S} (b : bool) (m : M S unit) : M S unit := if b then m else mret tt.

Lemma M_run {S A B} (m : M S A) (f : A -> M S B) s a s' : m s = Ok (a, s') -> (m ≫= f) s = f a s'.
Proof. intros H. unfold mbind, M_bind. by rewrite H. Qed.

Lemma M_bind_inv {S A B} (m : M S A) (f : A -> M S B) s r :
  (m ≫= f) s = Ok r -> exists a s', m s = Ok (a, s') /\ f a s' = Ok r.
Proof.
  unfold mbind, M_bind. destruct (m s) as [[a s'] | e]; [eauto | discriminate].
Qed.

(** ** Vectors: [std::vector] read and written with [operator[]]

    The bounds are tested before the index is turned into a [nat]: the code
    uses 2^32-1 as its "unknown" identifier, an index no vector has. *)

Definition in_range {A} (v : list A) (i : Z) : bool :=
  (0 <=? i) && (i <? Z.of_nat (length v)).

Definition vlookup {A} (v : list A) (i : Z) : option A :=
  if in_range v i then v !! Z.to_nat i else None.

Definition vupdate {A} (v : list A) (i : Z) (x : A) : list A :=
  if in_range v i then <[Z.to_nat i := x]> v else v.

Definition vget {A} (v : list A) (i : Z) : outcome A :=
  match vlookup v i with Some x => Ok x | None => Err UndefinedBehaviour end.

Definition vset {A} (v : list A) (i : Z) (x : A) : outcome (list A) :=
  if in_range v i then Ok (vupdate v i x) else Err UndefinedBehaviour.

Section Vectors.
Context {A : Type}.
Implicit Types (v : list A) (x y : A).

Lemma in_range_spec v i : in_range v i = true <-> 0 <= i < Z.of_nat (length v).
Proof. unfold in_range. rewrite andb_true_iff, Z.leb_le, Z.ltb_lt. lia. Qed.

Lemma vlookup_is_Some v i : is_Some (vlookup v i) <-> 0 <= i < Z.of_nat (length v).
Proof.
  unfold vlookup. destruct (in_range v i) eqn:E.
  - apply in_range_spec in E. rewrite lookup_lt_is_Some. lia.
  - split; [intros [? ?]; discriminate |].
    intros H. apply in_range_spec in H. congruence.
Qed.

Lemma vlookup_range v i x : vlookup v i = Some x -> 0 <= i < Z.of_nat (length v).
Proof. intros H. apply vlookup_is_Some. eauto. Qed.

Lemma vlookup_lookup v i x : vlookup v i = Some x -> v !! Z.to_nat i = Some x.
Proof. unfold vlookup. destruct (in_range v i); [auto | discriminate]. Qed.

Lemma vupdate_length v i x : length (vupdate v i x) = length v.
Proof. unfold vupdate. destruct (in_range v i); [apply length_insert | auto]. Qed.

Lemma vupdate_in_range v i j x : in_range (vupdate v i x) j = in_range v j.
Proof. unfold in_range. by rewrite vupdate_length. Qed.

Lemma vlookup_vupdate_eq v i x :
  0 <= i < Z.of_nat (length v) -> vlookup (vupdate v i x) i = Some x.
Proof.
  intros H. unfold vlookup. rewrite vupdate_in_range.
  pose proof (proj2 (in_range_spec v i) H) as E. rewrite E.
  unfold vupdate. rewrite E. apply list_lookup_insert_eq. lia.
Qed.

Lemma vlookup_vupdate_ne v i j x : i <> j -> vlookup (vupdate v i x) j = vlookup v j.
Proof.
  intros H. unfold vlookup. rewrite vupdate_in_range.
  destruct (in_range v j) eqn:Ej; [| auto]. unfold vupdate.
  destruct (in_range v i) eqn:Ei; [| auto].
  apply in_range_spec in Ei, Ej. apply list_lookup_insert_ne. lia.
Qed.

Lemma vupdate_vupdate v i x y : vupdate (vupdate v i x) i y = vupdate v i y.
Proof.
  unfold vupdate at 1. rewrite vupdate_in_range. unfold vupdate.
  destruct (in_range v i); [apply list_insert_insert_eq | done].
Qed.

Lemma vlookup_vupdate v i j x :
  vlookup (vupdate v i x) j = if i =? j then (if in_range v i then Some x else None) else vlookup v j.
Proof.
  destruct (Z.eqb_spec i j) as [<- | Hne]; [| by apply vlookup_vupdate_ne].
  destruct (in_range v i) eqn:E.
  - apply in_range_spec in E. by apply vlookup_vupdate_eq.
  - unfold vlookup. by rewrite vupdate_in_range, E.
Qed.

Lemma vget_Ok v i x : vget v i = Ok x <-> vlookup v i = Some x.
Proof. unfold vget. destruct (vlookup v i); split; congruence. Qed.

Lemma vset_Ok v i x v' :
  vset v i x = Ok v' <-> 0 <= i < Z.of_nat (length v) /\ v' = vupdate v i x.
Proof.
  unfold vset. destruct (in_range v i) eqn:E.
  - apply in_range_spec in E. split; [intros [= <-]; auto | intros [_ ->]; auto].
  - split; [discriminate |]. intros [H _]. apply in_range_spec in H. congruence.
Qed.

Lemma vset_in_range v i x :
  0 <= i < Z.of_nat (length v) -> vset v i x = Ok (vupdate v i x).
Proof. intros. by apply vset_Ok. Qed.
End Vectors.

#[export] Hint Rewrite @vupdate_length : cvc_vec.

(** Case analysis on the boolean tests of the code, as [Prop] facts. *)
Ltac bool_to_prop :=
  repeat match goal with
  | H : (_ && _) = true |- _ => apply andb_true_iff in H as [? ?]
  | H : (_ || _) = false |- _ => apply orb_false_iff in H as [? ?]
  | H : negb _ = true |- _ => apply negb_true_iff in H
  | H : negb _ = false |- _ => apply negb_false_iff in H
  | H : (_ =? _) = true |- _ => apply Z.eqb_eq in H
  | H : (_ =? _) = false |- _ => apply Z.eqb_neq in H
  | H : (_ <? _) = true |- _ => apply Z.ltb_lt in H
  | H : (_ <? _) = false |- _ => apply Z.ltb_ge in H
  | H : (_ <=? _) = true |- _ => apply Z.leb_le in H
  | H : (_ <=? _) = false |- _ => apply Z.leb_gt in H
  end.

(** Split on the first test of the goal and simplify both branches. *)
Ltac case_test :=
  match goal with
  | |- context [if ?b then _ else _] => let E := fresh "E" in destruct b eqn:E; bool_to_prop
  end.
