(* ===== verification/CvcTypes.v ===== *)
(** * Constants, enumerations and integer helpers

    The types of CvcTypes.hh: the identifiers and their "unknown" values, the
    voltage, resistance and event-time ranges, the enumerations with the
    numeric values the code uses as bit positions, the voltage comparison
    macros, [AddResistance] of utility.h and [CCvcDb::SimKey]. *)

From S2P Require Import Prelude.
From stdpp Require Import base list.
From Stdlib Require Import ZArith Lia.
#[local] Open Scope Z_scope.

(** ** Ranges and sentinels (CvcTypes.hh) *)

Definition UINT32_MAX : Z := 4294967295.
Definition INT32_MAX : Z := 2147483647.
Definition INT32_MIN : Z := -2147483648.
Definition INT16_MAX : Z := 32767.
Definition INT16_MIN : Z := -32768.

Definition INFINITE_RESISTANCE : Z := UINT32_MAX.
Definition MAX_RESISTANCE : Z := Z.shiftr UINT32_MAX 2 - 1.
Definition VOLTAGE_SCALE : Z := 1000.
Definition MAX_VOLTAGE : Z := INT16_MAX - 1.
Definition MIN_VOLTAGE : Z := INT16_MIN + 1.
Definition MAX_EVENT_TIME : Z := INT32_MAX.
Definition MIN_EVENT_TIME : Z := INT32_MIN.
Definition UNKNOWN_NET : Z := UINT32_MAX.
Definition UNKNOWN_DEVICE : Z := UINT32_MAX.
Definition UNKNOWN_INSTANCE : Z := UINT32_MAX.
Definition UNKNOWN_VOLTAGE : Z := INT16_MAX.

(** ** Enumerations *)

Inductive modelType_t : Set :=
| NMOS | PMOS | RESISTOR | CAPACITOR | DIODE | BIPOLAR | FUSE_ON | FUSE_OFF
| SWITCH_ON | SWITCH_OFF | MOSFET | LDDN | LDDP | BOX | UNKNOWN.

Inductive eventQueue_t : Set := SIM_QUEUE | MAX_QUEUE | MIN_QUEUE.

Inductive queueStatus_t : Set := ENQUEUE | DEQUEUE.

Inductive deviceStatus_t : Set :=
| MIN_INACTIVE | MIN_PENDING | MAX_INACTIVE | MAX_PENDING | SIM_INACTIVE | SIM_PENDING.

Inductive netStatus_t : Set :=
| ANALOG | MIN_POWER | SIM_POWER | MAX_POWER
| NEEDS_MIN_CHECK | NEEDS_MAX_CHECK | NEEDS_MIN_CONNECTION | NEEDS_MAX_CONNECTION.

Inductive shortDirection_t : Set := SOURCE_TO_MASTER_DRAIN | DRAIN_TO_MASTER_SOURCE.

Inductive propagation_t : Set := POWER_NETS_ONLY | ALL_NETS_NO_FUSE | ALL_NETS_AND_FUSE.

Inductive queuePosition_t : Set :=
| QUEUE_HIZ | SKIP_QUEUE | MOS_DIODE | MAIN_BACK | DELAY_FRONT | DELAY_BACK.

Inductive calculationType_t : Set :=
| UNKNOWN_CALCULATION | NO_CALCULATION | UP_CALCULATION | DOWN_CALCULATION
| RESISTOR_CALCULATION | ESTIMATED_CALCULATION.

(** The bits of [CPower::type] and [CPower::active] (CPower.hh). *)
Inductive powerType_t : Set :=
| POWER_BIT | INPUT_BIT | HIZ_BIT | RESISTOR_BIT | ANALOG_BIT
| MIN_CALCULATED_BIT | SIM_CALCULATED_BIT | MAX_CALCULATED_BIT.

Inductive activeType_t : Set := MIN_ACTIVE | MAX_ACTIVE | MIN_IGNORE | MAX_IGNORE.

#[export] Instance powerType_eq_dec : EqDecision powerType_t.
Proof. solve_decision. Defined.
#[export] Instance activeType_eq_dec : EqDecision activeType_t.
Proof. solve_decision. Defined.
#[export] Instance modelType_eq_dec : EqDecision modelType_t.
Proof. solve_decision. Defined.
#[export] Instance eventQueue_eq_dec : EqDecision eventQueue_t.
Proof. solve_decision. Defined.
#[export] Instance queueStatus_eq_dec : EqDecision queueStatus_t.
Proof. solve_decision. Defined.
#[export] Instance deviceStatus_eq_dec : EqDecision deviceStatus_t.
Proof. solve_decision. Defined.
#[export] Instance netStatus_eq_dec : EqDecision netStatus_t.
Proof. solve_decision. Defined.
#[export] Instance shortDirection_eq_dec : EqDecision shortDirection_t.
Proof. solve_decision. Defined.
#[export] Instance propagation_eq_dec : EqDecision propagation_t.
Proof. solve_decision. Defined.
#[export] Instance queuePosition_eq_dec : EqDecision queuePosition_t.
Proof. solve_decision. Defined.
#[export] Instance calculationType_eq_dec : EqDecision calculationType_t.
Proof. solve_decision. Defined.

(** ** Device classes and voltage comparisons: the macros of CvcTypes.hh *)

Definition IsNmos_ (t : modelType_t) : bool :=
  match t with NMOS | LDDN => true | _ => false end.

Definition IsPmos_ (t : modelType_t) : bool :=
  match t with PMOS | LDDP => true | _ => false end.

Definition IsMos_ (t : modelType_t) : bool :=
  match t with NMOS | PMOS | LDDN | LDDP => true | _ => false end.

Definition IsKnownVoltage_ (v : Z) : bool := negb (v =? UNKNOWN_VOLTAGE).

Definition IsLesserVoltage_ (v w : Z) : bool :=
  IsKnownVoltage_ v && IsKnownVoltage_ w && (v <? w).

Definition IsGreaterVoltage_ (v w : Z) : bool :=
  IsKnownVoltage_ v && IsKnownVoltage_ w && (w <? v).

(** ** 8-bit status words ([bitset<8>]) *)

Definition status_get (s : Z) (bit : Z) : bool := Z.testbit s bit.

Definition status_set (s : Z) (bit : Z) (b : bool) : Z :=
  if b then Z.lor s (Z.shiftl 1 bit) else Z.ldiff s (Z.shiftl 1 bit).

Lemma shiftl_1_testbit i j : 0 <= i -> Z.testbit (Z.shiftl 1 i) j = (i =? j).
Proof.
  intros Hi. rewrite Z.shiftl_1_l.
  destruct (Z.eqb_spec i j) as [-> | Hne].
  - apply Z.pow2_bits_true. lia.
  - by apply Z.pow2_bits_false.
Qed.

Lemma status_get_set s i j b :
  0 <= i -> status_get (status_set s i b) j = if i =? j then b else status_get s j.
Proof.
  intros Hi. unfold status_get, status_set. destruct b.
  - rewrite Z.lor_spec, shiftl_1_testbit by lia.
    destruct (i =? j); [apply orb_true_r | apply orb_false_r].
  - rewrite Z.ldiff_spec, shiftl_1_testbit by lia.
    destruct (i =? j); simpl; [apply andb_false_r | apply andb_true_r].
Qed.

(** The bit position of each status enumerator is its C++ value. *)

Definition deviceBit (b : deviceStatus_t) : Z :=
  match b with
  | MIN_INACTIVE => 0 | MIN_PENDING => 1 | MAX_INACTIVE => 2
  | MAX_PENDING => 3 | SIM_INACTIVE => 4 | SIM_PENDING => 5
  end.

Definition netBit (b : netStatus_t) : Z :=
  match b with
  | ANALOG => 0 | MIN_POWER => 1 | SIM_POWER => 2 | MAX_POWER => 3
  | NEEDS_MIN_CHECK => 4 | NEEDS_MAX_CHECK => 5
  | NEEDS_MIN_CONNECTION => 6 | NEEDS_MAX_CONNECTION => 7
  end.

Definition powerBit (b : powerType_t) : Z :=
  match b with
  | POWER_BIT => 0 | INPUT_BIT => 1 | HIZ_BIT => 2 | RESISTOR_BIT => 3
  | ANALOG_BIT => 4 | MIN_CALCULATED_BIT => 5 | SIM_CALCULATED_BIT => 6
  | MAX_CALCULATED_BIT => 7
  end.

Definition activeBit (b : activeType_t) : Z :=
  match b with MIN_ACTIVE => 0 | MAX_ACTIVE => 1 | MIN_IGNORE => 2 | MAX_IGNORE => 3 end.

(** ** Resistance arithmetic ([AddResistance], utility.h)

    The operands are widened to [long], so the test cannot overflow; the sum
    kept in the other branch is at most [MAX_RESISTANCE]. *)

Definition AddResistance (theBase theIncrement : Z) : Z :=
  if MAX_RESISTANCE <? theBase + theIncrement then MAX_RESISTANCE
  else u32 (theBase + theIncrement).

Lemma MAX_RESISTANCE_val : MAX_RESISTANCE = 1073741822.
Proof. reflexivity. Qed.

(** Arithmetic with the value of the resistance limit. *)
Ltac rlia := pose proof MAX_RESISTANCE_val; lia.

Lemma AddResistance_min a b :
  0 <= a -> 0 <= b -> AddResistance a b = Z.min MAX_RESISTANCE (a + b).
Proof.
  intros Ha Hb. unfold AddResistance. rewrite MAX_RESISTANCE_val.
  destruct (Z.ltb_spec 1073741822 (a + b)).
  - lia.
  - rewrite u32_id by lia. lia.
Qed.

Lemma AddResistance_range a b :
  0 <= a -> 0 <= b -> 0 <= AddResistance a b <= MAX_RESISTANCE.
Proof. intros. rewrite AddResistance_min by lia. rewrite MAX_RESISTANCE_val. lia. Qed.

(** ** Event times of the simulation queue ([CCvcDb::SimKey]) *)

Definition EVENT_CUTOFF : Z := Z.shiftl 1 24.
Definition LARGE_EVENT_SCALE : Z := 8.

Definition SimKey (theCurrentKey theIncrement : Z) : outcome Z :=
  let myEventKey :=
    if theCurrentKey <? EVENT_CUTOFF then theCurrentKey
    else EVENT_CUTOFF + Z.shiftl (theCurrentKey - EVENT_CUTOFF) LARGE_EVENT_SCALE in
  let myEventKey := myEventKey + theIncrement in
  let myEventKey :=
    if EVENT_CUTOFF <? myEventKey
    then EVENT_CUTOFF + Z.shiftr (myEventKey - EVENT_CUTOFF) LARGE_EVENT_SCALE
    else myEventKey in
  _ ← assert_ (myEventKey <? MAX_EVENT_TIME);
  Ok (s32 myEventKey).

(** The scale the key stands for: the identity below the cutoff, 256 time
    units per key above it. *)
Definition SimTime (theKey : Z) : Z :=
  if theKey <? EVENT_CUTOFF then theKey
  else EVENT_CUTOFF + (theKey - EVENT_CUTOFF) * 256.

Lemma EVENT_CUTOFF_val : EVENT_CUTOFF = 16777216.
Proof. reflexivity. Qed.

Lemma SimKey_unfold k r :
  SimKey k r =
  let t := SimTime k + r in
  let e := if EVENT_CUTOFF <? t then EVENT_CUTOFF + (t - EVENT_CUTOFF) / 256 else t in
  _ ← assert_ (e <? MAX_EVENT_TIME); Ok (s32 e).
Proof.
  unfold SimKey, SimTime, LARGE_EVENT_SCALE.
  rewrite Z.shiftl_mul_pow2 by lia. change (2 ^ 8) with 256.
  destruct (k <? EVENT_CUTOFF); cbv zeta;
    (rewrite Z.shiftr_div_pow2 by lia); reflexivity.
Qed.

(** ** The queue a propagation step works on *)

(** [DefaultQueuePosition_] of CEventQueue.hh. *)
Definition DefaultQueuePosition_ (flag : bool) (queueType : eventQueue_t) : queuePosition_t :=
  if flag || bool_decide (queueType = SIM_QUEUE) then MAIN_BACK else DELAY_FRONT.

(** [SimKey] adds a resistance to the time a key stands for, up to the
    256 units of a key above the cutoff: when it returns, the new key lies
    between the current key and [MAX_EVENT_TIME], and its time is that of the
    current key plus the resistance, rounded down to the scale.  Otherwise the
    assertion fails, and exactly because the time is beyond the horizon. *)
Theorem SimKey_sound k r :
  MIN_EVENT_TIME <= k < MAX_EVENT_TIME -> 0 <= r <= UINT32_MAX ->
  match SimKey k r with
  | Ok k' => k <= k' < MAX_EVENT_TIME /\ SimTime k' <= SimTime k + r < SimTime k' + 256
  | Err e => e = AssertionFailed /\ SimTime MAX_EVENT_TIME <= SimTime k + r
  end.
Proof.
  unfold MIN_EVENT_TIME, MAX_EVENT_TIME, INT32_MIN, INT32_MAX, UINT32_MAX.
  intros Hk Hr. rewrite SimKey_unfold. cbv zeta.
  unfold SimTime, MAX_EVENT_TIME, INT32_MAX. rewrite EVENT_CUTOFF_val.
  change (2147483647 <? 16777216) with false. cbv iota.
  destruct (Z.ltb_spec k 16777216); case_test; unfold assert_;
    match goal with |- context [?e <? 2147483647] => destruct (Z.ltb_spec e 2147483647) end;
    simpl; (split; [try done |]);
    rewrite ?s32_id by (Z.to_euclidean_division_equations; lia);
    repeat case_test; Z.to_euclidean_division_equations; lia.
Qed.

Lemma SimKey_sound_witness :
  SimKey 16777215 1025 = Ok 16777220 /\
  SimTime 16777220 <= SimTime 16777215 + 1025 < SimTime 16777220 + 256.
Proof.
  split; [reflexivity |].
  refine (proj2 (SimKey_sound 16777215 1025 _ _));
    unfold MIN_EVENT_TIME, MAX_EVENT_TIME, INT32_MIN, INT32_MAX, UINT32_MAX; lia.
Defined.
