(* ===== verification/EventQueue.v ===== *)
(** * The event queues (CEventQueue.hh, CEventQueue.cc)

    A [CEventList] is a singly linked list of devices threaded through one
    vector, [queueArray], that every list of the queue shares: the cell of a
    queued device holds its successor, the cell of the last device holds the
    device itself and the cell of a device that is not queued holds
    [UNKNOWN_DEVICE].  A [CEventSubQueue] is an ordered map from event keys to
    such lists, a [CEventQueue] has a main and a delay sub-queue.

    Module [EventList] models the linked list and proves that it refines a
    double-ended list; module [SubQueue] the ordered map; module [EventQueue]
    the whole queue, with an abstract queue of plain lists
    ([absQueue]) that the operations refine. *)

From S2P Require Import Prelude CvcTypes.
From stdpp Require Import base list strings gmap pretty.
From Stdlib Require Import ZArith Lia Sorting.Sorted.
#[local] Open Scope Z_scope.

Module EventList.

Record CEventList : Type := mkEventList {
  first : Z;
  second : Z;
  eventListSize : Z
}.

(** The constructor: an empty list. *)
Definition newEventList : CEventList := mkEventList UNKNOWN_DEVICE UNKNOWN_DEVICE 0.

Definition empty (l : CEventList) : bool := first l =? UNKNOWN_DEVICE.

(** The vector of links is passed and returned: it is shared by reference. *)
Definition push_back (queueArray : list Z) (l : CEventList) (theDevice : Z)
  : outcome (list Z * CEventList) :=
  myCell ← vget queueArray theDevice;
  if negb (myCell =? UNKNOWN_DEVICE) then throw EQueueError else
  queueArray ← vset queueArray theDevice theDevice;
  if first l =? UNKNOWN_DEVICE then
    _ ← assert_ (second l =? UNKNOWN_DEVICE);
    Ok (queueArray, mkEventList theDevice theDevice (u64 (eventListSize l + 1)))
  else
    _ ← assert_ (negb (second l =? UNKNOWN_DEVICE));
    queueArray ← vset queueArray (second l) theDevice;
    Ok (queueArray, mkEventList (first l) theDevice (u64 (eventListSize l + 1))).

Definition push_front (queueArray : list Z) (l : CEventList) (theDevice : Z)
  : outcome (list Z * CEventList) :=
  myCell ← vget queueArray theDevice;
  if negb (myCell =? UNKNOWN_DEVICE) then throw EQueueError else
  if first l =? UNKNOWN_DEVICE then
    _ ← assert_ (second l =? UNKNOWN_DEVICE);
    queueArray ← vset queueArray theDevice theDevice;
    Ok (queueArray, mkEventList theDevice theDevice (u64 (eventListSize l + 1)))
  else
    _ ← assert_ (negb (second l =? UNKNOWN_DEVICE));
    queueArray ← vset queueArray theDevice (first l);
    Ok (queueArray, mkEventList theDevice (second l) (u64 (eventListSize l + 1))).

Definition pop_front (queueArray : list Z) (l : CEventList)
  : outcome (Z * (list Z * CEventList)) :=
  if first l =? UNKNOWN_DEVICE then throw EQueueError else
  let myDevice := first l in
  myNext ← vget queueArray (first l);
  let '(newFirst, newSecond) :=
    if first l =? myNext then (UNKNOWN_DEVICE, UNKNOWN_DEVICE) else (myNext, second l) in
  queueArray ← vset queueArray myDevice UNKNOWN_DEVICE;
  Ok (myDevice, (queueArray, mkEventList newFirst newSecond (u64 (eventListSize l - 1)))).

(** ** Representation: the devices a list holds, in order *)

Fixpoint linked (a : list Z) (xs : list Z) : Prop :=
  match xs with
  | [] => True
  | x :: r => vlookup a x = Some (default x (head r)) /\ linked a r
  end.

Record repr (a : list Z) (l : CEventList) (xs : list Z) : Prop := {
  repr_linked : linked a xs;
  repr_nodup : NoDup xs;
  repr_valid : Forall (fun x => 0 <= x < UNKNOWN_DEVICE) xs;
  repr_first : first l = default UNKNOWN_DEVICE (head xs);
  repr_second : second l = default UNKNOWN_DEVICE (last xs);
  repr_size : eventListSize l = Z.of_nat (length xs)
}.

Lemma linked_range a xs x : linked a xs -> x ∈ xs -> 0 <= x < Z.of_nat (length a).
Proof.
  induction xs as [| y xs IH]; simpl; [set_solver |].
  intros [Hy Hr] [-> | Hx]%elem_of_cons; [by eapply vlookup_range | auto].
Qed.

Lemma linked_not_unknown a xs x :
  linked a xs -> Forall (fun x => 0 <= x < UNKNOWN_DEVICE) xs -> x ∈ xs ->
  exists y, vlookup a x = Some y /\ y <> UNKNOWN_DEVICE.
Proof.
  induction xs as [| z xs IH]; simpl; [set_solver |].
  intros [Hz Hr] [Vz Vr]%Forall_cons [-> | Hx]%elem_of_cons; [| by apply IH].
  eexists. split; [exact Hz |]. destruct xs as [| w xs]; simpl; [lia |].
  apply Forall_cons in Vr as [? _]. lia.
Qed.

Lemma linked_frame a d v xs : d ∉ xs -> linked a xs -> linked (vupdate a d v) xs.
Proof.
  induction xs as [| x xs IH]; simpl; [auto |].
  intros Hd [Hx Hr]. apply not_elem_of_cons in Hd as [? ?].
  rewrite vlookup_vupdate_ne by congruence. auto.
Qed.

Lemma linked_snoc a ys z d :
  linked a (ys ++ [z]) -> NoDup (ys ++ [z]) -> d ∉ ys ++ [z] ->
  0 <= d < Z.of_nat (length a) ->
  linked (vupdate (vupdate a d d) z d) ((ys ++ [z]) ++ [d]).
Proof.
  intros Hl Hnd Hd Hr.
  assert (0 <= z < Z.of_nat (length a)) by (eapply linked_range; [exact Hl | set_solver]).
  assert (z <> d) by set_solver.
  induction ys as [| y ys IH]; simpl in *.
  - rewrite vlookup_vupdate_eq by (rewrite vupdate_length; lia).
    rewrite vlookup_vupdate_ne, vlookup_vupdate_eq by auto. auto.
  - destruct Hl as [Hy Hl]. apply NoDup_cons in Hnd as [Hy' Hnd].
    assert (y <> z) by set_solver. assert (y <> d) by set_solver.
    rewrite !vlookup_vupdate_ne by auto. rewrite Hy. split.
    + destruct ys; reflexivity.
    + apply IH; auto; set_solver.
Qed.

Lemma repr_first_unknown a l xs :
  repr a l xs -> (first l =? UNKNOWN_DEVICE) = bool_decide (xs = []).
Proof.
  intros R. rewrite (repr_first _ _ _ R). destruct xs as [| x xs]; simpl.
  - reflexivity.
  - pose proof (repr_valid _ _ _ R) as [? _]%Forall_cons.
    apply Z.eqb_neq. lia.
Qed.

Lemma repr_frame a l xs d v : d ∉ xs -> repr a l xs -> repr (vupdate a d v) l xs.
Proof. intros Hd []. constructor; auto. by apply linked_frame. Qed.

Lemma repr_new a : repr a newEventList [].
Proof. constructor; simpl; auto using NoDup_nil_2. Qed.

(** A queued device cannot be queued again, by either push. *)
Lemma push_queued a l d y :
  vlookup a d = Some y -> y <> UNKNOWN_DEVICE ->
  push_back a l d = Err EQueueError /\ push_front a l d = Err EQueueError.
Proof.
  intros H1 H2. unfold push_back, push_front, vget. rewrite H1. simpl.
  apply Z.eqb_neq in H2. by rewrite H2.
Qed.

Lemma length_lt_u64 a xs :
  linked a xs -> NoDup xs -> Z.of_nat (length a) <= UNKNOWN_DEVICE ->
  Z.of_nat (length xs) <= UNKNOWN_DEVICE.
Proof.
  intros Hl Hnd Ha.
  assert (xs ⊆ Z.of_nat <$> seq 0 (length a)) as Hsub.
  { intros x Hx. eapply linked_range in Hl; [| exact Hx].
    apply list_elem_of_fmap. exists (Z.to_nat x). rewrite elem_of_seq. lia. }
  apply NoDup_submseteq, submseteq_length in Hsub; [| done].
  rewrite length_fmap, length_seq in Hsub. lia.
Qed.

Section Refinement.
Variables (a : list Z) (l : CEventList) (xs : list Z).
Hypothesis (R : repr a l xs) (Hlen : Z.of_nat (length a) <= UNKNOWN_DEVICE).

Lemma repr_u64_succ : u64 (eventListSize l + 1) = Z.of_nat (S (length xs)).
Proof.
  rewrite (repr_size _ _ _ R).
  pose proof (length_lt_u64 a xs (repr_linked _ _ _ R) (repr_nodup _ _ _ R) Hlen) as H.
  unfold UNKNOWN_DEVICE, UINT32_MAX in H. rewrite u64_id; lia.
Qed.

Lemma push_back_refines d :
  vlookup a d = Some UNKNOWN_DEVICE -> d ∉ xs ->
  exists a' l', push_back a l d = Ok (a', l') /\ repr a' l' (xs ++ [d]) /\
    length a' = length a /\
    (forall e, e ∉ xs -> e <> d -> vlookup a' e = vlookup a e) /\ vlookup a' d = Some d.
Proof.
  intros Hd Hx. pose proof (vlookup_range _ _ _ Hd) as Hrd.
  unfold push_back, vget. rewrite Hd. simpl.
  rewrite vset_in_range by lia. simpl.
  rewrite (repr_first_unknown _ _ _ R).
  pose proof repr_u64_succ as Hu. destruct R as [Hl Hnd Hv Hf Hs Hz].
  destruct (decide (xs = [])) as [-> | Hne].
  - rewrite bool_decide_true by done. simpl in Hs. rewrite Hs. simpl.
    do 2 eexists. split; [reflexivity |]. split; [| split; [apply vupdate_length |]].
    + constructor; simpl; auto using NoDup_singleton.
      * by rewrite vlookup_vupdate_eq.
      * apply Forall_singleton. unfold UNKNOWN_DEVICE, UINT32_MAX in *. lia.
    + split; [intros; by rewrite vlookup_vupdate_ne | by apply vlookup_vupdate_eq].
  - rewrite bool_decide_false by done.
    destruct (exists_last Hne) as (ys & z & ->).
    rewrite last_snoc in Hs. simpl in Hs. rewrite Hs.
    assert (0 <= z < UNKNOWN_DEVICE) as Hz'.
    { apply Forall_app in Hv as [_ [Hv _]%Forall_cons]. exact Hv. }
    replace (z =? UNKNOWN_DEVICE) with false by (symmetry; apply Z.eqb_neq; lia). simpl.
    assert (0 <= z < Z.of_nat (length a)) by (eapply linked_range; [exact Hl | set_solver]).
    rewrite vset_in_range by (rewrite vupdate_length; lia). simpl.
    do 2 eexists. split; [reflexivity |].
    split; [| split; [by rewrite !vupdate_length |]].
    + constructor; simpl.
      * by apply linked_snoc.
      * apply NoDup_app. split; [done |]. split; [| apply NoDup_singleton]. set_solver.
      * apply Forall_app. split; [done |]. apply Forall_singleton.
        unfold UNKNOWN_DEVICE, UINT32_MAX in *. lia.
      * rewrite Hf. by destruct ys.
      * by rewrite last_snoc.
      * rewrite Hu. rewrite (length_app _ [d]). simpl. lia.
    + split; intros.
      * rewrite !vlookup_vupdate_ne by set_solver. done.
      * rewrite vlookup_vupdate_ne by set_solver. by apply vlookup_vupdate_eq.
Qed.

Lemma push_front_refines d :
  vlookup a d = Some UNKNOWN_DEVICE -> d ∉ xs ->
  exists a' l', push_front a l d = Ok (a', l') /\ repr a' l' (d :: xs) /\
    length a' = length a /\
    (forall e, e <> d -> vlookup a' e = vlookup a e) /\
    exists y, vlookup a' d = Some y /\ y <> UNKNOWN_DEVICE.
Proof.
  intros Hd Hx. pose proof (vlookup_range _ _ _ Hd) as Hrd.
  unfold push_front, vget. rewrite Hd. simpl.
  rewrite (repr_first_unknown _ _ _ R).
  pose proof repr_u64_succ as Hu. destruct R as [Hl Hnd Hv Hf Hs Hz].
  assert (0 <= d < UNKNOWN_DEVICE) by (unfold UNKNOWN_DEVICE, UINT32_MAX in *; lia).
  destruct xs as [| x xs'].
  - rewrite bool_decide_true by done. simpl in Hs. rewrite Hs. simpl.
    rewrite vset_in_range by lia. simpl.
    do 2 eexists. split; [reflexivity |].
    split; [| split; [by rewrite vupdate_length | split]].
    + constructor; simpl; auto using NoDup_singleton.
      by rewrite vlookup_vupdate_eq.
    + intros. by rewrite vlookup_vupdate_ne.
    + exists d. rewrite vlookup_vupdate_eq by lia. split; [done | lia].
  - rewrite bool_decide_false by done.
    assert (second l <> UNKNOWN_DEVICE) as Hs'.
    { rewrite Hs. destruct (last_is_Some (x :: xs')) as [_ Hls].
      destruct Hls as [z Hz']; [done |]. rewrite Hz'. simpl.
      apply last_Some_elem_of in Hz'. rewrite Forall_forall in Hv.
      specialize (Hv _ Hz'). lia. }
    apply Z.eqb_neq in Hs'. rewrite Hs'. simpl.
    rewrite vset_in_range by lia. simpl.
    do 2 eexists. split; [reflexivity |].
    split; [| split; [by rewrite vupdate_length | split]].
    + constructor.
      * change (linked ?a (d :: ?r)) with (vlookup a d = Some (default d (head r)) /\ linked a r).
        split; [by rewrite vlookup_vupdate_eq, Hf |]. by apply linked_frame.
      * by apply NoDup_cons.
      * by apply Forall_cons.
      * done.
      * rewrite Hs. done.
      * exact Hu.
    + intros. by rewrite vlookup_vupdate_ne.
    + exists (first l). rewrite vlookup_vupdate_eq by lia. split; [done |].
      rewrite Hf. simpl. apply Forall_cons in Hv as [? _]. lia.
Qed.
End Refinement.

Lemma pop_front_refines a l x xs :
  repr a l (x :: xs) -> Z.of_nat (length a) <= UNKNOWN_DEVICE ->
  exists a' l', pop_front a l = Ok (x, (a', l')) /\ repr a' l' xs /\
    length a' = length a /\ (forall e, e <> x -> vlookup a' e = vlookup a e) /\
    vlookup a' x = Some UNKNOWN_DEVICE.
Proof.
  intros R Hlen. unfold pop_front. rewrite (repr_first_unknown _ _ _ R).
  rewrite bool_decide_false by done. destruct R as [Hl Hnd Hv Hf Hs Hz].
  simpl in Hf, Hl. rewrite Hf. destruct Hl as [Hx Hl].
  pose proof (vlookup_range _ _ _ Hx) as Hrx.
  apply NoDup_cons in Hnd as [Hnx Hnd]. apply Forall_cons in Hv as [Hvx Hv].
  unfold vget. rewrite Hx. simpl.
  assert (u64 (eventListSize l - 1) = Z.of_nat (length xs)) as Hu.
  { rewrite Hz. simpl length.
    pose proof (length_lt_u64 a xs Hl Hnd Hlen) as H.
    unfold UNKNOWN_DEVICE, UINT32_MAX in H. rewrite u64_id; lia. }
  destruct xs as [| y ys]; simpl.
  - rewrite Z.eqb_refl. rewrite vset_in_range by lia. simpl.
    do 2 eexists. split; [reflexivity |]. split; [constructor; auto |].
    split; [apply vupdate_length |]. split; [intros; by apply vlookup_vupdate_ne |].
    by apply vlookup_vupdate_eq.
  - assert (x <> y) as Hxy by set_solver. apply Z.eqb_neq in Hxy. rewrite Hxy.
    rewrite vset_in_range by lia. simpl.
    do 2 eexists. split; [reflexivity |]. split.
    + constructor; auto. by apply linked_frame.
    + split; [apply vupdate_length |]. split; [intros; by apply vlookup_vupdate_ne |].
      by apply vlookup_vupdate_eq.
Qed.
End EventList.

(** ** Ordered maps ([std::map] with integer keys)

    The map is its list of entries in key order, so that [begin()] is the
    head of the list. *)
Module SubQueue.

Section OrderedMap.
Context {V : Type}.
Implicit Types (m : list (Z * V)) (v : V).

(** [operator[]] as an r-value: the entry of the key, or the default entry a
    new key gets. *)
Fixpoint om_get (d : V) (k : Z) m : V :=
  match m with
  | [] => d
  | (k', v) :: r => if k =? k' then v else om_get d k r
  end.

(** The map once the reference returned by [operator[]] has been written. *)
Fixpoint om_put (k : Z) (v : V) m : list (Z * V) :=
  match m with
  | [] => [(k, v)]
  | (k', v') :: r =>
      if k <? k' then (k, v) :: (k', v') :: r
      else if k =? k' then (k, v) :: r
      else (k', v') :: om_put k v r
  end.

Definition keys m : list Z := fst <$> m.

Lemma om_put_keys k v m x : x ∈ keys (om_put k v m) <-> x = k \/ x ∈ keys m.
Proof.
  unfold keys. induction m as [| [k' v'] r IH]; simpl; [set_solver |].
  destruct (Z.ltb_spec k k'); [set_solver |].
  destruct (Z.eqb_spec k k') as [-> | ?]; simpl; set_solver.
Qed.

Lemma om_put_sorted k v m :
  StronglySorted Z.lt (keys m) -> StronglySorted Z.lt (keys (om_put k v m)).
Proof.
  induction m as [| [k' v'] r IH]; simpl; intros Hs.
  - by repeat constructor.
  - inversion Hs as [| ? ? Hs' Hf]; subst.
    destruct (Z.ltb_spec k k').
    + constructor; [done |]. constructor; [done |].
      eapply Forall_impl; [exact Hf |]. intros x Hx. simpl in *. lia.
    + destruct (Z.eqb_spec k k') as [-> | ?]; [by constructor |].
      constructor; [by apply IH |]. apply Forall_forall. intros x Hx.
      apply om_put_keys in Hx as [-> | Hx]; [simpl; lia |].
      rewrite Forall_forall in Hf. by apply Hf.
Qed.
End OrderedMap.

Lemma Forall2_om_put {V W} (P : V -> W -> Prop) k v w m n :
  keys m = keys n ->
  Forall2 (fun e f => e.1 = f.1 /\ P e.2 f.2) m n -> P v w ->
  Forall2 (fun e f => e.1 = f.1 /\ P e.2 f.2) (om_put k v m) (om_put k w n).
Proof.
  intros _ Hf Hp. induction Hf as [| [k1 v1] [k2 w2] m n [Hk Hv] Hf IH]; simpl in *.
  - constructor; auto.
  - subst k2. destruct (k <? k1); [by repeat constructor |].
    destruct (k =? k1); by repeat constructor.
Qed.

Lemma Forall2_om_get {V W} (P : V -> W -> Prop) k v w m n :
  Forall2 (fun e f => e.1 = f.1 /\ P e.2 f.2) m n -> P v w ->
  P (om_get v k m) (om_get w k n).
Proof.
  intros Hf Hp. induction Hf as [| [k1 v1] [k2 w2] m n [Hk Hv] Hf IH]; simpl in *; [done |].
  subst k2. destruct (k =? k1); auto.
Qed.

(** ** The sub-queues *)

Definition CEventSubQueue : Type := list (Z * EventList.CEventList).

Definition QueueTime (q : CEventSubQueue) : Z :=
  match q with
  | [] => MAX_EVENT_TIME
  | (k, _) :: _ => k
  end.

(** The abstract sub-queue: the devices of each key, in order. *)
Definition absSub : Type := list (Z * list Z).

Definition devices (am : absSub) : list Z := concat (snd <$> am).

Definition sub_repr (a : list Z) (m : CEventSubQueue) (am : absSub) : Prop :=
  Forall2 (fun e f => e.1 = f.1 /\ EventList.repr a e.2 f.2) m am.

Lemma sub_repr_keys a m am : sub_repr a m am -> keys m = keys am.
Proof.
  unfold keys. induction 1 as [| [k v] [k' xs] m am [Hk _] _ IH]; [done |].
  simpl in *. f_equal; assumption.
Qed.

Lemma sub_repr_frame a m am d v :
  d ∉ devices am -> sub_repr a m am -> sub_repr (vupdate a d v) m am.
Proof.
  intros Hd Hr. induction Hr as [| [k l] [k' xs] m am [Hk Hl] Hr IH]; [constructor |].
  unfold devices in *. simpl in *. constructor; simpl.
  - split; [done |]. apply EventList.repr_frame; set_solver.
  - apply IH. set_solver.
Qed.

Lemma om_get_devices k am : om_get [] k am ⊆ devices am.
Proof.
  unfold devices. induction am as [| [k' xs] r IH]; simpl; [set_solver |].
  destruct (k =? k'); set_solver.
Qed.

Lemma om_get_lt k am : Forall (Z.lt k) (keys am) -> om_get ([] : list Z) k am = [].
Proof.
  induction am as [| [k' zs] r IH]; [done |]. simpl.
  intros [? Hf]%Forall_cons. destruct (Z.eqb_spec k k'); [lia | auto].
Qed.

Lemma om_put_devices_perm k xs ys am :
  StronglySorted Z.lt (keys am) -> ys ≡ₚ xs ++ om_get [] k am ->
  devices (om_put k ys am) ≡ₚ xs ++ devices am.
Proof.
  unfold devices. induction am as [| [k' zs] r IH]; simpl; intros Hs Hp.
  - by rewrite Hp, !app_nil_r.
  - inversion Hs as [| ? ? Hs' Hf]; subst.
    destruct (Z.ltb_spec k k'), (Z.eqb_spec k k'); try lia; simpl.
    + rewrite om_get_lt, app_nil_r in Hp; [by rewrite Hp |].
      eapply Forall_impl; [exact Hf |]. intros x Hx. simpl in *. lia.
    + by rewrite Hp, (assoc_L (++)).
    + rewrite IH by done. by rewrite !(assoc_L (++)), (comm (++) zs xs).
Qed.
End SubQueue.

Module EventQueue.
Import EventList SubQueue.

Record CLeakList : Type := mkLeakList { listSize : Z; leakDevices : list Z }.

(** [CLeakList::push_front]. *)
Definition leak_push_front (l : CLeakList) (theDevice : Z) : CLeakList :=
  mkLeakList (s32 (listSize l + 1)) (theDevice :: leakDevices l).

Record CEventQueue : Type := mkEventQueue {
  queueArray : list Z;
  queueType : eventQueue_t;
  leakMap : gmap string CLeakList;
  mainQueue : CEventSubQueue;
  delayQueue : CEventSubQueue;
  queueStart : bool;
  enqueueCount : Z;
  dequeueCount : Z;
  requeueCount : Z;
  printCounter : Z
}.

(** The bits a queue uses in the device status words are fixed by its type in
    the constructor of CCvcDb. *)
Definition inactiveBit (q : CEventQueue) : deviceStatus_t :=
  match queueType q with
  | SIM_QUEUE => SIM_INACTIVE | MAX_QUEUE => MAX_INACTIVE | MIN_QUEUE => MIN_INACTIVE
  end.

Definition pendingBit (q : CEventQueue) : deviceStatus_t :=
  match queueType q with
  | SIM_QUEUE => SIM_PENDING | MAX_QUEUE => MAX_PENDING | MIN_QUEUE => MIN_PENDING
  end.

(** A queue as the CEventQueue constructor leaves it. *)
Definition newEventQueue (theQueueType : eventQueue_t) : CEventQueue :=
  mkEventQueue [] theQueueType ∅ [] [] false 0 0 0 1000000.

(** The queue part of [ResetQueue]; the caller also clears the [lastUpdate]
    of the virtual nets the queue refers to.  The sub-queues are kept. *)
Definition ResetQueue (q : CEventQueue) (theDeviceCount : Z) : CEventQueue :=
  mkEventQueue (replicate (Z.to_nat theDeviceCount) UNKNOWN_DEVICE) (queueType q) (leakMap q)
    (mainQueue q) (delayQueue q) false 0 0 0 (printCounter q).

Definition IsNextMainQueue (q : CEventQueue) : bool :=
  match mainQueue q, delayQueue q with
  | [], _ => false
  | _ :: _, [] => true
  | (myMainKey, _) :: _, (myDelayKey, _) :: _ =>
      bool_decide (queueType q = SIM_QUEUE) || (myMainKey <=? myDelayKey)
  end.

(** [if ( --printCounter <= 0 ) PrintStatus();]: [PrintStatus] reports the
    counts and re-arms the counter. *)
Definition tickPrintCounter (myCounter : Z) : Z :=
  if s32 (myCounter - 1) <=? 0 then 1000000 else s32 (myCounter - 1).

Definition AddEvent (q : CEventQueue) (theEventKey theDeviceIndex : Z)
    (theQueuePosition : queuePosition_t) : outcome CEventQueue :=
  let theEventKey :=
    if bool_decide (queueType q = MAX_QUEUE) then s32 (- theEventKey) else theEventKey in
  let finish a m d :=
    mkEventQueue a (queueType q) (leakMap q) m d (queueStart q)
      (s64 (enqueueCount q + 1)) (dequeueCount q) (requeueCount q)
      (tickPrintCounter (printCounter q)) in
  let main := om_get newEventList theEventKey (mainQueue q) in
  let delay := om_get newEventList theEventKey (delayQueue q) in
  match theQueuePosition with
  | QUEUE_HIZ | MOS_DIODE =>
      '(a, l) ← push_front (queueArray q) main theDeviceIndex;
      Ok (finish a (om_put theEventKey l (mainQueue q)) (delayQueue q))
  | MAIN_BACK =>
      '(a, l) ← push_back (queueArray q) main theDeviceIndex;
      Ok (finish a (om_put theEventKey l (mainQueue q)) (delayQueue q))
  | DELAY_FRONT =>
      '(a, l) ← push_front (queueArray q) delay theDeviceIndex;
      Ok (finish a (mainQueue q) (om_put theEventKey l (delayQueue q)))
  | DELAY_BACK =>
      '(a, l) ← push_back (queueArray q) delay theDeviceIndex;
      Ok (finish a (mainQueue q) (om_put theEventKey l (delayQueue q)))
  | SKIP_QUEUE => throw EFatalError
  end.

(** The first list of a sub-queue loses its front; an exhausted list leaves
    the map.  [begin()] of an empty map may not be dereferenced. *)
Definition popBegin (a : list Z) (m : CEventSubQueue) : outcome (Z * (list Z * CEventSubQueue)) :=
  match m with
  | [] => throw UndefinedBehaviour
  | (k, l) :: r =>
      '(myDevice, (a, l)) ← pop_front a l;
      Ok (myDevice, (a, if empty l then r else (k, l) :: r))
  end.

Definition GetMainEvent (q : CEventQueue) : outcome (Z * CEventQueue) :=
  '(myDevice, (a, m)) ← popBegin (queueArray q) (mainQueue q);
  Ok (myDevice,
    mkEventQueue a (queueType q) (leakMap q) m (delayQueue q) (queueStart q)
      (enqueueCount q) (s64 (dequeueCount q + 1)) (requeueCount q)
      (tickPrintCounter (printCounter q))).

Definition GetDelayEvent (q : CEventQueue) : outcome (Z * CEventQueue) :=
  '(myDevice, (a, m)) ← popBegin (queueArray q) (delayQueue q);
  Ok (myDevice,
    mkEventQueue a (queueType q) (leakMap q) (mainQueue q) m (queueStart q)
      (enqueueCount q) (s64 (dequeueCount q + 1)) (requeueCount q)
      (tickPrintCounter (printCounter q))).

Definition GetEvent (q : CEventQueue) : outcome (Z * CEventQueue) :=
  if IsNextMainQueue q then GetMainEvent q else GetDelayEvent q.

(** The difference is a [long], the result a [deviceId_t]. *)
Definition QueueSize (q : CEventQueue) : Z := u32 (s64 (enqueueCount q - dequeueCount q)).

Definition queueEmpty (m : CEventSubQueue) : bool :=
  match m with [] => true | _ :: _ => false end.

Definition QueueTime (q : CEventQueue) : Z :=
  if negb (queueStart q) || (queueEmpty (delayQueue q) && queueEmpty (mainQueue q)) then 0
  else
    let myTime := Z.min (SubQueue.QueueTime (mainQueue q)) (SubQueue.QueueTime (delayQueue q)) in
    if bool_decide (queueType q = MAX_QUEUE) then s32 (- myTime) else myTime.

(** The two overloads of [Later]. *)
Definition Later (q : CEventQueue) (theEventKey : Z) : bool :=
  if bool_decide (queueType q = MAX_QUEUE) then theEventKey <? QueueTime q
  else QueueTime q <? theEventKey.

Definition Later2 (q : CEventQueue) (theFirstKey theSecondKey : Z) : bool :=
  if bool_decide (queueType q = MAX_QUEUE) then theFirstKey <? theSecondKey
  else theSecondKey <? theFirstKey.

(** The leak list of a device is found by the two power identifiers, the
    smaller one first. *)
Definition leakKey (sourcePowerId drainPowerId : Z) : string :=
  if sourcePowerId <? drainPowerId
  then (pretty (s32 sourcePowerId) +:+ " " +:+ pretty (s32 drainPowerId))%string
  else (pretty (s32 drainPowerId) +:+ " " +:+ pretty (s32 sourcePowerId))%string.

Definition AddLeak (q : CEventQueue) (theDevice sourcePowerId drainPowerId : Z) : CEventQueue :=
  let myKey := leakKey sourcePowerId drainPowerId in
  let myList := default (mkLeakList 0 []) (leakMap q !! myKey) in
  mkEventQueue (queueArray q) (queueType q) (<[myKey := leak_push_front myList theDevice]> (leakMap q))
    (mainQueue q) (delayQueue q) (queueStart q) (enqueueCount q) (dequeueCount q)
    (requeueCount q) (printCounter q).

(** The loop of [Print] over one list, collecting the devices it prints. *)
Fixpoint printList (fuel : nat) (a : list Z) (device_it myLastDevice : Z) : outcome (list Z) :=
  if negb (device_it =? UNKNOWN_DEVICE) && negb (device_it =? myLastDevice) then
    match fuel with
    | O => throw OutOfFuel
    | S fuel =>
        myNext ← vget a device_it;
        r ← printList fuel a myNext device_it;
        Ok (device_it :: r)
    end
  else Ok [].

(** Setters used by the callers of a queue. *)
Definition set_queueStart (b : bool) (q : CEventQueue) : CEventQueue :=
  mkEventQueue (queueArray q) (queueType q) (leakMap q) (mainQueue q) (delayQueue q) b
    (enqueueCount q) (dequeueCount q) (requeueCount q) (printCounter q).

Definition requeue (q : CEventQueue) : CEventQueue :=
  mkEventQueue (queueArray q) (queueType q) (leakMap q) (mainQueue q) (delayQueue q) (queueStart q)
    (enqueueCount q) (dequeueCount q) (s64 (requeueCount q + 1)) (printCounter q).

(** ** The abstract queue *)

Record absQueue : Type := mkAbsQueue { aMain : absSub; aDelay : absSub }.

Definition queued (A : absQueue) : list Z := devices (aMain A) ++ devices (aDelay A).

(** The key an event is filed under: MAX queues run from high to low. *)
Definition fileKey (t : eventQueue_t) (k : Z) : Z :=
  if bool_decide (t = MAX_QUEUE) then - k else k.

Definition absPut (f : list Z -> list Z) (k : Z) (am : absSub) : absSub :=
  om_put k (f (om_get [] k am)) am.

(** File device [d] under key [k]. *)
Definition absFile (k d : Z) (pos : queuePosition_t) (A : absQueue) : option absQueue :=
  match pos with
  | QUEUE_HIZ | MOS_DIODE => Some (mkAbsQueue (absPut (cons d) k (aMain A)) (aDelay A))
  | MAIN_BACK => Some (mkAbsQueue (absPut (fun xs => xs ++ [d]) k (aMain A)) (aDelay A))
  | DELAY_FRONT => Some (mkAbsQueue (aMain A) (absPut (cons d) k (aDelay A)))
  | DELAY_BACK => Some (mkAbsQueue (aMain A) (absPut (fun xs => xs ++ [d]) k (aDelay A)))
  | SKIP_QUEUE => None
  end.

Definition absAdd (t : eventQueue_t) (k d : Z) (pos : queuePosition_t) (A : absQueue)
  : option absQueue := absFile (fileKey t k) d pos A.

Definition absPop (am : absSub) : option (Z * Z * absSub) :=
  match am with
  | (k, [d]) :: r => Some (k, d, r)
  | (k, d :: xs) :: r => Some (k, d, (k, xs) :: r)
  | _ => None
  end.

Definition absNextMain (t : eventQueue_t) (A : absQueue) : bool :=
  match aMain A, aDelay A with
  | [], _ => false
  | _ :: _, [] => true
  | (km, _) :: _, (kd, _) :: _ => bool_decide (t = SIM_QUEUE) || (km <=? kd)
  end.

(** The next event with its filed key, and the queue without it. *)
Definition absGet (t : eventQueue_t) (A : absQueue) : option (Z * Z * absQueue) :=
  if absNextMain t A then
    '(k, d, m) ← absPop (aMain A); Some (k, d, mkAbsQueue m (aDelay A))
  else
    '(k, d, m) ← absPop (aDelay A); Some (k, d, mkAbsQueue (aMain A) m).

(** ** The representation invariant of a queue *)

Record sub_inv (a : list Z) (m : CEventSubQueue) (am : absSub) : Prop := {
  sub_repr_ok : sub_repr a m am;
  sub_sorted : StronglySorted Z.lt (keys am);
  sub_nonempty : Forall (fun e => e.2 <> []) am
}.

Record qinv (q : CEventQueue) (A : absQueue) : Prop := {
  q_main : sub_inv (queueArray q) (mainQueue q) (aMain A);
  q_delay : sub_inv (queueArray q) (delayQueue q) (aDelay A);
  q_nodup : NoDup (queued A);
  q_free : forall d, 0 <= d < Z.of_nat (length (queueArray q)) -> d ∉ queued A ->
    vlookup (queueArray q) d = Some UNKNOWN_DEVICE;
  q_len : Z.of_nat (length (queueArray q)) <= UNKNOWN_DEVICE;
  q_count : (enqueueCount q - dequeueCount q) mod 2 ^ 64 = Z.of_nat (length (queued A))
}.

Lemma repr_agree a a' l xs :
  (forall x, x ∈ xs -> vlookup a' x = vlookup a x) -> repr a l xs -> repr a' l xs.
Proof.
  intros Ha [Hl]. constructor; auto. clear -Ha Hl.
  induction xs as [| x xs IH]; [done |]. destruct Hl as [Hx Hl]. split.
  - rewrite Ha by set_solver. done.
  - apply IH; [| done]. intros. apply Ha. set_solver.
Qed.

Lemma sub_repr_agree a a' m am :
  (forall x, x ∈ devices am -> vlookup a' x = vlookup a x) -> sub_repr a m am -> sub_repr a' m am.
Proof.
  unfold devices. intros Ha Hr.
  induction Hr as [| [k l] [k' xs] m am [Hk Hl] Hr IH]; [constructor |]. simpl in *.
  constructor; [split; [done |] |].
  - eapply repr_agree; [| exact Hl]. intros. apply Ha. set_solver.
  - apply IH. intros. apply Ha. set_solver.
Qed.

Lemma sub_repr_put a a' m am k l' xs' :
  sub_repr a m am -> StronglySorted Z.lt (keys am) -> NoDup (devices am) -> repr a' l' xs' ->
  (forall e, e ∈ devices am -> e ∉ om_get [] k am -> vlookup a' e = vlookup a e) ->
  sub_repr a' (om_put k l' m) (om_put k xs' am).
Proof.
  unfold devices. intros Hr Hs Hnd Hl Ha.
  induction Hr as [| [k1 l] [k2 xs] m am [Hk Hx] Hr IH]; simpl in *.
  { constructor; [done | constructor]. }
  subst k2. inversion Hs as [| ? ? Hs' Hf]; subst.
  apply NoDup_app in Hnd as (Hnd1 & Hdis & Hnd2).
  destruct (Z.ltb_spec k k1), (Z.eqb_spec k k1); try lia.
  - rewrite om_get_lt in Ha
      by (eapply Forall_impl; [exact Hf |]; intros ? ?; simpl in *; lia).
    constructor; [done |]. constructor; [split; [done |] |].
    + eapply repr_agree; [| exact Hx]. intros. apply Ha; set_solver.
    + eapply sub_repr_agree; [| exact Hr]. unfold devices. intros. apply Ha; set_solver.
  - constructor; [done |]. eapply sub_repr_agree; [| exact Hr].
    unfold devices. intros. apply Ha; set_solver.
  - pose proof (om_get_devices k am) as Hsub. unfold devices in Hsub. constructor.
    + split; [done |]. eapply repr_agree; [| exact Hx]. intros. apply Ha; set_solver.
    + apply IH; auto. intros. apply Ha; set_solver.
Qed.

(** What both pushes promise about the list they extend. *)
Definition push_spec (push : list Z -> CEventList -> Z -> outcome (list Z * CEventList))
    (f : Z -> list Z -> list Z) : Prop :=
  forall a l xs d,
    repr a l xs -> Z.of_nat (length a) <= UNKNOWN_DEVICE ->
    vlookup a d = Some UNKNOWN_DEVICE -> d ∉ xs ->
    exists a' l', push a l d = Ok (a', l') /\ repr a' l' (f d xs) /\ length a' = length a /\
      (forall e, e ∉ xs -> e <> d -> vlookup a' e = vlookup a e).

Lemma push_front_spec : push_spec push_front cons.
Proof.
  intros a l xs d R Hlen Hd Hx.
  destruct (push_front_refines a l xs R Hlen d Hd Hx) as (a' & l' & E & R' & El & Ha & _).
  exists a', l'. auto.
Qed.

Lemma push_back_spec : push_spec push_back (fun d xs => xs ++ [d]).
Proof.
  intros a l xs d R Hlen Hd Hx.
  destruct (push_back_refines a l xs R Hlen d Hd Hx) as (a' & l' & E & R' & El & Ha & _).
  exists a', l'. auto.
Qed.

Lemma absPut_nonempty f k d (am : absSub) :
  (forall xs, f xs ≡ₚ d :: xs) -> Forall (fun e => e.2 <> []) am ->
  Forall (fun e => e.2 <> []) (absPut f k am).
Proof.
  intros Hf. assert (forall xs, f xs <> []) as Hn.
  { intros xs Hx. specialize (Hf xs). rewrite Hx in Hf.
    by apply Permutation_nil_cons in Hf. }
  unfold absPut. generalize (om_get [] k am). intros xs.
  induction am as [| [k' ys] r IH]; simpl; intros H.
  - apply Forall_singleton, Hn.
  - apply Forall_cons in H as [Hx Hr]. destruct (k <? k'), (k =? k');
      repeat apply Forall_cons_2; simpl; auto.
Qed.

(** One sub-queue under a push: the list of the key grows, the rest of the
    sub-queue and every cell outside that list are untouched. *)
Lemma sub_push push f a m am k d :
  push_spec push f -> (forall xs, f d xs ≡ₚ d :: xs) ->
  sub_inv a m am -> NoDup (devices am) -> d ∉ devices am ->
  Z.of_nat (length a) <= UNKNOWN_DEVICE -> vlookup a d = Some UNKNOWN_DEVICE ->
  exists a' l', push a (om_get newEventList k m) d = Ok (a', l') /\
    sub_inv a' (om_put k l' m) (absPut (f d) k am) /\ length a' = length a /\
    (forall e, e ∉ devices am -> e <> d -> vlookup a' e = vlookup a e) /\
    devices (absPut (f d) k am) ≡ₚ d :: devices am.
Proof.
  intros Hp Hf [Hr Hs Hne] Hnd Hd Hlen Hfree.
  pose proof (om_get_devices k am) as Hsub.
  assert (repr a (om_get newEventList k m) (om_get [] k am)) as Hl.
  { eapply Forall2_om_get; [exact Hr | apply repr_new]. }
  destruct (Hp _ _ _ _ Hl Hlen Hfree ltac:(set_solver)) as (a' & l' & E & R' & El & Ha).
  exists a', l'. refine (conj E (conj _ (conj El (conj _ _)))).
  - split; [| by apply om_put_sorted | by eapply absPut_nonempty].
    eapply sub_repr_put; eauto. intros e He Hn. apply Ha; [done | congruence].
  - intros e He Hn. apply Ha; [set_solver | done].
  - unfold absPut. rewrite (om_put_devices_perm k [d]); [done | done |]. by rewrite Hf.
Qed.

Lemma count_succ n m k :
  (n - m) mod 2 ^ 64 = k -> k + 1 < 2 ^ 64 -> (s64 (n + 1) - m) mod 2 ^ 64 = k + 1.
Proof.
  unfold wrap_s. change (2 ^ (64 - 1)) with (2 ^ 63). intros H Hk.
  pose proof (Z.mod_pos_bound (n - m) (2 ^ 64) ltac:(lia)).
  replace ((n + 1 + 2 ^ 63) mod 2 ^ 64 - 2 ^ 63 - m)
    with ((n + 1 + 2 ^ 63) mod 2 ^ 64 - (2 ^ 63 + m)) by lia.
  rewrite Zminus_mod_idemp_l.
  replace (n + 1 + 2 ^ 63 - (2 ^ 63 + m)) with ((n - m) + 1) by lia.
  rewrite <- Zplus_mod_idemp_l, H. apply Z.mod_small. lia.
Qed.

Lemma count_pred n m k :
  (n - m) mod 2 ^ 64 = k + 1 -> 0 <= k -> (n - s64 (m + 1)) mod 2 ^ 64 = k.
Proof.
  unfold wrap_s. change (2 ^ (64 - 1)) with (2 ^ 63). intros H Hk.
  pose proof (Z.mod_pos_bound (n - m) (2 ^ 64) ltac:(lia)).
  replace (n - ((m + 1 + 2 ^ 63) mod 2 ^ 64 - 2 ^ 63))
    with ((n + 2 ^ 63) - (m + 1 + 2 ^ 63) mod 2 ^ 64) by lia.
  rewrite Zminus_mod_idemp_r.
  replace (n + 2 ^ 63 - (m + 1 + 2 ^ 63)) with ((n - m) - 1) by lia.
  rewrite <- Zminus_mod_idemp_l, H. rewrite Z.mod_small; lia.
Qed.

Lemma queued_length_bound q A : qinv q A -> Z.of_nat (length (queued A)) <= Z.of_nat (length (queueArray q)).
Proof.
  intros [[Hm _ _] [Hd _ _] Hnd _ _ _].
  assert (forall m am, sub_repr (queueArray q) m am ->
    forall d, d ∈ devices am -> 0 <= d < Z.of_nat (length (queueArray q))) as Hin.
  { intros m am Hr. unfold devices.
    induction Hr as [| [k l] [k' xs] m am [Hk Hl] Hr IH]; simpl; [set_solver |].
    intros d [H | H]%elem_of_app; [| by apply IH].
    eapply linked_range; [apply Hl | done]. }
  assert (queued A ⊆ Z.of_nat <$> seq 0 (length (queueArray q))) as Hsub.
  { intros d [H | H]%elem_of_app; eapply Hin in H; eauto;
      apply list_elem_of_fmap; exists (Z.to_nat d); rewrite elem_of_seq; lia. }
  apply NoDup_submseteq, submseteq_length in Hsub; [| done].
  rewrite length_fmap, length_seq in Hsub. lia.
Qed.

Section Push.
Context (push : list Z -> CEventList -> Z -> outcome (list Z * CEventList)).
Context (f : Z -> list Z -> list Z) (Hpush : push_spec push f).
Context (d : Z) (Hf : forall xs, f d xs ≡ₚ d :: xs).
Context (q : CEventQueue) (A : absQueue) (Hq : qinv q A).
Hypothesis Hd : 0 <= d < Z.of_nat (length (queueArray q)).
Hypothesis Hnew : d ∉ queued A.

Lemma push_counts k A' :
  queued A' ≡ₚ d :: queued A ->
  (s64 (enqueueCount q + 1) - dequeueCount q) mod 2 ^ 64 = Z.of_nat (length (queued A')) /\
  NoDup (queued A') /\ (k ∉ queued A' -> k ∉ queued A /\ k <> d).
Proof.
  intros Hp. pose proof (queued_length_bound _ _ Hq) as Hb.
  pose proof (q_len _ _ Hq). unfold UNKNOWN_DEVICE, UINT32_MAX in *.
  split_and!.
  - rewrite Hp. simpl length.
    rewrite (count_succ _ _ (Z.of_nat (length (queued A)))); [lia | apply Hq | lia].
  - rewrite Hp. apply NoDup_cons. split; [done | apply Hq].
  - rewrite Hp. set_solver.
Qed.

Lemma push_main k :
  exists a' l', push (queueArray q) (om_get newEventList k (mainQueue q)) d = Ok (a', l') /\
    length a' = length (queueArray q) /\
    forall q', queueArray q' = a' -> mainQueue q' = om_put k l' (mainQueue q) ->
      delayQueue q' = delayQueue q -> enqueueCount q' = s64 (enqueueCount q + 1) ->
      dequeueCount q' = dequeueCount q ->
      qinv q' (mkAbsQueue (absPut (f d) k (aMain A)) (aDelay A)).
Proof.
  pose proof (q_nodup _ _ Hq) as (Hn1 & Hdis & Hn2)%NoDup_app.
  pose proof (q_free _ _ Hq d Hd Hnew) as Hcell. unfold queued in Hnew.
  destruct (sub_push push f _ _ _ k d Hpush Hf (q_main _ _ Hq) Hn1) as
    (a' & l' & E & Hs & El & Ha & Hperm); [set_solver | apply Hq | done |].
  exists a', l'. split; [done |]. split; [done |]. intros q' Ea Em Ed Ee Eq.
  assert (queued (mkAbsQueue (absPut (f d) k (aMain A)) (aDelay A)) ≡ₚ d :: queued A) as Hpq.
  { unfold queued. simpl. by rewrite Hperm. }
  constructor; rewrite ?Ea, ?Em, ?Ed, ?El; simpl.
  - done.
  - destruct (q_delay _ _ Hq) as [Hr Hs' Hne]. split; auto.
    eapply sub_repr_agree; [| exact Hr]. intros x Hx. apply Ha; set_solver.
  - by apply (push_counts 0).
  - intros x Hx Hnx. apply (push_counts x) in Hnx as [Hnx Hne]; [| done].
    rewrite Ha; [by apply Hq | set_solver | done].
  - apply Hq.
  - rewrite Ee, Eq. by apply (push_counts 0).
Qed.

Lemma push_delay k :
  exists a' l', push (queueArray q) (om_get newEventList k (delayQueue q)) d = Ok (a', l') /\
    length a' = length (queueArray q) /\
    forall q', queueArray q' = a' -> mainQueue q' = mainQueue q ->
      delayQueue q' = om_put k l' (delayQueue q) -> enqueueCount q' = s64 (enqueueCount q + 1) ->
      dequeueCount q' = dequeueCount q ->
      qinv q' (mkAbsQueue (aMain A) (absPut (f d) k (aDelay A))).
Proof.
  pose proof (q_nodup _ _ Hq) as (Hn1 & Hdis & Hn2)%NoDup_app.
  pose proof (q_free _ _ Hq d Hd Hnew) as Hcell. unfold queued in Hnew.
  destruct (sub_push push f _ _ _ k d Hpush Hf (q_delay _ _ Hq) Hn2) as
    (a' & l' & E & Hs & El & Ha & Hperm); [set_solver | apply Hq | done |].
  exists a', l'. split; [done |]. split; [done |]. intros q' Ea Em Ed Ee Eq.
  assert (queued (mkAbsQueue (aMain A) (absPut (f d) k (aDelay A))) ≡ₚ d :: queued A) as Hpq.
  { unfold queued. simpl. rewrite Hperm. symmetry. apply Permutation_middle. }
  constructor; rewrite ?Ea, ?Em, ?Ed, ?El; simpl.
  - destruct (q_main _ _ Hq) as [Hr Hs' Hne]. split; auto.
    eapply sub_repr_agree; [| exact Hr]. intros x Hx. apply Ha; set_solver.
  - done.
  - by apply (push_counts 0).
  - intros x Hx Hnx. apply (push_counts x) in Hnx as [Hnx Hne]; [| done].
    rewrite Ha; [by apply Hq | set_solver | done].
  - apply Hq.
  - rewrite Ee, Eq. by apply (push_counts 0).
Qed.
End Push.

Lemma fileKey_neg t k :
  INT32_MIN < k <= INT32_MAX ->
  (if bool_decide (t = MAX_QUEUE) then s32 (- k) else k) = fileKey t k.
Proof.
  unfold fileKey, INT32_MIN, INT32_MAX. intros H. case_bool_decide; [| done].
  apply s32_id. lia.
Qed.

Lemma perm_snoc (d : Z) xs : xs ++ [d] ≡ₚ d :: xs.
Proof. by rewrite Permutation_app_comm. Qed.

(** Adding an event that is not queued succeeds and files it under its key,
    negated in 32 bits for a MAX queue. *)
Lemma AddEvent_filed q A k d pos A' :
  qinv q A -> 0 <= d < Z.of_nat (length (queueArray q)) -> d ∉ queued A ->
  absFile (if bool_decide (queueType q = MAX_QUEUE) then s32 (- k) else k) d pos A = Some A' ->
  exists q', AddEvent q k d pos = Ok q' /\ qinv q' A' /\
    queueType q' = queueType q /\ length (queueArray q') = length (queueArray q) /\
    queueStart q' = queueStart q.
Proof.
  intros Hq Hd Hnew Habs. unfold AddEvent. unfold absFile in Habs.
  set (k' := if bool_decide (queueType q = MAX_QUEUE) then s32 (- k) else k) in *.
  destruct pos; simplify_eq;
    [ destruct (push_main _ _ push_front_spec d ltac:(done) q A Hq Hd Hnew k') as (a' & l' & E & El & Hi)
    | destruct (push_main _ _ push_front_spec d ltac:(done) q A Hq Hd Hnew k') as (a' & l' & E & El & Hi)
    | destruct (push_main _ _ push_back_spec d (perm_snoc d) q A Hq Hd Hnew k') as (a' & l' & E & El & Hi)
    | destruct (push_delay _ _ push_front_spec d ltac:(done) q A Hq Hd Hnew k') as (a' & l' & E & El & Hi)
    | destruct (push_delay _ _ push_back_spec d (perm_snoc d) q A Hq Hd Hnew k') as (a' & l' & E & El & Hi) ];
    rewrite E; simpl; eexists; (split; [reflexivity |]); (split; [by apply Hi |]);
    split_and!; done.
Qed.

Lemma absFile_queued k d pos q A A' :
  qinv q A -> absFile k d pos A = Some A' -> queued A' ≡ₚ d :: queued A.
Proof.
  intros [[_ Hm _] [_ Hd _] _ _ _ _] H. unfold absFile, absPut in H.
  destruct pos; simplify_eq; unfold queued; simpl;
    rewrite (om_put_devices_perm k [d]) by (rewrite ?perm_snoc; done); simpl;
    rewrite ?Permutation_middle; done.
Qed.

(** Within the key range, what the abstract queue does. *)
Lemma AddEvent_refines q A k d pos A' :
  qinv q A -> 0 <= d < Z.of_nat (length (queueArray q)) -> d ∉ queued A ->
  INT32_MIN < k <= INT32_MAX -> absAdd (queueType q) k d pos A = Some A' ->
  exists q', AddEvent q k d pos = Ok q' /\ qinv q' A' /\
    queueType q' = queueType q /\ length (queueArray q') = length (queueArray q) /\
    queueStart q' = queueStart q.
Proof.
  intros Hq Hd Hnew Hk Habs. apply (AddEvent_filed q A); [done.. |]. by rewrite fileKey_neg.
Qed.

Lemma queued_cell q A d :
  qinv q A -> d ∈ queued A ->
  exists y, vlookup (queueArray q) d = Some y /\ y <> UNKNOWN_DEVICE.
Proof.
  intros Hq Hd.
  assert (forall m am, sub_repr (queueArray q) m am -> d ∈ devices am ->
    exists y, vlookup (queueArray q) d = Some y /\ y <> UNKNOWN_DEVICE) as H.
  { unfold devices. intros m am Hr.
    induction Hr as [| [k l] [k' xs] m am [Hk [Hl _ Hv]] Hr IH]; simpl; [set_solver |].
    intros [Hx | Hx]%elem_of_app; [by eapply linked_not_unknown | auto]. }
  apply elem_of_app in Hd as [Hd | Hd]; eapply H; try exact Hd; apply Hq.
Qed.

Lemma AddEvent_queued q A k d pos :
  qinv q A -> d ∈ queued A -> pos <> SKIP_QUEUE -> AddEvent q k d pos = Err EQueueError.
Proof.
  intros Hq Hd Hp. destruct (queued_cell _ _ _ Hq Hd) as (y & Hy & Hne).
  unfold AddEvent. set (k' := if bool_decide _ then _ else _).
  destruct (push_queued _ (om_get newEventList k' (mainQueue q)) _ _ Hy Hne) as [E1 E2].
  destruct (push_queued _ (om_get newEventList k' (delayQueue q)) _ _ Hy Hne) as [E3 E4].
  destruct pos; try done; rewrite ?E1, ?E2, ?E3, ?E4; done.
Qed.

Lemma absPop_devices am k d am' : absPop am = Some (k, d, am') -> devices am = d :: devices am'.
Proof.
  unfold absPop, devices. intros H.
  destruct am as [| [k1 [| d1 [| d2 xs]]] r]; simplify_eq/=; done.
Qed.

Lemma sub_pop a m am k d am' :
  sub_inv a m am -> absPop am = Some (k, d, am') -> NoDup (devices am) ->
  Z.of_nat (length a) <= UNKNOWN_DEVICE ->
  exists a' m', popBegin a m = Ok (d, (a', m')) /\ sub_inv a' m' am' /\
    length a' = length a /\ (forall e, e <> d -> vlookup a' e = vlookup a e) /\
    vlookup a' d = Some UNKNOWN_DEVICE.
Proof.
  intros [Hr Hs Hne] Hpop Hnd Hlen. pose proof (absPop_devices _ _ _ _ Hpop) as Hdev.
  rewrite Hdev in Hnd. apply NoDup_cons in Hnd as [Hnd _].
  destruct Hr as [| [k1 l] [k2 xs] m am [Hk Hl] Hr]; [done |]. simpl in Hk, Hl. subst k2.
  simpl in Hs. inversion Hs as [| ? ? Hs' Hf]; subst. apply Forall_cons in Hne as [Hx Hne].
  unfold popBegin. destruct xs as [| d1 xs]; [done |].
  assert (d1 = d) as -> by (simpl in Hpop; destruct xs; by simplify_eq).
  destruct (pop_front_refines _ _ _ _ Hl Hlen) as (a' & l' & E & R' & El & Ha & Hd).
  rewrite E. simpl. unfold empty. rewrite (repr_first_unknown _ _ _ R').
  assert (d ∉ xs /\ d ∉ devices am) as [Hd1 Hd2].
  { pose proof (repr_nodup _ _ _ Hl) as [? _]%NoDup_cons. split; [done |].
    simpl in Hpop. unfold devices in *. destruct xs; simplify_eq/=; set_solver. }
  assert (sub_repr a' m am) as Hr'.
  { eapply sub_repr_agree; [| exact Hr]. intros e He. apply Ha. congruence. }
  exists a', (if bool_decide (xs = []) then m else (k1, l') :: m).
  split; [done |]. split; [| done].
  simpl in Hpop. destruct xs as [| d2 xs]; simplify_eq/=.
  - split; done.
  - split; [by constructor | by constructor | by constructor].
Qed.

Lemma absPop_Some am : Forall (fun e => e.2 <> []) am -> am <> [] -> is_Some (absPop am).
Proof.
  intros Hf Hn. destruct am as [| [k [| d [| d' xs]]] r]; simpl; eauto; [done |].
  apply Forall_cons in Hf as [? _]. done.
Qed.

Lemma sub_inv_nil a m am : sub_inv a m am -> (m = [] <-> am = []).
Proof. intros [Hr _ _]. destruct Hr; split; done. Qed.

Lemma IsNextMainQueue_abs q A : qinv q A -> IsNextMainQueue q = absNextMain (queueType q) A.
Proof.
  intros [[Hm _ _] [Hd _ _] _ _ _ _]. unfold IsNextMainQueue, absNextMain.
  destruct Hm as [| [k l] [k' xs] m am [Hk _] _]; [done |].
  destruct Hd as [| [k1 l1] [k1' xs1] m1 am1 [Hk1 _] _]; [done |]. simpl in *. by subst.
Qed.

Lemma pop_counts q A A' (d : Z) :
  qinv q A -> queued A ≡ₚ d :: queued A' ->
  (enqueueCount q - s64 (dequeueCount q + 1)) mod 2 ^ 64 = Z.of_nat (length (queued A')) /\
  NoDup (queued A') /\ d ∉ queued A'.
Proof.
  intros Hq Hp. pose proof (q_count _ _ Hq) as Hc. pose proof (q_nodup _ _ Hq) as Hn.
  rewrite Hp in Hc, Hn. apply NoDup_cons in Hn as [? ?]. split_and!; try done.
  apply count_pred; simpl length in *; lia.
Qed.

(** Taking the next event does what the abstract queue does. *)
Lemma GetEvent_refines q A k d A' :
  qinv q A -> absGet (queueType q) A = Some (k, d, A') ->
  exists q', GetEvent q = Ok (d, q') /\ qinv q' A' /\
    queueType q' = queueType q /\ length (queueArray q') = length (queueArray q) /\
    queueStart q' = queueStart q /\ queued A ≡ₚ d :: queued A'.
Proof.
  intros Hq Hget. pose proof (q_nodup _ _ Hq) as (Hn1 & Hdis & Hn2)%NoDup_app.
  unfold absGet in Hget. unfold GetEvent. rewrite (IsNextMainQueue_abs q A) by done.
  destruct (absNextMain (queueType q) A);
    apply bind_Some in Hget as ([[k1 d1] m1] & Hpop & [= -> -> <-]).
  - pose proof (absPop_devices _ _ _ _ Hpop) as Hdev.
    assert (queued A ≡ₚ d :: queued (mkAbsQueue m1 (aDelay A))) as Hp
      by (unfold queued; simpl; by rewrite Hdev).
    destruct (pop_counts _ _ _ _ Hq Hp) as (Hc & Hnd & Hfree).
    destruct (sub_pop _ _ _ _ _ _ (q_main _ _ Hq) Hpop Hn1 (q_len _ _ Hq))
      as (a' & m' & E & Hs & El & Ha & Hd).
    unfold GetMainEvent. rewrite E. simpl. eexists. split; [reflexivity |].
    split; [| split_and!; done]. constructor; simpl; rewrite ?El; try done; [| | apply Hq].
    + destruct (q_delay _ _ Hq) as [Hr Hs' Hne]. split; auto.
      eapply sub_repr_agree; [| exact Hr]. intros x Hx. apply Ha.
      unfold queued in Hfree. simpl in Hfree. set_solver.
    + intros x Hx Hnx. destruct (decide (x = d)) as [-> | Hne]; [done |].
      rewrite Ha by done. apply Hq; [done |]. rewrite Hp. set_solver.
  - pose proof (absPop_devices _ _ _ _ Hpop) as Hdev.
    assert (queued A ≡ₚ d :: queued (mkAbsQueue (aMain A) m1)) as Hp.
    { unfold queued. simpl. rewrite Hdev. symmetry. apply Permutation_middle. }
    destruct (pop_counts _ _ _ _ Hq Hp) as (Hc & Hnd & Hfree).
    destruct (sub_pop _ _ _ _ _ _ (q_delay _ _ Hq) Hpop Hn2 (q_len _ _ Hq))
      as (a' & m' & E & Hs & El & Ha & Hd).
    unfold GetDelayEvent. rewrite E. simpl. eexists. split; [reflexivity |].
    split; [| split_and!; done]. constructor; simpl; rewrite ?El; try done; [| | apply Hq].
    + destruct (q_main _ _ Hq) as [Hr Hs' Hne]. split; auto.
      eapply sub_repr_agree; [| exact Hr]. intros x Hx. apply Ha.
      unfold queued in Hfree. simpl in Hfree. set_solver.
    + intros x Hx Hnx. destruct (decide (x = d)) as [-> | Hne]; [done |].
      rewrite Ha by done. apply Hq; [done |]. rewrite Hp. set_solver.
Qed.

Lemma QueueSize_queued q A : qinv q A -> QueueSize q = Z.of_nat (length (queued A)).
Proof.
  intros Hq. pose proof (queued_length_bound _ _ Hq) as Hb.
  pose proof (q_len _ _ Hq). pose proof (q_count _ _ Hq) as Hc.
  unfold UNKNOWN_DEVICE, UINT32_MAX in *.
  unfold QueueSize, wrap_u, wrap_s. change (2 ^ (64 - 1)) with (2 ^ 63).
  rewrite <- Zplus_mod_idemp_l, Hc.
  rewrite (Z.mod_small (_ + 2 ^ 63)) by lia. rewrite Z.mod_small; lia.
Qed.

Lemma replicate_vlookup n d :
  0 <= d < Z.of_nat n -> vlookup (replicate n UNKNOWN_DEVICE) d = Some UNKNOWN_DEVICE.
Proof.
  intros H. unfold vlookup. rewrite (proj2 (in_range_spec _ _)) by (rewrite length_replicate; lia).
  apply lookup_replicate. split; [done | lia].
Qed.

Definition emptyQueue : absQueue := mkAbsQueue [] [].

Lemma sub_inv_empty a : sub_inv a [] [].
Proof. split; constructor. Qed.

Lemma ResetQueue_inv q n :
  0 <= n <= UNKNOWN_DEVICE -> mainQueue q = [] -> delayQueue q = [] ->
  qinv (ResetQueue q n) emptyQueue.
Proof.
  intros Hn Hm Hd. unfold ResetQueue. rewrite Hm, Hd.
  constructor; simpl; auto using sub_inv_empty, NoDup_nil_2; rewrite length_replicate.
  - intros d Hd' _. by apply replicate_vlookup.
  - lia.
Qed.

(** ** Operation sequences *)

Inductive qop : Type := OpAdd (k d : Z) (pos : queuePosition_t) | OpGet.

Fixpoint run (q : CEventQueue) (ops : list qop) : outcome (list Z * CEventQueue) :=
  match ops with
  | [] => Ok ([], q)
  | OpAdd k d pos :: ops => q ← AddEvent q k d pos; run q ops
  | OpGet :: ops => '(d, q) ← GetEvent q; '(ds, q) ← run q ops; Ok (d :: ds, q)
  end.

(** The abstract machine runs on plain lists; an event may be added when its
    device exists and is not queued, and taken when there is one. *)
Fixpoint absRun (t : eventQueue_t) (n : Z) (A : absQueue) (ops : list qop)
  : option (list Z * absQueue) :=
  match ops with
  | [] => Some ([], A)
  | OpAdd k d pos :: ops =>
      if bool_decide (0 <= d < n /\ d ∉ queued A /\ INT32_MIN < k <= INT32_MAX) then
        A ← absAdd t k d pos A; absRun t n A ops
      else None
  | OpGet :: ops =>
      '(_, d, A) ← absGet t A; '(ds, A) ← absRun t n A ops; Some (d :: ds, A)
  end.

Lemma run_refines ops : forall q A out A',
  qinv q A -> absRun (queueType q) (Z.of_nat (length (queueArray q))) A ops = Some (out, A') ->
  exists q', run q ops = Ok (out, q') /\ qinv q' A'.
Proof.
  induction ops as [| [k d pos |] ops IH]; intros q A out A' Hq H; simpl in H.
  - simplify_eq. exists q. split; done.
  - case_bool_decide as Hg; [| done]. destruct Hg as (Hd & Hnew & Hk).
    apply bind_Some in H as (A1 & Hadd & H).
    destruct (AddEvent_refines _ _ _ _ _ _ Hq Hd Hnew Hk Hadd) as (q1 & E & Hq1 & Et & El & _).
    simpl. rewrite E. simpl. apply (IH q1 A1); [done |]. by rewrite Et, El.
  - apply bind_Some in H as ([[k d] A1] & Hget & H).
    apply bind_Some in H as ([ds A2] & H & [= <- <-]).
    destruct (GetEvent_refines _ _ _ _ _ Hq Hget) as (q1 & E & Hq1 & Et & El & _ & _).
    simpl. rewrite E. simpl.
    destruct (IH q1 A1 ds A2) as (q' & E' & Hq'); [done | by rewrite Et, El |].
    rewrite E'. simpl. eauto.
Qed.

(** Taking [n] events in a row. *)
Fixpoint drain (n : nat) (q : CEventQueue) : outcome (list Z * CEventQueue) :=
  match n with
  | O => Ok ([], q)
  | S n => '(d, q) ← GetEvent q; '(ds, q) ← drain n q; Ok (d :: ds, q)
  end.

Lemma absGet_Some t q A :
  qinv q A -> queued A <> [] -> is_Some (absGet t A).
Proof.
  intros [[_ _ Hm] [_ _ Hd] _ _ _ _] Hne. unfold absGet.
  assert (aMain A <> [] \/ aDelay A <> []) as Hor.
  { unfold queued in Hne. destruct (aMain A), (aDelay A); auto. }
  unfold absNextMain. destruct (aMain A) as [| [km xm] m] eqn:Em.
  - destruct Hor as [? | Hor]; [done |].
    destruct (absPop_Some _ Hd Hor) as [[[k d] am] ->]. simpl. eauto.
  - destruct (absPop_Some _ Hm ltac:(done)) as [[[k d] am] Hp].
    destruct (aDelay A) as [| [kd xd] dl] eqn:Ed; [by rewrite Hp; simpl; eauto |].
    destruct (absPop_Some _ Hd ltac:(done)) as [[[k' d'] am'] Hp'].
    case_match; [rewrite Hp | rewrite Hp']; simpl; eauto.
Qed.

(** Taking an event, also from an empty queue. *)
Lemma GetEvent_cases q A :
  qinv q A ->
  match GetEvent q with
  | Ok (d, q') => exists A', qinv q' A' /\ queueType q' = queueType q /\
      length (queueArray q') = length (queueArray q) /\ queued A ≡ₚ d :: queued A'
  | Err e => e <> EQueueError
  end.
Proof.
  intros Hq. destruct (decide (queued A = [])) as [He | Hne].
  - unfold queued in He. apply app_nil in He as [Em Ed].
    assert (mainQueue q = [] /\ delayQueue q = []) as [Hm Hd].
    { split; [apply (sub_inv_nil _ _ _ (q_main _ _ Hq)) | apply (sub_inv_nil _ _ _ (q_delay _ _ Hq))];
        [destruct (aMain A) as [| [k [| x xs]] r] eqn:E | destruct (aDelay A) as [| [k [| x xs]] r] eqn:E];
        try done; (pose proof (sub_nonempty _ _ _ (q_main _ _ Hq)) as H1;
        pose proof (sub_nonempty _ _ _ (q_delay _ _ Hq)) as H2; rewrite E in *;
        by apply Forall_cons in H1 as [? _] || by apply Forall_cons in H2 as [? _]). }
    unfold GetEvent, IsNextMainQueue. rewrite Hm. unfold GetDelayEvent. by rewrite Hd.
  - destruct (absGet_Some (queueType q) q A Hq Hne) as [[[k d] A1] Hget].
    destruct (GetEvent_refines _ _ _ _ _ Hq Hget) as (q1 & -> & Hq1 & Et & El & _ & Hp). eauto.
Qed.

Lemma drain_queued n : forall q A,
  qinv q A -> length (queued A) = n ->
  exists ds q' A', drain n q = Ok (ds, q') /\ ds ≡ₚ queued A /\ qinv q' A' /\ queued A' = [] /\
    length (queueArray q') = length (queueArray q).
Proof.
  induction n as [| n IH]; intros q A Hq Hl; simpl.
  - exists [], q, A. apply nil_length_inv in Hl. rewrite Hl. split_and!; done.
  - destruct (absGet_Some (queueType q) q A Hq) as [[[k d] A1] Hget]; [by destruct (queued A) |].
    destruct (GetEvent_refines _ _ _ _ _ Hq Hget) as (q1 & E & Hq1 & Et & El & _ & Hp).
    rewrite E. simpl. destruct (IH q1 A1 Hq1) as (ds & q' & A' & E' & Hds & Hq' & Hn & Hlen).
    { apply Permutation_length in Hp. simpl in Hp. lia. }
    rewrite E'. simpl. exists (d :: ds), q', A'. split_and!; auto; [by rewrite Hds | lia].
Qed.

Lemma printList_step n a d p y r :
  d <> UNKNOWN_DEVICE -> d <> p -> vlookup a d = Some y -> printList n a y d = Ok r ->
  printList (S n) a d p = Ok (d :: r).
Proof.
  intros H1 H2 H3 H4. simpl. apply Z.eqb_neq in H1, H2. rewrite H1, H2. simpl.
  unfold vget. rewrite H3. simpl. by rewrite H4.
Qed.

Lemma printList_linked a xs : forall p,
  linked a xs -> NoDup xs -> Forall (fun x => 0 <= x < UNKNOWN_DEVICE) xs ->
  p ∉ xs -> xs <> [] ->
  printList (S (length xs)) a (default UNKNOWN_DEVICE (head xs)) p = Ok xs.
Proof.
  induction xs as [| x xs IH]; intros p Hl Hnd Hv Hp Hne; [done |].
  destruct Hl as [Hx Hl]. apply NoDup_cons in Hnd as [Hnx Hnd]. apply Forall_cons in Hv as [Hvx Hv].
  eapply printList_step; [simpl; lia | set_solver | exact Hx |].
  destruct xs as [| y ys]; [simpl; by rewrite Z.eqb_refl, andb_false_r |].
  by apply (IH x).
Qed.

Lemma keys_head_le (am : absSub) k xs r :
  StronglySorted Z.lt (keys am) -> am = (k, xs) :: r -> forall e, e ∈ am -> k <= e.1.
Proof.
  intros Hs -> e He. simpl in Hs. inversion Hs as [| ? ? _ Hf]; subst.
  apply elem_of_cons in He as [-> | He]; [done |].
  rewrite Forall_forall in Hf. apply Z.lt_le_incl, Hf.
  apply list_elem_of_fmap. eauto.
Qed.

Lemma absPop_head am k d am' : absPop am = Some (k, d, am') -> exists xs r, am = (k, xs) :: r.
Proof.
  unfold absPop. intros H.
  destruct am as [| [k1 [| d1 [| d2 xs]]] r]; simplify_eq/=; eauto.
Qed.

#[local] Arguments absPop : simpl never.

(** The queue time of a started MIN or MAX queue, and the order of its events. *)
Lemma absGet_earliest q A k d A' :
  qinv q A -> queueType q <> SIM_QUEUE -> absGet (queueType q) A = Some (k, d, A') ->
  Forall (fun e => e.1 <= MAX_EVENT_TIME) (aMain A ++ aDelay A) ->
  (forall e, e ∈ aMain A ++ aDelay A -> k <= e.1) /\
  Z.min (SubQueue.QueueTime (mainQueue q)) (SubQueue.QueueTime (delayQueue q)) = k.
Proof.
  intros [[Hm Hsm _] [Hd Hsd _] _ _ _ _] Ht Hget Hb. unfold absGet, absNextMain in Hget.
  rewrite bool_decide_false in Hget by done. simpl in Hget.
  rewrite Forall_app in Hb. destruct Hb as [Hbm Hbd].
  destruct Hm as [| [km lm] [km' xm] m am [Hkm _] Hm], Hd as [| [kd ld] [kd' xd] dl adl [Hkd _] Hd];
    simpl in *; subst; try done.
  - apply bind_Some in Hget as ([[k1 d1] m1] & Hpop & [= -> -> <-]).
    destruct (absPop_head _ _ _ _ Hpop) as (xs & r & [= -> -> ->]).
    split; [by eapply keys_head_le |]. apply Forall_cons in Hbd as [? _]. simpl in *. lia.
  - apply bind_Some in Hget as ([[k1 d1] m1] & Hpop & [= -> -> <-]).
    destruct (absPop_head _ _ _ _ Hpop) as (xs & r & [= -> -> ->]). rewrite app_nil_r.
    split; [by eapply keys_head_le |]. apply Forall_cons in Hbm as [? _]. simpl in *. lia.
  - destruct (Z.leb_spec km' kd');
      apply bind_Some in Hget as ([[k1 d1] m1] & Hpop & [= -> -> <-]);
      destruct (absPop_head _ _ _ _ Hpop) as (xs & r & [= -> -> ->]);
      (split; [| lia]); intros e He; rewrite app_comm_cons in He;
      apply elem_of_app in He as [He | He];
      (eapply keys_head_le in He; [| done | done]); simpl in *; lia.
Qed.



(** A started MIN or MAX queue delivers its events in time order: the
    next event is one with the earliest filed key of both sub-queues (the
    lowest voltage for MIN, the highest for MAX), and [QueueTime] announces
    exactly the key of that event. *)
Theorem GetEvent_earliest q A :
  qinv q A -> queueType q <> SIM_QUEUE -> queueStart q = true -> queued A <> [] ->
  Forall (fun e => INT32_MIN < e.1 <= MAX_EVENT_TIME) (aMain A ++ aDelay A) ->
  exists k d A' q', absGet (queueType q) A = Some (k, d, A') /\ GetEvent q = Ok (d, q') /\
    qinv q' A' /\ (forall e, e ∈ aMain A ++ aDelay A -> k <= e.1) /\
    QueueTime q = fileKey (queueType q) k.
Proof.
  intros Hq Ht Hs Hne Hb.
  destruct (absGet_Some (queueType q) q A Hq Hne) as [[[k d] A'] Hget].
  destruct (GetEvent_refines _ _ _ _ _ Hq Hget) as (q' & E & Hq' & _).
  destruct (absGet_earliest _ _ _ _ _ Hq Ht Hget) as [Hmin Htime].
  { eapply Forall_impl; [exact Hb |]. intros e He. simpl in He. lia. }
  exists k, d, A', q'. split_and!; auto. unfold QueueTime. rewrite Hs. simpl.
  assert (queueEmpty (delayQueue q) && queueEmpty (mainQueue q) = false) as ->.
  { pose proof (sub_inv_nil _ _ _ (q_main _ _ Hq)). pose proof (sub_inv_nil _ _ _ (q_delay _ _ Hq)).
    unfold queued in Hne. destruct (mainQueue q), (delayQueue q), (aMain A), (aDelay A);
      simpl; try done; naive_solver. }
  rewrite Htime. apply fileKey_neg.
  unfold absGet in Hget. destruct (absNextMain _ _);
    apply bind_Some in Hget as ([[k1 d1] m1] & Hpop & [= -> -> <-]);
    destruct (absPop_head _ _ _ _ Hpop) as (xs & r & Hr); rewrite Hr in Hb;
    apply Forall_app in Hb as [Hb1 Hb2].
  - apply Forall_cons in Hb1 as [? _]. simpl in *. done.
  - apply Forall_cons in Hb2 as [? _]. simpl in *. done.
Qed.

Example GetEvent_earliest_witness :
  exists q A, qinv q A /\ queueType q <> SIM_QUEUE /\ queueStart q = true /\ queued A <> [] /\
    exists k d A' q', absGet (queueType q) A = Some (k, d, A') /\ GetEvent q = Ok (d, q') /\
      qinv q' A' /\ (forall e, e ∈ aMain A ++ aDelay A -> k <= e.1) /\
      QueueTime q = fileKey (queueType q) k.
Proof.
  set (A := mkAbsQueue [(300, [2])] [(100, [0; 1])]).
  assert (exists q, queueType q = MIN_QUEUE /\ queueStart q = true /\ qinv q A) as (q & Ht & Hs & Hq).
  { destruct (run_refines [OpAdd 300 2 MAIN_BACK; OpAdd 100 0 DELAY_FRONT; OpAdd 100 1 DELAY_BACK]
      (set_queueStart true (ResetQueue (newEventQueue MIN_QUEUE) 3)) emptyQueue [] A)
      as (q & E & Hq).
    - destruct (ResetQueue_inv (newEventQueue MIN_QUEUE) 3) as [H1 H2 H3 H4 H5 H6];
        [unfold UNKNOWN_DEVICE, UINT32_MAX; lia | done | done | by constructor].
    - vm_compute. reflexivity.
    - exists q. vm_compute in E. injection E as <-. done. }
  exists q, A. rewrite Ht. split_and!; try done.
  apply (GetEvent_earliest q A) in Hq as H; rewrite ?Ht; try done.
  - by rewrite Ht in H.
  - repeat constructor; simpl; unfold INT32_MIN, MAX_EVENT_TIME, INT32_MAX; lia.
Defined.

(** C37: [QueueSize] calls of [GetEvent] in a row empty the queue: they all
    succeed, return every queued device exactly once, and leave every link
    cell free again. *)
Theorem drain_returns_all q A :
  qinv q A ->
  exists ds q', drain (Z.to_nat (QueueSize q)) q = Ok (ds, q') /\ ds ≡ₚ queued A /\
    NoDup ds /\ QueueSize q' = 0 /\
    (forall d, 0 <= d < Z.of_nat (length (queueArray q)) ->
      vlookup (queueArray q') d = Some UNKNOWN_DEVICE).
Proof.
  intros Hq. rewrite (QueueSize_queued _ _ Hq), Nat2Z.id.
  destruct (drain_queued _ q A Hq eq_refl) as (ds & q' & A' & E & Hp & Hq' & Hn & Hl).
  exists ds, q'. split_and!; auto.
  - rewrite Hp. apply Hq.
  - rewrite (QueueSize_queued _ _ Hq'), Hn. done.
  - intros d Hd. apply (q_free _ _ Hq'); [by rewrite Hl | rewrite Hn; apply not_elem_of_nil].
Qed.

Example drain_returns_all_witness :
  exists q A, qinv q A /\ queued A = [2; 0; 1] /\
  exists ds q', drain (Z.to_nat (QueueSize q)) q = Ok (ds, q') /\ ds ≡ₚ queued A /\
    NoDup ds /\ QueueSize q' = 0 /\
    (forall d, 0 <= d < Z.of_nat (length (queueArray q)) ->
      vlookup (queueArray q') d = Some UNKNOWN_DEVICE).
Proof.
  set (A := mkAbsQueue [(7, [2])] [(5, [0; 1])]).
  destruct (run_refines [OpAdd 7 2 MAIN_BACK; OpAdd 5 0 DELAY_FRONT; OpAdd 5 1 DELAY_BACK]
    (ResetQueue (newEventQueue SIM_QUEUE) 3) emptyQueue [] A) as (q & E & Hq).
  - apply ResetQueue_inv; [unfold UNKNOWN_DEVICE, UINT32_MAX; lia | done | done].
  - vm_compute. reflexivity.
  - exists q, A. split; [done |]. split; [done |]. by apply (drain_returns_all q A).
Defined.

(** A device is queued at most once: adding an existing device with a
    valid key and position succeeds exactly when the device is not in the
    queue, and otherwise raises [EQueueError]. *)
Theorem AddEvent_once q A k d pos :
  qinv q A -> 0 <= d < Z.of_nat (length (queueArray q)) ->
  INT32_MIN < k <= INT32_MAX -> pos <> SKIP_QUEUE ->
  (d ∉ queued A <-> exists q', AddEvent q k d pos = Ok q') /\
  (d ∈ queued A <-> AddEvent q k d pos = Err EQueueError).
Proof.
  intros Hq Hd Hk Hp.
  destruct (decide (d ∈ queued A)) as [Hin | Hnot].
  - pose proof (AddEvent_queued _ _ k _ _ Hq Hin Hp) as E. rewrite E. naive_solver.
  - assert (exists A', absAdd (queueType q) k d pos A = Some A') as [A' HA] by (destruct pos; eauto; done).
    destruct (AddEvent_refines _ _ _ _ _ _ Hq Hd Hnot Hk HA) as (q' & E & _).
    rewrite E. naive_solver.
Qed.

Example AddEvent_once_witness :
  let q := ResetQueue (newEventQueue MIN_QUEUE) 2 in
  (1 ∉ queued emptyQueue <-> exists q', AddEvent q 800 1 MAIN_BACK = Ok q') /\
  (1 ∈ queued emptyQueue <-> AddEvent q 800 1 MAIN_BACK = Err EQueueError).
Proof.
  intros q. apply (AddEvent_once q emptyQueue 800 1 MAIN_BACK).
  - apply ResetQueue_inv; [unfold UNKNOWN_DEVICE, UINT32_MAX; lia | done | done].
  - simpl. lia.
  - unfold INT32_MIN, INT32_MAX. lia.
  - done.
Defined.

(** [ResetQueue] clears the links but not the sub-queues, so it
    establishes the queue invariant with no event pending exactly when the
    queue had been drained before. *)
Theorem ResetQueue_needs_drained q n :
  0 <= n <= UNKNOWN_DEVICE ->
  qinv (ResetQueue q n) emptyQueue <-> mainQueue q = [] /\ delayQueue q = [].
Proof.
  intros Hn. split.
  - intros [Hm Hd _ _ _ _]. simpl in *. split; by eapply sub_inv_nil.
  - intros [Hm Hd]. by apply ResetQueue_inv.
Qed.

Example ResetQueue_needs_drained_witness :
  qinv (ResetQueue (newEventQueue SIM_QUEUE) 5) emptyQueue.
Proof.
  apply (ResetQueue_needs_drained (newEventQueue SIM_QUEUE) 5); [| done].
  unfold UNKNOWN_DEVICE, UINT32_MAX. lia.
Defined.

(** The traversal of [Print] visits exactly the devices of a list, in
    order, and terminates within one step per device. *)
Theorem Print_visits_list a l xs :
  repr a l xs -> printList (S (length xs)) a (first l) UNKNOWN_DEVICE = Ok xs.
Proof.
  intros [Hl Hnd Hv Hf _ _]. rewrite Hf. destruct xs as [| x xs]; [done |].
  apply printList_linked; try done.
  intros Hin. rewrite Forall_forall in Hv. specialize (Hv _ Hin). lia.
Qed.

Example Print_visits_list_witness :
  printList 4 [UNKNOWN_DEVICE; 3; 1; 3] 2 UNKNOWN_DEVICE = Ok [2; 1; 3].
Proof.
  apply (Print_visits_list [UNKNOWN_DEVICE; 3; 1; 3] (mkEventList 2 3 3) [2; 1; 3]).
  constructor; simpl; auto.
  - by compute_done.
  - repeat constructor; unfold UNKNOWN_DEVICE, UINT32_MAX; lia.
Defined.
End EventQueue.
