(* ===== verification/VirtualNet.v ===== *)
(** * Virtual nets (CVirtualNet.hh, CVirtualNet.cc)

    A virtual net vector records, for every net, the next net towards its
    voltage source and the resistance of that hop; the last net of a chain
    points at itself.  [CVirtualNet::operator()] returns the end of the chain
    with the accumulated resistance and caches both, with a time stamp;
    [CVirtualNetVector::Set] redirects a net.  The chain is specified by the
    inductive relation [path]; the cache by [coherent]. *)

From S2P Require Import Prelude CvcTypes.
From stdpp Require Import base list sets gmap.
From Stdlib Require Import ZArith Lia.
#[local] Open Scope Z_scope.

Module VirtualNet.

Record CVirtualNet : Type := mkVirtualNet {
  nextNetId : Z;
  resistance : Z;
  finalNetId : Z;
  finalResistance : Z;
  backupNetId : Z
}.

Definition newVirtualNet : CVirtualNet := mkVirtualNet UNKNOWN_NET 0 UNKNOWN_NET 0 UNKNOWN_NET.

Record CVirtualNetVector : Type := mkVirtualNetVector {
  nets : list CVirtualNet;
  lastUpdate : Z;
  lastUpdate_v : list Z;
  calculatedBit : powerType_t
}.

Definition set_nets (x : list CVirtualNet) (v : CVirtualNetVector) : CVirtualNetVector :=
  mkVirtualNetVector x (lastUpdate v) (lastUpdate_v v) (calculatedBit v).
Definition set_lastUpdate (x : Z) (v : CVirtualNetVector) : CVirtualNetVector :=
  mkVirtualNetVector (nets v) x (lastUpdate_v v) (calculatedBit v).
Definition set_lastUpdate_v (x : list Z) (v : CVirtualNetVector) : CVirtualNetVector :=
  mkVirtualNetVector (nets v) (lastUpdate v) x (calculatedBit v).

(** [std::vector::resize(n, d)]. *)
Definition vresize {A} (v : list A) (n : Z) (d : A) : list A :=
  take (Z.to_nat n) v ++ replicate (Z.to_nat n - length v) d.

Definition resize (v : CVirtualNetVector) (n : Z) : CVirtualNetVector :=
  mkVirtualNetVector (vresize (nets v) n newVirtualNet) (lastUpdate v)
    (vresize (lastUpdate_v v) n 0) (calculatedBit v).

Definition InitializeUpdateArray (v : CVirtualNetVector) : CVirtualNetVector :=
  set_lastUpdate_v (vresize (lastUpdate_v v) (Z.of_nat (length (nets v))) 0) v.

Definition ClearUpdateArray (v : CVirtualNetVector) : CVirtualNetVector :=
  set_lastUpdate_v [] v.

Definition IsTerminal (v : CVirtualNetVector) (theNetId : Z) : outcome bool :=
  n ← vget (nets v) theNetId; Ok (theNetId =? nextNetId n).

(** [CVirtualNet::operator==] compares the next hop only. *)
Definition eqVirtualNet (a b : CVirtualNet) : bool :=
  (nextNetId a =? nextNetId b) && (resistance a =? resistance b).

(** [CVirtualNet::Copy] keeps the target's own [backupNetId]. *)
Definition Copy (this theBase : CVirtualNet) : CVirtualNet :=
  mkVirtualNet (nextNetId theBase) (resistance theBase) (finalNetId theBase)
    (finalResistance theBase) (backupNetId this).

Definition BackupVirtualNets (v : CVirtualNetVector) : CVirtualNetVector :=
  set_nets ((fun n => mkVirtualNet (nextNetId n) (resistance n) (finalNetId n)
                        (finalResistance n) (nextNetId n)) <$> nets v) v.

(** The loop of [operator()] and of [Set]: follow [nextNetId], adding up the
    saturating resistance, until a net points at itself.  The link counter
    aborts on the 5021st hop, which bounds the loop. *)
Fixpoint chase (fuel : nat) (v : list CVirtualNet) (myLinkCount myNetId myResistance : Z)
    : outcome (Z * Z) :=
  match fuel with
  | O => throw OutOfFuel
  | S fuel =>
      n ← vget v myNetId;
      let myResistance := AddResistance myResistance (resistance n) in
      if myNetId =? nextNetId n then Ok (myNetId, myResistance)
      else
        let myLinkCount := myLinkCount + 1 in
        _ ← (if 5000 <? myLinkCount then assert_ (myLinkCount <? 5021) else Ok tt);
        chase fuel v myLinkCount (nextNetId n) myResistance
  end.

Definition chaseFuel : nat := Z.to_nat 5021.

Lemma chaseFuel_val : Z.of_nat chaseFuel = 5021.
Proof. reflexivity. Qed.
#[global] Opaque chaseFuel.

(** [CVirtualNet::operator()]: load the net [theNetId] of the vector into
    [this], recomputing the chain when the entry is older than the last
    update of the vector. *)
Definition access (this : CVirtualNet) (v : CVirtualNetVector) (theNetId : Z)
    : outcome (CVirtualNet * CVirtualNetVector) :=
  if theNetId =? UNKNOWN_NET then
    Ok (mkVirtualNet UNKNOWN_NET INFINITE_RESISTANCE UNKNOWN_NET INFINITE_RESISTANCE
          (backupNetId this), v)
  else
    n ← vget (nets v) theNetId;
    myStale ← (match lastUpdate_v v with
               | [] => Ok false
               | _ => t ← vget (lastUpdate_v v) theNetId; Ok (t <? lastUpdate v)
               end);
    '(myFinalNetId, myFinalResistance, v) ←
      (if (myStale : bool) then
         '(f, r) ← chase chaseFuel (nets v) 0 theNetId 0;
         x ← vset (nets v) theNetId
               (mkVirtualNet (nextNetId n) (resistance n) f r (backupNetId n));
         u ← vset (lastUpdate_v v) theNetId (lastUpdate v);
         Ok (f, r, set_lastUpdate_v u (set_nets x v))
       else Ok (finalNetId n, finalResistance n, v));
    _ ← assert_ (myFinalResistance <? MAX_RESISTANCE);
    Ok (mkVirtualNet (nextNetId n) (resistance n) myFinalNetId myFinalResistance
          (backupNetId this), v).

(** [lastUpdate_v[theNetId] = theTime].  [ClearUpdateArray] leaves an array without
    entries; [Set] still writes to it, beyond its size, into the memory [reserve] has
    kept.  The write is lost: [InitializeUpdateArray] fills the array with zeros. *)
Definition stamp (u : list Z) (theNetId theTime : Z) : outcome (list Z) :=
  match u with [] => Ok [] | _ => vset u theNetId theTime end.

(** [CVirtualNetVector::Set]. *)
Definition Set_ (v : CVirtualNetVector) (theNetId theNextNet theResistance theTime : Z)
    : outcome CVirtualNetVector :=
  next ← vget (nets v) theNextNet;
  if (nextNetId next =? theNetId) && negb (theNextNet =? theNetId) then Ok v
  else
    n ← vget (nets v) theNetId;
    let n := mkVirtualNet theNextNet theResistance (finalNetId n) (finalResistance n)
               (backupNetId n) in
    x ← vset (nets v) theNetId n;
    '(myFinalNetId, myFinalResistance) ←
      (if theNextNet =? UNKNOWN_NET then Ok (UNKNOWN_NET, INFINITE_RESISTANCE)
       else chase chaseFuel x 0 theNetId 0);
    x ← vset x theNetId
          (mkVirtualNet theNextNet theResistance myFinalNetId myFinalResistance (backupNetId n));
    u ← stamp (lastUpdate_v v) theNetId theTime;
    Ok (mkVirtualNetVector x theTime u (calculatedBit v)).

Definition stampable (u : list Z) (n : Z) : Prop := u = [] \/ is_Some (vlookup u n).

Lemma stampable_length u u' n : length u' = length u -> stampable u n -> stampable u' n.
Proof.
  intros El [-> | H]; [left; by apply nil_length_inv | right]. apply vlookup_is_Some. rewrite El. by apply vlookup_is_Some.
Qed.

Lemma stamp_Ok u n t u' : stamp u n t = Ok u' <-> stampable u n /\ u' = vupdate u n t.
Proof.
  unfold stamp, stampable. destruct u as [| x u]; [| rewrite vset_Ok, vlookup_is_Some; naive_solver].
  replace (vupdate [] n t) with ([] : list Z) by (unfold vupdate; by destruct (in_range _ _)). naive_solver.
Qed.

(** ** Walks over a chain (CCvcDb_utility.cc)

    These loops have no link counter; the fuel is the number of nets, which
    is enough when the chain ends (see [path_length_bound]). *)

Fixpoint masterNet (fuel : nat) (v : list CVirtualNet) (theNetId myResistance : Z)
    : outcome (Z * Z) :=
  match fuel with
  | O => throw OutOfFuel
  | S fuel =>
      n ← vget v theNetId;
      if theNetId =? nextNetId n then Ok (theNetId, myResistance)
      else masterNet fuel v (nextNetId n) (AddResistance myResistance (resistance n))
  end.

Definition EqualMasterNets (v : CVirtualNetVector) (theFirstNetId theSecondNetId : Z)
    : outcome bool :=
  if theFirstNetId =? theSecondNetId then Ok true
  else
    '(theFirstNetId, myFirstResistance) ← masterNet (length (nets v)) (nets v) theFirstNetId 0;
    '(theSecondNetId, mySecondResistance) ← masterNet (length (nets v)) (nets v) theSecondNetId 0;
    Ok ((theFirstNetId =? theSecondNetId) && (mySecondResistance =? myFirstResistance)).

(** [do { net_it = next; if ( test ) return true; } while ( ! IsTerminal )]. *)
Fixpoint searchChain (fuel : nat) (v : CVirtualNetVector) (test : Z -> bool) (net_it : Z)
    : outcome bool :=
  match fuel with
  | O => throw OutOfFuel
  | S fuel =>
      n ← vget (nets v) net_it;
      let net_it := nextNetId n in
      if test net_it then Ok true
      else
        t ← IsTerminal v net_it;
        if (t : bool) then Ok false else searchChain fuel v test net_it
  end.

(** [do { net_it = next; set.insert(net_it); } while ( ! IsTerminal )]. *)
Fixpoint collectChain (fuel : nat) (v : CVirtualNetVector) (mySet : gset Z) (net_it : Z)
    : outcome (gset Z) :=
  match fuel with
  | O => throw OutOfFuel
  | S fuel =>
      n ← vget (nets v) net_it;
      let net_it := nextNetId n in
      t ← IsTerminal v net_it;
      if (t : bool) then Ok ({[net_it]} ∪ mySet)
      else collectChain fuel v ({[net_it]} ∪ mySet) net_it
  end.

(** [myTargetNet] is the equivalent net of the target, which the code takes
    first.  The test of the loop is the code's: a net that is NOT the target
    ends the search with success. *)
Definition PathContains (theSearchVector : CVirtualNetVector) (theSearchNet myTargetNet : Z)
    : outcome bool :=
  if theSearchNet =? myTargetNet then Ok true
  else searchChain (S (length (nets theSearchVector))) theSearchVector
         (fun net_it => negb (net_it =? myTargetNet)) theSearchNet.

Definition PathCrosses (theSearchVector : CVirtualNetVector) (theSearchNet : Z)
    (theTargetVector : CVirtualNetVector) (theTargetNet : Z) : outcome bool :=
  myTargetSet ← collectChain (S (length (nets theTargetVector))) theTargetVector
                  {[theTargetNet]} theTargetNet;
  if bool_decide (theSearchNet ∈ (myTargetSet : gset Z)) then Ok true
  else searchChain (S (length (nets theSearchVector))) theSearchVector
         (fun net_it => bool_decide (net_it ∈ myTargetSet)) theSearchNet.

(** ** Chains *)

Inductive path (v : list CVirtualNet) : Z -> Z -> Z -> nat -> Prop :=
| path_end n e :
    vlookup v n = Some e -> nextNetId e = n -> path v n n (resistance e) 0
| path_step n e f r k :
    vlookup v n = Some e -> nextNetId e <> n -> path v (nextNetId e) f r k ->
    path v n f (resistance e + r) (S k).

(** Unsigned resistances. *)
Definition wf (v : list CVirtualNet) : Prop :=
  forall n e, vlookup v n = Some e -> 0 <= resistance e <= UINT32_MAX.

(** Every net of the vector has an end. *)
Definition forest (v : list CVirtualNet) : Prop :=
  forall n, is_Some (vlookup v n) -> exists f r k, path v n f r k.

(** An entry whose stamp is not older than the last update holds its chain. *)
Definition fresh (v : CVirtualNetVector) (n : Z) : Prop :=
  exists t, vlookup (lastUpdate_v v) n = Some t /\ lastUpdate v <= t.

Definition entry_ok (v : list CVirtualNet) (n : Z) (e : CVirtualNet) : Prop :=
  exists r k, path v n (finalNetId e) r k /\ finalResistance e = Z.min MAX_RESISTANCE r.

Definition coherent (v : CVirtualNetVector) : Prop :=
  length (lastUpdate_v v) = length (nets v) /\
  forall n e, vlookup (nets v) n = Some e -> fresh v n -> entry_ok (nets v) n e.

Section Chains.
Context (v : list CVirtualNet).

Lemma path_fun n f r k f' r' k' :
  path v n f r k -> path v n f' r' k' -> f = f' /\ r = r' /\ k = k'.
Proof.
  intros P. revert f' r' k'.
  induction P as [n e He Hn | n e f r k He Hn P IH]; intros f' r' k' Q;
    destruct Q as [n e' He' Hn' | n e' f' r' k' He' Hn' Q];
    rewrite He in He'; injection He' as <-; try done.
  destruct (IH _ _ _ Q) as (-> & -> & ->). done.
Qed.

Lemma path_nonneg n f r k : wf v -> path v n f r k -> 0 <= r.
Proof.
  intros W P. induction P as [n e He Hn | n e f r k He Hn P IH]; apply W in He; lia.
Qed.

Lemma path_lookup n f r k : path v n f r k -> is_Some (vlookup v n).
Proof. destruct 1; eauto. Qed.

Lemma path_terminal n f r k :
  path v n f r k -> exists e, vlookup v f = Some e /\ nextNetId e = f.
Proof. induction 1; eauto. Qed.

(** [chase] adds the chain, saturating, when the chain is short enough. *)
Lemma chase_path n f r k :
  wf v -> path v n f r k -> forall fuel c acc, (k < fuel)%nat -> 0 <= acc ->
  (k = 0%nat \/ c + Z.of_nat k <= 5020) ->
  chase fuel v c n acc = Ok (f, Z.min MAX_RESISTANCE (acc + r)).
Proof.
  intros W P. induction P as [n e He Hn | n e f r k He Hn P IH];
    intros fuel c acc Hf Ha Hc; destruct fuel as [| fuel]; [lia | | lia |];
    simpl; rewrite (proj2 (vget_Ok _ _ _) He); simpl;
    pose proof (W _ _ He) as He'; rewrite AddResistance_min by lia.
  - rewrite Hn, Z.eqb_refl. done.
  - destruct (Z.eqb_spec n (nextNetId e)) as [-> | _]; [done |].
    assert ((if 5000 <? c + 1 then assert_ (c + 1 <? 5021) else Ok tt) = Ok tt) as ->.
    { case_test; [| done]. apply assert_Ok, Z.ltb_lt. lia. }
    simpl. pose proof (path_nonneg _ _ _ _ W P).
    rewrite IH by (rlia). do 2 f_equal. rlia.
Qed.

Lemma chase_Ok fuel c n acc f R :
  wf v -> 0 <= acc -> 0 <= c -> chase fuel v c n acc = Ok (f, R) ->
  exists r k, path v n f r k /\ R = Z.min MAX_RESISTANCE (acc + r) /\
    (k = 0%nat \/ c + Z.of_nat k <= 5020).
Proof.
  intros W. revert c n acc. induction fuel as [| fuel IH]; simpl; [done |].
  intros c n acc Ha Hc H. inv_ok H. apply vget_Ok in Ha0. pose proof (W _ _ Ha0).
  rewrite AddResistance_min in H by lia.
  destruct (Z.eqb_spec n (nextNetId a)) as [Hn | Hn].
  - injection H as <- <-. exists (resistance a), 0%nat. split; [by constructor | auto].
  - inv_ok H. apply IH in H as (r & k & P & -> & Hk); [| rlia | lia].
    exists (resistance a + r), (S k). split; [by econstructor |].
    pose proof (path_nonneg _ _ _ _ W P). split; [rlia |].
    right. destruct (5000 <? c + 1) eqn:E; bool_to_prop; [| lia].
    destruct a0. apply assert_Ok, Z.ltb_lt in Ha1. lia.
Qed.

(** The link counter stops the loop before the model's fuel does. *)
Lemma chase_no_OutOfFuel fuel c n acc :
  5021 <= c + Z.of_nat fuel -> 0 <= c <= 5020 -> chase fuel v c n acc <> Err OutOfFuel.
Proof.
  revert c n acc. induction fuel as [| fuel IH]; simpl; [lia |]. intros c n acc Hf Hc.
  unfold vget. destruct (vlookup v n) as [e |]; simpl; [| done].
  case_test; [done |]. case_test; simpl.
  - unfold assert_. case_test; simpl; [apply IH; lia | done].
  - apply IH; lia.
Qed.

(** Along a chain the nets differ, so it is shorter than the vector. *)
Lemma path_nodes n f r k :
  path v n f r k -> exists xs, length xs = S k /\ NoDup xs /\
    forall x, x ∈ xs -> exists f' r' k', (k' <= k)%nat /\ path v x f' r' k'.
Proof.
  induction 1 as [n e He Hn | n e f r k He Hn P (xs & Hl & Hd & Hx)].
  - exists [n]. split; [done | split; [apply NoDup_singleton |]].
    intros x ->%list_elem_of_singleton. exists n, (resistance e), 0%nat. split; [lia | by constructor].
  - exists (n :: xs). split; [simpl; lia | split].
    + apply NoDup_cons. split; [| done]. intros (f' & r' & k' & Hk & Q)%Hx.
      pose proof (path_step _ _ _ _ _ _ He Hn P) as P'.
      destruct (path_fun _ _ _ _ _ _ _ P' Q) as (_ & _ & <-). lia.
    + intros x [-> | (f' & r' & k' & Hk & Q)%Hx]%elem_of_cons.
      * exists f, (resistance e + r), (S k). split; [lia | by econstructor].
      * exists f', r', k'. split; [lia | done].
Qed.

Lemma path_length_bound n f r k : path v n f r k -> (k < length v)%nat.
Proof.
  intros (xs & Hl & Hd & Hx)%path_nodes.
  assert (xs ⊆ Z.of_nat <$> seq 0 (length v)) as Hs.
  { intros x (f' & r' & k' & _ & Q)%Hx. apply path_lookup, vlookup_is_Some in Q.
    apply list_elem_of_fmap. exists (Z.to_nat x). rewrite elem_of_seq. lia. }
  apply NoDup_submseteq, submseteq_length in Hs; [| done].
  rewrite length_fmap, length_seq in Hs. lia.
Qed.

(** Nets met along the chain of a net, itself included. *)
Inductive reaches : Z -> Z -> Prop :=
| reach_refl n : reaches n n
| reach_step n e m :
    vlookup v n = Some e -> nextNetId e <> n -> reaches (nextNetId e) m -> reaches n m.

End Chains.

(** ** Updates of one entry *)

Section Update.
Context (v : list CVirtualNet) (x : Z) (e' : CVirtualNet).

Lemma path_update_away n f r k :
  path v n f r k -> ~ reaches v n x -> path (vupdate v x e') n f r k.
Proof.
  induction 1 as [n e He Hn | n e f r k He Hn P IH]; intros Hx.
  - constructor; [| done]. rewrite vlookup_vupdate_ne; [done |].
    intros ->. apply Hx, reach_refl.
  - econstructor; [| done | apply IH; contradict Hx; by econstructor].
    rewrite vlookup_vupdate_ne; [done |]. intros ->. apply Hx, reach_refl.
Qed.

(** Once [x] has an end after the update, so has every net that had one. *)
Lemma path_update_through n f r k fx rx kx :
  path v n f r k -> path (vupdate v x e') x fx rx kx ->
  exists f' r' k', path (vupdate v x e') n f' r' k'.
Proof.
  intros P Q. induction P as [n e He Hn | n e f r k He Hn P (f' & r' & k' & IH)];
    (destruct (decide (n = x)) as [-> | Hx]; [eauto |]).
  - exists n, (resistance e), 0%nat. constructor; [| done]. by rewrite vlookup_vupdate_ne.
  - exists f', (resistance e + r'), (S k'). econstructor; [| done | done].
    by rewrite vlookup_vupdate_ne.
Qed.

(** The cached fields take no part in a chain. *)
Lemma path_update_cache n f r k e :
  vlookup v x = Some e -> nextNetId e' = nextNetId e -> resistance e' = resistance e ->
  path v n f r k -> path (vupdate v x e') n f r k.
Proof.
  intros He Hn Hr P. pose proof (vlookup_range _ _ _ He) as Hx.
  induction P as [n e0 He0 Hn0 | n e0 f r k He0 Hn0 P IH];
    (destruct (decide (n = x)) as [-> | Hne];
     [rewrite He in He0; injection He0 as ->; rewrite <- Hr
     | assert (vlookup (vupdate v x e') n = Some e0) by (by rewrite vlookup_vupdate_ne)]).
  - constructor; [by apply vlookup_vupdate_eq | congruence].
  - by constructor.
  - rewrite <- Hn in IH. econstructor; [by apply vlookup_vupdate_eq | congruence | done].
  - by econstructor.
Qed.

Lemma wf_update : wf v -> 0 <= resistance e' <= UINT32_MAX -> wf (vupdate v x e').
Proof.
  intros W He n e H. destruct (decide (n = x)) as [-> | Hne].
  - pose proof (vlookup_range _ _ _ H) as Hr. rewrite vupdate_length in Hr.
    rewrite vlookup_vupdate_eq in H by done. congruence.
  - rewrite vlookup_vupdate_ne in H by done. by apply W in H.
Qed.

End Update.

(** ** The two operations *)

(** What a successful [Set] did: nothing, when the next net already points
    back, or one redirected entry whose cached end is its new chain. *)
Lemma Set_inv v n m r t v' :
  wf (nets v) -> 0 <= r <= UINT32_MAX -> Z.of_nat (length (nets v)) <= UNKNOWN_NET ->
  Set_ v n m r t = Ok v' ->
  (v' = v /\ m <> n /\ exists e, vlookup (nets v) m = Some e /\ nextNetId e = n) \/
  (exists e f R k, let x := mkVirtualNet m r f (Z.min MAX_RESISTANCE R) (backupNetId e) in
     vlookup (nets v) n = Some e /\ is_Some (vlookup (nets v) m) /\
     path (vupdate (nets v) n x) n f R k /\ Z.of_nat k <= 5020 /\
     stampable (lastUpdate_v v) n /\
     v' = mkVirtualNetVector (vupdate (nets v) n x) t (vupdate (lastUpdate_v v) n t)
            (calculatedBit v)).
Proof.
  intros W Hr Hlen H. unfold Set_ in H. inv_ok H. apply vget_Ok in Ha.
  destruct ((nextNetId a =? n) && negb (m =? n)) eqn:Eg; bool_to_prop.
  { injection H as <-. left. eauto. }
  right. inv_ok H. apply vget_Ok in Ha0. inv_ok H. apply vset_Ok in Ha1 as [Hn ->].
  pose proof (vlookup_range _ _ _ Ha). destruct (Z.eqb_spec m UNKNOWN_NET); [lia |].
  inv_ok H. destruct a1 as [f R]. inv_ok H. apply vset_Ok in Ha2 as [_ ->].
  rewrite vupdate_vupdate in H. simpl in H. inv_ok H. apply stamp_Ok in Ha2 as [Hu ->].
  injection H as <-. apply chase_Ok in Ha1 as (R0 & k & P & -> & Hk);
    [| by apply wf_update | lia | lia].
  exists a0, f, R0, k. simpl. split; [done |].
  split; [eauto |]. split; [| split; [lia | by split]].
  rewrite <- (vupdate_vupdate _ _ (mkVirtualNet m r (finalNetId a0) (finalResistance a0) (backupNetId a0))).
  eapply path_update_cache; [apply vlookup_vupdate_eq; lia | done | done | done].
Qed.

(** A walk that returns followed a chain to its end. *)
Lemma chase_ends v fuel c n acc p : chase fuel v c n acc = Ok p -> exists f r k, path v n f r k.
Proof.
  revert c n acc. induction fuel as [| fuel IH]; simpl; [done |].
  intros c n acc H. inv_ok H. apply vget_Ok in Ha.
  destruct (Z.eqb_spec n (nextNetId a)) as [Hn | Hn].
  - exists n, (resistance a), 0%nat. by constructor.
  - inv_ok H. apply IH in H as (f & r & k & P). exists f, (resistance a + r), (S k).
    by econstructor.
Qed.

(** A vector of nets whose chains end, small enough to leave [UNKNOWN_NET] out. *)
Record netsOk (v : CVirtualNetVector) : Prop := {
  nets_forest : forest (nets v);
  nets_small : Z.of_nat (length (nets v)) <= UNKNOWN_NET
}.

Lemma forest_update v n e f r k :
  forest v -> path (vupdate v n e) n f r k -> forest (vupdate v n e).
Proof.
  intros F P j Hj. apply vlookup_is_Some in Hj. rewrite vupdate_length in Hj.
  destruct (F j) as (f' & r' & k' & Q); [by apply vlookup_is_Some |].
  eapply path_update_through; eauto.
Qed.

Lemma forest_cache v n e e' :
  vlookup v n = Some e -> nextNetId e' = nextNetId e -> resistance e' = resistance e ->
  forest v -> forest (vupdate v n e').
Proof.
  intros He Hn Hr F j Hj. apply vlookup_is_Some in Hj. rewrite vupdate_length in Hj.
  destruct (F j) as (f & r & k & P); [by apply vlookup_is_Some |].
  exists f, r, k. by eapply path_update_cache.
Qed.

Lemma Set_forest v n m r t v' :
  netsOk v -> Set_ v n m r t = Ok v' -> netsOk v' /\ length (nets v') = length (nets v).
Proof.
  intros [F L] H. unfold Set_ in H. inv_ok H. apply vget_Ok in Ha.
  destruct ((nextNetId a =? n) && negb (m =? n)); [by injection H as <- |].
  inv_ok H. inv_ok H. apply vset_Ok in Ha1 as [Hn ->].
  pose proof (vlookup_range _ _ _ Ha). destruct (Z.eqb_spec m UNKNOWN_NET); [lia |].
  inv_ok H. destruct a1 as [f R]. inv_ok H. apply vset_Ok in Ha2 as [_ ->].
  inv_ok H. injection H as <-. simpl. rewrite !vupdate_length.
  split; [| done]. split; [| simpl; by rewrite !vupdate_length]. simpl.
  apply chase_ends in Ha1 as (f' & r' & k & P).
  eapply forest_cache; [by apply vlookup_vupdate_eq | done | done |]. by eapply forest_update.
Qed.

Lemma access_forest x v n y v' :
  netsOk v -> access x v n = Ok (y, v') -> netsOk v' /\ length (nets v') = length (nets v).
Proof.
  intros [F L] H. unfold access in H. destruct (n =? UNKNOWN_NET); [by injection H as <- <- |].
  inv_ok H. apply vget_Ok in Ha. inv_ok H. destruct a0.
  - inv_ok H. destruct a0 as [[f r] w]. inv_ok H. injection H as <- <-.
    inv_ok Ha1. destruct a1 as [f' r']. inv_ok Ha1. apply vset_Ok in Ha4 as [_ ->].
    inv_ok Ha1. injection Ha1 as <- <- <-. simpl. rewrite vupdate_length.
    split; [| done]. split; simpl; [by eapply forest_cache | by rewrite vupdate_length].
  - inv_ok H. destruct a0 as [[f r] w]. injection Ha1 as <- <- <-. inv_ok H. by injection H as <- <-.
Qed.

(** A stamp the entry keeps: [fresh] after the redirection of [n]. *)
Lemma coherent_redirect v n x t f R k :
  coherent v -> is_Some (vlookup (nets v) n) -> path (vupdate (nets v) n x) n f R k ->
  finalNetId x = f -> finalResistance x = Z.min MAX_RESISTANCE R ->
  (forall j u, j <> n -> vlookup (lastUpdate_v v) j = Some u -> t <= u ->
     fresh v j /\ ~ reaches (nets v) j n) ->
  coherent (mkVirtualNetVector (vupdate (nets v) n x) t (vupdate (lastUpdate_v v) n t)
              (calculatedBit v)).
Proof.
  intros [Hl Hc] Hn P Hf HR Haway. split; [simpl; by rewrite !vupdate_length |]. simpl.
  intros j e He (u & Hu & Ht). simpl in *. destruct (decide (j = n)) as [-> | Hne].
  - rewrite vlookup_vupdate_eq in He by (by apply vlookup_is_Some). injection He as <-.
    exists R, k. by rewrite Hf.
  - rewrite vlookup_vupdate_ne in He by done. rewrite vlookup_vupdate_ne in Hu by done.
    destruct (Haway j u Hne Hu Ht) as [Hfr Hnr].
    destruct (Hc j e He Hfr) as (r & k' & Q & Er). exists r, k'.
    split; [by apply path_update_away | done].
Qed.

(** No stamp is in the future. *)
Definition stamped (v : CVirtualNetVector) : Prop :=
  forall n t, vlookup (lastUpdate_v v) n = Some t -> t <= lastUpdate v.

Lemma access_stale v n e f r k this :
  wf (nets v) -> vlookup (nets v) n = Some e -> n <> UNKNOWN_NET ->
  (exists t, vlookup (lastUpdate_v v) n = Some t /\ t < lastUpdate v) ->
  path (nets v) n f r k -> Z.of_nat k <= 5020 -> r < MAX_RESISTANCE ->
  access this v n =
    Ok (mkVirtualNet (nextNetId e) (resistance e) f r (backupNetId this),
        mkVirtualNetVector
          (vupdate (nets v) n (mkVirtualNet (nextNetId e) (resistance e) f r (backupNetId e)))
          (lastUpdate v) (vupdate (lastUpdate_v v) n (lastUpdate v)) (calculatedBit v)).
Proof.
  intros W He Hn (t & Ht & Hlt) P Hk Hr. unfold access.
  rewrite (proj2 (Z.eqb_neq _ _) Hn), (proj2 (vget_Ok _ _ _) He). simpl.
  pose proof (path_nonneg _ _ _ _ _ W P).
  destruct (lastUpdate_v v) as [| t0 u] eqn:Eu; [by apply vlookup_range in Ht; simpl in Ht; lia |].
  rewrite (proj2 (vget_Ok _ _ _) Ht). simpl. rewrite (proj2 (Z.ltb_lt _ _) Hlt).
  rewrite (chase_path _ _ _ _ _ W P) by (pose proof chaseFuel_val; lia). simpl.
  rewrite Z.min_r, Z.add_0_l by lia.
  rewrite (vset_in_range (nets v)) by exact (vlookup_range _ _ _ He). simpl.
  rewrite vset_in_range by exact (vlookup_range _ _ _ Ht). simpl.
  by rewrite (proj2 (Z.ltb_lt _ _) Hr).
Qed.

Lemma access_cached v n e this :
  vlookup (nets v) n = Some e -> n <> UNKNOWN_NET ->
  (lastUpdate_v v = [] \/ fresh v n) -> finalResistance e < MAX_RESISTANCE ->
  access this v n =
    Ok (mkVirtualNet (nextNetId e) (resistance e) (finalNetId e) (finalResistance e)
          (backupNetId this), v).
Proof.
  intros He Hn Hu Hr. unfold access.
  rewrite (proj2 (Z.eqb_neq _ _) Hn), (proj2 (vget_Ok _ _ _) He). simpl.
  destruct (lastUpdate_v v) as [| t0 u] eqn:Eu; simpl.
  - by rewrite (proj2 (Z.ltb_lt _ _) Hr).
  - destruct Hu as [? | (t & Ht & Hle)]; [done |]. rewrite Eu in Ht.
    rewrite (proj2 (vget_Ok _ _ _) Ht). simpl. rewrite (proj2 (Z.ltb_ge _ _) Hle).
    simpl. by rewrite (proj2 (Z.ltb_lt _ _) Hr).
Qed.

(** Either kind of access: the end of the chain, and a coherent cache. *)
Lemma access_path v n f r k this :
  wf (nets v) -> coherent v -> path (nets v) n f r k -> n <> UNKNOWN_NET ->
  Z.of_nat k <= 5020 -> r < MAX_RESISTANCE ->
  exists e v', vlookup (nets v) n = Some e /\
    access this v n =
      Ok (mkVirtualNet (nextNetId e) (resistance e) f r (backupNetId this), v') /\
    coherent v' /\ wf (nets v') /\
    (forall j f' r' k', path (nets v) j f' r' k' -> path (nets v') j f' r' k').
Proof.
  intros W Hc P Hn Hk Hr. pose proof Hc as [Hl Hc'].
  destruct (path_lookup _ _ _ _ _ P) as [e He]. exists e.
  pose proof (vlookup_range _ _ _ He) as Hin.
  destruct (proj2 (vlookup_is_Some (lastUpdate_v v) n)) as [t Ht]; [by rewrite Hl |].
  destruct (decide (lastUpdate v <= t)) as [Hle | Hlt].
  - destruct (Hc' n e He) as (r0 & k0 & Q & Er); [by exists t |].
    destruct (path_fun _ _ _ _ _ _ _ _ P Q) as (-> & -> & ->).
    pose proof (path_nonneg _ _ _ _ _ W Q). rewrite Z.min_r in Er by lia.
    exists v. rewrite <- Er. rewrite (access_cached v n e) by (first [done | lia | by right; exists t]).
    eauto 10.
  - eexists. split; [done |]. rewrite (access_stale v n e f r k) by (eauto with lia).
    split; [done |]. pose proof (W _ _ He). pose proof (path_nonneg _ _ _ _ _ W P).
    assert (forall j f' r' k', path (nets v) j f' r' k' -> path
      (vupdate (nets v) n (mkVirtualNet (nextNetId e) (resistance e) f r (backupNetId e)))
      j f' r' k') as Hp by (intros; by eapply path_update_cache).
    split; [| split; [by apply wf_update | done]].
    split; [simpl; by rewrite !vupdate_length |]. simpl. intros j e0 He0 (u & Hu & Hle). simpl in *.
    rewrite vlookup_vupdate in He0. rewrite vlookup_vupdate in Hu.
    destruct (Z.eqb_spec n j) as [<- | Hne].
    + rewrite (proj2 (in_range_spec _ _) Hin) in He0. injection He0 as <-.
      exists r, k. simpl. split; [by apply Hp | lia].
    + destruct (Hc' j e0 He0) as (r1 & k1 & Q & E1); [by exists u |].
      exists r1, k1. split; [by apply Hp | done].
Qed.

(** ** Walks over chains that end *)

Lemma masterNet_path v n f r k :
  wf v -> path v n f r k -> forall fuel acc, (k < fuel)%nat -> 0 <= acc ->
  exists e, vlookup v f = Some e /\
    masterNet fuel v n acc = Ok (f, if decide (k = 0%nat) then acc
                                    else Z.min MAX_RESISTANCE (acc + (r - resistance e))).
Proof.
  intros W P. induction P as [n e He Hn | n e f r k He Hn P IH];
    intros fuel acc Hf Ha; destruct fuel as [| fuel]; [lia | | lia |];
    simpl; rewrite (proj2 (vget_Ok _ _ _) He); simpl; pose proof (W _ _ He) as Hr.
  - exists e. rewrite Hn, Z.eqb_refl. done.
  - destruct (Z.eqb_spec n (nextNetId e)) as [-> | _]; [done |].
    rewrite AddResistance_min by lia.
    destruct (IH fuel (Z.min MAX_RESISTANCE (acc + resistance e))) as (e1 & H1 & ->);
      [lia | rlia |]. exists e1. split; [done |]. do 2 f_equal.
    destruct P as [n' e2 He2 Hn2 | n' e2 f r k He2 Hn2 P]; simpl.
    + rewrite H1 in He2. injection He2 as ->. f_equal. lia.
    + pose proof (W _ _ He2).
      assert (resistance e1 <= r).
      { clear -W P H1. induction P as [m e3 He3 Hm | m e3 f r k He3 Hm P IH].
        - rewrite H1 in He3. injection He3 as ->. lia.
        - specialize (IH H1). apply W in He3. lia. }
      rlia.
Qed.

Lemma IsTerminal_lookup v n e :
  vlookup (nets v) n = Some e -> IsTerminal v n = Ok (n =? nextNetId e).
Proof. intros He. unfold IsTerminal. by rewrite (proj2 (vget_Ok _ _ _) He). Qed.

Lemma reaches_next v n e m :
  vlookup v n = Some e -> reaches v n m -> m = n \/ reaches v (nextNetId e) m.
Proof. intros He H. destruct H as [n | n e' m He' Hn H]; [auto | right; congruence]. Qed.

Lemma reaches_terminal v n e m :
  vlookup v n = Some e -> nextNetId e = n -> reaches v n m -> m = n.
Proof. intros He Hn H. destruct H as [| n e' m He' Hn' H]; congruence. Qed.

Lemma searchChain_path v test n f r k :
  path (nets v) n f r k -> forall fuel, (S k < fuel)%nat -> test n = false ->
  exists b, searchChain fuel v test n = Ok b /\
    (b = true <-> exists m, reaches (nets v) n m /\ test m = true).
Proof.
  intros P. induction P as [n e He Hn | n e f r k He Hn P IH]; intros fuel Hf Ht;
    destruct fuel as [| fuel]; try lia; simpl; rewrite (proj2 (vget_Ok _ _ _) He); simpl.
  - rewrite Hn, Ht, (IsTerminal_lookup _ _ _ He), Hn, Z.eqb_refl. simpl. exists false.
    split; [done |]. split; [done |]. intros (m & Hm & Hm').
    rewrite (reaches_terminal _ _ _ _ He Hn Hm) in Hm'. congruence.
  - destruct (test (nextNetId e)) eqn:Et.
    { exists true. split; [done |]. split; [| done]. intros _. exists (nextNetId e).
      split; [by econstructor; [.. | apply reach_refl] | done]. }
    assert (forall m, reaches (nets v) (nextNetId e) m -> reaches (nets v) n m) as Hr
      by (intros; by econstructor).
    assert (forall m, reaches (nets v) n m -> test m = true -> reaches (nets v) (nextNetId e) m) as Hl.
    { intros m Hm Hm'. destruct (reaches_next _ _ _ _ He Hm) as [-> | ]; [congruence | done]. }
    destruct (path_lookup _ _ _ _ _ P) as [e1 He1].
    rewrite (IsTerminal_lookup _ _ _ He1). simpl.
    destruct (Z.eqb_spec (nextNetId e) (nextNetId e1)) as [E1 | E1].
    + exists false. split; [done |]. split; [done |]. intros (m & Hm & Hm').
      rewrite (reaches_terminal _ _ _ _ He1 (eq_sym E1) (Hl m Hm Hm')) in Hm'. congruence.
    + destruct (IH fuel ltac:(lia) eq_refl) as (b & -> & Hb). exists b. split; [done |].
      rewrite Hb. split; intros (m & Hm & Hm'); exists m; auto.
Qed.

Lemma collectChain_path v n f r k :
  path (nets v) n f r k -> forall fuel acc, (S k < fuel)%nat -> n ∈ acc ->
  exists s, collectChain fuel v acc n = Ok s /\
    forall m, m ∈ s <-> m ∈ acc \/ reaches (nets v) n m.
Proof.
  intros P. induction P as [n e He Hn | n e f r k He Hn P IH]; intros fuel acc Hf Ha;
    destruct fuel as [| fuel]; try lia; simpl; rewrite (proj2 (vget_Ok _ _ _) He); simpl.
  - rewrite Hn, (IsTerminal_lookup _ _ _ He), Hn, Z.eqb_refl. simpl. eexists. split; [done |].
    intros m. split; [set_solver |]. intros [H | H]; [set_solver |].
    rewrite (reaches_terminal _ _ _ _ He Hn H). set_solver.
  - assert (forall m, reaches (nets v) n m <-> m = n \/ reaches (nets v) (nextNetId e) m) as Hr.
    { intros m. split; [by apply reaches_next |].
      intros [-> | H]; [apply reach_refl | by econstructor]. }
    destruct (path_lookup _ _ _ _ _ P) as [e1 He1].
    rewrite (IsTerminal_lookup _ _ _ He1). simpl.
    destruct (Z.eqb_spec (nextNetId e) (nextNetId e1)) as [E1 | E1].
    + eexists. split; [done |]. intros m. rewrite Hr.
      assert (reaches (nets v) (nextNetId e) m <-> m = nextNetId e) as ->.
      { split; [by apply reaches_terminal with (e := e1) | intros ->; apply reach_refl]. }
      set_solver.
    + destruct (IH fuel ({[nextNetId e]} ∪ acc) ltac:(lia) ltac:(set_solver)) as (t & -> & Ht).
      exists t. split; [done |]. intros m. rewrite Ht, Hr.
      pose proof (reach_refl (nets v) (nextNetId e)). set_solver.
Qed.


(** ** Claims *)


(** The nets 0 -> 1 -> 2, with net 0 stale and the others stamped. *)
Definition exampleNets : CVirtualNetVector :=
  mkVirtualNetVector
    [mkVirtualNet 1 10 0 0 0; mkVirtualNet 2 20 2 25 1; mkVirtualNet 2 5 2 5 2]
    3 [1; 3; 3] SIM_CALCULATED_BIT.

Lemma vlookup3_inv {A} (a b c x : A) (n : Z) :
  vlookup [a; b; c] n = Some x -> (n = 0 /\ x = a) \/ (n = 1 /\ x = b) \/ (n = 2 /\ x = c).
Proof.
  intros H. pose proof (vlookup_range _ _ _ H) as Hr. simpl in Hr.
  assert (n = 0 \/ n = 1 \/ n = 2) as [-> | [-> | ->]] by lia; vm_compute in H;
    injection H as <-; auto.
Qed.

Lemma exampleNets_wf : wf (nets exampleNets).
Proof.
  intros n e [[-> ->] | [[-> ->] | [-> ->]]]%vlookup3_inv; vm_compute; split; discriminate.
Qed.

Lemma path_step_at v n e f r k :
  vlookup v n = Some e -> nextNetId e <> n -> path v (nextNetId e) f (r - resistance e) k ->
  path v n f r (S k).
Proof.
  intros He Hn P. replace r with (resistance e + (r - resistance e)) by lia. by econstructor.
Qed.

Lemma path_end_at v n e f r :
  vlookup v n = Some e -> nextNetId e = n -> f = n -> r = resistance e -> path v n f r 0.
Proof. intros He Hn -> ->. by constructor. Qed.

Ltac walk := repeat (eapply path_step_at; [reflexivity | vm_compute; discriminate |]);
  eapply path_end_at; reflexivity.

Lemma exampleNets_path0 : path (nets exampleNets) 0 2 35 2.
Proof. walk. Qed.

Lemma exampleNets_coherent : coherent exampleNets.
Proof.
  split; [reflexivity |]. intros n e He (t & Ht & Hle).
  apply vlookup3_inv in He as [[-> ->] | [[-> ->] | [-> ->]]]; simpl in *.
  - injection Ht as <-. lia.
  - exists 25, 1%nat. split; [walk | reflexivity].
  - exists 5, 0%nat. split; [walk | reflexivity].
Qed.


(** A successful [Set] keeps the nets a forest, whatever the resistances:
    redirecting a net to another net of the vector never closes a loop, since
    the chain that [Set] walks from the redirected net would not end. *)
Theorem Set_keeps_forest v n m r t v' :
  forest (nets v) -> Z.of_nat (length (nets v)) <= UNKNOWN_NET ->
  Set_ v n m r t = Ok v' ->
  forest (nets v') /\ length (nets v') = length (nets v).
Proof.
  intros F L H. destruct (Set_forest v n m r t v') as [[F' _] Hl]; [by split | done | by split].
Qed.

Lemma exampleNets_forest : forest (nets exampleNets).
Proof.
  intros n [e [[-> ->] | [[-> ->] | [-> ->]]]%vlookup3_inv].
  - exists 2, 35, 2%nat. walk.
  - exists 2, 25, 1%nat. walk.
  - exists 2, 5, 0%nat. walk.
Qed.

Lemma Set_keeps_forest_witness :
  exists v', Set_ exampleNets 1 1 7 4 = Ok v' /\
    forest (nets v') /\ length (nets v') = length (nets exampleNets).
Proof.
  eexists. split; [vm_compute; reflexivity |].
  apply (Set_keeps_forest exampleNets 1 1 7 4 _ exampleNets_forest);
    [discriminate | vm_compute; reflexivity].
Defined.

(** A [Set] stamped later than every entry (the calls with
    [++lastUpdate]) keeps the cache coherent: each later access sees the new
    chains, never a final net cached before the redirection. *)
Theorem Set_keeps_cache_coherent v n m r t v' :
  wf (nets v) -> coherent v -> stamped v -> 0 <= r <= UINT32_MAX ->
  Z.of_nat (length (nets v)) <= UNKNOWN_NET -> lastUpdate v < t ->
  Set_ v n m r t = Ok v' -> coherent v' /\ stamped v'.
Proof.
  intros W C S Hr Hl Ht H.
  destruct (Set_inv _ _ _ _ _ _ W Hr Hl H)
    as [(-> & _ & _) | (e & f & R & k & He & Hm & P & Hk & Hu & ->)]; [done |]. split.
  - eapply coherent_redirect; eauto. intros j u _ Hj Hle. apply S in Hj. lia.
  - intros j u Hj. simpl in *. rewrite vlookup_vupdate in Hj.
    destruct (Z.eqb_spec n j) as [<- |]; [| apply S in Hj; lia].
    destruct (in_range _ _); congruence || (injection Hj as <-; lia).
Qed.

Lemma Set_keeps_cache_coherent_witness :
  exists v', Set_ exampleNets 1 1 7 4 = Ok v' /\ coherent v' /\ stamped v'.
Proof.
  eexists. split; [vm_compute; reflexivity |].
  apply (Set_keeps_cache_coherent exampleNets 1 1 7 4 _ exampleNets_wf exampleNets_coherent);
    [| split; discriminate | discriminate | reflexivity | vm_compute; reflexivity].
  intros n t [[-> ->] | [[-> ->] | [-> ->]]]%vlookup3_inv; vm_compute; discriminate.
Defined.

(** A [Set] that keeps the stamp (the calls commented "do not increment
    lastUpdate") keeps the cache coherent exactly as long as no other entry
    that still counts as current is routed through the redirected net. *)
Theorem Set_same_stamp_coherent v n m r v' :
  wf (nets v) -> coherent v -> 0 <= r <= UINT32_MAX ->
  Z.of_nat (length (nets v)) <= UNKNOWN_NET ->
  (forall j, j <> n -> fresh v j -> ~ reaches (nets v) j n) ->
  Set_ v n m r (lastUpdate v) = Ok v' -> coherent v'.
Proof.
  intros W C Hr Hl Ha H.
  destruct (Set_inv _ _ _ _ _ _ W Hr Hl H)
    as [(-> & _ & _) | (e & f & R & k & He & Hm & P & Hk & Hu & ->)]; [done |].
  eapply coherent_redirect; eauto. intros j u Hne Hj Hle.
  assert (fresh v j) as Hf by (by exists u). auto.
Qed.

Lemma exampleNets_fresh_away j : j <> 1 -> fresh exampleNets j -> ~ reaches (nets exampleNets) j 1.
Proof.
  intros Hj (t & Ht & Hle) H. apply vlookup3_inv in Ht as [[-> ->] | [[-> ->] | [-> ->]]];
    [vm_compute in Hle; congruence | done |].
  apply reaches_terminal with (e := mkVirtualNet 2 5 2 5 2) in H; [discriminate | reflexivity..].
Qed.

Lemma Set_same_stamp_coherent_witness :
  exists v', Set_ exampleNets 1 1 7 (lastUpdate exampleNets) = Ok v' /\ coherent v'.
Proof.
  eexists. split; [vm_compute; reflexivity |].
  apply (Set_same_stamp_coherent exampleNets 1 1 7 _ exampleNets_wf exampleNets_coherent);
    [split; discriminate | discriminate | apply exampleNets_fresh_away | vm_compute; reflexivity].
Defined.

(** On nets whose chains end, [EqualMasterNets] terminates and tells
    whether the chains end in the same net with the same (saturated)
    resistance of the hops, the resistance of the end itself left out. *)
Theorem EqualMasterNets_spec v a b fa ra ka fb rb kb :
  wf (nets v) -> path (nets v) a fa ra ka -> path (nets v) b fb rb kb ->
  EqualMasterNets v a b = Ok (bool_decide (fa = fb /\
    Z.min MAX_RESISTANCE (ra - default 0 (resistance <$> vlookup (nets v) fa)) =
    Z.min MAX_RESISTANCE (rb - default 0 (resistance <$> vlookup (nets v) fb)))).
Proof.
  intros W Pa Pb. unfold EqualMasterNets. destruct (Z.eqb_spec a b) as [<- | Hne].
  { destruct (path_fun _ _ _ _ _ _ _ _ Pa Pb) as (-> & -> & ->).
    by rewrite bool_decide_true. }
  pose proof (path_length_bound _ _ _ _ _ Pa) as Ka. pose proof (path_length_bound _ _ _ _ _ Pb) as Kb.
  destruct (masterNet_path _ _ _ _ _ W Pa (length (nets v)) 0 Ka) as (ea & Hea & ->); [lia |].
  destruct (masterNet_path _ _ _ _ _ W Pb (length (nets v)) 0 Kb) as (eb & Heb & ->); [lia |].
  simpl. f_equal.
  assert (forall n f r k e, path (nets v) n f r k -> vlookup (nets v) f = Some e ->
    (if decide (k = 0%nat) then 0 else Z.min MAX_RESISTANCE (r - resistance e)) =
    Z.min MAX_RESISTANCE (r - resistance e)) as Hz.
  { intros n f r k e P He. case_decide as E; [| done]. subst k. inversion P; subst.
    assert (e0 = e) as -> by congruence. rlia. }
  pose proof (Hz _ _ _ _ _ Pa Hea) as Za. pose proof (Hz _ _ _ _ _ Pb Heb) as Zb.
  rewrite Hea, Heb, !Z.add_0_l, Za, Zb. simpl. apply eq_true_iff_eq.
  rewrite andb_true_iff, !Z.eqb_eq, bool_decide_eq_true. intuition.
Qed.

Lemma EqualMasterNets_spec_witness :
  EqualMasterNets exampleNets 0 1 = Ok false.
Proof.
  rewrite (EqualMasterNets_spec exampleNets 0 1 2 35 2 2 25 1 exampleNets_wf); [reflexivity | walk..].
Defined.

(** On chains that end, [PathCrosses] terminates and decides whether the
    two chains, the starting nets included, have a net in common. *)
Theorem PathCrosses_spec v n w m f r k f' r' k' :
  path (nets v) n f r k -> path (nets w) m f' r' k' ->
  exists b, PathCrosses v n w m = Ok b /\
    (b = true <-> exists x, reaches (nets v) n x /\ reaches (nets w) m x).
Proof.
  intros P Q. unfold PathCrosses.
  pose proof (path_length_bound _ _ _ _ _ P). pose proof (path_length_bound _ _ _ _ _ Q).
  destruct (collectChain_path _ _ _ _ _ Q (S (length (nets w))) {[m]}) as (s & -> & Hs);
    [lia | set_solver |]. unfold mbind, outcome_bind.
  assert (forall x, x ∈ s <-> reaches (nets w) m x) as Hs'.
  { intros x. rewrite Hs, elem_of_singleton. split; [intros [-> | Hx] |]; auto using reach_refl. }
  case_bool_decide as Hn.
  { exists true. split; [done |]. split; [| done]. intros _. exists n.
    split; [apply reach_refl | by apply Hs']. }
  destruct (searchChain_path v (fun x => bool_decide (x ∈ s)) _ _ _ _ P (S (length (nets v))))
    as (b & -> & Hb); [lia | by apply bool_decide_eq_false |].
  exists b. split; [done |]. rewrite Hb.
  setoid_rewrite bool_decide_eq_true. by setoid_rewrite Hs'.
Qed.

Lemma PathCrosses_spec_witness :
  exists b, PathCrosses exampleNets 0 exampleNets 1 = Ok b /\
    (b = true <-> exists x, reaches (nets exampleNets) 0 x /\ reaches (nets exampleNets) 1 x).
Proof.
  apply (PathCrosses_spec exampleNets 0 exampleNets 1 2 35 2 2 25 1); walk.
Defined.

(** [PathContains] does not test containment.  For a net [n] with next
    hop [nextNetId e] and end [f], it answers [false] exactly when the very
    next net is the target and the end of the chain; a chain that avoids the
    target is reported as containing it. *)
Theorem PathContains_actual v n e target f r k :
  path (nets v) n f r k -> vlookup (nets v) n = Some e ->
  PathContains v n target =
    Ok (negb (bool_decide (n <> target /\ nextNetId e = target /\ f = target))).
Proof.
  intros P He. unfold PathContains. destruct (Z.eqb_spec n target) as [-> | Hn].
  { rewrite bool_decide_false; [done | tauto]. }
  simpl. rewrite (proj2 (vget_Ok _ _ _) He). simpl.
  destruct (Z.eqb_spec (nextNetId e) target) as [Ht | Ht]; simpl;
    [| rewrite bool_decide_false; [done | tauto]].
  destruct P as [n e' He' Hn' | n e' f r k He' Hn' P]; rewrite He in He'; injection He' as <-;
    [congruence |].
  destruct (path_lookup _ _ _ _ _ P) as [e1 He1]. rewrite (IsTerminal_lookup _ _ _ He1). simpl.
  pose proof (path_length_bound _ _ _ _ _ P) as Hk.
  destruct P as [n' e' He' Hn2 | n' e' f r k He' Hn2 P]; rewrite He1 in He'; injection He' as <-.
  - rewrite Hn2, Z.eqb_refl, bool_decide_true by done. done.
  - rewrite (proj2 (Z.eqb_neq _ _) (not_eq_sym Hn2)).
    destruct (length (nets v)) as [| l]; [lia |]. simpl.
    rewrite (proj2 (vget_Ok _ _ _) He1). simpl.
    rewrite (proj2 (Z.eqb_neq (nextNetId e1) target)) by congruence. simpl.
    rewrite bool_decide_false; [done |]. intros (_ & _ & ->).
    destruct (path_terminal _ _ _ _ _ P) as (e2 & He2 & Hn3). congruence.
Qed.

Lemma PathContains_actual_witness :
  PathContains exampleNets 0 77 = Ok true /\ ~ reaches (nets exampleNets) 0 77.
Proof.
  split.
  - rewrite (PathContains_actual exampleNets 0 (mkVirtualNet 1 10 0 0 0) 77 2 35 2
             exampleNets_path0); reflexivity.
  - intros H. eapply reaches_next in H as [H | H]; [discriminate | | reflexivity].
    eapply reaches_next in H as [H | H]; [discriminate | | reflexivity].
    eapply reaches_terminal in H; [discriminate | reflexivity..].
Defined.

Lemma chase_Err v fuel c n acc x :
  chase fuel v c n acc = Err x ->
  x = OutOfFuel \/ x = AssertionFailed \/ exists y, reaches v n y /\ vlookup v y = None.
Proof.
  revert c n acc. induction fuel as [| fuel IH]; simpl; [intros c n acc [= <-]; auto |].
  intros c n acc H. unfold vget in H. destruct (vlookup v n) as [e |] eqn:He; simpl in H.
  2: { right. right. exists n. split; [apply reach_refl | done]. }
  destruct (Z.eqb_spec n (nextNetId e)) as [| Hn]; [done |].
  destruct (if 5000 <? c + 1 then _ else _) as [[] | y] eqn:Ea; simpl in H.
  - destruct (IH _ _ _ H) as [? | [? | (y & Hy & Hl)]]; auto.
    right. right. exists y. split; [by econstructor | done].
  - injection H as <-. destruct (5000 <? c + 1); [| done]. unfold assert_ in Ea.
    destruct (c + 1 <? 5021); [done |]. injection Ea as <-. auto.
Qed.

(** The walk of [operator()] and [Set] is bounded whatever the nets hold,
    loops included: the model's fuel never runs out, and from a net without an
    end (a loop) the walk stops in the failing assertion on the link counter. *)
Theorem chase_stops v n acc :
  chase chaseFuel v 0 n acc <> Err OutOfFuel /\
  (wf v -> 0 <= acc -> (forall x, reaches v n x -> is_Some (vlookup v x)) ->
   (forall f r k, ~ path v n f r k) ->
   chase chaseFuel v 0 n acc = Err AssertionFailed).
Proof.
  pose proof chaseFuel_val.
  assert (chase chaseFuel v 0 n acc <> Err OutOfFuel) as Hf
    by (apply chase_no_OutOfFuel; lia).
  split; [done |]. intros W Ha Hin Hno.
  destruct (chase chaseFuel v 0 n acc) as [[f R] | x] eqn:E.
  - apply chase_Ok in E as (r & k & P & _); [| done | done | lia]. by apply Hno in P.
  - destruct (chase_Err _ _ _ _ _ _ E) as [-> | [-> | (y & Hy & Hl)]]; [done | done |].
    apply Hin in Hy as [? ?]. congruence.
Qed.

(** Two nets that point at each other. *)
Definition loopNets : list CVirtualNet :=
  [mkVirtualNet 1 10 0 0 0; mkVirtualNet 0 20 0 0 1].

Lemma chase_stops_witness : chase chaseFuel loopNets 0 0 0 = Err AssertionFailed.
Proof.
  assert (forall n x, reaches loopNets n x -> n = 0 \/ n = 1 -> x = 0 \/ x = 1) as Hr.
  { induction 1 as [| n e m He Hn H IH]; [done |]. intros [-> | ->]; injection He as <-;
      apply IH; simpl; auto. }
  apply (chase_stops loopNets 0 0).
  - intros n e H. pose proof (vlookup_range _ _ _ H) as Hn. simpl in Hn.
    assert (n = 0 \/ n = 1) as [-> | ->] by lia; injection H as <-; split; discriminate.
  - reflexivity || discriminate.
  - intros x Hx. destruct (Hr 0 x Hx) as [-> | ->]; [auto | eexists; reflexivity..].
  - intros f r k P. assert (forall n f r k, path loopNets n f r k -> n = 0 \/ n = 1 -> False) as Hp.
    { induction 1 as [n e He Hn | n e g s j He Hn Q IH]; intros [-> | ->]; injection He as <-;
        simpl in *; [discriminate.. | apply IH; auto | apply IH; auto]. }
    eapply Hp; eauto.
Defined.

End VirtualNet.
