(* ===== verification/Numeric.v ===== *)
(** * Printed numbers and estimated currents

    [PrintParameter], [PrintToleranceParameter] and [AddSiSuffix] of
    utility.cc, and the single precision arithmetic of the leak estimates of
    CConnection.cc.  C [float] is IEEE binary32 and [double] binary64, taken
    from the Standard Library's [SpecFloat]; [sprintf] of a floating value is
    the decimal rounding (half to even) of its exact value. *)

From S2P Require Import Prelude CvcTypes.
From stdpp Require Import base list strings pretty.
From Stdlib Require Import ZArith Lia Ascii Floats.SpecFloat.
#[local] Open Scope Z_scope.

Module Numeric.

(** ** Decimal digits *)

Definition divRoundEven (n d : Z) : Z :=
  let q := n / d in let r := n mod d in
  if 2 * r <? d then q
  else if d <? 2 * r then q + 1
  else if Z.even q then q else q + 1.

Definition digitChar (d : Z) : Ascii.ascii := Ascii.ascii_of_nat (48 + Z.to_nat d).

(** The [n] lowest decimal digits of [z]. *)
Fixpoint digits (n : nat) (z : Z) : string :=
  match n with
  | O => EmptyString
  | S n => (digits n (z / 10) +:+ String (digitChar (z mod 10)) EmptyString)%string
  end.

(** Drop the last character when it is ['0'], at most [n] times. *)
Fixpoint stripZeros (n : nat) (s : list Ascii.ascii) : list Ascii.ascii :=
  match n with
  | O => s
  | S n =>
      match last s with
      | Some c => if bool_decide (c = "0"%char) then stripZeros n (take (length s - 1) s) else s
      | None => s
      end
  end.

Definition stripLast (n : nat) (s : string) : string :=
  String.string_of_list_ascii (stripZeros n (String.list_ascii_of_string s)).

(** [%.3f] of [float(parameter) / scale] for the scale of the voltages: a
    16-bit number of thousandths is printed exactly. *)
Definition PrintParameter (parameter : Z) : string :=
  if parameter =? UNKNOWN_VOLTAGE then "????"%string
  else
    let a := Z.abs parameter in
    let sign := if parameter <? 0 then "-"%string else EmptyString in
    let whole := pretty (a / 1000) in
    let fraction := digits 3 (a mod 1000) in
    stripLast 2 (sign +:+ whole +:+ "." +:+ fraction)%string.

Definition PrintToleranceParameter (definition : string) (parameter : Z) : string :=
  if parameter =? UNKNOWN_VOLTAGE then definition
  else
    let myConvertedParameter := PrintParameter parameter in
    if bool_decide (definition = myConvertedParameter) then definition
    else (definition +:+ "->" +:+ myConvertedParameter)%string.

(** ** Single and double precision *)

Definition single (z : Z) : spec_float := binary_normalize 24 128 z 0 false.
Definition double (z : Z) : spec_float := binary_normalize 53 1024 z 0 false.
Definition fdiv := SFdiv 24 128.
Definition fmul := SFmul 24 128.
Definition fsub := SFsub 24 128.
Definition ddiv := SFdiv 53 1024.
Definition dmul := SFmul 53 1024.

(** The conversion of a [float] to [double] is exact. *)
Definition promote (f : spec_float) : spec_float :=
  match f with
  | S754_finite s m e => binary_normalize 53 1024 (if s then Z.neg m else Z.pos m) e s
  | f => f
  end.

Definition rint (f : spec_float) : spec_float :=
  match f with
  | S754_finite s m e =>
      if 0 <=? e then f
      else let n := divRoundEven (Z.pos m) (2 ^ (- e)) in
           binary_normalize 53 1024 (if s then - n else n) 0 s
  | f => f
  end.

(** [ExceedsLeakLimit_] of CCvcDb.hh. *)
Definition ExceedsLeakLimit_ (theLeakCurrent cvcLeakLimit : spec_float) : bool :=
  SFltb (S754_zero false)
    (ddiv (rint (dmul (promote (fsub theLeakCurrent cvcLeakLimit)) (double 1000000000)))
       (double 1000000000)).

(** [float(v) / r / VOLTAGE_SCALE / s] with an unsigned 32-bit resistance. *)
Definition current (theVoltage theResistance theScale : Z) : spec_float :=
  fdiv (fdiv (fdiv (single theVoltage) (single theResistance)) (single VOLTAGE_SCALE))
    (single theScale).

(** [float(v) / r / VOLTAGE_SCALE]. *)
Definition current3 (theVoltage theResistance : Z) : spec_float :=
  fdiv (fdiv (single theVoltage) (single theResistance)) (single VOLTAGE_SCALE).

(** ** [%.3g] and [AddSiSuffix] *)

(** The decimal exponent of [n / d], at least 1: the number of times [d] can
    be multiplied by ten without passing [n]. *)
Fixpoint exponentUp (fuel : nat) (n d : Z) : Z :=
  match fuel with
  | O => 0
  | S fuel => if d * 10 <=? n then 1 + exponentUp fuel n (d * 10) else 0
  end.

Fixpoint exponentDown (fuel : nat) (n d : Z) : Z :=
  match fuel with
  | O => 0
  | S fuel => if n <? d then exponentDown fuel (n * 10) d - 1 else 0
  end.

(** Three significant digits of [n / d > 0] and their exponent. *)
Definition significant3 (n d : Z) : Z * Z :=
  let x := if n <? d then exponentDown 60 n d else exponentUp 60 n d in
  let m := if x <=? 2 then divRoundEven (n * 10 ^ (2 - x)) d else divRoundEven n (d * 10 ^ (x - 2)) in
  if m =? 1000 then (100, x + 1) else (m, x).

Definition formatG3 (f : spec_float) : string :=
  match f with
  | S754_finite s m e =>
      let n := if 0 <=? e then Z.pos m * 2 ^ e else Z.pos m in
      let d := if 0 <=? e then 1 else 2 ^ (- e) in
      let '(m, x) := significant3 n d in
      let sign := if s then "-"%string else EmptyString in
      let point (t : string) :=
        if bool_decide (t = EmptyString) then EmptyString else ("." +:+ t)%string in
      if (x <? 3) && (-4 <=? x) then
        let p := 10 ^ (2 - x) in
        let whole := pretty (m / p) in
        let fraction := stripLast 6 (digits (Z.to_nat (2 - x)) (m mod p)) in
        (sign +:+ whole +:+ point fraction)%string
      else
        let whole := pretty (m / 100) in
        let fraction := stripLast 2 (digits 2 (m mod 100)) in
        let power := if x <? 0 then "e-"%string else "e+"%string in
        (sign +:+ whole +:+ point fraction +:+ power +:+ digits 2 (Z.abs x))%string
  | S754_zero s => if s then "-0"%string else "0"%string
  | S754_infinity s => if s then "-inf"%string else "inf"%string
  | S754_nan => "nan"%string
  end.

Fixpoint scaleDown (fuel : nat) (theValue : spec_float) (myIndex : Z) : spec_float * Z :=
  match fuel with
  | O => (theValue, myIndex)
  | S fuel =>
      if SFltb (single 1000) (SFabs theValue) && (myIndex <? 6)
      then scaleDown fuel (fdiv theValue (single 1000)) (myIndex + 1)
      else (theValue, myIndex)
  end.

Fixpoint scaleUp (fuel : nat) (theValue : spec_float) (myIndex : Z) : spec_float * Z :=
  match fuel with
  | O => (theValue, myIndex)
  | S fuel =>
      if SFltb (SFabs theValue) (single 1) && (-6 <? myIndex)
      then scaleUp fuel (fmul theValue (single 1000)) (myIndex - 1)
      else (theValue, myIndex)
  end.

Definition bigSuffix (i : Z) : string :=
  match i with
  | 1 => "k"%string | 2 => "M"%string | 3 => "G"%string | 4 => "T"%string | 5 => "P"%string
  | _ => "E"%string
  end.
Definition smallSuffix (i : Z) : string :=
  match i with
  | 1 => "m"%string | 2 => "u"%string | 3 => "n"%string | 4 => "p"%string | 5 => "f"%string
  | _ => "a"%string
  end.

(** The two loops change the index at most six and twelve times. *)
Definition AddSiSuffix (theValue : spec_float) : string :=
  let '(theValue, myIndex) := scaleDown 6 theValue 0 in
  let '(theValue, myIndex) := scaleUp 12 theValue myIndex in
  let '(theValue, myIndex) :=
    if (myIndex =? -6) && SFltb (promote (SFabs theValue)) (ddiv (double 1) (double 1000))
    then (S754_zero false, 0) else (theValue, myIndex) in
  if 0 <? myIndex then (formatG3 theValue +:+ bigSuffix myIndex)%string
  else if myIndex <? 0 then (formatG3 theValue +:+ smallSuffix (- myIndex))%string
  else formatG3 theValue.

Example PrintParameter_1200 : PrintParameter 1200 = "1.2"%string.
Proof. reflexivity. Qed.
Example PrintParameter_m50 : PrintParameter (-50) = "-0.05"%string.
Proof. reflexivity. Qed.
Example PrintParameter_3000 : PrintParameter 3000 = "3.0"%string.
Proof. reflexivity. Qed.
Example AddSiSuffix_4700 : AddSiSuffix (single 4700) = "4.7k"%string.
Proof. vm_compute. reflexivity. Qed.
Example AddSiSuffix_1000 : AddSiSuffix (single 1000) = "1e+03"%string.
Proof. vm_compute. reflexivity. Qed.
Example AddSiSuffix_micro : AddSiSuffix (current 1200 240000 1) = "5u"%string.
Proof. vm_compute. reflexivity. Qed.

End Numeric.
