(* ===== verification/Power.v ===== *)
(** * Power definitions (CPower.hh, CPower.cc, CSet.cc)

    A [CPower] holds the voltages, calculation flags and family of a net.
    Powers live in a heap and are shared through pointers by the vectors of
    the database ([netVoltagePtr_v], [leakVoltagePtr_v], ...), so a write
    through one vector is seen through the others; the heap is explicit here.
    The [CExtraPowerData] of a power is owned by that power alone (the copying
    constructors duplicate it), so it is a field.  The [text_t] values of
    [CPower::powerDefinitionText] are interned, so comparing the pointers is
    comparing the texts, which are [string]s here. *)

From S2P Require Import Prelude CvcTypes VirtualNet.
From stdpp Require Import base list strings gmap sets pretty.
From Stdlib Require Import ZArith Lia.
#[local] Open Scope Z_scope.

Module Power.
Import VirtualNet.

(** ** CSet (CSet.cc) *)

Definition CSet : Type := gset string.

(** [CSet::Intersects] walks the smaller set and looks each item up in the
    larger one. *)
Definition Intersects (this theOtherSet : CSet) : bool :=
  let '(mySmallSet, myLargeSet) :=
    if (size theOtherSet <? size this)%nat then (theOtherSet, this) else (this, theOtherSet) in
  existsb (fun myItem => bool_decide (myItem ∈ myLargeSet)) (elements mySmallSet).

(** ** CPower *)

Record CExtraPowerData : Type := mkExtraPowerData {
  expectedSim_ : string;
  expectedMin_ : string;
  expectedMax_ : string;
  family_ : string;
  implicitFamily_ : string;
  relativeSet : CSet;
  powerSignal_ : string;
  powerAlias_ : string;
  pullDownVoltage_ : Z;
  pullUpVoltage_ : Z
}.

Definition newExtraPowerData : CExtraPowerData :=
  mkExtraPowerData EmptyString EmptyString EmptyString EmptyString EmptyString ∅
    EmptyString EmptyString UNKNOWN_VOLTAGE UNKNOWN_VOLTAGE.

Record CPower : Type := mkPower {
  minVoltage : Z;
  simVoltage : Z;
  maxVoltage : Z;
  powerId : Z;
  netId : Z;
  defaultMinNet : Z;
  defaultSimNet : Z;
  defaultMaxNet : Z;
  definition : string;
  extraData : option CExtraPowerData;
  type : Z;
  active : Z;
  minCalculationType : calculationType_t;
  simCalculationType : calculationType_t;
  maxCalculationType : calculationType_t;
  relativeFriendly : bool;
  flagAllShorts : bool
}.

(** Field updates. *)
Definition set_minVoltage (x : Z) (p : CPower) : CPower :=
  let 'mkPower _ b c d e f g h i j k l m n o q r := p in mkPower x b c d e f g h i j k l m n o q r.
Definition set_simVoltage (x : Z) (p : CPower) : CPower :=
  let 'mkPower a _ c d e f g h i j k l m n o q r := p in mkPower a x c d e f g h i j k l m n o q r.
Definition set_maxVoltage (x : Z) (p : CPower) : CPower :=
  let 'mkPower a b _ d e f g h i j k l m n o q r := p in mkPower a b x d e f g h i j k l m n o q r.
Definition set_netId (x : Z) (p : CPower) : CPower :=
  let 'mkPower a b c d _ f g h i j k l m n o q r := p in mkPower a b c d x f g h i j k l m n o q r.
Definition set_defaultMinNet (x : Z) (p : CPower) : CPower :=
  let 'mkPower a b c d e _ g h i j k l m n o q r := p in mkPower a b c d e x g h i j k l m n o q r.
Definition set_defaultSimNet (x : Z) (p : CPower) : CPower :=
  let 'mkPower a b c d e f _ h i j k l m n o q r := p in mkPower a b c d e f x h i j k l m n o q r.
Definition set_defaultMaxNet (x : Z) (p : CPower) : CPower :=
  let 'mkPower a b c d e f g _ i j k l m n o q r := p in mkPower a b c d e f g x i j k l m n o q r.
Definition set_definition (x : string) (p : CPower) : CPower :=
  let 'mkPower a b c d e f g h _ j k l m n o q r := p in mkPower a b c d e f g h x j k l m n o q r.
Definition set_extraData (x : option CExtraPowerData) (p : CPower) : CPower :=
  let 'mkPower a b c d e f g h i _ k l m n o q r := p in mkPower a b c d e f g h i x k l m n o q r.
Definition set_type (x : Z) (p : CPower) : CPower :=
  let 'mkPower a b c d e f g h i j _ l m n o q r := p in mkPower a b c d e f g h i j x l m n o q r.
Definition set_active (x : Z) (p : CPower) : CPower :=
  let 'mkPower a b c d e f g h i j k _ m n o q r := p in mkPower a b c d e f g h i j k x m n o q r.
Definition set_minCalculationType (x : calculationType_t) (p : CPower) : CPower :=
  let 'mkPower a b c d e f g h i j k l _ n o q r := p in mkPower a b c d e f g h i j k l x n o q r.
Definition set_simCalculationType (x : calculationType_t) (p : CPower) : CPower :=
  let 'mkPower a b c d e f g h i j k l m _ o q r := p in mkPower a b c d e f g h i j k l m x o q r.
Definition set_maxCalculationType (x : calculationType_t) (p : CPower) : CPower :=
  let 'mkPower a b c d e f g h i j k l m n _ q r := p in mkPower a b c d e f g h i j k l m n x q r.
Definition set_relativeFriendly (x : bool) (p : CPower) : CPower :=
  let 'mkPower a b c d e f g h i j k l m n o _ r := p in mkPower a b c d e f g h i j k l m n o x r.

Definition typeBit (p : CPower) (b : powerType_t) : bool := status_get (type p) (powerBit b).
Definition activeOf (p : CPower) (b : activeType_t) : bool := status_get (active p) (activeBit b).
Definition set_typeBit (b : powerType_t) (x : bool) (p : CPower) : CPower :=
  set_type (status_set (type p) (powerBit b) x) p.
Definition set_activeBit (b : activeType_t) (x : bool) (p : CPower) : CPower :=
  set_active (status_set (active p) (activeBit b) x) p.

(** Accessors of the optional extra data. *)
Definition extra {A} (f : CExtraPowerData -> A) (d : A) (p : CPower) : A :=
  match extraData p with Some e => f e | None => d end.
Definition expectedSim (p : CPower) : string := extra expectedSim_ EmptyString p.
Definition expectedMin (p : CPower) : string := extra expectedMin_ EmptyString p.
Definition expectedMax (p : CPower) : string := extra expectedMax_ EmptyString p.
Definition family (p : CPower) : string := extra family_ EmptyString p.
Definition implicitFamily (p : CPower) : string := extra implicitFamily_ EmptyString p.
Definition pullDownVoltage (p : CPower) : Z := extra pullDownVoltage_ UNKNOWN_VOLTAGE p.
(** As in the header: the pull-down voltage is returned. *)
Definition pullUpVoltage (p : CPower) : Z := extra pullDownVoltage_ UNKNOWN_VOLTAGE p.
Definition powerSignal (p : CPower) : string := extra powerSignal_ EmptyString p.
Definition powerAlias (p : CPower) : string := extra powerAlias_ EmptyString p.
Definition relatives (p : CPower) : CSet := extra relativeSet ∅ p.

Definition IsEmpty (s : string) : bool := bool_decide (s = EmptyString).

Definition IsExternalPower_ (p : CPower) : bool := typeBit p POWER_BIT || typeBit p INPUT_BIT.
Definition IsPriorityPower_ (p : CPower) : bool :=
  typeBit p POWER_BIT || typeBit p INPUT_BIT || typeBit p RESISTOR_BIT.
Definition IsInternalOverride (p : CPower) : bool :=
  negb (typeBit p INPUT_BIT || typeBit p POWER_BIT).

Definition optb {A} (f : A -> bool) (p : option A) : bool :=
  match p with Some x => f x | None => false end.
Definition IsCalculatedVoltage_ (p : option CPower) : bool :=
  optb (fun p => typeBit p MIN_CALCULATED_BIT || typeBit p SIM_CALCULATED_BIT
                 || typeBit p MAX_CALCULATED_BIT) p.
Definition IsPower_ (p : option CPower) : bool := optb (fun p => typeBit p POWER_BIT) p.
Definition IsInputOrPower_ (p : option CPower) : bool :=
  optb (fun p => typeBit p INPUT_BIT || typeBit p POWER_BIT) p.
Definition IsUnknownMinVoltage_ (p : option CPower) : bool :=
  match p with
  | None => true
  | Some p => (minVoltage p =? UNKNOWN_VOLTAGE) || negb (activeOf p MIN_ACTIVE)
  end.
Definition IsUnknownMaxVoltage_ (p : option CPower) : bool :=
  match p with
  | None => true
  | Some p => (maxVoltage p =? UNKNOWN_VOLTAGE) || negb (activeOf p MAX_ACTIVE)
  end.

(** [CCvcDb::IsSCRCPower]: an open power with one known level. *)
Definition IsSCRCPower (p : option CPower) : bool :=
  optb (fun p => typeBit p HIZ_BIT && (minVoltage p =? maxVoltage p)) p.

Definition IsSamePower (this m : CPower) : bool :=
  (type this =? type m) && (minVoltage this =? minVoltage m) &&
  (simVoltage this =? simVoltage m) && (maxVoltage this =? maxVoltage m) &&
  bool_decide (expectedMin this = expectedMin m) &&
  bool_decide (expectedSim this = expectedSim m) &&
  bool_decide (expectedMax this = expectedMax m) &&
  bool_decide (family this = family m) &&
  Bool.eqb (relativeFriendly this) (relativeFriendly m).

(** ** Families *)

(** [CPower::IsRelative]. *)
Definition IsRelative (this : CPower) (theTestPower : option CPower)
    (theDefault theIsHiZRelative : bool) : bool :=
  match theTestPower with
  | None => theDefault
  | Some test =>
    if theIsHiZRelative && (typeBit this HIZ_BIT || typeBit test HIZ_BIT) then true
    else
      let mySet := relatives this in
      let myTestSet := relatives test in
      if bool_decide (mySet = ∅) && bool_decide (myTestSet = ∅) then theDefault
      else
        let explicit := negb (IsEmpty (family this)) in
        let testExplicit := negb (IsEmpty (family test)) in
        let myRelation :=
          bool_decide (powerSignal test ∈ mySet) || bool_decide (powerAlias test ∈ mySet)
          || (negb (bool_decide (myTestSet = ∅)) && Intersects mySet myTestSet) in
        let myTestRelation :=
          bool_decide (powerSignal this ∈ myTestSet) || bool_decide (powerAlias this ∈ myTestSet)
          || (negb (bool_decide (mySet = ∅)) && Intersects myTestSet mySet) in
        let myHasFriends := explicit && relativeFriendly this in
        let myHasEnemies := explicit && negb (relativeFriendly this) in
        let myTestHasFriends := testExplicit && relativeFriendly test in
        let myTestHasEnemies := testExplicit && negb (relativeFriendly test) in
        let myFriend := myHasFriends && myRelation in
        let myEnemy := myHasEnemies && myRelation in
        let myTestFriend := myTestHasFriends && myTestRelation in
        let myTestEnemy := myTestHasEnemies && myTestRelation in
        if myHasFriends && myTestHasFriends then myFriend || myTestFriend
        else if myHasFriends && myTestHasEnemies then
          (if myTestEnemy then false else if myFriend then true else theDefault)
        else if myHasEnemies && myTestHasFriends then
          (if myEnemy then false else if myTestFriend then true else theDefault)
        else if myHasEnemies && myTestHasEnemies then negb (myEnemy || myTestEnemy)
        else if myHasFriends then myFriend
        else if myHasEnemies then negb myEnemy
        else if myTestHasFriends then myTestFriend
        else negb myTestEnemy
  end.

Definition NO_TYPE : Z := 0.

Definition IsValidSubset (this m : CPower) (theThreshold : Z) : bool :=
  let close v w := (w =? UNKNOWN_VOLTAGE) || (Z.abs (v - w) <=? theThreshold) in
  ((type m =? NO_TYPE) || (typeBit this POWER_BIT && typeBit m INPUT_BIT)) &&
  close (minVoltage this) (minVoltage m) &&
  close (simVoltage this) (simVoltage m) &&
  close (maxVoltage this) (maxVoltage m) &&
  IsEmpty (expectedMin m) && IsEmpty (expectedSim m) && IsEmpty (expectedMax m) &&
  IsRelative this (Some m) true false.

(** [CPower::PowerDefinition]: the definition text used in reports. *)
Definition PowerDefinition (p : CPower) : string :=
  let level name bit v :=
    if v =? UNKNOWN_VOLTAGE then EmptyString
    else (name +:+ (if typeBit p bit then "=" else "@") +:+ pretty v)%string in
  let expected name e := if IsEmpty e then EmptyString else (name +:+ e)%string in
  let flag bit name := if typeBit p bit then name else EmptyString in
  (level " min" MIN_CALCULATED_BIT (minVoltage p) +:+
   level " sim" SIM_CALCULATED_BIT (simVoltage p) +:+
   level " max" MAX_CALCULATED_BIT (maxVoltage p) +:+
   expected " min?" (expectedMin p) +:+ expected " sim?" (expectedSim p) +:+
   expected " max?" (expectedMax p) +:+
   flag HIZ_BIT " open" +:+ flag INPUT_BIT " input" +:+ flag RESISTOR_BIT " resistor" +:+
   (if IsEmpty (family p) then EmptyString
    else " '" +:+ family p +:+ (if relativeFriendly p then " allowed'" else " prohibited'")))%string.

(** ** The heap of powers *)

Record powerHeap : Type := mkHeap {
  cells : gmap Z CPower;
  nextAddress : Z;
  powerCount : Z
}.

Definition deref (h : powerHeap) (a : Z) : outcome CPower :=
  match cells h !! a with Some p => Ok p | None => throw UndefinedBehaviour end.

Definition pointee (h : powerHeap) (a : option Z) : outcome (option CPower) :=
  match a with None => Ok None | Some a => p ← deref h a; Ok (Some p) end.

Definition store (h : powerHeap) (a : Z) (p : CPower) : powerHeap :=
  mkHeap (<[a := p]> (cells h)) (nextAddress h) (powerCount h).

Definition update (h : powerHeap) (a : Z) (f : CPower -> CPower) : outcome powerHeap :=
  p ← deref h a; Ok (store h a (f p)).

#[global] Arguments deref : simpl never.
#[global] Arguments store : simpl never.
#[global] Arguments update : simpl never.

(** [new CPower(...)], the constructors that count their powers. *)
Definition alloc (h : powerHeap) (p : Z -> CPower) : Z * powerHeap :=
  (nextAddress h,
   mkHeap (<[nextAddress h := p (powerCount h)]> (cells h)) (nextAddress h + 1)
     (u32 (powerCount h + 1))).

(** [CPower::CPower(netId_t)]. *)
Definition CPower_net (theNetId : Z) (myPowerId : Z) : CPower :=
  mkPower UNKNOWN_VOLTAGE UNKNOWN_VOLTAGE UNKNOWN_VOLTAGE myPowerId theNetId
    UNKNOWN_NET UNKNOWN_NET UNKNOWN_NET EmptyString None 0 0
    UNKNOWN_CALCULATION UNKNOWN_CALCULATION UNKNOWN_CALCULATION true false.

(** [CPower::CPower(netId_t, voltage_t, bool)]. *)
Definition CPower_sim (theNetId theSimVoltage : Z) (theCreateExtraData : bool) (myPowerId : Z)
    : CPower :=
  mkPower UNKNOWN_VOLTAGE theSimVoltage UNKNOWN_VOLTAGE myPowerId theNetId
    UNKNOWN_NET UNKNOWN_NET UNKNOWN_NET EmptyString
    (if theCreateExtraData then Some newExtraPowerData else None) 0 0
    UNKNOWN_CALCULATION ESTIMATED_CALCULATION UNKNOWN_CALCULATION true true.

(** [CPower::CPower(netId_t, voltage_t x3, netId_t x3)]. *)
Definition CPower_levels (theNetId theMin theSim theMax theDefaultMin theDefaultSim theDefaultMax
    : Z) (myPowerId : Z) : CPower :=
  mkPower theMin theSim theMax myPowerId theNetId theDefaultMin theDefaultSim theDefaultMax
    EmptyString None 0 0
    UNKNOWN_CALCULATION UNKNOWN_CALCULATION UNKNOWN_CALCULATION true false.

(** The copying constructor with a net: copies a definition to another net;
    the default nets, pull voltages and [flagAllShorts] start afresh. *)
Definition CPower_expand (thePower : CPower) (theNetId : Z) (myPowerId : Z) : CPower :=
  mkPower (minVoltage thePower) (simVoltage thePower) (maxVoltage thePower) myPowerId theNetId
    UNKNOWN_NET UNKNOWN_NET UNKNOWN_NET (definition thePower)
    (match extraData thePower with
     | None => None
     | Some e => Some (mkExtraPowerData (expectedSim_ e) (expectedMin_ e) (expectedMax_ e)
                         (family_ e) (implicitFamily_ e) (relativeSet e) (powerSignal_ e)
                         (powerAlias_ e) UNKNOWN_VOLTAGE UNKNOWN_VOLTAGE)
     end)
    (type thePower) (active thePower)
    (minCalculationType thePower) (simCalculationType thePower) (maxCalculationType thePower)
    (relativeFriendly thePower) false.

(** The copying constructor of one argument copies everything, the identifier included,
    and does not count a new power. *)
Definition allocCopy (h : powerHeap) (p : CPower) : Z * powerHeap :=
  (nextAddress h,
   mkHeap (<[nextAddress h := p]> (cells h)) (nextAddress h + 1) (powerCount h)).

(** ** Vectors of power pointers *)

Definition CPowerPtrVector : Type := list (option Z).

Definition ResetPowerPointerVector (theSize : Z) : CPowerPtrVector :=
  replicate (Z.to_nat theSize) None.

Definition voltageAt (f : CPower -> Z) (h : powerHeap) (v : CPowerPtrVector) (theNetId : Z)
    : outcome Z :=
  if theNetId =? UNKNOWN_NET then Ok UNKNOWN_VOLTAGE
  else
    a ← vget v theNetId;
    p ← pointee h a;
    Ok (match p with None => UNKNOWN_VOLTAGE | Some p => f p end).

Definition MaxVoltage := voltageAt maxVoltage.
Definition MinVoltage := voltageAt minVoltage.
Definition SimVoltage := voltageAt simVoltage.

(** [CPowerPtrList::SetPowerLimits], over the list of the defined powers. *)
Definition SetPowerLimits (ps : list CPower) : Z * Z :=
  fold_left (fun '(theMaxPower, theMinPower) p =>
    (Z.max theMaxPower (maxVoltage p), Z.min theMinPower (minVoltage p)))
    ps (MIN_VOLTAGE, MAX_VOLTAGE).

(** ** The base power of a calculated power *)

Definition defaultNetOf (b : powerType_t) (p : CPower) : Z :=
  match b with
  | MIN_CALCULATED_BIT => defaultMinNet p
  | SIM_CALCULATED_BIT => defaultSimNet p
  | MAX_CALCULATED_BIT => defaultMaxNet p
  | _ => UNKNOWN_NET
  end.

(** The inner loop of [GetBasePower] follows the chain without a counter. *)
Definition chainEnd (v : CVirtualNetVector) (myNetId : Z) : outcome Z :=
  r ← masterNet (length (nets v)) (nets v) myNetId 0; Ok r.1.

(** [CPower::GetBasePower].  [p] is [myPower_p] with its address. *)
Fixpoint basePowerLoop (fuel : nat) (h : powerHeap) (theNetVoltagePtr_v : CPowerPtrVector)
    (theNet_v : CVirtualNetVector) (myNetId : Z) (myPower_p : option Z) : outcome (option Z) :=
  match fuel with
  | O => throw OutOfFuel
  | S fuel =>
    match myPower_p with
    | None => Ok None
    | Some a =>
      p ← deref h a;
      let myCalculated := typeBit p (calculatedBit theNet_v) in
      myEnd ← (if myCalculated then Ok false
               else t ← IsTerminal theNet_v myNetId; Ok (t : bool));
      if (myEnd : bool) then Ok (Some a)
      else
        let myDefaultNet := defaultNetOf (calculatedBit theNet_v) p in
        let useDefault := myCalculated && negb (myDefaultNet =? UNKNOWN_NET) in
        myBreak ← (if myCalculated && negb useDefault then IsTerminal theNet_v myNetId
                   else Ok false);
        if (myBreak : bool) then Ok (Some a)
        else
          let myNetId := if useDefault then myDefaultNet else myNetId in
          myNetId ← chainEnd theNet_v myNetId;
          myPower_p ← vget theNetVoltagePtr_v myNetId;
          basePowerLoop fuel h theNetVoltagePtr_v theNet_v myNetId myPower_p
    end
  end.

Definition baseFuel (v : CVirtualNetVector) : nat := S (S (length (nets v))).

Definition GetBasePower (h : powerHeap) (theNetVoltagePtr_v : CPowerPtrVector)
    (theNet_v : CVirtualNetVector) (this : Z) : outcome (option Z) :=
  p ← deref h this;
  basePowerLoop (baseFuel theNet_v) h theNetVoltagePtr_v theNet_v (netId p) (Some this).

(** [CPower::IsRelatedPower]. *)
Definition IsRelatedPower (h : powerHeap) (theNetVoltagePtr_v : CPowerPtrVector)
    (theNet_v theTestNet_v : CVirtualNetVector) (this : Z) (theTestPower_p : option Z)
    (theDefault theIsHiZRelative : bool) : outcome bool :=
  match theTestPower_p with
  | None => Ok theDefault
  | Some t =>
    myPower_p ← GetBasePower h theNetVoltagePtr_v theNet_v this;
    myTestPower_p ← GetBasePower h theNetVoltagePtr_v theTestNet_v t;
    match myPower_p, myTestPower_p with
    | Some a, Some b =>
      p ← deref h a;
      q ← deref h b;
      Ok ((a =? b)
          || (negb (IsEmpty (powerAlias p)) &&
              (bool_decide (powerAlias p = powerAlias q) || bool_decide (powerAlias p = powerSignal q)))
          || (negb (IsEmpty (powerAlias q)) && bool_decide (powerAlias q = powerSignal p))
          || IsRelative p (Some q) theDefault theIsHiZRelative)
    | _, _ => throw AssertionFailed
    end
  end.

(** ** Calculated powers ([CPowerPtrVector::CalculatePower]) *)

(** The direction of a calculation, from the default level. *)
Definition direction (theShortVoltage theDefaultVoltage : Z) (old : calculationType_t)
    : calculationType_t :=
  if theDefaultVoltage =? UNKNOWN_VOLTAGE then old
  else if theShortVoltage <? theDefaultVoltage then DOWN_CALCULATION
  else if theDefaultVoltage <? theShortVoltage then UP_CALCULATION
  else old.

(** The net gets a power when it has none. *)
Definition ensurePower (h : powerHeap) (v : CPowerPtrVector) (theNetId : Z)
    : outcome (Z * powerHeap * CPowerPtrVector) :=
  a ← vget v theNetId;
  match a with
  | Some a => Ok (a, h, v)
  | None =>
      let '(a, h) := alloc h (CPower_net theNetId) in
      v ← vset v theNetId (Some a);
      Ok (a, h, v)
  end.

(** The family data inherited from the default power [d]. *)
Definition inheritFamily (d p : CPower) : CPower :=
  let p := if typeBit d HIZ_BIT then set_typeBit HIZ_BIT true p else p in
  let p :=
    match extraData d with
    | None => p
    | Some e =>
        let x := default newExtraPowerData (extraData p) in
        set_extraData (Some (mkExtraPowerData (expectedSim_ x) (expectedMin_ x) (expectedMax_ x)
          (family_ e) (implicitFamily_ e) (relativeSet e) (powerSignal_ x) (powerAlias_ x)
          (pullDownVoltage_ x) (pullUpVoltage_ x))) p
    end in
  set_relativeFriendly (relativeFriendly d) p.

Definition setAlias (theAlias : string) (p : CPower) : CPower :=
  let x := default newExtraPowerData (extraData p) in
  set_extraData (Some (mkExtraPowerData (expectedSim_ x) (expectedMin_ x) (expectedMax_ x)
    (family_ x) (implicitFamily_ x) (relativeSet x) (powerSignal_ x) theAlias
    (pullDownVoltage_ x) (pullUpVoltage_ x))) p.

(** The MIN_QUEUE and MAX_QUEUE branches. *)
Definition calculateMin (theShortVoltage theDefaultNetId : Z) (p : CPower) : CPower :=
  set_activeBit MIN_ACTIVE true (set_typeBit MIN_CALCULATED_BIT true
    (set_defaultMinNet theDefaultNetId (set_minVoltage theShortVoltage p))).

Definition calculateMax (theShortVoltage theDefaultNetId : Z) (p : CPower) : CPower :=
  set_activeBit MAX_ACTIVE true (set_typeBit MAX_CALCULATED_BIT true
    (set_defaultMaxNet theDefaultNetId (set_maxVoltage theShortVoltage p))).

Definition calculateSim (theShortVoltage theDefaultNetId : Z) (p : CPower) : CPower :=
  set_typeBit SIM_CALCULATED_BIT true
    (set_defaultSimNet theDefaultNetId (set_simVoltage theShortVoltage p)).

(** The alias of a simulated power without one: that of its base power. *)
Definition inheritAlias (h : powerHeap) (v : CPowerPtrVector)
    (minNet_v simNet_v maxNet_v : CVirtualNetVector) (a : Z) : outcome powerHeap :=
  p ← deref h a;
  if negb (IsEmpty (powerAlias p)) then Ok h
  else
    let myNet_v :=
      if minVoltage p =? simVoltage p then minNet_v
      else if maxVoltage p =? simVoltage p then maxNet_v else simNet_v in
    d ← GetBasePower h v myNet_v a;
    d ← pointee h d;
    match d with
    | Some d => if IsEmpty (powerAlias d) then Ok h else update h a (setAlias (powerAlias d))
    | None => Ok h
    end.

(** [myDefaultPower_p] is read again after the writes: it may be the power
    being calculated. *)
Definition CalculatePower (h : powerHeap) (v : CPowerPtrVector)
    (minNet_v simNet_v maxNet_v : CVirtualNetVector) (queueType : eventQueue_t)
    (theShortVoltage theNetId theDefaultNetId : Z) (theCalculation : string)
    : outcome (powerHeap * CPowerPtrVector) :=
  '(a, h, v) ← ensurePower h v theNetId;
  d ← vget v theDefaultNetId;
  h ← (match d with
       | None => Ok h
       | Some d => dp ← deref h d; update h a (inheritFamily dp)
       end);
  h ← (match queueType with
       | MIN_QUEUE =>
           h ← update h a (calculateMin theShortVoltage theDefaultNetId);
           dp ← pointee h d;
           (match dp with
            | None => Ok h
            | Some dp => update h a (fun p => set_minCalculationType
                (direction theShortVoltage (minVoltage dp) (minCalculationType p)) p)
            end)
       | MAX_QUEUE =>
           h ← update h a (calculateMax theShortVoltage theDefaultNetId);
           dp ← pointee h d;
           (match dp with
            | None => Ok h
            | Some dp => update h a (fun p => set_maxCalculationType
                (direction theShortVoltage (maxVoltage dp) (maxCalculationType p)) p)
            end)
       | SIM_QUEUE =>
           p ← deref h a;
           if IsKnownVoltage_ (simVoltage p) then throw EDatabaseError
           else
             h ← update h a (calculateSim theShortVoltage theDefaultNetId);
             h ← inheritAlias h v minNet_v simNet_v maxNet_v a;
             dp ← pointee h d;
             (match dp with
              | None => Ok h
              | Some dp => update h a (fun p => set_simCalculationType
                  (direction theShortVoltage (simVoltage dp) (simCalculationType p)) p)
              end)
       end);
  h ← update h a (fun p => if IsEmpty (definition p) then set_definition theCalculation p else p);
  Ok (h, v).

(** ** Lemmas *)

Lemma Intersects_spec (X Y : CSet) : Intersects X Y = true <-> exists x, x ∈ X /\ x ∈ Y.
Proof.
  unfold Intersects. destruct (size Y <? size X)%nat; rewrite existsb_exists;
    setoid_rewrite bool_decide_eq_true; split; intros (x & H1 & H2); exists x;
    rewrite <- list_elem_of_In in *; set_solver.
Qed.

Lemma Intersects_comm (X Y : CSet) : Intersects X Y = Intersects Y X.
Proof. apply eq_true_iff_eq. rewrite !Intersects_spec. naive_solver. Qed.

(** Family relations are symmetric: asking whether power [p] is a
    relative of [q] gives the answer of the opposite question, for every
    combination of permitted, prohibited, implicit and missing families. *)
Theorem IsRelative_sym p q theDefault hiz :
  IsRelative p (Some q) theDefault hiz = IsRelative q (Some p) theDefault hiz.
Proof.
  unfold IsRelative. rewrite (orb_comm (typeBit q HIZ_BIT)).
  destruct (hiz && _); [done |]. rewrite (andb_comm (bool_decide (relatives q = ∅))).
  destruct (bool_decide (relatives p = ∅) && _); [done |].
  rewrite (Intersects_comm (relatives q) (relatives p)).
  generalize (bool_decide (powerSignal q ∈ relatives p) || bool_decide (powerAlias q ∈ relatives p)
    || (negb (bool_decide (relatives q = ∅)) && Intersects (relatives p) (relatives q))) as R.
  generalize (bool_decide (powerSignal p ∈ relatives q) || bool_decide (powerAlias p ∈ relatives q)
    || (negb (bool_decide (relatives p = ∅)) && Intersects (relatives p) (relatives q))) as R'.
  intros R' R. destruct (IsEmpty (family p)), (IsEmpty (family q)), (relativeFriendly p),
    (relativeFriendly q), R, R', theDefault; reflexivity.
Qed.

(** ** The chain of default nets *)

Section Base.
Context (h : powerHeap) (ptrs : CPowerPtrVector) (v : CVirtualNetVector).

(** The walk of [GetBasePower] from net [n] with power [a], to its result,
    with the number of iterations. *)
Inductive base : Z -> option Z -> option Z -> nat -> Prop :=
| base_null n : base n None None 0
| base_defined n a p e :
    deref h a = Ok p -> typeBit p (calculatedBit v) = false ->
    vlookup (nets v) n = Some e -> nextNetId e = n -> base n (Some a) (Some a) 0
| base_no_default n a p e :
    deref h a = Ok p -> typeBit p (calculatedBit v) = true ->
    defaultNetOf (calculatedBit v) p = UNKNOWN_NET ->
    vlookup (nets v) n = Some e -> nextNetId e = n -> base n (Some a) (Some a) 0
| base_default n a p d f r k a' res i :
    deref h a = Ok p -> typeBit p (calculatedBit v) = true ->
    d = defaultNetOf (calculatedBit v) p -> d <> UNKNOWN_NET ->
    path (nets v) d f r k -> vlookup ptrs f = Some a' -> base f a' res i ->
    base n (Some a) res (S i)
| base_follow n a p e f r k a' res i :
    deref h a = Ok p ->
    typeBit p (calculatedBit v) = false \/ defaultNetOf (calculatedBit v) p = UNKNOWN_NET ->
    vlookup (nets v) n = Some e -> nextNetId e <> n ->
    path (nets v) n f r k -> vlookup ptrs f = Some a' -> base f a' res i ->
    base n (Some a) res (S i).

Hypothesis W : wf (nets v).

Lemma chainEnd_path n f r k : path (nets v) n f r k -> chainEnd v n = Ok f.
Proof.
  intros P. unfold chainEnd.
  destruct (masterNet_path _ _ _ _ _ W P (length (nets v)) 0) as (e & _ & ->);
    [by eapply path_length_bound | lia | done].
Qed.

Lemma base_loop n a res i :
  base n a res i -> forall fuel, basePowerLoop fuel h ptrs v n a =
    if (i <? fuel)%nat then Ok res else Err OutOfFuel.
Proof.
  induction 1 as [n | n a p e Hp Hc He Hn | n a p e Hp Hc Hd He Hn
    | n a p d f r k a' res i Hp Hc Hd Hk P Ha B IH | n a p e f r k a' res i Hp Hc He Hn P Ha B IH];
    intros [| fuel]; simpl; try done; rewrite Hp; simpl.
  - rewrite Hc. simpl. rewrite (IsTerminal_lookup _ _ _ He), Hn, Z.eqb_refl. done.
  - rewrite Hc, Hd, Z.eqb_refl. simpl.
    rewrite (IsTerminal_lookup _ _ _ He), Hn, Z.eqb_refl. done.
  - rewrite Hc, <- Hd, (proj2 (Z.eqb_neq _ _) Hk). simpl.
    rewrite (chainEnd_path _ _ _ _ P). simpl. rewrite (proj2 (vget_Ok _ _ _) Ha). apply IH.
  - assert (IsTerminal v n = Ok false) as Ht.
    { rewrite (IsTerminal_lookup _ _ _ He). by rewrite (proj2 (Z.eqb_neq _ _) (not_eq_sym Hn)). }
    destruct (typeBit p (calculatedBit v)).
    + destruct Hc as [| Hc]; [done |]. rewrite Hc, Z.eqb_refl. simpl. rewrite Ht. simpl.
      rewrite (chainEnd_path _ _ _ _ P). simpl. rewrite (proj2 (vget_Ok _ _ _) Ha). apply IH.
    + rewrite Ht. simpl. rewrite (chainEnd_path _ _ _ _ P). simpl.
      rewrite (proj2 (vget_Ok _ _ _) Ha). apply IH.
Qed.

Lemma base_count n a res i res' i' : base n a res i -> base n a res' i' -> i' = i.
Proof.
  intros B B'. pose proof (base_loop _ _ _ _ B (S (Nat.min i i'))) as H1.
  rewrite (base_loop _ _ _ _ B' (S (Nat.min i i'))) in H1.
  destruct (Nat.ltb_spec i (S (Nat.min i i'))), (Nat.ltb_spec i' (S (Nat.min i i'))); congruence || lia.
Qed.

(** The nets visited after the first iteration are ends of chains, each with
    its own number of remaining iterations, so they differ. *)
Lemma base_nodes n a res i :
  base n a res i -> exists xs, length xs = i /\ NoDup xs /\
    forall x, x ∈ xs -> is_Some (vlookup (nets v) x) /\
      exists a' i', (i' < i)%nat /\ vlookup ptrs x = Some a' /\ base x a' res i'.
Proof.
  induction 1 as [n | n a p e Hp Hc He Hn | n a p e Hp Hc Hd He Hn
    | n a p d f r k a' res i Hp Hc Hd Hk P Ha B (xs & Hl & Hnd & Hx)
    | n a p e f r k a' res i Hp Hc He Hn P Ha B (xs & Hl & Hnd & Hx)];
    try (exists []; split; [done | split; [apply NoDup_nil_2 | set_solver]]).
  all: exists (f :: xs); split; [simpl; lia |]; split.
  1, 3: apply NoDup_cons; split; [| done]; intros (_ & b & j & Hj & Hb & B')%Hx;
      rewrite Ha in Hb; injection Hb as <-; rewrite (base_count _ _ _ _ _ _ B B') in Hj; lia.
  all: intros x [-> | Hin]%elem_of_cons;
    [destruct (path_terminal _ _ _ _ _ P) as (ef & Hef & _); split; [eauto |];
       exists a', i; split; [lia | done]
    | destruct (Hx x Hin) as (? & b & j & Hj & Hb & B'); split; [done |];
       exists b, j; split; [lia | done]].
Qed.

Lemma base_bound n a res i : base n a res i -> (i <= length (nets v))%nat.
Proof.
  intros (xs & Hl & Hnd & Hx)%base_nodes.
  assert (xs ⊆ Z.of_nat <$> seq 0 (length (nets v))) as Hs.
  { intros x [Hr _]%Hx. apply vlookup_is_Some in Hr.
    apply list_elem_of_fmap. exists (Z.to_nat x). rewrite elem_of_seq. lia. }
  apply NoDup_submseteq, submseteq_length in Hs; [| done].
  rewrite length_fmap, length_seq in Hs. lia.
Qed.

Lemma base_result n a b i :
  base n a (Some b) i -> exists q, deref h b = Ok q /\
    (typeBit q (calculatedBit v) = false \/ defaultNetOf (calculatedBit v) q = UNKNOWN_NET).
Proof. remember (Some b) as res eqn:E. induction 1; simplify_eq; eauto. Qed.

End Base.

(** [GetBasePower] terminates with the result of the walk over default
    nets whenever that walk is finite, within the model's fuel (one iteration
    per net of the vector), and the power it returns is a defined one or one
    without a default net. *)
Theorem GetBasePower_base h ptrs v this p res i :
  wf (nets v) -> deref h this = Ok p -> base h ptrs v (netId p) (Some this) res i ->
  GetBasePower h ptrs v this = Ok res /\
  (forall b, res = Some b -> exists q, deref h b = Ok q /\
     (typeBit q (calculatedBit v) = false \/ defaultNetOf (calculatedBit v) q = UNKNOWN_NET)).
Proof.
  intros W Hp B. split.
  - unfold GetBasePower. rewrite Hp. unfold mbind, outcome_bind. rewrite (base_loop _ _ _ W _ _ _ _ B).
    apply (base_bound _ _ _ W) in B. unfold baseFuel. by case_test; [| apply Nat.ltb_ge in E; lia].
  - intros b ->. by eapply base_result.
Qed.

(** Net 0 is calculated from net 1, which is wired to the defined net 2. *)
Definition exampleHeap : powerHeap :=
  mkHeap {[ 100 := set_typeBit MIN_CALCULATED_BIT true (set_defaultMinNet 1 (CPower_net 0 0));
            101 := set_minVoltage 1800 (CPower_net 2 1) ]} 102 2.

Definition exampleMinNets : CVirtualNetVector :=
  mkVirtualNetVector
    [mkVirtualNet 0 0 0 0 0; mkVirtualNet 2 20 2 20 1; mkVirtualNet 2 0 2 0 2]
    1 [1; 1; 1] MIN_CALCULATED_BIT.

Lemma exampleMinNets_wf : wf (nets exampleMinNets).
Proof.
  intros n e [[-> ->] | [[-> ->] | [-> ->]]]%vlookup3_inv; vm_compute; split; discriminate.
Qed.

Lemma GetBasePower_base_witness :
  GetBasePower exampleHeap [Some 100; None; Some 101] exampleMinNets 100 = Ok (Some 101) /\
  (forall b, Some 101 = Some b -> exists q, deref exampleHeap b = Ok q /\
     (typeBit q MIN_CALCULATED_BIT = false \/ defaultMinNet q = UNKNOWN_NET)).
Proof.
  eapply (GetBasePower_base exampleHeap [Some 100; None; Some 101] exampleMinNets 100);
    [apply exampleMinNets_wf | reflexivity |].
  eapply (base_default _ _ _ _ _ _ 1 2 20 1 (Some 101)); try reflexivity; try discriminate;
    [walk |].
  eapply base_defined; reflexivity.
Defined.

(** ** Frame and effect of CalculatePower *)

Lemma deref_store_eq h a p : deref (store h a p) a = Ok p.
Proof. unfold deref, store. simpl. by rewrite lookup_insert_eq. Qed.

Lemma deref_store_ne h a b p : a <> b -> deref (store h a p) b = deref h b.
Proof. intros Hab. unfold deref, store. simpl. by rewrite lookup_insert_ne. Qed.

Lemma update_Ok h a f h' :
  update h a f = Ok h' -> exists p, deref h a = Ok p /\ h' = store h a (f p).
Proof. unfold update. intros H. inv_ok H. injection H as <-. eauto. Qed.

Lemma update_deref h a f p : deref h a = Ok p -> update h a f = Ok (store h a (f p)).
Proof. intros H. unfold update. by rewrite H. Qed.

Lemma store_id h a p : deref h a = Ok p -> store h a p = h.
Proof.
  unfold deref, store. destruct h as [c x y]. simpl. destruct (c !! a) eqn:E; [| done].
  intros [= ->]. by rewrite insert_id.
Qed.

Lemma store_store h a p q : store (store h a p) a q = store h a q.
Proof. unfold store. simpl. by rewrite insert_insert_eq. Qed.

(** Everything but the entry of the calculated net is kept. *)
Definition only_at (a : Z) (h h' : powerHeap) : Prop :=
  forall b, b <> a -> deref h' b = deref h b.

Lemma only_at_store a h h' p : only_at a h h' -> only_at a h (store h' a p).
Proof. intros H b Hb. rewrite deref_store_ne by done. by apply H. Qed.

(** The levels of a power with their default nets. *)
Definition levels (p : CPower) : (Z * Z * Z) * (Z * Z * Z) :=
  (minVoltage p, simVoltage p, maxVoltage p, (defaultMinNet p, defaultSimNet p, defaultMaxNet p)).

Lemma levels_inherit d p : levels (inheritFamily d p) = levels p.
Proof. destruct p. unfold inheritFamily. destruct (typeBit d HIZ_BIT), (extraData d); done. Qed.

(** A heap whose free addresses are unused, and pointers that may be followed. *)
Definition heap_ok (h : powerHeap) (v : CPowerPtrVector) : Prop :=
  (forall a, nextAddress h <= a -> cells h !! a = None) /\
  (forall i a, vlookup v i = Some (Some a) -> exists p, deref h a = Ok p).

Lemma ensurePower_spec h v n o :
  heap_ok h v -> vlookup v n = Some o ->
  exists a p h' v', ensurePower h v n = Ok (a, h', v') /\ heap_ok h' v' /\
    deref h' a = Ok p /\ only_at a h h' /\ vlookup v' n = Some (Some a) /\
    length v' = length v /\ (forall i, i <> n -> vlookup v' i = vlookup v i) /\
    match o with
    | Some a0 => a = a0 /\ deref h a0 = Ok p
    | None => p = CPower_net n (powerCount h)
    end.
Proof.
  intros [Hf Hp] Hn. unfold ensurePower. rewrite (proj2 (vget_Ok _ _ _) Hn). simpl.
  pose proof (vlookup_range _ _ _ Hn) as Hr. destruct o as [a |].
  - destruct (Hp _ _ Hn) as [p Ha]. exists a, p, h, v. by repeat split.
  - rewrite vset_in_range by done. simpl.
    exists (nextAddress h), (CPower_net n (powerCount h)). do 2 eexists. split; [done |].
    assert (forall p b, b <> nextAddress h -> deref (mkHeap (<[nextAddress h := p]> (cells h))
      (nextAddress h + 1) (u32 (powerCount h + 1))) b = deref h b) as Hd.
    { intros p b Hb. unfold deref. simpl. by rewrite lookup_insert_ne. }
    split; [| split; [unfold deref; simpl; by rewrite lookup_insert_eq |]].
    2: { split; [intros b Hb; by apply Hd |]. rewrite vlookup_vupdate_eq, vupdate_length by done.
         repeat split; try done. intros i Hi. by apply vlookup_vupdate_ne. }
    split; simpl; [intros a Ha; rewrite lookup_insert_ne by lia; apply Hf; lia |].
    intros i a Hi. destruct (decide (a = nextAddress h)) as [-> | Hne].
    { eexists. unfold deref. simpl. by rewrite lookup_insert_eq. }
    rewrite Hd by done. apply (Hp i). rewrite <- Hi. symmetry. apply vlookup_vupdate_ne.
    intros <-. rewrite vlookup_vupdate_eq in Hi by done. congruence.
Qed.

Lemma pointee_is_Some h v d o :
  heap_ok h v -> vlookup v d = Some o -> exists x, pointee h o = Ok x.
Proof.
  intros [_ Hp] Hd. destruct o as [b |]; [| by exists None].
  destruct (Hp _ _ Hd) as [q Hq]. exists (Some q). simpl. by rewrite Hq.
Qed.

Lemma pointee_store h a p o x :
  pointee h o = Ok x -> exists y, pointee (store h a p) o = Ok y.
Proof.
  destruct o as [b |]; [| by exists None]. intros H. inv_ok H. simpl.
  destruct (decide (a = b)) as [-> | Hne].
  - exists (Some p). by rewrite deref_store_eq.
  - exists (Some a0). rewrite deref_store_ne by done. by rewrite Ha.
Qed.

(** What a min or max calculation leaves in the power of the net. *)
Definition calculated (q : eventQueue_t) (theShortVoltage theDefaultNetId : Z) (p p' : CPower)
    : Prop :=
  match q with
  | MIN_QUEUE =>
      levels p' = (theShortVoltage, simVoltage p, maxVoltage p,
                   (theDefaultNetId, defaultSimNet p, defaultMaxNet p)) /\
      typeBit p' MIN_CALCULATED_BIT = true /\ activeOf p' MIN_ACTIVE = true
  | MAX_QUEUE =>
      levels p' = (minVoltage p, simVoltage p, theShortVoltage,
                   (defaultMinNet p, defaultSimNet p, theDefaultNetId)) /\
      typeBit p' MAX_CALCULATED_BIT = true /\ activeOf p' MAX_ACTIVE = true
  | SIM_QUEUE => False
  end.

Lemma calculated_levels q V d p p1 :
  levels p1 = levels p -> q <> SIM_QUEUE ->
  forall c s, calculated q V d p
    (let x := match q with
              | MIN_QUEUE => set_minCalculationType c (calculateMin V d p1)
              | _ => set_maxCalculationType c (calculateMax V d p1)
              end in
     if IsEmpty (definition x) then set_definition s x else x) /\
  calculated q V d p
    (let x := match q with MIN_QUEUE => calculateMin V d p1 | _ => calculateMax V d p1 end in
     if IsEmpty (definition x) then set_definition s x else x).
Proof.
  destruct p, p1. unfold levels. simpl. intros [= <- <- <- <- <- <-] Hq c s.
  assert (forall x i, 0 <= i -> status_get (status_set x i true) i = true) as Hb.
  { intros x i Hi. rewrite status_get_set by done. by rewrite Z.eqb_refl. }
  destruct q; [done | |]; simpl;
    (split; (destruct (IsEmpty definition1); repeat split; apply Hb; done)).
Qed.

(** [CalculatePower] on the min or max queue always succeeds: the net
    ends with its own power, whose level and default net are the calculated
    ones and whose other two levels are kept, flagged as calculated and
    active; no other power and no other entry of the vector changes. *)
Theorem CalculatePower_min_max h v mn sn mx q V n d s o od :
  heap_ok h v -> vlookup v n = Some o -> vlookup v d = Some od -> q <> SIM_QUEUE ->
  exists h' v' a p p', CalculatePower h v mn sn mx q V n d s = Ok (h', v') /\
    vlookup v' n = Some (Some a) /\ deref h' a = Ok p' /\ calculated q V d p p' /\
    only_at a h h' /\ (forall i, i <> n -> vlookup v' i = vlookup v i) /\
    match o with
    | Some a0 => a = a0 /\ deref h a0 = Ok p
    | None => p = CPower_net n (powerCount h)
    end.
Proof.
  intros Hh Hn Hd Hq. unfold CalculatePower.
  destruct (ensurePower_spec h v n o Hh Hn) as (a & p & h1 & v1 & -> & Hh1 & Hp & Ho & Hv & Hl & Hi & Ho').
  simpl. assert (is_Some (vlookup v1 d)) as [od1 Hd1].
  { apply vlookup_is_Some. rewrite Hl. by apply vlookup_range in Hd. }
  rewrite (proj2 (vget_Ok _ _ _) Hd1). simpl.
  assert (exists p1, levels p1 = levels p /\
    (match od1 with
     | None => Ok h1
     | Some d1 => dp ← deref h1 d1; update h1 a (inheritFamily dp)
     end) = Ok (store h1 a p1)) as (p1 & Hp1 & ->).
  { destruct od1 as [d1 |]; [| exists p; by rewrite store_id].
    destruct (proj2 Hh1 _ _ Hd1) as [dp ->]. exists (inheritFamily dp p).
    split; [apply levels_inherit | by apply update_deref]. }
  destruct (pointee_is_Some _ _ _ _ Hh1 Hd1) as [x Hx]. simpl.
  set (c := match q with MIN_QUEUE => calculateMin V d p1 | _ => calculateMax V d p1 end).
  destruct (pointee_store h1 a c _ _ Hx) as [dp Hdp].
  set (p2 := let x := match dp with
      | None => c
      | Some dp => match q with
          | MIN_QUEUE => set_minCalculationType (direction V (minVoltage dp) (minCalculationType c)) c
          | _ => set_maxCalculationType (direction V (maxVoltage dp) (maxCalculationType c)) c
          end
      end in if IsEmpty (definition x) then set_definition s x else x).
  exists (store h1 a p2), v1, a, p, p2.
  split; [| split; [done | split; [apply deref_store_eq | split]]].
  - destruct q; [done | |]; rewrite (update_deref _ _ _ p1) by apply deref_store_eq; simpl;
      rewrite store_store; fold c; rewrite Hdp; simpl;
      (destruct dp as [dp |];
       [rewrite (update_deref _ _ _ c) by apply deref_store_eq; simpl; rewrite store_store |]);
      simpl; (erewrite update_deref by apply deref_store_eq); simpl; by rewrite store_store.
  - pose proof (fun c => calculated_levels q V d p p1 Hp1 Hq c s) as Hc. subst c.
    destruct q; [done | |]; (destruct dp as [dp |]; [apply Hc | apply (Hc NO_CALCULATION)]).
  - split; [by apply only_at_store | by split].
Qed.

Lemma CalculatePower_min_max_witness :
  exists h' v' a p p',
    CalculatePower exampleHeap [Some 100; None; Some 101] exampleMinNets exampleMinNets
      exampleMinNets MAX_QUEUE 1200 1 2 "max" = Ok (h', v') /\
    vlookup v' 1 = Some (Some a) /\ deref h' a = Ok p' /\ calculated MAX_QUEUE 1200 2 p p' /\
    only_at a exampleHeap h' /\
    (forall i, i <> 1 -> vlookup v' i = vlookup [Some 100; None; Some 101] i) /\
    p = CPower_net 1 (powerCount exampleHeap).
Proof.
  apply (CalculatePower_min_max exampleHeap [Some 100; None; Some 101] exampleMinNets
    exampleMinNets exampleMinNets MAX_QUEUE 1200 1 2 "max" None (Some 101));
    [| reflexivity | reflexivity | discriminate].
  split.
  - intros a Ha. simpl in Ha. apply lookup_insert_None. split; [| simpl; lia].
    apply lookup_singleton_None. lia.
  - intros i a [[-> E] | [[-> E] | [-> E]]]%vlookup3_inv; try discriminate; injection E as ->;
      eexists; vm_compute; reflexivity.
Defined.



End Power.
