(* ===== verification/Db.v ===== *)
(** * The database and its elementary queries

    The state of [CCvcDb] (CCvcDb.hh) that the propagation works on: the
    flattened netlist, the virtual nets of the three sample points (min, sim,
    max), the powers, the status words, the event queues and the error
    counters; then the functions of CCvcDb_utility.cc that read it:
    equivalent nets, voltages, resistances, connections of a device, error
    counting.

    The code passes references to one of the three event queues, each of which
    refers to its own virtual nets; here the queue is named by its type and
    [queueOf], [netsOf] select the parts of the state.  Text written to the
    report and error files is represented by the list [reports]; debug output
    has no counterpart. *)

From S2P Require Import Prelude CvcTypes EventQueue VirtualNet Numeric Power.
From stdpp Require Import base list strings gmap sets pretty.
From Stdlib Require Import ZArith Lia Floats.SpecFloat.
#[local] Open Scope Z_scope.

Module Db.
Import EventQueue.EventQueue VirtualNet.VirtualNet Power.Power Numeric.Numeric.

(** ** Netlist *)

(** [CModelCheck]: the texts and voltages of the limits of one check; a limit
    without text is not checked. *)
Record CModelCheck : Type := mkModelCheck {
  checkParameter : string;
  minInclusiveText : string;
  minExclusiveText : string;
  maxInclusiveText : string;
  maxExclusiveText : string;
  minInclusiveVoltage : Z;
  minExclusiveVoltage : Z;
  maxInclusiveVoltage : Z;
  maxExclusiveVoltage : Z
}.

Record CModel : Type := mkModel {
  modelName : string;
  modelType : modelType_t;
  Vth : Z;
  baseType : string;
  maxVds : Z;
  maxVgs : Z;
  maxVbs : Z;
  maxVbg : Z;
  diodeList : list (Z * Z);
  checkList : list CModelCheck
}.

Record CDevice : Type := mkDevice {
  deviceName : string;
  signalId_v : list Z;
  model_p : CModel;
  parameters : string;
  offset : Z
}.

(** [CDevice::IsResistor]: the instance name starts with R. *)
Definition IsResistor (d : CDevice) : bool :=
  match deviceName d with String c _ => bool_decide (c = Ascii.ascii_of_nat 82) | _ => false end.

(** A call of a subcircuit ([CDevice] with [master_p]): the local nets of its
    ports, the name and, once linked, the index of the circuit it instantiates. *)
Record CSubcircuit : Type := mkSubcircuit {
  subcircuitName : string;
  portSignalId_v : list Z;
  masterName : string;
  masterCircuit_p : Z
}.

(** [localSignalCount] is [localSignalIdMap.size()]; [totalNets], [totalDevices]
    and [totalSubcircuits] are [netCount], [deviceCount] and [subcircuitCount] with
    all subcircuits.  [signalName_v] holds the names of [localSignalIdMap] in the
    order of their numbers. *)
Record CCircuit : Type := mkCircuit {
  errorLimit : Z;
  circuitName : string;
  devicePtr_v : list CDevice;
  deviceErrorCount_v : list (list Z);
  devicePrintCount_v : list (list Z);
  portCount : Z;
  instanceCount : Z;
  instanceId_v : list Z;
  subcircuitPtr_v : list CSubcircuit;
  localSignalCount : Z;
  instanceHashId_v : list Z;
  linked : bool;
  totalNets : Z;
  totalDevices : Z;
  totalSubcircuits : Z;
  signalName_v : list string
}.

Definition set_errorCounts (e p : list (list Z)) (c : CCircuit) : CCircuit :=
  mkCircuit (errorLimit c) (circuitName c) (devicePtr_v c) e p (portCount c) (instanceCount c)
    (instanceId_v c) (subcircuitPtr_v c) (localSignalCount c) (instanceHashId_v c) (linked c)
    (totalNets c) (totalDevices c) (totalSubcircuits c) (signalName_v c).

(** [parallelInstanceCount] is a union: in a parallel instance it holds
    [parallelInstanceId]. *)
Record CInstance : Type := mkInstance {
  firstDeviceId : Z;
  firstSubcircuitId : Z;
  firstNetId : Z;
  parallelInstanceCount : Z;
  localToGlobalNetId_v : list Z;
  parentId : Z;
  master_p : Z;
  nextHashedInstanceId : Z
}.

Definition IsParallelInstance (i : CInstance) : bool :=
  bool_decide (localToGlobalNetId_v i = []).

Record CConnectionCount : Type := mkConnectionCount {
  sourceCount : Z;
  drainCount : Z;
  gateCount : Z;
  sourceDrainType : Z
}.

Definition SourceDrainCount (c : CConnectionCount) : Z := u32 (sourceCount c + drainCount c).

Definition set_sourceDrainType (x : Z) (c : CConnectionCount) : CConnectionCount :=
  mkConnectionCount (sourceCount c) (drainCount c) (gateCount c) x.

(** [modelType_t] values used as bit offsets of [sourceDrainType]. *)
Definition modelBit (t : modelType_t) : Z :=
  match t with
  | NMOS => 0 | PMOS => 1 | RESISTOR => 2 | CAPACITOR => 3 | DIODE => 4 | BIPOLAR => 5
  | FUSE_ON => 6 | FUSE_OFF => 7 | SWITCH_ON => 8 | SWITCH_OFF => 9 | MOSFET => 10
  | LDDN => 11 | LDDP => 12 | BOX => 13 | UNKNOWN => 14
  end.

Definition RESISTOR_ONLY : Z := 4.
Definition NMOS_PMOS : Z := 3.

(** The models of one list of [cvcModelListMap], each with the devices of its
    chain [firstDevice_p], [nextDevice_p], ...: the index of the circuit
    ([parent_p]) and the offset in its [devicePtr_v]. *)
Record CModelUse : Type := mkModelUse {
  useModel : CModel;
  useDevices : list (Z * Z)
}.

(** The parameters that only the error checks read. *)
Record CCheckParameters : Type := mkCheckParameters {
  cvcVthGates : bool;
  cvcMinVthGates : bool;
  cvcIgnoreVthFloating : bool;
  cvcIgnoreNoLeakFloating : bool;
  cvcLeakOvervoltage : bool;
  cvcLogicDiodes : bool;
  cvcAnalogGates : bool;
  cvcBiasErrorThreshold : Z;
  cvcForwardErrorThreshold : Z;
  cvcGateErrorThreshold : Z;
  cvcLeakErrorThreshold : Z;
  cvcExpectedErrorThreshold : Z;
  cvcOvervoltageErrorThreshold : Z;
  cvcModelListMap : list (list CModelUse);
  cvcExpectedLevelPtrList : list Z
}.

Record CCvcParameters : Type := mkParameters {
  cvcCircuitErrorLimit : Z;
  cvcLeakLimit : spec_float;
  cvcSOI : bool;
  cvcMosDiodeErrorThreshold : Z;
  cvcShortErrorThreshold : Z;
  cvcFloatingErrorThreshold : Z;
  cvcCellErrorLimitFile : string;
  cvcChecks : CCheckParameters
}.

(** The flattened netlist: written by the initialisation (Flatten.v, Links.v,
    Equivalent.v), only read by the propagation. *)
Record CNetlist : Type := mkNetlist {
  instancePtr_v : list CInstance;
  deviceParent_v : list Z;
  nextSource_v : list Z;
  nextGate_v : list Z;
  nextDrain_v : list Z;
  firstSource_v : list Z;
  firstGate_v : list Z;
  firstDrain_v : list Z;
  sourceNet_v : list Z;
  gateNet_v : list Z;
  drainNet_v : list Z;
  bulkNet_v : list Z;
  deviceType_v : list modelType_t;
  isFixedEquivalentNet : bool;
  equivalentNet_v : list Z;
  parameterResistanceMap : gmap string Z;
  deviceCount : Z;
  netCount : Z;
  subcircuitCount : Z;
  netParent_v : list Z
}.

Definition CDependencyMap : Type := gmap Z (list Z).

Inductive cvcError_t : Set :=
| LEAK | HIZ_INPUT | FORWARD_DIODE | NMOS_SOURCE_BULK | NMOS_GATE_SOURCE | NMOS_POSSIBLE_LEAK
| PMOS_SOURCE_BULK | PMOS_GATE_SOURCE | PMOS_POSSIBLE_LEAK | OVERVOLTAGE_VBG | OVERVOLTAGE_VBS
| OVERVOLTAGE_VDS | OVERVOLTAGE_VGS | MODEL_CHECK | EXPECTED_VOLTAGE | LDD_SOURCE
| MIN_VOLTAGE_CONFLICT | MAX_VOLTAGE_CONFLICT | FUSE_ERROR.

Definition errorIndex (e : cvcError_t) : Z :=
  match e with
  | LEAK => 0 | HIZ_INPUT => 1 | FORWARD_DIODE => 2 | NMOS_SOURCE_BULK => 3
  | NMOS_GATE_SOURCE => 4 | NMOS_POSSIBLE_LEAK => 5 | PMOS_SOURCE_BULK => 6
  | PMOS_GATE_SOURCE => 7 | PMOS_POSSIBLE_LEAK => 8 | OVERVOLTAGE_VBG => 9
  | OVERVOLTAGE_VBS => 10 | OVERVOLTAGE_VDS => 11 | OVERVOLTAGE_VGS => 12
  | MODEL_CHECK => 13 | EXPECTED_VOLTAGE => 14 | LDD_SOURCE => 15
  | MIN_VOLTAGE_CONFLICT => 16 | MAX_VOLTAGE_CONFLICT => 17 | FUSE_ERROR => 18
  end.

#[export] Instance cvcError_eq_dec : EqDecision cvcError_t.
Proof. solve_decision. Defined.

(** What the code writes to its error and report files, without the text. *)
Inductive report : Type :=
| ReportedError (theError : cvcError_t) (theDeviceId : Z)
| ExplainedError (theError : cvcError_t) (theDeviceId : Z) (theExplanation : string)
| MissingBulk (theNetId : Z)
| Warning (theNetId : Z).

(** ** State *)

Record CCvcDb : Type := mkDb {
  cvcParameters : CCvcParameters;
  netlist : CNetlist;
  circuits : list CCircuit;
  deviceStatus_v : list Z;
  netStatus_v : list Z;
  minNet_v : CVirtualNetVector;
  simNet_v : CVirtualNetVector;
  maxNet_v : CVirtualNetVector;
  isFixedMinNet : bool;
  isFixedSimNet : bool;
  isFixedMaxNet : bool;
  leakVoltageSet : bool;
  connectionCount_v : list CConnectionCount;
  powers : powerHeap;
  cvcPowerPtrList : list Z;
  netVoltagePtr_v : CPowerPtrVector;
  leakVoltagePtr_v : CPowerPtrVector;
  initialVoltagePtr_v : CPowerPtrVector;
  inverterNet_v : list Z;
  highLow_v : list bool;
  maxEventQueue : CEventQueue;
  minEventQueue : CEventQueue;
  simEventQueue : CEventQueue;
  unknownGateSet : gset string;
  errorCount : list Z;
  minConnectionDependencyMap : CDependencyMap;
  maxConnectionDependencyMap : CDependencyMap;
  cellErrorCountMap : gmap string Z;
  reports : list report
}.

Definition set_cvcParameters (v : CCvcParameters) (d : CCvcDb) : CCvcDb :=
  let 'mkDb _ x1 x2 x3 x4 x5 x6 x7 x8 x9 x10 x11 x12 x13 x14 x15 x16 x17 x18 x19 x20 x21 x22 x23
    x24 x25 x26 x27 x28 := d in mkDb v x1 x2 x3 x4 x5 x6 x7 x8 x9 x10 x11 x12 x13 x14 x15 x16
    x17 x18 x19 x20 x21 x22 x23 x24 x25 x26 x27 x28.
Definition set_netlist (v : CNetlist) (d : CCvcDb) : CCvcDb :=
  let 'mkDb x0 _ x2 x3 x4 x5 x6 x7 x8 x9 x10 x11 x12 x13 x14 x15 x16 x17 x18 x19 x20 x21 x22 x23
    x24 x25 x26 x27 x28 := d in mkDb x0 v x2 x3 x4 x5 x6 x7 x8 x9 x10 x11 x12 x13 x14 x15 x16
    x17 x18 x19 x20 x21 x22 x23 x24 x25 x26 x27 x28.
Definition set_circuits (v : list CCircuit) (d : CCvcDb) : CCvcDb :=
  let 'mkDb x0 x1 _ x3 x4 x5 x6 x7 x8 x9 x10 x11 x12 x13 x14 x15 x16 x17 x18 x19 x20 x21 x22 x23
    x24 x25 x26 x27 x28 := d in mkDb x0 x1 v x3 x4 x5 x6 x7 x8 x9 x10 x11 x12 x13 x14 x15 x16
    x17 x18 x19 x20 x21 x22 x23 x24 x25 x26 x27 x28.
Definition set_deviceStatus_v (v : list Z) (d : CCvcDb) : CCvcDb :=
  let 'mkDb x0 x1 x2 _ x4 x5 x6 x7 x8 x9 x10 x11 x12 x13 x14 x15 x16 x17 x18 x19 x20 x21 x22 x23
    x24 x25 x26 x27 x28 := d in mkDb x0 x1 x2 v x4 x5 x6 x7 x8 x9 x10 x11 x12 x13 x14 x15 x16
    x17 x18 x19 x20 x21 x22 x23 x24 x25 x26 x27 x28.
Definition set_netStatus_v (v : list Z) (d : CCvcDb) : CCvcDb :=
  let 'mkDb x0 x1 x2 x3 _ x5 x6 x7 x8 x9 x10 x11 x12 x13 x14 x15 x16 x17 x18 x19 x20 x21 x22 x23
    x24 x25 x26 x27 x28 := d in mkDb x0 x1 x2 x3 v x5 x6 x7 x8 x9 x10 x11 x12 x13 x14 x15 x16
    x17 x18 x19 x20 x21 x22 x23 x24 x25 x26 x27 x28.
Definition set_minNet_v (v : CVirtualNetVector) (d : CCvcDb) : CCvcDb :=
  let 'mkDb x0 x1 x2 x3 x4 _ x6 x7 x8 x9 x10 x11 x12 x13 x14 x15 x16 x17 x18 x19 x20 x21 x22 x23
    x24 x25 x26 x27 x28 := d in mkDb x0 x1 x2 x3 x4 v x6 x7 x8 x9 x10 x11 x12 x13 x14 x15 x16
    x17 x18 x19 x20 x21 x22 x23 x24 x25 x26 x27 x28.
Definition set_simNet_v (v : CVirtualNetVector) (d : CCvcDb) : CCvcDb :=
  let 'mkDb x0 x1 x2 x3 x4 x5 _ x7 x8 x9 x10 x11 x12 x13 x14 x15 x16 x17 x18 x19 x20 x21 x22 x23
    x24 x25 x26 x27 x28 := d in mkDb x0 x1 x2 x3 x4 x5 v x7 x8 x9 x10 x11 x12 x13 x14 x15 x16
    x17 x18 x19 x20 x21 x22 x23 x24 x25 x26 x27 x28.
Definition set_maxNet_v (v : CVirtualNetVector) (d : CCvcDb) : CCvcDb :=
  let 'mkDb x0 x1 x2 x3 x4 x5 x6 _ x8 x9 x10 x11 x12 x13 x14 x15 x16 x17 x18 x19 x20 x21 x22 x23
    x24 x25 x26 x27 x28 := d in mkDb x0 x1 x2 x3 x4 x5 x6 v x8 x9 x10 x11 x12 x13 x14 x15 x16
    x17 x18 x19 x20 x21 x22 x23 x24 x25 x26 x27 x28.
Definition set_isFixedMinNet (v : bool) (d : CCvcDb) : CCvcDb :=
  let 'mkDb x0 x1 x2 x3 x4 x5 x6 x7 _ x9 x10 x11 x12 x13 x14 x15 x16 x17 x18 x19 x20 x21 x22 x23
    x24 x25 x26 x27 x28 := d in mkDb x0 x1 x2 x3 x4 x5 x6 x7 v x9 x10 x11 x12 x13 x14 x15 x16
    x17 x18 x19 x20 x21 x22 x23 x24 x25 x26 x27 x28.
Definition set_isFixedSimNet (v : bool) (d : CCvcDb) : CCvcDb :=
  let 'mkDb x0 x1 x2 x3 x4 x5 x6 x7 x8 _ x10 x11 x12 x13 x14 x15 x16 x17 x18 x19 x20 x21 x22 x23
    x24 x25 x26 x27 x28 := d in mkDb x0 x1 x2 x3 x4 x5 x6 x7 x8 v x10 x11 x12 x13 x14 x15 x16
    x17 x18 x19 x20 x21 x22 x23 x24 x25 x26 x27 x28.
Definition set_isFixedMaxNet (v : bool) (d : CCvcDb) : CCvcDb :=
  let 'mkDb x0 x1 x2 x3 x4 x5 x6 x7 x8 x9 _ x11 x12 x13 x14 x15 x16 x17 x18 x19 x20 x21 x22 x23
    x24 x25 x26 x27 x28 := d in mkDb x0 x1 x2 x3 x4 x5 x6 x7 x8 x9 v x11 x12 x13 x14 x15 x16 x17
    x18 x19 x20 x21 x22 x23 x24 x25 x26 x27 x28.
Definition set_leakVoltageSet (v : bool) (d : CCvcDb) : CCvcDb :=
  let 'mkDb x0 x1 x2 x3 x4 x5 x6 x7 x8 x9 x10 _ x12 x13 x14 x15 x16 x17 x18 x19 x20 x21 x22 x23
    x24 x25 x26 x27 x28 := d in mkDb x0 x1 x2 x3 x4 x5 x6 x7 x8 x9 x10 v x12 x13 x14 x15 x16 x17
    x18 x19 x20 x21 x22 x23 x24 x25 x26 x27 x28.
Definition set_connectionCount_v (v : list CConnectionCount) (d : CCvcDb) : CCvcDb :=
  let 'mkDb x0 x1 x2 x3 x4 x5 x6 x7 x8 x9 x10 x11 _ x13 x14 x15 x16 x17 x18 x19 x20 x21 x22 x23
    x24 x25 x26 x27 x28 := d in mkDb x0 x1 x2 x3 x4 x5 x6 x7 x8 x9 x10 x11 v x13 x14 x15 x16 x17
    x18 x19 x20 x21 x22 x23 x24 x25 x26 x27 x28.
Definition set_powers (v : powerHeap) (d : CCvcDb) : CCvcDb :=
  let 'mkDb x0 x1 x2 x3 x4 x5 x6 x7 x8 x9 x10 x11 x12 _ x14 x15 x16 x17 x18 x19 x20 x21 x22 x23
    x24 x25 x26 x27 x28 := d in mkDb x0 x1 x2 x3 x4 x5 x6 x7 x8 x9 x10 x11 x12 v x14 x15 x16 x17
    x18 x19 x20 x21 x22 x23 x24 x25 x26 x27 x28.
Definition set_cvcPowerPtrList (v : list Z) (d : CCvcDb) : CCvcDb :=
  let 'mkDb x0 x1 x2 x3 x4 x5 x6 x7 x8 x9 x10 x11 x12 x13 _ x15 x16 x17 x18 x19 x20 x21 x22 x23
    x24 x25 x26 x27 x28 := d in mkDb x0 x1 x2 x3 x4 x5 x6 x7 x8 x9 x10 x11 x12 x13 v x15 x16 x17
    x18 x19 x20 x21 x22 x23 x24 x25 x26 x27 x28.
Definition set_netVoltagePtr_v (v : CPowerPtrVector) (d : CCvcDb) : CCvcDb :=
  let 'mkDb x0 x1 x2 x3 x4 x5 x6 x7 x8 x9 x10 x11 x12 x13 x14 _ x16 x17 x18 x19 x20 x21 x22 x23
    x24 x25 x26 x27 x28 := d in mkDb x0 x1 x2 x3 x4 x5 x6 x7 x8 x9 x10 x11 x12 x13 x14 v x16 x17
    x18 x19 x20 x21 x22 x23 x24 x25 x26 x27 x28.
Definition set_leakVoltagePtr_v (v : CPowerPtrVector) (d : CCvcDb) : CCvcDb :=
  let 'mkDb x0 x1 x2 x3 x4 x5 x6 x7 x8 x9 x10 x11 x12 x13 x14 x15 _ x17 x18 x19 x20 x21 x22 x23
    x24 x25 x26 x27 x28 := d in mkDb x0 x1 x2 x3 x4 x5 x6 x7 x8 x9 x10 x11 x12 x13 x14 x15 v x17
    x18 x19 x20 x21 x22 x23 x24 x25 x26 x27 x28.
Definition set_initialVoltagePtr_v (v : CPowerPtrVector) (d : CCvcDb) : CCvcDb :=
  let 'mkDb x0 x1 x2 x3 x4 x5 x6 x7 x8 x9 x10 x11 x12 x13 x14 x15 x16 _ x18 x19 x20 x21 x22 x23
    x24 x25 x26 x27 x28 := d in mkDb x0 x1 x2 x3 x4 x5 x6 x7 x8 x9 x10 x11 x12 x13 x14 x15 x16 v
    x18 x19 x20 x21 x22 x23 x24 x25 x26 x27 x28.
Definition set_inverterNet_v (v : list Z) (d : CCvcDb) : CCvcDb :=
  let 'mkDb x0 x1 x2 x3 x4 x5 x6 x7 x8 x9 x10 x11 x12 x13 x14 x15 x16 x17 _ x19 x20 x21 x22 x23
    x24 x25 x26 x27 x28 := d in mkDb x0 x1 x2 x3 x4 x5 x6 x7 x8 x9 x10 x11 x12 x13 x14 x15 x16
    x17 v x19 x20 x21 x22 x23 x24 x25 x26 x27 x28.
Definition set_highLow_v (v : list bool) (d : CCvcDb) : CCvcDb :=
  let 'mkDb x0 x1 x2 x3 x4 x5 x6 x7 x8 x9 x10 x11 x12 x13 x14 x15 x16 x17 x18 _ x20 x21 x22 x23
    x24 x25 x26 x27 x28 := d in mkDb x0 x1 x2 x3 x4 x5 x6 x7 x8 x9 x10 x11 x12 x13 x14 x15 x16
    x17 x18 v x20 x21 x22 x23 x24 x25 x26 x27 x28.
Definition set_maxEventQueue (v : CEventQueue) (d : CCvcDb) : CCvcDb :=
  let 'mkDb x0 x1 x2 x3 x4 x5 x6 x7 x8 x9 x10 x11 x12 x13 x14 x15 x16 x17 x18 x19 _ x21 x22 x23
    x24 x25 x26 x27 x28 := d in mkDb x0 x1 x2 x3 x4 x5 x6 x7 x8 x9 x10 x11 x12 x13 x14 x15 x16
    x17 x18 x19 v x21 x22 x23 x24 x25 x26 x27 x28.
Definition set_minEventQueue (v : CEventQueue) (d : CCvcDb) : CCvcDb :=
  let 'mkDb x0 x1 x2 x3 x4 x5 x6 x7 x8 x9 x10 x11 x12 x13 x14 x15 x16 x17 x18 x19 x20 _ x22 x23
    x24 x25 x26 x27 x28 := d in mkDb x0 x1 x2 x3 x4 x5 x6 x7 x8 x9 x10 x11 x12 x13 x14 x15 x16
    x17 x18 x19 x20 v x22 x23 x24 x25 x26 x27 x28.
Definition set_simEventQueue (v : CEventQueue) (d : CCvcDb) : CCvcDb :=
  let 'mkDb x0 x1 x2 x3 x4 x5 x6 x7 x8 x9 x10 x11 x12 x13 x14 x15 x16 x17 x18 x19 x20 x21 _ x23
    x24 x25 x26 x27 x28 := d in mkDb x0 x1 x2 x3 x4 x5 x6 x7 x8 x9 x10 x11 x12 x13 x14 x15 x16
    x17 x18 x19 x20 x21 v x23 x24 x25 x26 x27 x28.
Definition set_unknownGateSet (v : gset string) (d : CCvcDb) : CCvcDb :=
  let 'mkDb x0 x1 x2 x3 x4 x5 x6 x7 x8 x9 x10 x11 x12 x13 x14 x15 x16 x17 x18 x19 x20 x21 x22 _
    x24 x25 x26 x27 x28 := d in mkDb x0 x1 x2 x3 x4 x5 x6 x7 x8 x9 x10 x11 x12 x13 x14 x15 x16
    x17 x18 x19 x20 x21 x22 v x24 x25 x26 x27 x28.
Definition set_errorCount (v : list Z) (d : CCvcDb) : CCvcDb :=
  let 'mkDb x0 x1 x2 x3 x4 x5 x6 x7 x8 x9 x10 x11 x12 x13 x14 x15 x16 x17 x18 x19 x20 x21 x22
    x23 _ x25 x26 x27 x28 := d in mkDb x0 x1 x2 x3 x4 x5 x6 x7 x8 x9 x10 x11 x12 x13 x14 x15 x16
    x17 x18 x19 x20 x21 x22 x23 v x25 x26 x27 x28.
Definition set_minConnectionDependencyMap (v : CDependencyMap) (d : CCvcDb) : CCvcDb :=
  let 'mkDb x0 x1 x2 x3 x4 x5 x6 x7 x8 x9 x10 x11 x12 x13 x14 x15 x16 x17 x18 x19 x20 x21 x22
    x23 x24 _ x26 x27 x28 := d in mkDb x0 x1 x2 x3 x4 x5 x6 x7 x8 x9 x10 x11 x12 x13 x14 x15 x16
    x17 x18 x19 x20 x21 x22 x23 x24 v x26 x27 x28.
Definition set_maxConnectionDependencyMap (v : CDependencyMap) (d : CCvcDb) : CCvcDb :=
  let 'mkDb x0 x1 x2 x3 x4 x5 x6 x7 x8 x9 x10 x11 x12 x13 x14 x15 x16 x17 x18 x19 x20 x21 x22
    x23 x24 x25 _ x27 x28 := d in mkDb x0 x1 x2 x3 x4 x5 x6 x7 x8 x9 x10 x11 x12 x13 x14 x15 x16
    x17 x18 x19 x20 x21 x22 x23 x24 x25 v x27 x28.
Definition set_cellErrorCountMap (v : gmap string Z) (d : CCvcDb) : CCvcDb :=
  let 'mkDb x0 x1 x2 x3 x4 x5 x6 x7 x8 x9 x10 x11 x12 x13 x14 x15 x16 x17 x18 x19 x20 x21 x22
    x23 x24 x25 x26 _ x28 := d in mkDb x0 x1 x2 x3 x4 x5 x6 x7 x8 x9 x10 x11 x12 x13 x14 x15 x16
    x17 x18 x19 x20 x21 x22 x23 x24 x25 x26 v x28.
Definition set_reports (v : list report) (d : CCvcDb) : CCvcDb :=
  let 'mkDb x0 x1 x2 x3 x4 x5 x6 x7 x8 x9 x10 x11 x12 x13 x14 x15 x16 x17 x18 x19 x20 x21 x22
    x23 x24 x25 x26 x27 _ := d in mkDb x0 x1 x2 x3 x4 x5 x6 x7 x8 x9 x10 x11 x12 x13 x14 x15 x16
    x17 x18 x19 x20 x21 x22 x23 x24 x25 x26 x27 v.

(** ** Access to the parts of the state *)

Definition DB : Type -> Type := M CCvcDb.

Definition queueOf (q : eventQueue_t) (d : CCvcDb) : CEventQueue :=
  match q with SIM_QUEUE => simEventQueue d | MAX_QUEUE => maxEventQueue d | MIN_QUEUE => minEventQueue d end.
Definition set_queueOf (q : eventQueue_t) (x : CEventQueue) (d : CCvcDb) : CCvcDb :=
  match q with
  | SIM_QUEUE => set_simEventQueue x d
  | MAX_QUEUE => set_maxEventQueue x d
  | MIN_QUEUE => set_minEventQueue x d
  end.
Definition netsOf (q : eventQueue_t) (d : CCvcDb) : CVirtualNetVector :=
  match q with SIM_QUEUE => simNet_v d | MAX_QUEUE => maxNet_v d | MIN_QUEUE => minNet_v d end.
Definition set_netsOf (q : eventQueue_t) (x : CVirtualNetVector) (d : CCvcDb) : CCvcDb :=
  match q with
  | SIM_QUEUE => set_simNet_v x d
  | MAX_QUEUE => set_maxNet_v x d
  | MIN_QUEUE => set_minNet_v x d
  end.

(** [v[i]] of a vector of the state or of the netlist. *)
Definition at_ {A} (f : CCvcDb -> list A) (i : Z) : DB A := fun d => lift (vget (f d) i) d.
Definition nl {A} (f : CNetlist -> A) : DB A := gets (fun d => f (netlist d)).
Definition nlat {A} (f : CNetlist -> list A) (i : Z) : DB A :=
  fun d => lift (vget (f (netlist d)) i) d.

Definition getDeviceBit (i : Z) (b : deviceStatus_t) : DB bool :=
  s ← at_ deviceStatus_v i; mret (status_get s (deviceBit b)).
Definition setDeviceBit (i : Z) (b : deviceStatus_t) (x : bool) : DB unit :=
  s ← at_ deviceStatus_v i;
  modify (fun d => set_deviceStatus_v
    (vupdate (deviceStatus_v d) i (status_set s (deviceBit b) x)) d).
Definition getNetBit (i : Z) (b : netStatus_t) : DB bool :=
  s ← at_ netStatus_v i; mret (status_get s (netBit b)).
Definition setNetBit (i : Z) (b : netStatus_t) (x : bool) : DB unit :=
  s ← at_ netStatus_v i;
  modify (fun d => set_netStatus_v (vupdate (netStatus_v d) i (status_set s (netBit b) x)) d).

(** Powers: dereferencing, updating and allocating through the heap. *)
Definition derefM (a : Z) : DB CPower := fun d => lift (deref (powers d) a) d.
Definition pointeeM (a : option Z) : DB (option CPower) := fun d => lift (pointee (powers d) a) d.
(** [p->field]: undefined behaviour for a null pointer. *)
Definition arrow (a : option Z) : DB CPower :=
  match a with Some a => derefM a | None => raise UndefinedBehaviour end.
Definition updateM (a : option Z) (f : CPower -> CPower) : DB unit :=
  match a with
  | None => raise UndefinedBehaviour
  | Some a => fun d =>
      match update (powers d) a f with
      | Ok h => Ok (tt, set_powers h d)
      | Err e => Err e
      end
  end.
Definition allocM (p : Z -> CPower) : DB Z :=
  fun d => let '(a, h) := alloc (powers d) p in Ok (a, set_powers h d).
(** [cvcPowerPtrList.push_back(new CPower(...))]. *)
Definition pushPowerM (p : Z -> CPower) : DB Z :=
  a ← allocM p;
  _ ← modify (fun d => set_cvcPowerPtrList (cvcPowerPtrList d ++ [a]) d);
  mret a.
Definition powerAt (n : Z) : DB (option Z) := at_ netVoltagePtr_v n.
Definition setPowerAt (n : Z) (a : option Z) : DB unit :=
  fun d => match vset (netVoltagePtr_v d) n a with
           | Ok v => Ok (tt, set_netVoltagePtr_v v d)
           | Err e => Err e
           end.

(** [theVirtualNet(theNets, theNetId)]. *)
Definition accessM (q : eventQueue_t) (n : Z) : DB CVirtualNet :=
  fun d => match access newVirtualNet (netsOf q d) n with
           | Ok (x, v) => Ok (x, set_netsOf q v d)
           | Err e => Err e
           end.
Definition netM (q : eventQueue_t) (n : Z) : DB CVirtualNet :=
  fun d => lift (vget (nets (netsOf q d)) n) d.
Definition isTerminalM (q : eventQueue_t) (n : Z) : DB bool :=
  fun d => lift (IsTerminal (netsOf q d) n) d.
Definition setNetM (q : eventQueue_t) (n next r t : Z) : DB unit :=
  fun d => match Set_ (netsOf q d) n next r t with
           | Ok v => Ok (tt, set_netsOf q v d)
           | Err e => Err e
           end.
Definition lastUpdateM (q : eventQueue_t) : DB Z := gets (fun d => lastUpdate (netsOf q d)).
(** [++lastUpdate], a signed 32-bit increment. *)
Definition tickLastUpdate (q : eventQueue_t) : DB Z :=
  t ← lastUpdateM q;
  if t =? INT32_MAX then raise UndefinedBehaviour
  else
    _ ← modify (fun d => set_netsOf q (set_lastUpdate (t + 1) (netsOf q d)) d);
    mret (t + 1).

Definition queueM {A} (q : eventQueue_t) (f : CEventQueue -> outcome (A * CEventQueue)) : DB A :=
  fun d => match f (queueOf q d) with
           | Ok (a, x) => Ok (a, set_queueOf q x d)
           | Err e => Err e
           end.
Definition addEventM (q : eventQueue_t) (k i : Z) (pos : queuePosition_t) : DB unit :=
  queueM q (fun x => y ← AddEvent x k i pos; Ok (tt, y)).
Definition reportM (r : report) : DB unit := modify (fun d => set_reports (r :: reports d) d).

(** [for ( d = first; d != UNKNOWN_DEVICE; d = next[d] )] with an early
    return: the body returns [Some r] to leave the function. *)
Fixpoint forDevices {R} (fuel : nat) (next : CNetlist -> list Z) (body : Z -> DB (option R))
    (device_it : Z) : DB (option R) :=
  match fuel with
  | O => raise OutOfFuel
  | S fuel =>
      if device_it =? UNKNOWN_DEVICE then mret None
      else
        r ← body device_it;
        match r with
        | Some r => mret (Some r)
        | None => n ← nlat next device_it; forDevices fuel next body n
        end
  end.

(** The same loop with local variables: the body returns them, or the value
    the function returns. *)
Fixpoint loopDevices {A R} (fuel : nat) (next : CNetlist -> list Z) (body : A -> Z -> DB (A + R))
    (a : A) (device_it : Z) : DB (A + R) :=
  match fuel with
  | O => raise OutOfFuel
  | S fuel =>
      if device_it =? UNKNOWN_DEVICE then mret (inl a)
      else
        r ← body a device_it;
        match r with
        | inr r => mret (inr r)
        | inl a => n ← nlat next device_it; loopDevices fuel next body a n
        end
  end.

(** A device list visits every device at most once. *)
Definition overDevices {R} (first next : CNetlist -> list Z) (theNetId : Z)
    (body : Z -> DB (option R)) : DB (option R) :=
  n ← nlat first theNetId;
  fuel ← nl (fun x => S (length (next x)));
  forDevices fuel next body n.

Definition overDevicesWith {A R} (first next : CNetlist -> list Z) (theNetId : Z) (a : A)
    (body : A -> Z -> DB (A + R)) : DB (A + R) :=
  n ← nlat first theNetId;
  fuel ← nl (fun x => S (length (next x)));
  loopDevices fuel next body a n.

(** [for ( i = 0; i < n; i++ )] and the iteration over a list. *)
Fixpoint forRange (n : nat) (i : Z) (body : Z -> DB unit) : DB unit :=
  match n with
  | O => mret tt
  | S n => _ ← body i; forRange n (i + 1) body
  end.

Definition forNets (body : Z -> DB unit) : DB unit :=
  n ← nl netCount; forRange (Z.to_nat n) 0 body.
Definition forAllDevices (body : Z -> DB unit) : DB unit :=
  n ← nl deviceCount; forRange (Z.to_nat n) 0 body.

Fixpoint forList {A} (l : list A) (body : A -> DB unit) : DB unit :=
  match l with
  | [] => mret tt
  | x :: l => _ ← body x; forList l body
  end.

(** A loop whose body keeps [P], indexed by the next counter value. *)
Lemma forRange_inv (P : Z -> CCvcDb -> Prop) body n : forall i d,
  P i d ->
  (forall j d, i <= j < i + Z.of_nat n -> P j d -> exists d', body j d = Ok (tt, d') /\ P (j + 1) d') ->
  exists d', forRange n i body d = Ok (tt, d') /\ P (i + Z.of_nat n) d'.
Proof.
  induction n as [| n IH]; intros i d Hi Hb.
  { exists d. split; [done |]. by rewrite Z.add_0_r. }
  destruct (Hb i d ltac:(lia) Hi) as (d1 & E1 & H1).
  destruct (IH (i + 1) d1 H1) as (d' & E' & H'); [intros j x Hj; apply Hb; lia |].
  exists d'. split; [simpl; unfold mbind, M_bind; by rewrite E1 |].
  replace (i + Z.of_nat (S n)) with (i + 1 + Z.of_nat n) by lia. exact H'.
Qed.

(** ** Inversion of successful runs *)

Lemma mret_inv {A} (a b : A) (d d' : CCvcDb) : (mret a : DB A) d = Ok (b, d') -> b = a /\ d' = d.
Proof. unfold mret, M_ret. intros [= -> ->]. done. Qed.

Lemma gets_inv {A} (f : CCvcDb -> A) a d d' : gets f d = Ok (a, d') -> a = f d /\ d' = d.
Proof. unfold gets. intros [= <- <-]. done. Qed.

Lemma at_inv {A} (f : CCvcDb -> list A) i a d d' : at_ f i d = Ok (a, d') -> vlookup (f d) i = Some a /\ d' = d.
Proof.
  unfold at_, lift. destruct (vget (f d) i) eqn:E; [| done]. intros [= <- <-]. by rewrite <- vget_Ok.
Qed.

Lemma nl_inv {A} (f : CNetlist -> A) a d d' : nl f d = Ok (a, d') -> a = f (netlist d) /\ d' = d.
Proof. apply (gets_inv (fun d => f (netlist d))). Qed.

Lemma nlat_inv {A} (f : CNetlist -> list A) i a d d' :
  nlat f i d = Ok (a, d') -> vlookup (f (netlist d)) i = Some a /\ d' = d.
Proof.
  unfold nlat, lift. destruct (vget _ i) eqn:E; [| done]. intros [= <- <-]. by rewrite <- vget_Ok.
Qed.

Lemma lift_inv {A} (o : outcome A) a (d d' : CCvcDb) : lift o d = Ok (a, d') -> o = Ok a /\ d' = d.
Proof. unfold lift. destruct o; [| done]. by intros [= <- <-]. Qed.

Lemma assertM_inv b a (d d' : CCvcDb) : assertM b d = Ok (a, d') -> b = true /\ d' = d.
Proof. unfold assertM. intros [E ->]%lift_inv. destruct b; done. Qed.

Lemma derefM_inv a p d d' : derefM a d = Ok (p, d') -> deref (powers d) a = Ok p /\ d' = d.
Proof. apply lift_inv. Qed.

Lemma pointeeM_inv a p d d' : pointeeM a d = Ok (p, d') -> pointee (powers d) a = Ok p /\ d' = d.
Proof. apply lift_inv. Qed.

Lemma powerAt_inv n a d d' :
  powerAt n d = Ok (a, d') -> vlookup (netVoltagePtr_v d) n = Some a /\ d' = d.
Proof. apply at_inv. Qed.

(** Peel the binds of a successful run; the readers leave the state as it is. *)
Ltac subst_result E :=
  first [ discriminate E | match type of E with ?x = _ => is_var x; subst x end | idtac ].

Ltac reader_inv E :=
  first [ apply mret_inv in E as [E ->]; subst_result E | apply gets_inv in E as [E ->]; subst_result E
        | apply nl_inv in E as [E ->]; subst_result E
        | apply nlat_inv in E as [E ->] | apply at_inv in E as [E ->] | apply powerAt_inv in E as [E ->]
        | apply pointeeM_inv in E as [E ->] | apply derefM_inv in E as [E ->]
        | apply assertM_inv in E as [E ->] | apply lift_inv in E as [E ->] | idtac ].

Ltac run_inv H :=
  repeat (let x := fresh "x" in let d := fresh "d" in let E := fresh "R" in
          apply M_bind_inv in H as (x & d & E & H); reader_inv E; cbv beta iota in H).

(** One bind whose first run is known. *)
Ltac use_run H Heq :=
  let E := fresh "E" in
  apply M_bind_inv in H as (? & ? & E & H); rewrite Heq in E; injection E as <- <-; cbv beta iota in H.

(** A loop over the devices of a net whose body keeps [I] on its local
    variables and establishes [Q] where it leaves the function. *)
Lemma overDevicesWith_ind {A R} (I : A -> CCvcDb -> Prop) (Q : R -> CCvcDb -> Prop) first next n body :
  (forall a i d r d', I a d -> body a i d = Ok (r, d') ->
     match r with inl a => I a d' | inr x => Q x d' end) ->
  forall a d r d', I a d -> overDevicesWith first next n a body d = Ok (r, d') ->
  match r with inl a => I a d' | inr x => Q x d' end.
Proof.
  intros Hb a d r d' Ha H. unfold overDevicesWith in H.
  apply M_bind_inv in H as (i & d1 & E & H). apply M_bind_inv in H as (fuel & d2 & E2 & H).
  assert (d1 = d) as -> by (unfold nlat, lift in E; destruct (vget _ _); congruence).
  assert (d2 = d) as -> by (unfold nl, gets in E2; congruence). clear E E2.
  revert a i d Ha H. induction fuel as [| fuel IH]; intros a i d Ha H; simpl in H; [discriminate |].
  destruct (i =? UNKNOWN_DEVICE); [injection H as <- <-; exact Ha |].
  apply M_bind_inv in H as (x & d1 & E & H). specialize (Hb _ _ _ _ _ Ha E). destruct x as [x | x].
  - apply M_bind_inv in H as (j & d2 & E2 & H).
    assert (d2 = d1) as -> by (unfold nlat, lift in E2; destruct (vget _ _); congruence).
    exact (IH _ _ _ Hb H).
  - injection H as <- <-. exact Hb.
Qed.

(** ** Equivalent nets (CCvcDb_utility.cc) *)

Fixpoint leastLoop (fuel : nat) (v : list Z) (theNetId : Z) : outcome Z :=
  match fuel with
  | O => throw OutOfFuel
  | S fuel =>
      n ← vget v theNetId;
      if n <? theNetId then leastLoop fuel v n else Ok theNetId
  end.

Definition GetLeastEquivalentNet (x : CNetlist) (theNetId : Z) : outcome Z :=
  if theNetId =? UNKNOWN_NET then Ok UNKNOWN_NET
  else leastLoop (S (length (equivalentNet_v x))) (equivalentNet_v x) theNetId.

Definition GetGreatestEquivalentNet (x : CNetlist) (theNetId : Z) : outcome Z :=
  if theNetId =? UNKNOWN_NET then Ok UNKNOWN_NET
  else
    n ← leastLoop (S (length (equivalentNet_v x))) (equivalentNet_v x) theNetId;
    vget (equivalentNet_v x) n.

Definition GetEquivalentNet (theNetId : Z) : DB Z :=
  if theNetId =? UNKNOWN_NET then mret UNKNOWN_NET
  else
    fixed ← nl isFixedEquivalentNet;
    x ← gets netlist;
    n ← (if (fixed : bool) then nlat equivalentNet_v theNetId
         else lift (GetLeastEquivalentNet x theNetId));
    a ← powerAt n;
    p ← pointeeM a;
    match p with
    | Some p => if netId p =? UNKNOWN_NET then mret n else mret (netId p)
    | None => mret n
    end.

(** [GetEquivalentNet] reads the netlist and the powers of the nets only. *)
Lemma GetEquivalentNet_frame n d d' x :
  netlist d' = netlist d -> powers d' = powers d -> netVoltagePtr_v d' = netVoltagePtr_v d ->
  GetEquivalentNet n d = Ok (x, d) -> GetEquivalentNet n d' = Ok (x, d').
Proof.
  intros E1 E2 E3. unfold GetEquivalentNet. destruct (n =? UNKNOWN_NET); [by intros [= <-] |].
  unfold nl, nlat, powerAt, at_, pointeeM, gets, lift, mbind, M_bind. rewrite !E1.
  destruct (if isFixedEquivalentNet (netlist d) then vget (equivalentNet_v (netlist d)) n
            else GetLeastEquivalentNet (netlist d) n) as [m | e] eqn:Em;
    destruct (isFixedEquivalentNet (netlist d)); rewrite ?E1, Em; try done; rewrite E3;
    (destruct (vget (netVoltagePtr_v d) m) as [a | e]; [| done]); rewrite E2;
    (destruct (pointee (powers d) a) as [[p |] | e]; [| by intros [= <-] | done]);
    destruct (netId p =? UNKNOWN_NET); by intros [= <-].
Qed.

(** [assert(theNetId == GetEquivalentNet(theNetId))]. *)
Definition assertEquivalent (theNetId : Z) : DB unit :=
  n ← GetEquivalentNet theNetId; assertM (theNetId =? n).

(** ** Voltages and resistances of a net (CCvcDb_utility.cc) *)

(** Shared shape of [MinVoltage], [SimVoltage] and [MaxVoltage]: the level of
    the power at the end of the chain. *)
Definition levelOf (q : eventQueue_t) (f : CPower -> Z) (theNetId : Z) (theSkipHiZFlag : bool)
    : DB Z :=
  if theNetId =? UNKNOWN_NET then mret UNKNOWN_VOLTAGE
  else
    _ ← assertEquivalent theNetId;
    v ← accessM q theNetId;
    if finalNetId v =? UNKNOWN_NET then mret UNKNOWN_VOLTAGE
    else
      a ← powerAt (finalNetId v);
      p ← pointeeM a;
      match p with
      | None => mret UNKNOWN_VOLTAGE
      | Some p =>
          if theSkipHiZFlag && typeBit p HIZ_BIT then mret UNKNOWN_VOLTAGE else mret (f p)
      end.

Definition MinVoltage (theNetId : Z) (theSkipHiZFlag : bool) : DB Z :=
  levelOf MIN_QUEUE minVoltage theNetId theSkipHiZFlag.
Definition SimVoltage (theNetId : Z) : DB Z := levelOf SIM_QUEUE simVoltage theNetId false.
Definition MaxVoltage (theNetId : Z) (theSkipHiZFlag : bool) : DB Z :=
  levelOf MAX_QUEUE maxVoltage theNetId theSkipHiZFlag.

(** The loop of [MinSimVoltage] and [MaxSimVoltage]: the first calculated
    simulation voltage met along the chain limits the level. *)
Fixpoint simLimit (fuel : nat) (q : eventQueue_t) (limit : Z -> Z -> Z) (myLevel myNetId : Z) : DB Z :=
  match fuel with
  | O => raise OutOfFuel
  | S fuel =>
      n ← netM q myNetId;
      if myNetId =? nextNetId n then mret myLevel
      else
        a ← powerAt (nextNetId n);
        p ← pointeeM a;
        match p with
        | Some p =>
            if typeBit p SIM_CALCULATED_BIT && IsKnownVoltage_ (simVoltage p) then
              mret (if myLevel =? UNKNOWN_VOLTAGE then simVoltage p
                    else limit (simVoltage p) myLevel)
            else simLimit fuel q limit myLevel (nextNetId n)
        | None => simLimit fuel q limit myLevel (nextNetId n)
        end
  end.

Definition levelWithSim (q : eventQueue_t) (f : CPower -> Z) (limit : Z -> Z -> Z) (theNetId : Z)
    : DB Z :=
  if theNetId =? UNKNOWN_NET then mret UNKNOWN_VOLTAGE
  else
    _ ← assertEquivalent theNetId;
    v ← accessM q theNetId;
    if finalNetId v =? UNKNOWN_NET then mret UNKNOWN_VOLTAGE
    else
      a ← powerAt (finalNetId v);
      p ← pointeeM a;
      let myLevel := match p with Some p => f p | None => UNKNOWN_VOLTAGE end in
      fuel ← gets (fun d => length (nets (netsOf q d)));
      simLimit fuel q limit myLevel theNetId.

Definition MinSimVoltage (theNetId : Z) : DB Z := levelWithSim MIN_QUEUE minVoltage Z.max theNetId.
Definition MaxSimVoltage (theNetId : Z) : DB Z := levelWithSim MAX_QUEUE maxVoltage Z.min theNetId.

(** [MinResistance] and [MaxResistance] answer [UNKNOWN_VOLTAGE] for an
    unknown net, as the code does. *)
Definition resistanceOf (q : eventQueue_t) (theNetId : Z) : DB Z :=
  if theNetId =? UNKNOWN_NET then mret UNKNOWN_VOLTAGE
  else
    _ ← assertEquivalent theNetId;
    v ← accessM q theNetId;
    if finalNetId v =? UNKNOWN_NET then mret UNKNOWN_VOLTAGE else mret (finalResistance v).

Definition MinResistance (theNetId : Z) : DB Z := resistanceOf MIN_QUEUE theNetId.
Definition MaxResistance (theNetId : Z) : DB Z := resistanceOf MAX_QUEUE theNetId.

Definition SimResistance (theNetId : Z) : DB Z :=
  if theNetId =? UNKNOWN_NET then mret MAX_RESISTANCE
  else
    _ ← assertEquivalent theNetId;
    v ← accessM SIM_QUEUE theNetId;
    mret (finalResistance v).

(** The chain of the saved nets ([backupNetId]). *)
Fixpoint backupEnd (fuel : nat) (v : list CVirtualNet) (myNetId : Z) : outcome Z :=
  match fuel with
  | O => throw OutOfFuel
  | S fuel =>
      n ← vget v myNetId;
      if myNetId =? backupNetId n then Ok myNetId else backupEnd fuel v (backupNetId n)
  end.

Definition leakLevel (q : eventQueue_t) (f : CPower -> Z) (theNetId : Z) : DB Z :=
  leak ← gets leakVoltageSet;
  if (theNetId =? UNKNOWN_NET) || negb leak then mret UNKNOWN_VOLTAGE
  else
    n ← netM q theNetId;
    _ ← assertEquivalent theNetId;
    if backupNetId n =? UNKNOWN_NET then mret UNKNOWN_VOLTAGE
    else
      e ← (fun d => lift (backupEnd (S (length (nets (netsOf q d)))) (nets (netsOf q d))
                            (backupNetId n)) d : outcome (Z * CCvcDb));
      a ← at_ leakVoltagePtr_v e;
      p ← pointeeM a;
      mret (match p with Some p => f p | None => UNKNOWN_VOLTAGE end).

Definition MinLeakVoltage (theNetId : Z) : DB Z := leakLevel MIN_QUEUE minVoltage theNetId.
Definition MaxLeakVoltage (theNetId : Z) : DB Z := leakLevel MAX_QUEUE maxVoltage theNetId.

(** [IsDerivedFromFloating]: the end of the chain is an open power. *)
Definition IsDerivedFromFloating (q : eventQueue_t) (theNetId : Z) : DB bool :=
  _ ← assertEquivalent theNetId;
  v ← accessM q theNetId;
  a ← powerAt (finalNetId v);
  p ← pointeeM a;
  mret (optb (fun p => typeBit p HIZ_BIT) p).

Definition IsVerifiedPower (theNetId : Z) : DB bool :=
  a ← getNetBit theNetId NEEDS_MIN_CHECK;
  b ← getNetBit theNetId NEEDS_MIN_CONNECTION;
  c ← getNetBit theNetId NEEDS_MAX_CHECK;
  e ← getNetBit theNetId NEEDS_MAX_CONNECTION;
  mret (negb (a || b || c || e)).

(** ** Device connections (CCvcDb_utility.cc, CConnection.hh) *)

(** [instancePtr_v[deviceParent_v[id]]->master_p->devicePtr_v[id - firstDeviceId]]. *)
Definition deviceOf (theDeviceId : Z) : DB CDevice :=
  parent ← nlat deviceParent_v theDeviceId;
  i ← nlat instancePtr_v parent;
  c ← at_ circuits (master_p i);
  lift (vget (devicePtr_v c) (u32 (theDeviceId - firstDeviceId i))).

(** [parameterResistanceMap[text]] of a text without an entry is 0. *)
Definition resistanceOfText (t : string) : DB Z :=
  m ← nl parameterResistanceMap; mret (default 0 (m !! t)).

Record CConnection : Type := mkConnection {
  sourceId : Z;
  gateId : Z;
  drainId : Z;
  bulkId : Z;
  masterSourceNet : CVirtualNet;
  masterDrainNet : CVirtualNet;
  masterGateNet : CVirtualNet;
  masterBulkNet : CVirtualNet;
  sourceVoltage : Z;
  drainVoltage : Z;
  gateVoltage : Z;
  bulkVoltage : Z;
  device_p : CDevice;
  deviceId : Z;
  sourcePower_p : option Z;
  gatePower_p : option Z;
  drainPower_p : option Z;
  connResistance : Z
}.

Definition set_gateVoltage (x : Z) (c : CConnection) : CConnection :=
  let 'mkConnection a b d e f g h i j k _ l m n o p q r := c in
  mkConnection a b d e f g h i j k x l m n o p q r.

Definition VthOf (c : CConnection) : Z := Vth (model_p (device_p c)).

(** [netVoltagePtr_v.MinVoltage] and its siblings on the final net. *)
Definition queueVoltage (q : eventQueue_t) (n : Z) : DB Z :=
  fun d =>
    let f := match q with MIN_QUEUE => minVoltage | MAX_QUEUE => maxVoltage | SIM_QUEUE => simVoltage end in
    lift (voltageAt f (powers d) (netVoltagePtr_v d) n) d.

(** Connections of a device at one sample point. *)
Definition MapDeviceNets (theDeviceId : Z) (q : eventQueue_t) : DB CConnection :=
  myDevice ← deviceOf theDeviceId;
  s ← nlat sourceNet_v theDeviceId;
  g ← nlat gateNet_v theDeviceId;
  dr ← nlat drainNet_v theDeviceId;
  b ← nlat bulkNet_v theDeviceId;
  ms ← accessM q s;
  mg ← accessM q g;
  md ← accessM q dr;
  mb ← accessM q b;
  sv ← queueVoltage q (finalNetId ms);
  gv ← queueVoltage q (finalNetId mg);
  dv ← queueVoltage q (finalNetId md);
  bv ← queueVoltage q (finalNetId mb);
  gp ← (if finalNetId mg =? UNKNOWN_NET then mret None else powerAt (finalNetId mg));
  sp ← powerAt (finalNetId ms);
  spp ← pointeeM sp;
  let sv := match spp with Some p => if IsSCRCPower (Some p) then minVoltage p else sv | None => sv end in
  dp ← powerAt (finalNetId md);
  dpp ← pointeeM dp;
  let dv := match dpp with Some p => if IsSCRCPower (Some p) then minVoltage p else dv | None => dv end in
  r ← resistanceOfText (parameters myDevice);
  mret (mkConnection s g dr b ms md mg mb sv dv gv bv myDevice theDeviceId sp gp dp r).

(** [IsUnknownSourceVoltage] and its siblings: an open power counts as known. *)
Definition isUnknownTerminal (v : Z) (a : option Z) : DB bool :=
  p ← pointeeM a;
  mret ((v =? UNKNOWN_VOLTAGE) && negb (optb (fun p => typeBit p HIZ_BIT) p)).
Definition IsUnknownSourceVoltage (c : CConnection) : DB bool :=
  isUnknownTerminal (sourceVoltage c) (sourcePower_p c).
Definition IsUnknownGateVoltage (c : CConnection) : DB bool :=
  isUnknownTerminal (gateVoltage c) (gatePower_p c).
Definition IsUnknownDrainVoltage (c : CConnection) : DB bool :=
  isUnknownTerminal (drainVoltage c) (drainPower_p c).

(** [CConnection::EstimatedCurrent]. *)
Definition EstimatedCurrent (c : CConnection) (theSourceVoltage theDrainVoltage
    theSourceResistance theDrainResistance : Z) : spec_float :=
  current3 (Z.abs (theSourceVoltage - theDrainVoltage))
    (u32 (connResistance c + theSourceResistance + theDrainResistance)).

(** [CConnection::EstimatedMosDiodeCurrent]: no current for an open power on
    the side opposite to the gate. *)
Definition EstimatedMosDiodeCurrent (c : CConnection) (theSourceVoltage : Z) : DB spec_float :=
  sp ← pointeeM (sourcePower_p c);
  dp ← pointeeM (drainPower_p c);
  let hiz := optb (fun p => typeBit p HIZ_BIT) in
  if (gateId c =? drainId c) && hiz sp then mret (S754_zero false)
  else if negb (gateId c =? drainId c) && (gateId c =? sourceId c) && hiz dp
  then mret (S754_zero false)
  else mret (current3 (Z.abs (theSourceVoltage - gateVoltage c))
               (u32 (connResistance c + finalResistance (masterSourceNet c)
                     + finalResistance (masterDrainNet c)))).

(** ** Error counting (CCvcDb_utility.cc) *)

Definition CalculateMFactor (theInstanceId : Z) : DB Z :=
  i ← nlat instancePtr_v theInstanceId;
  if IsParallelInstance i then mret 0
  else mret (if 1 <? parallelInstanceCount i then s32 (parallelInstanceCount i) else 1).

(** [InstanceDepth] and [IsSubcircuitOf]: the assertions bound the walk to the
    top by the number of subcircuits. *)
Fixpoint depthLoop (fuel : nat) (myDepth theInstanceId : Z) : DB Z :=
  match fuel with
  | O => raise OutOfFuel
  | S fuel =>
      if theInstanceId =? 0 then mret myDepth
      else
        n ← nl subcircuitCount;
        _ ← assertM (myDepth <? n);
        _ ← assertM (negb (theInstanceId =? UNKNOWN_INSTANCE));
        i ← nlat instancePtr_v theInstanceId;
        depthLoop fuel (myDepth + 1) (parentId i)
  end.

Definition InstanceDepth (theInstanceId : Z) : DB Z :=
  n ← nl subcircuitCount; depthLoop (S (Z.to_nat n)) 0 theInstanceId.

Fixpoint subcircuitLoop (fuel : nat) (myCount theInstanceId theParentId : Z) : DB bool :=
  match fuel with
  | O => raise OutOfFuel
  | S fuel =>
      i ← nlat instancePtr_v theInstanceId;
      if parentId i =? 0 then mret false
      else
        n ← nl subcircuitCount;
        _ ← assertM (myCount <? n);
        if parentId i =? theParentId then mret true
        else subcircuitLoop fuel (myCount + 1) (parentId i) theParentId
  end.

Definition IsSubcircuitOf (theInstanceId theParentId : Z) : DB bool :=
  if theParentId =? 0 then mret true
  else if theInstanceId =? theParentId then mret true
  else
    i ← nlat instancePtr_v theInstanceId;
    if parentId i =? theParentId then mret true
    else n ← nl subcircuitCount; subcircuitLoop (S (Z.to_nat n)) 0 theInstanceId theParentId.

(** The nearest ancestor with an error limit; instance 0 is the top. *)
Fixpoint limitedAncestor (fuel : nat) (myAncestor : Z) : DB Z :=
  match fuel with
  | O => raise OutOfFuel
  | S fuel =>
      if myAncestor <=? 0 then mret myAncestor
      else
        i ← nlat instancePtr_v myAncestor;
        c ← at_ circuits (master_p i);
        if errorLimit c =? UNKNOWN_DEVICE then limitedAncestor fuel (parentId i)
        else mret myAncestor
  end.

Definition modifyCell (v : list (list Z)) (i j : Z) (f : Z -> Z) : outcome (list (list Z)) :=
  r ← vget v i; x ← vget r j; r ← vset r j (f x); vset v i r.

Definition updateCircuit (k : Z) (f : CCircuit -> outcome CCircuit) : DB unit :=
  c ← at_ circuits k;
  c ← lift (f c);
  modify (fun d => set_circuits (vupdate (circuits d) k c) d).

(** The count a cell with an error limit returns, and the counter it keeps. *)
Definition cellLimitCount (myAncestor myOffset mySubIndex myReturnCount : Z) (myParent : CCircuit)
    : DB (Z * Z) :=
  if myAncestor <=? 0 then mret (UNKNOWN_DEVICE, myReturnCount)
  else
    i ← nlat instancePtr_v myAncestor;
    c ← at_ circuits (master_p i);
    let myLimit := errorLimit c in
    if 0 <? myLimit then
      let myKey := (circuitName c +:+ " " +:+ circuitName myParent +:+ " " +:+ pretty myOffset
                    +:+ " " +:+ pretty mySubIndex)%string in
      m ← gets cellErrorCountMap;
      let n := u32 (default 0 (m !! myKey) + 1) in
      _ ← modify (fun d => set_cellErrorCountMap (<[myKey := n]> m) d);
      mret (myLimit, if myLimit <? n then UNKNOWN_DEVICE else n)
    else mret (myLimit, UNKNOWN_DEVICE).

Definition IncrementDeviceError (theDeviceId : Z) (theError : cvcError_t) : DB Z :=
  myParentId ← nlat deviceParent_v theDeviceId;
  i ← nlat instancePtr_v myParentId;
  c ← at_ circuits (master_p i);
  let k := errorIndex theError in
  let mySubIndex :=
    if (errorIndex OVERVOLTAGE_VBG <=? k) && (k <=? errorIndex MODEL_CHECK)
    then k - errorIndex OVERVOLTAGE_VBG else 0 in
  let myOffset := u32 (theDeviceId - firstDeviceId i) in
  myMFactor ← CalculateMFactor myParentId;
  row ← lift (vget (devicePrintCount_v c) myOffset);
  n ← lift (vget row mySubIndex);
  file ← gets (fun d => cvcCellErrorLimitFile (cvcParameters d));
  '(myLimit, myReturnCount) ←
    (if bool_decide (file = EmptyString) then mret (UNKNOWN_DEVICE, u32 (n + 1))
     else
       fuel ← nl (fun x => S (length (instancePtr_v x)));
       a ← limitedAncestor fuel myParentId;
       cellLimitCount a myOffset mySubIndex (u32 (n + 1)) c);
  _ ← when (0 <? myLimit)
        (_ ← updateCircuit (master_p i) (fun c =>
               v ← modifyCell (deviceErrorCount_v c) myOffset mySubIndex (fun x => u32 (x + myMFactor));
               Ok (set_errorCounts v (devicePrintCount_v c) c));
         e ← at_ errorCount k;
         modify (fun d => set_errorCount (vupdate (errorCount d) k (u64 (e + myMFactor))) d));
  _ ← when (myReturnCount <? UNKNOWN_DEVICE)
        (updateCircuit (master_p i) (fun c =>
           v ← modifyCell (devicePrintCount_v c) myOffset mySubIndex (fun x => u32 (x + 1));
           Ok (set_errorCounts (deviceErrorCount_v c) v c)));
  mret myReturnCount.

(** [IncrementDeviceError(d, e) < cvcCircuitErrorLimit || cvcCircuitErrorLimit == 0]. *)
Definition countAndReport (theDeviceId : Z) (theError : cvcError_t) : DB unit :=
  n ← IncrementDeviceError theDeviceId theError;
  limit ← gets (fun d => cvcCircuitErrorLimit (cvcParameters d));
  when ((n <? limit) || (limit =? 0)) (reportM (ReportedError theError theDeviceId)).

(** [CCircuitPtrList::PrintAndResetCircuitErrors] (CCircuit.cc), without the
    summary text: one row of a used circuit is cleared when the model list is
    empty or holds the type of the device. *)
Definition resetRow (theErrorSubIndex : Z) (theModelList : list modelType_t) (dev : CDevice) (row : list Z)
    : outcome (list Z) :=
  if bool_decide (theModelList = []) || bool_decide (modelType (model_p dev) ∈ theModelList)
  then vset row theErrorSubIndex 0 else Ok row.

Fixpoint resetRows (theErrorSubIndex : Z) (theModelList : list modelType_t) (devs : list CDevice)
    (rows : list (list Z)) : outcome (list (list Z)) :=
  match devs, rows with
  | [], _ => Ok rows
  | _ :: _, [] => throw UndefinedBehaviour
  | dev :: devs, row :: rows =>
      row ← resetRow theErrorSubIndex theModelList dev row;
      rows ← resetRows theErrorSubIndex theModelList devs rows;
      Ok (row :: rows)
  end.

Definition resetCircuit (theErrorSubIndex : Z) (theModelList : list modelType_t) (c : CCircuit)
    : outcome CCircuit :=
  if instanceCount c =? 0 then Ok c
  else
    e ← resetRows theErrorSubIndex theModelList (devicePtr_v c) (deviceErrorCount_v c);
    p ← resetRows theErrorSubIndex theModelList (devicePtr_v c) (devicePrintCount_v c);
    Ok (set_errorCounts e p c).

Fixpoint resetCircuits (theErrorSubIndex : Z) (theModelList : list modelType_t) (cs : list CCircuit)
    : outcome (list CCircuit) :=
  match cs with
  | [] => Ok []
  | c :: cs =>
      c ← resetCircuit theErrorSubIndex theModelList c;
      cs ← resetCircuits theErrorSubIndex theModelList cs;
      Ok (c :: cs)
  end.

Definition PrintAndResetCircuitErrors (theErrorSubIndex : Z) (theModelList : list modelType_t) : DB unit :=
  cs ← gets circuits;
  cs ← lift (resetCircuits theErrorSubIndex theModelList cs);
  modify (fun d => set_cellErrorCountMap ∅ (set_circuits cs d)).

(** ** Neighbourhood of a net (CCvcDb_utility.cc) *)

Definition IgnoreDevice (theDeviceId : Z) : DB unit :=
  _ ← at_ deviceStatus_v theDeviceId;
  modify (fun d => set_deviceStatus_v (vupdate (deviceStatus_v d) theDeviceId
    (status_set (status_set (status_set 0 (deviceBit MAX_INACTIVE) true)
       (deviceBit MIN_INACTIVE) true) (deviceBit SIM_INACTIVE) true)) d).

Definition IsOneConnectionNet (theNetId : Z) : DB bool :=
  n ← GetEquivalentNet theNetId;
  g ← nlat firstGate_v n;
  s ← nlat firstSource_v n;
  dr ← nlat firstDrain_v n;
  let k x := negb (x =? UNKNOWN_DEVICE) in
  if negb (k g || k s || k dr) then mret true
  else
    let myDevice := if k g then g else if k s then s else dr in
    let only (first : Z) next : DB bool :=
      if first =? UNKNOWN_DEVICE then mret true
      else if negb (first =? myDevice) then mret false
      else x ← nlat next myDevice; mret (x =? UNKNOWN_DEVICE) in
    a ← only g nextGate_v;
    if negb a then mret false
    else
      b ← only s nextSource_v;
      if negb b then mret false else only dr nextDrain_v.

Definition HasActiveConnection (theNetId : Z) : DB bool :=
  let body i : DB (option bool) :=
    b ← getDeviceBit i SIM_INACTIVE; mret (if b : bool then None else Some true) in
  r ← overDevices firstSource_v nextSource_v theNetId body;
  match r with
  | Some b => mret b
  | None =>
      r ← overDevices firstDrain_v nextDrain_v theNetId body;
      mret (default false r)
  end.

Definition DefaultQueuePosition (flag : bool) (q : eventQueue_t) : queuePosition_t :=
  DefaultQueuePosition_ flag q.

Definition GetCalculationType (p : CPower) (q : eventQueue_t) : calculationType_t :=
  match q with
  | MIN_QUEUE => minCalculationType p
  | SIM_QUEUE => simCalculationType p
  | MAX_QUEUE => maxCalculationType p
  end.

(** [extraData->pullDownVoltage = v], creating the extra data when missing. *)
Definition set_pullDown (v : Z) (p : CPower) : CPower :=
  let x := default newExtraPowerData (extraData p) in
  set_extraData (Some (mkExtraPowerData (expectedSim_ x) (expectedMin_ x) (expectedMax_ x)
    (family_ x) (implicitFamily_ x) (relativeSet x) (powerSignal_ x) (powerAlias_ x)
    v (pullUpVoltage_ x))) p.
Definition set_pullUp (v : Z) (p : CPower) : CPower :=
  let x := default newExtraPowerData (extraData p) in
  set_extraData (Some (mkExtraPowerData (expectedSim_ x) (expectedMin_ x) (expectedMax_ x)
    (family_ x) (implicitFamily_ x) (relativeSet x) (powerSignal_ x) (powerAlias_ x)
    (pullDownVoltage_ x) v)) p.

End Db.
