(* ===== verification/ExampleDb.v ===== *)
(** * A small database

    A circuit with an inverter and a resistor divider between two supplies,
    used by the examples and witnesses of the other files.

    Nets: 0 = VDD (1.2V), 1 = VSS (0V), 2 = IN (input, 0V..1.2V), 3 = OUT,
    4 = MID.  Devices: 0 = NMOS (drain OUT, gate IN, source VSS), 1 = PMOS (drain
    OUT, gate IN, source VDD), 2 = resistor VDD-MID, 3 = resistor MID-VSS. *)

From S2P Require Import Prelude CvcTypes EventQueue VirtualNet Numeric Power Db.
From stdpp Require Import base list strings gmap sets.
From Stdlib Require Import ZArith Lia Floats.SpecFloat.
#[local] Open Scope Z_scope.

Module ExampleDb.
Import EventQueue.EventQueue VirtualNet.VirtualNet Power.Power Numeric.Numeric Db.Db.

Abbreviation none := UNKNOWN_DEVICE.

(** A model without overvoltage limits, with its default diodes. *)
Definition plainModel (name : string) (t : modelType_t) (vth : Z) (base : string) : CModel :=
  mkModel name t vth base UNKNOWN_VOLTAGE UNKNOWN_VOLTAGE UNKNOWN_VOLTAGE UNKNOWN_VOLTAGE
    (if IsNmos_ t then [(4, 1); (4, 3)] else if IsPmos_ t then [(1, 4); (3, 4)] else []) [].

Definition nmos := mkDevice "MN0" [3; 2; 1; 1] (plainModel "nch" NMOS 300 "M") "L=1 W=1" 0.
Definition pmos := mkDevice "MP0" [3; 2; 0; 0] (plainModel "pch" PMOS (-300) "M") "L=1 W=2" 1.
Definition upper := mkDevice "R0" [0; 4] (plainModel "res" RESISTOR 0 "R") "R=1000" 2.
Definition lower := mkDevice "R1" [4; 1] (plainModel "res" RESISTOR 0 "R") "R=3000" 3.

Definition zeros4 : list (list Z) := replicate 4 (replicate 5 0).

Definition top : CCircuit :=
  mkCircuit UNKNOWN_DEVICE "top" [nmos; pmos; upper; lower] zeros4 zeros4 3 1 [0] [] 5 [UNKNOWN_DEVICE] true 5 4 1
    ["VDD"; "VSS"; "IN"; "OUT"; "MID"].

Definition exampleNetlist : CNetlist :=
  mkNetlist [mkInstance 0 1 0 1 [0; 1; 2; 3; 4] 0 0 UNKNOWN_DEVICE]
    [0; 0; 0; 0]
    (* next source, gate, drain *)
    [none; 2; none; none] [1; none; none; none] [1; none; none; none]
    (* first source, gate, drain *)
    [1; 0; none; none; 3] [none; none; 0; none; none] [none; 3; none; 0; 2]
    (* source, gate, drain, bulk nets *)
    [1; 0; 0; 4] [2; 2; UNKNOWN_NET; UNKNOWN_NET] [3; 3; 4; 1] [1; 0; UNKNOWN_NET; UNKNOWN_NET]
    [NMOS; PMOS; RESISTOR; RESISTOR]
    true [0; 1; 2; 3; 4]
    (<["L=1 W=1" := 7000]> (<["L=1 W=2" := 3500]> (<["R=1000" := 1000]> (<["R=3000" := 3000]> ∅))))%string
    4 5 1 [0; 0; 0; 0; 0].

(** Every net is its own chain, with time stamps. *)
Definition loneNets (b : powerType_t) : CVirtualNetVector :=
  mkVirtualNetVector ((fun n => mkVirtualNet n 0 n 0 UNKNOWN_NET) <$> [0; 1; 2; 3; 4]) 0 [0; 0; 0; 0; 0] b.

Definition supply (n v : Z) (id : Z) : CPower :=
  set_activeBit MIN_ACTIVE true (set_activeBit MAX_ACTIVE true
    (set_typeBit POWER_BIT true (CPower_levels n v v v UNKNOWN_NET UNKNOWN_NET UNKNOWN_NET id))).
Definition input (n lo v hi : Z) (id : Z) : CPower :=
  set_activeBit MIN_ACTIVE true (set_activeBit MAX_ACTIVE true
    (set_typeBit INPUT_BIT true (CPower_levels n lo v hi UNKNOWN_NET UNKNOWN_NET UNKNOWN_NET id))).

Definition examplePowers : powerHeap :=
  mkHeap (<[0 := supply 0 1200 0]> (<[1 := supply 1 0 1]> (<[2 := input 2 0 0 1200 2]> ∅))) 3 3.

Definition exampleQueue (q : eventQueue_t) : CEventQueue := ResetQueue (newEventQueue q) 4.

(** The default values of CCvcParameters.hh. *)
Definition defaultChecks : CCheckParameters :=
  mkCheckParameters false false false false true false true 0 0 0 0 0 0 [] [].

Definition exampleDb : CCvcDb :=
  mkDb (mkParameters 100 (current 1 10 1) false 0 0 0 EmptyString defaultChecks) exampleNetlist [top]
    [0; 0; 0; 0] [0; 0; 0; 0; 0]
    (loneNets MIN_CALCULATED_BIT) (loneNets SIM_CALCULATED_BIT) (loneNets MAX_CALCULATED_BIT)
    false false false false
    [mkConnectionCount 2 0 0 6; mkConnectionCount 1 1 0 5; mkConnectionCount 0 0 2 0;
     mkConnectionCount 0 2 0 3; mkConnectionCount 1 1 0 4]
    examplePowers [0; 1; 2]
    [Some 0; Some 1; Some 2; None; None] [None; None; None; None; None] [None; None; None; None; None]
    [UNKNOWN_NET; UNKNOWN_NET; UNKNOWN_NET; UNKNOWN_NET; UNKNOWN_NET] [false; false; false; false; false]
    (exampleQueue MAX_QUEUE) (exampleQueue MIN_QUEUE) (exampleQueue SIM_QUEUE)
    ∅ (replicate 19 0) ∅ ∅ ∅ [].

End ExampleDb.
