(* ===== verification/Connection.v ===== *)
(** * Full device connections (CConnection.cc, CCvcDb_utility.cc)

    [CFullConnection] gathers the nets, voltages and powers of the four
    terminals of a device at the three sample points, with the saved leak
    voltages and the validity flags used by the error checks.  The twelve
    groups of fields of the class are one record per terminal and sample. *)

From S2P Require Import Prelude CvcTypes EventQueue VirtualNet Numeric Power Db.
From stdpp Require Import base list strings gmap sets pretty.
From Stdlib Require Import ZArith Lia Floats.SpecFloat.
#[local] Open Scope Z_scope.

Module Connection.
Import VirtualNet.VirtualNet Power.Power Numeric.Numeric Db.Db.

Inductive terminal_t : Set := GATE | SOURCE | DRAIN | BULK.

#[export] Instance terminal_eq_dec : EqDecision terminal_t.
Proof. solve_decision. Defined.

(** The bits of the terminal masks of CvcTypes.hh. *)
Definition terminalBit (t : terminal_t) : Z :=
  match t with GATE => 0 | SOURCE => 1 | DRAIN => 2 | BULK => 3 end.

(** One terminal at one sample point: [master...Net], [...Voltage], [...Power_p]. *)
Record CTerminal : Type := mkTerminal {
  master : CVirtualNet;
  voltage : Z;
  power_p : option Z
}.

Record CSample : Type := mkSample {
  atGate : CTerminal;
  atSource : CTerminal;
  atDrain : CTerminal;
  atBulk : CTerminal
}.

Definition terminal (s : CSample) (t : terminal_t) : CTerminal :=
  match t with GATE => atGate s | SOURCE => atSource s | DRAIN => atDrain s | BULK => atBulk s end.

Record CFullConnection : Type := mkFull {
  originalSourceId : Z;
  originalGateId : Z;
  originalDrainId : Z;
  originalBulkId : Z;
  fSourceId : Z;
  fGateId : Z;
  fDrainId : Z;
  fBulkId : Z;
  fMin : CSample;
  fSim : CSample;
  fMax : CSample;
  fDevice : CDevice;
  fDeviceId : Z;
  fResistance : Z
}.

(** ** Filling the connections *)

Definition originalNets (i : CInstance) (dev : CDevice) (soi : bool) : outcome (Z * Z * Z * Z) :=
  let sig k := n ← vget (signalId_v dev) k; vget (localToGlobalNetId_v i) n in
  match modelType (model_p dev) with
  | NMOS | PMOS | LDDN | LDDP =>
      dr ← sig 0; g ← sig 1; s ← sig 2;
      b ← (if soi then Ok UNKNOWN_NET else sig 3);
      Ok (s, g, dr, b)
  | DIODE | SWITCH_OFF | FUSE_OFF | CAPACITOR | SWITCH_ON | FUSE_ON | RESISTOR =>
      s ← sig 0; dr ← sig 1;
      b ← (if bool_decide (length (signalId_v dev) = 3%nat) then sig 2 else Ok UNKNOWN_NET);
      Ok (s, UNKNOWN_NET, dr, b)
  | BIPOLAR => s ← sig 0; g ← sig 1; dr ← sig 2; Ok (s, g, dr, UNKNOWN_NET)
  | _ => throw EUnknownModel
  end.

(** The connections at one sample point.  The power of a gate or bulk without
    a net is null; source and drain are read without that test. *)
Definition mapSample (q : eventQueue_t) (s g dr b : Z) : DB CSample :=
  ms ← accessM q s; mg ← accessM q g; md ← accessM q dr; mb ← accessM q b;
  sv ← queueVoltage q (finalNetId ms);
  gv ← queueVoltage q (finalNetId mg);
  dv ← queueVoltage q (finalNetId md);
  bv ← queueVoltage q (finalNetId mb);
  sp ← powerAt (finalNetId ms);
  dp ← powerAt (finalNetId md);
  gp ← (if finalNetId mg =? UNKNOWN_NET then mret None else powerAt (finalNetId mg));
  bp ← (if finalNetId mb =? UNKNOWN_NET then mret None else powerAt (finalNetId mb));
  mret (mkSample (mkTerminal mg gv gp) (mkTerminal ms sv sp) (mkTerminal md dv dp)
          (mkTerminal mb bv bp)).

(** [MapDeviceNets(CInstance *, CDevice *, CFullConnection &)]. *)
Definition MapInstanceDeviceNets (i : CInstance) (dev : CDevice) : DB CFullConnection :=
  let myDeviceId := u32 (firstDeviceId i + offset dev) in
  s ← nlat sourceNet_v myDeviceId;
  g ← nlat gateNet_v myDeviceId;
  dr ← nlat drainNet_v myDeviceId;
  b ← nlat bulkNet_v myDeviceId;
  soi ← gets (fun d => cvcSOI (cvcParameters d));
  '(os, og, od, ob) ← lift (originalNets i dev soi);
  mx ← mapSample MAX_QUEUE s g dr b;
  mn ← mapSample MIN_QUEUE s g dr b;
  sm ← mapSample SIM_QUEUE s g dr b;
  r ← resistanceOfText (parameters dev);
  mret (mkFull os og od ob s g dr b mn sm mx dev myDeviceId r).

(** [MapDeviceNets(deviceId_t, CFullConnection &)]. *)
Definition MapFullDeviceNets (theDeviceId : Z) : DB CFullConnection :=
  parent ← nlat deviceParent_v theDeviceId;
  i ← nlat instancePtr_v parent;
  dev ← deviceOf theDeviceId;
  MapInstanceDeviceNets i dev.

(** ** Estimated currents *)

Definition fVth (c : CFullConnection) : Z := Vth (model_p (fDevice c)).
Definition fType (c : CFullConnection) : modelType_t := modelType (model_p (fDevice c)).

(** [CFullConnection::EstimatedCurrent(bool)]. *)
Definition EstimatedCurrentVth (c : CFullConnection) (theVthFlag : bool) : DB spec_float :=
  let S := voltage (atSource (fSim c)) in
  let D := voltage (atDrain (fSim c)) in
  let G := voltage (atGate (fSim c)) in
  gp ← pointeeM (power_p (atGate (fSim c)));
  zero ← (if optb (fun p => negb (typeBit p SIM_CALCULATED_BIT)) gp && theVthFlag then
            dp ← arrow (power_p (atDrain (fSim c)));
            if typeBit dp SIM_CALCULATED_BIT then mret true
            else
              sp ← arrow (power_p (atSource (fSim c)));
              mret (typeBit sp SIM_CALCULATED_BIT)
          else mret false);
  if (zero : bool) then mret (S754_zero false)
  else
    let '(mySource, myDrain) :=
      if IsNmos_ (fType c) && IsKnownVoltage_ G then (Z.min S D, Z.min G (Z.max S D))
      else if IsPmos_ (fType c) && IsKnownVoltage_ G then (Z.max S D, Z.max G (Z.min S D))
      else (S, D) in
    mret (current (Z.abs (mySource - myDrain))
            (u32 (fResistance c + finalResistance (master (atSource (fSim c)))
                  + finalResistance (master (atDrain (fSim c)))))
            (if theVthFlag then 1000 else 1)).

(** [CFullConnection::EstimatedCurrent()]. *)
Definition EstimatedSimCurrent (c : CFullConnection) : DB spec_float :=
  let S := voltage (atSource (fSim c)) in
  let D := voltage (atDrain (fSim c)) in
  let G := voltage (atGate (fSim c)) in
  EstimatedCurrentVth c
    ((IsNmos_ (fType c) && (G - Z.min S D =? fVth c)) ||
     (IsPmos_ (fType c) && (G - Z.max S D =? fVth c))).

(** [CFullConnection::EstimatedMinimumCurrent]. *)
Definition EstimatedMinimumCurrent (c : CFullConnection) : DB spec_float :=
  let minS := voltage (atSource (fMin c)) in let minD := voltage (atDrain (fMin c)) in
  let maxS := voltage (atSource (fMax c)) in let maxD := voltage (atDrain (fMax c)) in
  let minG := voltage (atGate (fMin c)) in let maxG := voltage (atGate (fMax c)) in
  let self a bit dflt n : DB bool :=
    p ← arrow a; mret (typeBit p bit && (dflt p =? n)) in
  if negb (IsKnownVoltage_ minS && IsKnownVoltage_ minD && IsKnownVoltage_ maxS && IsKnownVoltage_ maxD)
  then mret (S754_zero false)
  else
    '(short1, myMaxMin, myMaxR) ←
      (if minD <? minS then
         x ← self (power_p (atSource (fMin c))) MIN_CALCULATED_BIT defaultMinNet (fDrainId c);
         mret (x, minS, finalResistance (master (atSource (fMin c))))
       else
         x ← self (power_p (atDrain (fMin c))) MIN_CALCULATED_BIT defaultMinNet (fSourceId c);
         mret (x, minD, finalResistance (master (atDrain (fMin c)))));
    '(short2, myMinMax, myMinR) ←
      (if maxS <? maxD then
         x ← self (power_p (atSource (fMax c))) MAX_CALCULATED_BIT defaultMaxNet (fDrainId c);
         mret (x, maxS, finalResistance (master (atSource (fMax c))))
       else
         x ← self (power_p (atDrain (fMax c))) MAX_CALCULATED_BIT defaultMaxNet (fSourceId c);
         mret (x, maxD, finalResistance (master (atDrain (fMax c)))));
    if myMaxMin <=? myMinMax then mret (S754_zero false)
    else
      let myVthFlag :=
        (IsNmos_ (fType c) && ((maxG - myMinMax =? fVth c) || (myMinMax - myMaxMin <=? fVth c))) ||
        (IsPmos_ (fType c) && ((minG - myMaxMin =? fVth c) || (fVth c <=? myMaxMin - myMinMax))) in
      if ((short1 : bool) || (short2 : bool)) && myVthFlag then mret (S754_zero false)
      else
        let '(hi, lo) :=
          if IsNmos_ (fType c) && IsKnownVoltage_ maxG
          then (Z.max myMinMax (Z.min maxG myMaxMin), myMinMax)
          else if IsPmos_ (fType c) && IsKnownVoltage_ minG
          then (myMaxMin, Z.min myMaxMin (Z.max minG myMinMax))
          else (myMaxMin, myMinMax) in
        mret (current (hi - lo) (u32 (fResistance c + myMaxR + myMinR))
                (if myVthFlag then 1000 else 1)).

(** ** Terminal checks *)

Definition allTerminals : list terminal_t := [GATE; SOURCE; DRAIN; BULK].
Definition selected (theCheckTerminals : Z) (t : terminal_t) : bool :=
  Z.testbit theCheckTerminals (terminalBit t).

(** [GATE | SOURCE] and the like. *)
Definition mask (ts : list terminal_t) : Z := foldr (fun t m => Z.lor (Z.shiftl 1 (terminalBit t)) m) 0 ts.

Definition openPower (a : option Z) : DB bool :=
  p ← pointeeM a; mret (optb (fun p => typeBit p HIZ_BIT) p).

Fixpoint forTerminals (ts : list terminal_t) (theCheckTerminals : Z) (check : terminal_t -> DB bool)
    : DB bool :=
  match ts with
  | [] => mret true
  | t :: ts =>
      if selected theCheckTerminals t then
        ok ← check t;
        if (ok : bool) then forTerminals ts theCheckTerminals check else mret false
      else forTerminals ts theCheckTerminals check
  end.

Definition CheckTerminalMinMaxVoltages (c : CFullConnection) (theCheckTerminals : Z)
    (theCheckHiZFlag : bool) : DB bool :=
  forTerminals allTerminals theCheckTerminals (fun t =>
    let mn := terminal (fMin c) t in let mx := terminal (fMax c) t in
    if negb (IsKnownVoltage_ (voltage mn) && IsKnownVoltage_ (voltage mx)) then mret false
    else if voltage mx <? voltage mn then mret false
    else if theCheckHiZFlag then mret true
    else
      a ← openPower (power_p mn);
      if (a : bool) then mret false
      else b ← openPower (power_p mx); mret (negb b)).

Definition known (s : CSample) (theCheckTerminals : Z) : bool :=
  forallb (fun t => implb (selected theCheckTerminals t) (IsKnownVoltage_ (voltage (terminal s t))))
    allTerminals.

Definition CheckTerminalMinVoltages (c : CFullConnection) (m : Z) : bool := known (fMin c) m.
Definition CheckTerminalMaxVoltages (c : CFullConnection) (m : Z) : bool := known (fMax c) m.
Definition CheckTerminalSimVoltages (c : CFullConnection) (m : Z) : bool := known (fSim c) m.

(** ** Unknown voltages *)

Definition mapVoltages (f : terminal_t -> Z -> Z) (s : CSample) : CSample :=
  let g t x := mkTerminal (master x) (f t (voltage x)) (power_p x) in
  mkSample (g GATE (atGate s)) (g SOURCE (atSource s)) (g DRAIN (atDrain s)) (g BULK (atBulk s)).

Definition orElse (v w : Z) : Z := if v =? UNKNOWN_VOLTAGE then w else v.

(** The min, sim and max voltage of one terminal under [SetUnknownVoltageToSim]. *)
Definition unknownToSim (x : Z * Z * Z) : Z * Z * Z :=
  let '(mn, sm, mx) := x in
  if sm =? UNKNOWN_VOLTAGE then x else (orElse mn sm, sm, orElse mx sm).

(** ... and under [SetUnknownVoltage], statement by statement. *)
Definition unknownAll (x : Z * Z * Z) : Z * Z * Z :=
  let '(mn, sm, mx) := unknownToSim x in
  let mx := if IsKnownVoltage_ mn && negb (IsKnownVoltage_ mx) then mn else mx in
  let mn := if IsKnownVoltage_ mx && negb (IsKnownVoltage_ mn) then mx else mn in
  let sm := if negb (IsKnownVoltage_ sm) && (mn =? mx) then mn else sm in
  (mn, sm, mx).

Definition triple (c : CFullConnection) (t : terminal_t) : Z * Z * Z :=
  (voltage (terminal (fMin c) t), voltage (terminal (fSim c) t), voltage (terminal (fMax c) t)).

Definition mapTriples (f : Z * Z * Z -> Z * Z * Z) (c : CFullConnection) : CFullConnection :=
  mkFull (originalSourceId c) (originalGateId c) (originalDrainId c) (originalBulkId c)
    (fSourceId c) (fGateId c) (fDrainId c) (fBulkId c)
    (mapVoltages (fun t _ => (f (triple c t)).1.1) (fMin c))
    (mapVoltages (fun t _ => (f (triple c t)).1.2) (fSim c))
    (mapVoltages (fun t _ => (f (triple c t)).2) (fMax c))
    (fDevice c) (fDeviceId c) (fResistance c).

Definition SetUnknownVoltageToSim (c : CFullConnection) : CFullConnection := mapTriples unknownToSim c.
Definition SetUnknownVoltage (c : CFullConnection) : CFullConnection := mapTriples unknownAll c.

(** ** Leak voltages and validity flags *)

Record CLeakInfo : Type := mkLeakInfo {
  minLeakVoltage : Z;
  maxLeakVoltage : Z;
  validMin : bool;
  validSim : bool;
  validMax : bool;
  validMinLeak : bool;
  validMaxLeak : bool
}.

(** The flags of one terminal, from its three voltages, its leak voltages and
    whether its min and max powers are open. *)
Definition leakFlags (mn sm mx minLeak maxLeak : Z) (minOpen maxOpen : bool) : CLeakInfo :=
  let vMin := negb (negb (IsKnownVoltage_ mn) || minOpen) in
  let vMax := negb (negb (IsKnownVoltage_ mx) || maxOpen) in
  let vSim := IsKnownVoltage_ sm in
  let vMinL := IsKnownVoltage_ minLeak in
  let vMaxL := IsKnownVoltage_ maxLeak in
  let '(vMin, vMax) := if vMin && vMax then (mn <=? mx, mn <=? mx) else (vMin, vMax) in
  let '(vMinL, vMaxL) :=
    if vMinL && vMaxL then (minLeak <=? maxLeak, minLeak <=? maxLeak) else (vMinL, vMaxL) in
  let vMin := if vMin && vMinL then minLeak <=? mn else vMin in
  let vMax := if vMax && vMaxL then mx <=? maxLeak else vMax in
  mkLeakInfo minLeak maxLeak vMin vSim vMax vMinL vMaxL.

Definition netOfTerminal (c : CFullConnection) (t : terminal_t) : Z :=
  match t with GATE => fGateId c | SOURCE => fSourceId c | DRAIN => fDrainId c | BULK => fBulkId c end.

(** [SetMinMaxLeakVoltagesAndFlags], for one terminal. *)
Definition SetMinMaxLeakVoltagesAndFlags (c : CFullConnection) (t : terminal_t) : DB CLeakInfo :=
  minLeak ← MinLeakVoltage (netOfTerminal c t);
  maxLeak ← MaxLeakVoltage (netOfTerminal c t);
  minOpen ← openPower (power_p (terminal (fMin c) t));
  maxOpen ← openPower (power_p (terminal (fMax c) t));
  mret (leakFlags (voltage (terminal (fMin c) t)) (voltage (terminal (fSim c) t))
          (voltage (terminal (fMax c) t)) minLeak maxLeak minOpen maxOpen).

(** The leak voltages and flags of the four terminals. *)
Definition leakInfos (c : CFullConnection) : DB (terminal_t -> CLeakInfo) :=
  g ← SetMinMaxLeakVoltagesAndFlags c GATE;
  s ← SetMinMaxLeakVoltagesAndFlags c SOURCE;
  dr ← SetMinMaxLeakVoltagesAndFlags c DRAIN;
  b ← SetMinMaxLeakVoltagesAndFlags c BULK;
  mret (fun t => match t with GATE => g | SOURCE => s | DRAIN => dr | BULK => b end).

Definition CheckTerminalMinMaxLeakVoltages (info : terminal_t -> CLeakInfo) (m : Z) : bool :=
  forallb (fun t => implb (selected m t)
    (IsKnownVoltage_ (minLeakVoltage (info t)) && IsKnownVoltage_ (maxLeakVoltage (info t))
     && (minLeakVoltage (info t) <=? maxLeakVoltage (info t)))) allTerminals.

(** ** Transfer gates, clocked inverters and parallel devices *)

(** The origin of a gate net through inverters, with its polarity, and the
    opposite polarity. *)
Definition origin (theGateNet : Z) : DB string :=
  i ← at_ inverterNet_v theGateNet;
  h ← at_ highLow_v theGateNet;
  let sign := if (h : bool) then "+"%string else "-"%string in
  mret (if i =? UNKNOWN_NET then ("+" +:+ pretty theGateNet)%string else (sign +:+ pretty i)%string).
Definition invertedOrigin (theGateNet : Z) : DB string :=
  i ← at_ inverterNet_v theGateNet;
  h ← at_ highLow_v theGateNet;
  let sign := if (h : bool) then "-"%string else "+"%string in
  mret (if i =? UNKNOWN_NET then ("-" +:+ pretty theGateNet)%string else (sign +:+ pretty i)%string).

Definition IsTransferGate (theNmos thePmos : Z) : DB bool :=
  p ← nlat gateNet_v thePmos;
  myOrigin ← origin p;
  n ← nlat gateNet_v theNmos;
  myInvertedOrigin ← invertedOrigin n;
  mret (bool_decide (myOrigin = myInvertedOrigin)).

Definition IsPumpCapacitor (c : CFullConnection) : bool :=
  bool_decide (fType c = CAPACITOR) &&
  ((bool_decide (power_p (atSource (fMin c)) = power_p (atSource (fMax c))) &&
    negb (voltage (atSource (fMin c)) =? voltage (atSource (fMax c)))) ||
   (bool_decide (power_p (atDrain (fMin c)) = power_p (atDrain (fMax c))) &&
    negb (voltage (atDrain (fMin c)) =? voltage (atDrain (fMax c))))).

(** [HasParallelShort]: a parallel device of the same type is fully on. *)
Definition HasParallelShort (c : CFullConnection) : DB bool :=
  cd ← at_ connectionCount_v (fDrainId c);
  cs ← at_ connectionCount_v (fSourceId c);
  let '(myDrainId, mySourceId) :=
    if SourceDrainCount cd <? SourceDrainCount cs then (fDrainId c, fSourceId c)
    else (fSourceId c, fDrainId c) in
  _ ← assertM (IsMos_ (fType c));
  let nmos := IsNmos_ (fType c) in
  let body (other : CNetlist -> list Z) (t : terminal_t) device_it : DB (option bool) :=
    if device_it =? fDeviceId c then mret None
    else
      ty ← nlat deviceType_v device_it;
      if negb (if nmos then IsNmos_ ty else IsPmos_ ty) then mret None
      else
        o ← nlat other device_it;
        if negb (o =? mySourceId) then mret None
        else
          p ← MapFullDeviceNets device_it;
          let g := voltage (atGate (fSim p)) in
          let on :=
            if nmos then voltage (terminal (fMin p) t) + fVth p <? g
            else g <? voltage (terminal (fMax p) t) + fVth p in
          mret (if IsKnownVoltage_ g && on then Some true else None) in
  r ← overDevices firstSource_v nextSource_v myDrainId (body drainNet_v DRAIN);
  match r with
  | Some b => mret b
  | None =>
      r ← overDevices firstDrain_v nextDrain_v myDrainId (body sourceNet_v SOURCE);
      mret (default false r)
  end.

(** A mask names its terminals. *)
Lemma known_mask s ts :
  known s (mask ts) = forallb (fun t => IsKnownVoltage_ (voltage (terminal s t))) ts.
Proof.
  assert (forall t, selected (mask ts) t = bool_decide (t ∈ ts)) as Hs.
  { intros t. unfold selected. induction ts as [| u ts IH].
    - rewrite bool_decide_eq_false_2 by apply not_elem_of_nil. apply Z.bits_0.
    - change (mask (u :: ts)) with (Z.lor (Z.shiftl 1 (terminalBit u)) (mask ts)).
      rewrite Z.lor_spec, IH, shiftl_1_testbit by (by destruct u).
      apply Bool.eq_iff_eq_true. rewrite orb_true_iff, !bool_decide_eq_true, elem_of_cons.
      assert ((terminalBit u =? terminalBit t) = true <-> t = u) by (by destruct u, t). tauto. }
  unfold known. apply Bool.eq_iff_eq_true. rewrite !forallb_forall. split.
  - intros H t Ht. specialize (H t). rewrite Hs, bool_decide_eq_true_2 in H by (by apply list_elem_of_In).
    apply H. destruct t; simpl; tauto.
  - intros H t _. rewrite Hs. case_bool_decide as Ht; [| done]. simpl. apply H. by apply list_elem_of_In.
Qed.

(** The flags of a terminal, in terms of its levels. *)
Lemma leakFlags_spec mn sm mx minLeak maxLeak minOpen maxOpen :
  let f := leakFlags mn sm mx minLeak maxLeak minOpen maxOpen in
  (validMin f = true -> validMax f = true -> mn <= mx /\ minOpen = false /\ maxOpen = false) /\
  (validMin f = true -> validMinLeak f = true -> minLeak <= mn) /\
  (validMax f = true -> validMaxLeak f = true -> mx <= maxLeak) /\
  (validMinLeak f = true -> validMaxLeak f = true -> minLeak <= maxLeak) /\
  (validMin f = true -> IsKnownVoltage_ mn = true) /\
  (validMax f = true -> IsKnownVoltage_ mx = true).
Proof.
  unfold leakFlags.
  destruct (IsKnownVoltage_ mn), (IsKnownVoltage_ mx), minOpen, maxOpen,
    (IsKnownVoltage_ minLeak), (IsKnownVoltage_ maxLeak); simpl;
    repeat (case_test; simpl); repeat split; intros; bool_to_prop; try congruence; try lia.
Qed.

(** ** Claims *)

(** [SetUnknownVoltage] never changes a known voltage, makes the min and
    max of a terminal known together, fills the simulation voltage exactly
    when it was unknown and min and max agree, and a second call changes
    nothing. *)
Theorem SetUnknownVoltage_spec c t :
  let '(mn, sm, mx) := triple c t in
  let '(mn', sm', mx') := triple (SetUnknownVoltage c) t in
  (IsKnownVoltage_ mn = true -> mn' = mn) /\ (IsKnownVoltage_ sm = true -> sm' = sm) /\
  (IsKnownVoltage_ mx = true -> mx' = mx) /\
  IsKnownVoltage_ mn' = IsKnownVoltage_ mx' /\
  (IsKnownVoltage_ sm = false -> sm' = if mn' =? mx' then mn' else UNKNOWN_VOLTAGE) /\
  triple (SetUnknownVoltage (SetUnknownVoltage c)) t = triple (SetUnknownVoltage c) t.
Proof.
  assert (forall c, triple (SetUnknownVoltage c) t = unknownAll (triple c t)) as E.
  { intros x. unfold SetUnknownVoltage, triple, terminal.
    destruct t; simpl; unfold triple; simpl; by destruct (unknownAll _) as [[? ?] ?]. }
  rewrite !E. destruct (triple c t) as [[mn sm] mx].
  unfold unknownAll, unknownToSim, orElse, IsKnownVoltage_. generalize UNKNOWN_VOLTAGE as u. intros u.
  destruct (Z.eqb_spec mn u), (Z.eqb_spec sm u), (Z.eqb_spec mx u); subst; simpl;
    rewrite ?Z.eqb_refl; simpl;
    repeat (rewrite ?Z.eqb_refl; simpl;
      match goal with |- context [?a =? ?b] => destruct (Z.eqb_spec a b); simpl in *; try subst a end);
    repeat split; intros; try congruence.
Qed.

(** The validity flags of a terminal order its voltages: valid min and max
    voltages satisfy min <= max, neither is open, and each lies within the
    valid saved leak voltages. *)
Theorem leakFlags_ordered mn sm mx minLeak maxLeak minOpen maxOpen :
  let f := leakFlags mn sm mx minLeak maxLeak minOpen maxOpen in
  (validMin f = true -> validMax f = true -> mn <= mx /\ minOpen = false /\ maxOpen = false) /\
  (validMin f = true -> validMinLeak f = true -> minLeak <= mn) /\
  (validMax f = true -> validMaxLeak f = true -> mx <= maxLeak) /\
  (validMinLeak f = true -> validMaxLeak f = true -> minLeak <= maxLeak) /\
  (validMin f = true -> IsKnownVoltage_ mn = true) /\
  (validMax f = true -> IsKnownVoltage_ mx = true).
Proof. exact (leakFlags_spec mn sm mx minLeak maxLeak minOpen maxOpen). Qed.

End Connection.
