(* ===== verification/Netlist.v ===== *)
(** * Writing the netlist

    The propagation only reads the netlist ([CNetlist] of Db.v); the
    initialisation writes it.  This file has the writes, the lists of devices
    that [first] and [next] vectors hold ([devPath]), and what reading such a
    list costs. *)

From S2P Require Import Prelude CvcTypes EventQueue VirtualNet Numeric Power Db Connection.
From stdpp Require Import base list strings gmap sets.
From Stdlib Require Import ZArith Lia Floats.SpecFloat.
#[local] Open Scope Z_scope.

Module Netlist.
Import VirtualNet.VirtualNet Power.Power Db.Db Connection.Connection.

Definition set_instancePtr_v (v : list CInstance) (x : CNetlist) : CNetlist :=
  mkNetlist v (deviceParent_v x) (nextSource_v x) (nextGate_v x) (nextDrain_v x) (firstSource_v x)
    (firstGate_v x) (firstDrain_v x) (sourceNet_v x) (gateNet_v x) (drainNet_v x) (bulkNet_v x)
    (deviceType_v x) (isFixedEquivalentNet x) (equivalentNet_v x) (parameterResistanceMap x)
    (deviceCount x) (netCount x) (subcircuitCount x) (netParent_v x).
Definition set_deviceParent_v (v : list Z) (x : CNetlist) : CNetlist :=
  mkNetlist (instancePtr_v x) v (nextSource_v x) (nextGate_v x) (nextDrain_v x) (firstSource_v x)
    (firstGate_v x) (firstDrain_v x) (sourceNet_v x) (gateNet_v x) (drainNet_v x) (bulkNet_v x)
    (deviceType_v x) (isFixedEquivalentNet x) (equivalentNet_v x) (parameterResistanceMap x)
    (deviceCount x) (netCount x) (subcircuitCount x) (netParent_v x).
Definition set_deviceType_v (v : list modelType_t) (x : CNetlist) : CNetlist :=
  mkNetlist (instancePtr_v x) (deviceParent_v x) (nextSource_v x) (nextGate_v x) (nextDrain_v x)
    (firstSource_v x) (firstGate_v x) (firstDrain_v x) (sourceNet_v x) (gateNet_v x) (drainNet_v x)
    (bulkNet_v x) v (isFixedEquivalentNet x) (equivalentNet_v x) (parameterResistanceMap x)
    (deviceCount x) (netCount x) (subcircuitCount x) (netParent_v x).
Definition set_isFixedEquivalentNet (v : bool) (x : CNetlist) : CNetlist :=
  mkNetlist (instancePtr_v x) (deviceParent_v x) (nextSource_v x) (nextGate_v x) (nextDrain_v x)
    (firstSource_v x) (firstGate_v x) (firstDrain_v x) (sourceNet_v x) (gateNet_v x) (drainNet_v x)
    (bulkNet_v x) (deviceType_v x) v (equivalentNet_v x) (parameterResistanceMap x) (deviceCount x)
    (netCount x) (subcircuitCount x) (netParent_v x).
Definition set_equivalentNet_v (v : list Z) (x : CNetlist) : CNetlist :=
  mkNetlist (instancePtr_v x) (deviceParent_v x) (nextSource_v x) (nextGate_v x) (nextDrain_v x)
    (firstSource_v x) (firstGate_v x) (firstDrain_v x) (sourceNet_v x) (gateNet_v x) (drainNet_v x)
    (bulkNet_v x) (deviceType_v x) (isFixedEquivalentNet x) v (parameterResistanceMap x)
    (deviceCount x) (netCount x) (subcircuitCount x) (netParent_v x).
Definition set_deviceCount (v : Z) (x : CNetlist) : CNetlist :=
  mkNetlist (instancePtr_v x) (deviceParent_v x) (nextSource_v x) (nextGate_v x) (nextDrain_v x)
    (firstSource_v x) (firstGate_v x) (firstDrain_v x) (sourceNet_v x) (gateNet_v x) (drainNet_v x)
    (bulkNet_v x) (deviceType_v x) (isFixedEquivalentNet x) (equivalentNet_v x)
    (parameterResistanceMap x) v (netCount x) (subcircuitCount x) (netParent_v x).
Definition set_netCount (v : Z) (x : CNetlist) : CNetlist :=
  mkNetlist (instancePtr_v x) (deviceParent_v x) (nextSource_v x) (nextGate_v x) (nextDrain_v x)
    (firstSource_v x) (firstGate_v x) (firstDrain_v x) (sourceNet_v x) (gateNet_v x) (drainNet_v x)
    (bulkNet_v x) (deviceType_v x) (isFixedEquivalentNet x) (equivalentNet_v x)
    (parameterResistanceMap x) (deviceCount x) v (subcircuitCount x) (netParent_v x).
Definition set_subcircuitCount (v : Z) (x : CNetlist) : CNetlist :=
  mkNetlist (instancePtr_v x) (deviceParent_v x) (nextSource_v x) (nextGate_v x) (nextDrain_v x)
    (firstSource_v x) (firstGate_v x) (firstDrain_v x) (sourceNet_v x) (gateNet_v x) (drainNet_v x)
    (bulkNet_v x) (deviceType_v x) (isFixedEquivalentNet x) (equivalentNet_v x)
    (parameterResistanceMap x) (deviceCount x) (netCount x) v (netParent_v x).
Definition set_netParent_v (v : list Z) (x : CNetlist) : CNetlist :=
  mkNetlist (instancePtr_v x) (deviceParent_v x) (nextSource_v x) (nextGate_v x) (nextDrain_v x)
    (firstSource_v x) (firstGate_v x) (firstDrain_v x) (sourceNet_v x) (gateNet_v x) (drainNet_v x)
    (bulkNet_v x) (deviceType_v x) (isFixedEquivalentNet x) (equivalentNet_v x)
    (parameterResistanceMap x) (deviceCount x) (netCount x) (subcircuitCount x) v.
Definition set_bulkNet_v (v : list Z) (x : CNetlist) : CNetlist :=
  mkNetlist (instancePtr_v x) (deviceParent_v x) (nextSource_v x) (nextGate_v x) (nextDrain_v x)
    (firstSource_v x) (firstGate_v x) (firstDrain_v x) (sourceNet_v x) (gateNet_v x) (drainNet_v x)
    v (deviceType_v x) (isFixedEquivalentNet x) (equivalentNet_v x) (parameterResistanceMap x)
    (deviceCount x) (netCount x) (subcircuitCount x) (netParent_v x).

(** The links and nets of a terminal; devices are not linked by their bulk. *)
Definition firstAt (t : terminal_t) (x : CNetlist) : list Z :=
  match t with SOURCE => firstSource_v x | GATE => firstGate_v x | DRAIN => firstDrain_v x | BULK => [] end.
Definition nextAt (t : terminal_t) (x : CNetlist) : list Z :=
  match t with SOURCE => nextSource_v x | GATE => nextGate_v x | DRAIN => nextDrain_v x | BULK => [] end.
Definition netAt (t : terminal_t) (x : CNetlist) : list Z :=
  match t with SOURCE => sourceNet_v x | GATE => gateNet_v x | DRAIN => drainNet_v x | BULK => bulkNet_v x end.

Definition pickAt {A} (t u : terminal_t) (v w : A) : A := if bool_decide (t = u) then v else w.

Definition set_links (t : terminal_t) (first next : list Z) (x : CNetlist) : CNetlist :=
  mkNetlist (instancePtr_v x) (deviceParent_v x)
    (pickAt t SOURCE next (nextSource_v x)) (pickAt t GATE next (nextGate_v x)) (pickAt t DRAIN next (nextDrain_v x))
    (pickAt t SOURCE first (firstSource_v x)) (pickAt t GATE first (firstGate_v x))
    (pickAt t DRAIN first (firstDrain_v x))
    (sourceNet_v x) (gateNet_v x) (drainNet_v x) (bulkNet_v x) (deviceType_v x) (isFixedEquivalentNet x)
    (equivalentNet_v x) (parameterResistanceMap x) (deviceCount x) (netCount x) (subcircuitCount x)
    (netParent_v x).

Definition set_nets (t : terminal_t) (v : list Z) (x : CNetlist) : CNetlist :=
  mkNetlist (instancePtr_v x) (deviceParent_v x) (nextSource_v x) (nextGate_v x) (nextDrain_v x)
    (firstSource_v x) (firstGate_v x) (firstDrain_v x)
    (pickAt t SOURCE v (sourceNet_v x)) (pickAt t GATE v (gateNet_v x)) (pickAt t DRAIN v (drainNet_v x))
    (pickAt t BULK v (bulkNet_v x)) (deviceType_v x) (isFixedEquivalentNet x)
    (equivalentNet_v x) (parameterResistanceMap x) (deviceCount x) (netCount x) (subcircuitCount x)
    (netParent_v x).

Definition modifyNl (f : CNetlist -> outcome CNetlist) : DB unit :=
  fun d => match f (netlist d) with Ok x => Ok (tt, set_netlist x d) | Err e => Err e end.

(** ** Lists of devices *)

(** The devices met from a device on. *)
Inductive devPath (next : list Z) : Z -> list Z -> Prop :=
| devPath_nil : devPath next UNKNOWN_DEVICE []
| devPath_cons i j l :
    i <> UNKNOWN_DEVICE -> vlookup next i = Some j -> devPath next j l -> devPath next i (i :: l).

(** The list of a net. *)
Definition devicesOf (first next : list Z) (n : Z) (l : list Z) : Prop :=
  exists i, vlookup first n = Some i /\ devPath next i l.

(** Pushing a device in front of the list of a net, as [LinkDevices] does it. *)
Definition push (first next : list Z) (n i : Z) : outcome (list Z * list Z) :=
  f ← vget first n;
  next ← (if negb (f =? UNKNOWN_DEVICE) then vset next i f else Ok next);
  first ← vset first n i;
  Ok (first, next).

Lemma devPath_fun next i l l' : devPath next i l -> devPath next i l' -> l = l'.
Proof.
  intros H. revert l'. induction H as [| i j l Hi Hn H IH]; intros l' H'.
  - by inversion H'.
  - inversion H' as [| ? j' ? ? Hn' H'']; [done |]. subst. rewrite Hn in Hn'. injection Hn' as <-.
    f_equal. auto.
Qed.

Lemma devPath_update next i l k v : k ∉ l -> devPath next i l -> devPath (vupdate next k v) i l.
Proof.
  intros Hk H. induction H as [| i j l Hi Hn H IH]; [constructor |].
  apply not_elem_of_cons in Hk as [Hki Hk].
  econstructor; [done | rewrite vlookup_vupdate_ne; eauto | auto].
Qed.

Lemma devicesOf_fun first next n l l' : devicesOf first next n l -> devicesOf first next n l' -> l = l'.
Proof.
  intros (i & E & H) (j & E' & H'). rewrite E in E'. injection E' as <-. by eapply devPath_fun.
Qed.

Lemma devPath_range next i l k : devPath next i l -> k ∈ l -> 0 <= k < Z.of_nat (length next).
Proof.
  intros H. induction H as [| i j l Hi Hn H IH]; [by intros ?%elem_of_nil |].
  intros [-> | Hk]%elem_of_cons; [by eapply vlookup_range | auto].
Qed.

(** Pushing a device that is in no list. *)
Lemma push_spec first next n i L :
  devicesOf first next n L -> i <> UNKNOWN_DEVICE -> vlookup next i = Some UNKNOWN_DEVICE -> i ∉ L ->
  exists first' next', push first next n i = Ok (first', next') /\
    length first' = length first /\ length next' = length next /\
    devicesOf first' next' n (i :: L) /\
    (forall m l, m <> n -> i ∉ l -> devicesOf first next m l -> devicesOf first' next' m l) /\
    (forall j, j <> i -> vlookup next' j = vlookup next j).
Proof.
  intros (f & Ef & HL) Hi En Hin. unfold push. apply vget_Ok in Ef as Eg. rewrite Eg. cbn [mbind outcome_bind].
  pose proof (vlookup_range _ _ _ Ef) as Hr. pose proof (vlookup_range _ _ _ En) as Hri.
  assert (exists next', (if negb (f =? UNKNOWN_DEVICE) then vset next i f else Ok next) = Ok next' /\
    length next' = length next /\ vlookup next' i = Some f /\ next' = (if negb (f =? UNKNOWN_DEVICE) then vupdate next i f else next))
    as (next' & En' & Hl & Hf & Eq).
  { destruct (Z.eqb_spec f UNKNOWN_DEVICE) as [-> | Hf]; cbn [negb]; [by exists next |].
    rewrite vset_in_range by done. eexists. rewrite vupdate_length, vlookup_vupdate_eq; done. }
  rewrite En'. cbn [mbind outcome_bind]. rewrite vset_in_range by done. eexists _, _. split; [done |].
  rewrite vupdate_length. do 2 (split; [done |]).
  assert (forall k l, i ∉ l -> devPath next k l -> devPath next' k l) as Hk.
  { intros k l Hl' H. rewrite Eq. destruct (negb _); [by apply devPath_update | done]. }
  split_and!.
  - exists i. split; [by apply vlookup_vupdate_eq |]. econstructor; eauto.
  - intros m l Hm Hl' (k & E & H). exists k. split; [by rewrite vlookup_vupdate_ne | auto].
  - intros j Hj. rewrite Eq. destruct (negb _); [by rewrite vlookup_vupdate_ne | done].
Qed.

(** ** Walking a list *)

(** The body over the devices of a list, in order. *)
Fixpoint overList {A R} (l : list Z) (body : A -> Z -> DB (A + R)) (a : A) : DB (A + R) :=
  match l with
  | [] => mret (inl a)
  | i :: l => r ← body a i; match r with inl a => overList l body a | inr r => mret (inr r) end
  end.

(** A computation that leaves the links alone. *)
Definition keepsLinks {A} (m : DB A) : Prop := forall d r d', m d = Ok (r, d') -> netlist d' = netlist d.

Lemma loopDevices_path {A R} fuel (next : CNetlist -> list Z) (body : A -> Z -> DB (A + R)) l :
  (forall a i, keepsLinks (body a i)) -> forall i a d,
  devPath (next (netlist d)) i l -> (length l < fuel)%nat ->
  loopDevices fuel next body a i d = overList l body a d.
Proof.
  intros Hk. revert l. induction fuel as [| fuel IH]; intros l i a d H Hf; [lia |].
  inversion H as [E | ? j l' Hi En Hl]; subst; cbn [loopDevices overList].
  { by rewrite Z.eqb_refl. }
  rewrite (proj2 (Z.eqb_neq i UNKNOWN_DEVICE) Hi). unfold mbind, M_bind.
  destruct (body a i d) as [[[a' | r] d'] |] eqn:E; [| done | done].
  pose proof (Hk _ _ _ _ _ E) as En'. unfold nlat, lift. rewrite En'. apply vget_Ok in En. rewrite En.
  apply IH; [by rewrite En' | simpl in Hf; lia].
Qed.

Lemma NoDup_range_length l (n : nat) : NoDup l -> (forall i, i ∈ l -> 0 <= i < Z.of_nat n) -> (length l <= n)%nat.
Proof.
  intros Hl Hr. assert (l ⊆ seqZ 0 (Z.of_nat n)) as Hs.
  { intros i Hi. apply elem_of_seqZ. specialize (Hr i Hi). lia. }
  apply NoDup_submseteq, submseteq_length in Hs; [| done]. rewrite length_seqZ in Hs. lia.
Qed.

(** The loop over the list of a net is the loop over its devices: the fuel is
    enough, since no device is met twice. *)
Lemma overDevicesWith_list {A R} (first next : CNetlist -> list Z) n (a : A) (body : A -> Z -> DB (A + R)) l d :
  (forall a i, keepsLinks (body a i)) -> devicesOf (first (netlist d)) (next (netlist d)) n l -> NoDup l ->
  overDevicesWith first next n a body d = overList l body a d.
Proof.
  intros Hk (i & Ei & Hp) Hnd. unfold overDevicesWith, mbind, M_bind, nlat, nl, gets, lift.
  apply vget_Ok in Ei. rewrite Ei. apply loopDevices_path; [done | done |].
  enough (length l <= length (next (netlist d)))%nat by lia.
  apply NoDup_range_length; [done |]. intros j Hj. by eapply devPath_range.
Qed.

(** ** The device of a number

    It depends on the instances and the circuits only. *)

Lemma deviceOf_frame d d' i dev : instancePtr_v (netlist d') = instancePtr_v (netlist d) ->
  deviceParent_v (netlist d') = deviceParent_v (netlist d) -> circuits d' = circuits d ->
  deviceOf i d = Ok (dev, d) -> deviceOf i d' = Ok (dev, d').
Proof.
  intros E1 E2 E3. unfold deviceOf, mbind, M_bind, nlat, at_, lift. rewrite E2.
  destruct (vget (deviceParent_v (netlist d)) i); [| done]. rewrite E1. destruct (vget (instancePtr_v (netlist d)) a); [| done].
  rewrite E3. destruct (vget (circuits d) (master_p a0)); [| done]. destruct (vget (devicePtr_v a1) _); [| done]. intros H. by injection H as ->.
Qed.

End Netlist.
