(* ===== verification/Links.v ===== *)
(** * Linking the devices (CCvcDb_init.cc, CCvcDb_utility.cc)

    [LinkDevices] resolves the terminals of every device ([SetDeviceNets]) and
    threads the devices of each net through [nextSource_v], [nextGate_v] and
    [nextDrain_v].  The lists that come out are those the propagation walks. *)

From S2P Require Import Prelude CvcTypes EventQueue VirtualNet Numeric Power Db ExampleDb.
From S2P Require Import Connection Netlist.
From stdpp Require Import base list strings gmap sets.
From Stdlib Require Import ZArith Lia Floats.SpecFloat.
#[local] Open Scope Z_scope.

Module Links.
Import VirtualNet.VirtualNet Power.Power Db.Db Connection.Connection Netlist.Netlist.

(** ** Operations *)

(** The global net of a local signal of a device. *)
Definition deviceNet (i : CInstance) (dev : CDevice) (k : Z) : DB Z :=
  s ← lift (vget (signalId_v dev) k);
  n ← lift (vget (localToGlobalNetId_v i) s);
  GetEquivalentNet n.

(** Source, gate, drain and bulk. *)
Definition SetDeviceNets (i : CInstance) (dev : CDevice) : DB (Z * Z * Z * Z) :=
  match modelType (model_p dev) with
  | NMOS | PMOS | LDDN | LDDP =>
      dr ← deviceNet i dev 0;
      g ← deviceNet i dev 1;
      s ← deviceNet i dev 2;
      soi ← gets (fun d => cvcSOI (cvcParameters d));
      b ← (if (soi : bool) then mret UNKNOWN_NET else deviceNet i dev 3);
      mret (s, g, dr, b)
  | DIODE | SWITCH_OFF | FUSE_OFF | CAPACITOR | SWITCH_ON | FUSE_ON | RESISTOR =>
      s ← deviceNet i dev 0;
      dr ← deviceNet i dev 1;
      b ← (if Z.of_nat (length (signalId_v dev)) =? 3 then deviceNet i dev 2 else mret UNKNOWN_NET);
      mret (s, UNKNOWN_NET, dr, b)
  | BIPOLAR =>
      s ← deviceNet i dev 0;
      g ← deviceNet i dev 1;
      dr ← deviceNet i dev 2;
      mret (s, g, dr, UNKNOWN_NET)
  | _ => raise EUnknownModel
  end.

Definition writeNet (t : terminal_t) (i n : Z) : DB unit :=
  modifyNl (fun x => v ← vset (netAt t x) i n; Ok (set_nets t v x)).

(** The list of one terminal. *)
Definition linkTerminal (t : terminal_t) (n i : Z) : DB unit :=
  modifyNl (fun x => '(first, next) ← push (firstAt t x) (nextAt t x) n i; Ok (set_links t first next x)).

Definition countConnection (n : Z) (f : CConnectionCount -> CConnectionCount) : DB unit :=
  k ← at_ connectionCount_v n;
  modify (fun d => set_connectionCount_v (vupdate (connectionCount_v d) n (f k)) d).

Definition addGate (k : CConnectionCount) : CConnectionCount :=
  mkConnectionCount (sourceCount k) (drainCount k) (u32 (gateCount k + 1)) (sourceDrainType k).
Definition addSource (t : modelType_t) (k : CConnectionCount) : CConnectionCount :=
  mkConnectionCount (u32 (sourceCount k + 1)) (drainCount k) (gateCount k)
    (status_set (sourceDrainType k) (modelBit t) true).
Definition addDrain (t : modelType_t) (k : CConnectionCount) : CConnectionCount :=
  mkConnectionCount (sourceCount k) (u32 (drainCount k + 1)) (gateCount k)
    (status_set (sourceDrainType k) (modelBit t) true).

(** LDDN counts as NMOS, LDDP as PMOS. *)
Definition countedType (t : modelType_t) : modelType_t :=
  if IsNmos_ t then NMOS else if IsPmos_ t then PMOS else t.

Definition linkGate (g i : Z) : DB unit :=
  _ ← linkTerminal GATE g i; countConnection g addGate.

Definition linkSourceDrain (t : modelType_t) (s dr i : Z) : DB unit :=
  _ ← linkTerminal SOURCE s i;
  _ ← countConnection s (addSource (countedType t));
  _ ← assertM (negb (dr =? s));
  _ ← linkTerminal DRAIN dr i;
  countConnection dr (addDrain (countedType t)).

(** What [LinkDevices] does with a device by its type. *)
Inductive linkKind : Set := LinkMos | LinkTwo | LinkNone | LinkIgnore | LinkUnknown.

#[export] Instance linkKind_eq_dec : EqDecision linkKind.
Proof. solve_decision. Defined.

Definition kindOf (t : modelType_t) : linkKind :=
  match t with
  | NMOS | PMOS | LDDN | LDDP => LinkMos
  | FUSE_ON | FUSE_OFF | RESISTOR => LinkTwo
  | SWITCH_ON => LinkNone
  | BIPOLAR | DIODE | SWITCH_OFF | CAPACITOR => LinkIgnore
  | _ => LinkUnknown
  end.

(** Where a device with its nets goes. *)
Definition placeDevice (t : modelType_t) (s g dr i : Z) : DB unit :=
  if s =? dr then IgnoreDevice i
  else
    match kindOf t with
    | LinkMos => _ ← linkGate g i; linkSourceDrain t s dr i
    | LinkTwo => linkSourceDrain t s dr i
    | LinkNone => mret tt
    | LinkIgnore => IgnoreDevice i
    | LinkUnknown => raise EUnknownModel
    end.

Definition linkDevice (i : CInstance) (dev : CDevice) (myDeviceId : Z) : DB unit :=
  let t := modelType (model_p dev) in
  _ ← modifyNl (fun x => v ← vset (deviceType_v x) myDeviceId t; Ok (set_deviceType_v v x));
  '(s, g, dr, b) ← SetDeviceNets i dev;
  _ ← writeNet SOURCE myDeviceId s;
  _ ← writeNet GATE myDeviceId g;
  _ ← writeNet DRAIN myDeviceId dr;
  _ ← writeNet BULK myDeviceId b;
  placeDevice t s g dr myDeviceId.

Definition resetLinks : DB unit :=
  modify (fun d =>
    let x := netlist d in
    let nets {A} (v : A) := replicate (Z.to_nat (netCount x)) v in
    let devs {A} (v : A) := replicate (Z.to_nat (deviceCount x)) v in
    let x := set_links SOURCE (nets UNKNOWN_DEVICE) (devs UNKNOWN_DEVICE) x in
    let x := set_links GATE (nets UNKNOWN_DEVICE) (devs UNKNOWN_DEVICE) x in
    let x := set_links DRAIN (nets UNKNOWN_DEVICE) (devs UNKNOWN_DEVICE) x in
    let x := set_nets SOURCE (devs UNKNOWN_NET) x in
    let x := set_nets DRAIN (devs UNKNOWN_NET) x in
    let x := set_nets GATE (devs UNKNOWN_NET) x in
    let x := set_nets BULK (devs UNKNOWN_NET) x in
    let x := set_deviceType_v (devs UNKNOWN) x in
    set_netlist x
      (set_inverterNet_v (nets UNKNOWN_NET)
        (set_highLow_v (nets false)
          (set_connectionCount_v (nets (mkConnectionCount 0 0 0 0)) d)))).

Fixpoint linkDevicesFrom (i : CInstance) (device_it : Z) (devs : list CDevice) : DB unit :=
  match devs with
  | [] => mret tt
  | dev :: devs =>
      _ ← linkDevice i dev (u32 (firstDeviceId i + device_it));
      linkDevicesFrom i (device_it + 1) devs
  end.

Definition linkInstance (c : CCircuit) (theInstanceId : Z) : DB unit :=
  i ← nlat instancePtr_v theInstanceId;
  if IsParallelInstance i then mret tt else linkDevicesFrom i 0 (devicePtr_v c).

Definition LinkDevices : DB unit :=
  _ ← resetLinks;
  l ← gets circuits;
  forList l (fun c => if linked c then forList (instanceId_v c) (linkInstance c) else mret tt).

(** ** Devices on a terminal of a net *)

Definition linksAt (t : terminal_t) (ty : modelType_t) : bool :=
  match kindOf ty, t with
  | LinkMos, (GATE | SOURCE | DRAIN) | LinkTwo, (SOURCE | DRAIN) => true
  | _, _ => false
  end.

(** The device is linked by terminal [t], which is on net [n]; its source and
    drain differ. *)
Definition onTerminal (x : CNetlist) (t : terminal_t) (n i : Z) : bool :=
  match vlookup (deviceType_v x) i, vlookup (netAt t x) i, vlookup (sourceNet_v x) i, vlookup (drainNet_v x) i with
  | Some ty, Some m, Some s, Some dr => linksAt t ty && (m =? n) && negb (s =? dr)
  | _, _, _, _ => false
  end.

(** The devices of [done] on a terminal of a net, the last first. *)
Definition attached (x : CNetlist) (done : list Z) (t : terminal_t) (n : Z) : list Z :=
  rev (List.filter (onTerminal x t n) done).

Definition countAt (t : terminal_t) (k : CConnectionCount) : Z :=
  match t with SOURCE => sourceCount k | GATE => gateCount k | DRAIN => drainCount k | BULK => 0 end.

(** The lists and the counts of a state in which the devices [D t] are linked
    by their terminal [t]. *)
Definition rows_sized (x : CNetlist) : Prop :=
  Z.of_nat (length (deviceType_v x)) = deviceCount x /\
  forall t, Z.of_nat (length (netAt t x)) = deviceCount x.

Definition same_rows (x y : CNetlist) : Prop :=
  deviceType_v y = deviceType_v x /\ forall t, netAt t y = netAt t x.

Record links_ok (d : CCvcDb) (D : terminal_t -> list Z) : Prop := mkLinksOk {
  lo_rows : rows_sized (netlist d);
  lo_lists t n : t <> BULK -> 0 <= n < netCount (netlist d) ->
    devicesOf (firstAt t (netlist d)) (nextAt t (netlist d)) n (attached (netlist d) (D t) t n);
  lo_free t i : t <> BULK -> 0 <= i < deviceCount (netlist d) -> i ∉ D t ->
    vlookup (nextAt t (netlist d)) i = Some UNKNOWN_DEVICE;
  lo_counts n : 0 <= n < netCount (netlist d) -> exists k, vlookup (connectionCount_v d) n = Some k /\
    forall t, t <> BULK -> countAt t k = u32 (Z.of_nat (length (attached (netlist d) (D t) t n)))
}.

(** What linking leaves alone. *)
Record same_base (d d' : CCvcDb) : Prop := mkSameBase {
  sb_parameters : cvcParameters d' = cvcParameters d;
  sb_circuits : circuits d' = circuits d;
  sb_powers : powers d' = powers d;
  sb_voltages : netVoltagePtr_v d' = netVoltagePtr_v d;
  sb_status : length (deviceStatus_v d') = length (deviceStatus_v d);
  sb_instances : instancePtr_v (netlist d') = instancePtr_v (netlist d);
  sb_fixed : isFixedEquivalentNet (netlist d') = isFixedEquivalentNet (netlist d);
  sb_equivalent : equivalentNet_v (netlist d') = equivalentNet_v (netlist d);
  sb_nets : netCount (netlist d') = netCount (netlist d);
  sb_devices : deviceCount (netlist d') = deviceCount (netlist d)
}.

#[export] Instance same_base_preorder : PreOrder same_base.
Proof.
  split; [by intros d; constructor |]. intros d d1 d2 [] []. constructor; etrans; eassumption.
Qed.

(** ** Readers: computations that leave the state and see only the base *)

Definition reader {A} (m : DB A) : Prop :=
  forall d r d1, m d = Ok (r, d1) -> d1 = d /\ forall d', same_base d d' -> m d' = Ok (r, d').

Lemma reader_ret {A} (a : A) : reader (mret a).
Proof. intros d r d1 [-> ->]%mret_inv. done. Qed.

Lemma reader_raise {A} e : reader (raise e : DB A).
Proof. by intros d r d1. Qed.

Lemma reader_lift {A} (o : outcome A) : reader (lift o).
Proof. intros d r d1 [E ->]%lift_inv. split; [done |]. intros d' _. unfold lift. by rewrite E. Qed.

Lemma reader_gets {A} (f : CCvcDb -> A) : (forall d d', same_base d d' -> f d' = f d) -> reader (gets f).
Proof. intros Hf d r d1 [-> ->]%gets_inv. split; [done |]. intros d' H. unfold gets. by rewrite (Hf d d'). Qed.

Lemma reader_bind {A B} (m : DB A) (k : A -> DB B) : reader m -> (forall a, reader (k a)) -> reader (m ≫= k).
Proof.
  intros Hm Hk d r d1 H. apply M_bind_inv in H as (a & d2 & E & H).
  destruct (Hm _ _ _ E) as [-> Hm']. destruct (Hk a _ _ _ H) as [-> Hk'].
  split; [done |]. intros d' Hb. unfold mbind, M_bind. rewrite (Hm' _ Hb). by apply Hk'.
Qed.

Lemma reader_at {A} (f : CCvcDb -> list A) i : (forall d d', same_base d d' -> f d' = f d) -> reader (at_ f i).
Proof.
  intros Hf d r d1 [E ->]%at_inv. split; [done |]. intros d' H. unfold at_, lift. rewrite (Hf d d') by done.
  apply vget_Ok in E. by rewrite E.
Qed.

Lemma reader_pointee a : reader (pointeeM a).
Proof.
  intros d r d1 [E ->]%pointeeM_inv. split; [done |]. intros d' H. unfold pointeeM, lift.
  by rewrite (sb_powers _ _ H), E.
Qed.

Lemma reader_GetEquivalentNet n : reader (GetEquivalentNet n).
Proof.
  unfold GetEquivalentNet. destruct (_ =? _); [apply reader_ret |].
  apply reader_bind; [apply reader_gets; intros ? ? []; congruence |]. intros fixed.
  intros d r d1 H. apply M_bind_inv in H as (x & d2 & [-> ->]%gets_inv & H).
  apply M_bind_inv in H as (m & d2 & E & H).
  assert (reader (a ← powerAt m; p ← pointeeM a;
    match p with Some p => if netId p =? UNKNOWN_NET then mret m else mret (netId p) | None => mret m end)) as Hr.
  { apply reader_bind; [apply reader_at; by intros ? ? [] |]. intros a.
    apply reader_bind; [apply reader_pointee |]. intros [p |]; [destruct (_ =? _) |]; apply reader_ret. }
  assert (d2 = d /\ forall d', same_base d d' ->
    (if (fixed : bool) then nlat equivalentNet_v n else lift (GetLeastEquivalentNet (netlist d') n)) d' = Ok (m, d'))
    as [-> Hm].
  { destruct fixed.
    - apply nlat_inv in E as [E ->]. split; [done |]. intros d' H'. unfold nlat, lift.
      rewrite (sb_equivalent _ _ H'). apply vget_Ok in E. by rewrite E.
    - apply lift_inv in E as [E ->]. split; [done |]. intros d' H'. unfold lift, GetLeastEquivalentNet in *.
      by rewrite (sb_equivalent _ _ H'), E. }
  destruct (Hr _ _ _ H) as [-> H']. split; [done |]. intros d' Hb.
  unfold mbind, M_bind, gets at 1. rewrite (Hm _ Hb). by apply H'.
Qed.

Lemma reader_deviceNet i dev k : reader (deviceNet i dev k).
Proof. unfold deviceNet. repeat (apply reader_bind; [apply reader_lift | intros ?]). apply reader_GetEquivalentNet. Qed.

Lemma reader_SetDeviceNets i dev : reader (SetDeviceNets i dev).
Proof.
  unfold SetDeviceNets. destruct (modelType _); try apply reader_raise;
    repeat first [ apply reader_ret | apply reader_deviceNet
                 | apply reader_gets; intros ? ? []; congruence
                 | apply reader_bind; [| intros ?] | case_match ].
Qed.

(** ** One step of linking *)

Lemma netlist_set x d : netlist (set_netlist x d) = x.
Proof. by destruct d. Qed.

Lemma modifyNl_run f d x : f (netlist d) = Ok x -> modifyNl f d = Ok (tt, set_netlist x d).
Proof. unfold modifyNl. by intros ->. Qed.

Lemma pickAt_eq {A} t (v w : A) : pickAt t t v w = v.
Proof. unfold pickAt. by rewrite bool_decide_true. Qed.
Lemma pickAt_ne {A} t u (v w : A) : t <> u -> pickAt t u v w = w.
Proof. intros. unfold pickAt. by rewrite bool_decide_false. Qed.

Lemma firstAt_set t u f n x :
  t <> BULK -> firstAt u (set_links t f n x) = if decide (t = u) then f else firstAt u x.
Proof. by destruct t, u. Qed.
Lemma nextAt_set t u f n x :
  t <> BULK -> nextAt u (set_links t f n x) = if decide (t = u) then n else nextAt u x.
Proof. by destruct t, u. Qed.

Lemma attached_links t f n x D u m : attached (set_links t f n x) D u m = attached x D u m.
Proof. unfold attached, onTerminal. by destruct u. Qed.

Lemma attached_snoc x D t n i :
  attached x (D ++ [i]) t n = if onTerminal x t n i then i :: attached x D t n else attached x D t n.
Proof.
  unfold attached. rewrite List.filter_app, rev_app_distr. simpl. by destruct (onTerminal x t n i).
Qed.

Lemma attached_elem x D t n i : i ∈ attached x D t n -> i ∈ D /\ onTerminal x t n i = true.
Proof.
  unfold attached. rewrite list_elem_of_In, <- in_rev, List.filter_In, <- list_elem_of_In. done.
Qed.

Lemma onTerminal_net x t n i : onTerminal x t n i = true -> vlookup (netAt t x) i = Some n.
Proof.
  unfold onTerminal. repeat case_match; try done. intros H'. bool_to_prop. naive_solver lia.
Qed.

Definition addTo (D : terminal_t -> list Z) (t : terminal_t) (i : Z) (u : terminal_t) : list Z :=
  if decide (t = u) then D u ++ [i] else D u.

#[export] Instance same_rows_preorder : PreOrder same_rows.
Proof.
  split; [done |]. intros x y z [T1 N1] [T2 N2]. split; [congruence |]. intros t. by rewrite N2, N1.
Qed.

Lemma rows_sized_same x y :
  same_rows x y -> deviceCount y = deviceCount x -> rows_sized x -> rows_sized y.
Proof. intros [Et En] Ec [Ht Hn]. split; [congruence |]. intros t. rewrite En, Ec. auto. Qed.

Lemma onTerminal_rows x y u m j : same_rows x y -> onTerminal y u m j = onTerminal x u m j.
Proof.
  intros [Et En]. unfold onTerminal. rewrite Et, En. by rewrite (En SOURCE : sourceNet_v y = sourceNet_v x),
    (En DRAIN : drainNet_v y = drainNet_v x).
Qed.

(** A device that is on no net by terminal [t] is done with it. *)
Lemma links_skip d D t i :
  links_ok d D -> (forall n, onTerminal (netlist d) t n i = false) -> links_ok d (addTo D t i).
Proof.
  intros [Hrows Hl Hf Hc] Hoff.
  assert (forall u n, attached (netlist d) (addTo D t i u) u n = attached (netlist d) (D u) u n) as E.
  { intros u n. unfold addTo. destruct (decide (t = u)) as [-> |]; [| done]. by rewrite attached_snoc, Hoff. }
  split; [done | | |].
  - intros u n Hu Hn. rewrite E. auto.
  - intros u j Hu Hj Hin. apply Hf; [done.. |]. unfold addTo in Hin.
    destruct (decide (t = u)); [by apply not_elem_of_app in Hin as [? _] | done].
  - intros n Hn. destruct (Hc n Hn) as (k & Ek & Hk). exists k. split; [done |]. intros u Hu. rewrite E. auto.
Qed.

(** The update of a count by terminal [t]. *)
Definition counts (t : terminal_t) (f : CConnectionCount -> CConnectionCount) : Prop :=
  forall k u, countAt u (f k) = if decide (t = u) then u32 (countAt u k + 1) else countAt u k.

Lemma u32_succ a : u32 (u32 a + 1) = u32 (a + 1).
Proof. unfold wrap_u. by rewrite Zplus_mod_idemp_l. Qed.

Lemma set_links_base t f n x d : netlist d = x -> t <> BULK -> same_base d (set_netlist (set_links t f n x) d).
Proof. intros <- Ht. by destruct d. Qed.

Lemma links_push d D t n i f :
  links_ok d D -> t <> BULK -> counts t f -> i <> UNKNOWN_DEVICE -> i ∉ D t ->
  0 <= i < deviceCount (netlist d) -> 0 <= n < netCount (netlist d) -> onTerminal (netlist d) t n i = true ->
  exists d', (_ ← linkTerminal t n i; countConnection n f) d = Ok (tt, d') /\
    links_ok d' (addTo D t i) /\ same_base d d' /\
    same_rows (netlist d) (netlist d').
Proof.
  intros [Hrows Hl Hf Hc] Ht Hcount Hi Hin Hir Hn Hon.
  assert (forall m, i ∉ attached (netlist d) (D t) t m) as Hfresh by (by intros m [? _]%attached_elem).
  destruct (push_spec _ _ _ _ _ (Hl t n Ht Hn) Hi (Hf t i Ht Hir Hin) (Hfresh n))
    as (first' & next' & E & _ & _ & Hnew & Hold & Hnext).
  destruct (Hc n Hn) as (k & Ek & Hk).
  unfold mbind, M_bind, linkTerminal.
  erewrite modifyNl_run by (rewrite E; cbn [mbind outcome_bind]; reflexivity).
  set (d1 := set_netlist _ d). unfold countConnection, mbind, M_bind, at_, lift.
  replace (connectionCount_v d1) with (connectionCount_v d) by (by destruct d).
  apply vget_Ok in Ek as Eg. rewrite Eg. cbn [modify]. eexists. split; [done |].
  set (d' := set_connectionCount_v _ d1).
  assert (netlist d' = set_links t first' next' (netlist d)) as Ex by (by destruct d).
  assert (connectionCount_v d' = vupdate (connectionCount_v d) n (f k)) as Ec by (by destruct d).
  assert (forall u m, attached (netlist d') (addTo D t i u) u m =
    if decide (t = u /\ n = m) then i :: attached (netlist d) (D u) u m else attached (netlist d) (D u) u m) as Ea.
  { intros u m. rewrite Ex, attached_links. unfold addTo. destruct (decide (t = u)) as [<- |].
    - rewrite attached_snoc. destruct (onTerminal (netlist d) t m i) eqn:Em.
      + apply onTerminal_net in Hon, Em. rewrite Hon in Em. injection Em as <-. by rewrite decide_True.
      + rewrite decide_False; [done |]. intros [_ <-]. congruence.
    - rewrite decide_False; naive_solver. }
  assert (netCount (netlist d') = netCount (netlist d)) as En by (by rewrite Ex).
  assert (deviceCount (netlist d') = deviceCount (netlist d)) as Ed by (by rewrite Ex).
  assert (same_rows (netlist d) (netlist d')) as Hsame by (rewrite Ex; split; [done | by intros []]).
  split_and!; [split | by destruct d | done].
  - by apply (rows_sized_same (netlist d)).
  - intros u m Hu Hm. rewrite En in Hm. rewrite Ea, Ex, firstAt_set, nextAt_set by done.
    destruct (decide (t = u)) as [<- |].
    + destruct (decide (t = t /\ n = m)) as [[_ <-] | Hne]; [done |]. apply Hold; [naive_solver | done | auto].
    + rewrite decide_False by naive_solver. auto.
  - intros u j Hu Hj Hjn. rewrite Ed in Hj. rewrite Ex, nextAt_set by done. unfold addTo in Hjn.
    destruct (decide (t = u)) as [<- |]; [| auto].
    apply not_elem_of_app in Hjn as [Hj1 Hj2]. rewrite list_elem_of_singleton in Hj2.
    rewrite Hnext by done. auto.
  - intros m Hm. rewrite En in Hm. rewrite Ec. destruct (decide (n = m)) as [<- | Hne].
    + exists (f k). split; [apply vlookup_vupdate_eq; by eapply vlookup_range |].
      intros u Hu. rewrite Hcount, Ea. destruct (decide (t = u)) as [<- |].
      * rewrite decide_True by done. rewrite Hk by done. rewrite u32_succ. f_equal. cbn [length]. lia.
      * rewrite decide_False by naive_solver. auto.
    + destruct (Hc m Hm) as (k' & Ek' & Hk'). exists k'. rewrite vlookup_vupdate_ne by done. split; [done |].
      intros u Hu. rewrite Ea, decide_False by naive_solver. auto.
Qed.

(** ** Recording the terminals of a device *)

Definition netsOfDevice (r : Z * Z * Z * Z) (t : terminal_t) : Z :=
  let '(s, g, dr, b) := r in match t with SOURCE => s | GATE => g | DRAIN => dr | BULK => b end.

(** Row [i] holds the type and the nets of a device. *)
Definition recorded (x : CNetlist) (i : Z) (ty : modelType_t) (r : Z * Z * Z * Z) : Prop :=
  vlookup (deviceType_v x) i = Some ty /\ forall t, vlookup (netAt t x) i = Some (netsOfDevice r t).

Definition record (i : Z) (ty : modelType_t) (r : Z * Z * Z * Z) (x : CNetlist) : CNetlist :=
  let w t x := set_nets t (vupdate (netAt t x) i (netsOfDevice r t)) x in
  w BULK (w DRAIN (w GATE (w SOURCE (set_deviceType_v (vupdate (deviceType_v x) i ty) x)))).

Lemma record_rows i ty r x :
  deviceType_v (record i ty r x) = vupdate (deviceType_v x) i ty /\
  forall t, netAt t (record i ty r x) = vupdate (netAt t x) i (netsOfDevice r t).
Proof. split; [done | by intros []]. Qed.

Lemma record_recorded i ty r x :
  rows_sized x -> 0 <= i < deviceCount x -> recorded (record i ty r x) i ty r.
Proof.
  intros [Ht Hn] Hi. destruct (record_rows i ty r x) as [Et En].
  split; [rewrite Et | intros t; rewrite En]; apply vlookup_vupdate_eq; rewrite ?Ht, ?Hn; lia.
Qed.

Lemma recorded_on x i ty r t n :
  recorded x i ty r ->
  onTerminal x t n i = linksAt t ty && (netsOfDevice r t =? n) && negb (netsOfDevice r SOURCE =? netsOfDevice r DRAIN).
Proof.
  intros [Ht Hn]. unfold onTerminal. rewrite Ht, Hn.
  by rewrite (Hn SOURCE : vlookup (sourceNet_v x) i = _), (Hn DRAIN : vlookup (drainNet_v x) i = _).
Qed.

Lemma recorded_rows x y i ty r : same_rows x y -> recorded x i ty r -> recorded y i ty r.
Proof. intros [Et En] [Ht Hn]. split; [congruence |]. intros t. by rewrite En. Qed.

Lemma recorded_other i ty r x j ty' r' : i <> j -> recorded x j ty' r' -> recorded (record i ty r x) j ty' r'.
Proof.
  intros Hne [Ht Hn]. destruct (record_rows i ty r x) as [Et En].
  split; [rewrite Et | intros t; rewrite En]; by rewrite vlookup_vupdate_ne.
Qed.

Lemma onTerminal_other i ty r x t n j : i <> j -> onTerminal (record i ty r x) t n j = onTerminal x t n j.
Proof.
  intros Hne. destruct (record_rows i ty r x) as [Et En]. unfold onTerminal.
  rewrite Et, En, (En SOURCE : sourceNet_v (record i ty r x) = _), (En DRAIN : drainNet_v (record i ty r x) = _).
  by rewrite !vlookup_vupdate_ne.
Qed.

Lemma attached_record i ty r x D t n : i ∉ D -> attached (record i ty r x) D t n = attached x D t n.
Proof.
  intros Hi. unfold attached. f_equal. apply List.filter_ext_in. intros j Hj%list_elem_of_In.
  apply onTerminal_other. by intros ->.
Qed.

Lemma record_base i ty r d : same_base d (set_netlist (record i ty r (netlist d)) d).
Proof. by destruct d. Qed.

Lemma links_record d D i ty r :
  links_ok d D -> (forall t, i ∉ D t) -> links_ok (set_netlist (record i ty r (netlist d)) d) D.
Proof.
  intros [[Ht Hn] Hl Hf Hc] Hi. destruct (record_rows i ty r (netlist d)) as [Et En].
  split; rewrite ?netlist_set.
  - split; [rewrite Et | intros t; rewrite En]; by rewrite vupdate_length.
  - intros t n Hb Hr. rewrite attached_record by done. specialize (Hl t n Hb Hr). by destruct t.
  - intros t j Hb Hj Hin. specialize (Hf t j Hb Hj Hin). by destruct t.
  - intros n Hr. destruct (Hc n Hr) as (k & Ek & Hk). exists k. split; [by destruct d |].
    intros t Hb. rewrite attached_record by done. auto.
Qed.

(** The five writes of a device. *)
Lemma record_run i dev id s g dr b d d' :
  rows_sized (netlist d) -> 0 <= id < deviceCount (netlist d) ->
  SetDeviceNets i dev d = Ok ((s, g, dr, b), d) ->
  placeDevice (modelType (model_p dev)) s g dr id
    (set_netlist (record id (modelType (model_p dev)) (s, g, dr, b) (netlist d)) d) = Ok (tt, d') ->
  linkDevice i dev id d = Ok (tt, d').
Proof.
  intros [Ht Hn] Hid E Hm.
  assert (forall t, 0 <= id < Z.of_nat (length (netAt t (netlist d)))) as Hr by (intros t; rewrite Hn; lia).
  pose proof (Hr SOURCE) as Hs. pose proof (Hr GATE) as Hg. pose proof (Hr DRAIN) as Hd. pose proof (Hr BULK) as Hb.
  clear Hr. unfold linkDevice, mbind, M_bind, writeNet, modifyNl.
  rewrite vset_in_range by lia. cbn [mbind outcome_bind].
  set (d1 := set_netlist _ d).
  destruct (reader_SetDeviceNets i dev _ _ _ E) as [_ Hr]. rewrite (Hr d1) by (by destruct d).
  replace (netlist d1) with (set_deviceType_v (vupdate (deviceType_v (netlist d)) id (modelType (model_p dev)))
    (netlist d)) by (by destruct d).
  repeat (rewrite vset_in_range by (first [exact Hs | exact Hg | exact Hd | exact Hb]); cbn [mbind outcome_bind]; rewrite ?netlist_set).
  rewrite <- Hm. f_equal. by destruct d.
Qed.

(** ** One device *)

Lemma links_ok_ext d D D' : (forall t, t <> BULK -> D' t = D t) -> links_ok d D -> links_ok d D'.
Proof.
  intros E [Hr Hl Hf Hc]. split; [done | | |].
  - intros t n Ht. rewrite E by done. auto.
  - intros t i Ht. rewrite E by done. auto.
  - intros n Hn. destruct (Hc n Hn) as (k & Ek & Hk). exists k. split; [done |].
    intros t Ht. rewrite E by done. auto.
Qed.

Lemma links_ok_frame d d' D :
  netlist d' = netlist d -> connectionCount_v d' = connectionCount_v d -> links_ok d D -> links_ok d' D.
Proof. intros En Ec [Hr Hl Hf Hc]. split; rewrite ?En, ?Ec; auto. Qed.

Lemma links_skip_all d done i :
  links_ok d (fun _ => done) -> (forall t n, onTerminal (netlist d) t n i = false) ->
  links_ok d (fun _ => done ++ [i]).
Proof.
  intros H Hoff. apply (links_ok_ext d (addTo (addTo (addTo (fun _ => done) GATE i) SOURCE i) DRAIN i)).
  { by intros []. }
  by repeat (apply links_skip; [| done]).
Qed.

Lemma IgnoreDevice_run i d :
  0 <= i < Z.of_nat (length (deviceStatus_v d)) ->
  exists d', IgnoreDevice i d = Ok (tt, d') /\ same_base d d' /\ netlist d' = netlist d /\
    connectionCount_v d' = connectionCount_v d.
Proof.
  intros Hi. apply vlookup_is_Some in Hi as [x Ex]. unfold IgnoreDevice, mbind, M_bind, at_, lift.
  apply vget_Ok in Ex. rewrite Ex. eexists. split; [done |]. destruct d. split_and!; try done.
  constructor; try done. cbn. by rewrite vupdate_length.
Qed.

Lemma addGate_counts : counts GATE addGate.
Proof. by intros k []. Qed.
Lemma addSource_counts t : counts SOURCE (addSource t).
Proof. by intros k []. Qed.
Lemma addDrain_counts t : counts DRAIN (addDrain t).
Proof. by intros k []. Qed.

Lemma assertM_run (d : CCvcDb) : assertM true d = Ok (tt, d).
Proof. done. Qed.

Section Device.
Context (d0 : CCvcDb) (i : CInstance) (dev : CDevice) (id s g dr b : Z) (done : list Z).
Abbreviation ty := (modelType (model_p dev)).
Abbreviation nets := (s, g, dr, b).
Context (Hid : 0 <= id < deviceCount (netlist d0)) (Hbound : deviceCount (netlist d0) <= UNKNOWN_DEVICE).
Context (Hfresh : id ∉ done).

Lemma linkSourceDrain_step d D :
  same_base d0 d -> links_ok d D -> recorded (netlist d) id ty nets ->
  id ∉ D SOURCE -> id ∉ D DRAIN -> s <> dr -> linksAt SOURCE ty = true ->
  0 <= s < netCount (netlist d0) -> 0 <= dr < netCount (netlist d0) ->
  exists d', linkSourceDrain ty s dr id d = Ok (tt, d') /\ same_base d0 d' /\ same_rows (netlist d) (netlist d') /\
    links_ok d' (addTo (addTo D SOURCE id) DRAIN id).
Proof.
  intros Hb Hl Hrec Hs Hd Hne Hk Hsr Hdr.
  pose proof (sb_devices _ _ Hb) as Ed. pose proof (sb_nets _ _ Hb) as En.
  assert (linksAt DRAIN ty = true) as Hk' by (revert Hk; unfold linksAt; by destruct (kindOf ty)).
  destruct (links_push d D SOURCE s id (addSource (countedType ty))) as (d1 & E1 & H1 & B1 & R1);
    [done | done | apply addSource_counts | lia | done | lia | lia | |].
  { rewrite (recorded_on _ _ _ _ _ _ Hrec). cbn [netsOfDevice]. rewrite Hk, Z.eqb_refl. simpl. by apply negb_true_iff, Z.eqb_neq. }
  pose proof (recorded_rows _ _ _ _ _ R1 Hrec) as Hrec1.
  destruct (links_push d1 (addTo D SOURCE id) DRAIN dr id (addDrain (countedType ty))) as (d2 & E2 & H2 & B2 & R2);
    [done | done | apply addDrain_counts | lia | done | rewrite (sb_devices _ _ B1); lia
    | rewrite (sb_nets _ _ B1); lia | |].
  { rewrite (recorded_on _ _ _ _ _ _ Hrec1). cbn [netsOfDevice]. rewrite Hk', Z.eqb_refl. simpl. by apply negb_true_iff, Z.eqb_neq. }
  exists d2. split_and!; [| by do 2 (etrans; [eassumption |]) | | done].
  - unfold linkSourceDrain. revert E1 E2. unfold mbind, M_bind.
    destruct (linkTerminal SOURCE s id d) as [[[] x] |]; [| done]. intros ->.
    destruct (Z.eqb_spec dr s); [congruence |]. cbn [negb]. rewrite assertM_run. by intros ->.
  - by etrans.
Qed.

(** The device can be resolved, and its nets exist where it is linked. *)
Definition resolved : Prop :=
  SetDeviceNets i dev d0 = Ok (nets, d0) /\
  (s <> dr -> forall t, linksAt t ty = true -> 0 <= netsOfDevice nets t < netCount (netlist d0)).

Lemma SetDeviceNets_kind : SetDeviceNets i dev d0 = Ok (nets, d0) -> kindOf ty <> LinkUnknown.
Proof. unfold SetDeviceNets. by destruct ty. Qed.

Lemma placeDevice_step d :
  resolved -> deviceCount (netlist d0) <= Z.of_nat (length (deviceStatus_v d0)) ->
  same_base d0 d -> links_ok d (fun _ => done) -> recorded (netlist d) id ty nets ->
  exists d', placeDevice ty s g dr id d = Ok (tt, d') /\ same_base d0 d' /\ same_rows (netlist d) (netlist d') /\
    links_ok d' (fun _ => done ++ [id]).
Proof.
  intros [Hres Hnets] Hstatus Hb Hl Hrec.
  assert (forall t n, s = dr \/ linksAt t ty = false -> onTerminal (netlist d) t n id = false) as Hoff.
  { intros t n H. rewrite (recorded_on _ _ _ _ _ _ Hrec). cbn [netsOfDevice].
    destruct H as [-> | ->]; [by rewrite Z.eqb_refl, andb_false_r | done]. }
  assert (s = dr \/ (forall t, linksAt t ty = false) -> exists d', IgnoreDevice id d = Ok (tt, d') /\
    same_base d0 d' /\ same_rows (netlist d) (netlist d') /\ links_ok d' (fun _ => done ++ [id])) as Hign.
  { intros Hall. destruct (IgnoreDevice_run id d) as (d' & E & B & N & C); [rewrite (sb_status _ _ Hb); lia |].
    exists d'. split_and!; [done | by etrans | by rewrite N |]. apply (links_ok_frame d); [done.. |].
    apply links_skip_all; [done |]. intros. apply Hoff. naive_solver. }
  pose proof (SetDeviceNets_kind Hres) as Hkind. unfold placeDevice.
  destruct (Z.eqb_spec s dr) as [Heq | Hne]; [auto |]. specialize (Hnets Hne).
  unfold linksAt in Hnets, Hoff, Hign.
  destruct (kindOf ty) eqn:K; [| | | apply Hign; by right | done].
  - destruct (links_push d (fun _ => done) GATE g id addGate) as (d3 & E3 & H3 & B3 & R3);
      [done | done | apply addGate_counts | lia | done | rewrite (sb_devices _ _ Hb); lia
      | rewrite (sb_nets _ _ Hb); by apply (Hnets GATE) | |].
    { rewrite (recorded_on _ _ _ _ _ _ Hrec). unfold linksAt. rewrite K. cbn [netsOfDevice].
      rewrite Z.eqb_refl. simpl. by apply negb_true_iff, Z.eqb_neq. }
    destruct (linkSourceDrain_step d3 (addTo (fun _ => done) GATE id)) as (d' & E & B & R & H);
      [by etrans | done | by eapply recorded_rows | done | done | done | unfold linksAt; by rewrite K
      | by apply (Hnets SOURCE) | by apply (Hnets DRAIN) |].
    exists d'. split_and!; [| done | by etrans | by eapply links_ok_ext; [| exact H]; intros []].
    fold (linkGate g id) in E3. unfold mbind, M_bind. by rewrite E3.
  - destruct (linkSourceDrain_step d (addTo (fun _ => done) GATE id)) as (d' & E & B & R & H);
      [done | apply links_skip; [done |]; intros; apply Hoff; by right | done | done | done | done
      | unfold linksAt; by rewrite K | by apply (Hnets SOURCE) | by apply (Hnets DRAIN) |].
    exists d'. split_and!; [done | done | done | by eapply links_ok_ext; [| exact H]; intros []].
  - exists d. split_and!; [done | done | done |]. apply links_skip_all; [done |]. intros. apply Hoff. by right.
Qed.

Lemma linkDevice_step d :
  resolved -> deviceCount (netlist d0) <= Z.of_nat (length (deviceStatus_v d0)) ->
  same_base d0 d -> links_ok d (fun _ => done) ->
  exists d', linkDevice i dev id d = Ok (tt, d') /\ same_base d0 d' /\ links_ok d' (fun _ => done ++ [id]) /\
    recorded (netlist d') id ty nets /\
    (forall j ty' r, j <> id -> recorded (netlist d) j ty' r -> recorded (netlist d') j ty' r).
Proof.
  intros Hres Hstatus Hb Hl. pose proof (sb_devices _ _ Hb) as Ed. pose proof (lo_rows _ _ Hl) as Hrows.
  set (d2 := set_netlist (record id ty nets (netlist d)) d).
  assert (netlist d2 = record id ty nets (netlist d)) as En by apply netlist_set.
  destruct (placeDevice_step d2) as (d' & E & Hb' & Hr' & Hl'); [done | done | | by apply links_record | |].
  { etrans; [exact Hb | apply record_base]. }
  { rewrite En. apply record_recorded; [done | lia]. }
  exists d'. split_and!; [| done | done | |].
  - eapply record_run; [done | lia | | exact E]. by apply (reader_SetDeviceNets _ _ _ _ _ (proj1 Hres)).
  - eapply recorded_rows; [done |]. rewrite En. apply record_recorded; [done | lia].
  - intros j ty' r Hj Hr. eapply recorded_rows; [done |]. rewrite En. by apply recorded_other.
Qed.
End Device.

(** ** The whole pass *)

Abbreviation item := (Z * CInstance * CDevice)%type.

(** The devices in the order [LinkDevices] visits them, with their instances. *)
Definition instanceItems (x : CNetlist) (c : CCircuit) (k : Z) : list item :=
  match vlookup (instancePtr_v x) k with
  | Some i => if IsParallelInstance i then []
              else imap (fun n dev => (u32 (firstDeviceId i + Z.of_nat n), i, dev)) (devicePtr_v c)
  | None => []
  end.
Definition circuitItems (x : CNetlist) (c : CCircuit) : list item :=
  if linked c then concat (map (instanceItems x c) (instanceId_v c)) else [].
Definition linkItems (d : CCvcDb) : list item := concat (map (circuitItems (netlist d)) (circuits d)).
Definition itemId (p : item) : Z := p.1.1.
Definition linkOrder (d : CCvcDb) : list Z := map itemId (linkItems d).

(** What the passes before leave: the instances of the linked circuits exist,
    the devices have numbers of their own below [deviceCount], and their
    terminals resolve to nets. *)
Record netlist_ready (d : CCvcDb) : Prop := mkReady {
  nr_nets : 0 <= netCount (netlist d);
  nr_devices : 0 <= deviceCount (netlist d) <= UNKNOWN_DEVICE;
  nr_status : deviceCount (netlist d) <= Z.of_nat (length (deviceStatus_v d));
  nr_instances : Forall (fun c => linked c = true ->
    Forall (fun k => is_Some (vlookup (instancePtr_v (netlist d)) k)) (instanceId_v c)) (circuits d);
  nr_order : NoDup (linkOrder d);
  nr_items : Forall (fun p => 0 <= itemId p < deviceCount (netlist d) /\
    exists s g dr b, resolved d p.1.2 p.2 s g dr b) (linkItems d)
}.

(** A loop over [l] that handles the items of its elements in order. *)
Lemma forList_items {A} (P : list item -> CCvcDb -> Prop) (body : A -> DB unit) (items : A -> list item) all l :
  (forall a done d rest, a ∈ l -> all = done ++ items a ++ rest -> P done d ->
     exists d', body a d = Ok (tt, d') /\ P (done ++ items a) d') ->
  forall done d rest, all = done ++ concat (map items l) ++ rest -> P done d ->
    exists d', forList l body d = Ok (tt, d') /\ P (done ++ concat (map items l)) d'.
Proof.
  induction l as [| a l IH]; intros Hb done d rest Hall HP; simpl.
  { exists d. by rewrite app_nil_r. }
  simpl in Hall. rewrite <- app_assoc in Hall.
  destruct (Hb a done d (concat (map items l) ++ rest)) as (d1 & E1 & H1); [by left | done | done |].
  destruct (IH ltac:(intros; eapply Hb; [by right | done | done]) (done ++ items a) d1 rest) as (d2 & E2 & H2);
    [by rewrite Hall, <- !app_assoc | done |].
  exists d2. unfold mbind, M_bind. rewrite E1. split; [done |]. by rewrite app_assoc.
Qed.

Lemma linkDevicesFrom_items i k devs d :
  0 <= k ->
  linkDevicesFrom i k devs d =
  forList (imap (fun n dev => (u32 (firstDeviceId i + (k + Z.of_nat n)), i, dev)) devs)
    (fun p => linkDevice p.1.2 p.2 (itemId p)) d.
Proof.
  revert k d. induction devs as [| dev devs IH]; intros k d Hk; [done |].
  cbn [linkDevicesFrom imap forList itemId fst snd]. unfold mbind, M_bind.
  replace (firstDeviceId i + (k + Z.of_nat 0)) with (firstDeviceId i + k) by lia.
  destruct (linkDevice i dev (u32 (firstDeviceId i + k)) d) as [[[] d1] |]; [| done].
  rewrite IH by lia. f_equal. apply imap_ext. intros n dev' _. unfold compose.
  by replace (k + 1 + Z.of_nat n) with (k + Z.of_nat (S n)) by lia.
Qed.

Section Pass.
Context (d0 : CCvcDb) (Hready : netlist_ready d0).

Definition itemDone (x : CNetlist) (p : item) : Prop :=
  exists s g dr b, resolved d0 p.1.2 p.2 s g dr b /\ recorded x (itemId p) (modelType (model_p p.2)) (s, g, dr, b).

(** After the items [done]. *)
Definition progress (done : list item) (d : CCvcDb) : Prop :=
  same_base d0 d /\ links_ok d (fun _ => map itemId done) /\ Forall (itemDone (netlist d)) done.

Lemma link_item p done d rest :
  linkItems d0 = done ++ [p] ++ rest -> progress done d ->
  exists d', linkDevice p.1.2 p.2 (itemId p) d = Ok (tt, d') /\ progress (done ++ [p]) d'.
Proof.
  intros Hall (Hb & Hl & Hdone). destruct Hready as [_ Hdev Hst _ Hnd Hitems].
  unfold linkOrder in Hnd. rewrite Hall in Hnd, Hitems. rewrite !Forall_app, Forall_singleton in Hitems.
  destruct Hitems as (_ & (Hid & s & g & dr & b & Hres) & _).
  rewrite !map_app in Hnd. apply NoDup_app in Hnd as (_ & Hnd & _).
  assert (itemId p ∉ map itemId done) as Hfresh by (intros H; eapply Hnd; [exact H | by left]).
  destruct (linkDevice_step d0 p.1.2 p.2 (itemId p) s g dr b (map itemId done) Hid ltac:(lia) Hfresh d)
    as (d' & E & B & L & R & O); [done.. |].
  exists d'. split; [done |]. split_and!; [done | by rewrite map_app |].
  apply Forall_app. split; [| apply Forall_singleton; by exists s, g, dr, b].
  apply Forall_forall. intros q Hq. rewrite Forall_forall in Hdone.
  destruct (Hdone q Hq) as (s' & g' & dr' & b' & Hres' & Hrec'). exists s', g', dr', b'. split; [done |].
  apply O; [| done]. intros Heq. apply Hfresh. rewrite <- Heq. apply list_elem_of_In, in_map. by apply list_elem_of_In.
Qed.

Lemma link_instance c k done d rest :
  is_Some (vlookup (instancePtr_v (netlist d0)) k) ->
  linkItems d0 = done ++ instanceItems (netlist d0) c k ++ rest -> progress done d ->
  exists d', linkInstance c k d = Ok (tt, d') /\ progress (done ++ instanceItems (netlist d0) c k) d'.
Proof.
  intros [i Ei] Hall HP. unfold linkInstance, instanceItems in *. rewrite Ei in *.
  unfold mbind, M_bind, nlat, lift. rewrite (sb_instances _ _ (proj1 HP)).
  apply vget_Ok in Ei. rewrite Ei. destruct (IsParallelInstance i).
  { exists d. by rewrite app_nil_r. }
  rewrite linkDevicesFrom_items by lia. set (l := imap _ _).
  replace (imap _ (devicePtr_v c)) with l in *
    by (apply imap_ext; intros n dev _; simpl; repeat f_equal; lia).
  assert (forall l : list item, concat (map (fun p => [p]) l) = l) as Ec by (induction l0; simpl; congruence).
  rewrite <- (Ec l) in Hall. 
  destruct (forList_items progress (fun p => linkDevice p.1.2 p.2 (itemId p)) (fun p => [p]) (linkItems d0) l
    ltac:(intros; by eapply link_item) done d rest Hall HP) as (d' & E & H).
  exists d'. by rewrite Ec in H.
Qed.

Lemma link_all d :
  progress [] d ->
  exists d', forList (circuits d0) (fun c => if linked c then forList (instanceId_v c) (linkInstance c) else mret tt) d
    = Ok (tt, d') /\ progress (linkItems d0) d'.
Proof.
  intros HP. apply (forList_items progress _ (circuitItems (netlist d0)) (linkItems d0)) with (done := []) (rest := []);
    [| by rewrite app_nil_r | done].
  clear d HP. intros c done d rest Hc Hall HP. unfold circuitItems in *.
  destruct (linked c) eqn:El; [| exists d; by rewrite app_nil_r].
  eapply forList_items; [| exact Hall | done].
  clear done d rest Hall HP. intros k done d rest Hk Hall HP. eapply link_instance; [| exact Hall | done].
  destruct Hready as [_ _ _ Hi _ _]. rewrite Forall_forall in Hi. specialize (Hi c Hc El).
  rewrite Forall_forall in Hi. auto.
Qed.
End Pass.

(** ** The lists of devices *)

Lemma lookup_replicate {A} (n : Z) (v : A) i : 0 <= i < n -> vlookup (replicate (Z.to_nat n) v) i = Some v.
Proof.
  intros Hi. unfold vlookup. rewrite (proj2 (in_range_spec _ _)) by (rewrite length_replicate; lia).
  apply lookup_replicate_2. lia.
Qed.

Lemma resetLinks_run d :
  netlist_ready d -> exists d1, resetLinks d = Ok (tt, d1) /\ circuits d1 = circuits d /\ progress d [] d1.
Proof.
  intros [Hn [Hd _] _ _ _ _]. eexists. split; [done |]. destruct d as [? x ? ? ? ? ? ? ? ? ? ? ? ? ? ? ? ? ? ? ? ?].
  split; [done |]. split_and!; [done | | done]. cbn in Hn, Hd. split.
  - assert (forall A (v : A), Z.of_nat (length (replicate (Z.to_nat (deviceCount x)) v)) = deviceCount x) as Hlen
      by (intros; rewrite length_replicate; lia).
    split; [apply Hlen | intros []; exact (Hlen Z UNKNOWN_NET)].
  - intros t n Ht Hr. exists UNKNOWN_DEVICE. split; [| constructor].
    destruct t; try done; by apply lookup_replicate.
  - intros t i Ht Hr _. destruct t; try done; by apply lookup_replicate.
  - intros n Hr. exists (mkConnectionCount 0 0 0 0). split; [| by intros []].
    by apply lookup_replicate.
Qed.

Lemma attached_NoDup x D t n : NoDup D -> NoDup (attached x D t n).
Proof.
  intros H. unfold attached. apply NoDup_ListNoDup, List.NoDup_rev, List.NoDup_filter. by apply NoDup_ListNoDup.
Qed.

Lemma LinkDevices_run d :
  netlist_ready d -> exists d', LinkDevices d = Ok (tt, d') /\ progress d (linkItems d) d'.
Proof.
  intros Hr. destruct (resetLinks_run d Hr) as (d1 & E1 & Ec & HP).
  destruct (link_all d Hr d1 HP) as (d' & E & H). exists d'. split; [| done].
  unfold LinkDevices, mbind, M_bind, gets. by rewrite E1, Ec.
Qed.

(** C9: [LinkDevices] succeeds on a flattened netlist, and the lists it leaves
    are right: for every net and every linked terminal (source, gate, drain) the
    chain of [first] and [next] links is exactly the devices with that terminal
    on the net whose source and drain differ, each once, the last linked first;
    the connection counts are the lengths of these lists; and every device has
    the type of its model and the nets [SetDeviceNets] resolves. *)
Theorem LinkDevices_lists d :
  netlist_ready d ->
  exists d', LinkDevices d = Ok (tt, d') /\
    (forall t n, t <> BULK -> 0 <= n < netCount (netlist d) ->
      let l := attached (netlist d') (linkOrder d) t n in
      devicesOf (firstAt t (netlist d')) (nextAt t (netlist d')) n l /\ NoDup l /\
      exists k, vlookup (connectionCount_v d') n = Some k /\ countAt t k = u32 (Z.of_nat (length l))) /\
    (forall id i dev, (id, i, dev) ∈ linkItems d -> exists s g dr b,
      SetDeviceNets i dev d = Ok ((s, g, dr, b), d) /\
      recorded (netlist d') id (modelType (model_p dev)) (s, g, dr, b)).
Proof.
  intros Hr. destruct (LinkDevices_run d Hr) as (d' & E & Hb & Hl & Hdone). exists d'. split; [done |].
  pose proof (sb_nets _ _ Hb) as En. split.
  - intros t n Ht Hn l. destruct (lo_counts _ _ Hl n ltac:(lia)) as (k & Ek & Hk).
    split_and!; [apply (lo_lists _ _ Hl); [done | lia] | apply attached_NoDup, Hr | by exists k; auto].
  - intros id i dev Hin. rewrite Forall_forall in Hdone.
    destruct (Hdone _ Hin) as (s & g & dr & b & [Hres _] & Hrec). by exists s, g, dr, b.
Qed.

(** C10: the loops over attached devices do not depend on the links: after
    [LinkDevices], a loop over the devices of a net (the code's [for] over
    [first] and [next]) whose body leaves the netlist alone is the loop over the
    list of devices that have the terminal on the net, whatever the body does
    with the rest of the state. *)
Theorem LinkDevices_walks {A R} d d' t n (a : A) (body : A -> Z -> DB (A + R)) d1 :
  netlist_ready d -> LinkDevices d = Ok (tt, d') -> t <> BULK -> 0 <= n < netCount (netlist d) ->
  (forall a i, keepsLinks (body a i)) -> netlist d1 = netlist d' ->
  overDevicesWith (firstAt t) (nextAt t) n a body d1 = overList (attached (netlist d') (linkOrder d) t n) body a d1.
Proof.
  intros Hr E Ht Hn Hk En. destruct (LinkDevices_run d Hr) as (d2 & E2 & Hb & Hl & _).
  rewrite E in E2. injection E2 as <-.
  apply overDevicesWith_list; [done | | apply attached_NoDup, Hr].
  rewrite En. apply (lo_lists _ _ Hl); [done |]. rewrite (sb_nets _ _ Hb). lia.
Qed.

(** ** The example circuit *)

Lemma exampleDb_ready : netlist_ready ExampleDb.exampleDb.
Proof.
  constructor; try (vm_compute; split; congruence); try (vm_compute; congruence).
  - apply Forall_singleton. intros _. apply Forall_singleton. by eexists.
  - apply (bool_decide_unpack _). vm_compute. exact I.
  - let l := eval vm_compute in (linkItems ExampleDb.exampleDb) in change (linkItems ExampleDb.exampleDb) with l.
    repeat (apply Forall_cons; split; [split; [vm_compute; split; congruence |] |]); [.. | apply Forall_nil_2].
    all: eexists _, _, _, _; split; [vm_compute; reflexivity |].
    all: intros _ []; vm_compute; (discriminate || (intros _; split; congruence)).
Qed.

Lemma LinkDevices_lists_witness :
  exists d', LinkDevices ExampleDb.exampleDb = Ok (tt, d') /\
    devicesOf (firstSource_v (netlist d')) (nextSource_v (netlist d')) 0 [2; 1] /\
    devicesOf (firstDrain_v (netlist d')) (nextDrain_v (netlist d')) 3 [1; 0].
Proof.
  destruct (LinkDevices_lists ExampleDb.exampleDb exampleDb_ready) as (d' & E & H & _).
  exists d'. split; [exact E |].
  pose proof (H SOURCE 0 ltac:(discriminate) ltac:(vm_compute; split; congruence)) as [H0 _].
  pose proof (H DRAIN 3 ltac:(discriminate) ltac:(vm_compute; split; congruence)) as [H3 _].
  vm_compute in E. injection E as <-. split; [exact H0 | exact H3].
Defined.

Lemma LinkDevices_walks_witness :
  exists d', LinkDevices ExampleDb.exampleDb = Ok (tt, d') /\
    overDevicesWith (R := unit) firstSource_v nextSource_v 0 0 (fun count _ => mret (inl (count + 1))) d'
    = Ok (inl 2, d').
Proof.
  destruct (LinkDevices_run ExampleDb.exampleDb exampleDb_ready) as (d' & E & _).
  exists d'. split; [exact E |].
  rewrite (LinkDevices_walks ExampleDb.exampleDb d' SOURCE 0 0 (fun count _ => mret (inl (count + 1))) d');
    [| exact exampleDb_ready | exact E | discriminate | vm_compute; split; congruence | | reflexivity].
  - vm_compute in E. injection E as <-. vm_compute. reflexivity.
  - intros a i d r d1 [_ ->]%mret_inv. reflexivity.
Defined.

End Links.
