(* ===== verification/Short.v ===== *)
(** * Shorted nets (CCvcDb.cc, first part)

    What happens to a device whose source and drain both have a voltage: the
    report of shorts and leaks, the rerouting of virtual nets, and the two
    elementary [ShortNets] operations that attach a net to another. *)

From S2P Require Import Prelude CvcTypes EventQueue VirtualNet Numeric Power Db Connection.
From stdpp Require Import base list strings gmap sets.
From Stdlib Require Import ZArith Lia Floats.SpecFloat.
#[local] Open Scope Z_scope.

Module Short.
Import EventQueue.EventQueue VirtualNet.VirtualNet Power.Power Numeric.Numeric Db.Db
  Connection.Connection.

Definition param {A} (f : CCvcParameters -> A) : DB A := gets (fun d => f (cvcParameters d)).

Definition IsRelatedM (a : option Z) (test : option Z) (q qt : eventQueue_t)
    (theDefault theIsHiZRelative : bool) : DB bool :=
  match a with
  | None => raise UndefinedBehaviour
  | Some a => fun d => lift (IsRelatedPower (powers d) (netVoltagePtr_v d) (netsOf q d) (netsOf qt d)
                               a test theDefault theIsHiZRelative) d
  end.

Lemma IsRelatedM_state a test q qt x y d b d' : IsRelatedM a test q qt x y d = Ok (b, d') -> d' = d.
Proof. unfold IsRelatedM. destruct a; [| done]. by intros [_ ->]%lift_inv. Qed.

(** ** Reports *)

Definition ReportSimShort (theDeviceId theMainVoltage theShortVoltage : Z) : DB unit :=
  c ← MapFullDeviceNets theDeviceId;
  threshold ← param cvcShortErrorThreshold;
  let myDifference := Z.abs (theMainVoltage - theShortVoltage) in
  when (negb (myDifference =? Z.abs (fVth c)) && (threshold <? myDifference))
    (countAndReport theDeviceId LEAK).

(** [p->type[HIZ_BIT] && p->IsRelatedPower(other, simNet_v, simNet_v, false)]. *)
Definition expectedLeak (p other : option Z) : DB bool :=
  x ← arrow p;
  if typeBit x HIZ_BIT then IsRelatedM p other SIM_QUEUE SIM_QUEUE false false else mret false.

Definition ReportShort (theDeviceId : Z) : DB unit :=
  c ← MapFullDeviceNets theDeviceId;
  let sp := power_p (atSource (fSim c)) in let dp := power_p (atDrain (fSim c)) in
  let S := voltage (atSource (fSim c)) in let D := voltage (atDrain (fSim c)) in
  let G := voltage (atGate (fSim c)) in
  let myMaxVoltage := Z.max S D in let myMinVoltage := Z.min S D in
  a ← expectedLeak sp dp;
  if (a : bool) then mret tt
  else
    b ← expectedLeak dp sp;
    if (b : bool) then mret tt
    else
      ty ← nlat deviceType_v theDeviceId;
      let unknown := negb (IsKnownVoltage_ myMaxVoltage && IsKnownVoltage_ myMinVoltage) in
      let myVthFlag := negb unknown &&
        ((IsNmos_ ty && (G - myMinVoltage =? fVth c)) || (IsPmos_ ty && (G - myMaxVoltage =? fVth c))) in
      myLeakCurrent ← (if unknown then mret (S754_zero false) else EstimatedCurrentVth c myVthFlag);
      threshold ← param cvcShortErrorThreshold;
      limit ← param cvcLeakLimit;
      myUnrelatedFlag ←
        (if threshold =? 0 then
           r ← IsRelatedM sp dp SIM_QUEUE SIM_QUEUE true false; mret (negb r)
         else mret false);
      sx ← arrow sp;
      dx ← arrow dp;
      let myReport :=
        ((threshold <? myMaxVoltage - myMinVoltage) && ExceedsLeakLimit_ myLeakCurrent limit)
        || (myUnrelatedFlag : bool)
        || (negb (myMaxVoltage =? myMinVoltage) && negb myVthFlag &&
            ((IsExternalPower_ sx && IsExternalPower_ dx && (threshold =? 0))
             || flagAllShorts sx || flagAllShorts dx)) in
      when myReport (countAndReport theDeviceId LEAK).

(** ** Rerouting *)

Definition CheckConnectionReroute (q : eventQueue_t) (c : CConnection) (theDirection : shortDirection_t)
    : DB bool :=
  let '(slave, mastr, myDrainResistance) :=
    match theDirection with
    | DRAIN_TO_MASTER_SOURCE => (drainId c, sourceId c, finalResistance (masterDrainNet c))
    | SOURCE_TO_MASTER_DRAIN => (sourceId c, drainId c, finalResistance (masterSourceNet c))
    end in
  n ← netM q slave;
  let myNextDrainNet := nextNetId n in
  mySourcePower_p ← powerAt mastr;
  myNextDrainPower_p ← powerAt myNextDrainNet;
  t ← isTerminalM q myNextDrainNet;
  if negb t then mret true
  else
    nd ← arrow myNextDrainPower_p;
    sp ← arrow mySourcePower_p;
    bit ← gets (fun d => calculatedBit (netsOf q d));
    mret (if typeBit nd POWER_BIT then
            typeBit sp POWER_BIT && (connResistance c <? myDrainResistance)
          else if typeBit sp POWER_BIT then true
          else typeBit nd bit && negb (typeBit sp bit)).

Definition IsPriorityDevice (q : eventQueue_t) (theModel : modelType_t) : bool :=
  match q with MIN_QUEUE => IsNmos_ theModel | MAX_QUEUE => IsPmos_ theModel | SIM_QUEUE => true end.

(** [LastNmosConnection] and [LastPmosConnection]: at most one device of the
    class attached to the net is pending. *)
Definition lastConnection (class : modelType_t -> bool) (thePendingBit : deviceStatus_t) (theNetId : Z)
    : DB bool :=
  let body (myConnectionCount : Z) device_it : DB (Z + bool) :=
    ty ← nlat deviceType_v device_it;
    b ← (if class ty then getDeviceBit device_it thePendingBit else mret false);
    if (b : bool) then
      if 1 <? myConnectionCount + 1 then mret (inr false) else mret (inl (myConnectionCount + 1))
    else mret (inl myConnectionCount) in
  r ← overDevicesWith firstSource_v nextSource_v theNetId 0 body;
  match r with
  | inr b => mret b
  | inl n =>
      r ← overDevicesWith firstDrain_v nextDrain_v theNetId n body;
      mret (match r with inr b => b | inl n => n <? 2 end)
  end.

Definition LastNmosConnection := lastConnection IsNmos_.
Definition LastPmosConnection := lastConnection IsPmos_.

(** [PropagateConnectionType]: the counter ends the walk in a failing
    assertion after 10001 nets. *)
Fixpoint connectionTypeLoop (fuel : nat) (q : eventQueue_t) (theSourceDrainType myCount theNetId : Z)
    : DB unit :=
  match fuel with
  | O => raise OutOfFuel
  | S fuel =>
      n ← netM q theNetId;
      if theNetId =? nextNetId n then mret tt
      else
        c ← at_ connectionCount_v theNetId;
        let myNewStatus := Z.lor (sourceDrainType c) theSourceDrainType in
        if myNewStatus =? sourceDrainType c then mret tt
        else
          _ ← modify (fun d => set_connectionCount_v
                (vupdate (connectionCount_v d) theNetId (set_sourceDrainType myNewStatus c)) d);
          if 10000 <? myCount then raise AssertionFailed
          else connectionTypeLoop fuel q theSourceDrainType (myCount + 1) (nextNetId n)
  end.

Definition connectionTypeFuel : nat := Z.to_nat 10003.

Definition PropagateConnectionType (q : eventQueue_t) (theSourceDrainType theNetId : Z) : DB unit :=
  connectionTypeLoop connectionTypeFuel q theSourceDrainType 0 theNetId.

(** [ShortNets(queue, device, connections, direction)]. *)
Definition ShortNets (q : eventQueue_t) (theDeviceId : Z) (c : CConnection)
    (theDirection : shortDirection_t) : DB unit :=
  let '(slave, mastr) :=
    match theDirection with
    | DRAIN_TO_MASTER_SOURCE => (drainId c, sourceId c)
    | SOURCE_TO_MASTER_DRAIN => (sourceId c, drainId c)
    end in
  r ← resistanceOfText (parameters (device_p c));
  t ← lastUpdateM q;
  _ ← setNetM q slave mastr r t;
  ty ← nlat deviceType_v theDeviceId;
  _ ← when (bool_decide (ty = RESISTOR))
        (cc ← at_ connectionCount_v slave;
         PropagateConnectionType q (sourceDrainType cc) mastr);
  b ← gets (fun d => inactiveBit (queueOf q d));
  setDeviceBit theDeviceId b true.

(** [ShiftVirtualNets]: while the new end is nearer, turn the hops of the old
    path around.  The counter aborts after 10001 shifts. *)
Fixpoint shiftLoop (fuel : nat) (q : eventQueue_t) (myShiftCount theNewNetId : Z)
    (theLast : CVirtualNet) (theSourceResistance theDrainResistance : Z) : DB unit :=
  match fuel with
  | O => raise OutOfFuel
  | S fuel =>
      if theSourceResistance + resistance theLast <? theDrainResistance - resistance theLast then
        if 10000 <? myShiftCount then raise AssertionFailed
        else
          _ ← assertM (theSourceResistance + resistance theLast <? MAX_RESISTANCE);
          _ ← assertM (resistance theLast <=? theDrainResistance);
          let theSourceResistance := u32 (theSourceResistance + resistance theLast) in
          let theDrainResistance := u32 (theDrainResistance - resistance theLast) in
          let myNetId := nextNetId theLast in
          let myNewResistance := resistance theLast in
          theLast ← accessM q myNetId;
          t ← tickLastUpdate q;
          _ ← setNetM q myNetId theNewNetId myNewResistance t;
          shiftLoop fuel q (myShiftCount + 1) myNetId theLast theSourceResistance theDrainResistance
      else mret tt
  end.

Definition shiftFuel : nat := Z.to_nat 10003.

Definition ShiftVirtualNets (q : eventQueue_t) (theNewNetId : Z) (theLast : CVirtualNet)
    (theSourceResistance theDrainResistance : Z) : DB unit :=
  shiftLoop shiftFuel q 0 theNewNetId theLast theSourceResistance theDrainResistance.

(** ** Already shorted *)

(** One of the four blocks that settle an estimated connection: [target] needs
    a connection and [other] is a verified net with a known voltage.  The
    bounds are turned around for the max queue. *)
Definition settleConnection (q : eventQueue_t) (theDeviceId : Z) (c : CConnection)
    (target other targetVoltage otherVoltage : Z) (otherPower_p : option Z) (otherFinal : Z)
    : DB unit :=
  let '(bit, pull, last, pending, class) :=
    match q with
    | MIN_QUEUE => (NEEDS_MIN_CONNECTION, set_pullDown, LastNmosConnection, MIN_PENDING, IsNmos_)
    | _ => (NEEDS_MAX_CONNECTION, set_pullUp, LastPmosConnection, MAX_PENDING, IsPmos_)
    end in
  let beyond := match q with
                | MIN_QUEUE => otherVoltage <? targetVoltage
                | _ => targetVoltage <? otherVoltage
                end in
  needs ← getNetBit target bit;
  ok ← (if needs && IsKnownVoltage_ otherVoltage then IsVerifiedPower otherFinal else mret false);
  if negb ok then mret tt
  else
    myLimit ← (match q with MIN_QUEUE => MaxVoltage target false | _ => MinVoltage target false end);
    myPower_p ← powerAt target;
    _ ← assertM (match myPower_p with Some _ => true | None => false end);
    leak ← gets leakVoltageSet;
    hiz ← (if beyond && leak then p ← arrow otherPower_p; mret (typeBit p HIZ_BIT) else mret false);
    otherNeeds ← getNetBit other bit;
    if beyond && negb hiz then
      _ ← updateM myPower_p (pull otherVoltage);
      setNetBit target bit false
    else if (targetVoltage =? otherVoltage) && (otherVoltage =? myLimit) && negb otherNeeds then
      _ ← updateM myPower_p (pull otherVoltage);
      setNetBit target bit false
    else if negb leak then
      ty ← nlat deviceType_v theDeviceId;
      l ← (if class ty then last pending target else mret false);
      if (l : bool) || IsResistor (device_p c) then
        _ ← updateM myPower_p (pull otherVoltage);
        t ← tickLastUpdate q;
        _ ← setNetM q target other (connResistance c) t;
        when beyond (setNetBit target bit false)
      else mret tt
    else mret tt.

(** The branch of [AlreadyShorted] for nets that end in the same net. *)
Definition rerouteShorted (q : eventQueue_t) (theDeviceId : Z) (c : CConnection) : DB unit :=
  ty ← nlat deviceType_v (deviceId c);
  if negb (IsPriorityDevice q ty) then mret tt
  else
    leak ← gets leakVoltageSet;
    td ← isTerminalM q (drainId c);
    ts ← isTerminalM q (sourceId c);
    let rs := finalResistance (masterSourceNet c) in
    let rd := finalResistance (masterDrainNet c) in
    let r := connResistance c in
    if (leak : bool) then
      a ← (if negb td && (ts : bool) then CheckConnectionReroute q c DRAIN_TO_MASTER_SOURCE else mret false);
      if (a : bool) then
        _ ← tickLastUpdate q; ShortNets q theDeviceId c DRAIN_TO_MASTER_SOURCE
      else
        b ← (if negb ts && (td : bool) then CheckConnectionReroute q c SOURCE_TO_MASTER_DRAIN else mret false);
        if (b : bool) then
          _ ← tickLastUpdate q; ShortNets q theDeviceId c SOURCE_TO_MASTER_DRAIN
        else mret tt
    else if negb td && ((ts : bool) || (u32 (rs + r) <? rd)) then
      myLast ← netM q (drainId c);
      _ ← tickLastUpdate q;
      _ ← ShortNets q theDeviceId c DRAIN_TO_MASTER_SOURCE;
      ShiftVirtualNets q (drainId c) myLast (u32 (rs + r)) rd
    else if negb ts && ((td : bool) || (u32 (rd + r) <? rs)) then
      myLast ← netM q (sourceId c);
      _ ← tickLastUpdate q;
      _ ← ShortNets q theDeviceId c SOURCE_TO_MASTER_DRAIN;
      ShiftVirtualNets q (sourceId c) myLast (u32 (rd + r)) rs
    else mret tt.

(** An open power whose permitted family is the other power's signal. *)
Definition permittedLeak (p other : option Z) : DB bool :=
  x ← arrow p;
  if typeBit x HIZ_BIT && relativeFriendly x then
    y ← arrow other; mret (bool_decide (family x = powerSignal y))
  else mret false.

(** The simulation queue reports the short; [true] when the function returns
    without marking the device inactive. *)
Definition simShorted (theDeviceId : Z) (c : CConnection) : DB bool :=
  ty ← nlat deviceType_v theDeviceId;
  if bool_decide (ty = FUSE_OFF) then mret false
  else
    a ← permittedLeak (sourcePower_p c) (drainPower_p c);
    if (a : bool) then mret true
    else
      b ← permittedLeak (drainPower_p c) (sourcePower_p c);
      if (b : bool) then mret true
      else _ ← ReportShort theDeviceId; mret false.

Definition AlreadyShorted (q : eventQueue_t) (theDeviceId : Z) (c : CConnection) : DB unit :=
  myReturn ←
    (if finalNetId (masterSourceNet c) =? finalNetId (masterDrainNet c) then
       _ ← rerouteShorted q theDeviceId c; mret false
     else
       match q with
       | SIM_QUEUE => simShorted theDeviceId c
       | _ =>
           _ ← settleConnection q theDeviceId c (sourceId c) (drainId c) (sourceVoltage c)
                 (drainVoltage c) (drainPower_p c) (finalNetId (masterDrainNet c));
           _ ← settleConnection q theDeviceId c (drainId c) (sourceId c) (drainVoltage c)
                 (sourceVoltage c) (sourcePower_p c) (finalNetId (masterSourceNet c));
           s ← arrow (sourcePower_p c);
           dr ← arrow (drainPower_p c);
           _ ← when (negb (bool_decide (family s = family dr)))
                 (queueM q (fun x => Ok (tt, AddLeak x theDeviceId (powerId s) (powerId dr))));
           mret false
       end);
  if (myReturn : bool) then mret tt
  else
    b ← gets (fun d => inactiveBit (queueOf q d));
    setDeviceBit theDeviceId b true.

End Short.
