(* ===== verification/Enqueue.v ===== *)
(** * Event keys and enqueueing (CCvcDb.cc, second part)

    When a net gets a voltage, the devices attached to it are enqueued with an
    event key: the voltage, adjusted by the threshold of the transistor, and a
    queue position.  Off transistors and already shorted devices are skipped;
    [VoltageConflict] settles devices whose two sides are known. *)

From S2P Require Import Prelude CvcTypes EventQueue VirtualNet Numeric Power Db ExampleDb Connection Short.
From stdpp Require Import base list strings gmap sets.
From Stdlib Require Import ZArith Lia Floats.SpecFloat.
#[local] Open Scope Z_scope.

Module Enqueue.
Import EventQueue.EventQueue VirtualNet.VirtualNet Power.Power Numeric.Numeric Db.Db
  Connection.Connection Short.Short.

(** ** Off transistors *)

Definition TopologicallyOffMos (q : eventQueue_t) (t : modelType_t) (c : CConnection) : bool :=
  let g := gateId c in
  let choose (whenDrainUnknown whenSourceUnknown : bool) :=
    if drainVoltage c =? UNKNOWN_VOLTAGE then whenDrainUnknown
    else if sourceVoltage c =? UNKNOWN_VOLTAGE then whenSourceUnknown else false in
  match q with
  | MAX_QUEUE =>
      if IsPmos_ t then choose (g =? sourceId c) (g =? drainId c)
      else if IsNmos_ t then choose (g =? drainId c) (g =? sourceId c) else false
  | MIN_QUEUE =>
      if IsNmos_ t then choose (g =? sourceId c) (g =? drainId c)
      else if IsPmos_ t then choose (g =? drainId c) (g =? sourceId c) else false
  | SIM_QUEUE => false
  end.

(** The simulation queue part of [IsOffMos], for a PMOS or an NMOS: unknown
    levels are replaced by the limits that keep the transistor on longest. *)
Definition simOffMos (pmos : bool) (c : CConnection) : DB bool :=
  myGate ← (if gateVoltage c =? UNKNOWN_VOLTAGE
            then (if pmos then MinVoltage (gateId c) false else MaxVoltage (gateId c) false)
            else mret (gateVoltage c));
  mySource ← (if sourceVoltage c =? UNKNOWN_VOLTAGE
              then (if pmos then MaxLeakVoltage (sourceId c) else MinLeakVoltage (sourceId c))
              else mret (sourceVoltage c));
  myDrain ← (if drainVoltage c =? UNKNOWN_VOLTAGE
             then (if pmos then MaxLeakVoltage (drainId c) else MinLeakVoltage (drainId c))
             else mret (drainVoltage c));
  if negb (IsKnownVoltage_ myGate && IsKnownVoltage_ mySource && IsKnownVoltage_ myDrain)
  then mret false
  else
    let off v := if pmos then v + VthOf c <? myGate else myGate <? v + VthOf c in
    let mySourceOff := off mySource in
    let myDrainOff := off myDrain in
    let q := if pmos then MAX_QUEUE else MIN_QUEUE in
    a ← (if (sourceVoltage c =? UNKNOWN_VOLTAGE) && myDrainOff && negb mySourceOff
         then n ← netM q (sourceId c); mret (nextNetId n =? drainId c) else mret false);
    if (a : bool) then mret true
    else
      b ← (if (drainVoltage c =? UNKNOWN_VOLTAGE) && negb myDrainOff && mySourceOff
           then n ← netM q (drainId c); mret (nextNetId n =? sourceId c) else mret false);
      if (b : bool) then mret true
      else mret (mySourceOff && myDrainOff).

Definition IsOffMos (q : eventQueue_t) (theDeviceId : Z) (c : CConnection) (theVoltage : Z)
    : DB bool :=
  t ← nlat deviceType_v theDeviceId;
  if TopologicallyOffMos q t c then mret true
  else
    a ← (if (sourceVoltage c =? theVoltage) || (drainVoltage c =? theVoltage) then
           match q with
           | MAX_QUEUE =>
               if IsPmos_ t then
                 g ← MinVoltage (gateId c) false;
                 mret (IsKnownVoltage_ g && (theVoltage + VthOf c <? g))
               else mret false
           | MIN_QUEUE =>
               if IsNmos_ t then
                 g ← MaxVoltage (gateId c) false;
                 mret (IsKnownVoltage_ g && (g <? theVoltage + VthOf c))
               else mret false
           | SIM_QUEUE => mret false
           end
         else mret false);
    if (a : bool) then mret true
    else
      match q with
      | SIM_QUEUE =>
          if IsPmos_ t then simOffMos true c
          else if IsNmos_ t then simOffMos false c else mret false
      | _ => mret false
      end.

(** A conflict through an off transistor settles an estimated connection. *)
Definition offConflict (q : eventQueue_t) (c : CConnection) : DB unit :=
  let settle bit (sourceWins drainWins : bool) : DB unit :=
    s ← getNetBit (sourceId c) bit;
    if s && sourceWins then setNetBit (sourceId c) bit false
    else
      dr ← getNetBit (drainId c) bit;
      when (dr && drainWins) (setNetBit (drainId c) bit false) in
  match q with
  | MIN_QUEUE => settle NEEDS_MIN_CONNECTION (drainVoltage c <? sourceVoltage c)
                   (sourceVoltage c <? drainVoltage c)
  | MAX_QUEUE => settle NEEDS_MAX_CONNECTION (sourceVoltage c <? drainVoltage c)
                   (drainVoltage c <? sourceVoltage c)
  | SIM_QUEUE => mret tt
  end.

(** [IsIrrelevant] without the [VoltageConflict] test, which is all of it when
    the device is being enqueued. *)
Definition isIrrelevantGuards (q : eventQueue_t) (theDeviceId : Z) (c : CConnection) (theVoltage : Z)
    (theQueueStatus : queueStatus_t) : DB bool :=
  if eqVirtualNet (masterSourceNet c) (masterDrainNet c) then mret true
  else if bool_decide (theQueueStatus = ENQUEUE) && negb (bool_decide (q = SIM_QUEUE)) then mret false
  else
    off ← IsOffMos q theDeviceId c theVoltage;
    leak ← gets leakVoltageSet;
    if negb off then mret false
    else if (leak : bool) then mret true
    else if negb (sourceVoltage c =? UNKNOWN_VOLTAGE) && negb (drainVoltage c =? UNKNOWN_VOLTAGE) then
      _ ← offConflict q c; mret true
    else
      let myTargetNet := if sourceVoltage c =? UNKNOWN_VOLTAGE then sourceId c else drainId c in
      t ← nlat deviceType_v theDeviceId;
      n ← gets (fun d => dequeueCount (queueOf q d));
      match q with
      | MIN_QUEUE =>
          if IsNmos_ t then
            if 0 <? n then l ← LastNmosConnection MIN_PENDING myTargetNet; mret (negb l)
            else mret false
          else mret true
      | MAX_QUEUE =>
          if IsPmos_ t then
            if 0 <? n then l ← LastPmosConnection MAX_PENDING myTargetNet; mret (negb l)
            else mret false
          else mret true
      | SIM_QUEUE => mret true
      end.

(** ** Event keys *)

(** The adjustments return the text of the calculation, the new key and the
    new queue position. *)
Definition adjustment : Type := string * Z * queuePosition_t.

(** [AdjustMaxPmosKey] and [AdjustMinNmosKey]: the transistor that passes the
    level; [against] is the class that fights it. *)
Definition AdjustMaxPmosKey (c : CConnection) (theDrainId theMaxSource theEventKey : Z)
    (pos : queuePosition_t) : DB adjustment :=
  if gateId c =? theDrainId then
    mret (if VthOf c <? 0
          then ((" PMOS Vth drop " +:+ PrintParameter theEventKey +:+ PrintParameter (VthOf c))%string,
                s32 (theEventKey + VthOf c), MOS_DIODE)
          else (EmptyString, theEventKey, MOS_DIODE))
  else
    n ← at_ connectionCount_v theDrainId;
    let pos := if status_get (sourceDrainType n) (modelBit NMOS) then DELAY_FRONT else pos in
    let pos := if (bulkVoltage c =? UNKNOWN_VOLTAGE) || (bulkVoltage c <? theMaxSource)
               then DELAY_BACK else pos in
    mret (EmptyString, theEventKey, pos).

Definition AdjustMinNmosKey (c : CConnection) (theDrainId theMinSource theEventKey : Z)
    (pos : queuePosition_t) : DB adjustment :=
  if gateId c =? theDrainId then
    mret (if 0 <? VthOf c
          then ((" NMOS Vth drop " +:+ PrintParameter theEventKey +:+ "+" +:+ PrintParameter (VthOf c))%string,
                s32 (theEventKey + VthOf c), MOS_DIODE)
          else (EmptyString, theEventKey, MOS_DIODE))
  else
    n ← at_ connectionCount_v theDrainId;
    let pos := if status_get (sourceDrainType n) (modelBit PMOS) then DELAY_FRONT else pos in
    let pos := if (bulkVoltage c =? UNKNOWN_VOLTAGE) || (theMinSource <? bulkVoltage c)
               then DELAY_BACK else pos in
    mret (EmptyString, theEventKey, pos).

(** The warning about an unknown gate, once per device of a circuit. *)
Definition warnUnknownGate (c : CConnection) (theWarningFlag : bool) : DB unit :=
  if negb theWarningFlag then mret tt
  else
    a ← IsOneConnectionNet (sourceId c);
    b ← (if (a : bool) then mret true else IsOneConnectionNet (drainId c));
    if (b : bool) then mret tt
    else
      parent ← nlat deviceParent_v (deviceId c);
      i ← nlat instancePtr_v parent;
      m ← at_ circuits (master_p i);
      dev ← deviceOf (deviceId c);
      let myUnknownKey := (circuitName m +:+ "/" +:+ deviceName dev)%string in
      s ← gets unknownGateSet;
      if bool_decide (myUnknownKey ∈ s) then mret tt
      else
        _ ← reportM (Warning (gateId c));
        modify (fun d => set_unknownGateSet ({[myUnknownKey]} ∪ s) d).

(** The gate voltage of the loss: the simulated one is not used on the first
    pass. *)
Definition gateLevel (up : bool) (c : CConnection) (theSimGate : Z) : DB Z :=
  fixed ← gets isFixedSimNet;
  if negb fixed || (theSimGate =? UNKNOWN_VOLTAGE)
  then (if up then MinVoltage (gateId c) false else MaxVoltage (gateId c) false)
  else mret theSimGate.

(** [AdjustMaxNmosKey] ([up] false) and [AdjustMinPmosKey] ([up] true): the
    transistor that loses a threshold. *)
Definition adjustLossKey (up : bool) (c : CConnection) (theSimGate theSource theEventKey : Z)
    (theWarningFlag : bool) : DB adjustment :=
  myGateVoltage ← gateLevel up c theSimGate;
  let vth := VthOf c in
  let name := if up then "PMOS"%string else "NMOS"%string in
  let step := if up then ("+" +:+ PrintParameter (- vth))%string
              else ("-" +:+ PrintParameter vth)%string in
  if myGateVoltage =? UNKNOWN_VOLTAGE then
    n ← at_ connectionCount_v (gateId c);
    if SourceDrainCount n =? 0 then
      _ ← warnUnknownGate c theWarningFlag;
      mret (if (if up then vth <? 0 else 0 <? vth)
            then ((" " +:+ name +:+ " Vth drop " +:+ PrintParameter theEventKey +:+ step)%string,
                  s32 (theEventKey - vth), DELAY_BACK)
            else (EmptyString, theEventKey, DELAY_BACK))
    else mret (EmptyString, theEventKey, SKIP_QUEUE)
  else
    let limit := myGateVoltage - vth in
    if (if up then theSource <=? limit else limit <=? theSource) then
      mret ((" " +:+ name +:+ " gate limited " +:+ PrintParameter myGateVoltage +:+ step)%string,
            limit, DELAY_BACK)
    else if negb (theEventKey =? theSource) then
      mret ((" " +:+ name +:+ " limited to source " +:+ PrintParameter theSource)%string,
            theSource, DELAY_BACK)
    else mret (EmptyString, theEventKey, DELAY_BACK).

Definition AdjustMaxNmosKey := adjustLossKey false.
Definition AdjustMinPmosKey := adjustLossKey true.

(** The simulation queue only chooses the position. *)
Definition adjustSimPosition (t : modelType_t) (c : CConnection) (myLinkVoltage : Z)
    (myIsCalculatedPower : bool) (pos : queuePosition_t) : DB queuePosition_t :=
  let on := myLinkVoltage + VthOf c in
  if (gateId c =? sourceId c) || (gateId c =? drainId c) then mret DELAY_FRONT
  else if gateVoltage c =? UNKNOWN_VOLTAGE then
    mn ← MinVoltage (gateId c) false;
    mx ← MaxVoltage (gateId c) false;
    mret (if IsNmos_ t && IsKnownVoltage_ mn && (on <? mn) then pos
          else if IsPmos_ t && IsKnownVoltage_ mx && (mx <? on) then pos
          else SKIP_QUEUE)
  else if IsNmos_ t && (gateVoltage c <? on) then mret DELAY_FRONT
  else if IsPmos_ t && (on <? gateVoltage c) then mret DELAY_FRONT
  else if myIsCalculatedPower then mret DELAY_FRONT
  else mret pos.

Definition AdjustKey (q : eventQueue_t) (theDeviceId : Z) (c : CConnection) (theEventKey : Z)
    (pos : queuePosition_t) (theDirection : shortDirection_t) (theWarningFlag : bool) : DB adjustment :=
  let ku v := v =? UNKNOWN_VOLTAGE in
  _ ← assertM ((ku (sourceVoltage c) && negb (ku (drainVoltage c)))
              || (negb (ku (sourceVoltage c)) && ku (drainVoltage c))
              || (bool_decide (q = SIM_QUEUE) && ku (gateVoltage c)));
  t ← nlat deviceType_v theDeviceId;
  let pos := if bool_decide (t = FUSE_ON) || bool_decide (t = FUSE_OFF) then DELAY_BACK else pos in
  if negb (IsMos_ t) then mret (EmptyString, theEventKey, pos)
  else
    let '(myLinkNetId, myLinkVoltage, myLink_p) :=
      match theDirection with
      | SOURCE_TO_MASTER_DRAIN => (sourceId c, drainVoltage c, drainPower_p c)
      | DRAIN_TO_MASTER_SOURCE => (drainId c, sourceVoltage c, sourcePower_p c)
      end in
    p ← arrow myLink_p;
    let pos := DefaultQueuePosition_ (typeBit p POWER_BIT) q in
    leak ← gets leakVoltageSet;
    let open := leak && typeBit p HIZ_BIT in
    match q with
    | MAX_QUEUE =>
        if IsPmos_ t then
          if open then mret (EmptyString, theEventKey, QUEUE_HIZ)
          else AdjustMaxPmosKey c myLinkNetId myLinkVoltage theEventKey pos
        else if open then mret (EmptyString, theEventKey, DELAY_BACK)
        else g ← SimVoltage (gateId c); AdjustMaxNmosKey c g myLinkVoltage theEventKey theWarningFlag
    | MIN_QUEUE =>
        if IsNmos_ t then
          if open then mret (EmptyString, theEventKey, QUEUE_HIZ)
          else AdjustMinNmosKey c myLinkNetId myLinkVoltage theEventKey pos
        else if open then mret (EmptyString, theEventKey, DELAY_BACK)
        else g ← SimVoltage (gateId c); AdjustMinPmosKey c g myLinkVoltage theEventKey theWarningFlag
    | SIM_QUEUE =>
        pos ← adjustSimPosition t c myLinkVoltage (typeBit p SIM_CALCULATED_BIT) pos;
        mret (EmptyString, theEventKey, pos)
    end.

(** ** Enqueueing *)

Definition calculatePowerM (q : eventQueue_t) (theShortVoltage theNetId theDefaultNetId : Z)
    (theCalculation : string) : DB unit :=
  fun d => match CalculatePower (powers d) (netVoltagePtr_v d) (minNet_v d) (simNet_v d) (maxNet_v d)
                   q theShortVoltage theNetId theDefaultNetId theCalculation with
           | Ok (h, v) => Ok (tt, set_netVoltagePtr_v v (set_powers h d))
           | Err e => Err e
           end.

Definition pushDependency (q : eventQueue_t) (theNetId theDependent : Z) : DB unit :=
  match q with
  | MIN_QUEUE => modify (fun d => set_minConnectionDependencyMap
      (<[theNetId := theDependent :: default [] (minConnectionDependencyMap d !! theNetId)]>
         (minConnectionDependencyMap d)) d)
  | _ => modify (fun d => set_maxConnectionDependencyMap
      (<[theNetId := theDependent :: default [] (maxConnectionDependencyMap d !! theNetId)]>
         (maxConnectionDependencyMap d)) d)
  end.

(** A transistor wired as a diode also sets the level of the other sample
    point [o] (MIN_QUEUE while the max queue runs, and conversely) when the
    source has one level only. *)
Definition setOppositeLevel (o : eventQueue_t) (c : CConnection) (myDrainNetId mySourceNetId
    myDrainVoltage myEventKey : Z) (myAdjustedCalculation : string) : DB unit :=
  let bit := match o with MIN_QUEUE => NEEDS_MIN_CONNECTION | _ => NEEDS_MAX_CONNECTION end in
  let within a b := match o with MIN_QUEUE => a <=? b | _ => b <=? a end in
  let strictly a b := match o with MIN_QUEUE => a <? b | _ => b <? a end in
  myLeakVoltage ← (match o with MIN_QUEUE => MinLeakVoltage myDrainNetId | _ => MaxLeakVoltage myDrainNetId end);
  if myDrainVoltage =? UNKNOWN_VOLTAGE then
    _ ← calculatePowerM o (s16 myEventKey) myDrainNetId mySourceNetId myAdjustedCalculation;
    a ← powerAt myDrainNetId;
    _ ← updateM a (set_typeBit ANALOG_BIT true);
    r ← resistanceOfText (parameters (device_p c));
    t ← lastUpdateM o;
    _ ← setNetM o myDrainNetId myDrainNetId (u32 (r * 100)) t;
    leak ← gets leakVoltageSet;
    if leak && IsKnownVoltage_ myLeakVoltage && within myLeakVoltage myEventKey then mret tt
    else
      p ← arrow a;
      let myPull := match o with MIN_QUEUE => pullDownVoltage p | _ => pullUpVoltage p end in
      if IsKnownVoltage_ myPull && within myPull myEventKey then mret tt
      else
        _ ← setNetBit myDrainNetId bit true;
        b ← getNetBit mySourceNetId bit;
        when b (pushDependency o mySourceNetId myDrainNetId)
  else
    when (strictly myDrainVoltage myEventKey)
      (_ ← reportM (Warning myDrainNetId);
       _ ← setNetBit myDrainNetId bit false;
       setNetBit mySourceNetId bit false).

(** The part of the loop body after the device was enqueued as a diode. *)
Definition diodeLevels (q : eventQueue_t) (c : CConnection) (theEventKey myEventKey : Z)
    (myAdjustedCalculation : string) : DB unit :=
  '(myDrainNetId, mySourceNetId) ←
    (if sourceVoltage c =? UNKNOWN_VOLTAGE then
       _ ← assertM (negb (drainVoltage c =? UNKNOWN_VOLTAGE)); mret (sourceId c, drainId c)
     else if drainVoltage c =? UNKNOWN_VOLTAGE then mret (drainId c, sourceId c)
     else raise EDatabaseError);
  myMinSource ← MinVoltage mySourceNetId false;
  myMaxSource ← MaxVoltage mySourceNetId false;
  myMinDrain ← MinVoltage myDrainNetId false;
  myMaxDrain ← MaxVoltage myDrainNetId false;
  match q with
  | MAX_QUEUE =>
      when (myMinSource =? theEventKey)
        (setOppositeLevel MIN_QUEUE c myDrainNetId mySourceNetId myMinDrain myEventKey
           myAdjustedCalculation)
  | MIN_QUEUE =>
      when (myMaxSource =? theEventKey)
        (setOppositeLevel MAX_QUEUE c myDrainNetId mySourceNetId myMaxDrain myEventKey
           myAdjustedCalculation)
  | SIM_QUEUE => mret tt
  end.

(** Key and position of a device about to be enqueued; the calculation type
    is a local variable of the loop that survives an iteration. *)
Definition enqueueKey (q : eventQueue_t) (device_it : Z) (c : CConnection) (theEventKey : Z)
    (myCalculationType : calculationType_t) : DB (adjustment * calculationType_t) :=
  if (sourceVoltage c =? UNKNOWN_VOLTAGE) || (drainVoltage c =? UNKNOWN_VOLTAGE) then
    let '(myDirection, power) :=
      if sourceVoltage c =? UNKNOWN_VOLTAGE then (SOURCE_TO_MASTER_DRAIN, drainPower_p c)
      else (DRAIN_TO_MASTER_SOURCE, sourcePower_p c) in
    p ← arrow power;
    let pos := DefaultQueuePosition_ (typeBit p POWER_BIT) q in
    a ← AdjustKey q device_it c theEventKey pos myDirection false;
    mret (a, GetCalculationType p q)
  else
    s ← arrow (sourcePower_p c);
    b ← (if typeBit s POWER_BIT then mret true
         else p ← arrow (drainPower_p c); mret (typeBit p POWER_BIT));
    mret (EmptyString, theEventKey, DefaultQueuePosition_ b q, myCalculationType).

Definition enqueueDevice (q : eventQueue_t) (theEventKey : Z) (myCalculationType : calculationType_t)
    (device_it : Z) : DB (calculationType_t + unit) :=
  ib ← gets (fun d => inactiveBit (queueOf q d));
  pb ← gets (fun d => pendingBit (queueOf q d));
  i ← getDeviceBit device_it ib;
  p ← getDeviceBit device_it pb;
  if (i : bool) || (p : bool) then mret (inl myCalculationType)
  else
    c ← MapDeviceNets device_it q;
    skip ← isIrrelevantGuards q device_it c theEventKey ENQUEUE;
    if (skip : bool) then
      _ ← setDeviceBit device_it ib true; mret (inl myCalculationType)
    else if (sourceVoltage c =? UNKNOWN_VOLTAGE) && (drainVoltage c =? UNKNOWN_VOLTAGE)
    then mret (inl myCalculationType)
    else
      '((myAdjustedCalculation, myEventKey, pos), myCalculationType) ←
        enqueueKey q device_it c theEventKey myCalculationType;
      if bool_decide (pos = SKIP_QUEUE) then mret (inl myCalculationType)
      else if (myEventKey <? theEventKey) && bool_decide (myCalculationType = UP_CALCULATION)
      then mret (inl myCalculationType)
      else if (theEventKey <? myEventKey) && bool_decide (myCalculationType = DOWN_CALCULATION)
      then mret (inl myCalculationType)
      else
        myEventKey ← (match q with
                      | SIM_QUEUE =>
                          x ← gets (queueOf q); lift (SimKey (QueueTime x) (connResistance c))
                      | _ => mret myEventKey
                      end);
        _ ← addEventM q myEventKey device_it pos;
        _ ← setDeviceBit device_it pb true;
        gp ← pointeeM (gatePower_p c);
        _ ← when (bool_decide (pos = MOS_DIODE) && negb (bool_decide (q = SIM_QUEUE))
                  && negb (optb (fun p => typeBit p HIZ_BIT) gp))
              (diodeLevels q c theEventKey myEventKey myAdjustedCalculation);
        mret (inl myCalculationType).

Definition EnqueueAttachedDevicesByTerminal (q : eventQueue_t) (theNetId : Z)
    (first next : CNetlist -> list Z) (theEventKey : Z) : DB unit :=
  _ ← overDevicesWith first next theNetId UNKNOWN_CALCULATION (enqueueDevice q theEventKey);
  mret tt.

Definition EnqueueAttachedDevices (q : eventQueue_t) (theNetId theEventKey : Z) : DB unit :=
  _ ← EnqueueAttachedDevicesByTerminal q theNetId firstSource_v nextSource_v theEventKey;
  _ ← EnqueueAttachedDevicesByTerminal q theNetId firstDrain_v nextDrain_v theEventKey;
  EnqueueAttachedDevicesByTerminal q theNetId firstGate_v nextGate_v theEventKey.

Definition enqueueResistor (q : eventQueue_t) (theEventKey : Z) (pos : queuePosition_t) (device_it : Z)
    : DB (option unit) :=
  t ← nlat deviceType_v device_it;
  if negb (bool_decide (t = RESISTOR)) then mret None
  else
    ib ← gets (fun d => inactiveBit (queueOf q d));
    pb ← gets (fun d => pendingBit (queueOf q d));
    i ← getDeviceBit device_it ib;
    p ← getDeviceBit device_it pb;
    if (i : bool) || (p : bool) then mret None
    else
      _ ← addEventM q theEventKey device_it pos;
      _ ← setDeviceBit device_it pb true;
      mret None.

Definition EnqueueAttachedResistorsByTerminal (q : eventQueue_t) (theNetId : Z)
    (first next : CNetlist -> list Z) (theEventKey : Z) (pos : queuePosition_t) : DB unit :=
  _ ← overDevices first next theNetId (enqueueResistor q theEventKey pos); mret tt.

Definition EnqueueAttachedResistors (q : eventQueue_t) (theNetId theEventKey : Z)
    (pos : queuePosition_t) : DB unit :=
  _ ← EnqueueAttachedResistorsByTerminal q theNetId firstSource_v nextSource_v theEventKey pos;
  EnqueueAttachedResistorsByTerminal q theNetId firstDrain_v nextDrain_v theEventKey pos.

(** ** The threshold loss *)

(** What a transistor that loses its threshold passes on: its gate less the
    threshold, limited by its source; with an unknown gate the key loses the
    threshold. *)
Definition passedLevel (up : bool) (gate vth source : Z) : Z :=
  if up then Z.max (gate - vth) source else Z.min (gate - vth) source.
Definition droppedKey (up : bool) (key vth : Z) : Z :=
  if up then key - Z.min vth 0 else key - Z.max vth 0.

(** The key adjustment of a max NMOS ([up] false) and of a min PMOS
    ([up] true).  With a known gate voltage the key becomes the gate voltage
    less the threshold, limited by the source voltage, and the device is
    delayed.  With an unknown gate the key loses the threshold when nothing
    drives the gate, and the device is skipped when something does. *)
Theorem adjustLossKey_limits up c g src k d gv d1 n :
  gateLevel up c g d = Ok (gv, d1) -> vlookup (connectionCount_v d1) (gateId c) = Some n ->
  -32768 <= k <= 32767 -> -32768 <= VthOf c <= 32767 ->
  exists s, adjustLossKey up c g src k false d =
    Ok (s, if gv =? UNKNOWN_VOLTAGE
           then if SourceDrainCount n =? 0 then droppedKey up k (VthOf c) else k
           else passedLevel up gv (VthOf c) src,
        if (gv =? UNKNOWN_VOLTAGE) && negb (SourceDrainCount n =? 0) then SKIP_QUEUE else DELAY_BACK, d1).
Proof.
  intros Hg Hn Hk Hv. unfold adjustLossKey. unfold mbind at 1, M_bind at 1. rewrite Hg.
  destruct (Z.eqb_spec gv UNKNOWN_VOLTAGE) as [-> | Hu].
  - unfold mbind at 1, M_bind at 1, at_, lift. rewrite (proj2 (vget_Ok _ _ _) Hn).
    destruct (SourceDrainCount n =? 0); simpl; [| by eexists]. unfold mbind, M_bind. simpl.
    destruct up; simpl; [destruct (Z.ltb_spec (VthOf c) 0) | destruct (Z.ltb_spec 0 (VthOf c))];
      eexists; unfold mret, M_ret; do 4 f_equal; rewrite ?s32_id; lia.
  - simpl. unfold passedLevel.
    destruct up; [destruct (Z.leb_spec src (gv - VthOf c)) | destruct (Z.leb_spec (gv - VthOf c) src)];
      try destruct (Z.eqb_spec k src); eexists; unfold mret, M_ret; simpl; do 4 f_equal; lia.
Qed.

(** The NMOS of the example circuit (threshold 0.3 V, gate at most 1.2 V). *)
Lemma adjustLossKey_limits_witness :
  match MapDeviceNets 0 MAX_QUEUE ExampleDb.exampleDb with
  | Ok (c, d) => exists s, adjustLossKey false c UNKNOWN_VOLTAGE 1200 1200 false d = Ok (s, 900, DELAY_BACK, d)
  | Err _ => False
  end.
Proof.
  destruct (MapDeviceNets 0 MAX_QUEUE ExampleDb.exampleDb) as [[c d] |] eqn:E;
    vm_compute in E; [injection E as <- <- | discriminate].
  refine (adjustLossKey_limits false _ UNKNOWN_VOLTAGE 1200 1200 _ 1200 _ (mkConnectionCount 0 0 2 0) _ _ _ _);
    [vm_compute; reflexivity | vm_compute; reflexivity | lia | vm_compute; split; discriminate].
Defined.

End Enqueue.
