(* ===== verification/Propagate.v ===== *)
(** * Voltage propagation (CCvcDb.cc, third part)

    The handlers that take one event from a queue and propagate a voltage
    through its device: resistors first, then the min and max queues, then the
    logic simulation.  Each either marks the device inactive, requeues it, or
    shorts the unknown side to the known one and enqueues the devices attached
    to it. *)

From S2P Require Import Prelude CvcTypes EventQueue VirtualNet Numeric Power Db Connection Short.
From S2P Require Import Enqueue.
From stdpp Require Import base list strings gmap sets.
From Stdlib Require Import ZArith Lia Floats.SpecFloat.
#[local] Open Scope Z_scope.

Module Propagate.
Import EventQueue.EventQueue VirtualNet.VirtualNet Power.Power Numeric.Numeric Db.Db
  Connection.Connection Short.Short Enqueue.Enqueue.

(** ** Voltage conflicts *)

Definition minOrMax {A} (q : eventQueue_t) (x y : A) : A :=
  match q with MIN_QUEUE => x | _ => y end.

(** A defined but inactive level becomes active when the propagated level
    allows it; otherwise the ignored level may be reported. *)
Definition activateLevel (q : eventQueue_t) (c : CConnection) : DB unit :=
  let level := minOrMax q minVoltage maxVoltage in
  let act := minOrMax q MIN_ACTIVE MAX_ACTIVE in
  let ign := minOrMax q MIN_IGNORE MAX_IGNORE in
  let passive p := IsKnownVoltage_ (level p) && negb (activeOf p act) && negb (activeOf p ign) in
  let step (mine other myNet : Z) (my_p : option Z) : DB unit :=
    if minOrMax q (other <=? mine) (mine <=? other) then
      _ ← updateM my_p (set_activeBit act true);
      EnqueueAttachedDevices q myNet mine
    else
      l ← minOrMax q (MinLeakVoltage myNet) (MaxLeakVoltage myNet);
      when (minOrMax q (IsGreaterVoltage_ l mine) (IsLesserVoltage_ l mine))
        (reportM (Warning myNet)) in
  dp ← pointeeM (drainPower_p c);
  sp ← pointeeM (sourcePower_p c);
  if optb passive dp then step (drainVoltage c) (sourceVoltage c) (drainId c) (drainPower_p c)
  else if optb passive sp then step (sourceVoltage c) (drainVoltage c) (sourceId c) (sourcePower_p c)
  else mret tt.

(** A net whose level was estimated is verified by a better one on the other
    side.  [verified] was read before either side was changed. *)
Definition unsetCheck (q : eventQueue_t) (target targetVoltage otherVoltage : Z) (verified : bool)
    : DB unit :=
  let check := minOrMax q NEEDS_MIN_CHECK NEEDS_MAX_CHECK in
  let conn := minOrMax q NEEDS_MIN_CONNECTION NEEDS_MAX_CONNECTION in
  a ← getNetBit target check;
  b ← getNetBit target conn;
  if (a || b) && IsKnownVoltage_ otherVoltage && IsKnownVoltage_ targetVoltage && verified
     && minOrMax q (otherVoltage <? targetVoltage) (targetVoltage <? otherVoltage)
  then
    p ← powerAt target;
    _ ← assertM (match p with Some _ => true | None => false end);
    _ ← updateM p (minOrMax q set_pullDown set_pullUp otherVoltage);
    _ ← setNetBit target conn false;
    setNetBit target check false
  else mret tt.

Definition unsetChecks (q : eventQueue_t) (c : CConnection) : DB unit :=
  let check := minOrMax q NEEDS_MIN_CHECK NEEDS_MAX_CHECK in
  let conn := minOrMax q NEEDS_MIN_CONNECTION NEEDS_MAX_CONNECTION in
  let verified n : DB bool :=
    a ← getNetBit n check; b ← getNetBit n conn; mret (negb (a || b)) in
  mySourceVerified ← verified (sourceId c);
  myDrainVerified ← verified (drainId c);
  _ ← unsetCheck q (drainId c) (drainVoltage c) (sourceVoltage c) mySourceVerified;
  unsetCheck q (sourceId c) (sourceVoltage c) (drainVoltage c) myDrainVerified.

(** A transistor wired as a diode with both sides known: propagate to, or
    check against, the other sample point [o]. *)
Definition diodeConflict (q o : eventQueue_t) (theDeviceId : Z) (c : CConnection) : DB unit :=
  t ← nlat deviceType_v theDeviceId;
  let side :=
    if sourceId c =? gateId c then Some (sourceId c, drainId c, drainVoltage c, drainPower_p c)
    else if drainId c =? gateId c then Some (drainId c, sourceId c, sourceVoltage c, sourcePower_p c)
    else None in
  match (if IsMos_ t then side else None) with
  | None => mret tt
  | Some (myTargetNetId, mySourceNetId, mySourceVoltage, my_p) =>
      p ← arrow my_p;
      let myCalculationType := minOrMax q (minCalculationType p) (maxCalculationType p) in
      if myTargetNetId =? UNKNOWN_NET then mret tt
      else
        let myExpectedVoltage := s16 (mySourceVoltage + VthOf c) in
        oc ← MapDeviceNets (deviceId c) o;
        if bool_decide (myCalculationType = minOrMax q DOWN_CALCULATION UP_CALCULATION) then mret tt
        else if gateVoltage oc =? UNKNOWN_VOLTAGE then
          EnqueueAttachedDevices o myTargetNetId myExpectedVoltage
        else
          gp ← arrow (gatePower_p oc);
          if negb (typeBit gp HIZ_BIT) &&
             (((myExpectedVoltage <? gateVoltage oc) && IsNmos_ t) ||
              ((gateVoltage oc <? myExpectedVoltage) && IsPmos_ t))
          then
            myLeakCurrent ← EstimatedMosDiodeCurrent oc mySourceVoltage;
            threshold ← param cvcMosDiodeErrorThreshold;
            limit ← param cvcLeakLimit;
            sp ← powerAt mySourceNetId;
            let myCheck := (threshold =? 0) ||
                           (threshold <? Z.abs (gateVoltage oc - myExpectedVoltage)) in
            when (myCheck && ExceedsLeakLimit_ myLeakCurrent limit
                  && match sp with Some _ => true | None => false end)
              (countAndReport (deviceId oc) (minOrMax q MAX_VOLTAGE_CONFLICT MIN_VOLTAGE_CONFLICT))
          else mret tt
  end.

Definition VoltageConflict (q : eventQueue_t) (theDeviceId : Z) (c : CConnection) : DB bool :=
  leak ← gets leakVoltageSet;
  if negb leak && ((sourceVoltage c =? UNKNOWN_VOLTAGE) || (drainVoltage c =? UNKNOWN_VOLTAGE))
  then mret false
  else
    us ← IsUnknownSourceVoltage c;
    ud ← (if us : bool then mret true else IsUnknownDrainVoltage c);
    if (ud : bool) then mret false
    else
      t ← nlat deviceType_v theDeviceId;
      if bool_decide (q = SIM_QUEUE) && IsMos_ t && (gateVoltage c =? UNKNOWN_VOLTAGE)
      then mret false
      else
        pb ← gets (fun d => pendingBit (queueOf q d));
        _ ← setDeviceBit theDeviceId pb true;
        _ ← (match q with
             | SIM_QUEUE => mret tt
             | _ =>
                 _ ← activateLevel q c;
                 _ ← unsetChecks q c;
                 diodeConflict q (minOrMax q MAX_QUEUE MIN_QUEUE) theDeviceId c
             end);
        _ ← setDeviceBit theDeviceId pb false;
        _ ← AlreadyShorted q theDeviceId c;
        mret true.

(** [IsIrrelevant]: [VoltageConflict] is only consulted for a device taken
    from the queue. *)
Definition IsIrrelevant (q : eventQueue_t) (theDeviceId : Z) (c : CConnection) (theVoltage : Z)
    (theQueueStatus : queueStatus_t) : DB bool :=
  a ← isIrrelevantGuards q theDeviceId c theVoltage theQueueStatus;
  if (a : bool) then mret true
  else
    match theQueueStatus with
    | DEQUEUE => VoltageConflict q theDeviceId c
    | ENQUEUE => mret false
    end.

(** ** Shorting the unknown side *)

Definition masterSlave (c : CConnection) (theDirection : shortDirection_t) : Z * Z * Z * option Z :=
  match theDirection with
  | DRAIN_TO_MASTER_SOURCE => (sourceId c, drainId c, sourceVoltage c, sourcePower_p c)
  | SOURCE_TO_MASTER_DRAIN => (drainId c, sourceId c, drainVoltage c, drainPower_p c)
  end.

(** [parameterResistanceMap[parameters] * k + virtualNet_v[master].finalResistance]. *)
Definition brokenTraceResistance (q : eventQueue_t) (c : CConnection) (myMasterNet k : Z) : DB Z :=
  r ← resistanceOfText (parameters (device_p c));
  m ← netM q myMasterNet;
  mret (u32 (r * k + finalResistance m)).

(** [ShortNets] with a voltage, for the min and max queues. *)
Definition ShortNetsAt (q : eventQueue_t) (theDeviceId : Z) (c : CConnection)
    (theDirection : shortDirection_t) (theShortVoltage : Z) (theCalculation : string) : DB unit :=
  let '(myMasterNet, mySlaveNet, myMasterVoltage, _) := masterSlave c theDirection in
  fixed ← gets isFixedSimNet;
  '(theShortVoltage, theCalculation) ←
    (if (fixed : bool) then
       s ← SimVoltage mySlaveNet;
       mret (match q with
             | MIN_QUEUE => if IsKnownVoltage_ s && (s <? theShortVoltage)
                            then (s, " Limited min to sim"%string) else (theShortVoltage, theCalculation)
             | MAX_QUEUE => if IsKnownVoltage_ s && (theShortVoltage <? s)
                            then (s, " Limited max to sim"%string) else (theShortVoltage, theCalculation)
             | SIM_QUEUE => (theShortVoltage, theCalculation)
             end)
     else mret (theShortVoltage, theCalculation));
  t ← lastUpdateM q;
  _ ← (if theShortVoltage =? myMasterVoltage then
         r ← resistanceOfText (parameters (device_p c));
         setNetM q mySlaveNet myMasterNet r t
       else
         _ ← calculatePowerM q theShortVoltage mySlaveNet myMasterNet theCalculation;
         r ← brokenTraceResistance q c myMasterNet 1;
         setNetM q mySlaveNet mySlaveNet r t);
  ty ← nlat deviceType_v theDeviceId;
  _ ← (if bool_decide (ty = RESISTOR) then
         cc ← at_ connectionCount_v mySlaveNet;
         PropagateConnectionType q (sourceDrainType cc) myMasterNet
       else if bool_decide (ty = FUSE_ON) || bool_decide (ty = FUSE_OFF) then
         _ ← assertM (negb (bool_decide (q = SIM_QUEUE)));
         n ← netM (minOrMax q MAX_QUEUE MIN_QUEUE) mySlaveNet;
         when (nextNetId n =? myMasterNet) (countAndReport (deviceId c) FUSE_ERROR)
       else mret tt);
  b ← gets (fun d => inactiveBit (queueOf q d));
  setDeviceBit theDeviceId b true.

(** The report of an SCRC power driving a CMOS output. *)
Definition scrcShort (theDeviceId : Z) (theDirection : shortDirection_t) (mySlaveNet : Z)
    (master_p : option Z) : DB unit :=
  mp ← pointeeM master_p;
  t ← nlat deviceType_v theDeviceId;
  cc ← at_ connectionCount_v mySlaveNet;
  if IsSCRCPower mp && status_get (sourceDrainType cc) (modelBit NMOS)
     && status_get (sourceDrainType cc) (modelBit PMOS) && IsMos_ t
  then
    f ← MapFullDeviceNets theDeviceId;
    let s := if IsNmos_ t then fMax f else fMin f in
    o ← pointeeM (power_p (match theDirection with
                           | DRAIN_TO_MASTER_SOURCE => atDrain s
                           | SOURCE_TO_MASTER_DRAIN => atSource s
                           end));
    when (negb (IsSCRCPower o)) (countAndReport theDeviceId LEAK)
  else mret tt.

Definition ShortSimNets (q : eventQueue_t) (theDeviceId : Z) (c : CConnection)
    (theDirection : shortDirection_t) (theShortVoltage : Z) (theCalculation : string) : DB unit :=
  let '(myMasterNet, mySlaveNet, myMasterVoltage, master_p) := masterSlave c theDirection in
  mx ← MaxLeakVoltage mySlaveNet;
  mn ← MinLeakVoltage mySlaveNet;
  let '(theShortVoltage, myCalculation) :=
    if IsKnownVoltage_ mx && (mx <? theShortVoltage) then (mx, " Limited to max"%string)
    else (theShortVoltage, EmptyString) in
  let '(theShortVoltage, myCalculation) :=
    if IsKnownVoltage_ mn && (theShortVoltage <? mn) then (mn, " Limited to min"%string)
    else (theShortVoltage, myCalculation) in
  t ← nlat deviceType_v theDeviceId;
  _ ← (if theShortVoltage =? myMasterVoltage then
         _ ← scrcShort theDeviceId theDirection mySlaveNet master_p;
         r ← resistanceOfText (parameters (device_p c));
         u ← lastUpdateM q;
         setNetM q mySlaveNet myMasterNet r u
       else
         _ ← calculatePowerM q theShortVoltage mySlaveNet myMasterNet
               (theCalculation +:+ myCalculation)%string;
         r ← brokenTraceResistance q c myMasterNet
               (if IsMos_ t && (gateId c =? mySlaveNet) then 100 else 1);
         u ← lastUpdateM q;
         setNetM q mySlaveNet mySlaveNet r u);
  _ ← when (bool_decide (t = RESISTOR))
        (cc ← at_ connectionCount_v mySlaveNet;
         PropagateConnectionType q (sourceDrainType cc) myMasterNet);
  b ← gets (fun d => inactiveBit (queueOf q d));
  setDeviceBit theDeviceId b true.

(** ** Resistor events *)

(** [GetEvent] and the reset of the pending bit; [None] for a device that
    became inactive since it was enqueued. *)
Definition takeEvent (q : eventQueue_t) : DB (option Z) :=
  myDeviceId ← queueM q GetEvent;
  pb ← gets (fun d => pendingBit (queueOf q d));
  ib ← gets (fun d => inactiveBit (queueOf q d));
  _ ← setDeviceBit myDeviceId pb false;
  b ← getDeviceBit myDeviceId ib;
  mret (if (b : bool) then None else Some myDeviceId).

Definition PropagateResistorVoltages (q : eventQueue_t) : DB unit :=
  e ← takeEvent q;
  match e with
  | None => mret tt
  | Some myDeviceId =>
      c ← MapDeviceNets myDeviceId q;
      us ← IsUnknownSourceVoltage c;
      if (us : bool) then
        _ ← assertM (negb (drainVoltage c =? UNKNOWN_VOLTAGE));
        _ ← ShortNets q myDeviceId c SOURCE_TO_MASTER_DRAIN;
        p ← arrow (drainPower_p c);
        EnqueueAttachedResistors q (sourceId c) (drainVoltage c)
          (if typeBit p POWER_BIT then MAIN_BACK else DELAY_FRONT)
      else
        ud ← IsUnknownDrainVoltage c;
        if (ud : bool) then
          _ ← ShortNets q myDeviceId c DRAIN_TO_MASTER_SOURCE;
          p ← arrow (sourcePower_p c);
          EnqueueAttachedResistors q (drainId c) (sourceVoltage c)
            (if typeBit p POWER_BIT then MAIN_BACK else DELAY_FRONT)
        else
          _ ← AlreadyShorted q myDeviceId c;
          let along from to_ : DB unit :=
            t ← isTerminalM q from;
            if (t : bool) then mret tt
            else
              cc ← at_ connectionCount_v from;
              PropagateConnectionType q (sourceDrainType cc) to_ in
          _ ← along (drainId c) (sourceId c);
          along (sourceId c) (drainId c)
  end.

(** ** Min and max events *)

(** Which side is propagated to: the known one; when both are known, the
    lower for the min queue and the higher for the max queue. *)
Definition minMaxDirection (q : eventQueue_t) (c : CConnection) : DB (option shortDirection_t) :=
  let ks := negb (sourceVoltage c =? UNKNOWN_VOLTAGE) in
  let kd := negb (drainVoltage c =? UNKNOWN_VOLTAGE) in
  if ks && kd then
    match q with
    | MIN_QUEUE => mret (Some (if sourceVoltage c <=? drainVoltage c
                               then DRAIN_TO_MASTER_SOURCE else SOURCE_TO_MASTER_DRAIN))
    | MAX_QUEUE => mret (Some (if drainVoltage c <=? sourceVoltage c
                               then DRAIN_TO_MASTER_SOURCE else SOURCE_TO_MASTER_DRAIN))
    | SIM_QUEUE => raise AssertionFailed
    end
  else mret (if ks then Some DRAIN_TO_MASTER_SOURCE
             else if kd then Some SOURCE_TO_MASTER_DRAIN else None).

(** A level that lost a threshold needs a check of the other sample point [o]. *)
Definition addCheck (o : eventQueue_t) (myDrainId mySourceId myEventKey : Z) : DB unit :=
  let bit := minOrMax o NEEDS_MIN_CHECK NEEDS_MAX_CHECK in
  v ← minOrMax o (MinVoltage myDrainId false) (MaxVoltage myDrainId false);
  f ← IsDerivedFromFloating o myDrainId;
  b ← (if (f : bool) || (v =? UNKNOWN_VOLTAGE) || (v =? myEventKey) then mret true
       else getNetBit mySourceId bit);
  if negb b then mret tt
  else
    a ← powerAt myDrainId;
    match a with
    | None => mret tt
    | Some _ =>
        p ← arrow a;
        let pull := minOrMax o (pullDownVoltage p) (pullUpVoltage p) in
        when ((pull =? UNKNOWN_VOLTAGE) || minOrMax o (myEventKey <? pull) (pull <? myEventKey))
          (setNetBit myDrainId bit true)
    end.

(** [CDeviceCount]: the devices on a net inside an instance (CConnectionCount.cc). *)
Record CDeviceCount : Type := mkDeviceCount {
  countNetId : Z; resistorCount : Z; nmosCount : Z; pmosCount : Z; activeNmosCount : Z;
  activePmosCount : Z; nmosGateCount : Z; pmosGateCount : Z; capacitorCount : Z; diodeCount : Z
}.

(** The switch over the type of a source or drain connection. *)
Definition countDevice (t : modelType_t) (isActive : bool) (n : CDeviceCount) : CDeviceCount :=
  let 'mkDeviceCount i r nm pm an ap ng pg c di := n in
  match t with
  | NMOS | LDDN => mkDeviceCount i r (u32 (nm + 1)) pm (if isActive then u32 (an + 1) else an) ap ng pg c di
  | PMOS | LDDP => mkDeviceCount i r nm (u32 (pm + 1)) an (if isActive then u32 (ap + 1) else ap) ng pg c di
  | RESISTOR => mkDeviceCount i (u32 (r + 1)) nm pm an ap ng pg c di
  | CAPACITOR => mkDeviceCount i r nm pm an ap ng pg (u32 (c + 1)) di
  | DIODE => mkDeviceCount i r nm pm an ap ng pg c (u32 (di + 1))
  | _ => n
  end.

Definition countGate (t : modelType_t) (n : CDeviceCount) : CDeviceCount :=
  let 'mkDeviceCount i r nm pm an ap ng pg c di := n in
  match t with
  | NMOS | LDDN => mkDeviceCount i r nm pm an ap (u32 (ng + 1)) pg c di
  | PMOS | LDDP => mkDeviceCount i r nm pm an ap ng (u32 (pg + 1)) c di
  | _ => n
  end.

(** [equivalentNet_v[net_v[device_it]]]. *)
Definition equivalentOf (net : CNetlist -> list Z) (device_it : Z) : DB Z :=
  n ← nlat net device_it; nlat equivalentNet_v n.

(** One connection of the net: [far] is the other side of the channel,
    [skipShorted] leaves out devices whose source and drain are one net. *)
Definition countSide (theInstanceId : Z) (far : CNetlist -> list Z) (skipShorted isGate : bool)
    (n : CDeviceCount) (device_it : Z) : DB (CDeviceCount + unit) :=
  parent ← nlat deviceParent_v device_it;
  inside ← IsSubcircuitOf parent theInstanceId;
  if negb inside then mret (inl n)
  else
    same ← (if skipShorted then
              s ← equivalentOf sourceNet_v device_it;
              x ← equivalentOf drainNet_v device_it;
              mret (s =? x)
            else mret false);
    if (same : bool) then mret (inl n)
    else
      t ← nlat deviceType_v device_it;
      if isGate then mret (inl (countGate t n))
      else
        a ← (if IsMos_ t then
               g ← equivalentOf gateNet_v device_it;
               x ← equivalentOf far device_it;
               mret (negb (g =? x))
             else mret false);
        mret (inl (countDevice t a n)).

(** A counting loop never returns early. *)
Definition counted (r : CDeviceCount + unit) : DB CDeviceCount :=
  match r with inl n => mret n | inr _ => raise UndefinedBehaviour end.

Definition newDeviceCount (theNetId theInstanceId : Z) : DB CDeviceCount :=
  r ← overDevicesWith firstSource_v nextSource_v theNetId (mkDeviceCount theNetId 0 0 0 0 0 0 0 0 0)
        (countSide theInstanceId drainNet_v false false);
  n ← counted r;
  r ← overDevicesWith firstDrain_v nextDrain_v theNetId n
        (countSide theInstanceId sourceNet_v true false);
  n ← counted r;
  r ← overDevicesWith firstGate_v nextGate_v theNetId n (countSide theInstanceId drainNet_v true true);
  counted r.

(** The event of device [myDeviceId], taken at [myQueueKey]. *)
Definition minMaxEvent (q : eventQueue_t) (myQueueKey myDeviceId : Z) : DB unit :=
  c ← MapDeviceNets myDeviceId q;
  dir ← minMaxDirection q c;
  match dir with
  | None => mret tt
  | Some myDirection =>
    let '(mySourceId, myDrainId, myOriginalEventKey, my_p) := masterSlave c myDirection in
    p ← arrow my_p;
    let pos := DefaultQueuePosition_ (typeBit p POWER_BIT) q in
    irrelevant ← IsIrrelevant q myDeviceId c myOriginalEventKey DEQUEUE;
    ib ← gets (fun d => inactiveBit (queueOf q d));
    if (irrelevant : bool) then setDeviceBit myDeviceId ib true
    else
      _ ← assertM (match myDirection with
                   | DRAIN_TO_MASTER_SOURCE => drainVoltage c =? UNKNOWN_VOLTAGE
                   | SOURCE_TO_MASTER_DRAIN => true
                   end);
      '(myAdjustedCalculation, myEventKey, pos) ←
        AdjustKey q myDeviceId c myOriginalEventKey pos myDirection true;
      if bool_decide (pos = SKIP_QUEUE) then mret tt
      else
        later ← gets (fun d => Later2 (queueOf q d) myEventKey myQueueKey);
        if (later : bool) then
          _ ← addEventM q myEventKey myDeviceId pos;
          pb ← gets (fun d => pendingBit (queueOf q d));
          _ ← setDeviceBit myDeviceId pb true;
          modify (fun d => set_queueOf q (requeue (queueOf q d)) d)
        else
          _ ← ShortNetsAt q myDeviceId c myDirection (s16 myEventKey) myAdjustedCalculation;
          t ← nlat deviceType_v (deviceId c);
          _ ← (match q with
               | MIN_QUEUE => when ((myOriginalEventKey <? myEventKey) && IsPmos_ t)
                                (addCheck MAX_QUEUE myDrainId mySourceId myEventKey)
               | MAX_QUEUE => when ((myEventKey <? myOriginalEventKey) && IsNmos_ t)
                                (addCheck MIN_QUEUE myDrainId mySourceId myEventKey)
               | SIM_QUEUE => mret tt
               end);
          _ ← EnqueueAttachedDevices q myDrainId myEventKey;
          t ← nlat deviceType_v myDeviceId;
          if bool_decide (t = RESISTOR) && (myOriginalEventKey =? myEventKey) then
            n ← newDeviceCount myDrainId 0;
            if (resistorCount n =? 1) &&
               match q with
               | MIN_QUEUE => activePmosCount n =? 0
               | MAX_QUEUE => activeNmosCount n =? 0
               | SIM_QUEUE => false
               end
            then
              _ ← ShortNetsAt q myDeviceId c myDirection (s16 myEventKey) "power through resistor";
              EnqueueAttachedDevices q myDrainId myEventKey
            else mret tt
          else mret tt
  end.

Definition PropagateMinMaxVoltages (q : eventQueue_t) : DB unit :=
  myQueueKey ← gets (fun d => QueueTime (queueOf q d));
  e ← takeEvent q;
  match e with
  | None => mret tt
  | Some myDeviceId => minMaxEvent q myQueueKey myDeviceId
  end.

End Propagate.
