(* ===== verification/Simulate.v ===== *)
(** * Logic simulation events (CCvcDb.cc, fourth part)

    [PropagateSimVoltages] takes one event of the simulation queue; the
    voltage it propagates is adjusted by thresholds and by the min and max
    levels of the target net ([AdjustSimVoltage]). *)

From S2P Require Import Prelude CvcTypes EventQueue VirtualNet Numeric Power Db Connection Short.
From S2P Require Import Enqueue Propagate.
From stdpp Require Import base list strings gmap sets.
From Stdlib Require Import ZArith Lia Floats.SpecFloat.
#[local] Open Scope Z_scope.

Module Simulate.
Import EventQueue.EventQueue VirtualNet.VirtualNet Power.Power Numeric.Numeric Db.Db
  Connection.Connection Short.Short Enqueue.Enqueue Propagate.Propagate.

(** ** Always-on candidates *)

(** The resistances of one terminal to its min and max power are within a
    factor of 128 of each other. *)
Definition balanced (myMin myMax : CVirtualNet) : option bool :=
  let a := finalResistance myMin in
  let b := finalResistance myMax in
  if (a <? Z.shiftr MAX_RESISTANCE 7) && (b <? Z.shiftr MAX_RESISTANCE 7)
  then Some ((b <? u32 (Z.shiftl a 7)) && (a <? u32 (Z.shiftl b 7)))
  else None.

(** The terminal an always-on device drives, from the four levels and
    resistances; [inr b] when the function returns at once. *)
Definition alwaysOnTarget (minS minD maxS maxD : Z) (ms md xs xd : CVirtualNet) : terminal_t + bool :=
  let myTarget :=
    if minS <? minD then inl SOURCE
    else if minD <? minS then inl DRAIN
    else if (minS =? maxS) && (minD =? maxD) then inr true
    else if finalResistance md <? finalResistance ms then inl SOURCE
    else inl DRAIN in
  match myTarget with
  | inr b => inr b
  | inl t =>
      let myExpected :=
        if maxD <? maxS then SOURCE
        else if maxS <? maxD then DRAIN
        else if finalResistance xd <? finalResistance xs then SOURCE else DRAIN in
      if bool_decide (t = myExpected) then inl t else inr false
  end.

Definition IsAlwaysOnCandidate (theDeviceId : Z) (theDirection : shortDirection_t) : DB bool :=
  if theDeviceId =? UNKNOWN_DEVICE then mret false
  else
    s ← nlat sourceNet_v theDeviceId;
    mySourceNetId ← GetEquivalentNet s;
    dr ← nlat drainNet_v theDeviceId;
    myDrainNetId ← GetEquivalentNet dr;
    cc ← at_ connectionCount_v
           (match theDirection with
            | DRAIN_TO_MASTER_SOURCE => myDrainNetId | SOURCE_TO_MASTER_DRAIN => mySourceNetId end);
    if negb (sourceDrainType cc =? NMOS_PMOS) then mret true
    else
      ms ← accessM MIN_QUEUE mySourceNetId;
      md ← accessM MIN_QUEUE myDrainNetId;
      xs ← accessM MAX_QUEUE mySourceNetId;
      xd ← accessM MAX_QUEUE myDrainNetId;
      let power (n : CVirtualNet) : DB (option CPower) :=
        if finalNetId n =? UNKNOWN_NET then mret None
        else a ← powerAt (finalNetId n); pointeeM a in
      pms ← power ms;
      match pms with
      | None => mret false
      | Some pms =>
        pmd ← power md;
        match pmd with
        | None => mret false
        | Some pmd =>
          pxs ← power xs;
          match pxs with
          | None => mret false
          | Some pxs =>
            pxd ← power xd;
            match pxd with
            | None => mret false
            | Some pxd =>
              match alwaysOnTarget (minVoltage pms) (minVoltage pmd) (maxVoltage pxs)
                      (maxVoltage pxd) ms md xs xd with
              | inr b => mret b
              | inl t =>
                  let fallback := default false (balanced md xd) in
                  mret (if bool_decide (t = SOURCE) then default fallback (balanced ms xs)
                        else fallback)
              end
            end
          end
        end
      end.

(** ** Adjusting the propagated voltage *)

(** The step of [AdjustSimVoltage] for a transistor: the text, the voltage
    ([UNKNOWN_VOLTAGE] stops the propagation) and the gate voltage. *)
Definition adjustSimMos (t : modelType_t) (c : CConnection) (target : Z) (open defined : bool)
    (myMin myMax theVoltage : Z) : DB (string * Z * CConnection) :=
  if gateId c =? target then
    mret (if (myMin =? myMax) && defined && negb open
          then ((" MOS sim drop " +:+ PrintParameter theVoltage +:+ "V->"
                 +:+ PrintParameter myMax +:+ "V")%string, myMax, c)
          else (EmptyString, UNKNOWN_VOLTAGE, c))
  else
    c ← (if gateVoltage c =? UNKNOWN_VOLTAGE then
           mn ← MinVoltage (gateId c) false;
           mx ← MaxVoltage (gateId c) false;
           mret (if IsNmos_ t && IsKnownVoltage_ mn && (theVoltage + VthOf c <? mn)
                 then set_gateVoltage mn c
                 else if IsPmos_ t && IsKnownVoltage_ mx && (mx <? theVoltage + VthOf c)
                 then set_gateVoltage mx c else c)
         else mret c);
    _ ← assertM (negb (gateVoltage c =? UNKNOWN_VOLTAGE));
    let myStep := s16 (gateVoltage c - VthOf c) in
    mret
      (if gateVoltage c =? theVoltage + VthOf c then (EmptyString, UNKNOWN_VOLTAGE, c)
       else if IsNmos_ t && IsKnownVoltage_ myMin then
         if negb (defined && open) && (myStep <? theVoltage)
         then ((" NMOS sim Vth drop " +:+ PrintParameter (gateVoltage c) +:+ "-"
                +:+ PrintParameter (VthOf c) +:+ " limited by " +:+ PrintParameter myMin)%string,
               Z.max myStep myMin, c)
         else (EmptyString, theVoltage, c)
       else if IsPmos_ t && IsKnownVoltage_ myMax then
         if negb (defined && open) && (theVoltage <? myStep)
         then ((" PMOS sim Vth drop " +:+ PrintParameter (gateVoltage c) +:+ "+"
                +:+ PrintParameter (- VthOf c) +:+ " limited by " +:+ PrintParameter myMax)%string,
               Z.min myStep myMax, c)
         else (EmptyString, theVoltage, c)
       else (EmptyString, theVoltage, c)).

(** One of the two limits: [below] for the min level, otherwise the max. *)
Definition limitSim (below : bool) (theDeviceId : Z) (c : CConnection) (thePropagationType : propagation_t)
    (myOriginal mySourceResistance myLimit myLimitResistance : Z) (x : string * Z) : DB (string * Z) :=
  let '(myCalculation, theVoltage) := x in
  let outside v := if below then v <? myLimit else myLimit <? v in
  if IsKnownVoltage_ myLimit && outside theVoltage then
    limit ← param cvcLeakLimit;
    _ ← when (negb (bool_decide (thePropagationType = POWER_NETS_ONLY)) && outside myOriginal
              && SFltb limit (EstimatedCurrent c theVoltage myLimit mySourceResistance myLimitResistance))
          (ReportSimShort theDeviceId theVoltage myLimit);
    mret (((if below then " Limited sim to min" else " Limited sim to max") +:+ myCalculation)%string,
          myLimit)
  else mret (myCalculation, theVoltage).

Definition AdjustSimVoltage (theDeviceId : Z) (c : CConnection) (theVoltage : Z)
    (theDirection : shortDirection_t) (thePropagationType : propagation_t)
    : DB (string * Z * CConnection) :=
  let ku v := v =? UNKNOWN_VOLTAGE in
  _ ← assertM ((ku (sourceVoltage c) && negb (ku (drainVoltage c)))
              || (negb (ku (sourceVoltage c)) && ku (drainVoltage c)));
  let '(my_p, myTargetNet, mySourceResistance) :=
    match theDirection with
    | SOURCE_TO_MASTER_DRAIN => (sourcePower_p c, sourceId c, finalResistance (masterDrainNet c))
    | DRAIN_TO_MASTER_SOURCE => (drainPower_p c, drainId c, finalResistance (masterSourceNet c))
    end in
  mn ← MinSimVoltage myTargetNet;
  mx ← MaxSimVoltage myTargetNet;
  rn ← MinResistance myTargetNet;
  rx ← MaxResistance myTargetNet;
  let '(mn, mx, rn, rx) :=
    if IsKnownVoltage_ mn && (mx <? mn) then (mx, mn, rx, rn) else (mn, mx, rn, rx) in
  t ← nlat deviceType_v theDeviceId;
  p ← pointeeM my_p;
  '(myCalculation, v, c) ←
    (if IsMos_ t
     then adjustSimMos t c myTargetNet (optb (fun p => typeBit p HIZ_BIT) p)
            (match p with Some _ => true | None => false end) mn mx theVoltage
     else mret (EmptyString, theVoltage, c));
  if v =? UNKNOWN_VOLTAGE then mret (EmptyString, UNKNOWN_VOLTAGE, c)
  else
    x ← limitSim true theDeviceId c thePropagationType theVoltage mySourceResistance mn rn (myCalculation, v);
    '(myCalculation, v) ← limitSim false theDeviceId c thePropagationType theVoltage mySourceResistance mx rx x;
    mret (myCalculation, v, c).

(** ** One simulation event *)

(** The direction of the propagation; [None] when the event is dropped. *)
Definition simDirection (t : modelType_t) (c : CConnection) : DB (option shortDirection_t) :=
  let openNotSCRC a : DB bool :=
    p ← pointeeM a; mret (optb (fun x => typeBit x HIZ_BIT) p && negb (IsSCRCPower p)) in
  us ← IsUnknownSourceVoltage c;
  ud ← IsUnknownDrainVoltage c;
  if (us : bool) then
    if (ud : bool) then mret None
    else
      o ← openNotSCRC (drainPower_p c);
      mret (if (o : bool) then None else Some SOURCE_TO_MASTER_DRAIN)
  else if (ud : bool) then
    o ← openNotSCRC (sourcePower_p c);
    mret (if (o : bool) then None else Some DRAIN_TO_MASTER_SOURCE)
  else
    let us := sourceVoltage c =? UNKNOWN_VOLTAGE in
    let ud := drainVoltage c =? UNKNOWN_VOLTAGE in
    mret (Some
      (if us && ud then DRAIN_TO_MASTER_SOURCE
       else if us then SOURCE_TO_MASTER_DRAIN
       else if ud then DRAIN_TO_MASTER_SOURCE
       else if (IsPmos_ t && (sourceVoltage c <=? drainVoltage c))
            || (IsNmos_ t && (drainVoltage c <=? sourceVoltage c))
       then SOURCE_TO_MASTER_DRAIN
       else DRAIN_TO_MASTER_SOURCE)).

(** The gate of a transistor: [None] when the event is dropped, otherwise the
    connections with the gate voltage of an always-on device. *)
Definition simGate (theDeviceId : Z) (t : modelType_t) (c : CConnection) (theDirection : shortDirection_t)
    (mySimVoltage : Z) (thePropagationType : propagation_t) : DB (option CConnection) :=
  let powerOnly := bool_decide (thePropagationType = POWER_NETS_ONLY) in
  if negb (IsMos_ t) then mret (Some c)
  else if gateVoltage c =? UNKNOWN_VOLTAGE then
    mx ← MaxVoltage (finalNetId (masterGateNet c)) false;
    mn ← MinVoltage (finalNetId (masterGateNet c)) false;
    let k := IsKnownVoltage_ mySimVoltage in
    let on := mySimVoltage + VthOf c in
    if IsPmos_ t && IsKnownVoltage_ mx && k && (mx <? on) then
      a ← IsAlwaysOnCandidate theDeviceId theDirection;
      mret (if (a : bool) then Some (set_gateVoltage mx c) else None)
    else if IsNmos_ t && IsKnownVoltage_ mn && k && (on <? mn) then
      a ← IsAlwaysOnCandidate theDeviceId theDirection;
      mret (if (a : bool) then Some (set_gateVoltage mn c) else None)
    else
      mret (if powerOnly || (negb (gateId c =? sourceId c) && negb (gateId c =? drainId c))
            then None else Some c)
  else if powerOnly then
    p ← arrow (gatePower_p c);
    mret (if IsPriorityPower_ p then Some c else None)
  else mret (Some c).

(** The end of the handler, for a device that conducts. *)
Definition propagateSim (q : eventQueue_t) (theDeviceId : Z) (c : CConnection)
    (theDirection : shortDirection_t) (mySimVoltage myNextNetId : Z) (thePropagationType : propagation_t)
    : DB unit :=
  '(myCalculation, v, c) ← AdjustSimVoltage theDeviceId c mySimVoltage theDirection thePropagationType;
  if bool_decide (thePropagationType = POWER_NETS_ONLY) && negb (IsEmpty myCalculation) then mret tt
  else if v =? UNKNOWN_VOLTAGE then mret tt
  else
    _ ← ShortSimNets q theDeviceId c theDirection v myCalculation;
    EnqueueAttachedDevices q myNextNetId v.

Definition PropagateSimVoltages (q : eventQueue_t) (thePropagationType : propagation_t) : DB unit :=
  e ← takeEvent q;
  match e with
  | None => mret tt
  | Some myDeviceId =>
    c ← MapDeviceNets myDeviceId q;
    t ← nlat deviceType_v myDeviceId;
    dir ← simDirection t c;
    match dir with
    | None => mret tt
    | Some myDirection =>
      let '(_, myNextNetId, mySimVoltage, my_p) := masterSlave c myDirection in
      skip ← (if bool_decide (thePropagationType = POWER_NETS_ONLY)
              then p ← arrow my_p; mret (negb (IsPriorityPower_ p)) else mret false);
      if (skip : bool) then mret tt
      else
        g ← simGate myDeviceId t c myDirection mySimVoltage thePropagationType;
        match g with
        | None => mret tt
        | Some c =>
          if bool_decide (t = FUSE_ON)
             && negb (bool_decide (thePropagationType = ALL_NETS_AND_FUSE)) then mret tt
          else
            ib ← gets (fun d => inactiveBit (queueOf q d));
            if bool_decide (t = FUSE_OFF) then setDeviceBit myDeviceId ib true
            else
              i ← IsIrrelevant q myDeviceId c mySimVoltage DEQUEUE;
              if (i : bool) then setDeviceBit myDeviceId ib true
              else propagateSim q myDeviceId c myDirection mySimVoltage myNextNetId thePropagationType
        end
    end
  end.

End Simulate.
