(* ===== verification/Resistor.v ===== *)
(** * Resistor voltages (CCvcDb.cc, fifth part)

    The first propagation only goes through resistors.  A net between two
    resistors gets the voltage of the divider formed by its paths to the min
    and max powers. *)

From S2P Require Import Prelude CvcTypes EventQueue VirtualNet Numeric Power Db Connection Short.
From S2P Require Import Enqueue Propagate.
From stdpp Require Import base list strings gmap sets.
From Stdlib Require Import ZArith Lia Floats.SpecFloat.
#[local] Open Scope Z_scope.

Module Resistor.
Import EventQueue.EventQueue VirtualNet.VirtualNet Power.Power Numeric.Numeric Db.Db
  Connection.Connection Short.Short Enqueue.Enqueue Propagate.Propagate.

Definition RESISTOR_TEXT : string := " resistor".

(** ** The voltage divider *)

(** [theMinVoltage + long(theMaxVoltage - theMinVoltage) * theMinResistance
    / (theMinResistance + theMaxResistance)], stored in 16 bits: the
    resistances are added in 32 bits, the product is a [long]. *)
Definition dividerVoltage (theMinVoltage theMinResistance theMaxVoltage theMaxResistance : Z) : outcome Z :=
  let myTotal := u32 (theMinResistance + theMaxResistance) in
  if myTotal =? 0 then throw UndefinedBehaviour
  else Ok (s16 (theMinVoltage
                + Z.quot (s64 ((theMaxVoltage - theMinVoltage) * theMinResistance)) myTotal)).

(** A new power of a resistor net. *)
Definition newResistorPower (theNetId : Z) (isResistor : bool) : DB (option Z) :=
  a ← pushPowerM (CPower_net theNetId);
  _ ← setPowerAt theNetId (Some a);
  _ ← when isResistor (updateM (Some a) (set_typeBit RESISTOR_BIT true));
  let x := newExtraPowerData in
  _ ← updateM (Some a) (set_extraData (Some (mkExtraPowerData (expectedSim_ x) (expectedMin_ x)
        (expectedMax_ x) (family_ x) (implicitFamily_ x) (relativeSet x) RESISTOR_TEXT
        (powerAlias_ x) (pullDownVoltage_ x) (pullUpVoltage_ x))));
  mret (Some a).

Definition dividerText (myNewVoltage theMinVoltage theMinResistance theMaxVoltage theMaxResistance : Z)
    : string :=
  (" R: " +:+ PrintParameter theMaxVoltage +:+ "V -> " +:+ AddSiSuffix (single theMaxResistance)
   +:+ " ohm -> " +:+ PrintParameter myNewVoltage +:+ "V -> " +:+ AddSiSuffix (single theMinResistance)
   +:+ " ohm -> " +:+ PrintParameter theMinVoltage +:+ "V")%string.

(** The fields a calculated resistor power gets. *)
Definition dividerPower (theNetId myNewVoltage myMinNet myMaxNet : Z) (myCalculation : string)
    (p : CPower) : CPower :=
  let p := set_simCalculationType RESISTOR_CALCULATION (set_simVoltage myNewVoltage p) in
  let p := set_maxCalculationType RESISTOR_CALCULATION (set_maxVoltage myNewVoltage p) in
  let p := set_minCalculationType RESISTOR_CALCULATION (set_minVoltage myNewVoltage p) in
  let p := set_netId theNetId (set_defaultMaxNet myMaxNet (set_defaultMinNet myMinNet p)) in
  let p := set_typeBit MIN_CALCULATED_BIT true p in
  let p := set_typeBit MAX_CALCULATED_BIT true p in
  let p := set_typeBit ANALOG_BIT true p in
  let p := set_definition (definition p +:+ " calculation=> " +:+ myCalculation)%string p in
  set_typeBit RESISTOR_BIT true p.

(** Neither missing nor open. *)
Definition solidPower (n : Z) : DB bool :=
  a ← powerAt n;
  p ← pointeeM a;
  mret (match p with Some p => negb (typeBit p HIZ_BIT) | None => false end).

(** The net lies between two terminal nets, or next to nets that route
    through it the other way. *)
Definition betweenPowers (theNetId : Z) : DB bool :=
  mn ← netM MIN_QUEUE theNetId;
  mx ← netM MAX_QUEUE theNetId;
  if nextNetId mn =? nextNetId mx then mret false
  else
    a ← isTerminalM MIN_QUEUE (nextNetId mn);
    a ← (if (a : bool) then mret true
         else x ← netM MAX_QUEUE (nextNetId mn); mret (theNetId =? nextNetId x));
    if negb a then mret false
    else
      b ← isTerminalM MAX_QUEUE (nextNetId mx);
      if (b : bool) then mret true
      else x ← netM MIN_QUEUE (nextNetId mx); mret (theNetId =? nextNetId x).

Definition CalculateResistorVoltage (theNetId theMinVoltage theMinResistance theMaxVoltage
    theMaxResistance : Z) : DB unit :=
  if (theMinVoltage =? UNKNOWN_VOLTAGE) || (theMaxVoltage =? UNKNOWN_VOLTAGE) then mret tt
  else if (theMinResistance =? 0) || (theMaxResistance =? 0) then mret tt
  else
    mn ← netM MIN_QUEUE theNetId;
    mx ← netM MAX_QUEUE theNetId;
    a ← solidPower (finalNetId mn);
    if negb a then mret tt
    else
      b ← solidPower (finalNetId mx);
      if negb b then mret tt
      else
        ok ← betweenPowers theNetId;
        if negb ok then mret tt
        else
          old ← powerAt theNetId;
          p ← (match old with
               | Some _ => mret old
               | None => newResistorPower theNetId false
               end);
          v ← lift (dividerVoltage theMinVoltage theMinResistance theMaxVoltage theMaxResistance);
          _ ← updateM p (dividerPower theNetId v (finalNetId mn) (finalNetId mx)
                (dividerText v theMinVoltage theMinResistance theMaxVoltage theMaxResistance));
          _ ← tickLastUpdate MIN_QUEUE;
          _ ← tickLastUpdate SIM_QUEUE;
          _ ← tickLastUpdate MAX_QUEUE;
          mret tt.

(** ** Resistor nets *)

Definition PropagateResistorCalculations (theNetId : Z) (first next : CNetlist -> list Z) : DB unit :=
  let ensure n : DB unit :=
    a ← powerAt n;
    match a with
    | None => _ ← newResistorPower n true; mret tt
    | Some _ => mret tt
    end in
  let body device_it : DB (option unit) :=
    t ← nlat deviceType_v device_it;
    if bool_decide (t = RESISTOR) then
      c ← MapFullDeviceNets device_it;
      _ ← ensure (fDrainId c);
      _ ← ensure (fSourceId c);
      mret None
    else mret None in
  _ ← overDevices first next theNetId body; mret tt.

(** The first loop of [CalculateResistorVoltages] visits the powers appended
    while it runs. *)
Fixpoint resistorNetLoop (fuel : nat) (i : Z) : DB unit :=
  match fuel with
  | O => raise OutOfFuel
  | S fuel =>
      l ← gets cvcPowerPtrList;
      if Z.of_nat (length l) <=? i then mret tt
      else
        a ← at_ cvcPowerPtrList i;
        p ← derefM a;
        _ ← (if typeBit p RESISTOR_BIT && negb (netId p =? UNKNOWN_NET) then
               b ← powerAt (netId p);
               when (bool_decide (b = Some a))
                 (_ ← PropagateResistorCalculations (netId p) firstSource_v nextSource_v;
                  PropagateResistorCalculations (netId p) firstDrain_v nextDrain_v)
             else mret tt);
        resistorNetLoop fuel (i + 1)
  end.

(** Whether the divider of a net is still to be calculated. *)
Definition needsDivider (n : Z) : DB bool :=
  a ← powerAt n;
  p ← pointeeM a;
  match p with
  | None => c ← at_ connectionCount_v n; mret (sourceDrainType c =? RESISTOR_ONLY)
  | Some p => mret (typeBit p RESISTOR_BIT && (simVoltage p =? UNKNOWN_VOLTAGE))
  end.

Definition resistorDevice (device_it : Z) : DB unit :=
  t ← nlat deviceType_v device_it;
  i ← getDeviceBit device_it SIM_INACTIVE;
  if negb (bool_decide (t = RESISTOR)) || (i : bool) then mret tt
  else
    c ← MapFullDeviceNets device_it;
    let side n (x y : CTerminal) : DB unit :=
      b ← needsDivider n;
      when ((b : bool) && negb (voltage x =? voltage y))
        (CalculateResistorVoltage n (voltage x) (finalResistance (master x)) (voltage y)
           (finalResistance (master y))) in
    _ ← side (fSourceId c) (atSource (fMin c)) (atSource (fMax c));
    side (fDrainId c) (atDrain (fMin c)) (atDrain (fMax c)).

(** [netVoltagePtr_v[n].full && ...->simVoltage != UNKNOWN_VOLTAGE && ! IsTerminal(n)]. *)
Definition calculatedLink (q : eventQueue_t) (n : Z) : DB bool :=
  a ← powerAt n;
  p ← pointeeM a;
  if optb (fun p => IsKnownVoltage_ (simVoltage p)) p
  then t ← isTerminalM q n; mret (negb t) else mret false.

Fixpoint lowEnd (fuel : nat) (myPowerNet myNextNet : Z) : DB Z :=
  match fuel with
  | O => raise OutOfFuel
  | S fuel =>
      b ← calculatedLink MIN_QUEUE myNextNet;
      if (b : bool) then
        n ← netM MIN_QUEUE myNextNet; lowEnd fuel myNextNet (nextNetId n)
      else mret myPowerNet
  end.

(** [net_v[n].nextNetId = net_v[n].finalNetId = n], the resistances stay. *)
Definition detach (q : eventQueue_t) (n : Z) : DB unit :=
  x ← netM q n;
  modify (fun d => set_netsOf q (set_nets (vupdate (nets (netsOf q d)) n
    (mkVirtualNet n (resistance x) n (finalResistance x) (backupNetId x))) (netsOf q d)) d).

Fixpoint detachLoop (fuel : nat) (myPowerNet : Z) : DB unit :=
  match fuel with
  | O => raise OutOfFuel
  | S fuel =>
      n ← netM MAX_QUEUE myPowerNet;
      _ ← detach MIN_QUEUE myPowerNet;
      _ ← detach MAX_QUEUE myPowerNet;
      b ← calculatedLink MAX_QUEUE (nextNetId n);
      if (b : bool) then detachLoop fuel (nextNetId n) else mret tt
  end.

(** The last loop of [CalculateResistorVoltages]: report, and make every
    calculated net the end of its chains. *)
Fixpoint finishResistors (l : list Z) (myPrintedPower : list bool) : DB unit :=
  match l with
  | [] => mret tt
  | a :: l =>
      p ← derefM a;
      done ← lift (vget myPrintedPower (netId p));
      if (done : bool) then finishResistors l myPrintedPower
      else if negb (typeBit p RESISTOR_BIT) then finishResistors l myPrintedPower
      else
        b ← powerAt (netId p);
        x ← arrow b;
        if simVoltage x =? UNKNOWN_VOLTAGE then
          _ ← when (negb (IsEmpty (definition x))) (reportM (Warning (netId p)));
          finishResistors l myPrintedPower
        else if IsCalculatedVoltage_ (Some p) && bool_decide (b = Some a) then
          n ← netM MIN_QUEUE (netId p);
          fuel ← gets (fun d => S (length (nets (minNet_v d))));
          e ← lowEnd fuel (netId p) (nextNetId n);
          _ ← detachLoop fuel e;
          finishResistors l (vupdate myPrintedPower (netId p) true)
        else finishResistors l myPrintedPower
  end.

Definition CalculateResistorVoltages : DB unit :=
  n ← nl netCount;
  l ← gets cvcPowerPtrList;
  _ ← resistorNetLoop (S (length l) + Z.to_nat n) 0;
  _ ← forAllDevices resistorDevice;
  l ← gets cvcPowerPtrList;
  finishResistors l (replicate (Z.to_nat n) false).

(** ** The resistor propagation *)

Definition enqueuePower (a : Z) : DB unit :=
  p ← derefM a;
  _ ← when (IsKnownVoltage_ (minVoltage p))
        (EnqueueAttachedResistors MIN_QUEUE (netId p) (minVoltage p)
           (DefaultQueuePosition_ (typeBit p POWER_BIT) MIN_QUEUE));
  when (IsKnownVoltage_ (maxVoltage p))
    (EnqueueAttachedResistors MAX_QUEUE (netId p) (maxVoltage p)
       (DefaultQueuePosition_ (typeBit p POWER_BIT) MAX_QUEUE)).

(** The queue the next resistor event is taken from; [None] when both are
    empty. *)
Definition nextResistorQueue (d : CCvcDb) : option eventQueue_t :=
  let a := QueueSize (minEventQueue d) in
  let b := QueueSize (maxEventQueue d) in
  if u32 (a + b) <=? 0 then None else Some (if b <? a then MIN_QUEUE else MAX_QUEUE).

(** Every event uses up a unit of the work [Work.work], at most four units
    per device. *)
Fixpoint resistorLoop (fuel : nat) : DB unit :=
  match fuel with
  | O => raise OutOfFuel
  | S fuel =>
      q ← gets nextResistorQueue;
      match q with
      | None => mret tt
      | Some q => _ ← PropagateResistorVoltages q; resistorLoop fuel
      end
  end.

Definition startQueue (q : eventQueue_t) : DB unit :=
  modify (fun d => set_queueOf q (set_queueStart true (queueOf q d)) d).

Definition SetResistorVoltagesByPower : DB unit :=
  l ← gets cvcPowerPtrList;
  _ ← forList l enqueuePower;
  _ ← startQueue MIN_QUEUE;
  _ ← startQueue MAX_QUEUE;
  n ← gets (fun d => length (deviceStatus_v d));
  _ ← resistorLoop (S (4 * n)%nat);
  _ ← CalculateResistorVoltages;
  PrintAndResetCircuitErrors 0 [].

End Resistor.
