(* ===== verification/Divider.v ===== *)
(** * Resistor dividers

    The voltage [CalculateResistorVoltage] gives to a net between two
    resistors: the exact (truncated) quotient, without wrap-around, between
    the two voltages of its divider. *)

From S2P Require Import Prelude CvcTypes EventQueue VirtualNet Numeric Power Db ExampleDb.
From S2P Require Import Connection Short Enqueue Propagate Simulate Resistor.
From stdpp Require Import base list strings gmap sets.
From Stdlib Require Import ZArith Lia.
#[local] Open Scope Z_scope.

Module Divider.
Import EventQueue.EventQueue VirtualNet.VirtualNet Power.Power Numeric.Numeric Db.Db
  Connection.Connection Short.Short Enqueue.Enqueue Propagate.Propagate Resistor.Resistor.

(** ** The quotient *)

Definition voltageRange (v : Z) : Prop := -32768 <= v <= 32767.
Definition resistanceRange (r : Z) : Prop := 0 < r <= MAX_RESISTANCE.

(** A fraction of a span lies within the span, on the side of its sign. *)
Lemma quot_fraction span a b :
  0 < a -> 0 < b -> Z.min 0 span <= Z.quot (span * a) (a + b) <= Z.max 0 span.
Proof.
  intros Ha Hb. destruct (Z.le_gt_cases 0 span) as [H | H].
  - rewrite Z.min_l, Z.max_r by lia. split; [apply Z.quot_pos; nia |].
    apply Z.quot_le_upper_bound; nia.
  - rewrite Z.min_r, Z.max_l by lia.
    replace (span * a) with (- ((- span) * a)) by lia. rewrite Z.quot_opp_l by lia.
    pose proof (Z.quot_pos (- span * a) (a + b) ltac:(nia) ltac:(lia)).
    pose proof (Z.quot_le_upper_bound (- span * a) (a + b) (- span) ltac:(lia) ltac:(nia)). lia.
Qed.

(** The arithmetic of the source, 32-bit sum, 64-bit product and 16-bit
    result, does not wrap on saturated resistances. *)
Lemma dividerVoltage_exact vmin rmin vmax rmax :
  voltageRange vmin -> voltageRange vmax -> resistanceRange rmin -> resistanceRange rmax ->
  dividerVoltage vmin rmin vmax rmax = Ok (vmin + Z.quot ((vmax - vmin) * rmin) (rmin + rmax)).
Proof.
  unfold voltageRange, resistanceRange. rewrite MAX_RESISTANCE_val. intros H1 H2 H3 H4.
  unfold dividerVoltage. rewrite wrap_u_id by (unfold fits_u; lia).
  destruct (Z.eqb_spec (rmin + rmax) 0); [lia |].
  rewrite (wrap_s_id 64) by (unfold fits_s; nia).
  pose proof (quot_fraction (vmax - vmin) rmin rmax ltac:(lia) ltac:(lia)).
  by rewrite s16_id by lia.
Qed.

Lemma dividerVoltage_between vmin rmin vmax rmax v :
  voltageRange vmin -> voltageRange vmax -> resistanceRange rmin -> resistanceRange rmax ->
  dividerVoltage vmin rmin vmax rmax = Ok v -> Z.min vmin vmax <= v <= Z.max vmin vmax.
Proof.
  intros H1 H2 H3 H4. rewrite dividerVoltage_exact by done. intros [= <-].
  destruct H3, H4. pose proof (quot_fraction (vmax - vmin) rmin rmax ltac:(lia) ltac:(lia)). lia.
Qed.

(** ** The calculated power *)

(** The net's own power, created when it has none. *)
Definition ownPower (n : Z) : DB (option Z) :=
  old ← powerAt n;
  match old with Some _ => mret old | None => newResistorPower n false end.

(** [d'] differs from [d] in the power of net [n], stored at [a]. *)
Record onlyPower (n a : Z) (d d' : CCvcDb) : Prop := {
  op_at : vlookup (netVoltagePtr_v d') n = Some (Some a);
  op_other i : i <> n -> vlookup (netVoltagePtr_v d') i = vlookup (netVoltagePtr_v d) i;
  op_heap : only_at a (powers d) (powers d');
  op_nets q : nets (netsOf q d') = nets (netsOf q d);
  op_status : deviceStatus_v d' = deviceStatus_v d
}.

Lemma ownPower_run n d o :
  heap_ok (powers d) (netVoltagePtr_v d) -> vlookup (netVoltagePtr_v d) n = Some o ->
  exists a p d', ownPower n d = Ok (Some a, d') /\ deref (powers d') a = Ok p /\ onlyPower n a d d' /\
    (forall q, netsOf q d' = netsOf q d) /\ (forall a0, o = Some a0 -> a = a0 /\ d' = d).
Proof.
  intros [Hf Hp] Hn. unfold ownPower, powerAt, at_, lift, mbind, M_bind.
  rewrite (proj2 (vget_Ok _ _ _) Hn). destruct o as [a |].
  - destruct (Hp _ _ Hn) as [p Ha]. exists a, p, d. split_and!; [done | done | by constructor | done | naive_solver].
  - destruct d. simpl in *. unfold newResistorPower, pushPowerM, allocM, modify, mbind, M_bind. simpl.
    unfold setPowerAt. simpl. rewrite vset_in_range by (by eapply vlookup_range). simpl.
    erewrite update_deref by (unfold deref; simpl; by rewrite lookup_insert_eq). simpl.
    do 3 eexists. split; [done |]. split; [apply deref_store_eq |]. split_and!; [| by intros [] | done].
    constructor; simpl.
    + apply vlookup_vupdate_eq. by eapply vlookup_range.
    + intros i Hi. by apply vlookup_vupdate_ne.
    + apply only_at_store. intros b Hb. unfold deref. simpl. by rewrite lookup_insert_ne.
    + by intros [].
    + done.
Qed.

Lemma tick_run q d :
  lastUpdate (netsOf q d) <> INT32_MAX ->
  tickLastUpdate q d = Ok (lastUpdate (netsOf q d) + 1,
                           set_netsOf q (set_lastUpdate (lastUpdate (netsOf q d) + 1) (netsOf q d)) d).
Proof.
  intros H. unfold tickLastUpdate, lastUpdateM, gets, modify, mbind, M_bind.
  by destruct (Z.eqb_spec (lastUpdate (netsOf q d)) INT32_MAX).
Qed.

(** Three ticks leave everything but the stamps. *)
Lemma ticks_run d :
  (forall q, lastUpdate (netsOf q d) <> INT32_MAX) ->
  exists d', (_ ← tickLastUpdate MIN_QUEUE; _ ← tickLastUpdate SIM_QUEUE; _ ← tickLastUpdate MAX_QUEUE;
              mret tt) d = Ok (tt, d') /\
    powers d' = powers d /\ netVoltagePtr_v d' = netVoltagePtr_v d /\
    (forall q, nets (netsOf q d') = nets (netsOf q d)) /\ deviceStatus_v d' = deviceStatus_v d /\
    (forall q, lastUpdate (netsOf q d') = lastUpdate (netsOf q d) + 1).
Proof.
  intros H. unfold mbind, M_bind. eexists. split.
  - rewrite tick_run by apply H. rewrite tick_run by (destruct d; apply (H SIM_QUEUE)).
    rewrite tick_run by (destruct d; apply (H MAX_QUEUE)). done.
  - destruct d. split_and!; try done; intros []; done.
Qed.

(** What a power holds after the calculation. *)
Definition divided (n v myMinNet myMaxNet : Z) (p : CPower) : Prop :=
  minVoltage p = v /\ simVoltage p = v /\ maxVoltage p = v /\ netId p = n /\
  defaultMinNet p = myMinNet /\ defaultMaxNet p = myMaxNet /\
  minCalculationType p = RESISTOR_CALCULATION /\ maxCalculationType p = RESISTOR_CALCULATION /\
  typeBit p RESISTOR_BIT = true /\ typeBit p ANALOG_BIT = true /\
  typeBit p MIN_CALCULATED_BIT = true /\ typeBit p MAX_CALCULATED_BIT = true.

Lemma dividerPower_type n v a b s p :
  type (dividerPower n v a b s p) =
  status_set (status_set (status_set (status_set (type p) (powerBit MIN_CALCULATED_BIT) true)
    (powerBit MAX_CALCULATED_BIT) true) (powerBit ANALOG_BIT) true) (powerBit RESISTOR_BIT) true.
Proof. by destruct p. Qed.

Lemma dividerPower_divided n v a b s p : divided n v a b (dividerPower n v a b s p).
Proof.
  unfold divided, typeBit. rewrite dividerPower_type.
  split_and!; try (by destruct p); by rewrite !status_get_set by done.
Qed.

(** C35: a net between two powers gets the voltage of its resistor divider.
    When both ends are powers that are not open, the net lies on different
    paths to them and the levels and resistances are known,
    [CalculateResistorVoltage] succeeds; the power of the net has the same
    min, simulation and max level, the exact quotient, which lies between the
    two given voltages; no other power, virtual net or device changes, and
    every net vector gets a new stamp. *)
Theorem CalculateResistorVoltage_divides d n vmin rmin vmax rmax mn mx o :
  heap_ok (powers d) (netVoltagePtr_v d) ->
  (forall q, lastUpdate (netsOf q d) <> INT32_MAX) ->
  vlookup (netVoltagePtr_v d) n = Some o ->
  vlookup (nets (minNet_v d)) n = Some mn -> vlookup (nets (maxNet_v d)) n = Some mx ->
  voltageRange vmin -> voltageRange vmax -> vmin <> UNKNOWN_VOLTAGE -> vmax <> UNKNOWN_VOLTAGE ->
  resistanceRange rmin -> resistanceRange rmax ->
  solidPower (finalNetId mn) d = Ok (true, d) -> solidPower (finalNetId mx) d = Ok (true, d) ->
  betweenPowers n d = Ok (true, d) ->
  exists d' a p v, CalculateResistorVoltage n vmin rmin vmax rmax d = Ok (tt, d') /\
    onlyPower n a d d' /\ deref (powers d') a = Ok p /\
    divided n v (finalNetId mn) (finalNetId mx) p /\
    v = vmin + Z.quot ((vmax - vmin) * rmin) (rmin + rmax) /\ Z.min vmin vmax <= v <= Z.max vmin vmax /\
    (forall q, lastUpdate (netsOf q d') = lastUpdate (netsOf q d) + 1).
Proof.
  intros Hh Ht Ho Hmn Hmx Rv Rw Hv Hw Rr Rs Hs1 Hs2 Hb.
  pose proof (dividerVoltage_exact _ _ _ _ Rv Rw Rr Rs) as Ed.
  pose proof (dividerVoltage_between _ _ _ _ _ Rv Rw Rr Rs Ed) as Hbt.
  set (v := vmin + Z.quot ((vmax - vmin) * rmin) (rmin + rmax)) in *.
  destruct (ownPower_run n d o Hh Ho) as (a & p & d1 & E1 & Hp & [H1 H2 H3 H4 H5] & Hn1 & _).
  set (p' := dividerPower n v (finalNetId mn) (finalNetId mx) (dividerText v vmin rmin vmax rmax) p).
  set (d2 := set_powers (store (powers d1) a p') d1).
  destruct (ticks_run d2) as (d3 & E3 & G1 & G2 & G3 & G4 & G5).
  { intros q. replace (netsOf q d2) with (netsOf q d1) by (by destruct d1, q). by rewrite Hn1. }
  assert (powers d2 = store (powers d1) a p') as Ep by (by destruct d1).
  assert (netVoltagePtr_v d2 = netVoltagePtr_v d1) as En by (by destruct d1).
  assert (forall q, netsOf q d2 = netsOf q d1) as Eq by (by destruct d1; intros []).
  assert (deviceStatus_v d2 = deviceStatus_v d1) as Es by (by destruct d1).
  exists d3, a, p', v. split_and!.
  - unfold CalculateResistorVoltage.
    rewrite (proj2 (Z.eqb_neq _ _) Hv), (proj2 (Z.eqb_neq _ _) Hw).
    rewrite (proj2 (Z.eqb_neq rmin 0)), (proj2 (Z.eqb_neq rmax 0)) by (destruct Rr, Rs; lia). simpl.
    unfold netM, mbind at 1 2 3 4 5, M_bind, lift. simpl.
    rewrite (proj2 (vget_Ok _ _ _) Hmn), (proj2 (vget_Ok _ _ _) Hmx), Hs1. simpl.
    rewrite Hs2. simpl. rewrite Hb. simpl.
    pose proof E1 as E. unfold ownPower, mbind, M_bind in E.
    unfold mbind, M_bind. destruct (powerAt n d) as [[old d0] | e]; [| discriminate]. rewrite E.
    rewrite Ed. unfold updateM. rewrite (update_deref _ _ _ _ Hp). exact E3.
  - constructor; [by rewrite G2, En | | | |].
    + intros i Hi. rewrite G2, En. by apply H2.
    + rewrite G1, Ep. by apply only_at_store.
    + intros q. by rewrite G3, Eq.
    + by rewrite G4, Es.
  - rewrite G1, Ep. apply deref_store_eq.
  - apply dividerPower_divided.
  - done.
  - lia.
  - lia.
  - intros q. by rewrite G5, Eq, Hn1.
Qed.

(** ** An example *)

(** The example circuit after its resistor events: MID hangs on VSS by 3000
    ohm in the min nets and on VDD by 1000 ohm in the max nets. *)
Definition midNets (next r : Z) (x : CVirtualNetVector) : CVirtualNetVector :=
  set_nets (vupdate (nets x) 4 (mkVirtualNet next r next r UNKNOWN_NET)) x.
Definition midDb : CCvcDb :=
  set_minNet_v (midNets 1 3000 (minNet_v ExampleDb.exampleDb))
    (set_maxNet_v (midNets 0 1000 (maxNet_v ExampleDb.exampleDb)) ExampleDb.exampleDb).

Lemma midDb_heap : heap_ok (powers midDb) (netVoltagePtr_v midDb).
Proof.
  split.
  - intros a Ha. simpl in Ha. simpl. rewrite !lookup_insert_ne by lia. apply lookup_empty.
  - intros i a H. pose proof (vlookup_range _ _ _ H) as R. simpl in R.
    assert (i = 0 \/ i = 1 \/ i = 2 \/ i = 3 \/ i = 4) as [-> | [-> | [-> | [-> | ->]]]] by lia;
      vm_compute in H; try discriminate; injection H as <-; eexists; vm_compute; reflexivity.
Qed.

Lemma CalculateResistorVoltage_divides_witness :
  exists d' a p v, CalculateResistorVoltage 4 0 3000 1200 1000 midDb = Ok (tt, d') /\
    onlyPower 4 a midDb d' /\ deref (powers d') a = Ok p /\ divided 4 v 1 0 p /\
    v = 900 /\ 0 <= v <= 1200 /\ (forall q, lastUpdate (netsOf q d') = lastUpdate (netsOf q midDb) + 1).
Proof.
  apply (CalculateResistorVoltage_divides midDb 4 0 3000 1200 1000
    (mkVirtualNet 1 3000 1 3000 UNKNOWN_NET) (mkVirtualNet 0 1000 0 1000 UNKNOWN_NET) None);
    try (vm_compute; reflexivity); try (vm_compute; discriminate); try (vm_compute; split; discriminate).
  - exact midDb_heap.
  - intros []; vm_compute; discriminate.
  - split; [reflexivity | vm_compute; discriminate].
  - split; [reflexivity | vm_compute; discriminate].
Defined.

(** The whole resistor phase on the example circuit: the divider of 1000 and
    3000 ohm puts MID at 900 mV, and MID becomes the end of its own chains. *)
Example resistor_phase_example :
  match SetResistorVoltagesByPower ExampleDb.exampleDb with
  | Ok (_, d) =>
      match netVoltagePtr_v d !! 4%nat with
      | Some (Some a) =>
          match deref (powers d) a with
          | Ok p => (minVoltage p, simVoltage p, maxVoltage p) = (900, 900, 900) /\
              definition p = " calculation=>  R: 1.2V -> 1e+03 ohm -> 0.9V -> 3k ohm -> 0.0V"%string
          | Err _ => False
          end
      | _ => False
      end /\ nextNetId <$> (nets (minNet_v d)) !! 4%nat = Some 4
  | Err _ => False
  end.
Proof. vm_compute. repeat split. Qed.

End Divider.
