(* ===== verification/Logic.v ===== *)
(** * A program logic for the handlers

    [safe P m Q]: run from a state that satisfies [P], the handler [m] never
    raises [EQueueError] (a device enqueued twice) and, when it returns, its
    result and final state satisfy [Q].  [keeps P m] is the case of an
    invariant, [preserves P m] the same for the runs that return, whatever
    the others raise.  [Stable P] lists the parts of the state [P] does not look at;
    every function that only reads, or writes those parts, keeps a stable
    predicate, which the hint database [keeps] records. *)

From S2P Require Import Prelude CvcTypes EventQueue VirtualNet Numeric Power Db Connection Short.
From S2P Require Import Enqueue Propagate Simulate Resistor.
From stdpp Require Import base list strings gmap sets.
From Stdlib Require Import ZArith Lia Floats.SpecFloat.
#[local] Open Scope Z_scope.

Module Logic.
Import EventQueue.EventQueue VirtualNet.VirtualNet Power.Power Numeric.Numeric Db.Db
  Connection.Connection Short.Short Enqueue.Enqueue Propagate.Propagate Simulate.Simulate
  Resistor.Resistor.

(** ** Computations without queue errors *)

Definition calm {A} (o : outcome A) : Prop := o <> Err EQueueError.

Lemma calm_bind {A B} (m : outcome A) (f : A -> outcome B) :
  calm m -> (forall a, calm (f a)) -> calm (m ≫= f).
Proof. unfold calm. destruct m; simpl; auto. congruence. Qed.

Lemma calm_Ok {A} (a : A) : calm (Ok a).
Proof. done. Qed.

Create HintDb calm.
#[export] Hint Resolve calm_Ok : calm.

Ltac calm_step :=
  match goal with
  | |- calm (mbind _ _) => apply calm_bind; [| intros ?]
  | |- calm (let '(_, _) := ?x in _) => destruct x
  | |- calm (if ?b then _ else _) => destruct b
  | |- calm (match ?x with _ => _ end) => destruct x
  | |- calm (mret _) => done
  | |- calm (Err _) => done
  | |- calm (throw _) => done
  | |- _ => solve [auto with calm]
  end.
Ltac calm := repeat (cbv zeta; calm_step).

Lemma calm_vget {A} (v : list A) i : calm (vget v i).
Proof. unfold vget. calm. Qed.
Lemma calm_vset {A} (v : list A) i x : calm (vset v i x).
Proof. unfold vset. calm. Qed.
Lemma calm_assert b : calm (assert_ b).
Proof. by destruct b. Qed.
#[export] Hint Resolve calm_vget calm_vset calm_assert : calm.

Lemma calm_deref h a : calm (deref h a).
Proof. unfold deref. calm. Qed.
#[export] Hint Resolve calm_deref : calm.
Lemma calm_pointee h a : calm (pointee h a).
Proof. unfold pointee. calm. Qed.
Lemma calm_update h a f : calm (update h a f).
Proof. unfold update. calm. Qed.
#[export] Hint Resolve calm_pointee calm_update : calm.

Lemma calm_voltageAt f h v n : calm (voltageAt f h v n).
Proof. unfold voltageAt. calm. Qed.
Lemma calm_IsTerminal v n : calm (IsTerminal v n).
Proof. unfold IsTerminal. calm. Qed.
Lemma calm_chase fuel : forall v c n r, calm (chase fuel v c n r).
Proof. induction fuel; intros; simpl; calm. Qed.
#[export] Hint Resolve calm_voltageAt calm_IsTerminal calm_chase : calm.
Lemma calm_access x v n : calm (access x v n).
Proof. unfold access. calm. Qed.
Lemma calm_stamp u n t : calm (stamp u n t).
Proof. unfold stamp. calm. Qed.
#[export] Hint Resolve calm_stamp : calm.
Lemma calm_Set v n m r t : calm (Set_ v n m r t).
Proof. unfold Set_. calm. Qed.
Lemma calm_masterNet fuel : forall v n r, calm (masterNet fuel v n r).
Proof. induction fuel; intros; simpl; calm. Qed.
#[export] Hint Resolve calm_access calm_Set calm_masterNet : calm.
Lemma calm_chainEnd v n : calm (chainEnd v n).
Proof. unfold chainEnd. calm. Qed.
#[export] Hint Resolve calm_chainEnd : calm.
Lemma calm_basePowerLoop fuel : forall h v w n a, calm (basePowerLoop fuel h v w n a).
Proof. induction fuel; intros; simpl; calm. Qed.
#[export] Hint Resolve calm_basePowerLoop : calm.
Lemma calm_GetBasePower h v w a : calm (GetBasePower h v w a).
Proof. unfold GetBasePower. calm. Qed.
#[export] Hint Resolve calm_GetBasePower : calm.
Lemma calm_IsRelatedPower h v w x a b e f : calm (IsRelatedPower h v w x a b e f).
Proof. unfold IsRelatedPower. calm. Qed.
Lemma calm_ensurePower h v n : calm (ensurePower h v n).
Proof. unfold ensurePower. calm. Qed.
Lemma calm_inheritAlias h v a b c x : calm (inheritAlias h v a b c x).
Proof. unfold inheritAlias. calm. Qed.
#[export] Hint Resolve calm_IsRelatedPower calm_ensurePower calm_inheritAlias : calm.
Lemma calm_CalculatePower h v a b c q s n m t : calm (CalculatePower h v a b c q s n m t).
Proof. unfold CalculatePower. calm. Qed.
Lemma calm_SimKey k r : calm (SimKey k r).
Proof. unfold SimKey. calm. Qed.
Lemma calm_backupEnd fuel : forall v n, calm (backupEnd fuel v n).
Proof. induction fuel; intros; simpl; calm. Qed.
Lemma calm_leastLoop fuel : forall v n, calm (leastLoop fuel v n).
Proof. induction fuel; intros; simpl; calm. Qed.
#[export] Hint Resolve calm_CalculatePower calm_SimKey calm_backupEnd calm_leastLoop : calm.
Lemma calm_GetLeastEquivalentNet x n : calm (GetLeastEquivalentNet x n).
Proof. unfold GetLeastEquivalentNet. calm. Qed.
Lemma calm_modifyCell v i j f : calm (modifyCell v i j f).
Proof. unfold modifyCell. calm. Qed.
Lemma calm_originalNets i dev soi : calm (originalNets i dev soi).
Proof. unfold originalNets. calm. Qed.
Lemma calm_dividerVoltage a b c e : calm (dividerVoltage a b c e).
Proof. unfold dividerVoltage. calm. Qed.
#[export] Hint Resolve calm_GetLeastEquivalentNet calm_modifyCell calm_originalNets
  calm_dividerVoltage : calm.
Lemma calm_resetRow i l x r : calm (resetRow i l x r).
Proof. unfold resetRow. calm. Qed.
#[export] Hint Resolve calm_resetRow : calm.
Lemma calm_resetRows i l devs : forall rows, calm (resetRows i l devs rows).
Proof. induction devs; intros rows; destruct rows; simpl; calm. Qed.
#[export] Hint Resolve calm_resetRows : calm.
Lemma calm_resetCircuit i l c : calm (resetCircuit i l c).
Proof. unfold resetCircuit. calm. Qed.
#[export] Hint Resolve calm_resetCircuit : calm.
Lemma calm_resetCircuits i l cs : calm (resetCircuits i l cs).
Proof. induction cs; simpl; calm. Qed.
#[export] Hint Resolve calm_resetCircuits : calm.

(** ** Triples *)

Definition safe_ {A} (strict : bool) (P : CCvcDb -> Prop) (m : DB A) (Q : A -> CCvcDb -> Prop) : Prop :=
  forall d, P d -> match m d with Ok (a, d') => Q a d' | Err e => strict = true -> e <> EQueueError end.

Definition keeps_ {A} (strict : bool) (P : CCvcDb -> Prop) (m : DB A) : Prop := safe_ strict P m (fun _ => P).

Abbreviation safe := (safe_ true).
Abbreviation keeps := (keeps_ true).
Abbreviation preserves := (keeps_ false).

Lemma safe_bind {strict} {A B} P (m : DB A) (f : A -> DB B) Q R :
  safe_ strict P m R -> (forall a, safe_ strict (R a) (f a) Q) -> safe_ strict P (m ≫= f) Q.
Proof.
  intros Hm Hf d Hd. unfold mbind, M_bind. specialize (Hm d Hd).
  destruct (m d) as [[a d'] | e]; [by apply Hf | done].
Qed.

Lemma safe_conseq {strict} {A} (P P' : CCvcDb -> Prop) (m : DB A) (Q Q' : A -> CCvcDb -> Prop) :
  safe_ strict P' m Q' -> (forall d, P d -> P' d) -> (forall a d, Q' a d -> Q a d) -> safe_ strict P m Q.
Proof.
  intros H HP HQ d Hd. specialize (H d (HP d Hd)). destruct (m d) as [[a d'] | e]; [by apply HQ | done].
Qed.

Lemma keeps_weaken {strict} {A} P (m : DB A) : keeps P m -> keeps_ strict P m.
Proof. intros H d Hd. specialize (H d Hd). destruct (m d) as [[a d'] | e]; auto. Qed.

Lemma safe_ret {strict} {A} (P : CCvcDb -> Prop) (a : A) (Q : A -> CCvcDb -> Prop) :
  (forall d, P d -> Q a d) -> safe_ strict P (mret a) Q.
Proof. intros H d Hd. by apply H. Qed.

Lemma keeps_bind {strict} {A B} P (m : DB A) (f : A -> DB B) :
  keeps_ strict P m -> (forall a, keeps_ strict P (f a)) -> keeps_ strict P (m ≫= f).
Proof. apply safe_bind. Qed.

Lemma keeps_then {strict} {A B} P (m : DB A) (f : A -> DB B) Q :
  keeps_ strict P m -> (forall a, safe_ strict P (f a) Q) -> safe_ strict P (m ≫= f) Q.
Proof. apply safe_bind. Qed.

Lemma keeps_ret {strict} {A} P (a : A) : keeps_ strict P (mret a).
Proof. by intros d Hd. Qed.

Lemma keeps_raise {strict} {A} P e : e <> EQueueError -> keeps_ (A := A) strict P (raise e).
Proof. by intros He d Hd _. Qed.

Lemma keeps_gets {strict} {A} P (f : CCvcDb -> A) : keeps_ strict P (gets f).
Proof. by intros d Hd. Qed.

Lemma keeps_reader {strict} {A} P (f : CCvcDb -> outcome A) :
  (forall d, calm (f d)) -> keeps_ strict P (fun d => lift (f d) d).
Proof. intros Hf d Hd. unfold lift. specialize (Hf d). unfold calm in Hf. destruct (f d); [done |]. congruence. Qed.

Lemma keeps_lift {strict} {A} P (o : outcome A) : calm o -> keeps_ strict P (lift o).
Proof. intros Ho. by apply (keeps_reader P (fun _ => o)). Qed.

Lemma keeps_when {strict} P b (m : DB unit) : keeps_ strict P m -> keeps_ strict P (when b m).
Proof. intros H. unfold when. destruct b; [done | apply keeps_ret]. Qed.

Lemma keeps_modify {strict} P (f : CCvcDb -> CCvcDb) : (forall d, P d -> P (f d)) -> keeps_ strict P (modify f).
Proof. intros H d Hd. by apply H. Qed.

Lemma keeps_writer {strict} {A} P (f : CCvcDb -> outcome A) (g : A -> CCvcDb -> CCvcDb) :
  (forall d, calm (f d)) -> (forall a d, P d -> P (g a d)) ->
  keeps_ strict P (fun d => match f d with Ok a => Ok (tt, g a d) | Err e => Err e end).
Proof.
  intros Hf Hg d Hd. specialize (Hf d). unfold calm in Hf. destruct (f d); [by apply Hg | congruence].
Qed.

Create HintDb keeps.
#[export] Hint Resolve keeps_ret keeps_gets : keeps.
#[export] Hint Extern 1 (keeps_ _ _ (raise _)) => apply keeps_raise; done : keeps.

Ltac keep_step :=
  match goal with
  | |- keeps_ _ _ (mbind _ _) => apply keeps_bind; [| intros ?]
  | |- keeps_ _ _ (when _ _) => apply keeps_when
  | |- keeps_ _ _ (lift _) => apply keeps_lift; solve [calm]
  | |- keeps_ _ _ (let '(_, _) := ?x in _) => destruct x
  | |- keeps_ _ _ (if ?b then _ else _) => destruct b
  | |- keeps_ _ _ (match ?x with _ => _ end) => destruct x
  | |- _ => solve [auto with keeps]
  end.
Ltac keep := repeat (cbv zeta; keep_step).

(** ** Stable predicates *)

Class Stable (P : CCvcDb -> Prop) : Prop := {
  stable_access q n x v d : access newVirtualNet (netsOf q d) n = Ok (x, v) -> P d -> P (set_netsOf q v d);
  stable_Set q n m r t v d : Set_ (netsOf q d) n m r t = Ok v -> P d -> P (set_netsOf q v d);
  stable_tick q t d : P d -> P (set_netsOf q (set_lastUpdate t (netsOf q d)) d);
  stable_detach q n x d : vlookup (nets (netsOf q d)) n = Some x -> P d ->
    P (set_netsOf q (set_nets (vupdate (nets (netsOf q d)) n
         (mkVirtualNet n (resistance x) n (finalResistance x) (backupNetId x))) (netsOf q d)) d);
  stable_powers v d : P d -> P (set_powers v d);
  stable_netVoltagePtr v d : P d -> P (set_netVoltagePtr_v v d);
  stable_powerList v d : P d -> P (set_cvcPowerPtrList v d);
  stable_circuits v d : P d -> P (set_circuits v d);
  stable_netStatus v d : P d -> P (set_netStatus_v v d);
  stable_connectionCount v d : P d -> P (set_connectionCount_v v d);
  stable_errorCount v d : P d -> P (set_errorCount v d);
  stable_cellErrors v d : P d -> P (set_cellErrorCountMap v d);
  stable_reports v d : P d -> P (set_reports v d);
  stable_unknownGates v d : P d -> P (set_unknownGateSet v d);
  stable_minDependencies v d : P d -> P (set_minConnectionDependencyMap v d);
  stable_maxDependencies v d : P d -> P (set_maxConnectionDependencyMap v d);
  stable_inverterNet v d : P d -> P (set_inverterNet_v v d);
  stable_leakPtr v d : P d -> P (set_leakVoltagePtr_v v d);
  stable_fixed a b d : P d -> P (set_isFixedMaxNet a (set_isFixedMinNet b d));
  stable_leak q i a b d : P d -> P (set_queueOf q (AddLeak (queueOf q d) i a b) d)
}.

(** A predicate on the queues (their leaks apart) and the device status. *)
Lemma queue_status_stable (P : CCvcDb -> Prop) :
  (forall d d', (forall q, queueOf q d' = queueOf q d) -> deviceStatus_v d' = deviceStatus_v d ->
     P d -> P d') ->
  (forall q i a b d, P d -> P (set_queueOf q (AddLeak (queueOf q d) i a b) d)) -> Stable P.
Proof.
  intros HP Hl. split; try (intros; eapply HP; [.. | eassumption]; [intros [] |]; by destruct d).
  - intros q n x v d _. apply HP; [intros [] |]; by destruct d, q.
  - intros q n m r t v d _. apply HP; [intros [] |]; by destruct d, q.
  - intros q t d. apply HP; [intros [] |]; by destruct d, q.
  - intros q n x d _. apply HP; [intros [] |]; by destruct d, q.
  - done.
Qed.

Section Stable.
Context (P : CCvcDb -> Prop) `{!Stable P}.

Lemma keeps_at {strict} {A} (f : CCvcDb -> list A) i : keeps_ strict P (at_ f i).
Proof. apply keeps_reader. intros d. calm. Qed.
Lemma keeps_nl {strict} {A} (f : CNetlist -> A) : keeps_ strict P (nl f).
Proof. apply keeps_gets. Qed.
Lemma keeps_nlat {strict} {A} (f : CNetlist -> list A) i : keeps_ strict P (nlat f i).
Proof. apply (keeps_reader P (fun d => vget (f (netlist d)) i)). intros d. calm. Qed.
Lemma keeps_getDeviceBit {strict} i b : keeps_ strict P (getDeviceBit i b).
Proof. apply keeps_bind; [apply keeps_at | intros; apply keeps_ret]. Qed.
Lemma keeps_getNetBit {strict} i b : keeps_ strict P (getNetBit i b).
Proof. apply keeps_bind; [apply keeps_at | intros; apply keeps_ret]. Qed.
Lemma keeps_setNetBit {strict} i b x : keeps_ strict P (setNetBit i b x).
Proof.
  apply keeps_bind; [apply keeps_at |]. intros. apply keeps_modify. intros. by apply stable_netStatus.
Qed.
Lemma keeps_derefM {strict} a : keeps_ strict P (derefM a).
Proof. apply (keeps_reader P (fun d => deref (powers d) a)). intros. calm. Qed.
Lemma keeps_pointeeM {strict} a : keeps_ strict P (pointeeM a).
Proof. apply (keeps_reader P (fun d => pointee (powers d) a)). intros. calm. Qed.
Lemma keeps_arrow {strict} a : keeps_ strict P (arrow a).
Proof. destruct a; [apply keeps_derefM | by apply keeps_raise]. Qed.
Lemma keeps_updateM {strict} a f : keeps_ strict P (updateM a f).
Proof.
  destruct a as [a |]; [| by apply keeps_raise].
  apply (keeps_writer P (fun d => update (powers d) a f) set_powers); intros; [calm | by apply stable_powers].
Qed.
Lemma keeps_allocM {strict} p : keeps_ strict P (allocM p).
Proof. intros d Hd. unfold allocM. destruct (alloc _ _). by apply stable_powers. Qed.
Lemma keeps_pushPowerM {strict} p : keeps_ strict P (pushPowerM p).
Proof.
  apply keeps_bind; [apply keeps_allocM |]. intros a. apply keeps_bind; [| intros; apply keeps_ret].
  apply keeps_modify. intros. by apply stable_powerList.
Qed.
Lemma keeps_powerAt {strict} n : keeps_ strict P (powerAt n).
Proof. apply keeps_at. Qed.
Lemma keeps_setPowerAt {strict} n a : keeps_ strict P (setPowerAt n a).
Proof.
  apply (keeps_writer P (fun d => vset (netVoltagePtr_v d) n a) set_netVoltagePtr_v); intros;
    [calm | by apply stable_netVoltagePtr].
Qed.
Lemma keeps_accessM {strict} q n : keeps_ strict P (accessM q n).
Proof.
  intros d Hd. unfold accessM. pose proof (calm_access newVirtualNet (netsOf q d) n) as H.
  unfold calm in H. destruct (access _ _ _) as [[x v] | e] eqn:E; [| congruence].
  by apply (stable_access _ _ _ _ _ E).
Qed.
Lemma keeps_netM {strict} q n : keeps_ strict P (netM q n).
Proof. apply (keeps_reader P (fun d => vget (nets (netsOf q d)) n)). intros. calm. Qed.
Lemma keeps_isTerminalM {strict} q n : keeps_ strict P (isTerminalM q n).
Proof. apply (keeps_reader P (fun d => IsTerminal (netsOf q d) n)). intros. calm. Qed.
Lemma keeps_setNetM {strict} q n m r t : keeps_ strict P (setNetM q n m r t).
Proof.
  intros d Hd. unfold setNetM. pose proof (calm_Set (netsOf q d) n m r t) as H.
  unfold calm in H. destruct (Set_ _ _ _ _ _) as [v | e] eqn:E; [| congruence].
  by apply (stable_Set _ _ _ _ _ _ _ E).
Qed.
Lemma keeps_lastUpdateM {strict} q : keeps_ strict P (lastUpdateM q).
Proof. apply keeps_gets. Qed.
Lemma keeps_reportM {strict} r : keeps_ strict P (reportM r).
Proof. apply keeps_modify. intros. by apply stable_reports. Qed.
Lemma keeps_assertM {strict} b : keeps_ strict P (assertM b).
Proof. apply keeps_lift. calm. Qed.
Lemma keeps_calculatePowerM {strict} q v n m t : keeps_ strict P (calculatePowerM q v n m t).
Proof.
  intros d Hd. unfold calculatePowerM.
  pose proof (calm_CalculatePower (powers d) (netVoltagePtr_v d) (minNet_v d) (simNet_v d) (maxNet_v d)
    q v n m t) as H.
  unfold calm in H. destruct (CalculatePower _ _ _ _ _ _ _ _ _ _) as [[h x] | e]; [| congruence].
  by apply stable_netVoltagePtr, stable_powers.
Qed.
Lemma keeps_AddLeak {strict} q i a b : keeps_ strict P (queueM q (fun x => Ok (tt, AddLeak x i a b))).
Proof. intros d Hd. by apply stable_leak. Qed.
Lemma keeps_IsRelatedM {strict} a t q r x y : keeps_ strict P (IsRelatedM a t q r x y).
Proof.
  destruct a as [a |]; [| by apply keeps_raise].
  apply (keeps_reader P (fun d => IsRelatedPower (powers d) (netVoltagePtr_v d) (netsOf q d)
    (netsOf r d) a t x y)). intros. calm.
Qed.
Lemma keeps_queueVoltage {strict} q n : keeps_ strict P (queueVoltage q n).
Proof.
  apply (keeps_reader P (fun d => voltageAt (match q with MIN_QUEUE => minVoltage | MAX_QUEUE => maxVoltage
    | SIM_QUEUE => simVoltage end) (powers d) (netVoltagePtr_v d) n)). intros. calm.
Qed.
End Stable.

#[export] Hint Resolve keeps_at keeps_nl keeps_nlat keeps_getDeviceBit keeps_getNetBit keeps_setNetBit
  keeps_derefM keeps_pointeeM keeps_arrow keeps_updateM keeps_pushPowerM keeps_powerAt keeps_setPowerAt
  keeps_accessM keeps_netM keeps_isTerminalM keeps_setNetM keeps_lastUpdateM keeps_reportM keeps_assertM
  keeps_calculatePowerM keeps_AddLeak keeps_IsRelatedM keeps_queueVoltage : keeps.

#[export] Hint Extern 0 (Stable _) => typeclasses eauto : keeps.

(** ** Loops over device lists and nets *)

Section Loops.
Context (P : CCvcDb -> Prop) `{!Stable P}.

Lemma keeps_forDevices {strict} {R} fuel next (body : Z -> DB (option R)) : forall i,
  (forall j, keeps_ strict P (body j)) -> keeps_ strict P (forDevices fuel next body i).
Proof. induction fuel as [| fuel IH]; intros i Hb; simpl; keep. Qed.
Lemma keeps_loopDevices {strict} {A R} fuel next (body : A -> Z -> DB (A + R)) : forall a i,
  (forall a j, keeps_ strict P (body a j)) -> keeps_ strict P (loopDevices fuel next body a i).
Proof. induction fuel as [| fuel IH]; intros a i Hb; simpl; keep. Qed.
Lemma keeps_overDevices {strict} {R} first next n (body : Z -> DB (option R)) :
  (forall j, keeps_ strict P (body j)) -> keeps_ strict P (overDevices first next n body).
Proof. intros Hb. unfold overDevices. keep. by apply keeps_forDevices. Qed.
Lemma keeps_overDevicesWith {strict} {A R} first next n a (body : A -> Z -> DB (A + R)) :
  (forall a j, keeps_ strict P (body a j)) -> keeps_ strict P (overDevicesWith first next n a body).
Proof. intros Hb. unfold overDevicesWith. keep. by apply keeps_loopDevices. Qed.
Lemma keeps_forRange {strict} n body : forall i, (forall j, keeps_ strict P (body j)) -> keeps_ strict P (forRange n i body).
Proof. induction n as [| n IH]; intros i Hb; simpl; keep. Qed.
Lemma keeps_forNets {strict} body : (forall j, keeps_ strict P (body j)) -> keeps_ strict P (forNets body).
Proof. intros Hb. unfold forNets. keep. by apply keeps_forRange. Qed.
Lemma keeps_forAllDevices {strict} body : (forall j, keeps_ strict P (body j)) -> keeps_ strict P (forAllDevices body).
Proof. intros Hb. unfold forAllDevices. keep. by apply keeps_forRange. Qed.
Lemma keeps_forList {strict} {A} (l : list A) body : (forall x, keeps_ strict P (body x)) -> keeps_ strict P (forList l body).
Proof. intros Hb. induction l as [| x l IH]; simpl; keep. Qed.
End Loops.

Ltac keep_loop :=
  match goal with
  | |- keeps_ _ _ (overDevices _ _ _ _) => apply keeps_overDevices; intros ?
  | |- keeps_ _ _ (overDevicesWith _ _ _ _ _) => apply keeps_overDevicesWith; intros ? ?
  | |- keeps_ _ _ (forNets _) => apply keeps_forNets; intros ?
  | |- keeps_ _ _ (forAllDevices _) => apply keeps_forAllDevices; intros ?
  | |- keeps_ _ _ (forList _ _) => apply keeps_forList; intros ?
  end.
Ltac keep ::= repeat (cbv zeta; first [keep_loop | keep_step]).

(** ** Queries *)

Section Queries.
Context (P : CCvcDb -> Prop) `{!Stable P}.

Lemma keeps_GetEquivalentNet {strict} n : keeps_ strict P (GetEquivalentNet n).
Proof. unfold GetEquivalentNet. keep. Qed.
#[local] Hint Resolve keeps_GetEquivalentNet : keeps.
Lemma keeps_assertEquivalent {strict} n : keeps_ strict P (assertEquivalent n).
Proof. unfold assertEquivalent. keep. Qed.
#[local] Hint Resolve keeps_assertEquivalent : keeps.
Lemma keeps_levelOf {strict} q f n b : keeps_ strict P (levelOf q f n b).
Proof. unfold levelOf. keep. Qed.
Lemma keeps_simLimit {strict} fuel q f l n : keeps_ strict P (simLimit fuel q f l n).
Proof. revert l n. induction fuel as [| fuel IH]; intros l n; simpl; keep. Qed.
#[local] Hint Resolve keeps_levelOf keeps_simLimit : keeps.
Lemma keeps_MinVoltage {strict} n b : keeps_ strict P (Db.Db.MinVoltage n b).
Proof. unfold Db.Db.MinVoltage. keep. Qed.
Lemma keeps_MaxVoltage {strict} n b : keeps_ strict P (Db.Db.MaxVoltage n b).
Proof. unfold Db.Db.MaxVoltage. keep. Qed.
Lemma keeps_SimVoltage {strict} n : keeps_ strict P (Db.Db.SimVoltage n).
Proof. unfold Db.Db.SimVoltage. keep. Qed.
Lemma keeps_levelWithSim {strict} q f g n : keeps_ strict P (levelWithSim q f g n).
Proof. unfold levelWithSim. keep. Qed.
#[local] Hint Resolve keeps_MinVoltage keeps_MaxVoltage keeps_SimVoltage keeps_levelWithSim : keeps.
Lemma keeps_MinSimVoltage {strict} n : keeps_ strict P (MinSimVoltage n).
Proof. unfold MinSimVoltage. keep. Qed.
Lemma keeps_MaxSimVoltage {strict} n : keeps_ strict P (MaxSimVoltage n).
Proof. unfold MaxSimVoltage. keep. Qed.
Lemma keeps_resistanceOf {strict} q n : keeps_ strict P (resistanceOf q n).
Proof. unfold resistanceOf. keep. Qed.
#[local] Hint Resolve keeps_MinSimVoltage keeps_MaxSimVoltage keeps_resistanceOf : keeps.
Lemma keeps_MinResistance {strict} n : keeps_ strict P (MinResistance n).
Proof. unfold MinResistance. keep. Qed.
Lemma keeps_MaxResistance {strict} n : keeps_ strict P (MaxResistance n).
Proof. unfold MaxResistance. keep. Qed.
Lemma keeps_SimResistance {strict} n : keeps_ strict P (SimResistance n).
Proof. unfold SimResistance. keep. Qed.
Lemma keeps_leakLevel {strict} q f n : keeps_ strict P (leakLevel q f n).
Proof. unfold leakLevel. keep.
  apply (keeps_reader P (fun d => backupEnd (S (length (nets (netsOf q d)))) (nets (netsOf q d)) _)).
  intros. calm. Qed.
#[local] Hint Resolve keeps_MinResistance keeps_MaxResistance keeps_SimResistance keeps_leakLevel : keeps.
Lemma keeps_MinLeakVoltage {strict} n : keeps_ strict P (MinLeakVoltage n).
Proof. unfold MinLeakVoltage. keep. Qed.
Lemma keeps_MaxLeakVoltage {strict} n : keeps_ strict P (MaxLeakVoltage n).
Proof. unfold MaxLeakVoltage. keep. Qed.
Lemma keeps_IsDerivedFromFloating {strict} q n : keeps_ strict P (IsDerivedFromFloating q n).
Proof. unfold IsDerivedFromFloating. keep. Qed.
Lemma keeps_IsVerifiedPower {strict} n : keeps_ strict P (IsVerifiedPower n).
Proof. unfold IsVerifiedPower. keep. Qed.
Lemma keeps_deviceOf {strict} i : keeps_ strict P (deviceOf i).
Proof. unfold deviceOf. keep. Qed.
Lemma keeps_resistanceOfText {strict} t : keeps_ strict P (resistanceOfText t).
Proof. unfold resistanceOfText. keep. Qed.
#[local] Hint Resolve keeps_MinLeakVoltage keeps_MaxLeakVoltage keeps_IsDerivedFromFloating keeps_IsVerifiedPower keeps_deviceOf keeps_resistanceOfText : keeps.
Lemma keeps_MapDeviceNets {strict} i q : keeps_ strict P (MapDeviceNets i q).
Proof. unfold MapDeviceNets. keep. Qed.
Lemma keeps_isUnknownTerminal {strict} v a : keeps_ strict P (isUnknownTerminal v a).
Proof. unfold isUnknownTerminal. keep. Qed.
#[local] Hint Resolve keeps_MapDeviceNets keeps_isUnknownTerminal : keeps.
Lemma keeps_IsUnknownSourceVoltage {strict} c : keeps_ strict P (IsUnknownSourceVoltage c).
Proof. unfold IsUnknownSourceVoltage. keep. Qed.
Lemma keeps_IsUnknownGateVoltage {strict} c : keeps_ strict P (IsUnknownGateVoltage c).
Proof. unfold IsUnknownGateVoltage. keep. Qed.
Lemma keeps_IsUnknownDrainVoltage {strict} c : keeps_ strict P (IsUnknownDrainVoltage c).
Proof. unfold IsUnknownDrainVoltage. keep. Qed.
Lemma keeps_EstimatedMosDiodeCurrent {strict} c v : keeps_ strict P (EstimatedMosDiodeCurrent c v).
Proof. unfold EstimatedMosDiodeCurrent. keep. Qed.
Lemma keeps_CalculateMFactor {strict} i : keeps_ strict P (CalculateMFactor i).
Proof. unfold CalculateMFactor. keep. Qed.
Lemma keeps_limitedAncestor {strict} fuel i : keeps_ strict P (limitedAncestor fuel i).
Proof. revert i. induction fuel as [| fuel IH]; intros i; simpl; keep. Qed.
Lemma keeps_subcircuitLoop {strict} fuel c i p : keeps_ strict P (subcircuitLoop fuel c i p).
Proof. revert c i. induction fuel as [| fuel IH]; intros c i; simpl; keep. Qed.
#[local] Hint Resolve keeps_IsUnknownSourceVoltage keeps_IsUnknownGateVoltage keeps_IsUnknownDrainVoltage keeps_EstimatedMosDiodeCurrent keeps_CalculateMFactor keeps_limitedAncestor keeps_subcircuitLoop : keeps.
Lemma keeps_IsSubcircuitOf {strict} i p : keeps_ strict P (IsSubcircuitOf i p).
Proof. unfold IsSubcircuitOf. keep. Qed.
Lemma keeps_updateCircuit {strict} k f : (forall c, calm (f c)) -> keeps_ strict P (updateCircuit k f).
Proof. intros Hf. unfold updateCircuit. keep. apply keeps_modify. intros. by apply stable_circuits. Qed.
Lemma keeps_cellLimitCount {strict} a o s r c : keeps_ strict P (cellLimitCount a o s r c).
Proof. unfold cellLimitCount. keep. apply keeps_modify. intros. by apply stable_cellErrors. Qed.
#[local] Hint Resolve keeps_IsSubcircuitOf keeps_updateCircuit keeps_cellLimitCount : keeps.
Lemma keeps_IncrementDeviceError {strict} i e : keeps_ strict P (IncrementDeviceError i e).
Proof. unfold IncrementDeviceError. keep.
  - apply keeps_updateCircuit. intros. calm.
  - apply keeps_modify. intros. by apply stable_errorCount.
  - apply keeps_updateCircuit. intros. calm. Qed.
#[local] Hint Resolve keeps_IncrementDeviceError : keeps.
Lemma keeps_countAndReport {strict} i e : keeps_ strict P (countAndReport i e).
Proof. unfold countAndReport. keep. Qed.
Lemma keeps_IsOneConnectionNet {strict} n : keeps_ strict P (IsOneConnectionNet n).
Proof. unfold IsOneConnectionNet. keep. Qed.
#[local] Hint Resolve keeps_countAndReport keeps_IsOneConnectionNet : keeps.
Lemma keeps_originalMap {strict} i : keeps_ strict P (MapFullDeviceNets i).
Proof. unfold MapFullDeviceNets, MapInstanceDeviceNets, mapSample. keep. Qed.
Lemma keeps_EstimatedCurrentVth {strict} c b : keeps_ strict P (EstimatedCurrentVth c b).
Proof. unfold EstimatedCurrentVth. keep. Qed.
#[local] Hint Resolve keeps_originalMap keeps_EstimatedCurrentVth : keeps.
Lemma keeps_ReportSimShort {strict} i v w : keeps_ strict P (ReportSimShort i v w).
Proof. unfold ReportSimShort, param. keep. Qed.
Lemma keeps_expectedLeak {strict} p o : keeps_ strict P (expectedLeak p o).
Proof. unfold expectedLeak. keep. Qed.
#[local] Hint Resolve keeps_ReportSimShort keeps_expectedLeak : keeps.
Lemma keeps_ReportShort {strict} i : keeps_ strict P (ReportShort i).
Proof. unfold ReportShort, param. keep. Qed.
Lemma keeps_CheckConnectionReroute {strict} q c b : keeps_ strict P (CheckConnectionReroute q c b).
Proof. unfold CheckConnectionReroute. keep. Qed.
Lemma keeps_lastConnection {strict} f b n : keeps_ strict P (lastConnection f b n).
Proof. unfold lastConnection. keep. Qed.
#[local] Hint Resolve keeps_ReportShort keeps_CheckConnectionReroute keeps_lastConnection : keeps.
Lemma keeps_LastNmosConnection {strict} b n : keeps_ strict P (LastNmosConnection b n).
Proof. unfold LastNmosConnection. keep. Qed.
Lemma keeps_LastPmosConnection {strict} b n : keeps_ strict P (LastPmosConnection b n).
Proof. unfold LastPmosConnection. keep. Qed.
Lemma keeps_connectionTypeLoop {strict} fuel q t c n : keeps_ strict P (connectionTypeLoop fuel q t c n).
Proof. revert c n. induction fuel as [| fuel IH]; intros c n; simpl; keep.
  apply keeps_modify. intros. by apply stable_connectionCount. Qed.
#[local] Hint Resolve keeps_LastNmosConnection keeps_LastPmosConnection keeps_connectionTypeLoop : keeps.
Lemma keeps_PropagateConnectionType {strict} q t n : keeps_ strict P (PropagateConnectionType q t n).
Proof. unfold PropagateConnectionType. keep. Qed.
Lemma keeps_tickLastUpdate {strict} q : keeps_ strict P (tickLastUpdate q).
Proof. unfold tickLastUpdate. keep. apply keeps_modify. intros. by apply stable_tick. Qed.
#[local] Hint Resolve keeps_PropagateConnectionType keeps_tickLastUpdate : keeps.
Lemma keeps_shiftLoop {strict} fuel q c n l a b : keeps_ strict P (shiftLoop fuel q c n l a b).
Proof. revert c n l a b. induction fuel as [| fuel IH]; intros c n l a b; simpl; keep. Qed.
#[local] Hint Resolve keeps_shiftLoop : keeps.
Lemma keeps_ShiftVirtualNets {strict} q n l a b : keeps_ strict P (ShiftVirtualNets q n l a b).
Proof. unfold ShiftVirtualNets. keep. Qed.
Lemma keeps_settleConnection {strict} q i c a b v w p f : keeps_ strict P (settleConnection q i c a b v w p f).
Proof. unfold settleConnection. destruct q; keep. Qed.
Lemma keeps_permittedLeak {strict} p o : keeps_ strict P (permittedLeak p o).
Proof. unfold permittedLeak. keep. Qed.
#[local] Hint Resolve keeps_ShiftVirtualNets keeps_settleConnection keeps_permittedLeak : keeps.
Lemma keeps_simShorted {strict} i c : keeps_ strict P (simShorted i c).
Proof. unfold simShorted. keep. Qed.
Lemma keeps_simOffMos {strict} b c : keeps_ strict P (simOffMos b c).
Proof. unfold simOffMos. keep. Qed.
#[local] Hint Resolve keeps_simShorted keeps_simOffMos : keeps.
Lemma keeps_IsOffMos {strict} q i c v : keeps_ strict P (IsOffMos q i c v).
Proof. unfold IsOffMos. keep. Qed.
Lemma keeps_offConflict {strict} q c : keeps_ strict P (offConflict q c).
Proof. unfold offConflict. keep. Qed.
#[local] Hint Resolve keeps_IsOffMos keeps_offConflict : keeps.
Lemma keeps_isIrrelevantGuards {strict} q i c v s : keeps_ strict P (isIrrelevantGuards q i c v s).
Proof. unfold isIrrelevantGuards. keep. Qed.
Lemma keeps_AdjustMaxPmosKey {strict} c a b k p : keeps_ strict P (AdjustMaxPmosKey c a b k p).
Proof. unfold AdjustMaxPmosKey. keep. Qed.
Lemma keeps_AdjustMinNmosKey {strict} c a b k p : keeps_ strict P (AdjustMinNmosKey c a b k p).
Proof. unfold AdjustMinNmosKey. keep. Qed.
Lemma keeps_warnUnknownGate {strict} c b : keeps_ strict P (warnUnknownGate c b).
Proof. unfold warnUnknownGate. keep. apply keeps_modify. intros. by apply stable_unknownGates. Qed.
#[local] Hint Resolve keeps_isIrrelevantGuards keeps_AdjustMaxPmosKey keeps_AdjustMinNmosKey keeps_warnUnknownGate : keeps.
Lemma keeps_adjustLossKey {strict} u c g v k b : keeps_ strict P (adjustLossKey u c g v k b).
Proof. unfold adjustLossKey, gateLevel. keep. Qed.
Lemma keeps_adjustSimPosition {strict} t c v b p : keeps_ strict P (adjustSimPosition t c v b p).
Proof. unfold adjustSimPosition. keep. Qed.
#[local] Hint Resolve keeps_adjustLossKey keeps_adjustSimPosition : keeps.
Lemma keeps_AdjustKey {strict} q i c k p s b : keeps_ strict P (AdjustKey q i c k p s b).
Proof. unfold AdjustKey, AdjustMaxNmosKey, AdjustMinPmosKey. keep. Qed.
Lemma keeps_pushDependency {strict} q n x : keeps_ strict P (pushDependency q n x).
Proof. unfold pushDependency. destruct q; apply keeps_modify; intros;
  first [by apply stable_minDependencies | by apply stable_maxDependencies]. Qed.
#[local] Hint Resolve keeps_AdjustKey keeps_pushDependency : keeps.
Lemma keeps_setOppositeLevel {strict} o c a b v k t : keeps_ strict P (setOppositeLevel o c a b v k t).
Proof. unfold setOppositeLevel. keep. Qed.
#[local] Hint Resolve keeps_setOppositeLevel : keeps.
Lemma keeps_diodeLevels {strict} q c a b t : keeps_ strict P (diodeLevels q c a b t).
Proof. unfold diodeLevels. keep. Qed.
Lemma keeps_enqueueKey {strict} q i c k t : keeps_ strict P (enqueueKey q i c k t).
Proof. unfold enqueueKey. keep. Qed.
Lemma keeps_unsetCheck {strict} q n v w b : keeps_ strict P (unsetCheck q n v w b).
Proof. unfold unsetCheck. keep. Qed.
#[local] Hint Resolve keeps_diodeLevels keeps_enqueueKey keeps_unsetCheck : keeps.
Lemma keeps_unsetChecks {strict} q c : keeps_ strict P (unsetChecks q c).
Proof. unfold unsetChecks. keep. Qed.
Lemma keeps_brokenTraceResistance {strict} q c n k : keeps_ strict P (brokenTraceResistance q c n k).
Proof. unfold brokenTraceResistance. keep. Qed.
Lemma keeps_scrcShort {strict} i b n p : keeps_ strict P (scrcShort i b n p).
Proof. unfold scrcShort. keep. Qed.
Lemma keeps_minMaxDirection {strict} q c : keeps_ strict P (minMaxDirection q c).
Proof. unfold minMaxDirection. keep. Qed.
Lemma keeps_addCheck {strict} o a b k : keeps_ strict P (addCheck o a b k).
Proof. unfold addCheck, minOrMax. destruct o; keep. Qed.
Lemma keeps_equivalentOf {strict} f i : keeps_ strict P (equivalentOf f i).
Proof. unfold equivalentOf. keep. Qed.
#[local] Hint Resolve keeps_unsetChecks keeps_brokenTraceResistance keeps_scrcShort keeps_minMaxDirection keeps_addCheck keeps_equivalentOf : keeps.
Lemma keeps_countSide {strict} i f a b n j : keeps_ strict P (countSide i f a b n j).
Proof. unfold countSide. keep. Qed.
Lemma keeps_counted {strict} r : keeps_ strict P (counted r).
Proof. unfold counted. keep. Qed.
#[local] Hint Resolve keeps_countSide keeps_counted : keeps.
Lemma keeps_newDeviceCount {strict} n i : keeps_ strict P (newDeviceCount n i).
Proof. unfold newDeviceCount. keep. Qed.
Lemma keeps_IsAlwaysOnCandidate {strict} i b : keeps_ strict P (IsAlwaysOnCandidate i b).
Proof. unfold IsAlwaysOnCandidate. keep. Qed.
Lemma keeps_adjustSimMos {strict} t c g a b x y v : keeps_ strict P (adjustSimMos t c g a b x y v).
Proof. unfold adjustSimMos. keep. Qed.
Lemma keeps_limitSim {strict} b i c t o r l s x : keeps_ strict P (limitSim b i c t o r l s x).
Proof. unfold limitSim, param. keep. Qed.
#[local] Hint Resolve keeps_newDeviceCount keeps_IsAlwaysOnCandidate keeps_adjustSimMos keeps_limitSim : keeps.
Lemma keeps_AdjustSimVoltage {strict} i c v b t : keeps_ strict P (AdjustSimVoltage i c v b t).
Proof. unfold AdjustSimVoltage. keep. Qed.
Lemma keeps_simDirection {strict} t c : keeps_ strict P (simDirection t c).
Proof. unfold simDirection. keep. Qed.
#[local] Hint Resolve keeps_AdjustSimVoltage keeps_simDirection : keeps.
Lemma keeps_simGate {strict} i t c b v p : keeps_ strict P (simGate i t c b v p).
Proof. unfold simGate. keep. Qed.
#[local] Hint Resolve keeps_simGate : keeps.
End Queries.

#[export] Hint Resolve keeps_GetEquivalentNet keeps_assertEquivalent keeps_levelOf keeps_simLimit keeps_MinVoltage keeps_MaxVoltage keeps_SimVoltage keeps_levelWithSim keeps_MinSimVoltage keeps_MaxSimVoltage keeps_resistanceOf keeps_MinResistance keeps_MaxResistance keeps_SimResistance keeps_leakLevel keeps_MinLeakVoltage keeps_MaxLeakVoltage keeps_IsDerivedFromFloating keeps_IsVerifiedPower keeps_deviceOf keeps_resistanceOfText keeps_MapDeviceNets keeps_isUnknownTerminal keeps_IsUnknownSourceVoltage keeps_IsUnknownGateVoltage keeps_IsUnknownDrainVoltage keeps_EstimatedMosDiodeCurrent keeps_CalculateMFactor keeps_limitedAncestor keeps_subcircuitLoop keeps_IsSubcircuitOf keeps_updateCircuit keeps_cellLimitCount keeps_IncrementDeviceError keeps_countAndReport keeps_IsOneConnectionNet keeps_originalMap keeps_EstimatedCurrentVth keeps_ReportSimShort keeps_expectedLeak keeps_ReportShort keeps_CheckConnectionReroute keeps_lastConnection keeps_LastNmosConnection keeps_LastPmosConnection keeps_connectionTypeLoop keeps_PropagateConnectionType keeps_tickLastUpdate keeps_shiftLoop keeps_ShiftVirtualNets keeps_settleConnection keeps_permittedLeak keeps_simShorted keeps_simOffMos keeps_IsOffMos keeps_offConflict keeps_isIrrelevantGuards keeps_AdjustMaxPmosKey keeps_AdjustMinNmosKey keeps_warnUnknownGate keeps_adjustLossKey keeps_adjustSimPosition keeps_AdjustKey keeps_pushDependency keeps_setOppositeLevel keeps_diodeLevels keeps_enqueueKey keeps_unsetCheck keeps_unsetChecks keeps_brokenTraceResistance keeps_scrcShort keeps_minMaxDirection keeps_addCheck keeps_equivalentOf keeps_countSide keeps_counted keeps_newDeviceCount keeps_IsAlwaysOnCandidate keeps_adjustSimMos keeps_limitSim keeps_AdjustSimVoltage keeps_simDirection keeps_simGate : keeps.

(** ** The resistor phase *)

Section Resistors.
Context (P : CCvcDb -> Prop) `{!Stable P}.

Lemma keeps_newResistorPower {strict} n b : keeps_ strict P (newResistorPower n b).
Proof. unfold newResistorPower. keep. Qed.
Lemma keeps_solidPower {strict} n : keeps_ strict P (solidPower n).
Proof. unfold solidPower. keep. Qed.
Lemma keeps_betweenPowers {strict} n : keeps_ strict P (betweenPowers n).
Proof. unfold betweenPowers. keep. Qed.
#[local] Hint Resolve keeps_newResistorPower keeps_solidPower keeps_betweenPowers : keeps.
Lemma keeps_CalculateResistorVoltage {strict} n a b c e :
  keeps_ strict P (CalculateResistorVoltage n a b c e).
Proof. unfold CalculateResistorVoltage. keep. Qed.
Lemma keeps_PropagateResistorCalculations {strict} n first next :
  keeps_ strict P (PropagateResistorCalculations n first next).
Proof. unfold PropagateResistorCalculations. keep. Qed.
#[local] Hint Resolve keeps_CalculateResistorVoltage keeps_PropagateResistorCalculations : keeps.
Lemma keeps_resistorNetLoop {strict} fuel i : keeps_ strict P (resistorNetLoop fuel i).
Proof. revert i. induction fuel as [| fuel IH]; intros i; simpl; keep. Qed.
Lemma keeps_needsDivider {strict} n : keeps_ strict P (needsDivider n).
Proof. unfold needsDivider. keep. Qed.
#[local] Hint Resolve keeps_resistorNetLoop keeps_needsDivider : keeps.
Lemma keeps_resistorDevice {strict} i : keeps_ strict P (resistorDevice i).
Proof. unfold resistorDevice. keep. Qed.
Lemma keeps_calculatedLink {strict} q n : keeps_ strict P (calculatedLink q n).
Proof. unfold calculatedLink. keep. Qed.
#[local] Hint Resolve keeps_resistorDevice keeps_calculatedLink : keeps.
Lemma keeps_lowEnd {strict} fuel a b : keeps_ strict P (lowEnd fuel a b).
Proof. revert a b. induction fuel as [| fuel IH]; intros a b; simpl; keep. Qed.
Lemma keeps_detach {strict} q n : keeps_ strict P (detach q n).
Proof.
  intros d Hd. unfold detach, netM, lift, mbind, M_bind, vget, modify.
  destruct (vlookup (nets (netsOf q d)) n) as [x |] eqn:E; simpl; [by apply stable_detach | done].
Qed.
#[local] Hint Resolve keeps_lowEnd keeps_detach : keeps.
Lemma keeps_detachLoop {strict} fuel n : keeps_ strict P (detachLoop fuel n).
Proof. revert n. induction fuel as [| fuel IH]; intros n; simpl; keep. Qed.
#[local] Hint Resolve keeps_detachLoop : keeps.
Lemma keeps_finishResistors {strict} l b : keeps_ strict P (finishResistors l b).
Proof. revert b. induction l as [| a l IH]; intros b; simpl; keep. Qed.
#[local] Hint Resolve keeps_finishResistors : keeps.
Lemma keeps_CalculateResistorVoltages {strict} : keeps_ strict P CalculateResistorVoltages.
Proof. unfold CalculateResistorVoltages. keep. Qed.
Lemma keeps_PrintAndResetCircuitErrors {strict} i l : keeps_ strict P (PrintAndResetCircuitErrors i l).
Proof.
  unfold PrintAndResetCircuitErrors. keep. apply keeps_modify. intros.
  by apply stable_cellErrors, stable_circuits.
Qed.
End Resistors.
#[export] Hint Resolve keeps_CalculateResistorVoltages keeps_PrintAndResetCircuitErrors : keeps.

End Logic.
