(* ===== verification/Pending.v ===== *)
(** * Pending devices are the queued devices

    Each event queue keeps a bit of the device status words: a device is
    pending exactly while it is in the queue.  [pendInv held] states this for
    the three queues, with the exception of the devices in [held], whose bit
    is set while [VoltageConflict] works on them.  Every handler keeps the
    invariant and never enqueues a device twice. *)

From S2P Require Import Prelude CvcTypes EventQueue VirtualNet Numeric Power Db ExampleDb.
From S2P Require Import Connection Short Enqueue Propagate Simulate Resistor Logic.
From stdpp Require Import base list strings gmap sets.
From Stdlib Require Import ZArith Lia Floats.SpecFloat.
#[local] Open Scope Z_scope.

Module Pending.
Import EventQueue.EventQueue VirtualNet.VirtualNet Power.Power Numeric.Numeric Db.Db
  Connection.Connection Short.Short Enqueue.Enqueue Propagate.Propagate Simulate.Simulate
  Resistor.Resistor Logic.Logic.

(** ** The invariant *)

Definition pendingOf (q : eventQueue_t) : deviceStatus_t :=
  match q with SIM_QUEUE => SIM_PENDING | MAX_QUEUE => MAX_PENDING | MIN_QUEUE => MIN_PENDING end.
Definition inactiveOf (q : eventQueue_t) : deviceStatus_t :=
  match q with SIM_QUEUE => SIM_INACTIVE | MAX_QUEUE => MAX_INACTIVE | MIN_QUEUE => MIN_INACTIVE end.

Definition bitSet (status : list Z) (i : Z) (b : deviceStatus_t) : Prop :=
  exists s, vlookup status i = Some s /\ status_get s (deviceBit b) = true.

(** One queue agrees with the bits of its devices. *)
Record agrees (x : CEventQueue) (status : list Z) (q : eventQueue_t) (held : Z -> Prop) (A : absQueue)
    : Prop := {
  ag_inv : qinv x A;
  ag_type : queueType x = q;
  ag_bits i : bitSet status i (pendingOf q) <-> i ∈ queued A \/ (held i /\ is_Some (vlookup status i));
  ag_held i : held i -> i ∉ queued A
}.

Definition pendInv (held : eventQueue_t -> Z -> Prop) (d : CCvcDb) : Prop :=
  forall q, exists A, agrees (queueOf q d) (deviceStatus_v d) q (held q) A.

Definition nobody (q : eventQueue_t) (i : Z) : Prop := False.
Definition holding (held : eventQueue_t -> Z -> Prop) (q : eventQueue_t) (i : Z) (q' : eventQueue_t)
    (j : Z) : Prop := held q' j \/ (q' = q /\ j = i).

(** The device exists and is not pending in [q]. *)
Definition idle (q : eventQueue_t) (i : Z) (d : CCvcDb) : Prop :=
  is_Some (vlookup (deviceStatus_v d) i) /\ ~ bitSet (deviceStatus_v d) i (pendingOf q).

Definition idleInv held q i (d : CCvcDb) : Prop := pendInv held d /\ idle q i d.

(** What is queued is pending, so there are no more events than devices. *)
Lemma agrees_length x status q held A : agrees x status q held A -> (length (queued A) <= length status)%nat.
Proof.
  intros [Hq _ Hb _]. pose proof (q_nodup _ _ Hq) as Hn.
  assert (queued A ⊆ seqZ 0 (Z.of_nat (length status))) as Hs.
  { intros i Hi. destruct (proj2 (Hb i)) as (s & Es & _); [by left |]. apply elem_of_seqZ. pose proof (vlookup_range _ _ _ Es). lia. }
  apply NoDup_submseteq, submseteq_length in Hs; [| done]. rewrite length_seqZ in Hs. lia.
Qed.

(** ** What the invariant depends on *)

Lemma qinv_ext x x' A :
  queueArray x' = queueArray x -> mainQueue x' = mainQueue x -> delayQueue x' = delayQueue x ->
  enqueueCount x' = enqueueCount x -> dequeueCount x' = dequeueCount x -> qinv x A -> qinv x' A.
Proof. intros E1 E2 E3 E4 E5 [H1 H2 H3 H4 H5 H6]. constructor; rewrite ?E1, ?E2, ?E3, ?E4, ?E5; done. Qed.

Lemma agrees_ext x x' status q held A :
  queueArray x' = queueArray x -> mainQueue x' = mainQueue x -> delayQueue x' = delayQueue x ->
  enqueueCount x' = enqueueCount x -> dequeueCount x' = dequeueCount x -> queueType x' = queueType x ->
  agrees x status q held A -> agrees x' status q held A.
Proof.
  intros E1 E2 E3 E4 E5 E6 [H1 H2 H4 H5]. constructor; try done; [by eapply qinv_ext | congruence..].
Qed.

Lemma pendInv_frame held d d' :
  (forall q, queueOf q d' = queueOf q d) -> deviceStatus_v d' = deviceStatus_v d ->
  pendInv held d -> pendInv held d'.
Proof. intros Eq Es H q. rewrite Eq, Es. apply H. Qed.

Lemma queueOf_set q q' x d : queueOf q' (set_queueOf q x d) = if decide (q = q') then x else queueOf q' d.
Proof. destruct d, q, q'; done. Qed.
Lemma deviceStatus_set_queueOf q x d : deviceStatus_v (set_queueOf q x d) = deviceStatus_v d.
Proof. destruct d, q; done. Qed.
Lemma queueOf_set_status q v d : queueOf q (set_deviceStatus_v v d) = queueOf q d.
Proof. destruct d, q; done. Qed.
Lemma deviceStatus_set_status v d : deviceStatus_v (set_deviceStatus_v v d) = v.
Proof. by destruct d. Qed.

(** Changes of the queue that the invariant does not see. *)
Lemma pendInv_queue held q x d :
  queueArray x = queueArray (queueOf q d) -> mainQueue x = mainQueue (queueOf q d) ->
  delayQueue x = delayQueue (queueOf q d) -> enqueueCount x = enqueueCount (queueOf q d) ->
  dequeueCount x = dequeueCount (queueOf q d) -> queueType x = queueType (queueOf q d) ->
  pendInv held d -> pendInv held (set_queueOf q x d).
Proof.
  intros E1 E2 E3 E4 E5 E6 H q'. rewrite queueOf_set, deviceStatus_set_queueOf.
  destruct (decide (q = q')) as [<- | _]; [| apply H]. destruct (H q) as [A HA]. exists A.
  by eapply agrees_ext.
Qed.

#[export] Instance pendInv_stable held : Stable (pendInv held).
Proof.
  apply queue_status_stable; [intros; by eapply pendInv_frame |].
  intros q i a b d. apply pendInv_queue; unfold AddLeak; by repeat case_match.
Qed.

Lemma idle_frame q i d d' : deviceStatus_v d' = deviceStatus_v d -> idle q i d -> idle q i d'.
Proof. unfold idle. by intros ->. Qed.

#[export] Instance idleInv_stable held q i : Stable (idleInv held q i).
Proof.
  apply queue_status_stable.
  - intros d d' Eq Es [Hp Hi]. split; [by eapply pendInv_frame | by eapply idle_frame].
  - intros q' j a b d [Hp Hi]. split; [by apply stable_leak |].
    eapply idle_frame; [apply deviceStatus_set_queueOf | done].
Qed.

(** ** Status bits *)

Lemma deviceBit_nonneg b : 0 <= deviceBit b.
Proof. destruct b; simpl; lia. Qed.
Lemma deviceBit_inj a b : deviceBit a = deviceBit b -> a = b.
Proof. destruct a, b; simpl; congruence. Qed.
Lemma pendingOf_inj q q' : pendingOf q = pendingOf q' -> q = q'.
Proof. destruct q, q'; simpl; congruence. Qed.

Lemma bitSet_update status i j b b' s x :
  vlookup status i = Some s ->
  bitSet (vupdate status i (status_set s (deviceBit b') x)) j b <->
  if decide (j = i /\ b = b') then x = true else bitSet status j b.
Proof.
  intros E. unfold bitSet. rewrite vlookup_vupdate.
  pose proof (vlookup_range _ _ _ E) as R. apply in_range_spec in R. rewrite R.
  destruct (Z.eqb_spec i j) as [<- | Hne].
  - rewrite E. destruct (decide _) as [[_ ->] | Hd].
    + split; [intros (s' & [= <-] & H) | intros ->; eexists; split; [done |]];
        rewrite status_get_set, Z.eqb_refl in * by apply deviceBit_nonneg; done.
    + assert (b <> b') as Hbb by naive_solver.
      split; intros (s' & [= <-] & H); eexists; (split; [done |]);
        rewrite status_get_set in * by apply deviceBit_nonneg;
        (destruct (Z.eqb_spec (deviceBit b') (deviceBit b)) as [Eb | _];
         [apply deviceBit_inj in Eb; congruence | done]).
  - destruct (decide _) as [[-> _] | _]; [done | reflexivity].
Qed.

Lemma vlookup_update_is_Some {A} (v : list A) i x j : is_Some (vlookup (vupdate v i x) j) <-> is_Some (vlookup v j).
Proof. by rewrite !vlookup_is_Some, vupdate_length. Qed.

(** A bit that is not a pending bit. *)
Lemma agrees_other x status q held A i s b v :
  (forall q, b <> pendingOf q) -> vlookup status i = Some s ->
  agrees x status q held A -> agrees x (vupdate status i (status_set s (deviceBit b) v)) q held A.
Proof.
  intros Hb E [H1 H2 H4 H5]. constructor; try done.
  intros j. rewrite bitSet_update, vlookup_update_is_Some by done.
  destruct (decide _) as [[_ Heq] | _]; [by destruct (Hb q) | apply H4].
Qed.

Definition notPending (b : deviceStatus_t) : Prop := forall q, b <> pendingOf q.
Lemma inactiveOf_notPending q : notPending (inactiveOf q).
Proof. intros q'. by destruct q, q'. Qed.
Lemma inactiveBit_notPending x : notPending (inactiveBit x).
Proof. intros q'. unfold inactiveBit. by destruct (queueType x), q'. Qed.
#[export] Hint Resolve inactiveOf_notPending inactiveBit_notPending : keeps.

Lemma keeps_setInactive held i b v : notPending b -> keeps (pendInv held) (setDeviceBit i b v).
Proof.
  intros Hb d Hd. unfold setDeviceBit, at_, lift, mbind, M_bind, vget.
  destruct (vlookup (deviceStatus_v d) i) as [s |] eqn:E; [| done]. simpl. intros q.
  rewrite queueOf_set_status, deviceStatus_set_status. destruct (Hd q) as [A HA]. exists A.
  by apply agrees_other.
Qed.

Lemma keeps_setInactive_idle held q j i b v : notPending b -> keeps (idleInv held q j) (setDeviceBit i b v).
Proof.
  intros Hb d [Hd Hi]. pose proof (keeps_setInactive held i b v Hb d Hd) as H.
  revert H. unfold setDeviceBit, at_, lift, mbind, M_bind, vget.
  destruct (vlookup (deviceStatus_v d) i) as [s |] eqn:E; [| done]. simpl. intros H. split; [done |].
  unfold idle in *. rewrite deviceStatus_set_status, vlookup_update_is_Some, bitSet_update by done.
  destruct (decide _) as [[_ Heq] | _]; [by destruct (Hb q) | done].
Qed.
#[export] Hint Resolve keeps_setInactive keeps_setInactive_idle : keeps.

(** ** Setting and clearing a pending bit *)

(** The other queues do not see the change. *)
Lemma agrees_away x status q q' held A i s v :
  q' <> q -> vlookup status i = Some s ->
  agrees x status q' held A -> agrees x (vupdate status i (status_set s (deviceBit (pendingOf q)) v)) q' held A.
Proof.
  intros Hne E [H1 H2 H4 H5]. constructor; try done.
  intros j. rewrite bitSet_update, vlookup_update_is_Some by done.
  destruct (decide _) as [[_ Heq] | _]; [by apply pendingOf_inj in Heq | apply H4].
Qed.

(** After the bit of device [i] in [q] was written, the invariant holds when
    queue [q] (possibly a new one [x]) agrees with the new bits. *)
Lemma agrees_held x status q held held' A :
  (forall j, held' j <-> held j) -> agrees x status q held A -> agrees x status q held' A.
Proof.
  intros Hh [H1 H2 H4 H5]. constructor; try done.
  - intros j. rewrite H4, Hh. done.
  - intros j Hj. apply H5. by apply Hh.
Qed.

Lemma pendInv_written held held' q i s v x d A' :
  pendInv held d -> vlookup (deviceStatus_v d) i = Some s ->
  (forall q' j, q' <> q -> held' q' j <-> held q' j) ->
  agrees x (vupdate (deviceStatus_v d) i (status_set s (deviceBit (pendingOf q)) v)) q (held' q) A' ->
  pendInv held' (set_deviceStatus_v (vupdate (deviceStatus_v d) i
    (status_set s (deviceBit (pendingOf q)) v)) (set_queueOf q x d)).
Proof.
  intros Hd E Hh Hx q'. rewrite queueOf_set_status, deviceStatus_set_status, queueOf_set.
  destruct (decide (q = q')) as [<- | Hne]; [by exists A' |].
  destruct (Hd q') as [A HA]. exists A. apply agrees_away; [done | done |].
  eapply agrees_held; [| exact HA]. intros j. by apply Hh.
Qed.

Lemma set_queueOf_same q d : set_queueOf q (queueOf q d) d = d.
Proof. by destruct d, q. Qed.

Lemma pendInv_bit held held' q i s v d A' :
  pendInv held d -> vlookup (deviceStatus_v d) i = Some s ->
  (forall q' j, q' <> q -> held' q' j <-> held q' j) ->
  agrees (queueOf q d) (vupdate (deviceStatus_v d) i (status_set s (deviceBit (pendingOf q)) v)) q (held' q) A' ->
  pendInv held' (set_deviceStatus_v (vupdate (deviceStatus_v d) i
    (status_set s (deviceBit (pendingOf q)) v)) d).
Proof.
  intros Hd E Hh HA. pose proof (pendInv_written held held' q i s v _ d A' Hd E Hh HA) as H.
  by rewrite set_queueOf_same in H.
Qed.

(** [setDeviceBit] on the result of a queue operation. *)
Lemma setDeviceBit_after q x d i b v :
  setDeviceBit i b v (set_queueOf q x d) =
  match vlookup (deviceStatus_v d) i with
  | Some s => Ok (tt, set_deviceStatus_v (vupdate (deviceStatus_v d) i (status_set s (deviceBit b) v))
                        (set_queueOf q x d))
  | None => Err UndefinedBehaviour
  end.
Proof.
  unfold setDeviceBit, at_, lift, mbind, M_bind, vget, modify. rewrite deviceStatus_set_queueOf.
  destruct (vlookup (deviceStatus_v d) i); [| done]. by rewrite deviceStatus_set_queueOf.
Qed.

Lemma setDeviceBit_run d i b v :
  setDeviceBit i b v d =
  match vlookup (deviceStatus_v d) i with
  | Some s => Ok (tt, set_deviceStatus_v (vupdate (deviceStatus_v d) i (status_set s (deviceBit b) v)) d)
  | None => Err UndefinedBehaviour
  end.
Proof.
  pose proof (setDeviceBit_after MIN_QUEUE (queueOf MIN_QUEUE d) d i b v) as H.
  by rewrite set_queueOf_same in H.
Qed.

Lemma agrees_idle x status q held A i :
  agrees x status q held A -> is_Some (vlookup status i) -> ~ bitSet status i (pendingOf q) ->
  i ∉ queued A /\ ~ held i.
Proof. intros [H1 H2 H4 H5] Hi Hb. rewrite H4 in Hb. naive_solver. Qed.

Lemma AddEvent_outside x k i pos :
  pos <> SKIP_QUEUE -> ~ 0 <= i < Z.of_nat (length (queueArray x)) -> AddEvent x k i pos = Err UndefinedBehaviour.
Proof.
  intros Hp Hi. assert (vget (queueArray x) i = Err UndefinedBehaviour) as E.
  { unfold vget, vlookup. destruct (in_range _ i) eqn:Er; [by apply in_range_spec in Er | done]. }
  destruct pos; unfold AddEvent, EventList.push_front, EventList.push_back; rewrite ?E; done.
Qed.

(** Enqueueing an idle device and marking it pending. *)
Lemma safe_enqueue held q k i pos :
  pos <> SKIP_QUEUE ->
  safe (idleInv held q i) (_ ← addEventM q k i pos; setDeviceBit i (pendingOf q) true)
    (fun _ => pendInv held).
Proof.
  intros Hp d [Hd [[s E] Hb]]. destruct (Hd q) as [A HA].
  destruct (agrees_idle _ _ _ _ _ _ HA (mk_is_Some _ _ E) Hb) as [Hi Hh].
  destruct (decide (0 <= i < Z.of_nat (length (queueArray (queueOf q d))))) as [Hr | Hr].
  2: { unfold mbind, M_bind, addEventM, queueM. by rewrite (AddEvent_outside _ k i pos Hp Hr). }
  assert (exists A', absFile (if bool_decide (queueType (queueOf q d) = MAX_QUEUE) then s32 (- k) else k)
    i pos A = Some A') as [A' HA'] by (destruct pos; eauto; done).
  destruct (AddEvent_filed _ A k i pos A' (ag_inv _ _ _ _ _ HA) Hr Hi HA') as (x & Ex & Hx & Ht & Hl & _).
  pose proof (absFile_queued _ _ _ _ _ _ (ag_inv _ _ _ _ _ HA) HA') as Hq.
  unfold mbind, M_bind, addEventM, queueM. unfold mbind, outcome_bind. rewrite Ex.
  rewrite setDeviceBit_after, E. eapply (pendInv_written held); [done | done | done |].
  destruct HA as [H1 H2 H4 H5]. constructor.
  - done.
  - congruence.
  - intros j. rewrite bitSet_update, vlookup_update_is_Some, Hq, elem_of_cons by done.
    destruct (decide _) as [[-> _] | Hne]; [naive_solver |]. rewrite H4. naive_solver.
  - intros j Hj. rewrite Hq, elem_of_cons. intros [-> | Hin]; [done | by apply (H5 j)].
Qed.

(** A device taken from the queue is held until its bit is cleared. *)
Lemma safe_pop held q :
  safe (pendInv held) (queueM q GetEvent) (fun i d => ~ held q i /\ pendInv (holding held q i) d).
Proof.
  intros d Hd. destruct (Hd q) as [A HA]. unfold queueM.
  pose proof (GetEvent_cases _ _ (ag_inv _ _ _ _ _ HA)) as Hg.
  destruct (GetEvent (queueOf q d)) as [[i x] | e]; [| done].
  destruct Hg as (A' & Hx & Ht & Hl & Hq). destruct HA as [H1 H2 H4 H5].
  pose proof (q_nodup _ _ H1) as Hnd. rewrite Hq in Hnd. apply NoDup_cons in Hnd as [Hnot Hnd].
  assert (~ held q i) as Hh by (intros Hi; apply (H5 i Hi); rewrite Hq; left).
  split; [done |]. intros q'. rewrite queueOf_set, deviceStatus_set_queueOf.
  destruct (decide (q = q')) as [<- | Hne].
  - exists A'. constructor; [done | congruence | |].
    + intros j. rewrite H4, Hq, elem_of_cons. unfold holding.
      assert (bitSet (deviceStatus_v d) j (pendingOf q) -> is_Some (vlookup (deviceStatus_v d) j)) as Hs
        by (intros (? & ? & _); eauto).
      rewrite H4, Hq, elem_of_cons in Hs. naive_solver.
    + intros j [Hj | [_ ->]]; [| done]. intros Hin. apply (H5 j Hj). rewrite Hq. by right.
  - destruct (Hd q') as [A0 HA0]. exists A0. eapply agrees_held; [| exact HA0].
    unfold holding. naive_solver.
Qed.

(** Holding an idle device, and releasing it. *)
Lemma safe_hold held q i :
  safe (idleInv held q i) (setDeviceBit i (pendingOf q) true)
    (fun _ d => ~ held q i /\ pendInv (holding held q i) d).
Proof.
  intros d [Hd [[s E] Hb]]. destruct (Hd q) as [A HA].
  destruct (agrees_idle _ _ _ _ _ _ HA (mk_is_Some _ _ E) Hb) as [Hi Hh].
  rewrite setDeviceBit_run, E. split; [done |].
  eapply (pendInv_bit held); [done | done | unfold holding; naive_solver |].
  destruct HA as [H1 H2 H4 H5]. constructor; try done.
  - intros j. rewrite bitSet_update, vlookup_update_is_Some by done. unfold holding.
    destruct (decide _) as [[-> _] | Hne]; [naive_solver |]. rewrite H4. naive_solver.
  - intros j [Hj | [_ ->]]; [by apply H5 | done].
Qed.

Lemma safe_release held q i :
  ~ held q i ->
  safe (pendInv (holding held q i)) (setDeviceBit i (pendingOf q) false) (fun _ => idleInv held q i).
Proof.
  intros Hn d Hd. destruct (Hd q) as [A [H1 H2 H4 H5]].
  rewrite setDeviceBit_run.
  destruct (vlookup (deviceStatus_v d) i) as [s |] eqn:E; [| done].
  assert (i ∉ queued A) as Hi by (apply H5; by right). split.
  - eapply (pendInv_bit (holding held q i)); [done | done | unfold holding; naive_solver |].
    constructor; try done.
    + intros j. rewrite bitSet_update, vlookup_update_is_Some by done.
      destruct (decide _) as [[-> _] | Hne]; [naive_solver |]. rewrite H4. unfold holding. naive_solver.
    + intros j Hj. apply H5. by left.
  - unfold idle. rewrite deviceStatus_set_status, vlookup_update_is_Some, bitSet_update by done.
    rewrite decide_True by done. by eauto.
Qed.

(** ** Rules for the handlers *)

Lemma safe_assoc {A B C} P (m : DB A) (f : A -> DB B) (g : B -> DB C) Q :
  safe P ((m ≫= f) ≫= g) Q -> safe P (m ≫= (fun x => f x ≫= g)) Q.
Proof.
  intros H d Hd. specialize (H d Hd). revert H. unfold mbind, M_bind.
  by destruct (m d) as [[a d'] | e].
Qed.

Lemma safe_pure {A} (phi : Prop) P (m : DB A) Q : (phi -> safe P m Q) -> safe (fun d => phi /\ P d) m Q.
Proof. intros H d [Hphi Hd]. by apply H. Qed.

Lemma safe_enqueue_then {B} held q k i pos (rest : DB B) Q :
  pos <> SKIP_QUEUE -> safe (pendInv held) rest Q ->
  safe (idleInv held q i) (_ ← addEventM q k i pos; _ ← setDeviceBit i (pendingOf q) true; rest) Q.
Proof.
  intros Hp Hr. apply (safe_assoc (idleInv held q i) (addEventM q k i pos)
    (fun _ => setDeviceBit i (pendingOf q) true) (fun _ => rest)).
  eapply safe_bind; [by apply safe_enqueue | done].
Qed.

Lemma pendInv_type held q d : pendInv held d -> queueType (queueOf q d) = q.
Proof. intros H. destruct (H q) as [A HA]. apply HA. Qed.

Lemma safe_inactive {A} P (k : deviceStatus_t -> DB A) q Q :
  (forall d, P d -> exists held, pendInv held d) ->
  safe P (k (inactiveOf q)) Q -> safe P (x ← gets (fun d => inactiveBit (queueOf q d)); k x) Q.
Proof.
  intros HP Hk d Hd. destruct (HP d Hd) as [held Hi]. unfold mbind, M_bind, gets.
  unfold inactiveBit. rewrite (pendInv_type held q d Hi). by apply Hk.
Qed.

Lemma safe_pending {A} P (k : deviceStatus_t -> DB A) q Q :
  (forall d, P d -> exists held, pendInv held d) ->
  safe P (k (pendingOf q)) Q -> safe P (x ← gets (fun d => pendingBit (queueOf q d)); k x) Q.
Proof.
  intros HP Hk d Hd. destruct (HP d Hd) as [held Hi]. unfold mbind, M_bind, gets.
  unfold pendingBit. rewrite (pendInv_type held q d Hi). by apply Hk.
Qed.

Lemma pendInv_some held d : pendInv held d -> exists held, pendInv held d.
Proof. eauto. Qed.
Lemma idleInv_some held q i d : idleInv held q i d -> exists held, pendInv held d.
Proof. intros [? _]. eauto. Qed.
#[export] Hint Resolve pendInv_some idleInv_some : keeps.

(** Reading the pending bit. *)
Lemma safe_testPending held q i :
  safe (pendInv held) (getDeviceBit i (pendingOf q))
    (fun b d => pendInv held d /\ (b = false -> idle q i d)).
Proof.
  intros d Hd. unfold getDeviceBit, at_, lift, mbind, M_bind, vget.
  destruct (vlookup (deviceStatus_v d) i) as [s |] eqn:E; [| done]. simpl. split; [done |].
  intros Hb. split; [by eauto |]. intros (s' & E' & Hs'). congruence.
Qed.

(** One step of a handler that keeps its precondition. *)
Ltac then_ := apply keeps_then; [solve [keep] |]; intros ?.

Lemma keeps_safe {A} P (m : DB A) (Q : A -> CCvcDb -> Prop) :
  keeps P m -> (forall a d, P d -> Q a d) -> safe P m Q.
Proof. intros H HQ. by eapply safe_conseq; [exact H | done |]. Qed.

Ltac as_keeps := match goal with |- safe ?P ?m _ => change (keeps P m) end.

(** ** Enqueueing handlers *)

Lemma keeps_enqueueDevice held q k t i : keeps (pendInv held) (enqueueDevice q k t i).
Proof.
  unfold enqueueDevice. apply safe_inactive; [eauto with keeps |]. apply safe_pending; [eauto with keeps |].
  then_. eapply safe_bind; [apply safe_testPending |]. intros b.
  destruct a, b; simpl; try (apply safe_ret; naive_solver).
  apply (safe_conseq _ (idleInv held q i) _ _ (fun _ => pendInv held)); [| unfold idleInv; naive_solver | done].
  assert (forall d, idleInv held q i d -> pendInv held d) as Hw by (by intros ? []).
  then_. then_. destruct a0.
  { apply (keeps_safe (idleInv held q i)); [keep | eauto]. }
  destruct (_ && _); [apply (keeps_safe (idleInv held q i)); [keep | eauto] |].
  then_. destruct a0 as [[[txt k'] pos] t'].
  case_bool_decide as Hpos; [apply (keeps_safe (idleInv held q i)); [keep | eauto] |].
  destruct (_ && _); [apply (keeps_safe (idleInv held q i)); [keep | eauto] |].
  destruct (_ && _); [apply (keeps_safe (idleInv held q i)); [keep | eauto] |].
  apply keeps_then; [destruct q; keep |]. intros k''.
  apply safe_enqueue_then; [done |]. apply (keeps_safe (pendInv held)); [keep | done].
Qed.
#[export] Hint Resolve keeps_enqueueDevice : keeps.

Lemma keeps_EnqueueAttachedDevicesByTerminal held q n first next k :
  keeps (pendInv held) (EnqueueAttachedDevicesByTerminal q n first next k).
Proof. unfold EnqueueAttachedDevicesByTerminal. keep. Qed.
#[export] Hint Resolve keeps_EnqueueAttachedDevicesByTerminal : keeps.
Lemma keeps_EnqueueAttachedDevices held q n k : keeps (pendInv held) (EnqueueAttachedDevices q n k).
Proof. unfold EnqueueAttachedDevices. keep. Qed.
#[export] Hint Resolve keeps_EnqueueAttachedDevices : keeps.

Lemma keeps_enqueueResistor held q k pos i :
  pos <> SKIP_QUEUE -> keeps (pendInv held) (enqueueResistor q k pos i).
Proof.
  intros Hp. unfold enqueueResistor. then_. destruct (negb _); [apply keeps_ret |].
  apply safe_inactive; [eauto with keeps |]. apply safe_pending; [eauto with keeps |].
  then_. eapply safe_bind; [apply safe_testPending |]. intros b.
  destruct a0, b; simpl; try (apply safe_ret; naive_solver).
  apply (safe_conseq _ (idleInv held q i) _ _ (fun _ => pendInv held)); [| unfold idleInv; naive_solver | done].
  apply safe_enqueue_then; [done |]. apply safe_ret. done.
Qed.

Lemma keeps_EnqueueAttachedResistors held q n k pos :
  pos <> SKIP_QUEUE -> keeps (pendInv held) (EnqueueAttachedResistors q n k pos).
Proof.
  intros Hp. unfold EnqueueAttachedResistors, EnqueueAttachedResistorsByTerminal.
  keep; by apply keeps_enqueueResistor.
Qed.

(** ** Shorting handlers *)

(** Marking a device inactive in a queue. *)
Class Marking (P : CCvcDb -> Prop) : Prop := {
  marking_stable :: Stable P;
  keeps_mark q i : keeps P (b ← gets (fun d => inactiveBit (queueOf q d)); setDeviceBit i b true)
}.

#[export] Instance pendInv_marking held : Marking (pendInv held).
Proof.
  split; [apply _ |]. intros q i. apply safe_inactive; [eauto with keeps |].
  apply keeps_setInactive. eauto with keeps.
Qed.
#[export] Instance idleInv_marking held q j : Marking (idleInv held q j).
Proof.
  split; [apply _ |]. intros q' i. apply safe_inactive; [eauto with keeps |].
  apply keeps_setInactive_idle. eauto with keeps.
Qed.

Lemma keeps_inactive {strict} P `{!Marking P} q i :
  keeps_ strict P (b ← gets (fun d => inactiveBit (queueOf q d)); setDeviceBit i b true).
Proof. apply keeps_weaken, keeps_mark. Qed.

Ltac keep ::= repeat (cbv zeta; first [apply keeps_inactive; solve [typeclasses eauto] | keep_loop | keep_step]).

Section Shorting.
Context (P : CCvcDb -> Prop) `{!Marking P}.

Lemma keeps_ShortNets {strict} q i c b : keeps_ strict P (ShortNets q i c b).
Proof. unfold ShortNets. keep. Qed.
#[local] Hint Resolve keeps_ShortNets : keeps.
Lemma keeps_rerouteShorted {strict} q i c : keeps_ strict P (rerouteShorted q i c).
Proof. unfold rerouteShorted. keep. Qed.
#[local] Hint Resolve keeps_rerouteShorted : keeps.
Lemma keeps_AlreadyShorted {strict} q i c : keeps_ strict P (AlreadyShorted q i c).
Proof. unfold AlreadyShorted. keep. Qed.
Lemma keeps_ShortNetsAt {strict} q i c b v t : keeps_ strict P (ShortNetsAt q i c b v t).
Proof. unfold ShortNetsAt, masterSlave. destruct q, b; keep. Qed.
Lemma keeps_ShortSimNets {strict} q i c b v t : keeps_ strict P (ShortSimNets q i c b v t).
Proof. unfold ShortSimNets, masterSlave. destruct b; keep. Qed.
End Shorting.
#[export] Hint Resolve keeps_ShortNets keeps_rerouteShorted keeps_AlreadyShorted keeps_ShortNetsAt keeps_ShortSimNets : keeps.
#[export] Hint Extern 0 (Marking _) => typeclasses eauto : keeps.

(** ** Voltage conflicts *)

Lemma keeps_activateLevel held q c : keeps (pendInv held) (activateLevel q c).
Proof. unfold activateLevel, minOrMax. destruct q; keep. Qed.
Lemma keeps_diodeConflict held q o i c : keeps (pendInv held) (diodeConflict q o i c).
Proof. unfold diodeConflict, minOrMax, param. keep. Qed.
#[export] Hint Resolve keeps_activateLevel keeps_diodeConflict : keeps.

Lemma keeps_conflict held q i c :
  keeps (pendInv held)
    (match q with
     | SIM_QUEUE => mret tt
     | _ => _ ← activateLevel q c; _ ← unsetChecks q c;
            diodeConflict q (minOrMax q MAX_QUEUE MIN_QUEUE) i c
     end).
Proof. destruct q; keep. Qed.

(** [VoltageConflict] holds the device while it enqueues its neighbours. *)
Lemma keeps_VoltageConflict held q i c :
  keeps (idleInv held q i) (VoltageConflict q i c).
Proof.
  unfold VoltageConflict. then_. destruct (_ && _); [apply keeps_ret |].
  then_. apply keeps_then; [destruct a0; keep |]. intros ud. destruct ud; [apply keeps_ret |].
  then_. destruct (_ && _); [apply keeps_ret |].
  apply safe_pending; [eauto with keeps |].
  eapply safe_bind; [apply safe_hold |]. intros ?. apply safe_pure. intros Hh.
  apply keeps_then; [apply keeps_conflict |]. intros ?.
  eapply safe_bind; [by apply safe_release |]. intros ?.
  apply keeps_then; [keep |]. intros ?. apply keeps_ret.
Qed.

Lemma keeps_IsIrrelevant held q i c v s : keeps (idleInv held q i) (IsIrrelevant q i c v s).
Proof.
  unfold IsIrrelevant. then_. destruct a; [apply keeps_ret |].
  destruct s; [apply keeps_ret | apply keeps_VoltageConflict].
Qed.
#[export] Hint Resolve keeps_IsIrrelevant : keeps.

(** ** Event handlers *)

Definition taken held (q : eventQueue_t) (r : option Z) : CCvcDb -> Prop :=
  match r with Some i => idleInv held q i | None => pendInv held end.

Lemma safe_takeEvent held q : safe (pendInv held) (takeEvent q) (taken held q).
Proof.
  unfold takeEvent. eapply safe_bind; [apply safe_pop |]. intros i. apply safe_pure. intros Hh.
  apply safe_pending; [eauto with keeps |]. apply safe_inactive; [eauto with keeps |].
  eapply safe_bind; [by apply safe_release |]. intros ?.
  then_. apply safe_ret. intros d Hd. destruct a0; [by destruct Hd | done].
Qed.

Lemma idle_weaken {A} held q i (m : DB A) :
  keeps (idleInv held q i) m -> safe (idleInv held q i) m (fun _ => pendInv held).
Proof. intros H. eapply keeps_safe; [exact H |]. by intros ? ? []. Qed.

Lemma idle_drop {A} held q i (m : DB A) Q :
  safe (pendInv held) m Q -> safe (idleInv held q i) m Q.
Proof. intros H. eapply safe_conseq; [exact H | | done]. by intros ? []. Qed.

Lemma keeps_PropagateResistorVoltages held q : keeps (pendInv held) (PropagateResistorVoltages q).
Proof.
  unfold PropagateResistorVoltages. eapply safe_bind; [apply safe_takeEvent |]. intros r.
  destruct r as [i |]; [| apply keeps_ret]. apply idle_drop.
  assert (forall b : bool, (if b then MAIN_BACK else DELAY_FRONT) <> SKIP_QUEUE) as Hp by (by intros []).
  assert (forall q n k b, keeps (pendInv held)
    (EnqueueAttachedResistors q n k (if b : bool then MAIN_BACK else DELAY_FRONT))) as He
    by (intros; by apply keeps_EnqueueAttachedResistors).
  as_keeps. keep.
Qed.

Lemma keeps_requeue held q : keeps (pendInv held) (modify (fun d => set_queueOf q (requeue (queueOf q d)) d)).
Proof. apply keeps_modify. intros d. by apply pendInv_queue. Qed.

Lemma AddEvent_type x k i pos x' : AddEvent x k i pos = Ok x' -> queueType x' = queueType x.
Proof.
  unfold AddEvent. intros H. destruct pos; try discriminate; inv_ok H; destruct a; by injection H as <-.
Qed.

(** A requeued device: the bit to set is read after the event was added. *)
Lemma safe_requeue {B} held q k i pos (rest : DB B) Q :
  pos <> SKIP_QUEUE -> safe (pendInv held) rest Q ->
  safe (idleInv held q i)
    (_ ← addEventM q k i pos; pb ← gets (fun d => pendingBit (queueOf q d));
     _ ← setDeviceBit i pb true; rest) Q.
Proof.
  intros Hp Hr d Hd. pose proof (safe_enqueue_then held q k i pos rest Q Hp Hr d Hd) as H.
  pose proof (pendInv_type held q d (proj1 Hd)) as Ht. revert H.
  unfold mbind, M_bind, addEventM, queueM, gets. unfold mbind, outcome_bind.
  destruct (AddEvent (queueOf q d) k i pos) as [x | e] eqn:E; [| done].
  unfold pendingBit. rewrite queueOf_set, decide_True, (AddEvent_type _ _ _ _ _ E), Ht by done. done.
Qed.

Lemma keeps_PropagateMinMaxVoltages held q : keeps (pendInv held) (PropagateMinMaxVoltages q).
Proof.
  unfold PropagateMinMaxVoltages, minMaxEvent. then_. eapply safe_bind; [apply safe_takeEvent |]. intros r.
  destruct r as [i |]; [| apply keeps_ret]. simpl. then_. then_.
  destruct a1 as [dir |]; [| by apply idle_weaken, keeps_ret].
  destruct (masterSlave a0 dir) as [[[src drn] key] p]. then_. then_.
  apply safe_inactive; [eauto with keeps |].
  destruct a2; [apply idle_weaken; keep |]. then_. then_. destruct a3 as [[txt k] pos].
  case_bool_decide as Hpos; [by apply idle_weaken, keeps_ret |].
  then_. destruct a3; [apply safe_requeue; [done | apply keeps_requeue] |].
  apply idle_drop. as_keeps. keep.
Qed.

Lemma keeps_propagateSim held q i c b v n t : keeps (pendInv held) (propagateSim q i c b v n t).
Proof. unfold propagateSim. keep. Qed.
#[export] Hint Resolve keeps_propagateSim : keeps.

Lemma keeps_PropagateSimVoltages held q t : keeps (pendInv held) (PropagateSimVoltages q t).
Proof.
  unfold PropagateSimVoltages. eapply safe_bind; [apply safe_takeEvent |]. intros r.
  destruct r as [i |]; [| apply keeps_ret]. simpl. then_. then_. then_.
  destruct a1 as [dir |]; [| by apply idle_weaken, keeps_ret].
  destruct (masterSlave a dir) as [[[src drn] key] p]. apply keeps_then; [keep |]. intros skip.
  destruct skip; [by apply idle_weaken, keeps_ret |]. then_. destruct a1 as [c |]; [| by apply idle_weaken, keeps_ret].
  destruct (_ && _); [by apply idle_weaken, keeps_ret |].
  apply safe_inactive; [eauto with keeps |]. case_bool_decide; [apply idle_weaken; keep |].
  then_. destruct a1; [apply idle_weaken; keep |]. apply idle_drop. as_keeps. keep.
Qed.
#[export] Hint Resolve keeps_PropagateResistorVoltages keeps_PropagateMinMaxVoltages
  keeps_PropagateSimVoltages : keeps.

(** ** The resistor phase *)

Lemma DefaultQueuePosition_queued b q : DefaultQueuePosition_ b q <> SKIP_QUEUE.
Proof. unfold DefaultQueuePosition_. by destruct (_ || _). Qed.
#[export] Hint Resolve DefaultQueuePosition_queued keeps_EnqueueAttachedResistors : keeps.

Lemma keeps_enqueuePower held a : keeps (pendInv held) (enqueuePower a).
Proof. unfold enqueuePower. keep. Qed.
Lemma keeps_startQueue held q : keeps (pendInv held) (startQueue q).
Proof. apply keeps_modify. intros d. by apply pendInv_queue. Qed.
Lemma keeps_resistorLoop held fuel : keeps (pendInv held) (resistorLoop fuel).
Proof. induction fuel as [| fuel IH]; simpl; keep. Qed.
#[export] Hint Resolve keeps_enqueuePower keeps_startQueue keeps_resistorLoop : keeps.
Lemma keeps_SetResistorVoltagesByPower held : keeps (pendInv held) SetResistorVoltagesByPower.
Proof. unfold SetResistorVoltagesByPower. keep. Qed.
#[export] Hint Resolve keeps_SetResistorVoltagesByPower : keeps.

(** ** Reachable states *)

(** The operations of the propagation phases: the whole resistor phase, one
    event of a queue, or the devices attached to a net when a phase starts. *)
Inductive operation : Type :=
| ResistorPhase
| ResistorEvent (q : eventQueue_t)
| MinMaxEvent (q : eventQueue_t)
| SimEvent (q : eventQueue_t) (t : propagation_t)
| AttachedDevices (q : eventQueue_t) (n k : Z)
| AttachedResistors (q : eventQueue_t) (n k : Z) (isPower : bool).

Definition perform (o : operation) : DB unit :=
  match o with
  | ResistorPhase => SetResistorVoltagesByPower
  | ResistorEvent q => PropagateResistorVoltages q
  | MinMaxEvent q => PropagateMinMaxVoltages q
  | SimEvent q t => PropagateSimVoltages q t
  | AttachedDevices q n k => EnqueueAttachedDevices q n k
  | AttachedResistors q n k b => EnqueueAttachedResistors q n k (DefaultQueuePosition_ b q)
  end.

Inductive reachable (d0 : CCvcDb) : CCvcDb -> Prop :=
| reachable_start : reachable d0 d0
| reachable_step o d d' : reachable d0 d -> perform o d = Ok (tt, d') -> reachable d0 d'.

Lemma keeps_perform held o : keeps (pendInv held) (perform o).
Proof. destruct o; simpl; auto with keeps. Qed.

Lemma reachable_pendInv d0 d : pendInv nobody d0 -> reachable d0 d -> pendInv nobody d.
Proof.
  intros H0. induction 1 as [| o d d' _ IH E]; [done |].
  pose proof (keeps_perform nobody o d IH) as H. by rewrite E in H.
Qed.

(** C1: in every state reached by handling events, a device has its pending
    bit of a queue set exactly when it is in that queue, and every queue is
    well formed; so no device is in a queue twice and none is lost. *)
Theorem pending_is_queued d0 d q :
  pendInv nobody d0 -> reachable d0 d ->
  exists A, qinv (queueOf q d) A /\ NoDup (queued A) /\
    QueueSize (queueOf q d) = Z.of_nat (length (queued A)) /\
    forall i, bitSet (deviceStatus_v d) i (pendingOf q) <-> i ∈ queued A.
Proof.
  intros H0 Hr. destruct (reachable_pendInv d0 d H0 Hr q) as [A [H1 H2 H4 H5]]. exists A.
  split_and!; [done | by destruct H1 | by apply QueueSize_queued |].
  intros i. rewrite H4. unfold nobody. tauto.
Qed.

(** C2: no handler raises [EQueueError] in a reachable state: a device is
    never enqueued while it is in the queue, and no event is taken from an
    inconsistent list. *)
Theorem handlers_never_requeue d0 d o :
  pendInv nobody d0 -> reachable d0 d -> perform o d <> Err EQueueError.
Proof.
  intros H0 Hr E. pose proof (keeps_perform nobody o d (reachable_pendInv d0 d H0 Hr)) as H.
  rewrite E in H. by apply H.
Qed.

(** ** The start of a propagation *)

Lemma agrees_reset x n status q :
  Z.of_nat (length status) = n -> n <= UNKNOWN_DEVICE -> queueType x = q ->
  mainQueue x = [] -> delayQueue x = [] -> (forall i, ~ bitSet status i (pendingOf q)) ->
  agrees (ResetQueue x n) status q (nobody q) emptyQueue.
Proof.
  intros Hn Hmax Ht Hm Hd Hb. constructor.
  - apply ResetQueue_inv; [lia | done | done].
  - done.
  - intros i. split; [by intros ?%Hb | intros [H | [[] _]]]. by apply not_elem_of_nil in H.
  - by intros i [].
Qed.

Lemma exampleDb_pending : pendInv nobody ExampleDb.exampleDb.
Proof.
  assert (forall b i, ~ bitSet [0; 0; 0; 0] i b) as Hb.
  { intros b i (s & Hs & Hg). pose proof (vlookup_range _ _ _ Hs) as R. simpl in R.
    assert (i = 0 \/ i = 1 \/ i = 2 \/ i = 3) as [-> | [-> | [-> | ->]]] by lia;
      injection Hs as <-; by destruct b. }
  intros q. exists emptyQueue. destruct q; apply agrees_reset; try done; auto.
Qed.

Definition firstEvents : DB unit :=
  _ ← perform (AttachedDevices MIN_QUEUE 1 0);
  _ ← perform (AttachedDevices MAX_QUEUE 0 1200);
  perform (MinMaxEvent MIN_QUEUE).

Lemma firstEvents_reachable :
  match firstEvents ExampleDb.exampleDb with
  | Ok (_, d) => reachable ExampleDb.exampleDb d
  | Err _ => False
  end.
Proof.
  unfold firstEvents, mbind, M_bind.
  destruct (perform (AttachedDevices MIN_QUEUE 1 0) ExampleDb.exampleDb) as [[[] d1] |] eqn:E1;
    [| by vm_compute in E1].
  destruct (perform (AttachedDevices MAX_QUEUE 0 1200) d1) as [[[] d2] |] eqn:E2;
    [| vm_compute in E1; injection E1 as <-; by vm_compute in E2].
  destruct (perform (MinMaxEvent MIN_QUEUE) d2) as [[[] d3] |] eqn:E3;
    [| vm_compute in E1; injection E1 as <-; vm_compute in E2; injection E2 as <-; by vm_compute in E3].
  repeat (eapply reachable_step; [| eassumption]). apply reachable_start.
Qed.

Lemma pending_is_queued_witness :
  exists d, firstEvents ExampleDb.exampleDb = Ok (tt, d) /\
  exists A, qinv (queueOf MAX_QUEUE d) A /\ NoDup (queued A) /\
    QueueSize (queueOf MAX_QUEUE d) = Z.of_nat (length (queued A)) /\
    forall i, bitSet (deviceStatus_v d) i (pendingOf MAX_QUEUE) <-> i ∈ queued A.
Proof.
  pose proof firstEvents_reachable as H.
  destruct (firstEvents ExampleDb.exampleDb) as [[[] d] |]; [| done]. exists d. split; [done |].
  exact (pending_is_queued ExampleDb.exampleDb d MAX_QUEUE exampleDb_pending H).
Defined.

Lemma handlers_never_requeue_witness :
  exists d, firstEvents ExampleDb.exampleDb = Ok (tt, d) /\ perform (MinMaxEvent MAX_QUEUE) d <> Err EQueueError.
Proof.
  pose proof firstEvents_reachable as H.
  destruct (firstEvents ExampleDb.exampleDb) as [[[] d] |]; [| done]. exists d. split; [done |].
  exact (handlers_never_requeue ExampleDb.exampleDb d (MinMaxEvent MAX_QUEUE) exampleDb_pending H).
Defined.

End Pending.
