(* ===== verification/Forest.v ===== *)
(** * The virtual nets stay forests

    The propagation redirects nets in three vectors of virtual nets.  Each
    redirection walks the new chain, so none closes a loop: in every state a
    handler reaches, the chain of every net ends.  The proof is one for all
    predicates that do not look at queues and device status ([Loose]). *)

From S2P Require Import Prelude CvcTypes EventQueue VirtualNet Numeric Power Db ExampleDb.
From S2P Require Import Connection Short Enqueue Propagate Simulate Resistor Logic Pending.
From stdpp Require Import base list strings gmap sets.
From Stdlib Require Import ZArith Lia Floats.SpecFloat.
#[local] Open Scope Z_scope.

Module Forest.
Import EventQueue.EventQueue VirtualNet.VirtualNet Power.Power Numeric.Numeric Db.Db
  Connection.Connection Short.Short Enqueue.Enqueue Propagate.Propagate Simulate.Simulate
  Resistor.Resistor Logic.Logic Pending.Pending.

(** ** Predicates that ignore queues and device status *)

(** [ok]: the queues the predicate does not look at either.  Handlers of the min queue
    also enqueue in the max queue, and the other way round. *)
Class LooseOn (ok : eventQueue_t -> Prop) (P : CCvcDb -> Prop) : Prop := {
  loose_stable :: Stable P;
  loose_closed q o : ok q -> q <> SIM_QUEUE -> o <> SIM_QUEUE -> ok o;
  loose_queue q x d : ok q -> P d -> P (set_queueOf q x d);
  loose_status v d : length v = length (deviceStatus_v d) -> P d -> P (set_deviceStatus_v v d)
}.
Abbreviation Loose := (LooseOn (fun _ => True)).

Section Loose.
Context (ok : eventQueue_t -> Prop) (P : CCvcDb -> Prop) `{!LooseOn ok P}.

Lemma loose_setDeviceBit {strict} i b x : keeps_ strict P (setDeviceBit i b x).
Proof. unfold setDeviceBit. keep. apply keeps_modify. intros. apply (loose_status (ok := ok)); [| done].
  by rewrite vupdate_length.
Qed.
#[local] Hint Resolve loose_setDeviceBit : keeps.

Lemma loose_marking : Marking P.
Proof. split; [apply _ |]. intros. keep. Qed.
#[local] Existing Instance loose_marking.

Lemma preserves_queueM {A} q (f : CEventQueue -> outcome (A * CEventQueue)) : ok q -> preserves P (queueM q f).
Proof.
  intros Hq d Hd. unfold queueM. destruct (f (queueOf q d)) as [[a x] | e]; [by apply (loose_queue (ok := ok)) | done].
Qed.
Lemma preserves_addEventM q k i pos : ok q -> preserves P (addEventM q k i pos).
Proof. apply preserves_queueM. Qed.
#[local] Hint Resolve preserves_queueM preserves_addEventM : keeps.

Lemma preserves_enqueueDevice q k t i : ok q -> preserves P (enqueueDevice q k t i).
Proof. intros Hq. unfold enqueueDevice. keep. Qed.
#[local] Hint Resolve preserves_enqueueDevice : keeps.
Lemma preserves_EnqueueByTerminal q n first next k : ok q -> preserves P (EnqueueAttachedDevicesByTerminal q n first next k).
Proof. intros Hq. unfold EnqueueAttachedDevicesByTerminal. keep. Qed.
#[local] Hint Resolve preserves_EnqueueByTerminal : keeps.
Lemma preserves_EnqueueAttachedDevices q n k : ok q -> preserves P (EnqueueAttachedDevices q n k).
Proof. intros Hq. unfold EnqueueAttachedDevices. keep. Qed.
Lemma preserves_EnqueueAttachedResistors q n k pos : ok q -> preserves P (EnqueueAttachedResistors q n k pos).
Proof.
  intros Hq. unfold EnqueueAttachedResistors, EnqueueAttachedResistorsByTerminal, enqueueResistor. keep.
Qed.
#[local] Hint Resolve preserves_EnqueueAttachedDevices preserves_EnqueueAttachedResistors : keeps.

Lemma preserves_activateLevel q c : ok q -> preserves P (activateLevel q c).
Proof. intros Hq. unfold activateLevel, minOrMax. destruct q; keep. Qed.
Lemma preserves_diodeConflict q o i c : ok o -> preserves P (diodeConflict q o i c).
Proof. intros Ho. unfold diodeConflict, minOrMax, param. keep. Qed.
#[local] Hint Resolve preserves_activateLevel preserves_diodeConflict : keeps.
Lemma preserves_VoltageConflict q i c : ok q -> preserves P (VoltageConflict q i c).
Proof.
  intros Hq. assert (q <> SIM_QUEUE -> ok MIN_QUEUE /\ ok MAX_QUEUE) as Ho by (intros; split; by eapply loose_closed).
  unfold VoltageConflict. destruct q; try (destruct Ho; [done |]); simpl minOrMax; keep.
Qed.
#[local] Hint Resolve preserves_VoltageConflict : keeps.
Lemma preserves_IsIrrelevant q i c v s : ok q -> preserves P (IsIrrelevant q i c v s).
Proof. intros Hq. unfold IsIrrelevant. keep. Qed.
Lemma preserves_takeEvent q : ok q -> preserves P (takeEvent q).
Proof. intros Hq. unfold takeEvent. keep. Qed.
#[local] Hint Resolve preserves_IsIrrelevant preserves_takeEvent : keeps.

Lemma preserves_PropagateResistorVoltages q : ok q -> preserves P (PropagateResistorVoltages q).
Proof. intros Hq. unfold PropagateResistorVoltages. keep. Qed.
Lemma preserves_requeue q : ok q -> preserves P (modify (fun d => set_queueOf q (requeue (queueOf q d)) d)).
Proof. intros Hq. apply keeps_modify. intros. by apply (loose_queue (ok := ok)). Qed.
#[local] Hint Resolve preserves_requeue preserves_PropagateResistorVoltages : keeps.
Lemma preserves_PropagateMinMaxVoltages q : ok q -> preserves P (PropagateMinMaxVoltages q).
Proof. intros Hq. unfold PropagateMinMaxVoltages, minMaxEvent. keep. Qed.
Lemma preserves_PropagateSimVoltages q t : ok q -> preserves P (PropagateSimVoltages q t).
Proof. intros Hq. unfold PropagateSimVoltages, propagateSim. keep. Qed.

Lemma preserves_startQueue q : ok q -> preserves P (startQueue q).
Proof. intros Hq. apply keeps_modify. intros. by apply (loose_queue (ok := ok)). Qed.
Lemma preserves_resistorLoop fuel : ok MIN_QUEUE -> ok MAX_QUEUE -> preserves P (resistorLoop fuel).
Proof.
  intros Hmin Hmax. induction fuel as [| fuel IH]; simpl; [keep |].
  apply (safe_bind P _ _ _ (fun r d => (forall q, r = Some q -> ok q) /\ P d)).
  - intros d Hd. split; [| done]. unfold nextResistorQueue. intros q. destruct (_ <=? _); [done |]. destruct (_ <? _); by intros [= <-].
  - intros r d [Hr Hd]. destruct r as [q |]; [| by apply Hd]. specialize (Hr q eq_refl).
    assert (preserves P (_ ← PropagateResistorVoltages q; resistorLoop fuel)) as Hk by keep. by apply Hk.
Qed.
#[local] Hint Resolve preserves_startQueue preserves_resistorLoop : keeps.
Lemma preserves_SetResistorVoltagesByPower : ok MIN_QUEUE -> ok MAX_QUEUE -> preserves P SetResistorVoltagesByPower.
Proof. intros Hmin Hmax. unfold SetResistorVoltagesByPower, enqueuePower. keep. Qed.
End Loose.

Section Anywhere.
Context (P : CCvcDb -> Prop) `{!Loose P}.

Lemma preserves_perform o : preserves P (perform o).
Proof.
  destruct o; simpl; by first
    [ apply (preserves_SetResistorVoltagesByPower (fun _ => True)) | apply (preserves_PropagateResistorVoltages (fun _ => True))
    | apply (preserves_PropagateMinMaxVoltages (fun _ => True)) | apply (preserves_PropagateSimVoltages (fun _ => True))
    | apply (preserves_EnqueueAttachedDevices (fun _ => True)) | apply (preserves_EnqueueAttachedResistors (fun _ => True)) ].
Qed.

Lemma reachable_loose d0 d : P d0 -> reachable d0 d -> P d.
Proof.
  intros H0. induction 1 as [| o d d' _ IH E]; [done |].
  pose proof (preserves_perform o d IH) as H. by rewrite E in H.
Qed.
End Anywhere.

(** ** Forests *)

Definition forestInv (d : CCvcDb) : Prop := forall q, netsOk (netsOf q d).

Lemma netsOf_set q q' v d : netsOf q' (set_netsOf q v d) = if decide (q = q') then v else netsOf q' d.
Proof. destruct d, q, q'; done. Qed.

Lemma forestInv_frame d d' : (forall q, netsOf q d' = netsOf q d) -> forestInv d -> forestInv d'.
Proof. intros E H q. rewrite E. apply H. Qed.

Lemma forestInv_set q v d : netsOk v -> forestInv d -> forestInv (set_netsOf q v d).
Proof. intros Hv H q'. rewrite netsOf_set. by destruct (decide _). Qed.

Lemma netsOk_detach v n x :
  vlookup (nets v) n = Some x -> netsOk v ->
  netsOk (set_nets (vupdate (nets v) n (mkVirtualNet n (resistance x) n (finalResistance x)
            (backupNetId x))) v).
Proof.
  intros Hx [F L]. split; simpl; [| by rewrite vupdate_length].
  eapply forest_update; [done |].
  eapply path_end; [apply vlookup_vupdate_eq; by eapply vlookup_range | done].
Qed.

#[export] Instance forestInv_loose : Loose forestInv.
Proof.
  split; [split | done |..]; try (intros; eapply forestInv_frame; [| eassumption]; intros []; by destruct d).
  - intros q n x v d E H. apply forestInv_set; [| done]. by apply (access_forest _ _ _ _ _ (H q) E).
  - intros q n m r t v d E H. apply forestInv_set; [| done]. by apply (Set_forest _ _ _ _ _ _ (H q) E).
  - intros q t d H. apply forestInv_set; [| done]. destruct (H q). by split.
  - intros q n x d E H. apply forestInv_set; [by apply netsOk_detach | done].
  - intros q i a b d. apply forestInv_frame. intros []; by destruct d, q.
  - intros q x d _. apply forestInv_frame. intros []; by destruct d, q.
Qed.

Lemma exampleDb_forest : forestInv ExampleDb.exampleDb.
Proof.
  intros q. split; [| by destruct q].
  intros n [e He]. exists n, (resistance e), 0%nat. constructor; [done |].
  pose proof (vlookup_range _ _ _ He) as R.
  assert (0 <= n < 5) as R' by (by destruct q).
  assert (n = 0 \/ n = 1 \/ n = 2 \/ n = 3 \/ n = 4) as Hn by lia.
  destruct q, Hn as [-> | [-> | [-> | [-> | ->]]]]; by injection He as <-.
Qed.

Lemma masterNet_ends v n f r k :
  path v n f r k -> forall fuel acc, (k < fuel)%nat -> exists R, masterNet fuel v n acc = Ok (f, R).
Proof.
  induction 1 as [n e He Hn | n e f r k He Hn P IH]; intros fuel acc Hf; (destruct fuel as [| fuel]; [lia |]);
    simpl; rewrite (proj2 (vget_Ok _ _ _) He); simpl.
  - rewrite Hn, Z.eqb_refl. eauto.
  - destruct (Z.eqb_spec n (nextNetId e)) as [-> | _]; [done |]. apply IH. lia.
Qed.

Lemma chainEnd_of_path v n f r k :
  path (nets v) n f r k -> chainEnd v n = Ok f /\ IsTerminal v f = Ok true.
Proof.
  intros P. destruct (masterNet_ends _ _ _ _ _ P (length (nets v)) 0) as [R E]; [by eapply path_length_bound |].
  unfold chainEnd. rewrite E. split; [done |].
  destruct (path_terminal _ _ _ _ _ P) as (e & He & Hf).
  unfold IsTerminal. rewrite (proj2 (vget_Ok _ _ _) He). simpl. by rewrite Hf, Z.eqb_refl.
Qed.

Lemma chainEnd_forest v n :
  netsOk v -> is_Some (vlookup (nets v) n) ->
  exists f, chainEnd v n = Ok f /\ IsTerminal v f = Ok true.
Proof.
  intros [F _] Hn. destruct (F n Hn) as (f & r & k & P). exists f. by eapply chainEnd_of_path.
Qed.

(** ** Claims *)

(** C3: in every state reached by the resistor phase and by handling events,
    the virtual nets of the three sample points are forests: from every net,
    the unbounded walk along [nextNetId] (the inner loop of [GetBasePower],
    the loops of CCvcDb_utility.cc) ends at a terminal net. *)
Theorem virtual_nets_stay_forests d0 d q n :
  forestInv d0 -> reachable d0 d -> is_Some (vlookup (nets (netsOf q d)) n) ->
  exists f, chainEnd (netsOf q d) n = Ok f /\ IsTerminal (netsOf q d) f = Ok true.
Proof. intros H0 Hr Hn. apply chainEnd_forest; [by apply (reachable_loose forestInv d0) | done]. Qed.

Lemma virtual_nets_stay_forests_witness :
  exists d, firstEvents ExampleDb.exampleDb = Ok (tt, d) /\
  exists f, chainEnd (netsOf MIN_QUEUE d) 3 = Ok f /\ IsTerminal (netsOf MIN_QUEUE d) f = Ok true.
Proof.
  pose proof firstEvents_reachable as H.
  destruct (firstEvents ExampleDb.exampleDb) as [[[] d] |] eqn:E; [| destruct H]. exists d.
  split; [reflexivity |].
  apply (virtual_nets_stay_forests ExampleDb.exampleDb d MIN_QUEUE 3 exampleDb_forest H).
  vm_compute in E. injection E as <-. vm_compute. eexists. reflexivity.
Defined.

End Forest.
