(* ===== verification/Work.v ===== *)
(** * The resistor propagation ends

    A device counts two units of work for a queue while it may still be
    enqueued, one while it is pending and none once it is inactive.
    Enqueueing a device and handling its event both use up a unit, so the
    loop of [SetResistorVoltagesByPower] runs at most four times per device. *)

From S2P Require Import Prelude CvcTypes EventQueue VirtualNet Numeric Power Db ExampleDb.
From S2P Require Import Connection Short Enqueue Propagate Simulate Resistor Logic Pending Forest.
From stdpp Require Import base list strings gmap sets.
From Stdlib Require Import ZArith Lia Floats.SpecFloat.
#[local] Open Scope Z_scope.

Module Work.
Import EventQueue.EventQueue VirtualNet.VirtualNet Power.Power Numeric.Numeric Db.Db
  Connection.Connection Short.Short Enqueue.Enqueue Propagate.Propagate Simulate.Simulate
  Resistor.Resistor Logic.Logic Pending.Pending Forest.Forest.

(** ** The measure *)

Definition hasBit (s : Z) (b : deviceStatus_t) : bool := status_get s (deviceBit b).

Definition deviceWork (q : eventQueue_t) (s : Z) : Z :=
  if hasBit s (pendingOf q) then 1 else if hasBit s (inactiveOf q) then 0 else 2.

Definition wordWork (s : Z) : Z := deviceWork MIN_QUEUE s + deviceWork MAX_QUEUE s.

Definition work (status : list Z) : Z := foldr (fun s n => wordWork s + n) 0 status.

(** The work without what device [i] counts for [q]. *)
Definition workBut (q : eventQueue_t) (i : Z) (status : list Z) : Z :=
  work status - match vlookup status i with Some s => deviceWork q s | None => 0 end.

Lemma deviceWork_range q s : 0 <= deviceWork q s <= 2.
Proof. unfold deviceWork. repeat case_match; lia. Qed.

Lemma work_range status : 0 <= work status <= 4 * Z.of_nat (length status).
Proof.
  induction status as [| s status IH]; [done |].
  change (work (s :: status)) with (wordWork s + work status). unfold wordWork.
  pose proof (deviceWork_range MIN_QUEUE s). pose proof (deviceWork_range MAX_QUEUE s).
  simpl length. lia.
Qed.

Lemma work_insert status k s s' :
  status !! k = Some s -> work (<[k := s']> status) = work status - wordWork s + wordWork s'.
Proof.
  revert k. induction status as [| x status IH]; intros [| k] H; simplify_eq/=; [lia |].
  rewrite (IH k H). lia.
Qed.

Lemma work_update status i s s' :
  vlookup status i = Some s -> work (vupdate status i s') = work status - wordWork s + wordWork s'.
Proof.
  intros H. pose proof (vlookup_range _ _ _ H) as R. apply Prelude.vlookup_lookup in H.
  unfold vupdate. apply in_range_spec in R. rewrite R. by apply work_insert.
Qed.

(** ** The measure and the status bits *)

Lemma hasBit_set s b b' x :
  hasBit (status_set s (deviceBit b) x) b' = if decide (b = b') then x else hasBit s b'.
Proof.
  unfold hasBit. rewrite status_get_set by apply deviceBit_nonneg.
  destruct (Z.eqb_spec (deviceBit b) (deviceBit b')) as [E | E], (decide (b = b')) as [-> | H]; try done.
  by apply deviceBit_inj in E.
Qed.

Lemma deviceWork_mark q q' s : deviceWork q (status_set s (deviceBit (inactiveOf q')) true) <= deviceWork q s.
Proof. unfold deviceWork. rewrite !hasBit_set. destruct q, q'; simpl; repeat case_match; lia. Qed.

Lemma wordWork_mark q s : wordWork (status_set s (deviceBit (inactiveOf q)) true) <= wordWork s.
Proof.
  unfold wordWork. pose proof (deviceWork_mark MIN_QUEUE q s). pose proof (deviceWork_mark MAX_QUEUE q s). lia.
Qed.

(** Without the part of [q], the work of a word does not depend on its bits
    for [q] and does not grow when the word is marked. *)
Definition otherWork (q : eventQueue_t) (s : Z) : Z := wordWork s - deviceWork q s.

Lemma otherWork_mark q q' s :
  q <> SIM_QUEUE -> otherWork q (status_set s (deviceBit (inactiveOf q')) true) <= otherWork q s.
Proof.
  unfold otherWork, wordWork. intros Hq.
  pose proof (deviceWork_mark MIN_QUEUE q' s). pose proof (deviceWork_mark MAX_QUEUE q' s).
  destruct q; [done | lia | lia].
Qed.

Lemma otherWork_pending q s x :
  q <> SIM_QUEUE -> otherWork q (status_set s (deviceBit (pendingOf q)) x) = otherWork q s.
Proof.
  unfold otherWork, wordWork, deviceWork. intros Hq. rewrite !hasBit_set.
  destruct q; simpl; [done | lia | lia].
Qed.

Lemma workBut_some q i status s :
  vlookup status i = Some s -> workBut q i status = work status - deviceWork q s.
Proof. unfold workBut. by intros ->. Qed.

(** A change of the word of device [i] itself, and of another device. *)
Lemma workBut_own q i status s s' :
  vlookup status i = Some s -> otherWork q s' <= otherWork q s ->
  workBut q i (vupdate status i s') <= workBut q i status.
Proof.
  intros E Ho. unfold otherWork in Ho. rewrite (workBut_some q i status s E).
  rewrite (workBut_some q i _ s') by (apply vlookup_vupdate_eq; by eapply vlookup_range).
  rewrite (work_update _ _ _ _ E). lia.
Qed.

Lemma workBut_other q i j status s s' :
  i <> j -> vlookup status j = Some s -> wordWork s' <= wordWork s ->
  workBut q i (vupdate status j s') <= workBut q i status.
Proof.
  intros Hij E Hw. unfold workBut. rewrite (work_update _ _ _ _ E), vlookup_vupdate_ne by done. lia.
Qed.

(** ** Budgets *)

Definition budget held (w : Z) (d : CCvcDb) : Prop := pendInv held d /\ work (deviceStatus_v d) <= w.

(** Device [i] was taken from queue [q]; its own work is not counted. *)
Definition busy held q i (w : Z) (d : CCvcDb) : Prop :=
  idleInv held q i d /\ workBut q i (deviceStatus_v d) <= w.

#[export] Instance budget_stable held w : Stable (budget held w).
Proof.
  apply queue_status_stable.
  - intros d d' Eq Es [Hp Hw]. split; [by eapply pendInv_frame | by rewrite Es].
  - intros q i a b d [Hp Hw]. split; [by apply stable_leak | by rewrite deviceStatus_set_queueOf].
Qed.

#[export] Instance busy_stable held q i w : Stable (busy held q i w).
Proof.
  apply queue_status_stable.
  - intros d d' Eq Es [[Hp Hi] Hw]. split; [| by rewrite Es].
    split; [by eapply pendInv_frame | by eapply idle_frame].
  - intros q' j a b d [Hp Hw]. split; [by apply stable_leak | by rewrite deviceStatus_set_queueOf].
Qed.

Lemma budget_some held w d : budget held w d -> exists held, pendInv held d.
Proof. intros [? _]. eauto. Qed.
Lemma busy_some held q i w d : busy held q i w d -> exists held, pendInv held d.
Proof. intros [[? _] _]. eauto. Qed.
#[export] Hint Resolve budget_some busy_some : keeps.

(** Two triples of one handler. *)
Lemma safe_conj {A} P P' (m : DB A) (Q Q' : A -> CCvcDb -> Prop) :
  safe P m Q -> safe_ false P' m Q' -> safe (fun d => P d /\ P' d) m (fun a d => Q a d /\ Q' a d).
Proof.
  intros H H' d [Hd Hd']. specialize (H d Hd). specialize (H' d Hd').
  destruct (m d) as [[a d'] | e]; [by split | done].
Qed.

(** Writing a status bit, as a triple on the status words alone. *)
Lemma safe_setDeviceBit {strict} (P Q : list Z -> Prop) i b x :
  (forall l s, P l -> vlookup l i = Some s -> Q (vupdate l i (status_set s (deviceBit b) x))) ->
  safe_ strict (fun d => P (deviceStatus_v d)) (setDeviceBit i b x) (fun _ d => Q (deviceStatus_v d)).
Proof.
  intros H d Hd. rewrite setDeviceBit_run. destruct (vlookup (deviceStatus_v d) i) as [s |] eqn:E; [| done].
  rewrite deviceStatus_set_status. eauto.
Qed.

(** ** Marking a device *)

#[export] Instance budget_marking held w : Marking (budget held w).
Proof.
  split; [apply _ |]. intros q i. apply safe_inactive; [eauto with keeps |].
  apply (safe_conj _ (fun d => work (deviceStatus_v d) <= w) _ (fun _ => pendInv held)
    (fun _ d => work (deviceStatus_v d) <= w)); [apply keeps_setInactive; eauto with keeps |].
  apply (safe_setDeviceBit (fun l => work l <= w) (fun l => work l <= w)). intros l s Hl E.
  rewrite (work_update _ _ _ _ E). pose proof (wordWork_mark q s). lia.
Qed.

Lemma busy_mark held q i w q' j :
  q <> SIM_QUEUE -> keeps (busy held q i w) (setDeviceBit j (inactiveOf q') true).
Proof.
  intros Hq. apply (safe_conj _ (fun d => workBut q i (deviceStatus_v d) <= w) _ (fun _ => idleInv held q i)
    (fun _ d => workBut q i (deviceStatus_v d) <= w)); [apply keeps_setInactive_idle; eauto with keeps |].
  apply (safe_setDeviceBit (fun l => workBut q i l <= w) (fun l => workBut q i l <= w)). intros l s Hl E.
  destruct (decide (i = j)) as [<- | Hij].
  - pose proof (workBut_own q i l s _ E (otherWork_mark q q' s Hq)). lia.
  - pose proof (workBut_other q i j l s _ Hij E (wordWork_mark q' s)). lia.
Qed.

Lemma busy_marking held q i w : q <> SIM_QUEUE -> Marking (busy held q i w).
Proof.
  intros Hq. split; [apply _ |]. intros q' j. apply safe_inactive; [eauto with keeps |].
  by apply busy_mark.
Qed.

(** Once the device taken is inactive, it has no work left. *)
Lemma safe_mark_taken held q i w :
  q <> SIM_QUEUE ->
  safe (busy held q i w) (b ← gets (fun d => inactiveBit (queueOf q d)); setDeviceBit i b true)
    (fun _ => budget held w).
Proof.
  intros Hq. apply safe_inactive; [eauto with keeps |]. intros d Hd.
  pose proof (busy_mark held q i w q i Hq d Hd) as H. revert H. rewrite setDeviceBit_run.
  destruct (vlookup (deviceStatus_v d) i) as [s |] eqn:E; [| done]. intros [[Hp [_ Hi]] Hw].
  split; [done |]. rewrite deviceStatus_set_status in *. revert Hi Hw.
  set (s' := status_set s (deviceBit (inactiveOf q)) true). intros Hi Hw.
  assert (vlookup (vupdate (deviceStatus_v d) i s') i = Some s') as E'
    by (apply vlookup_vupdate_eq; by eapply vlookup_range).
  rewrite (workBut_some _ _ _ _ E') in Hw.
  assert (deviceWork q s' = 0) as H0; [| lia]. unfold deviceWork.
  destruct (hasBit s' (pendingOf q)) eqn:Eb; [by destruct Hi; exists s' |].
  unfold s'. rewrite hasBit_set. by rewrite decide_True.
Qed.

Lemma safe_ShortNets_taken held q i w c b :
  q <> SIM_QUEUE -> safe (busy held q i w) (ShortNets q i c b) (fun _ => budget held w).
Proof.
  intros Hq. pose proof (busy_marking held q i w Hq) as Hm.
  unfold ShortNets. destruct b; do 5 (apply keeps_then; [solve [keep] |]; intros ?);
    by apply safe_mark_taken.
Qed.

Lemma safe_AlreadyShorted_taken held q i w c :
  q <> SIM_QUEUE -> safe (busy held q i w) (AlreadyShorted q i c) (fun _ => budget held w).
Proof.
  intros Hq. pose proof (busy_marking held q i w Hq) as Hm. unfold AlreadyShorted.
  apply (safe_bind _ _ _ _ (fun r d => r = false /\ busy held q i w d)).
  - destruct (_ =? _).
    + apply keeps_then; [solve [keep] |]. intros ?. by apply safe_ret.
    + destruct q; [done |..]; do 5 (apply keeps_then; [solve [keep] |]; intros ?); by apply safe_ret.
  - intros r. apply safe_pure. intros ->. by apply safe_mark_taken.
Qed.

(** ** Taking an event *)

Lemma takeEvent_run q d i x :
  GetEvent (queueOf q d) = Ok (i, x) -> queueType x = q ->
  takeEvent q d =
  match vlookup (deviceStatus_v d) i with
  | Some s => let s' := status_set s (deviceBit (pendingOf q)) false in
              Ok (if hasBit s' (inactiveOf q) then None else Some i,
                  set_deviceStatus_v (vupdate (deviceStatus_v d) i s') (set_queueOf q x d))
  | None => Err UndefinedBehaviour
  end.
Proof.
  intros E Ht. unfold takeEvent, mbind, M_bind, queueM, gets. rewrite E.
  unfold pendingBit, inactiveBit. rewrite queueOf_set, decide_True, Ht by done.
  change (match q with SIM_QUEUE => SIM_PENDING | MAX_QUEUE => MAX_PENDING | MIN_QUEUE => MIN_PENDING end)
    with (pendingOf q).
  change (match q with SIM_QUEUE => SIM_INACTIVE | MAX_QUEUE => MAX_INACTIVE | MIN_QUEUE => MIN_INACTIVE end)
    with (inactiveOf q).
  rewrite setDeviceBit_after. destruct (vlookup (deviceStatus_v d) i) as [s |] eqn:El; [| done].
  unfold getDeviceBit, at_, lift, mbind, M_bind, vget. rewrite deviceStatus_set_status.
  rewrite vlookup_vupdate_eq by (by eapply vlookup_range). done.
Qed.

Lemma safe_takeEvent_work q w :
  q <> SIM_QUEUE ->
  safe (budget nobody (w + 1)) (takeEvent q)
    (fun r => match r with Some i => busy nobody q i w | None => budget nobody w end).
Proof.
  intros Hq d [Hp Hw]. pose proof (safe_takeEvent nobody q d Hp) as Ht. revert Ht.
  destruct (Hp q) as [A HA]. pose proof (GetEvent_cases _ _ (ag_inv _ _ _ _ _ HA)) as Hg.
  destruct (GetEvent (queueOf q d)) as [[i x] | e] eqn:E;
    [| unfold takeEvent, mbind, M_bind, queueM; by rewrite E].
  destruct Hg as (A' & Hx & Ht & Hl & Hqd).
  rewrite (takeEvent_run q d i x E) by (rewrite Ht; apply HA).
  assert (bitSet (deviceStatus_v d) i (pendingOf q)) as (s & Es & Hs)
    by (apply (ag_bits _ _ _ _ _ HA); left; rewrite Hqd; left).
  rewrite Es. cbv zeta. set (s' := status_set s (deviceBit (pendingOf q)) false).
  assert (hasBit s' (pendingOf q) = false) as Hs' by (unfold s'; rewrite hasBit_set; by rewrite decide_True).
  assert (deviceWork q s = 1) as H1 by (unfold deviceWork, hasBit; by rewrite Hs).
  assert (otherWork q s' = otherWork q s) as Ho by (by apply otherWork_pending).
  assert (workBut q i (vupdate (deviceStatus_v d) i s') <= w) as Hb.
  { pose proof (workBut_own q i _ _ s' Es ltac:(lia)) as Hle.
    rewrite (workBut_some q i (deviceStatus_v d) s Es) in Hle. lia. }
  destruct (hasBit s' (inactiveOf q)) eqn:Ei; intros H.
  - split; [done |]. rewrite deviceStatus_set_status.
    rewrite (workBut_some q i _ s') in Hb by (apply vlookup_vupdate_eq; by eapply vlookup_range).
    unfold deviceWork in Hb. rewrite Hs', Ei in Hb. lia.
  - split; [done |]. by rewrite deviceStatus_set_status.
Qed.

(** ** Enqueueing *)

(** Reading a bit tells what the word holds. *)
Lemma safe_readBit P i b :
  safe P (getDeviceBit i b)
    (fun x d => P d /\ exists s, vlookup (deviceStatus_v d) i = Some s /\ hasBit s b = x).
Proof.
  intros d Hd. unfold getDeviceBit, at_, lift, mbind, M_bind, vget.
  destruct (vlookup (deviceStatus_v d) i) as [s |] eqn:E; [| done]. simpl. eauto.
Qed.

Lemma budget_enqueue q w k pos i s :
  q <> SIM_QUEUE -> pos <> SKIP_QUEUE -> hasBit s (inactiveOf q) = false -> hasBit s (pendingOf q) = false ->
  safe (fun d => budget nobody w d /\ vlookup (deviceStatus_v d) i = Some s)
    (_ ← addEventM q k i pos; setDeviceBit i (pendingOf q) true) (fun _ => budget nobody w).
Proof.
  intros Hq Hpos Hi Hb.
  apply (safe_conseq _ (fun d => idleInv nobody q i d /\ (work (deviceStatus_v d) <= w /\
    vlookup (deviceStatus_v d) i = Some s)) _ _ (fun _ d => pendInv nobody d /\ work (deviceStatus_v d) <= w)).
  - apply safe_conj; [by apply safe_enqueue |]. intros d [Hw E].
    unfold mbind, M_bind, addEventM, queueM. unfold mbind, outcome_bind.
    destruct (AddEvent (queueOf q d) k i pos) as [x | e]; [| done].
    rewrite setDeviceBit_after, E, deviceStatus_set_status, (work_update _ _ _ _ E).
    set (s' := status_set s (deviceBit (pendingOf q)) true).
    assert (otherWork q s' = otherWork q s) as Ho by (by apply otherWork_pending).
    assert (deviceWork q s' = 1) as H1.
    { unfold deviceWork, s'. rewrite hasBit_set. by rewrite decide_True. }
    assert (deviceWork q s = 2) as H2 by (unfold deviceWork; by rewrite Hb, Hi).
    unfold otherWork in Ho. lia.
  - intros d [[Hp Hw] E]. split; [| done]. split; [done |]. split; [by eexists |].
    intros (s' & E' & Hs'). unfold hasBit in Hb. congruence.
  - done.
Qed.

Lemma keeps_enqueueResistor_work q w k pos i :
  q <> SIM_QUEUE -> pos <> SKIP_QUEUE -> keeps (budget nobody w) (enqueueResistor q k pos i).
Proof.
  intros Hq Hpos. unfold enqueueResistor. apply keeps_then; [keep |]. intros t.
  destruct (negb _); [apply keeps_ret |].
  apply safe_inactive; [eauto with keeps |]. apply safe_pending; [eauto with keeps |].
  eapply safe_bind; [apply safe_readBit |]. intros a. eapply safe_bind; [apply safe_readBit |]. intros b.
  destruct a, b; simpl; try (apply safe_ret; naive_solver).
  intros d [[Hd (s & E & Hi)] (s' & E' & Hb)].
  assert (s' = s) as -> by congruence.
  pose proof (budget_enqueue q w k pos i s Hq Hpos Hi Hb d (conj Hd E)) as H. revert H.
  unfold mbind, M_bind. destruct (addEventM _ _ _ _ d) as [[[] d1] | e]; [| done].
  by destruct (setDeviceBit _ _ _ d1) as [[[] d2] | e].
Qed.

Lemma keeps_EnqueueAttachedResistors_work q w n k pos :
  q <> SIM_QUEUE -> pos <> SKIP_QUEUE -> keeps (budget nobody w) (EnqueueAttachedResistors q n k pos).
Proof.
  intros Hq Hp. unfold EnqueueAttachedResistors, EnqueueAttachedResistorsByTerminal.
  keep; by apply keeps_enqueueResistor_work.
Qed.
#[local] Hint Resolve keeps_EnqueueAttachedResistors_work : keeps.

(** ** An event of the resistor propagation *)

Lemma safe_PropagateResistorVoltages_work q w :
  q <> SIM_QUEUE ->
  safe (budget nobody (w + 1)) (PropagateResistorVoltages q) (fun _ => budget nobody w).
Proof.
  intros Hq. unfold PropagateResistorVoltages.
  eapply safe_bind; [by apply safe_takeEvent_work |]. intros [i |]; [| apply safe_ret; done].
  pose proof (busy_marking nobody q i w Hq) as Hm.
  assert (forall b : bool, (if b then MAIN_BACK else DELAY_FRONT) <> SKIP_QUEUE) as Hp by (by intros []).
  apply keeps_then; [keep |]. intros c. apply keeps_then; [keep |]. intros us. destruct us.
  { apply keeps_then; [keep |]. intros ?. eapply safe_bind; [by apply safe_ShortNets_taken |]. intros ?.
    as_keeps. keep. }
  apply keeps_then; [keep |]. intros ud. destruct ud.
  { eapply safe_bind; [by apply safe_ShortNets_taken |]. intros ?. as_keeps. keep. }
  eapply safe_bind; [by apply safe_AlreadyShorted_taken |]. intros ?. as_keeps. keep.
Qed.

(** ** The number of devices does not change *)

Definition devicesAre (n : nat) (d : CCvcDb) : Prop := length (deviceStatus_v d) = n.

#[export] Instance devicesAre_loose n : Loose (devicesAre n).
Proof.
  assert (forall q x d, deviceStatus_v (set_netsOf q x d) = deviceStatus_v d) as Hn
    by (intros [] x d; by destruct d).
  assert (forall q x d, deviceStatus_v (set_queueOf q x d) = deviceStatus_v d) as Hq
    by (intros [] x d; by destruct d).
  unfold devicesAre. split; [split |..]; intros; rewrite ?Hn, ?Hq; try done; try (by destruct d).
  destruct d. simpl in *. congruence.
Qed.

(** ** The loop *)

(** [resistorRun n d d']: the loop handles [n] events and comes from [d] to
    [d'] without an error. *)
Inductive resistorRun : nat -> CCvcDb -> CCvcDb -> Prop :=
  | run_here d : resistorRun 0 d d
  | run_event n d q d1 d' :
      nextResistorQueue d = Some q -> PropagateResistorVoltages q d = Ok (tt, d1) ->
      resistorRun n d1 d' -> resistorRun (S n) d d'.

(** Where the loop stops: both queues are empty, or the next event fails. *)
Definition stopsAt (r : outcome (unit * CCvcDb)) (d : CCvcDb) : Prop :=
  match nextResistorQueue d with
  | None => r = Ok (tt, d)
  | Some q => exists e, PropagateResistorVoltages q d = Err e /\ r = Err e
  end.

Lemma nextResistorQueue_side d q : nextResistorQueue d = Some q -> q <> SIM_QUEUE.
Proof. unfold nextResistorQueue. intros H. repeat case_match; by simplify_eq. Qed.

Lemma resistorLoop_stops w : forall fuel d,
  budget nobody (Z.of_nat w) d -> (w < fuel)%nat ->
  exists n d', (n <= w)%nat /\ resistorRun n d d' /\ stopsAt (resistorLoop fuel d) d'.
Proof.
  induction w as [w IH] using lt_wf_ind. intros [| fuel] d Hd Hf; [lia |].
  destruct (nextResistorQueue d) as [q |] eqn:En.
  2: { exists 0%nat, d. split_and!; [lia | constructor |]. unfold stopsAt. rewrite En.
       simpl. unfold mbind, M_bind, gets. by rewrite En. }
  pose proof (safe_PropagateResistorVoltages_work q (Z.of_nat w - 1) (nextResistorQueue_side _ _ En) d) as Hs.
  replace (Z.of_nat w - 1 + 1) with (Z.of_nat w) in Hs by lia. specialize (Hs Hd).
  assert (resistorLoop (S fuel) d = (_ ← PropagateResistorVoltages q; resistorLoop fuel) d) as El.
  { simpl. unfold mbind, M_bind, gets. by rewrite En. }
  unfold mbind, M_bind in El. destruct (PropagateResistorVoltages q d) as [[[] d1] | e] eqn:Ep.
  - assert (0 < w)%nat by (destruct Hs as [_ Hw]; pose proof (work_range (deviceStatus_v d1)); lia).
    replace (Z.of_nat w - 1) with (Z.of_nat (w - 1)) in Hs by lia.
    destruct (IH (w - 1)%nat ltac:(lia) fuel d1 Hs ltac:(lia)) as (n & d' & Hn & Hr & Ha).
    exists (S n), d'. split_and!; [lia | by eapply run_event |]. by rewrite El.
  - exists 0%nat, d. split_and!; [lia | constructor |]. unfold stopsAt. rewrite En. eauto.
Qed.

Lemma resistorRun_pending n d d' : resistorRun n d d' -> pendInv nobody d -> pendInv nobody d'.
Proof.
  induction 1 as [d | n d q d1 d' Hn Hp _ IH]; [done |]. intros Hd. apply IH.
  pose proof (keeps_PropagateResistorVoltages nobody q d Hd) as H. by rewrite Hp in H.
Qed.

Lemma resistorRun_devices m n d d' : resistorRun n d d' -> devicesAre m d -> devicesAre m d'.
Proof.
  induction 1 as [d | n d q d1 d' Hn Hp _ IH]; [done |]. intros Hd. apply IH.
  pose proof (preserves_PropagateResistorVoltages _ (devicesAre m) q I d Hd) as H. by rewrite Hp in H.
Qed.

(** Both queues are empty when the sum of their sizes, kept in 32 bits, is
    zero: it cannot wrap below 2^31 devices. *)
Lemma nextResistorQueue_None d q :
  pendInv nobody d -> Z.of_nat (length (deviceStatus_v d)) < 2 ^ 31 -> nextResistorQueue d = None ->
  q <> SIM_QUEUE -> QueueSize (queueOf q d) = 0.
Proof.
  intros Hp Hl Hn Hq. unfold nextResistorQueue in Hn.
  assert (forall q, 0 <= QueueSize (queueOf q d) < 2 ^ 31) as Hr.
  { intros q'. destruct (Hp q') as [A HA]. rewrite (QueueSize_queued _ _ (ag_inv _ _ _ _ _ HA)).
    pose proof (agrees_length _ _ _ _ _ HA). lia. }
  pose proof (Hr MIN_QUEUE) as H1. pose proof (Hr MAX_QUEUE) as H2. simpl in H1, H2.
  unfold wrap_u in Hn. rewrite Z.mod_small in Hn by lia.
  destruct (Z.leb_spec (QueueSize (minEventQueue d) + QueueSize (maxEventQueue d)) 0); [| done].
  destruct q; simpl; [done | lia | lia].
Qed.

Lemma emptyQueue_idle d q i :
  pendInv nobody d -> QueueSize (queueOf q d) = 0 -> ~ bitSet (deviceStatus_v d) i (pendingOf q).
Proof.
  intros Hp H0 Hb. destruct (Hp q) as [A HA]. destruct (proj1 (ag_bits _ _ _ _ _ HA i) Hb) as [Hin | [[] _]].
  rewrite (QueueSize_queued _ _ (ag_inv _ _ _ _ _ HA)) in H0.
  destruct (queued A); [by apply not_elem_of_nil in Hin | simpl in H0; lia].
Qed.

(** C4: the loop of the resistor propagation ends.  From a state whose
    pending bits agree with the queues it handles at most four events per
    device, and with any fuel above that it either returns in a state in which
    no device is pending in the min and max queues, or stops with the error of
    the event it could not handle; it never stops for lack of fuel of its
    own. *)
Theorem resistorLoop_terminates d fuel :
  pendInv nobody d -> Z.of_nat (length (deviceStatus_v d)) < 2 ^ 31 ->
  (4 * length (deviceStatus_v d) < fuel)%nat ->
  exists n d', (n <= 4 * length (deviceStatus_v d))%nat /\ resistorRun n d d' /\
    ((resistorLoop fuel d = Ok (tt, d') /\
      forall q i, q <> SIM_QUEUE ->
        QueueSize (queueOf q d') = 0 /\ ~ bitSet (deviceStatus_v d') i (pendingOf q)) \/
     (exists q e, nextResistorQueue d' = Some q /\ PropagateResistorVoltages q d' = Err e /\
        resistorLoop fuel d = Err e)).
Proof.
  intros Hp Hl Hf.
  assert (budget nobody (Z.of_nat (4 * length (deviceStatus_v d))) d) as Hb.
  { split; [done |]. pose proof (work_range (deviceStatus_v d)). lia. }
  destruct (resistorLoop_stops _ fuel d Hb Hf) as (n & d' & Hn & Hr & Hs).
  pose proof (resistorRun_pending _ _ _ Hr Hp) as Hp'.
  pose proof (resistorRun_devices _ _ _ _ Hr eq_refl) as Hd. unfold devicesAre in Hd.
  exists n, d'. split_and!; [done | done |]. unfold stopsAt in Hs.
  destruct (nextResistorQueue d') as [q |] eqn:En; [right; naive_solver | left].
  split; [done |]. intros q i Hq.
  assert (QueueSize (queueOf q d') = 0) as H0 by (apply nextResistorQueue_None; [done | lia | done..]).
  split; [done | by apply emptyQueue_idle].
Qed.

(** The example circuit, with its powers enqueued. *)
Definition enqueuedDb : CCvcDb :=
  match (l ← gets cvcPowerPtrList; forList l enqueuePower) ExampleDb.exampleDb with
  | Ok (_, d) => d | Err _ => ExampleDb.exampleDb
  end.

Lemma enqueuedDb_pending : pendInv nobody enqueuedDb.
Proof.
  unfold enqueuedDb.
  assert (keeps (pendInv nobody) (l ← gets cvcPowerPtrList; forList l enqueuePower)) as H by keep.
  specialize (H _ exampleDb_pending). revert H.
  destruct ((l ← gets cvcPowerPtrList; forList l enqueuePower) ExampleDb.exampleDb) as [[[] d] |];
    [done | intros _; apply exampleDb_pending].
Qed.

Lemma resistorLoop_terminates_witness :
  exists d, nextResistorQueue enqueuedDb <> None /\ resistorLoop 17 enqueuedDb = Ok (tt, d) /\
  exists n d', (n <= 16)%nat /\ resistorRun n enqueuedDb d' /\
    ((resistorLoop 17 enqueuedDb = Ok (tt, d') /\
      forall q i, q <> SIM_QUEUE ->
        QueueSize (queueOf q d') = 0 /\ ~ bitSet (deviceStatus_v d') i (pendingOf q)) \/
     (exists q e, nextResistorQueue d' = Some q /\ PropagateResistorVoltages q d' = Err e /\
        resistorLoop 17 enqueuedDb = Err e)).
Proof.
  assert (length (deviceStatus_v enqueuedDb) = 4%nat) as H4 by (by vm_compute).
  assert (match resistorLoop 17 enqueuedDb with Ok _ => true | Err _ => false end = true) as Hr
    by (by vm_compute).
  pose proof (resistorLoop_terminates enqueuedDb 17 enqueuedDb_pending) as H. rewrite H4 in H.
  destruct (resistorLoop 17 enqueuedDb) as [[[] d] | e]; [| discriminate Hr].
  exists d. split_and!; [by vm_compute | reflexivity |]. apply H; lia.
Defined.

End Work.
