(* ===== verification/Dependency.v ===== *)
(** * Estimated connections (CCvcDb.cc)

    A net whose level was estimated through a diode depends on the nets that
    were estimated from it.  [CheckEstimateDependencies] drops the mark of a
    net when some net that depends on it, directly or not, is no longer
    marked.  The map is a [std::unordered_map]: the order in which it is
    visited is an argument of the model, and the theorem shows that the result
    does not depend on it. *)

From S2P Require Import Prelude CvcTypes Power Db ExampleDb.
From stdpp Require Import base list gmap sets.
From Stdlib Require Import ZArith Lia.
#[local] Open Scope Z_scope.

Module Dependency.
Import Db.Db.

(** ** The model *)

Fixpoint allDependents (check : list Z -> outcome bool) (m : CDependencyMap) (status : list Z)
    (theEstimateType : netStatus_t) (l : list Z) : outcome bool :=
  match l with
  | [] => Ok true
  | n :: l =>
      s ← vget status n;
      if negb (status_get s (netBit theEstimateType)) then Ok false
      else
        match m !! n with
        | None => allDependents check m status theEstimateType l
        | Some l' =>
            b ← check l';
            if (b : bool) then allDependents check m status theEstimateType l else Ok false
        end
  end.

Fixpoint CheckEstimateDependency (fuel : nat) (m : CDependencyMap) (status : list Z)
    (theEstimateType : netStatus_t) (theDependencyList : list Z) : outcome bool :=
  match fuel with
  | O => throw OutOfFuel
  | S fuel =>
      _ ← assert_ (negb (bool_decide (theDependencyList = [])));
      allDependents (CheckEstimateDependency fuel m status theEstimateType) m status
        theEstimateType theDependencyList
  end.

(** One loop of [CheckEstimateDependencies], over the pairs in [order]. *)
Fixpoint checkPass (order : list Z) (m : CDependencyMap) (theEstimateType : netStatus_t)
    (status : list Z) : outcome (list Z) :=
  match order with
  | [] => Ok status
  | myNetId :: order =>
      s ← vget status myNetId;
      if negb (status_get s (netBit theEstimateType)) then checkPass order m theEstimateType status
      else
        b ← CheckEstimateDependency (S (size m)) m status theEstimateType (default [] (m !! myNetId));
        status ← vset status myNetId (status_set s (netBit theEstimateType) b);
        checkPass order m theEstimateType status
  end.

Definition CheckEstimateDependencies (minOrder maxOrder : list Z) : DB unit :=
  let pass order bit m : DB unit :=
    s ← gets netStatus_v;
    s ← lift (checkPass order m bit s);
    modify (set_netStatus_v s) in
  mn ← gets minConnectionDependencyMap;
  _ ← pass minOrder NEEDS_MIN_CONNECTION mn;
  mx ← gets maxConnectionDependencyMap;
  pass maxOrder NEEDS_MAX_CONNECTION mx.

(** ** Specification *)

(** [depends m k n]: [n] was estimated from [k], through any number of nets. *)
Inductive depends (m : CDependencyMap) : Z -> Z -> Prop :=
| depends_one k l n : m !! k = Some l -> n ∈ l -> depends m k n
| depends_step k l n x : m !! k = Some l -> n ∈ l -> depends m n x -> depends m k x.

Definition marked (b : netStatus_t) (status : list Z) (n : Z) : Prop :=
  exists s, vlookup status n = Some s /\ status_get s (netBit b) = true.

(** The nets of the map exist, no list is empty, and no net depends on
    itself: [rank] falls along the dependencies. *)
Record wellFounded (m : CDependencyMap) (status : list Z) (rank : Z -> nat) : Prop := {
  wf_key k l : m !! k = Some l -> is_Some (vlookup status k) /\ l <> [] /\ (rank k < size m)%nat;
  wf_item k l n : m !! k = Some l -> n ∈ l -> is_Some (vlookup status n);
  wf_rank k l n : m !! k = Some l -> n ∈ l -> is_Some (m !! n) -> (rank n < rank k)%nat
}.

Lemma netBit_nonneg b : 0 <= netBit b.
Proof. destruct b; simpl; lia. Qed.

Lemma netBit_inj a b : netBit a = netBit b -> a = b.
Proof. destruct a, b; simpl; congruence. Qed.

Lemma marked_lookup b status n s :
  vlookup status n = Some s -> marked b status n <-> status_get s (netBit b) = true.
Proof. intros E. unfold marked. rewrite E. naive_solver. Qed.

(** The marks of another kind, and of other nets, survive an update. *)
Lemma marked_update b b' status k n s x :
  vlookup status k = Some s ->
  marked b (vupdate status k (status_set s (netBit b') x)) n <->
  if decide (n = k /\ b = b') then x = true else marked b status n.
Proof.
  intros E. unfold marked. rewrite vlookup_vupdate.
  pose proof (vlookup_range _ _ _ E) as R. apply in_range_spec in R. rewrite R.
  destruct (Z.eqb_spec k n) as [<- | Hne].
  - rewrite E. destruct (decide _) as [[_ ->] | Hd].
    + split; [intros (s' & [= <-] & H) | intros ->; eexists; split; [done |]];
        rewrite status_get_set, Z.eqb_refl in * by apply netBit_nonneg; done.
    + assert (b <> b') as Hbb by naive_solver.
      split; intros (s' & [= <-] & H); eexists; (split; [done |]);
        rewrite status_get_set in * by apply netBit_nonneg;
        (destruct (Z.eqb_spec (netBit b') (netBit b)) as [Eb | _]; [apply netBit_inj in Eb; congruence | done]).
  - destruct (decide _) as [[-> _] | _]; [done | reflexivity].
Qed.

Section Check.
Context (m : CDependencyMap) (status : list Z) (rank : Z -> nat) (b : netStatus_t).
Context (Hwf : wellFounded m status rank).

(** What a correct check of the pairs of rank below [N] answers. *)
Definition answers (N : nat) (check : list Z -> outcome bool) : Prop :=
  forall k l, m !! k = Some l -> (rank k < N)%nat ->
    exists r, check l = Ok r /\ (r = true <-> forall x, depends m k x -> marked b status x).

Lemma allDependents_spec check N l :
  answers N check ->
  (forall n, n ∈ l -> is_Some (vlookup status n) /\ (is_Some (m !! n) -> (rank n < N)%nat)) ->
  exists r, allDependents check m status b l = Ok r /\
    (r = true <-> forall n, n ∈ l -> marked b status n /\ forall x, depends m n x -> marked b status x).
Proof.
  intros Hc. induction l as [| n l IH]; simpl; intros Hl.
  { exists true. split; [done |]. split; [| done]. intros _ n Hn. by apply not_elem_of_nil in Hn. }
  destruct (Hl n) as [[s Es] Hr]; [apply list_elem_of_here |].
  destruct IH as (r & Er & Hr'); [intros; apply Hl; by apply list_elem_of_further |].
  unfold vget. rewrite Es. simpl. pose proof (marked_lookup b status n s Es) as Hm.
  destruct (status_get s (netBit b)); simpl.
  2: { exists false. split; [done |]. split; [done |]. intros H.
       destruct (H n) as [H' _]; [apply list_elem_of_here |]. by apply Hm. }
  destruct (m !! n) as [l' |] eqn:Em.
  - destruct (Hc n l' Em (Hr (mk_is_Some _ _ eq_refl))) as (r' & Er' & Hr2). rewrite Er'. simpl. destruct r'.
    + exists r. split; [done |]. rewrite Hr'. setoid_rewrite elem_of_cons.
      split; [| intros H x Hx; apply H; by right]. intros H x [-> | Hx]; [| by apply H].
      split; [by apply Hm | by apply Hr2].
    + exists false. split; [done |]. split; [done |]. intros H. apply Hr2.
      apply H. apply list_elem_of_here.
  - exists r. split; [done |]. rewrite Hr'. setoid_rewrite elem_of_cons.
    split; [| intros H x Hx; apply H; by right]. intros H x [-> | Hx]; [| by apply H].
    split; [by apply Hm |]. intros y Hy. inversion Hy; congruence.
Qed.

Lemma depends_unfold k l :
  m !! k = Some l ->
  (forall x, depends m k x -> marked b status x) <->
  (forall n, n ∈ l -> marked b status n /\ forall x, depends m n x -> marked b status x).
Proof.
  intros E. split.
  - intros H n Hn. split; [apply H; by eapply depends_one | intros x Hx; apply H; by eapply depends_step].
  - intros H x Hx. inversion Hx; simplify_eq; naive_solver.
Qed.

Lemma CheckEstimateDependency_answers fuel :
  answers fuel (CheckEstimateDependency fuel m status b).
Proof.
  induction fuel as [| fuel IH]; intros k l Ek Hk; [lia |]. simpl.
  destruct (wf_key _ _ _ Hwf k l Ek) as (_ & Hne & _).
  rewrite bool_decide_false by done. simpl.
  destruct (allDependents_spec _ _ l IH) as (r & -> & Hr).
  { intros n Hn. split; [by eapply wf_item |]. intros Hs.
    pose proof (wf_rank _ _ _ Hwf k l n Ek Hn Hs). lia. }
  exists r. split; [done |]. rewrite Hr. symmetry. by apply depends_unfold.
Qed.
End Check.
#[local] Arguments CheckEstimateDependency : simpl never.

(** The marks a pass leaves: those of the nets all of whose dependents are
    marked. *)
Definition settled (m : CDependencyMap) (b : netStatus_t) (old new : list Z) (done : Z -> Prop) : Prop :=
  length new = length old /\
  (forall b' n, b' <> b -> marked b' new n <-> marked b' old n) /\
  (forall n, marked b new n <->
     marked b old n /\ (done n -> forall x, depends m n x -> marked b old x)).

Lemma is_Some_length (a a' : list Z) n :
  length a = length a' -> is_Some (vlookup a n) -> is_Some (vlookup a' n).
Proof. rewrite !vlookup_is_Some. lia. Qed.

Lemma wellFounded_length m s s' rank : length s = length s' -> wellFounded m s rank -> wellFounded m s' rank.
Proof.
  intros E [H1 H2 H3]. constructor; [| | done].
  - intros k l Hk. destruct (H1 k l Hk) as (? & ? & ?). split_and!; [by eapply is_Some_length | done..].
  - intros k l n Hk Hn. eapply is_Some_length; eauto.
Qed.

Lemma depends_trans m k n x : depends m k n -> depends m n x -> depends m k x.
Proof. induction 1; intros; eapply depends_step; eauto. Qed.

(** A net that is marked in the current state has all its dependents marked
    there exactly when it had at the start: a mark that was dropped on the way
    was dropped because of an unmarked net further down. *)
Lemma settled_depends m b old new done k :
  settled m b old new done -> (forall n, done n -> is_Some (m !! n)) ->
  (forall x, depends m k x -> marked b new x) <-> (forall x, depends m k x -> marked b old x).
Proof.
  intros (_ & _ & H) Hd. split; intros Hk x Hx.
  - by apply H, Hk.
  - apply H. split; [by apply Hk |]. intros _ y Hy. apply Hk. by eapply depends_trans.
Qed.

Lemma checkPass_settled m b old rank order : forall new done,
  wellFounded m old rank -> settled m b old new done -> (forall n, done n -> is_Some (m !! n)) ->
  (forall k, k ∈ order -> is_Some (m !! k)) ->
  exists new', checkPass order m b new = Ok new' /\ settled m b old new' (fun n => done n \/ n ∈ order).
Proof.
  induction order as [| k order IH]; intros new done Hwf Hs Hd Ho; simpl.
  { exists new. split; [done |]. destruct Hs as (? & ? & Hs). split_and!; [done | done |].
    intros n. rewrite (Hs n). pose proof (not_elem_of_nil n). naive_solver. }
  destruct (Ho k) as [l Ek]; [apply list_elem_of_here |].
  destruct (is_Some_length old new k) as [s Es];
    [by destruct Hs | by destruct (wf_key _ _ _ Hwf k l Ek) |].
  unfold vget at 1. rewrite Es. simpl.
  pose proof (marked_lookup b new k s Es) as Hm.
  assert (forall st, (forall n, (done n \/ n = k) \/ n ∈ order <-> done n \/ n ∈ k :: order) /\
            (settled m b old st (fun n => (done n \/ n = k) \/ n ∈ order) ->
             settled m b old st (fun n => done n \/ n ∈ k :: order))) as Hshift.
  { intros st. assert (forall n, (done n \/ n = k) \/ n ∈ order <-> done n \/ n ∈ k :: order) as E
      by (intros n; rewrite elem_of_cons; naive_solver).
    split; [exact E |]. intros (? & ? & H). split_and!; [done | done |].
    intros n. rewrite (H n). by setoid_rewrite <- E. }
  assert (forall n, done n \/ n = k -> is_Some (m !! n)) as Hd' by (intros n [? | ->]; eauto).
  assert (forall n, n ∈ order -> is_Some (m !! n)) as Ho'
    by (intros; apply Ho; by apply list_elem_of_further).
  destruct (status_get s (netBit b)) eqn:Eb; simpl.
  2: { destruct (IH new (fun n => done n \/ n = k) Hwf) as (new' & E & H'); [| done | done |].
       - destruct Hs as (? & ? & Hs). split_and!; [done | done |]. intros n. rewrite (Hs n).
         split; [| naive_solver]. intros [Hn Hx]. split; [done |]. intros [? | ->]; [by apply Hx |].
         assert (marked b new k) as Hk by (by apply Hs). by apply Hm in Hk.
       - exists new'. split; [done |]. by apply (Hshift new'). }
  destruct (CheckEstimateDependency_answers m new rank b
              ltac:(eapply wellFounded_length; [| done]; by destruct Hs) (S (size m)) k l Ek)
    as (r & Er & Hr); [destruct (wf_key _ _ _ Hwf k l Ek) as (_ & _ & ?); lia |].
  rewrite Ek. simpl. rewrite Er. simpl.
  rewrite vset_in_range by (by eapply vlookup_range). simpl.
  rewrite (settled_depends m b old new done k Hs Hd) in Hr.
  destruct (IH (vupdate new k (status_set s (netBit b) r)) (fun n => done n \/ n = k) Hwf)
    as (new' & E & H'); [| done | done |].
  - destruct Hs as (Hlen & Hb & Hs). split_and!; [by rewrite vupdate_length | |].
    + intros b' n Hne. rewrite marked_update by done. destruct (decide _); [naive_solver | by apply Hb].
    + intros n. rewrite marked_update by done. destruct (decide _) as [[-> _] | Hne].
      * assert (marked b old k) as Hk by (apply Hs; by apply Hm). rewrite Hr. naive_solver.
      * rewrite (Hs n). naive_solver.
  - exists new'. split; [exact E |]. by apply (Hshift new').
Qed.

(** The state of a pass when no net was visited. *)
Lemma settled_refl m b s : settled m b s s (fun _ => False).
Proof. split_and!; [done | done |]. naive_solver. Qed.

(** Both passes; the second reads the marks the first leaves. *)
Lemma CheckEstimateDependencies_run minOrder maxOrder d rmin rmax :
  wellFounded (minConnectionDependencyMap d) (netStatus_v d) rmin ->
  wellFounded (maxConnectionDependencyMap d) (netStatus_v d) rmax ->
  (forall k, k ∈ minOrder <-> is_Some (minConnectionDependencyMap d !! k)) ->
  (forall k, k ∈ maxOrder <-> is_Some (maxConnectionDependencyMap d !! k)) ->
  exists s1 s2,
    CheckEstimateDependencies minOrder maxOrder d = Ok (tt, set_netStatus_v s2 d) /\
    settled (minConnectionDependencyMap d) NEEDS_MIN_CONNECTION (netStatus_v d) s1 (.∈ minOrder) /\
    settled (maxConnectionDependencyMap d) NEEDS_MAX_CONNECTION s1 s2 (.∈ maxOrder).
Proof.
  intros Wn Wx On Ox.
  destruct (checkPass_settled _ NEEDS_MIN_CONNECTION _ _ minOrder (netStatus_v d) (fun _ => False) Wn
              (settled_refl _ _ _)) as (s1 & E1 & H1); [done | by intros; apply On |].
  destruct (checkPass_settled (maxConnectionDependencyMap d) NEEDS_MAX_CONNECTION s1 rmax maxOrder s1 (fun _ => False))
    as (s2 & E2 & H2); [| apply settled_refl | done | by intros; apply Ox |].
  { eapply wellFounded_length; [| done]. by destruct H1. }
  assert (forall m b s s' P Q, (forall n : Z, P n <-> Q n) -> settled m b s s' P -> settled m b s s' Q) as Hext.
  { intros m b s s' P Q HPQ (? & ? & H). split_and!; [done | done |]. intros n. rewrite (H n).
    by setoid_rewrite HPQ. }
  exists s1, s2. split_and!; [| eapply Hext; [| done]; naive_solver..].
  unfold CheckEstimateDependencies, gets, modify, lift, mbind, M_bind. rewrite E1. simpl.
  destruct d; simpl in *. by rewrite E2.
Qed.

Lemma settled_all m b old new (order : list Z) n :
  settled m b old new (.∈ order) -> (forall k, k ∈ order <-> is_Some (m !! k)) ->
  marked b new n <-> marked b old n /\ forall x, depends m n x -> marked b old x.
Proof.
  intros (_ & _ & H) Ho. rewrite (H n). split; intros [H1 H2]; (split; [done |]); [| auto].
  intros x Hx. apply H2; [| done]. apply Ho. inversion Hx; eauto.
Qed.

(** [CheckEstimateDependencies] ends, whatever the order in which the
    hash maps are visited, and keeps the mark of exactly the nets all of whose
    dependents, direct or not, were marked; no other status bit changes. *)
Theorem CheckEstimateDependencies_settles minOrder maxOrder d rmin rmax :
  wellFounded (minConnectionDependencyMap d) (netStatus_v d) rmin ->
  wellFounded (maxConnectionDependencyMap d) (netStatus_v d) rmax ->
  (forall k, k ∈ minOrder <-> is_Some (minConnectionDependencyMap d !! k)) ->
  (forall k, k ∈ maxOrder <-> is_Some (maxConnectionDependencyMap d !! k)) ->
  exists s,
    CheckEstimateDependencies minOrder maxOrder d = Ok (tt, set_netStatus_v s d) /\
    (forall n, marked NEEDS_MIN_CONNECTION s n <->
       marked NEEDS_MIN_CONNECTION (netStatus_v d) n /\
       forall x, depends (minConnectionDependencyMap d) n x ->
         marked NEEDS_MIN_CONNECTION (netStatus_v d) x) /\
    (forall n, marked NEEDS_MAX_CONNECTION s n <->
       marked NEEDS_MAX_CONNECTION (netStatus_v d) n /\
       forall x, depends (maxConnectionDependencyMap d) n x ->
         marked NEEDS_MAX_CONNECTION (netStatus_v d) x) /\
    (forall b n, b <> NEEDS_MIN_CONNECTION -> b <> NEEDS_MAX_CONNECTION ->
       marked b s n <-> marked b (netStatus_v d) n).
Proof.
  intros Wn Wx On Ox.
  destruct (CheckEstimateDependencies_run minOrder maxOrder d rmin rmax Wn Wx On Ox)
    as (s1 & s2 & E & H1 & H2).
  exists s2. split; [exact E |]. pose proof H1 as (_ & B1 & _). pose proof H2 as (_ & B2 & _).
  split_and!.
  - intros n. rewrite B2 by done. by apply (settled_all _ _ _ _ minOrder).
  - intros n. rewrite (settled_all _ _ _ _ maxOrder n H2 Ox), B1 by done.
    by setoid_rewrite (fun x => B1 NEEDS_MAX_CONNECTION x ltac:(done)).
  - intros b n Hn Hx. rewrite B2, B1 by done. done.
Qed.

(** Net 4 was estimated from net 3, net 3 from net 2; net 4 is not marked. *)
Definition exampleMap : gmap Z (list Z) := <[2 := [3]]> (<[3 := [4]]> ∅).
Definition dependencyDb : CCvcDb :=
  set_minConnectionDependencyMap exampleMap
    (set_netStatus_v [0; 64; 64; 64; 0] ExampleDb.exampleDb).

Lemma exampleMap_lookup k l :
  exampleMap !! k = Some l <-> (k = 2 /\ l = [3]) \/ (k = 3 /\ l = [4]).
Proof. unfold exampleMap. rewrite !lookup_insert_Some, lookup_empty. naive_solver. Qed.

Lemma dependencyDb_wf :
  wellFounded (minConnectionDependencyMap dependencyDb) (netStatus_v dependencyDb)
    (fun n => if n =? 2 then 1%nat else 0%nat).
Proof.
  pose proof exampleMap_lookup as E.
  split; intros k l; [| intros n..]; intros Hk; apply E in Hk as [[-> ->] | [-> ->]].
  - split_and!; [by eexists | done | by vm_compute; lia].
  - split_and!; [by eexists | done | by vm_compute; lia].
  - intros ->%list_elem_of_singleton. by eexists.
  - intros ->%list_elem_of_singleton. by eexists.
  - intros ->%list_elem_of_singleton. simpl. lia.
  - intros ->%list_elem_of_singleton [x Hx]. apply E in Hx as [[? ?] | [? ?]]; lia.
Qed.

Lemma CheckEstimateDependencies_settles_witness :
  exists s,
    CheckEstimateDependencies [3; 2] [] dependencyDb = Ok (tt, set_netStatus_v s dependencyDb) /\
    marked NEEDS_MIN_CONNECTION s 1 /\ ~ marked NEEDS_MIN_CONNECTION s 2.
Proof.
  destruct (CheckEstimateDependencies_settles [3; 2] [] dependencyDb
              (fun n => if n =? 2 then 1%nat else 0%nat) (fun _ => 0%nat))
    as (s & E & Hn & _).
  - exact dependencyDb_wf.
  - split; intros k l; [| intros n..]; intros Hk; by apply (lookup_empty_Some (M := gmap Z) k l) in Hk.
  - intros k. transitivity (is_Some (exampleMap !! k)); [| reflexivity]. unfold is_Some.
    setoid_rewrite exampleMap_lookup. rewrite !elem_of_cons, elem_of_nil. naive_solver.
  - intros k. rewrite elem_of_nil. split; [done |]. intros [l Hk]. by apply (lookup_empty_Some (M := gmap Z) k l) in Hk.
  - exists s. split; [exact E |]. rewrite !Hn. split.
    + split; [by exists 64 |]. intros x Hx. exfalso. inversion Hx as [? ? ? Hk | ? ? ? ? Hk]; by vm_compute in Hk.
    + intros [_ H]. destruct (H 4) as (st & Hst & Hb).
      * eapply depends_step; [by vm_compute | by left | eapply depends_one; [by vm_compute | by left]].
      * vm_compute in Hst. injection Hst as <-. discriminate.
Defined.

End Dependency.
