(* ===== verification/MinMax.v ===== *)
(** * The min/max pass (CCvcDb.cc, CCvcDb_utility.cc)

    [ResetMinMaxPower] starts a min/max propagation from the virtual nets of
    the simulation, [SetInitialMinMaxPower] runs it: trivial inverter outputs
    first, then the events of both queues, then the removal of calculations
    that were not confirmed and of devices that cannot conduct.  The
    suggestions printed in setup mode ([gSetup_cvc]) are left out. *)

From S2P Require Import Prelude CvcTypes EventQueue VirtualNet Numeric Power Db Connection Short.
From S2P Require Import Enqueue Propagate Resistor Dependency.
From stdpp Require Import base list strings gmap sets.
From Stdlib Require Import ZArith Lia.
#[local] Open Scope Z_scope.

Module MinMax.
Import EventQueue.EventQueue VirtualNet.VirtualNet Power.Power Numeric.Numeric Db.Db
  Connection.Connection Short.Short Enqueue.Enqueue Propagate.Propagate Resistor.Resistor.

Definition DEFAULT_UNKNOWN_RESISTANCE : Z := 1100100.

(** ** Active levels *)

(** The body of [ResetMinMaxActiveStatus]: inputs, powers and nets with a
    given simulation level start the propagation. *)
Definition resetActive (p : CPower) : CPower :=
  let p := set_activeBit MIN_ACTIVE false (set_activeBit MAX_ACTIVE false p) in
  if typeBit p INPUT_BIT || typeBit p POWER_BIT
     || negb ((simVoltage p =? UNKNOWN_VOLTAGE) || typeBit p SIM_CALCULATED_BIT)
  then
    let p := if IsKnownVoltage_ (minVoltage p) && negb (activeOf p MIN_IGNORE)
             then set_activeBit MIN_ACTIVE true p else p in
    if IsKnownVoltage_ (maxVoltage p) && negb (activeOf p MAX_IGNORE)
    then set_activeBit MAX_ACTIVE true p else p
  else p.

Definition ResetMinMaxActiveStatus : DB unit :=
  l ← gets cvcPowerPtrList;
  forList l (fun a => updateM (Some a) resetActive).

(** ** Trivial nets *)

(** The last NMOS and PMOS of a list of attached devices, capacitors apart; a
    device whose other side is its gate only when there is no other. *)
Definition pickMos (otherNet_v : CNetlist -> list Z) (picked : Z * Z) (device_it : Z)
    : DB (Z * Z + unit) :=
  let '(myNmos, myPmos) := picked in
  s ← nlat sourceNet_v device_it;
  dr ← nlat drainNet_v device_it;
  if s =? dr then mret (inl picked)
  else
    t ← nlat deviceType_v device_it;
    o ← nlat otherNet_v device_it;
    g ← nlat gateNet_v device_it;
    let myNmos := if IsNmos_ t && ((myNmos =? UNKNOWN_DEVICE) || negb (o =? g)) then device_it else myNmos in
    let myPmos := if IsPmos_ t && ((myPmos =? UNKNOWN_DEVICE) || negb (o =? g)) then device_it else myPmos in
    mret (inl (myNmos, myPmos)).

Definition pickBoth (theNetId : Z) : DB (Z * Z) :=
  r ← overDevicesWith firstDrain_v nextDrain_v theNetId (UNKNOWN_DEVICE, UNKNOWN_DEVICE) (pickMos sourceNet_v);
  match r with
  | inr _ => mret (UNKNOWN_DEVICE, UNKNOWN_DEVICE)
  | inl picked =>
      r ← overDevicesWith firstSource_v nextSource_v theNetId picked (pickMos drainNet_v);
      mret (match r with inl picked => picked | inr _ => picked end)
  end.

(** The net across the device, unless the net was assigned already or is the
    gate. *)
Definition acrossFrom (c : CConnection) (net_it : Z) : option Z :=
  if sourceId c =? net_it then (if gateId c =? net_it then None else Some (drainId c))
  else if drainId c =? net_it then (if gateId c =? net_it then None else Some (sourceId c))
  else None.

(** Both ends of the inverter are fixed powers in the right order. *)
Definition fixedRail (p : option CPower) : option Z :=
  match p with
  | Some p => if typeBit p POWER_BIT && (minVoltage p =? maxVoltage p) then Some (minVoltage p) else None
  | None => None
  end.

Definition setTrivial (net_it myNmos myPmos myGateNet myGroundNet myPowerNet myNmosResistance
    myPmosResistance : Z) : DB unit :=
  _ ← setNetM MIN_QUEUE net_it myGroundNet myNmosResistance 0;
  _ ← setNetM MAX_QUEUE net_it myPowerNet myPmosResistance 0;
  _ ← setDeviceBit myNmos MIN_INACTIVE true;
  _ ← setDeviceBit myNmos MAX_INACTIVE true;
  _ ← setDeviceBit myPmos MIN_INACTIVE true;
  _ ← setDeviceBit myPmos MAX_INACTIVE true;
  i ← at_ inverterNet_v net_it;
  if i =? UNKNOWN_NET
  then modify (fun d => set_inverterNet_v (vupdate (inverterNet_v d) net_it myGateNet) d)
  else when (negb (i =? myGateNet)) (reportM (Warning net_it)).

Definition trivialInverter (net_it myNmos myPmos : Z) : DB unit :=
  a ← getDeviceBit myNmos MIN_INACTIVE;
  if (a : bool) then mret tt
  else
    b ← getDeviceBit myPmos MAX_INACTIVE;
    if (b : bool) then mret tt
    else
      n ← MapDeviceNets myNmos MIN_QUEUE;
      match acrossFrom n net_it with
      | None => mret tt
      | Some myGroundNet =>
          p ← MapDeviceNets myPmos MAX_QUEUE;
          match acrossFrom p net_it with
          | None => mret tt
          | Some myPowerNet =>
              if negb (gateId n =? gateId p) then mret tt
              else
                ga ← powerAt myGroundNet; gp ← pointeeM ga;
                pa ← powerAt myPowerNet; pp ← pointeeM pa;
                match fixedRail gp, fixedRail pp with
                | Some myMinPower, Some myMaxPower =>
                    when (IsKnownVoltage_ myMaxPower && (myMinPower <? myMaxPower))
                      (setTrivial net_it myNmos myPmos (gateId n) myGroundNet myPowerNet
                         (connResistance n) (connResistance p))
                | _, _ => mret tt
                end
          end
      end.

(** The second test of the level, meant for the max level, repeats the first
    one. *)
Definition trivialNet (net_it : Z) : DB unit :=
  e ← GetEquivalentNet net_it;
  if negb (net_it =? e) then mret tt
  else
    mn ← netM MIN_QUEUE net_it;
    mx ← netM MAX_QUEUE net_it;
    if negb (nextNetId mn =? net_it) || negb (nextNetId mx =? net_it) then mret tt
    else
      a ← powerAt net_it;
      p ← pointeeM a;
      if optb (fun p => negb ((minVoltage p =? UNKNOWN_VOLTAGE) && (minVoltage p =? UNKNOWN_VOLTAGE))) p
      then mret tt
      else
        c ← at_ connectionCount_v net_it;
        if negb (u32 (sourceCount c + drainCount c) =? 2)
           || negb (status_get (sourceDrainType c) (modelBit NMOS) && status_get (sourceDrainType c) (modelBit PMOS))
        then mret tt
        else
          '(myNmos, myPmos) ← pickBoth net_it;
          if (myNmos =? UNKNOWN_DEVICE) || (myPmos =? UNKNOWN_DEVICE) then mret tt
          else trivialInverter net_it myNmos myPmos.

Definition SetTrivialMinMaxPower : DB unit := forNets trivialNet.

(** ** The events of both queues *)

(** [begin()->second.eventListSize] of the sub-queue that is next. *)
Definition headSize (x : CEventQueue) : outcome Z :=
  match (if IsNextMainQueue x then mainQueue x else delayQueue x) with
  | [] => throw UndefinedBehaviour
  | (_, l) :: _ => Ok (EventList.eventListSize l)
  end.

(** Main queues first, then by size; [true] is the min queue.  All events of
    the head of the chosen queue are taken before the next choice. *)
Definition chooseQueue (d : CCvcDb) : outcome (bool * Z) :=
  let mn := minEventQueue d in
  let mx := maxEventQueue d in
  let a := IsNextMainQueue mn in
  let b := IsNextMainQueue mx in
  if (Bool.eqb a b && (QueueSize mx <? QueueSize mn)) || (a && negb b)
  then n ← headSize mn; Ok (true, n)
  else n ← headSize mx; Ok (false, n).

Definition queuedEvents (d : CCvcDb) : Z := u32 (QueueSize (minEventQueue d) + QueueSize (maxEventQueue d)).

Record loopState : Type := mkLoop {
  myLoopCount : Z;
  myDequeueCount : Z;
  myProcessingMinQueue : bool
}.

Definition loopQueue (b : bool) : eventQueue_t := if b then MIN_QUEUE else MAX_QUEUE.

(** The queue of the next event and the events to take from it. *)
Definition nextHead (s : loopState) : DB (bool * Z) :=
  fun d => if myDequeueCount s =? 0 then lift (chooseQueue d) d
           else Ok ((myProcessingMinQueue s, myDequeueCount s), d).

(** One round of the loop. *)
Definition minMaxRound (s : loopState) : DB loopState :=
  '(m, n) ← nextHead s;
  _ ← assertM (negb (n =? 0));
  _ ← PropagateMinMaxVoltages (loopQueue m);
  k ← (if myLoopCount s - 1 <? 1 then gets queuedEvents else mret (myLoopCount s - 1));
  mret (mkLoop k (n - 1) m).

(** The number of events is not bounded by the source; the fuel is an argument
    of the pass. *)
Fixpoint minMaxLoop (fuel : nat) (s : loopState) : DB unit :=
  match fuel with
  | O => raise OutOfFuel
  | S fuel => if myLoopCount s <=? 0 then mret tt else s ← minMaxRound s; minMaxLoop fuel s
  end.

(** Enqueue what is attached to a net by its level in one queue. *)
Definition enqueueLevel (q : eventQueue_t) (net_it myMasterNet : Z) : DB unit :=
  a ← powerAt myMasterNet;
  p ← pointeeM a;
  match p with
  | None => mret tt
  | Some p =>
      fixed ← gets isFixedSimNet;
      let '(act, level) := match q with
        | MIN_QUEUE => (MIN_ACTIVE, minVoltage p)
        | _ => (MAX_ACTIVE, maxVoltage p)
        end in
      let v := if (fixed : bool) && IsKnownVoltage_ (simVoltage p) then simVoltage p else level in
      when (activeOf p act && IsKnownVoltage_ v)
        (_ ← EnqueueAttachedDevicesByTerminal q net_it firstSource_v nextSource_v v;
         EnqueueAttachedDevicesByTerminal q net_it firstDrain_v nextDrain_v v)
  end.

Definition enqueueNet (net_it : Z) : DB unit :=
  e ← GetEquivalentNet net_it;
  if negb (net_it =? e) then mret tt
  else
    mn ← accessM MIN_QUEUE net_it;
    mx ← accessM MAX_QUEUE net_it;
    _ ← enqueueLevel MIN_QUEUE net_it (finalNetId mn);
    enqueueLevel MAX_QUEUE net_it (finalNetId mx).

(** ** Invalid calculations (CCvcDb_utility.cc) *)

(** [delete]: a later use of the address is undefined. *)
Definition freePower (h : powerHeap) (a : Z) : outcome powerHeap :=
  _ ← deref h a; Ok (mkHeap (delete a (cells h)) (nextAddress h) (powerCount h)).
Definition deleteM (a : Z) : DB unit :=
  fun d => match freePower (powers d) a with
           | Ok h => Ok (tt, set_powers h d)
           | Err e => Err e
           end.

(** The checks that the levels confirm. *)
Definition confirmMin (theNetId myMinVoltage myMaxVoltage : Z) : DB unit :=
  a ← getNetBit theNetId NEEDS_MIN_CHECK;
  b ← getNetBit theNetId NEEDS_MAX_CHECK;
  if negb ((a : bool) && negb b) then mret tt
  else
    f ← IsDerivedFromFloating MIN_QUEUE theNetId;
    if (f : bool) then mret tt
    else
      v ← (if myMinVoltage =? UNKNOWN_VOLTAGE then MinLeakVoltage theNetId else mret myMinVoltage);
      when (IsKnownVoltage_ myMaxVoltage && (v <? myMaxVoltage)) (setNetBit theNetId NEEDS_MIN_CHECK false).

Definition confirmMax (theNetId myMinVoltage myMaxVoltage : Z) : DB unit :=
  a ← getNetBit theNetId NEEDS_MAX_CHECK;
  b ← getNetBit theNetId NEEDS_MIN_CHECK;
  if negb ((a : bool) && negb b) then mret tt
  else
    f ← IsDerivedFromFloating MAX_QUEUE theNetId;
    if (f : bool) then mret tt
    else
      v ← (if myMaxVoltage =? UNKNOWN_VOLTAGE then MaxLeakVoltage theNetId else mret myMaxVoltage);
      when (IsKnownVoltage_ v && (myMinVoltage <? v)) (setNetBit theNetId NEEDS_MAX_CHECK false).

Definition confirmBoth (theNetId myMinVoltage myMaxVoltage : Z) : DB unit :=
  if IsKnownVoltage_ myMinVoltage && IsKnownVoltage_ myMaxVoltage && (myMinVoltage <=? myMaxVoltage) then
    a ← getNetBit theNetId NEEDS_MIN_CHECK;
    b ← getNetBit theNetId NEEDS_MAX_CHECK;
    when ((a : bool) && b)
      (_ ← setNetBit theNetId NEEDS_MIN_CHECK false; setNetBit theNetId NEEDS_MAX_CHECK false)
  else mret tt.

(** A power that is given in part takes the level of its default net. *)
Definition restorePartial (theNetId : Z) : DB unit :=
  let level f n : DB Z := a ← powerAt n; p ← arrow a; mret (f p) in
  a ← getNetBit theNetId NEEDS_MIN_CHECK;
  b ← getNetBit theNetId NEEDS_MAX_CONNECTION;
  _ ← (if (a : bool) || b then
         x ← powerAt theNetId;
         p ← arrow x;
         v ← level maxVoltage (defaultMaxNet p);
         _ ← updateM x (set_maxVoltage v);
         _ ← setNetBit theNetId NEEDS_MIN_CHECK false;
         setNetBit theNetId NEEDS_MAX_CONNECTION false
       else mret tt);
  a ← getNetBit theNetId NEEDS_MAX_CHECK;
  b ← getNetBit theNetId NEEDS_MIN_CONNECTION;
  if (a : bool) || b then
    x ← powerAt theNetId;
    p ← arrow x;
    v ← level minVoltage (defaultMinNet p);
    _ ← updateM x (set_minVoltage v);
    _ ← setNetBit theNetId NEEDS_MAX_CHECK false;
    setNetBit theNetId NEEDS_MIN_CONNECTION false
  else mret tt.

(** The calculated levels stand when they lie within the leak levels of the
    first pass. *)
Definition withinLeak (theNetId myMinVoltage myMaxVoltage : Z) : DB bool :=
  set ← gets leakVoltageSet;
  if negb set then mret false
  else
    l ← at_ leakVoltagePtr_v theNetId;
    match l with
    | None => mret false
    | Some _ =>
        mx ← MaxLeakVoltage theNetId;
        if IsKnownVoltage_ mx && IsKnownVoltage_ myMinVoltage && IsKnownVoltage_ myMaxVoltage
           && (myMinVoltage <=? myMaxVoltage) && (myMaxVoltage <=? mx)
        then mn ← MinLeakVoltage theNetId; mret (mn <=? myMinVoltage)
        else mret false
    end.

(** Route the net to the default net of its removed power. *)
Definition rerouteDefault (q : eventQueue_t) (theNetId v myDefaultNet : Z) : DB unit :=
  if (v =? UNKNOWN_VOLTAGE) && negb (myDefaultNet =? UNKNOWN_NET) then
    t ← lastUpdateM q;
    setNetM q theNetId myDefaultNet DEFAULT_UNKNOWN_RESISTANCE t
  else mret tt.

Definition removePower (theNetId : Z) : DB unit :=
  i ← nlat instancePtr_v 0;
  c ← at_ circuits (master_p i);
  _ ← when (theNetId <? portCount c) (reportM (Warning theNetId));
  a ← powerAt theNetId;
  match a with
  | None => raise UndefinedBehaviour
  | Some x =>
      p ← derefM x;
      _ ← when (negb ((typeBit p MIN_CALCULATED_BIT || (minVoltage p =? UNKNOWN_VOLTAGE))
                      && (typeBit p MAX_CALCULATED_BIT || (maxVoltage p =? UNKNOWN_VOLTAGE))))
            (reportM (Warning theNetId));
      _ ← setPowerAt theNetId None;
      mx ← MaxVoltage theNetId false;
      mn ← MinVoltage theNetId false;
      _ ← rerouteDefault MIN_QUEUE theNetId mn (defaultMinNet p);
      _ ← rerouteDefault MAX_QUEUE theNetId mx (defaultMaxNet p);
      set ← gets leakVoltageSet;
      if negb set then deleteM x
      else l ← at_ leakVoltagePtr_v theNetId; when (negb (bool_decide (l = Some x))) (deleteM x)
  end.

Definition invalidCalculation (theNetId myMinVoltage myMaxVoltage : Z) : DB bool :=
  a ← getNetBit theNetId NEEDS_MIN_CHECK;
  b ← getNetBit theNetId NEEDS_MAX_CHECK;
  c ← getNetBit theNetId NEEDS_MIN_CONNECTION;
  e ← getNetBit theNetId NEEDS_MAX_CONNECTION;
  mret ((myMinVoltage =? UNKNOWN_VOLTAGE) || (myMaxVoltage =? UNKNOWN_VOLTAGE)
        || (myMaxVoltage <? myMinVoltage) || (a : bool) || (b : bool) || (c : bool) || (e : bool)).

Definition removeChecked (theNetId theRemovedCount : Z) : DB Z :=
  myMaxVoltage ← MaxVoltage theNetId true;
  myMinVoltage ← MinVoltage theNetId true;
  _ ← confirmMin theNetId myMinVoltage myMaxVoltage;
  _ ← confirmMax theNetId myMinVoltage myMaxVoltage;
  _ ← confirmBoth theNetId myMinVoltage myMaxVoltage;
  a ← powerAt theNetId;
  p ← pointeeM a;
  if negb (IsCalculatedVoltage_ p) then _ ← restorePartial theNetId; mret theRemovedCount
  else
    bad ← invalidCalculation theNetId myMinVoltage myMaxVoltage;
    if negb bad then mret theRemovedCount
    else
      _ ← setNetBit theNetId NEEDS_MIN_CHECK false;
      _ ← setNetBit theNetId NEEDS_MAX_CHECK false;
      _ ← setNetBit theNetId NEEDS_MIN_CONNECTION false;
      _ ← setNetBit theNetId NEEDS_MAX_CONNECTION false;
      keep ← withinLeak theNetId myMinVoltage myMaxVoltage;
      if (keep : bool) then mret theRemovedCount
      else _ ← removePower theNetId; mret (theRemovedCount + 1).

(** The recursion goes to nets with greater numbers. *)
Fixpoint RemoveInvalidPower (fuel : nat) (theNetId theRemovedCount : Z) : DB Z :=
  match fuel with
  | O => raise OutOfFuel
  | S fuel =>
      if theNetId =? UNKNOWN_NET then mret theRemovedCount
      else
        a ← powerAt theNetId;
        match a with
        | None => mret theRemovedCount
        | Some _ =>
            mn ← netM MIN_QUEUE theNetId;
            k ← (if theNetId <? finalNetId mn then RemoveInvalidPower fuel (finalNetId mn) theRemovedCount
                 else mret theRemovedCount);
            mx ← netM MAX_QUEUE theNetId;
            k ← (if theNetId <? finalNetId mx then RemoveInvalidPower fuel (finalNetId mx) k
                 else mret k);
            removeChecked theNetId k
        end
  end.

Fixpoint removeAll (n : nat) (net_it myRemovedCount : Z) : DB Z :=
  match n with
  | O => mret myRemovedCount
  | S n =>
      a ← powerAt net_it;
      k ← (match a with
           | None => mret myRemovedCount
           | Some _ =>
               l ← gets netVoltagePtr_v;
               RemoveInvalidPower (S (length l)) net_it myRemovedCount
           end);
      removeAll n (net_it + 1) k
  end.

(** ** The pass *)

(** [MapDeviceSourceDrainNets]: source and drain at the three sample points. *)
Record CSides : Type := mkSides {
  sideSource : CTerminal;
  sideDrain : CTerminal
}.

Definition mapSides (q : eventQueue_t) (s dr : Z) : DB CSides :=
  ms ← accessM q s;
  md ← accessM q dr;
  sv ← queueVoltage q (finalNetId ms);
  dv ← queueVoltage q (finalNetId md);
  sp ← powerAt (finalNetId ms);
  dp ← powerAt (finalNetId md);
  mret (mkSides (mkTerminal ms sv sp) (mkTerminal md dv dp)).

Definition sourceDrainSignals (dev : CDevice) (i : CInstance) : outcome (Z * Z) :=
  let sig k := n ← vget (signalId_v dev) k; vget (localToGlobalNetId_v i) n in
  match modelType (model_p dev) with
  | NMOS | PMOS | LDDN | LDDP => dr ← sig 0; s ← sig 2; Ok (s, dr)
  | BIPOLAR | DIODE | SWITCH_OFF | FUSE_OFF | CAPACITOR | SWITCH_ON | FUSE_ON | RESISTOR =>
      s ← sig 0; dr ← sig 1; Ok (s, dr)
  | _ => throw EUnknownModel
  end.

Definition MapDeviceSourceDrainNets (theDeviceId : Z) : DB (CSides * CSides * CSides) :=
  parent ← nlat deviceParent_v theDeviceId;
  i ← nlat instancePtr_v parent;
  dev ← deviceOf theDeviceId;
  s ← nlat sourceNet_v theDeviceId;
  dr ← nlat drainNet_v theDeviceId;
  _ ← lift (sourceDrainSignals dev i);
  mx ← mapSides MAX_QUEUE s dr;
  mn ← mapSides MIN_QUEUE s dr;
  sm ← mapSides SIM_QUEUE s dr;
  _ ← resistanceOfText (parameters dev);
  mret (mn, sm, mx).

(** Ignore a device with a side that has no level at all. *)
Definition ignoreNonConducting (device_it : Z) : DB unit :=
  i ← getDeviceBit device_it SIM_INACTIVE;
  if (i : bool) then mret tt
  else
    '(mn, _, mx) ← MapDeviceSourceDrainNets device_it;
    let isHiZ (f : CSides -> CTerminal) : DB bool :=
      a ← openPower (power_p (f mn)); b ← openPower (power_p (f mx)); mret ((a : bool) || b) in
    let unknown (f : CSides -> CTerminal) :=
      (voltage (f mn) =? UNKNOWN_VOLTAGE) && (voltage (f mx) =? UNKNOWN_VOLTAGE) in
    zd ← isHiZ sideDrain;
    zs ← isHiZ sideSource;
    when ((negb zs && unknown sideSource) || (negb zd && unknown sideDrain)) (IgnoreDevice device_it).

Definition startMinMax : DB unit :=
  _ ← modify (fun d => set_isFixedMaxNet false (set_isFixedMinNet false d));
  _ ← modify (fun d => set_unknownGateSet ∅ (set_maxConnectionDependencyMap ∅
        (set_minConnectionDependencyMap ∅ d)));
  _ ← ResetMinMaxActiveStatus;
  _ ← SetTrivialMinMaxPower;
  _ ← forNets enqueueNet;
  _ ← startQueue MIN_QUEUE;
  startQueue MAX_QUEUE.

Definition finishMinMax (orderOf : CDependencyMap -> list Z) : DB unit :=
  _ ← PrintAndResetCircuitErrors 0 [FUSE_ON; FUSE_OFF];
  _ ← PrintAndResetCircuitErrors 0 [];
  mn ← gets minConnectionDependencyMap;
  mx ← gets maxConnectionDependencyMap;
  _ ← Dependency.Dependency.CheckEstimateDependencies (orderOf mn) (orderOf mx);
  n ← nl netCount;
  _ ← removeAll (Z.to_nat n) 0 0;
  _ ← forNets (fun n => _ ← accessM MIN_QUEUE n; _ ← accessM MAX_QUEUE n; mret tt);
  _ ← modify (fun d => set_isFixedMaxNet true (set_isFixedMinNet true d));
  forAllDevices ignoreNonConducting.

Definition SetInitialMinMaxPower (orderOf : CDependencyMap -> list Z) (fuel : nat) : DB unit :=
  _ ← startMinMax;
  k ← gets queuedEvents;
  _ ← minMaxLoop fuel (mkLoop k 0 false);
  finishMinMax orderOf.

(** The devices between unknown min and max levels. *)
Definition ignoreUnused (device_it : Z) : DB unit :=
  i ← getDeviceBit device_it SIM_INACTIVE;
  if (i : bool) then mret tt
  else
    c ← MapFullDeviceNets device_it;
    let unknown x := voltage x =? UNKNOWN_VOLTAGE in
    when (unknown (atSource (fMin c)) || unknown (atDrain (fMin c))
          || unknown (atSource (fMax c)) || unknown (atDrain (fMax c))) (IgnoreDevice device_it).

Definition IgnoreUnusedDevices : DB unit := forAllDevices ignoreUnused.

(** ** The reset before the pass *)

(** [minNet_v[n].Copy(simNet_v[n])]. *)
Definition copyNet (q : eventQueue_t) (n : Z) : DB unit :=
  x ← netM q n;
  s ← netM SIM_QUEUE n;
  modify (fun d => set_netsOf q (set_nets (vupdate (nets (netsOf q d)) n (Copy x s)) (netsOf q d)) d).

(** The level of the power of net [n], when it has one. *)
Definition powerLevel (f : CPower -> Z) (n : Z) : DB Z :=
  a ← powerAt n;
  p ← pointeeM a;
  mret (match p with Some p => f p | None => UNKNOWN_VOLTAGE end).

(** Whether the min or max net follows the simulation: its own end has no
    level, or a level that is not beyond that of the end of the simulation.
    The max test asks for its own level where the min test asks for the level
    at the end of the simulation. *)
Definition followsSim (q : eventQueue_t) (n mySimNet : Z) : DB bool :=
  x ← netM q n;
  if finalNetId x =? UNKNOWN_NET then mret true
  else
    let f := match q with MIN_QUEUE => minVoltage | _ => maxVoltage end in
    v ← powerLevel f (finalNetId x);
    if v =? UNKNOWN_VOLTAGE then mret true
    else
      w ← powerLevel f mySimNet;
      mret (match q with
            | MIN_QUEUE => IsKnownVoltage_ w && (v <=? w)
            | _ => w <=? v
            end).

(** [leakVoltagePtr_v[n].full = new CPower(netVoltagePtr_v[n].full)] when both
    vectors share the power. *)
Definition storeLeakCopy (n : Z) (p : CPower) : DB unit :=
  fun d => let '(b, h) := allocCopy (powers d) p in
           match vset (leakVoltagePtr_v d) n (Some b) with
           | Ok v => Ok (tt, set_leakVoltagePtr_v v (set_powers h d))
           | Err e => Err e
           end.
Definition saveLeakCopy (n a : Z) : DB unit :=
  l ← at_ leakVoltagePtr_v n;
  if bool_decide (l = Some a) then p ← derefM a; storeLeakCopy n p else mret tt.

Definition eraseMin (p : CPower) : CPower :=
  set_minVoltage UNKNOWN_VOLTAGE (set_defaultMinNet UNKNOWN_NET (set_typeBit MIN_CALCULATED_BIT false p)).
Definition eraseMax (p : CPower) : CPower :=
  set_maxVoltage UNKNOWN_VOLTAGE (set_defaultMaxNet UNKNOWN_NET (set_typeBit MAX_CALCULATED_BIT false p)).

(** Remove the calculations of a net whose simulation is unknown. *)
Definition eraseCalculations (n a : Z) : DB unit :=
  p ← derefM a;
  _ ← when (typeBit p MIN_CALCULATED_BIT) (_ ← saveLeakCopy n a; updateM (Some a) eraseMin);
  p ← derefM a;
  _ ← when (typeBit p MAX_CALCULATED_BIT) (_ ← saveLeakCopy n a; updateM (Some a) eraseMax);
  p ← derefM a;
  when ((type p =? NO_TYPE) && IsEmpty (powerSignal p)) (_ ← deleteM a; setPowerAt n None).

(** After the first simulation pass. *)
Definition resetFromSim (n : Z) : DB unit :=
  s ← netM SIM_QUEUE n;
  let mySimNet := finalNetId s in
  v ← (if mySimNet =? UNKNOWN_NET then mret UNKNOWN_VOLTAGE else powerLevel simVoltage mySimNet);
  _ ← (if v =? UNKNOWN_VOLTAGE then _ ← copyNet MIN_QUEUE n; copyNet MAX_QUEUE n
       else
         let follow q : DB unit :=
           b ← followsSim q n mySimNet;
           if (b : bool) then copyNet q n else setNetM q n n 0 0 in
         _ ← follow MIN_QUEUE; follow MAX_QUEUE);
  a ← powerAt n;
  match a with
  | None => mret tt
  | Some a =>
      if mySimNet =? UNKNOWN_NET then mret tt
      else
        b ← powerAt mySimNet;
        p ← arrow b;
        when (simVoltage p =? UNKNOWN_VOLTAGE) (eraseCalculations n a)
  end.

(** The first time, after the resistor phase: keep what the simulation nets
    have too. *)
Definition resetFromResistors (q : eventQueue_t) (n : Z) : DB unit :=
  x ← netM q n;
  s ← netM SIM_QUEUE n;
  if nextNetId x =? nextNetId s then
    let r := if nextNetId x =? n then finalResistance x else resistance x in
    modify (fun d => set_netsOf q (set_nets (vupdate (nets (netsOf q d)) n
      (mkVirtualNet (nextNetId x) r (finalNetId s) (finalResistance x) (backupNetId x))) (netsOf q d)) d)
  else setNetM q n n 0 0.

(** The default levels of a power with a simulation level. *)
Definition defaultMin (leak : option CPower) (p : CPower) : CPower :=
  if negb (minVoltage p =? UNKNOWN_VOLTAGE) then p
  else
    let '(v, n, text) :=
      match leak with
      | Some l => if IsKnownVoltage_ (minVoltage l) && (simVoltage p <? minVoltage l)
                  then (minVoltage l, defaultMinNet l, " min=leak"%string)
                  else (simVoltage p, UNKNOWN_NET, " min=sim"%string)
      | None => (simVoltage p, UNKNOWN_NET, " min=sim"%string)
      end in
    set_typeBit MIN_CALCULATED_BIT true (set_activeBit MIN_ACTIVE true
      (set_definition (definition p +:+ text)%string (set_defaultMinNet n (set_minVoltage v p)))).

Definition defaultMax (leak : option CPower) (p : CPower) : CPower :=
  if negb (maxVoltage p =? UNKNOWN_VOLTAGE) then p
  else
    let '(v, text) :=
      match leak with
      | Some l => if IsKnownVoltage_ (maxVoltage l) && (maxVoltage l <? simVoltage p)
                  then (maxVoltage l, " max=leak"%string) else (simVoltage p, " max=sim"%string)
      | None => (simVoltage p, " max=sim"%string)
      end in
    set_typeBit MAX_CALCULATED_BIT true (set_activeBit MAX_ACTIVE true
      (set_definition (definition p +:+ text)%string (set_defaultMaxNet UNKNOWN_NET (set_maxVoltage v p)))).

Definition resetLevels (n : Z) : DB unit :=
  a ← powerAt n;
  match a with
  | None => mret tt
  | Some a =>
      p ← derefM a;
      fixed ← gets isFixedSimNet;
      if (fixed : bool) && IsKnownVoltage_ (simVoltage p) then
        l ← at_ leakVoltagePtr_v n;
        leak ← pointeeM l;
        _ ← updateM (Some a) (fun p => defaultMax leak (defaultMin leak p));
        p ← derefM a;
        _ ← when (activeOf p MIN_ACTIVE && (simVoltage p <? minVoltage p)) (reportM (Warning n));
        when (activeOf p MAX_ACTIVE && (maxVoltage p <? simVoltage p)) (reportM (Warning n))
      else
        v ← Db.Db.SimVoltage n;
        when ((v =? UNKNOWN_VOLTAGE) && IsEmpty (powerSignal p) && IsCalculatedVoltage_ (Some p))
          (setPowerAt n None)
  end.

Definition resetNet (n : Z) : DB unit :=
  fixed ← gets isFixedSimNet;
  _ ← (if (fixed : bool) then resetFromSim n
       else _ ← resetFromResistors MIN_QUEUE n; resetFromResistors MAX_QUEUE n);
  resetLevels n.

Definition resetDevice (device_it : Z) : DB unit :=
  b ← getDeviceBit device_it SIM_INACTIVE;
  _ ← setDeviceBit device_it MAX_INACTIVE b;
  setDeviceBit device_it MIN_INACTIVE b.

(** [ResetQueue] and [InitializeUpdateArray] of one queue. *)
Definition resetSide (q : eventQueue_t) : DB unit :=
  n ← nl deviceCount;
  modify (fun d => set_queueOf q (ResetQueue (queueOf q d) n) d).
Definition initUpdates (q : eventQueue_t) : DB unit :=
  modify (fun d => set_netsOf q (InitializeUpdateArray (netsOf q d)) d).
Definition clearUpdates (q : eventQueue_t) : DB unit :=
  modify (fun d => set_netsOf q (ClearUpdateArray (netsOf q d)) d).

Definition resetState : DB unit :=
  _ ← resetSide MIN_QUEUE;
  _ ← resetSide MAX_QUEUE;
  _ ← initUpdates MIN_QUEUE;
  _ ← initUpdates MAX_QUEUE;
  _ ← forAllDevices resetDevice;
  forNets resetNet.

Definition ResetMinMaxPower (orderOf : CDependencyMap -> list Z) (fuel : nat) : DB unit :=
  _ ← resetState;
  _ ← SetInitialMinMaxPower orderOf fuel;
  _ ← clearUpdates MIN_QUEUE;
  clearUpdates MAX_QUEUE.

End MinMax.
