(* ===== verification/MinMaxReset.v ===== *)
(** * The reset before a min/max pass

    [ResetMinMaxPower] overwrites the min and max nets one by one, with links
    of the simulation or with links to themselves.  During the loop the
    vectors mix old and new links; when it is done every link is one of the
    simulation or a self link, so that the min and max chains are parts of the
    simulation chains and end where those end. *)

From S2P Require Import Prelude CvcTypes EventQueue VirtualNet Numeric Power Db ExampleDb.
From S2P Require Import Connection Short Enqueue Propagate Simulate Resistor Logic Pending Forest.
From S2P Require Import Dependency MinMax.
From stdpp Require Import base list strings gmap sets.
From Stdlib Require Import ZArith Lia.
#[local] Open Scope Z_scope.

Module MinMaxReset.
Import EventQueue.EventQueue VirtualNet.VirtualNet Power.Power Numeric.Numeric Db.Db
  Connection.Connection Short.Short Enqueue.Enqueue Propagate.Propagate Simulate.Simulate
  Resistor.Resistor Logic.Logic Pending.Pending Forest.Forest MinMax.MinMax.

(** ** Links *)

Definition link (v : list CVirtualNet) (n : Z) : option Z := nextNetId <$> vlookup v n.

Lemma link_update v n e j :
  is_Some (vlookup v n) -> link (vupdate v n e) j = if decide (j = n) then Some (nextNetId e) else link v j.
Proof.
  intros [x Hx]. unfold link. destruct (decide (j = n)) as [-> | Hne].
  - by rewrite vlookup_vupdate_eq by (by eapply vlookup_range).
  - by rewrite vlookup_vupdate_ne.
Qed.

Lemma access_link x v n y v' j : access x v n = Ok (y, v') -> link (nets v') j = link (nets v) j.
Proof.
  intros H. unfold access in H. destruct (n =? UNKNOWN_NET); [by injection H as <- <- |].
  inv_ok H. apply vget_Ok in Ha. inv_ok H. destruct a0.
  - inv_ok H. destruct a0 as [[f r] w]. inv_ok H. injection H as <- <-.
    inv_ok Ha1. destruct a1 as [f' r']. inv_ok Ha1. apply vset_Ok in Ha4 as [_ ->].
    inv_ok Ha1. injection Ha1 as <- <- <-. simpl. rewrite link_update by eauto.
    destruct (decide (j = n)) as [-> | Hne]; [| done]. unfold link. by rewrite Ha.
  - inv_ok H. destruct a0 as [[f r] w]. injection Ha1 as <- <- <-. inv_ok H. by injection H as <- <-.
Qed.

(** [Set(n, n, r, t)]. *)
Lemma Set_self_link v n r t v' j :
  Set_ v n n r t = Ok v' -> link (nets v') j = if decide (j = n) then Some n else link (nets v) j.
Proof.
  intros H. unfold Set_ in H. inv_ok H. apply vget_Ok in Ha.
  rewrite Z.eqb_refl, andb_false_r in H. inv_ok H. inv_ok H. apply vset_Ok in Ha1 as [_ ->].
  inv_ok H. destruct a1 as [f R]. inv_ok H. apply vset_Ok in Ha2 as [_ ->]. inv_ok H. injection H as <-.
  simpl. rewrite link_update by (apply vlookup_is_Some; rewrite vupdate_length; by eapply vlookup_range).
  rewrite link_update by eauto. by destruct (decide (j = n)).
Qed.

Lemma Set_self_entry v n r t v' : Set_ v n n r t = Ok v' -> is_Some (vlookup (nets v) n).
Proof. intros H. unfold Set_ in H. inv_ok H. apply vget_Ok in Ha. eauto. Qed.

(** ** What the loop keeps *)

(** The three vectors have an entry for every net. *)
Definition sized (d : CCvcDb) : Prop :=
  forall q j, is_Some (link (nets (netsOf q d)) j) <-> 0 <= j < netCount (netlist d).

(** The links of the simulation are [L]; below the bounds [b], the links of
    the min and max nets are links of [L] or self links. *)
Definition followed (L : Z -> option Z) (b : eventQueue_t -> Z) (d : CCvcDb) : Prop :=
  sized d /\ (forall j, link (nets (simNet_v d)) j = L j) /\
  forall q j l, q <> SIM_QUEUE -> j < b q -> link (nets (netsOf q d)) j = Some l -> l = j \/ L j = Some l.

Lemma followed_frame L b d d' :
  netlist d' = netlist d ->
  (forall q j, link (nets (netsOf q d')) j = link (nets (netsOf q d)) j) ->
  followed L b d -> followed L b d'.
Proof.
  intros En E (Hz & Hs & Hf). split; [intros q j; rewrite E, En; apply Hz |].
  split; [intros j; rewrite <- Hs; apply (E SIM_QUEUE) |].
  intros q j l. rewrite E. apply Hf.
Qed.

Lemma followed_weaken L (b b' : eventQueue_t -> Z) d :
  (forall q, q <> SIM_QUEUE -> b' q <= b q) -> followed L b d -> followed L b' d.
Proof. intros H (Hz & Hs & Hf). split_and!; [done | done |]. intros q j l Hq Hj. apply Hf; [done |]. specialize (H q Hq). lia. Qed.

(** Handlers that keep every link. *)
Section Quiet.
Context (L : Z -> option Z) (b : eventQueue_t -> Z).

Ltac quiet := apply keeps_modify; intros d; apply followed_frame; [by destruct d | by destruct d; intros []].

Lemma followed_updateM a f : preserves (followed L b) (updateM a f).
Proof.
  destruct a as [a |]; [| by apply keeps_raise]. intros d Hd. unfold updateM.
  destruct (update (powers d) a f); [| done]. apply (followed_frame L b d); [by destruct d | by destruct d; intros [] | exact Hd].
Qed.
Lemma followed_setPowerAt n a : preserves (followed L b) (setPowerAt n a).
Proof.
  intros d Hd. unfold setPowerAt. destruct (vset _ _ _); [| done].
  apply (followed_frame L b d); [by destruct d | by destruct d; intros [] | exact Hd].
Qed.
Lemma followed_deleteM a : preserves (followed L b) (deleteM a).
Proof.
  intros d Hd. unfold deleteM. destruct (freePower _ _); [| done].
  apply (followed_frame L b d); [by destruct d | by destruct d; intros [] | exact Hd].
Qed.
Lemma followed_storeLeakCopy n p : preserves (followed L b) (storeLeakCopy n p).
Proof.
  intros d Hd. unfold storeLeakCopy. destruct (allocCopy _ _). destruct (vset _ _ _); [| done].
  apply (followed_frame L b d); [by destruct d | by destruct d; intros [] | exact Hd].
Qed.
Lemma followed_reportM r : preserves (followed L b) (reportM r).
Proof. quiet. Qed.
Lemma followed_setDeviceBit i s x : preserves (followed L b) (setDeviceBit i s x).
Proof. apply keeps_bind; [apply keeps_at |]. intros a. quiet. Qed.
Lemma followed_accessM q n : preserves (followed L b) (accessM q n).
Proof.
  intros d Hd. unfold accessM. destruct (access newVirtualNet (netsOf q d) n) as [[x v] | e] eqn:E; [| done].
  apply (followed_frame L b d); [by destruct d, q | | exact Hd]. intros q' j. rewrite netsOf_set.
  destruct (decide _) as [<- |]; [by eapply access_link | done].
Qed.
#[local] Hint Resolve followed_updateM followed_setPowerAt followed_deleteM followed_storeLeakCopy followed_reportM
  followed_setDeviceBit followed_accessM : keeps.

Lemma followed_SimVoltage n : preserves (followed L b) (Db.Db.SimVoltage n).
Proof. unfold Db.Db.SimVoltage, levelOf, assertEquivalent, GetEquivalentNet. keep. Qed.
#[local] Hint Resolve followed_SimVoltage : keeps.
Lemma followed_resetLevels n : preserves (followed L b) (resetLevels n).
Proof. unfold resetLevels. keep. Qed.
Lemma followed_eraseCalculations n a : preserves (followed L b) (eraseCalculations n a).
Proof. unfold eraseCalculations, saveLeakCopy. keep. Qed.
Lemma followed_resetDevice i : preserves (followed L b) (resetDevice i).
Proof. unfold resetDevice. keep. Qed.
Lemma followed_resetSide q : preserves (followed L b) (resetSide q).
Proof. unfold resetSide. keep. apply keeps_modify. intros d. apply followed_frame; [by destruct d, q | by destruct d, q; intros []]. Qed.
Lemma followed_initUpdates q : preserves (followed L b) (initUpdates q).
Proof. apply keeps_modify. intros d. apply followed_frame; [by destruct d, q | by destruct d, q; intros []]. Qed.
End Quiet.

(** ** One net *)

Ltac as_preserves := match goal with |- safe_ false ?P ?m _ => change (preserves P m) end.

Definition raise_ (b : eventQueue_t -> Z) (q : eventQueue_t) (n : Z) (q' : eventQueue_t) : Z :=
  if decide (q' = q) then n else b q'.

(** Net [n] of [q] gets the link [l]; the other links stay. *)
Lemma followed_step L b q n l d d' :
  q <> SIM_QUEUE -> n <= b q -> l = n \/ L n = Some l -> netlist d' = netlist d ->
  is_Some (link (nets (netsOf q d)) n) ->
  (forall j, link (nets (netsOf q d')) j = if decide (j = n) then Some l else link (nets (netsOf q d)) j) ->
  (forall q' j, q' <> q -> link (nets (netsOf q' d')) j = link (nets (netsOf q' d)) j) ->
  followed L b d -> followed L (raise_ b q (n + 1)) d'.
Proof.
  intros Hq Hn Hl En Hx E E' (Hz & Hs & Hf). split.
  { intros q' j. rewrite En, <- (Hz q' j). destruct (decide (q' = q)) as [-> | Hne]; [| by rewrite E'].
    rewrite E. destruct (decide (j = n)) as [-> | Hne]; [| done]. split; [done | by eexists]. }
  split; [intros j; rewrite <- Hs; by apply (E' SIM_QUEUE) |].
  intros q' j x Hq' Hj. unfold raise_ in Hj. destruct (decide (q' = q)) as [-> | Hne].
  - rewrite E. destruct (decide (j = n)) as [-> | Hne]; [by intros [= <-] |]. apply Hf; [done | lia].
  - rewrite E' by done. by apply Hf.
Qed.

Lemma setNets_links q x d q' j :
  link (nets (netsOf q' (set_netsOf q x d))) j = if decide (q = q') then link (nets x) j
                                                 else link (nets (netsOf q' d)) j.
Proof. rewrite netsOf_set. by destruct (decide _). Qed.

Section Step.
Context (L : Z -> option Z) (b : eventQueue_t -> Z) (q : eventQueue_t) (n : Z).
Hypothesis Hq : q <> SIM_QUEUE.
Hypothesis Hn : n <= b q.

Abbreviation step m := (safe_ false (followed L b) m (fun _ => followed L (raise_ b q (n + 1)))).

(** A write to entry [n] of [q]. *)
Lemma step_write e d :
  is_Some (vlookup (nets (netsOf q d)) n) -> nextNetId e = n \/ L n = Some (nextNetId e) -> followed L b d ->
  followed L (raise_ b q (n + 1))
    (set_netsOf q (set_nets (vupdate (nets (netsOf q d)) n e) (netsOf q d)) d).
Proof.
  intros [x Hx] Hl Hd. eapply (followed_step L b q n _ d); [done | done | exact Hl | by destruct d, q | | | | exact Hd].
  - unfold link. rewrite Hx. by eexists.
  - intros j. rewrite setNets_links, decide_True by done. simpl. apply link_update. eauto.
  - intros q' j Hne. by rewrite setNets_links, decide_False by congruence.
Qed.

Lemma step_copyNet : step (copyNet q n).
Proof.
  intros d Hd. unfold copyNet, netM, modify, mbind, M_bind, lift, vget.
  destruct (vlookup (nets (netsOf q d)) n) as [x |] eqn:Ex; [| done]. simpl.
  destruct (vlookup (nets (simNet_v d)) n) as [s |] eqn:Es; [| done].
  apply step_write; [eauto | | done]. right. destruct Hd as (_ & Hs & _). rewrite <- Hs. unfold link. by rewrite Es.
Qed.

Lemma step_setSelf : step (setNetM q n n 0 0).
Proof.
  intros d Hd. unfold setNetM. destruct (Set_ _ _ _ _ _) as [v |] eqn:E; [| done].
  eapply (followed_step L b q n n d); [done | done | by left | by destruct d, q | | | | exact Hd].
  - unfold link. destruct (Set_self_entry _ _ _ _ _ E) as [x Hx]. rewrite Hx. by eexists.
  - intros j. rewrite setNets_links, decide_True by done. by eapply Set_self_link.
  - intros q' j Hne. by rewrite setNets_links, decide_False by congruence.
Qed.

Lemma step_resetFromResistors : step (resetFromResistors q n).
Proof.
  intros d Hd. unfold resetFromResistors, netM, modify, mbind, M_bind, lift, vget.
  destruct (vlookup (nets (netsOf q d)) n) as [x |] eqn:Ex; [| done]. simpl.
  destruct (vlookup (nets (simNet_v d)) n) as [s |] eqn:Es; [| done].
  destruct (Z.eqb_spec (nextNetId x) (nextNetId s)) as [E | _]; [| by apply step_setSelf].
  apply step_write; [eauto | | done]. right. destruct Hd as (_ & Hs & _). rewrite <- Hs. unfold link.
  rewrite Es. simpl. by rewrite E.
Qed.

Lemma step_follow m :
  step (b ← followsSim q n m; if (b : bool) then copyNet q n else setNetM q n n 0 0).
Proof.
  apply keeps_then; [unfold followsSim, powerLevel; keep |]. intros [].
  - apply step_copyNet.
  - apply step_setSelf.
Qed.
End Step.

(** Both sides of a net. *)
Lemma step_both L n (f : eventQueue_t -> DB unit) :
  (forall b q, q <> SIM_QUEUE -> n <= b q ->
     safe_ false (followed L b) (f q) (fun _ => followed L (raise_ b q (n + 1)))) ->
  safe_ false (followed L (fun _ => n)) (_ ← f MIN_QUEUE; f MAX_QUEUE) (fun _ => followed L (fun _ => n + 1)).
Proof.
  intros H. eapply safe_bind; [apply (H (fun _ => n) MIN_QUEUE); [done | lia] |]. intros ?.
  eapply safe_conseq; [apply (H (raise_ (fun _ => n) MIN_QUEUE (n + 1)) MAX_QUEUE); [done | done] | done |].
  intros ? d. apply followed_weaken. by intros [].
Qed.

Lemma step_resetFromSim L n :
  safe_ false (followed L (fun _ => n)) (resetFromSim n) (fun _ => followed L (fun _ => n + 1)).
Proof.
  unfold resetFromSim. apply keeps_then; [keep |]. intros s. cbv zeta.
  apply keeps_then; [unfold powerLevel; keep |]. intros v.
  eapply (safe_bind _ _ _ _ (fun _ => followed L (fun _ => n + 1))).
  - destruct (v =? UNKNOWN_VOLTAGE).
    + apply (step_both L n (fun q => copyNet q n)). intros. by apply step_copyNet.
    + apply (step_both L n (fun q => b ← followsSim q n (finalNetId s);
        if (b : bool) then copyNet q n else setNetM q n n 0 0)). intros. by apply step_follow.
  - intros ?. pose proof (followed_eraseCalculations L (fun _ => n + 1) n) as He. as_preserves. keep.
Qed.

Lemma step_resetNet L n :
  safe_ false (followed L (fun _ => n)) (resetNet n) (fun _ => followed L (fun _ => n + 1)).
Proof.
  unfold resetNet. apply keeps_then; [keep |]. intros fixed.
  eapply (safe_bind _ _ _ _ (fun _ => followed L (fun _ => n + 1))); [| intros ?; apply followed_resetLevels].
  destruct fixed; [apply step_resetFromSim |].
  apply (step_both L n (fun q => resetFromResistors q n)). intros. by apply step_resetFromResistors.
Qed.

(** ** The loop *)

Lemma step_loop L k : forall n,
  safe_ false (followed L (fun _ => n)) (forRange k n resetNet) (fun _ => followed L (fun _ => n + Z.of_nat k)).
Proof.
  induction k as [| k IH]; intros n; simpl.
  - apply safe_ret. intros d. apply followed_weaken. intros; lia.
  - eapply safe_bind; [apply step_resetNet |]. intros ?.
    eapply safe_conseq; [apply IH | done |]. intros ? d. apply followed_weaken. intros; lia.
Qed.

(** The vectors, and with them the number of nets, keep their size. *)
Lemma sized_same L b b' d d' :
  followed L b d -> followed L b' d' -> netCount (netlist d') <= Z.max 0 (netCount (netlist d)).
Proof.
  intros (Hz & Hs & _) (Hz' & Hs' & _). set (N := Z.max 0 (netCount (netlist d))).
  destruct (Z.le_gt_cases (netCount (netlist d')) N) as [| H]; [done |]. exfalso.
  assert (is_Some (link (nets (netsOf SIM_QUEUE d')) N)) as HN by (apply Hz'; lia).
  simpl in HN. rewrite Hs', <- Hs in HN. apply (Hz SIM_QUEUE) in HN. lia.
Qed.

(** All links of the min and max nets. *)
Definition subLinks (d : CCvcDb) : Prop :=
  forall q j l, q <> SIM_QUEUE -> link (nets (netsOf q d)) j = Some l ->
    l = j \/ link (nets (simNet_v d)) j = Some l.

Lemma resetState_run d d' :
  sized d -> resetState d = Ok (tt, d') ->
  sized d' /\ (forall j, link (nets (simNet_v d')) j = link (nets (simNet_v d)) j) /\ subLinks d'.
Proof.
  intros Hz E. set (L := link (nets (simNet_v d))).
  assert (followed L (fun _ => 0) d) as H0.
  { split_and!; [done | done |]. intros q j l _ Hj Hl.
    assert (is_Some (link (nets (netsOf q d)) j)) as [? _]%Hz by (by rewrite Hl). lia. }
  assert (safe_ false (followed L (fun _ => 0)) resetState
            (fun _ d => exists n, netCount (netlist d) <= n /\ followed L (fun _ => n) d)) as Hs.
  { unfold resetState. do 4 (apply keeps_then; [apply followed_resetSide || apply followed_initUpdates |]; intros ?).
    apply keeps_then; [pose proof (followed_resetDevice L (fun _ => 0)); keep; auto |]. intros ? x Hx.
    unfold forNets, nl, gets, mbind, M_bind.
    pose proof (step_loop L (Z.to_nat (netCount (netlist x))) 0 x Hx) as H.
    destruct (forRange _ 0 resetNet x) as [[[] y] |]; [| done]. eexists. split; [| exact H].
    pose proof (sized_same L _ _ x y Hx H). lia. }
  specialize (Hs d H0). rewrite E in Hs. destruct Hs as (n & Hn & Hz' & Hl & Hf).
  split_and!; [done | done |]. intros q j l Hq Hj. rewrite Hl. apply (Hf q); [done | | done].
  assert (is_Some (link (nets (netsOf q d')) j)) as [_ ?]%Hz' by (by rewrite Hj). lia.
Qed.

Lemma link_some {v w} : (forall j, link w j = link v j) -> forall j, is_Some (vlookup v j) <-> is_Some (vlookup w j).
Proof. intros H j. specialize (H j). unfold link in H. by rewrite <- (fmap_is_Some nextNetId), <- H, fmap_is_Some. Qed.

(** A chain of the simulation, cut where a link was replaced. *)
Lemma path_sub v w n f r k :
  (forall j, is_Some (vlookup v j) -> is_Some (vlookup w j)) ->
  (forall j l, link w j = Some l -> l = j \/ link v j = Some l) ->
  path v n f r k -> exists f' r' k', path w n f' r' k' /\ reaches v n f'.
Proof.
  intros Hd Hl P. induction P as [n e He Hn | n e f r k He Hn P (f' & r' & k' & IH & Hr)];
    (destruct (Hd n) as [x Hx]; [eauto |]);
    (destruct (Hl n (nextNetId x)) as [E | E]; [unfold link; by rewrite Hx | |]).
  - exists n, (resistance x), 0%nat. split; [by constructor | constructor].
  - unfold link in E. rewrite He in E. injection E as E.
    exists n, (resistance x), 0%nat. split; [constructor; [done | congruence] | constructor].
  - exists n, (resistance x), 0%nat. split; [by constructor | constructor].
  - unfold link in E. rewrite He in E. injection E as E. exists f', (resistance x + r'), (S k').
    split; [eapply path_step; [done | congruence | congruence] | by eapply reach_step].
Qed.

(** C6: the reset before a min/max pass.  When the chains of the simulation
    end, then so do all chains of the min and max nets after the reset, on a
    net that the simulation chain of the net goes through; and the links of
    the simulation are unchanged. *)
Theorem resetState_follows_sim d d' q n :
  sized d -> forest (nets (simNet_v d)) -> resetState d = Ok (tt, d') -> q <> SIM_QUEUE ->
  0 <= n < netCount (netlist d') ->
  exists f, chainEnd (netsOf q d') n = Ok f /\ IsTerminal (netsOf q d') f = Ok true /\
    reaches (nets (simNet_v d')) n f /\ link (nets (simNet_v d')) n = link (nets (simNet_v d)) n.
Proof.
  intros Hz F E Hq Hn. destruct (resetState_run d d' Hz E) as (Hz' & Hs & Hl).
  assert (forall q j, is_Some (vlookup (nets (netsOf q d')) j) <-> 0 <= j < netCount (netlist d')) as Hd.
  { intros q' j. rewrite <- (Hz' q' j). unfold link. by rewrite fmap_is_Some. }
  assert (forest (nets (simNet_v d'))) as F'.
  { intros j Hj. destruct (F j) as (f & r & k & P); [by apply (link_some Hs) |].
    destruct (path_sub _ (nets (simNet_v d')) _ _ _ _ (fun j Hj => proj1 (link_some Hs j) Hj)
      (fun j l H => or_intror (eq_trans (eq_sym (Hs j)) H)) P) as (f' & r' & k' & P' & _). eauto. }
  destruct (F' n) as (f0 & r0 & k0 & P0); [by apply (Hd SIM_QUEUE) |].
  destruct (path_sub (nets (simNet_v d')) (nets (netsOf q d')) n f0 r0 k0) as (f & r & k & P & R);
    [| by intros j l; apply Hl | done |].
  { intros j Hj. apply Hd. by apply (Hd SIM_QUEUE). }
  exists f. destruct (chainEnd_of_path _ _ _ _ _ P). split_and!; done.
Qed.

(** The example circuit after a simulation that grounded OUT: the min and max
    nets of OUT follow it. *)
Definition simDb : CCvcDb :=
  set_isFixedSimNet true
    (set_simNet_v (set_nets (vupdate (nets (simNet_v ExampleDb.exampleDb)) 3
                     (mkVirtualNet 1 7000 1 7000 UNKNOWN_NET)) (simNet_v ExampleDb.exampleDb)) ExampleDb.exampleDb).

Lemma simDb_sized : sized simDb.
Proof.
  intros q j. unfold link. rewrite fmap_is_Some, vlookup_is_Some.
  assert (length (nets (netsOf q simDb)) = 5%nat) as -> by (by destruct q). done.
Qed.

Lemma simDb_forest : forest (nets (simNet_v simDb)).
Proof.
  change (nets (simNet_v simDb)) with (vupdate (nets (simNet_v ExampleDb.exampleDb)) 3
    (mkVirtualNet 1 7000 1 7000 UNKNOWN_NET)).
  eapply forest_update; [apply (exampleDb_forest SIM_QUEUE) |].
  eapply path_step; [reflexivity | done |]. eapply path_end; [reflexivity | done].
Qed.

Lemma resetState_follows_sim_witness :
  exists d', resetState simDb = Ok (tt, d') /\
  exists f, chainEnd (netsOf MIN_QUEUE d') 3 = Ok f /\ IsTerminal (netsOf MIN_QUEUE d') f = Ok true /\
    reaches (nets (simNet_v d')) 3 f /\ link (nets (simNet_v d')) 3 = Some 1.
Proof.
  assert (match resetState simDb with Ok (_, d) => netCount (netlist d) =? 5 | Err _ => false end = true) as Hc
    by (vm_compute; reflexivity).
  pose proof (fun d' => resetState_follows_sim simDb d' MIN_QUEUE 3 simDb_sized simDb_forest) as H.
  destruct (resetState simDb) as [[[] d'] | e]; [| discriminate Hc]. apply Z.eqb_eq in Hc.
  exists d'. split; [reflexivity |]. apply H; [reflexivity | discriminate | lia].
Defined.

(** ** A stale end

    A copied entry brings the end of its simulation chain.  When a net further
    along the chain is cut, the entry keeps that end: all stamps are 0 and so
    is the last update, so [operator()] takes the entry for fresh.  Here the
    simulation chain is MID, OUT, VSS and only OUT, whose min level was above
    that of VSS, is cut. *)
Definition relink (n next final r : Z) (x : CVirtualNetVector) : CVirtualNetVector :=
  set_nets (vupdate (nets x) n (mkVirtualNet next r final r UNKNOWN_NET)) x.

Definition cutDb : CCvcDb :=
  set_minNet_v (relink 3 0 0 3500 (minNet_v simDb))
    (set_simNet_v (relink 4 3 1 9000 (simNet_v simDb)) simDb).

Example resetState_stale_end :
  match (_ ← resetState; accessM MIN_QUEUE 4) cutDb with
  | Ok (x, d) => finalNetId x = 1 /\ chainEnd (minNet_v d) 4 = Ok 3
  | Err _ => False
  end.
Proof. vm_compute. by split. Qed.

End MinMaxReset.
