(* ===== verification/MinMaxLoop.v ===== *)
(** * The event loop of the min/max pass

    The loop of [SetInitialMinMaxPower] counts the events it may still take
    without looking at the queues.  The counts are sound because handling an
    event removes exactly one device from its queue and none from the other:
    the loop never takes an event from an empty queue, its assertion never
    fails, and it stops only when both queues are empty. *)

From S2P Require Import Prelude CvcTypes EventQueue VirtualNet Numeric Power Db ExampleDb.
From S2P Require Import Connection Short Enqueue Propagate Simulate Resistor Logic Pending Forest Work.
From S2P Require Import MinMax.
From stdpp Require Import base list strings gmap sets.
From Stdlib Require Import ZArith Lia.
#[local] Open Scope Z_scope.

Module MinMaxLoop.
Import EventQueue.EventQueue VirtualNet.VirtualNet Power.Power Numeric.Numeric Db.Db
  Connection.Connection Short.Short Enqueue.Enqueue Propagate.Propagate Simulate.Simulate
  Resistor.Resistor Logic.Logic Pending.Pending Forest.Forest Work.Work MinMax.MinMax.

(** ** Counting pending devices *)

Definition bitOf (b : deviceStatus_t) (s : Z) : Z := if hasBit s b then 1 else 0.

Definition bitCount (b : deviceStatus_t) (status : list Z) : Z := foldr (fun s n => bitOf b s + n) 0 status.

(** The pending devices of [q] other than [i]. *)
Definition countBut (q : eventQueue_t) (i : Z) (status : list Z) : Z :=
  bitCount (pendingOf q) status
  - match vlookup status i with Some s => bitOf (pendingOf q) s | None => 0 end.

Lemma bitOf_range b s : 0 <= bitOf b s <= 1.
Proof. unfold bitOf. case_match; lia. Qed.

Lemma bitCount_update b status i s s' :
  vlookup status i = Some s -> bitCount b (vupdate status i s') = bitCount b status - bitOf b s + bitOf b s'.
Proof.
  intros H. pose proof (vlookup_range _ _ _ H) as R. apply Prelude.vlookup_lookup in H.
  unfold vupdate. apply in_range_spec in R. rewrite R. clear R. revert H.
  generalize (Z.to_nat i) as k. induction status as [| x status IH]; intros [| k] H; simplify_eq/=; [lia |].
  rewrite (IH k H). lia.
Qed.

Lemma countBut_le q i status : countBut q i status <= bitCount (pendingOf q) status.
Proof. unfold countBut. case_match; [pose proof (bitOf_range (pendingOf q) z); lia | lia]. Qed.

Lemma bitCount_none b status :
  (forall i, ~ bitSet status i b) -> bitCount b status = 0.
Proof.
  intros H. assert (forall k s, status !! k = Some s -> hasBit s b = false) as Hk.
  { intros k s E. destruct (hasBit s b) eqn:Eb; [| done]. destruct (H (Z.of_nat k)). exists s.
    split; [| done]. unfold vlookup. rewrite (proj2 (in_range_spec _ _)), Nat2Z.id; [done |].
    apply lookup_lt_Some in E. lia. }
  clear H. induction status as [| x status IH]; [done |]. simpl. unfold bitOf. rewrite (Hk 0%nat x) by done.
  apply IH. intros k s E. by apply (Hk (S k)).
Qed.

(** A list that holds each pending device once counts them. *)
Lemma bitCount_list b l : forall status,
  NoDup l -> (forall i, bitSet status i b <-> i ∈ l) -> bitCount b status = Z.of_nat (length l).
Proof.
  induction l as [| i l IH]; intros status Hnd Hl.
  { apply bitCount_none. intros i Hi. apply Hl in Hi. by apply not_elem_of_nil in Hi. }
  apply NoDup_cons in Hnd as [Hi Hnd].
  assert (bitSet status i b) as (s & Es & Hs) by (apply Hl; left).
  set (s' := status_set s (deviceBit b) false).
  assert (bitOf b s = 1) as H1 by (unfold bitOf, hasBit; by rewrite Hs).
  assert (bitOf b s' = 0) as H0.
  { unfold bitOf, s'. rewrite hasBit_set. by rewrite decide_True. }
  pose proof (bitCount_update b status i s s' Es) as Hu.
  rewrite (IH (vupdate status i s') Hnd) in Hu; [simpl; lia |].
  intros j. unfold s'. rewrite (bitSet_update status i j b b s false Es).
  destruct (decide _) as [[-> _] | Hne]; [naive_solver |]. rewrite Hl, elem_of_cons. naive_solver.
Qed.

Lemma QueueSize_bitCount d q :
  pendInv nobody d -> QueueSize (queueOf q d) = bitCount (pendingOf q) (deviceStatus_v d).
Proof.
  intros Hp. destruct (Hp q) as [A HA].
  rewrite (QueueSize_queued _ _ (ag_inv _ _ _ _ _ HA)). symmetry. apply bitCount_list.
  - apply (q_nodup _ _ (ag_inv _ _ _ _ _ HA)).
  - intros i. rewrite (ag_bits _ _ _ _ _ HA). unfold nobody. tauto.
Qed.

(** ** Predicates that only lose the bits of some devices *)

(** [own q i]: the pending bit of device [i] in queue [q] may be cleared. *)
Class Tally (own : eventQueue_t -> Z -> Prop) (P : CCvcDb -> Prop) : Prop := {
  tally_stable :: Stable P;
  tally_typed q d : P d -> queueType (queueOf q d) = q;
  tally_queue q x d : queueType x = q -> P d -> P (set_queueOf q x d);
  tally_set i b : keeps P (setDeviceBit i b true);
  tally_clear q i : own q i -> keeps P (setDeviceBit i (pendingOf q) false)
}.

Section Tally.
Context (own : eventQueue_t -> Z -> Prop) (P : CCvcDb -> Prop) `{!Tally own P}.

#[export] Instance tally_marking : Marking P.
Proof. split; [apply _ |]. intros q i. apply keeps_bind; [apply keeps_gets |]. intros b. apply tally_set. Qed.

Lemma tally_pending {A} (k : deviceStatus_t -> DB A) q :
  preserves P (k (pendingOf q)) -> preserves P (x ← gets (fun d => pendingBit (queueOf q d)); k x).
Proof.
  intros Hk d Hd. unfold mbind, M_bind, gets, pendingBit. rewrite (tally_typed q d Hd). by apply Hk.
Qed.

Lemma tally_setBit i b : preserves P (setDeviceBit i b true).
Proof. apply keeps_weaken, tally_set. Qed.
Lemma tally_clearBit q i : own q i -> preserves P (setDeviceBit i (pendingOf q) false).
Proof. intros H. by apply keeps_weaken, tally_clear. Qed.
#[local] Hint Resolve tally_setBit tally_clearBit : keeps.

Lemma tally_addEventM q k i pos : preserves P (addEventM q k i pos).
Proof.
  intros d Hd. unfold addEventM, queueM, mbind, outcome_bind.
  destruct (AddEvent (queueOf q d) k i pos) as [x | e] eqn:E; [| done].
  apply tally_queue; [| done]. rewrite (AddEvent_type _ _ _ _ _ E). by apply tally_typed.
Qed.
#[local] Hint Resolve tally_addEventM : keeps.

Ltac tkeep := repeat (cbv zeta; first [apply tally_pending | apply keeps_inactive; solve [typeclasses eauto]
                                      | keep_loop | keep_step]).

Lemma tally_enqueueDevice q k t i : preserves P (enqueueDevice q k t i).
Proof. unfold enqueueDevice. tkeep. Qed.
#[local] Hint Resolve tally_enqueueDevice : keeps.
Lemma tally_EnqueueAttachedDevices q n k : preserves P (EnqueueAttachedDevices q n k).
Proof. unfold EnqueueAttachedDevices, EnqueueAttachedDevicesByTerminal. tkeep. Qed.
#[local] Hint Resolve tally_EnqueueAttachedDevices : keeps.
Lemma tally_activateLevel q c : preserves P (activateLevel q c).
Proof. unfold activateLevel, minOrMax. destruct q; tkeep. Qed.
Lemma tally_diodeConflict q o i c : preserves P (diodeConflict q o i c).
Proof. unfold diodeConflict, minOrMax, param. tkeep. Qed.
#[local] Hint Resolve tally_activateLevel tally_diodeConflict : keeps.
Lemma tally_VoltageConflict q i c : own q i -> preserves P (VoltageConflict q i c).
Proof. intros Ho. unfold VoltageConflict. tkeep. Qed.
#[local] Hint Resolve tally_VoltageConflict : keeps.
Lemma tally_IsIrrelevant q i c v s : own q i -> preserves P (IsIrrelevant q i c v s).
Proof. intros Ho. unfold IsIrrelevant. tkeep. Qed.
Lemma tally_requeue q : preserves P (modify (fun d => set_queueOf q (requeue (queueOf q d)) d)).
Proof. apply keeps_modify. intros d Hd. apply tally_queue; [| done]. by apply tally_typed. Qed.
#[local] Hint Resolve tally_IsIrrelevant tally_requeue : keeps.
Lemma tally_minMaxEvent q k i : own q i -> preserves P (minMaxEvent q k i).
Proof. intros Ho. unfold minMaxEvent. tkeep. Qed.
End Tally.

(** ** The two counts *)

Definition typed (d : CCvcDb) : Prop := forall q, queueType (queueOf q d) = q.

Definition atLeast (q : eventQueue_t) (n : Z) (d : CCvcDb) : Prop :=
  typed d /\ n <= bitCount (pendingOf q) (deviceStatus_v d).
Definition atLeastBut (q : eventQueue_t) (i n : Z) (d : CCvcDb) : Prop :=
  typed d /\ n <= countBut q i (deviceStatus_v d).

Lemma typed_frame d d' : (forall q, queueOf q d' = queueOf q d) -> typed d -> typed d'.
Proof. intros E H q. rewrite E. apply H. Qed.

Lemma typed_set q x d : queueType x = q -> typed d -> typed (set_queueOf q x d).
Proof. intros Hx H q'. rewrite queueOf_set. destruct (decide _); [by subst | apply H]. Qed.

(** A predicate on the types of the queues and the status words. *)
Lemma typed_tally own (R : list Z -> Prop) :
  (forall l i s b, R l -> vlookup l i = Some s -> R (vupdate l i (status_set s (deviceBit b) true))) ->
  (forall l i s q, own q i -> R l -> vlookup l i = Some s ->
     R (vupdate l i (status_set s (deviceBit (pendingOf q)) false))) ->
  Tally own (fun d => typed d /\ R (deviceStatus_v d)).
Proof.
  intros Hset Hclr.
  assert (forall i b x, (forall l s, R l -> vlookup l i = Some s -> R (vupdate l i (status_set s (deviceBit b) x))) ->
    keeps (fun d => typed d /\ R (deviceStatus_v d)) (setDeviceBit i b x)) as Hb.
  { intros i b x H d [Ht Hr]. rewrite setDeviceBit_run.
    destruct (vlookup (deviceStatus_v d) i) as [s |] eqn:E; [| done].
    rewrite deviceStatus_set_status. split; [| eauto].
    eapply typed_frame; [| exact Ht]. intros []; by destruct d. }
  split.
  - apply queue_status_stable.
    + intros d d' Eq Es [Ht Hr]. split; [by eapply typed_frame | by rewrite Es].
    + intros q i a b d [Ht Hr]. split; [apply typed_set; [apply Ht | done] | by rewrite deviceStatus_set_queueOf].
  - intros q d [Ht _]. apply Ht.
  - intros q x d Hx [Ht Hr]. split; [by apply typed_set | by rewrite deviceStatus_set_queueOf].
  - intros i b. apply Hb. eauto.
  - intros q i Ho. apply Hb. eauto.
Qed.

Lemma bitOf_set b b' s x : bitOf b (status_set s (deviceBit b') x) = if decide (b' = b) then (if x then 1 else 0) else bitOf b s.
Proof. unfold bitOf. rewrite hasBit_set. by destruct (decide _). Qed.

#[export] Instance atLeast_tally q n : Tally (fun q' _ => q' <> q) (atLeast q n).
Proof.
  apply (typed_tally _ (fun l => n <= bitCount (pendingOf q) l)).
  - intros l i s b Hl E. rewrite (bitCount_update _ _ _ _ _ E), bitOf_set.
    pose proof (bitOf_range (pendingOf q) s). destruct (decide _); lia.
  - intros l i s q' Hq Hl E. rewrite (bitCount_update _ _ _ _ _ E), bitOf_set.
    destruct (decide _) as [H%pendingOf_inj |]; [done | lia].
Qed.

#[export] Instance atLeastBut_tally q i n : Tally (fun q' j => q' <> q \/ j = i) (atLeastBut q i n).
Proof.
  assert (forall l j s s', vlookup l j = Some s -> (j = i \/ bitOf (pendingOf q) s <= bitOf (pendingOf q) s') ->
    countBut q i l <= countBut q i (vupdate l j s')) as Hc.
  { intros l j s s' E H. unfold countBut. rewrite (bitCount_update _ _ _ _ _ E).
    destruct (decide (j = i)) as [-> | Hne].
    - rewrite E, vlookup_vupdate_eq by (by eapply vlookup_range). lia.
    - rewrite vlookup_vupdate_ne by done. destruct H; [done | lia]. }
  apply (typed_tally _ (fun l => n <= countBut q i l)).
  - intros l j s b Hl E. etrans; [exact Hl | apply (Hc _ _ _ _ E)]. right. rewrite bitOf_set.
    pose proof (bitOf_range (pendingOf q) s). destruct (decide _); lia.
  - intros l j s q' Hq Hl E. etrans; [exact Hl | apply (Hc _ _ _ _ E)].
    destruct Hq as [Hq | ->]; [right | by left]. rewrite bitOf_set.
    destruct (decide _) as [H%pendingOf_inj |]; [done | lia].
Qed.

(** ** An event of the min or max queue *)

Lemma GetEvent_type x i x' : GetEvent x = Ok (i, x') -> queueType x' = queueType x.
Proof.
  unfold GetEvent, GetMainEvent, GetDelayEvent. intros H.
  destruct (IsNextMainQueue x); inv_ok H; destruct a as [y [a m]]; by injection H as <- <-.
Qed.

Lemma takeEvent_state q d r d' :
  typed d -> takeEvent q d = Ok (r, d') ->
  exists i s, vlookup (deviceStatus_v d) i = Some s /\ typed d' /\
    deviceStatus_v d' = vupdate (deviceStatus_v d) i (status_set s (deviceBit (pendingOf q)) false) /\
    (r = None \/ r = Some i).
Proof.
  intros Ht E. destruct (GetEvent (queueOf q d)) as [[i x] | e] eqn:Eg;
    [| unfold takeEvent, mbind, M_bind, queueM in E; by rewrite Eg in E].
  pose proof (GetEvent_type _ _ _ Eg) as Hx. rewrite Ht in Hx.
  rewrite (takeEvent_run q d i x Eg Hx) in E.
  destruct (vlookup (deviceStatus_v d) i) as [s |] eqn:Es; [| done]. cbv zeta in E.
  injection E as <- <-. exists i, s. split_and!; [done | | by rewrite deviceStatus_set_status |].
  - eapply typed_frame; [| by apply (typed_set q x d)]. intros q'. apply queueOf_set_status.
  - destruct (hasBit _ _); auto.
Qed.

(** Taking an event lowers the count of its queue by one at most. *)
Lemma takeEvent_own q n :
  safe_ false (atLeast q (n + 1)) (takeEvent q)
    (fun r => match r with Some i => atLeastBut q i n | None => atLeast q n end).
Proof.
  intros d [Ht Hn]. destruct (takeEvent q d) as [[r d'] | e] eqn:E; [| done].
  destruct (takeEvent_state q d r d' Ht E) as (i & s & Es & Ht' & El & Hr).
  pose proof (bitCount_update (pendingOf q) _ i s (status_set s (deviceBit (pendingOf q)) false) Es) as Hu.
  rewrite <- El, bitOf_set, decide_True in Hu by done. pose proof (bitOf_range (pendingOf q) s).
  destruct Hr as [-> | ->]; (split; [done |]); [lia |]. unfold countBut.
  rewrite El, vlookup_vupdate_eq, <- El, bitOf_set, decide_True by (done || by eapply vlookup_range). lia.
Qed.

Lemma takeEvent_other q q' n : q' <> q -> preserves (atLeast q n) (takeEvent q').
Proof.
  intros Hq d [Ht Hn]. destruct (takeEvent q' d) as [[r d'] | e] eqn:E; [| done].
  destruct (takeEvent_state q' d r d' Ht E) as (i & s & Es & Ht' & El & _). split; [done |].
  rewrite El, (bitCount_update _ _ _ _ _ Es), bitOf_set.
  destruct (decide _) as [H%pendingOf_inj |]; [done | lia].
Qed.

Lemma PropagateMinMax_own q n :
  safe_ false (atLeast q (n + 1)) (PropagateMinMaxVoltages q) (fun _ => atLeast q n).
Proof.
  unfold PropagateMinMaxVoltages. apply keeps_then; [apply keeps_gets |]. intros k.
  eapply safe_bind; [apply takeEvent_own |]. intros [i |]; [| by apply safe_ret].
  eapply safe_conseq; [apply (tally_minMaxEvent _ (atLeastBut q i n) q k i); by right | done |].
  intros _ d [Ht Hn]. split; [done |]. pose proof (countBut_le q i (deviceStatus_v d)). lia.
Qed.

Lemma PropagateMinMax_other q q' n : q' <> q -> preserves (atLeast q n) (PropagateMinMaxVoltages q').
Proof.
  intros Hq. unfold PropagateMinMaxVoltages. apply keeps_bind; [apply keeps_gets |]. intros k.
  apply keeps_bind; [by apply takeEvent_other |]. intros [i |]; [| apply keeps_ret].
  by apply (tally_minMaxEvent _ (atLeast q n)).
Qed.

(** An event removes one device from its queue at most, and none from the
    others. *)
Lemma PropagateMinMax_sizes q d d' :
  pendInv nobody d -> PropagateMinMaxVoltages q d = Ok (tt, d') ->
  pendInv nobody d' /\ forall q', QueueSize (queueOf q' d) - (if decide (q' = q) then 1 else 0)
                                  <= QueueSize (queueOf q' d').
Proof.
  intros Hp E. assert (pendInv nobody d') as Hp'.
  { pose proof (keeps_PropagateMinMaxVoltages nobody q d Hp) as H. by rewrite E in H. }
  split; [done |]. intros q'. rewrite !QueueSize_bitCount by done.
  assert (typed d) as Ht by (intros q0; by eapply pendInv_type).
  destruct (decide (q' = q)) as [-> | Hne].
  - pose proof (PropagateMinMax_own q (bitCount (pendingOf q) (deviceStatus_v d) - 1) d) as H.
    rewrite E in H. apply H. split; [done | lia].
  - pose proof (PropagateMinMax_other q' q (bitCount (pendingOf q') (deviceStatus_v d)) ltac:(done) d) as H.
    rewrite E in H. rewrite Z.sub_0_r. apply H. split; [done | lia].
Qed.

(** ** The choice of a queue *)

Lemma sub_head a k l m am :
  sub_inv a ((k, l) :: m) am ->
  0 < EventList.eventListSize l <= Z.of_nat (length (SubQueue.devices am)).
Proof.
  intros [Hr _ Hne]. apply Forall2_cons_inv_l in Hr as ([k' xs] & am' & [_ Hl] & _ & ->).
  apply Forall_cons in Hne as [Hx _]. simpl in *. rewrite (EventList.repr_size _ _ _ Hl).
  unfold SubQueue.devices. simpl. rewrite length_app. destruct xs; [done | simpl; lia].
Qed.

(** The head of the next sub-queue of a queue that is not empty. *)
Lemma headSize_some d q :
  pendInv nobody d -> 0 < QueueSize (queueOf q d) ->
  exists n, headSize (queueOf q d) = Ok n /\ 0 < n <= QueueSize (queueOf q d).
Proof.
  intros Hp. destruct (Hp q) as [A HA]. pose proof (ag_inv _ _ _ _ _ HA) as [Hm Hd _ _ _ _].
  rewrite (QueueSize_queued _ _ (ag_inv _ _ _ _ _ HA)). unfold queued. rewrite length_app.
  unfold headSize, IsNextMainQueue.
  destruct (mainQueue (queueOf q d)) as [| [k l] m], (delayQueue (queueOf q d)) as [| [k' l'] m'];
    intros Hs.
  - destruct Hm as [Hm _ _], Hd as [Hd _ _]. apply Forall2_nil_inv_l in Hm, Hd.
    rewrite Hm, Hd in Hs. simpl in Hs. lia.
  - apply sub_head in Hd. eexists. split; [done | lia].
  - apply sub_head in Hm. eexists. split; [done | lia].
  - apply sub_head in Hm, Hd. destruct (_ || _); eexists; (split; [done | lia]).
Qed.

Lemma IsNextMainQueue_empty d q :
  pendInv nobody d -> IsNextMainQueue (queueOf q d) = true -> 0 < QueueSize (queueOf q d).
Proof.
  intros Hp. destruct (Hp q) as [A HA]. pose proof (ag_inv _ _ _ _ _ HA) as [Hm _ _ _ _ _].
  rewrite (QueueSize_queued _ _ (ag_inv _ _ _ _ _ HA)). unfold queued, IsNextMainQueue.
  rewrite length_app. destruct (mainQueue (queueOf q d)) as [| [k l] m]; [done |].
  apply sub_head in Hm. intros _. lia.
Qed.

Lemma QueueSize_nonneg d q : pendInv nobody d -> 0 <= QueueSize (queueOf q d).
Proof. intros Hp. destruct (Hp q) as [A HA]. rewrite (QueueSize_queued _ _ (ag_inv _ _ _ _ _ HA)). lia. Qed.

(** While an event is queued, the chosen queue is not empty and the number of
    events taken from it is at most its size. *)
Lemma chooseQueue_some d :
  pendInv nobody d -> 0 < QueueSize (minEventQueue d) + QueueSize (maxEventQueue d) ->
  exists m n, chooseQueue d = Ok (m, n) /\ 0 < n <= QueueSize (queueOf (loopQueue m) d).
Proof.
  intros Hp Hs.
  pose proof (headSize_some d MIN_QUEUE Hp) as Hmin. pose proof (headSize_some d MAX_QUEUE Hp) as Hmax.
  pose proof (QueueSize_nonneg d MIN_QUEUE Hp) as Pmin. pose proof (QueueSize_nonneg d MAX_QUEUE Hp) as Pmax.
  pose proof (IsNextMainQueue_empty d MIN_QUEUE Hp) as Nmin.
  pose proof (IsNextMainQueue_empty d MAX_QUEUE Hp) as Nmax.
  unfold chooseQueue. simpl in *.
  destruct (_ || _) eqn:Ec.
  - destruct Hmin as (n & En & Hn); [| exists true, n; by rewrite En].
    apply orb_true_iff in Ec as [[_ H]%andb_true_iff | [H _]%andb_true_iff]; [| auto].
    apply Z.ltb_lt in H. lia.
  - destruct Hmax as (n & En & Hn); [| exists false, n; by rewrite En].
    destruct (Z.eq_dec (QueueSize (maxEventQueue d)) 0) as [E0 |]; [| lia]. exfalso.
    destruct (IsNextMainQueue (maxEventQueue d)); [specialize (Nmax eq_refl); lia |].
    rewrite E0 in Ec. destruct (IsNextMainQueue (minEventQueue d)); simpl in Ec; [done |].
    rewrite orb_false_r in Ec. apply Z.ltb_ge in Ec. lia.
Qed.

(** ** The loop *)

Definition totalSize (d : CCvcDb) : Z := QueueSize (minEventQueue d) + QueueSize (maxEventQueue d).

Record loopInv (s : loopState) (d : CCvcDb) : Prop := {
  li_pending : pendInv nobody d;
  li_devices : Z.of_nat (length (deviceStatus_v d)) < 2 ^ 31;
  li_dequeue : 0 <= myDequeueCount s <= QueueSize (queueOf (loopQueue (myProcessingMinQueue s)) d);
  li_loop : 0 <= myLoopCount s <= totalSize d;
  li_end : myLoopCount s = 0 -> totalSize d = 0
}.

Lemma queuedEvents_total d :
  pendInv nobody d -> Z.of_nat (length (deviceStatus_v d)) < 2 ^ 31 -> queuedEvents d = totalSize d.
Proof.
  intros Hp Hl. unfold queuedEvents, totalSize. apply wrap_u_id. unfold fits_u.
  assert (forall q, 0 <= QueueSize (queueOf q d) < 2 ^ 31) as Hr.
  { intros q. destruct (Hp q) as [A HA]. rewrite (QueueSize_queued _ _ (ag_inv _ _ _ _ _ HA)).
    pose proof (agrees_length _ _ _ _ _ HA). lia. }
  pose proof (Hr MIN_QUEUE). pose proof (Hr MAX_QUEUE). simpl in *. lia.
Qed.

Lemma totalSize_event m d d' :
  pendInv nobody d -> PropagateMinMaxVoltages (loopQueue m) d = Ok (tt, d') ->
  pendInv nobody d' /\ totalSize d - 1 <= totalSize d' /\
  QueueSize (queueOf (loopQueue m) d) - 1 <= QueueSize (queueOf (loopQueue m) d').
Proof.
  intros Hp E. destruct (PropagateMinMax_sizes _ d d' Hp E) as [Hp' Hs]. split; [done |].
  pose proof (Hs MIN_QUEUE) as H1. pose proof (Hs MAX_QUEUE) as H2. unfold totalSize.
  destruct m; simpl in *; lia.
Qed.

(** A round takes one event from a queue that is not empty. *)
Lemma minMaxRound_run s d :
  loopInv s d -> 0 < myLoopCount s ->
  exists m, 0 < QueueSize (queueOf (loopQueue m) d) /\
    match PropagateMinMaxVoltages (loopQueue m) d with
    | Ok (_, d') => exists s', minMaxRound s d = Ok (s', d') /\ loopInv s' d'
    | Err e => minMaxRound s d = Err e
    end.
Proof.
  intros [Hp Hl Hq Hk He] Hpos.
  assert (exists m n, nextHead s d = Ok ((m, n), d) /\ 0 < n <= QueueSize (queueOf (loopQueue m) d)) as (m & n & Ec & Hn).
  { unfold nextHead. destruct (Z.eqb_spec (myDequeueCount s) 0) as [E0 | E0].
    - destruct (chooseQueue_some d Hp) as (m & n & Ec & Hn); [unfold totalSize in *; lia |].
      exists m, n. unfold lift. by rewrite Ec.
    - eexists _, _. split; [done | lia]. }
  exists m. split; [lia |]. unfold minMaxRound, mbind, M_bind. rewrite Ec.
  unfold assertM. destruct (Z.eqb_spec n 0); [lia |]. simpl.
  destruct (PropagateMinMaxVoltages (loopQueue m) d) as [[[] d'] | e] eqn:Ep; [| done].
  destruct (totalSize_event m d d' Hp Ep) as (Hp' & Ht & Hs).
  pose proof (preserves_PropagateMinMaxVoltages _ (devicesAre _) (loopQueue m) I d eq_refl) as Hd.
  rewrite Ep in Hd. unfold devicesAre in Hd.
  assert (queuedEvents d' = totalSize d') as Hqe by (apply queuedEvents_total; [done | lia]).
  assert (0 <= totalSize d') as Htp.
  { unfold totalSize. pose proof (QueueSize_nonneg d' MIN_QUEUE Hp'). pose proof (QueueSize_nonneg d' MAX_QUEUE Hp').
    simpl in *. lia. }
  destruct (Z.ltb_spec (myLoopCount s - 1) 1); eexists; (split; [done |]); constructor; simpl; lia || done.
Qed.

(** ** The start of the pass *)

Lemma keeps_setInverterNet {strict} P `{!Stable P} n g :
  keeps_ strict P (modify (fun d => set_inverterNet_v (vupdate (inverterNet_v d) n g) d)).
Proof. apply keeps_modify. intros. by apply stable_inverterNet. Qed.
Lemma keeps_clearFixed {strict} P `{!Stable P} a b :
  keeps_ strict P (modify (fun d => set_isFixedMaxNet a (set_isFixedMinNet b d))).
Proof. apply keeps_modify. intros. by apply stable_fixed. Qed.
Lemma keeps_clearMaps {strict} P `{!Stable P} :
  keeps_ strict P (modify (fun d => set_unknownGateSet ∅ (set_maxConnectionDependencyMap ∅
    (set_minConnectionDependencyMap ∅ d)))).
Proof. apply keeps_modify. intros. by apply stable_unknownGates, stable_maxDependencies, stable_minDependencies. Qed.
#[export] Hint Resolve keeps_setInverterNet keeps_clearFixed keeps_clearMaps : keeps.

Lemma keeps_markInactive q i : keeps (pendInv nobody) (setDeviceBit i (inactiveOf q) true).
Proof. apply keeps_setInactive. eauto with keeps. Qed.

Lemma keeps_SetTrivialMinMaxPower : keeps (pendInv nobody) SetTrivialMinMaxPower.
Proof.
  unfold SetTrivialMinMaxPower, trivialNet, pickBoth, pickMos, trivialInverter, setTrivial.
  keep; first [apply (keeps_markInactive MIN_QUEUE) | apply (keeps_markInactive MAX_QUEUE)].
Qed.
#[local] Hint Resolve keeps_SetTrivialMinMaxPower : keeps.

Lemma keeps_startMinMax : keeps (pendInv nobody) startMinMax.
Proof.
  unfold startMinMax, ResetMinMaxActiveStatus, enqueueNet, enqueueLevel, EnqueueAttachedDevicesByTerminal.
  keep.
Qed.

Lemma preserves_startMinMax ok P `{!LooseOn ok P} : ok MIN_QUEUE -> ok MAX_QUEUE -> preserves P startMinMax.
Proof.
  intros Hmin Hmax. pose proof (fun q k t i => preserves_enqueueDevice ok P q k t i) as He.
  pose proof (fun i b => loose_setDeviceBit ok P (strict := false) i b true) as Hb.
  pose proof (fun q => preserves_startQueue ok P q) as Hq.
  unfold startMinMax, ResetMinMaxActiveStatus, SetTrivialMinMaxPower, trivialNet, pickBoth, pickMos,
    trivialInverter, setTrivial, enqueueNet, enqueueLevel, EnqueueAttachedDevicesByTerminal.
  keep; auto.
Qed.

Lemma startMinMax_loopInv d d1 :
  pendInv nobody d -> Z.of_nat (length (deviceStatus_v d)) < 2 ^ 31 -> startMinMax d = Ok (tt, d1) ->
  loopInv (mkLoop (queuedEvents d1) 0 false) d1.
Proof.
  intros Hp Hl E. pose proof (keeps_startMinMax d Hp) as Hp1. rewrite E in Hp1.
  pose proof (preserves_startMinMax _ (devicesAre _) I I d eq_refl) as Hd. rewrite E in Hd. unfold devicesAre in Hd.
  pose proof (queuedEvents_total d1 Hp1 ltac:(lia)) as Ht.
  pose proof (QueueSize_nonneg d1 MIN_QUEUE Hp1). pose proof (QueueSize_nonneg d1 MAX_QUEUE Hp1).
  constructor; simpl in *; unfold totalSize in *; lia || done.
Qed.

(** [minMaxRun n d d']: the loop handles [n] events, each taken from a queue
    that is not empty, and comes from [d] to [d'] without an error. *)
Inductive minMaxRun : nat -> CCvcDb -> CCvcDb -> Prop :=
  | mm_here d : minMaxRun 0 d d
  | mm_event n d m d1 d' :
      0 < QueueSize (queueOf (loopQueue m) d) -> PropagateMinMaxVoltages (loopQueue m) d = Ok (tt, d1) ->
      minMaxRun n d1 d' -> minMaxRun (S n) d d'.

Lemma minMaxLoop_inv fuel s d :
  loopInv s d ->
  exists n d', minMaxRun n d d' /\
    ((minMaxLoop fuel s d = Ok (tt, d') /\
      forall q i, q <> SIM_QUEUE ->
        QueueSize (queueOf q d') = 0 /\ ~ bitSet (deviceStatus_v d') i (pendingOf q)) \/
     (exists m e, 0 < QueueSize (queueOf (loopQueue m) d') /\
        PropagateMinMaxVoltages (loopQueue m) d' = Err e /\ minMaxLoop fuel s d = Err e) \/
     (n = fuel /\ minMaxLoop fuel s d = Err OutOfFuel)).
Proof.
  revert s d. induction fuel as [| fuel IH]; intros s d Hi.
  { exists 0%nat, d. split; [constructor | by right; right]. }
  simpl. destruct (Z.leb_spec (myLoopCount s) 0) as [H0 | H0].
  - exists 0%nat, d. split; [constructor |]. left. split; [done |]. destruct Hi as [Hp Hl Hq Hk He].
    specialize (He ltac:(lia)). unfold totalSize in He. intros q i Hqs.
    pose proof (QueueSize_nonneg d MIN_QUEUE Hp). pose proof (QueueSize_nonneg d MAX_QUEUE Hp).
    assert (QueueSize (queueOf q d) = 0) as E by (destruct q; simpl in *; [done | lia | lia]).
    split; [done | by apply emptyQueue_idle].
  - destruct (minMaxRound_run s d Hi H0) as (m & Hm & H). unfold mbind, M_bind.
    destruct (PropagateMinMaxVoltages (loopQueue m) d) as [[[] d1] | e] eqn:Ep.
    + destruct H as (s' & -> & Hi'). destruct (IH s' d1 Hi') as (n & d' & Hr & Hc).
      exists (S n), d'. split; [by eapply mm_event |].
      destruct Hc as [Hc | [Hc | [-> Hc]]]; auto.
    + rewrite H. exists 0%nat, d. split; [constructor |]. right. left. eauto.
Qed.

(** C5: the event loop of the min/max pass.  When the pass starts in a state
    whose pending bits agree with the queues, the loop only takes events from
    queues that are not empty and its assertion holds: with any fuel, either
    it returns, with both queues empty and no device pending in them, or it
    stops with the error of an event, or it handled as many events as it had
    fuel for. *)
Theorem minMaxLoop_sound fuel d d1 :
  pendInv nobody d -> Z.of_nat (length (deviceStatus_v d)) < 2 ^ 31 -> startMinMax d = Ok (tt, d1) ->
  exists n d', minMaxRun n d1 d' /\
    ((minMaxLoop fuel (mkLoop (queuedEvents d1) 0 false) d1 = Ok (tt, d') /\
      forall q i, q <> SIM_QUEUE ->
        QueueSize (queueOf q d') = 0 /\ ~ bitSet (deviceStatus_v d') i (pendingOf q)) \/
     (exists m e, 0 < QueueSize (queueOf (loopQueue m) d') /\
        PropagateMinMaxVoltages (loopQueue m) d' = Err e /\
        minMaxLoop fuel (mkLoop (queuedEvents d1) 0 false) d1 = Err e) \/
     (n = fuel /\ minMaxLoop fuel (mkLoop (queuedEvents d1) 0 false) d1 = Err OutOfFuel)).
Proof. intros Hp Hl E. by apply minMaxLoop_inv, (startMinMax_loopInv d). Qed.

(** The pass on the example circuit. *)
Lemma minMaxLoop_sound_witness :
  exists d1 d2, startMinMax ExampleDb.exampleDb = Ok (tt, d1) /\ 0 < queuedEvents d1 /\
  minMaxLoop 20 (mkLoop (queuedEvents d1) 0 false) d1 = Ok (tt, d2) /\
  exists n d', minMaxRun n d1 d' /\
    ((minMaxLoop 20 (mkLoop (queuedEvents d1) 0 false) d1 = Ok (tt, d') /\
      forall q i, q <> SIM_QUEUE ->
        QueueSize (queueOf q d') = 0 /\ ~ bitSet (deviceStatus_v d') i (pendingOf q)) \/
     (exists m e, 0 < QueueSize (queueOf (loopQueue m) d') /\
        PropagateMinMaxVoltages (loopQueue m) d' = Err e /\
        minMaxLoop 20 (mkLoop (queuedEvents d1) 0 false) d1 = Err e) \/
     (n = 20%nat /\ minMaxLoop 20 (mkLoop (queuedEvents d1) 0 false) d1 = Err OutOfFuel)).
Proof.
  assert (match startMinMax ExampleDb.exampleDb with
          | Ok (_, d1) => 0 <? queuedEvents d1 | Err _ => false end = true) as Hs by (vm_compute; reflexivity).
  assert (match (_ ← startMinMax; k ← gets queuedEvents; minMaxLoop 20 (mkLoop k 0 false)) ExampleDb.exampleDb with
          | Ok _ => true | Err _ => false end = true) as Hr by (vm_compute; reflexivity).
  pose proof (minMaxLoop_sound 20 ExampleDb.exampleDb) as H. unfold mbind, M_bind, gets in Hr.
  destruct (startMinMax ExampleDb.exampleDb) as [[[] d1] | e]; [| discriminate Hs].
  specialize (H d1 exampleDb_pending ltac:(simpl; lia) eq_refl).
  exists d1.
  destruct (minMaxLoop 20 (mkLoop (queuedEvents d1) 0 false) d1) as [[[] d2] | e]; [| discriminate Hr].
  exists d2. split_and!; [reflexivity | by apply Z.ltb_lt | reflexivity | exact H].
Defined.

End MinMaxLoop.
