(* ===== verification/SimPower.v ===== *)
(** * The simulation pass, analog nets and bias checks (CCvcDb.cc, CCvcDb_utility.cc)

    [SetSimPower] runs the events of the simulation queue; [SetAnalogNets]
    marks the nets that are analog, or driven from analog nets through one
    gate; [CheckConnections] reports suspicious bulk biases; [HasLeakPath]
    decides whether a device can leak between its min and max levels. *)

From S2P Require Import Prelude CvcTypes EventQueue VirtualNet Numeric Power Db Connection Short.
From S2P Require Import Enqueue Propagate Simulate Resistor MinMax.
From stdpp Require Import base list strings gmap sets.
From Stdlib Require Import ZArith Lia.
#[local] Open Scope Z_scope.

Module SimPower.
Import EventQueue.EventQueue VirtualNet.VirtualNet Power.Power Numeric.Numeric Db.Db
  Connection.Connection Short.Short Enqueue.Enqueue Propagate.Propagate Simulate.Simulate
  Resistor.Resistor MinMax.MinMax.

(** ** The simulation pass *)

Definition enqueueSim (thePropagationType : propagation_t) (theNewNetSet : gset Z) (net_it : Z) : DB unit :=
  e ← GetEquivalentNet net_it;
  if negb (net_it =? e) then mret tt
  else
    m ← accessM SIM_QUEUE net_it;
    if negb (bool_decide (theNewNetSet = ∅)) && negb (bool_decide (net_it ∈ theNewNetSet)) then mret tt
    else
      a ← powerAt (finalNetId m);
      p ← pointeeM a;
      match p with
      | None => mret tt
      | Some p =>
          if (simVoltage p =? UNKNOWN_VOLTAGE) && negb (IsSCRCPower (Some p)) then mret tt
          else if bool_decide (thePropagationType = POWER_NETS_ONLY) && negb (IsPriorityPower_ p) then mret tt
          else
            _ ← EnqueueAttachedDevicesByTerminal SIM_QUEUE net_it firstSource_v nextSource_v (simVoltage p);
            _ ← EnqueueAttachedDevicesByTerminal SIM_QUEUE net_it firstDrain_v nextDrain_v (simVoltage p);
            EnqueueAttachedDevicesByTerminal SIM_QUEUE net_it firstGate_v nextGate_v (simVoltage p)
      end.

(** The number of events is not bounded by the source; the fuel is an argument
    of the pass. *)
Fixpoint simLoop (fuel : nat) (thePropagationType : propagation_t) : DB unit :=
  match fuel with
  | O => raise OutOfFuel
  | S fuel =>
      n ← gets (fun d => QueueSize (simEventQueue d));
      if n <=? 0 then mret tt
      else _ ← PropagateSimVoltages SIM_QUEUE thePropagationType; simLoop fuel thePropagationType
  end.

Definition SetSimPower (fuel : nat) (thePropagationType : propagation_t) (theNewNetSet : gset Z) : DB unit :=
  _ ← resetSide SIM_QUEUE;
  _ ← initUpdates SIM_QUEUE;
  _ ← modify (set_isFixedSimNet false);
  _ ← forNets (enqueueSim thePropagationType theNewNetSet);
  _ ← startQueue SIM_QUEUE;
  _ ← simLoop fuel thePropagationType;
  _ ← forNets (fun n => _ ← accessM SIM_QUEUE n; mret tt);
  _ ← modify (set_isFixedSimNet true);
  clearUpdates SIM_QUEUE.

(** ** Analog nets *)

(** The nets across the devices of a list, unless they have a power or are
    analog already. *)
Definition analogByTerminal (visit : Z -> Z -> DB unit) (theNetId : Z) (first next : CNetlist -> list Z)
    (theGateCount : Z) : DB unit :=
  let side n : DB unit :=
    a ← powerAt n;
    b ← getNetBit n ANALOG;
    match a, (b : bool) with
    | None, false => visit n theGateCount
    | _, _ => mret tt
    end in
  let body device_it : DB (option unit) :=
    s ← nlat sourceNet_v device_it;
    mySourceId ← GetEquivalentNet s;
    dr ← nlat drainNet_v device_it;
    myDrainId ← GetEquivalentNet dr;
    if mySourceId =? myDrainId then mret None
    else _ ← side mySourceId; _ ← side myDrainId; mret None in
  _ ← overDevices first next theNetId body; mret tt.

(** Every recursive call marks a net; the fuel is one more than the number of
    nets. *)
Fixpoint PropagateAnalogNetType (fuel : nat) (theNetId theGateCount : Z) : DB unit :=
  match fuel with
  | O => raise OutOfFuel
  | S fuel =>
      let byTerminal := analogByTerminal (PropagateAnalogNetType fuel) theNetId in
      myIsAlreadyAnalog ← getNetBit theNetId ANALOG;
      _ ← setNetBit theNetId ANALOG true;
      _ ← when (theGateCount <? 1) (byTerminal firstGate_v nextGate_v (theGateCount + 1));
      when (negb myIsAlreadyAnalog)
        (_ ← byTerminal firstSource_v nextSource_v theGateCount;
         byTerminal firstDrain_v nextDrain_v theGateCount)
  end.

Definition propagateAnalog (theNetId : Z) : DB unit :=
  n ← gets (fun d => length (netStatus_v d));
  PropagateAnalogNetType (S n) theNetId 0.

(** A resistor, or a transistor wired as a diode, to another net. *)
Definition analogDevice (net_it : Z) (otherNet_v : CNetlist -> list Z) (device_it : Z) : DB (option bool) :=
  o ← nlat otherNet_v device_it;
  o ← GetEquivalentNet o;
  if o =? net_it then mret None
  else
    t ← nlat deviceType_v device_it;
    match t with
    | NMOS | LDDN | PMOS | LDDP =>
        g ← nlat gateNet_v device_it;
        g ← GetEquivalentNet g;
        mret (if g =? net_it then Some true else None)
    | RESISTOR => mret (Some true)
    | _ => mret None
    end.

Definition setAnalogNet (net_it : Z) : DB unit :=
  e ← GetEquivalentNet net_it;
  if negb (net_it =? e) then mret tt
  else
    a ← powerAt net_it;
    p ← pointeeM a;
    if IsPower_ p then mret tt
    else
      s ← overDevices firstSource_v nextSource_v net_it (analogDevice net_it drainNet_v);
      r ← (match s with
           | Some _ => mret s
           | None => overDevices firstDrain_v nextDrain_v net_it (analogDevice net_it sourceNet_v)
           end);
      match r with Some _ => propagateAnalog net_it | None => mret tt end.

Definition SetAnalogNets : DB unit :=
  _ ← forNets setAnalogNet;
  l ← gets cvcPowerPtrList;
  forList l (fun a =>
    p ← derefM a;
    when (typeBit p ANALOG_BIT) (n ← GetEquivalentNet (netId p); propagateAnalog n)).

(** ** Bulk biases *)

(** The transistors (capacitors apart) per bulk net, with the first of them. *)
Fixpoint bulkCounts (n : nat) (device_it : Z) (myBulkCount : gmap Z (Z * Z)) : DB (gmap Z (Z * Z)) :=
  match n with
  | O => mret myBulkCount
  | S n =>
      b ← nlat bulkNet_v device_it;
      t ← nlat deviceType_v device_it;
      s ← nlat sourceNet_v device_it;
      dr ← nlat drainNet_v device_it;
      let m :=
        if negb (b =? UNKNOWN_NET) && IsMos_ t && negb (s =? dr) then
          let '(k, first) := default (0, 0) (myBulkCount !! b) in
          <[b := (u32 (k + 1), if k =? 0 then device_it else first)]> myBulkCount
        else myBulkCount in
      bulkCounts n (device_it + 1) m
  end.

(** The min and max nets lead to the same power. *)
Definition sameBias (net_it : Z) : DB bool :=
  mn ← accessM MIN_QUEUE net_it;
  mx ← accessM MAX_QUEUE net_it;
  if finalNetId mn =? UNKNOWN_NET then mret false
  else
    v ← powerLevel minVoltage (finalNetId mn);
    mret (IsKnownVoltage_ v && (finalNetId mn =? finalNetId mx)).

Definition checkBias (myBulkCount : gmap Z (Z * Z)) (net_it : Z) : DB unit :=
  match myBulkCount !! net_it with
  | None => mret tt
  | Some (k, _) =>
      c ← at_ connectionCount_v net_it;
      if k <? u32 (sourceCount c + drainCount c) then mret tt
      else
        m ← accessM SIM_QUEUE net_it;
        _ ← assertM (negb (finalNetId m =? UNKNOWN_NET));
        a ← powerAt (finalNetId m);
        p ← pointeeM a;
        if (1000000 <? finalResistance m) && negb (finalResistance m =? INFINITE_RESISTANCE)
        then reportM (Warning net_it)
        else if match p with
                | None => true
                | Some p => (simVoltage p =? UNKNOWN_VOLTAGE)
                            && ((minVoltage p =? UNKNOWN_VOLTAGE) || (maxVoltage p =? UNKNOWN_VOLTAGE))
                end
        then b ← sameBias net_it; when (negb b) (reportM (MissingBulk net_it))
        else when (IsCalculatedVoltage_ p) (reportM (Warning net_it))
  end.

Definition CheckConnections : DB unit :=
  n ← nl deviceCount;
  m ← bulkCounts (Z.to_nat n) 0 ∅;
  forNets (checkBias m).

(** ** Leak paths *)

(** [DefaultMinVoltage] and [DefaultMaxVoltage]: the level at the net a
    calculated power was derived from. *)
Definition defaultVoltage (q : eventQueue_t) (p : CPower) : DB Z :=
  let '(n, f) := match q with MIN_QUEUE => (defaultMinNet p, minVoltage)
                            | _ => (defaultMaxNet p, maxVoltage) end in
  if n =? UNKNOWN_NET then mret UNKNOWN_VOLTAGE
  else
    x ← netM q n;
    v ← powerLevel f (finalNetId x);
    _ ← when (v =? UNKNOWN_VOLTAGE) (reportM (Warning (finalNetId x)));
    mret v.

Definition DefaultMinVoltage : CPower -> DB Z := defaultVoltage MIN_QUEUE.
Definition DefaultMaxVoltage : CPower -> DB Z := defaultVoltage MAX_QUEUE.

(** One open side [x] (at [q]) against the other side [y] (at [o]):
    [None] when the test does not decide.  [n] is the net of [y]. *)
Definition openLeak (q : eventQueue_t) (x y : CTerminal) (n : Z) : DB (option bool) :=
  let o := minOrMax q MAX_QUEUE MIN_QUEUE in
  p ← pointeeM (power_p x);
  match p with
  | None => mret None
  | Some p =>
      if negb (activeOf p (minOrMax q MIN_ACTIVE MAX_ACTIVE)) then mret (Some false)
      else
        match power_p y with
        | None => mret None
        | Some _ =>
            if negb (typeBit p HIZ_BIT) then mret None
            else
              k ← netM o n;
              if (n =? nextNetId k) && (voltage y =? UNKNOWN_VOLTAGE) then mret (Some false)
              else r ← IsRelatedM (power_p x) (power_p y) q o false false; mret (Some (negb r))
        end
  end.

(** The net a side is routed to: its own default net when it is calculated. *)
Definition leakRoute (q : eventQueue_t) (n : Z) : DB Z :=
  x ← netM q n;
  a ← powerAt n;
  p ← pointeeM a;
  mret (match p with
        | Some p =>
            if typeBit p (minOrMax q MIN_CALCULATED_BIT MAX_CALCULATED_BIT)
               && negb (minOrMax q (defaultMinNet p) (defaultMaxNet p) =? UNKNOWN_NET)
            then minOrMax q (defaultMinNet p) (defaultMaxNet p) else nextNetId x
        | None => nextNetId x
        end).

(** Both routes of a side go through the other side, or do not exist. *)
Definition routedThrough (myMinNet myMaxNet other : Z) (mn mx : CTerminal) : bool :=
  ((myMinNet =? other) || (voltage mn =? UNKNOWN_VOLTAGE))
  && ((myMaxNet =? other) || (voltage mx =? UNKNOWN_VOLTAGE)).

Definition leakVoltage (q : eventQueue_t) (x : CTerminal) : DB Z :=
  p ← pointeeM (power_p x);
  match p with
  | Some p => if typeBit p (minOrMax q MIN_CALCULATED_BIT MAX_CALCULATED_BIT)
              then defaultVoltage q p else mret (voltage x)
  | None => mret (voltage x)
  end.

(** A calculated simulation level of one side that comes from the other, or
    levels closer than the threshold. *)
Definition ownLeak (c : CFullConnection) : DB bool :=
  s ← pointeeM (power_p (atSource (fSim c)));
  dr ← pointeeM (power_p (atDrain (fSim c)));
  t ← param cvcFloatingErrorThreshold;
  mret (optb (fun p => defaultSimNet p =? fDrainId c) s
        || optb (fun p => defaultSimNet p =? fSourceId c) dr
        || (IsKnownVoltage_ (voltage (atSource (fSim c)))
            && (Z.abs (voltage (atSource (fSim c)) - voltage (atDrain (fSim c))) <? t))).

Definition leakLevels (c : CFullConnection) : DB bool :=
  a ← leakRoute MIN_QUEUE (fSourceId c);
  b ← leakRoute MAX_QUEUE (fSourceId c);
  e ← leakRoute MIN_QUEUE (fDrainId c);
  f ← leakRoute MAX_QUEUE (fDrainId c);
  if routedThrough a b (fDrainId c) (atSource (fMin c)) (atSource (fMax c))
     || routedThrough e f (fSourceId c) (atDrain (fMin c)) (atDrain (fMax c)) then mret false
  else
    myMinSource ← leakVoltage MIN_QUEUE (atSource (fMin c));
    myMaxSource ← leakVoltage MAX_QUEUE (atSource (fMax c));
    myMinDrain ← leakVoltage MIN_QUEUE (atDrain (fMin c));
    myMaxDrain ← leakVoltage MAX_QUEUE (atDrain (fMax c));
    mret ((IsKnownVoltage_ myMinSource && IsKnownVoltage_ myMaxDrain && (myMinSource <? myMaxDrain))
          || (IsKnownVoltage_ myMaxSource && IsKnownVoltage_ myMinDrain && (myMinDrain <? myMaxSource))).

Definition HasLeakPath (c : CFullConnection) : DB bool :=
  r ← openLeak MIN_QUEUE (atSource (fMin c)) (atDrain (fMax c)) (fDrainId c);
  r ← (match r with Some _ => mret r
       | None => openLeak MIN_QUEUE (atDrain (fMin c)) (atSource (fMax c)) (fSourceId c) end);
  r ← (match r with Some _ => mret r
       | None => openLeak MAX_QUEUE (atSource (fMax c)) (atDrain (fMin c)) (fDrainId c) end);
  r ← (match r with Some _ => mret r
       | None => openLeak MAX_QUEUE (atDrain (fMax c)) (atSource (fMin c)) (fSourceId c) end);
  match r with
  | Some b => mret b
  | None => own ← ownLeak c; if (own : bool) then mret false else leakLevels c
  end.

End SimPower.
