(* ===== verification/Analog.v ===== *)
(** * The analog propagation ends

    [PropagateAnalogNetType] calls itself for nets that are not marked yet and
    marks them, so the calls are nested at most as deep as there are unmarked
    nets. *)

From S2P Require Import Prelude CvcTypes EventQueue VirtualNet Numeric Power Db ExampleDb.
From S2P Require Import Connection Short Enqueue Propagate Simulate Resistor Logic MinMax SimPower.
From stdpp Require Import base list strings gmap sets.
From Stdlib Require Import ZArith Lia.
#[local] Open Scope Z_scope.

Module Analog.
Import EventQueue.EventQueue VirtualNet.VirtualNet Power.Power Db.Db Logic.Logic SimPower.SimPower.

(** ** Unmarked nets *)

Definition isAnalog (s : Z) : bool := status_get s (netBit ANALOG).

Definition cost (s : Z) : nat := if isAnalog s then 0 else 1.

Definition unmarked (status : list Z) : nat := foldr (fun s n => cost s + n)%nat 0%nat status.

Lemma unmarked_le status : (unmarked status <= length status)%nat.
Proof. induction status as [| s status IH]; simpl; [done |]. unfold cost. destruct (isAnalog s); lia. Qed.

Lemma unmarked_update status n s s' :
  vlookup status n = Some s -> (unmarked (vupdate status n s') + cost s = unmarked status + cost s')%nat.
Proof.
  intros H. pose proof (vlookup_range _ _ _ H) as R. apply Prelude.vlookup_lookup in H.
  unfold vupdate. apply in_range_spec in R. rewrite R. clear R. revert H. generalize (Z.to_nat n) as k.
  induction status as [| x status IH]; intros [| k] H; simplify_eq/=; [lia |]. specialize (IH k H). lia.
Qed.

Lemma isAnalog_set s : isAnalog (status_set s (netBit ANALOG) true) = true.
Proof. unfold isAnalog. rewrite status_get_set by done. by rewrite Z.eqb_refl. Qed.

(** ** Handlers that agree while few nets are unmarked *)

Definition below (k : nat) (d : CCvcDb) : Prop := (unmarked (netStatus_v d) <= k)%nat.

Definition agree {A} (P : CCvcDb -> Prop) (m m' : DB A) : Prop :=
  forall d, P d -> m d = m' d /\ match m d with Ok (_, d') => P d' | Err _ => True end.

Lemma agree_bind {A B} P (m m' : DB A) (f f' : A -> DB B) :
  agree P m m' -> (forall a, agree P (f a) (f' a)) -> agree P (m ≫= f) (m' ≫= f').
Proof.
  intros Hm Hf d Hd. destruct (Hm d Hd) as [E H]. unfold mbind, M_bind. rewrite <- E.
  destruct (m d) as [[a d'] | e]; [by apply Hf | done].
Qed.

Lemma agree_keeps {A} P (m : DB A) : preserves P m -> agree P m m.
Proof. intros H d Hd. split; [done |]. specialize (H d Hd). by destruct (m d) as [[a d'] |]. Qed.

Lemma agree_when P b (m m' : DB unit) : agree P m m' -> agree P (when b m) (when b m').
Proof. intros H. destruct b; [done | apply agree_keeps, keeps_ret]. Qed.

Lemma agree_forDevices {R} P fuel next (body body' : Z -> DB (option R)) :
  (forall i, agree P (body i) (body' i)) ->
  forall i, agree P (forDevices fuel next body i) (forDevices fuel next body' i).
Proof.
  intros Hb. induction fuel as [| fuel IH]; intros i; simpl; [by apply agree_keeps, keeps_raise |].
  destruct (i =? UNKNOWN_DEVICE); [apply agree_keeps, keeps_ret |].
  apply agree_bind; [done |]. intros [r |]; [apply agree_keeps, keeps_ret |].
  apply agree_bind; [apply agree_keeps, keeps_nlat | done].
Qed.

Lemma agree_overDevices {R} P first next n (body body' : Z -> DB (option R)) :
  (forall i, agree P (body i) (body' i)) ->
  agree P (overDevices first next n body) (overDevices first next n body').
Proof.
  intros Hb. unfold overDevices. apply agree_bind; [apply agree_keeps, keeps_nlat |]. intros i.
  apply agree_bind; [apply agree_keeps, keeps_nl |]. intros fuel. by apply agree_forDevices.
Qed.

Lemma getNetBit_run n d :
  getNetBit n ANALOG d =
  match vlookup (netStatus_v d) n with Some s => Ok (isAnalog s, d) | None => Err UndefinedBehaviour end.
Proof. unfold getNetBit, at_, lift, mbind, M_bind, vget. by destruct (vlookup (netStatus_v d) n). Qed.

Lemma setNetBit_run n d :
  setNetBit n ANALOG true d =
  match vlookup (netStatus_v d) n with
  | Some s => Ok (tt, set_netStatus_v (vupdate (netStatus_v d) n (status_set s (netBit ANALOG) true)) d)
  | None => Err UndefinedBehaviour
  end.
Proof. unfold setNetBit, at_, lift, modify, mbind, M_bind, vget. by destruct (vlookup (netStatus_v d) n). Qed.

(** The visits are made to unmarked nets only. *)
Definition bare (n : Z) (d : CCvcDb) : Prop :=
  exists s, vlookup (netStatus_v d) n = Some s /\ isAnalog s = false.

Lemma agree_byTerminal k visit visit' n first next g :
  (forall n g d, below k d -> bare n d -> visit n g d = visit' n g d /\
     match visit n g d with Ok (_, d') => below k d' | Err _ => True end) ->
  agree (below k) (analogByTerminal visit n first next g) (analogByTerminal visit' n first next g).
Proof.
  intros Hv. unfold analogByTerminal.
  apply agree_bind; [| intros ?; apply agree_keeps, keeps_ret]. apply agree_overDevices. intros i.
  apply agree_bind; [apply agree_keeps, keeps_nlat |]. intros s.
  apply agree_bind; [apply agree_keeps, keeps_GetEquivalentNet |]. intros s'.
  apply agree_bind; [apply agree_keeps, keeps_nlat |]. intros t.
  apply agree_bind; [apply agree_keeps, keeps_GetEquivalentNet |]. intros t'.
  destruct (s' =? t'); [apply agree_keeps, keeps_ret |].
  assert (forall x, agree (below k)
    (a ← powerAt x; b ← getNetBit x ANALOG;
     match a, (b : bool) with None, false => visit x g | _, _ => mret tt end)
    (a ← powerAt x; b ← getNetBit x ANALOG;
     match a, (b : bool) with None, false => visit' x g | _, _ => mret tt end)) as Hs.
  { intros x. apply agree_bind; [apply agree_keeps, keeps_at |]. intros a d Hd.
    unfold mbind, M_bind. rewrite getNetBit_run.
    destruct (vlookup (netStatus_v d) x) as [z |] eqn:Ez; [| done].
    destruct a; [done |]. destruct (isAnalog z) eqn:Eb; [done |]. apply Hv; [done | by exists z]. }
  apply agree_bind; [apply Hs |]. intros ?.
  apply agree_bind; [apply Hs |]. intros ?. apply agree_keeps, keeps_ret.
Qed.

(** ** The recursion *)

(** The recursion with [base] in place of the end of the fuel. *)
Fixpoint analogWith (base : Z -> Z -> DB unit) (fuel : nat) (theNetId theGateCount : Z) : DB unit :=
  match fuel with
  | O => base theNetId theGateCount
  | S fuel =>
      let byTerminal := analogByTerminal (analogWith base fuel) theNetId in
      myIsAlreadyAnalog ← getNetBit theNetId ANALOG;
      _ ← setNetBit theNetId ANALOG true;
      _ ← when (theGateCount <? 1) (byTerminal firstGate_v nextGate_v (theGateCount + 1));
      when (negb myIsAlreadyAnalog)
        (_ ← byTerminal firstSource_v nextSource_v theGateCount;
         byTerminal firstDrain_v nextDrain_v theGateCount)
  end.

(** Marking a net, then visiting its neighbours. *)
Lemma mark_then k n d {A} (m m' : DB A) s :
  vlookup (netStatus_v d) n = Some s -> (unmarked (netStatus_v d) <= k + cost s)%nat ->
  agree (below k) m m' ->
  (_ ← setNetBit n ANALOG true; m) d = (_ ← setNetBit n ANALOG true; m') d /\
  match (_ ← setNetBit n ANALOG true; m) d with Ok (_, d') => below k d' | Err _ => True end.
Proof.
  intros E Hk H. unfold mbind at 1 2 3, M_bind at 1 2 3. rewrite setNetBit_run, E. apply H. unfold below.
  pose proof (unmarked_update _ n s (status_set s (netBit ANALOG) true) E) as Hu.
  unfold cost in Hu at 2. rewrite isAnalog_set in Hu.
  assert (netStatus_v (set_netStatus_v (vupdate (netStatus_v d) n (status_set s (netBit ANALOG) true)) d)
    = vupdate (netStatus_v d) n (status_set s (netBit ANALOG) true)) as -> by (by destruct d).
  lia.
Qed.

Lemma readAnalog {A} n d s (f : bool -> DB A) :
  vlookup (netStatus_v d) n = Some s -> (getNetBit n ANALOG ≫= f) d = f (isAnalog s) d.
Proof. intros E. unfold mbind, M_bind. by rewrite getNetBit_run, E. Qed.

Lemma unmarked_bare n d : bare n d -> (0 < unmarked (netStatus_v d))%nat.
Proof.
  intros (s & E & Hs). pose proof (unmarked_update _ n s (status_set s (netBit ANALOG) true) E) as Hu.
  unfold cost in Hu. rewrite Hs, isAnalog_set in Hu. lia.
Qed.

Lemma analog_agree base fuel : forall k n g d s,
  vlookup (netStatus_v d) n = Some s -> (unmarked (netStatus_v d) <= k + cost s)%nat -> (k < fuel)%nat ->
  PropagateAnalogNetType fuel n g d = analogWith base fuel n g d /\
  match PropagateAnalogNetType fuel n g d with Ok (_, d') => below k d' | Err _ => True end.
Proof.
  induction fuel as [| fuel IH]; intros k n g d s E Hu Hk; [lia |].
  assert (forall n first next g, agree (below k)
    (analogByTerminal (PropagateAnalogNetType fuel) n first next g)
    (analogByTerminal (analogWith base fuel) n first next g)) as Hv.
  { intros. apply agree_byTerminal. intros x y d' Hd Hx. pose proof (unmarked_bare x d' Hx) as Hpos.
    destruct Hx as (z & Ez & Hz). unfold below in Hd.
    destruct (IH (k - 1)%nat x y d' z Ez) as [H1 H2]; [unfold cost; rewrite Hz; lia | lia |].
    split; [done |]. destruct (PropagateAnalogNetType fuel x y d') as [[[] d2] |]; [| done].
    unfold below in *. lia. }
  cbn [PropagateAnalogNetType analogWith]. cbv zeta.
  pose proof (fun m m' => mark_then k n d (A := unit) m m' s E Hu) as Hm.
  set (body := fun (f : Z -> Z -> DB unit) (b : bool) =>
    (_ ← when (g <? 1) (analogByTerminal f n firstGate_v nextGate_v (g + 1));
     when (negb b) (_ ← analogByTerminal f n firstSource_v nextSource_v g;
                    analogByTerminal f n firstDrain_v nextDrain_v g))).
  specialize (Hm (body (PropagateAnalogNetType fuel) (isAnalog s)) (body (analogWith base fuel) (isAnalog s))).
  rewrite !(readAnalog n d s _ E). apply Hm. unfold body.
  apply agree_bind; [by apply agree_when |]. intros ?. apply agree_when.
  apply agree_bind; [done |]. intros ?. apply Hv.
Qed.

(** The recursion of [PropagateAnalogNetType] ends.  With the fuel of
    [propagateAnalog], one more than the number of nets, the end of the fuel
    is never met: the result is the same whatever happens there. *)
Theorem PropagateAnalogNetType_ends base n g d :
  is_Some (vlookup (netStatus_v d) n) ->
  PropagateAnalogNetType (S (length (netStatus_v d))) n g d
  = analogWith base (S (length (netStatus_v d))) n g d.
Proof.
  intros [s E]. pose proof (unmarked_le (netStatus_v d)).
  by apply (analog_agree base _ (length (netStatus_v d)) n g d s E); lia.
Qed.

Lemma PropagateAnalogNetType_ends_witness :
  exists d, PropagateAnalogNetType 6 4 0 ExampleDb.exampleDb = Ok (tt, d) /\
  netStatus_v d <> netStatus_v ExampleDb.exampleDb /\
  PropagateAnalogNetType 6 4 0 ExampleDb.exampleDb = analogWith (fun _ _ => raise AssertionFailed) 6 4 0 ExampleDb.exampleDb.
Proof.
  assert (match PropagateAnalogNetType 6 4 0 ExampleDb.exampleDb with
          | Ok (_, d) => negb (bool_decide (netStatus_v d = netStatus_v ExampleDb.exampleDb))
          | Err _ => false end = true) as Hc by (vm_compute; reflexivity).
  pose proof (PropagateAnalogNetType_ends (fun _ _ => raise AssertionFailed) 4 0 ExampleDb.exampleDb
    ltac:(vm_compute; eexists; reflexivity)) as H.
  change (S (length (netStatus_v ExampleDb.exampleDb))) with 6%nat in H.
  destruct (PropagateAnalogNetType 6 4 0 ExampleDb.exampleDb) as [[[] d] | e]; [| discriminate Hc].
  exists d. split_and!; [reflexivity | | exact H]. apply negb_true_iff, bool_decide_eq_false in Hc. exact Hc.
Defined.

End Analog.
