(* ===== verification/Inverter.v ===== *)
(** * Inverter chains (CCvcDb.cc, CConnection.cc)

    [inverterNet_v] records for the output of an inverter the net of its
    input.  [SetInverters] replaces it by the net at the start of the chain of
    inverters and records in [highLow_v] the parity of the chain.  The chains
    may be loops (oscillators, latches): the recursion remembers every 1024th
    net it meets and stops when it meets one of them again. *)

From S2P Require Import Prelude CvcTypes VirtualNet Power Db ExampleDb Connection.
From stdpp Require Import base list gmap sets strings pretty.
From Stdlib Require Import ZArith Lia.
#[local] Open Scope Z_scope.

Module Inverter.
Import Power.Power Db.Db Connection.Connection.

(** ** The model *)

Definition remember (theLoopCount theNetId : Z) (theInverterNets : gset Z) : gset Z :=
  if Z.land theLoopCount 1023 =? 0 then {[theNetId]} ∪ theInverterNets else theInverterNets.

Fixpoint SetInverterHighLow (fuel : nat) (inv : list Z) (theNetId theLoopCount : Z)
    (hl : list bool) (theInverterNets : gset Z) : outcome (list bool * gset Z) :=
  match fuel with
  | O => throw OutOfFuel
  | S fuel =>
      myInputId ← vget inv theNetId;
      if myInputId =? UNKNOWN_NET then Ok (hl, theInverterNets)
      else if bool_decide (theNetId ∈ theInverterNets) then Ok (hl, theInverterNets)
      else
        '(hl, s) ← SetInverterHighLow fuel inv myInputId (u32 (theLoopCount + 1)) hl
                     (remember theLoopCount theNetId theInverterNets);
        b ← vget hl myInputId;
        hl ← vset hl theNetId (negb b);
        Ok (hl, s)
  end.

Fixpoint SetInverterInput (fuel : nat) (theNetId theLoopCount : Z) (inv : list Z)
    (theInverterNets : gset Z) : outcome (Z * list Z * gset Z) :=
  match fuel with
  | O => throw OutOfFuel
  | S fuel =>
      myInputId ← vget inv theNetId;
      if myInputId =? UNKNOWN_NET then Ok (theNetId, inv, theInverterNets)
      else if bool_decide (theNetId ∈ theInverterNets) then Ok (theNetId, inv, theInverterNets)
      else
        '(x, inv, s) ← SetInverterInput fuel myInputId (u32 (theLoopCount + 1)) inv
                         (remember theLoopCount theNetId theInverterNets);
        inv ← vset inv theNetId x;
        Ok (x, inv, s)
  end.

(** A net is remembered every 1024 calls, and no net twice. *)
Definition inverterFuel (inv : list Z) : nat := S (Z.to_nat (1024 * Z.of_nat (length inv))).

(** The two loop bodies of [SetInverters]. *)
Definition highLowStep (inv : list Z) (net_it : Z) (hl : list bool) : outcome (list bool) :=
  myInputId ← vget inv net_it;
  if myInputId =? UNKNOWN_NET then Ok hl
  else
    '(hl, _) ← SetInverterHighLow (inverterFuel inv) inv myInputId 0 hl ∅;
    b ← vget hl myInputId;
    vset hl net_it (negb b).

Definition inputStep (net_it : Z) (inv : list Z) : outcome (list Z) :=
  myInputId ← vget inv net_it;
  if myInputId =? UNKNOWN_NET then Ok inv
  else
    '(x, inv, _) ← SetInverterInput (inverterFuel inv) myInputId 0 inv ∅;
    vset inv net_it x.

(** The loops skip nets that are not the master of their equivalents. *)
Definition overMasters (step : Z -> DB unit) : DB unit :=
  forNets (fun net_it =>
    e ← GetEquivalentNet net_it;
    if net_it =? e then step net_it else mret tt).

Definition highLowBody (net_it : Z) : DB unit :=
  inv ← gets inverterNet_v;
  hl ← gets highLow_v;
  hl ← lift (highLowStep inv net_it hl);
  modify (set_highLow_v hl).

Definition inputBody (net_it : Z) : DB unit :=
  inv ← gets inverterNet_v;
  inv ← lift (inputStep net_it inv);
  modify (set_inverterNet_v inv).

Definition SetInverters : DB unit :=
  _ ← overMasters highLowBody; overMasters inputBody.

(** ** Termination *)

Definition inside {A} (v : list A) (n : Z) : Prop := 0 <= n < Z.of_nat (length v).

Definition inv_ok (inv : list Z) : Prop :=
  forall n x, vlookup inv n = Some x -> x = UNKNOWN_NET \/ inside inv x.

Definition within (inv : list Z) (s : gset Z) : Prop := forall n, n ∈ s -> inside inv n.

(** Calls left: until the next net is remembered, and 1024 for each net not
    yet remembered. *)
Definition callsLeft (inv : list Z) (c : Z) (s : gset Z) : Z :=
  1024 * (Z.of_nat (length inv) - Z.of_nat (size s)) + (- c) mod 1024.

Lemma within_size inv s : within inv s -> Z.of_nat (size s) <= Z.of_nat (length inv).
Proof.
  intros H. assert (s ⊆ list_to_set (seqZ 0 (Z.of_nat (length inv)))) as Hs.
  { intros n Hn. apply elem_of_list_to_set, elem_of_seqZ. apply H in Hn. unfold inside in Hn. lia. }
  apply subseteq_size in Hs. rewrite size_list_to_set in Hs by apply NoDup_seqZ.
  rewrite length_seqZ in Hs. lia.
Qed.

Lemma within_full inv s n : within inv s -> inside inv n -> n ∉ s -> Z.of_nat (size s) < Z.of_nat (length inv).
Proof.
  intros H Hn Hs. assert (within inv ({[n]} ∪ s)) as H'.
  { intros m. rewrite elem_of_union, elem_of_singleton. intros [-> | Hm]; [done | by apply H]. }
  apply within_size in H'. rewrite size_union, size_singleton in H' by set_solver. lia.
Qed.

Lemma remember_within inv c n s : within inv s -> inside inv n -> within inv (remember c n s).
Proof.
  intros H Hn. unfold remember. case_test; [| done]. intros m.
  rewrite elem_of_union, elem_of_singleton. intros [-> | Hm]; [done | by apply H].
Qed.

Lemma land_1023 c : Z.land c 1023 = c mod 1024.
Proof. change 1023 with (Z.ones 10). by rewrite Z.land_ones. Qed.

Lemma callsLeft_step inv c n s :
  within inv s -> inside inv n -> n ∉ s ->
  0 <= callsLeft inv (u32 (c + 1)) (remember c n s) < callsLeft inv c s.
Proof.
  intros H Hn Hs. pose proof (within_size _ _ (remember_within inv c n s H Hn)) as H1.
  pose proof (within_full _ _ _ H Hn Hs) as H2. revert H1.
  unfold callsLeft, remember. rewrite land_1023.
  assert ((- u32 (c + 1)) mod 1024 = (- (c + 1)) mod 1024) as ->.
  { unfold wrap_u. change (2 ^ 32) with (1024 * 4194304).
    rewrite Z.rem_mul_r by lia.
    replace (- ((c + 1) mod 1024 + 1024 * (((c + 1) / 1024) mod 4194304)))
      with (- ((c + 1) mod 1024) + (- (((c + 1) / 1024) mod 4194304)) * 1024) by lia.
    rewrite Z.mod_add by lia.
    Z.to_euclidean_division_equations. lia. }
  destruct (Z.eqb_spec (c mod 1024) 0) as [E | E]; intros H1.
  - rewrite size_union, size_singleton in H1 |- * by set_solver.
    Z.to_euclidean_division_equations. lia.
  - Z.to_euclidean_division_equations. lia.
Qed.

Lemma callsLeft_start inv : callsLeft inv 0 ∅ < Z.of_nat (inverterFuel inv).
Proof.
  unfold callsLeft, inverterFuel. rewrite size_empty. change ((- 0) mod 1024) with 0. lia.
Qed.

#[local] Opaque inverterFuel.

Lemma inside_vget {A} (v : list A) n : inside v n -> exists x, vget v n = Ok x /\ vlookup v n = Some x.
Proof.
  intros H. apply vlookup_is_Some in H as [x E]. exists x. split; [by apply vget_Ok | done].
Qed.

Lemma SetInverterHighLow_total fuel inv : forall n c hl s,
  inv_ok inv -> length hl = length inv -> within inv s -> inside inv n ->
  callsLeft inv c s < Z.of_nat fuel ->
  exists hl' s', SetInverterHighLow fuel inv n c hl s = Ok (hl', s') /\ length hl' = length inv.
Proof.
  induction fuel as [| fuel IH]; intros n c hl s Hinv Hlen Hs Hn Hf.
  { pose proof (within_size _ _ Hs). unfold callsLeft in Hf.
    pose proof (Z.mod_pos_bound (- c) 1024). lia. }
  simpl. destruct (inside_vget inv n Hn) as (x & Ex & Lx). rewrite Ex. simpl.
  destruct (Z.eqb_spec x UNKNOWN_NET) as [| Hx]; [by exists hl, s |].
  case_bool_decide as Hin; [by exists hl, s |].
  destruct (Hinv n x Lx) as [| Hx']; [done |].
  destruct (IH x (u32 (c + 1)) hl (remember c n s)) as (hl' & s' & -> & Hl); try done.
  { by apply remember_within. }
  { pose proof (callsLeft_step inv c n s Hs Hn Hin). lia. }
  simpl. destruct (inside_vget hl' x) as (b & -> & _); [unfold inside in *; lia |]. simpl.
  rewrite vset_in_range by (unfold inside in *; lia). simpl.
  eexists _, _. split; [done |]. by rewrite vupdate_length.
Qed.

Lemma inv_ok_update inv n x : inv_ok inv -> inside inv x -> inv_ok (vupdate inv n x).
Proof.
  intros H Hx m y. unfold inside in *. rewrite vlookup_vupdate, vupdate_length.
  destruct (n =? m); [| by apply H]. destruct (in_range inv n); [intros [= <-]; auto | done].
Qed.

Lemma SetInverterInput_total fuel : forall inv n c s,
  inv_ok inv -> within inv s -> inside inv n -> callsLeft inv c s < Z.of_nat fuel ->
  exists x inv' s', SetInverterInput fuel n c inv s = Ok (x, inv', s') /\
    length inv' = length inv /\ inv_ok inv' /\ inside inv x.
Proof.
  induction fuel as [| fuel IH]; intros inv n c s Hinv Hs Hn Hf.
  { pose proof (within_size _ _ Hs). unfold callsLeft in Hf.
    pose proof (Z.mod_pos_bound (- c) 1024). lia. }
  simpl. destruct (inside_vget inv n Hn) as (x & Ex & Lx). rewrite Ex. simpl.
  destruct (Z.eqb_spec x UNKNOWN_NET) as [| Hx]; [by eexists _, _, _ |].
  case_bool_decide as Hin; [by eexists _, _, _ |].
  destruct (Hinv n x Lx) as [| Hx']; [done |].
  destruct (IH inv x (u32 (c + 1)) (remember c n s)) as (y & inv' & s' & -> & Hl & Hi & Hy); try done.
  { by apply remember_within. }
  { pose proof (callsLeft_step inv c n s Hs Hn Hin). lia. }
  simpl. rewrite vset_in_range by (unfold inside in *; lia). simpl.
  eexists _, _, _. split_and!; [done | by rewrite vupdate_length | | done].
  apply inv_ok_update; [done |]. unfold inside in *. lia.
Qed.

(** ** Chains without loops *)

(** [chain inv n r k]: [k] inverters lead from net [r] to net [n]. *)
Inductive chain (inv : list Z) : Z -> Z -> nat -> Prop :=
| chain_root n : vlookup inv n = Some UNKNOWN_NET -> chain inv n n 0
| chain_step n x r k :
    vlookup inv n = Some x -> x <> UNKNOWN_NET -> chain inv x r k -> chain inv n r (S k).

Lemma chain_fun inv n r k : chain inv n r k -> forall r' k', chain inv n r' k' -> r = r' /\ k = k'.
Proof.
  induction 1 as [n E | n x r k E Hx _ IH]; intros r' k' H'; inversion H'; simplify_eq; [done |].
  destruct (IH r' k0) as [-> ->]; done.
Qed.

Lemma chain_end inv n r k : chain inv n r k -> vlookup inv r = Some UNKNOWN_NET.
Proof. by induction 1. Qed.

(** The parity a net must get, the nets at the start of a chain having the
    value [vector<bool>::resize] gives them. *)
Definition right (inv : list Z) (hl : list bool) (n : Z) : Prop :=
  forall r k, chain inv n r k -> vlookup hl n = Some (Nat.odd k).

Definition rootsRight (inv : list Z) (hl : list bool) : Prop :=
  forall n, vlookup inv n = Some UNKNOWN_NET -> vlookup hl n = Some false.

Definition onlyRight (inv : list Z) (hl hl' : list bool) : Prop :=
  length hl' = length hl /\ forall n, vlookup hl' n = vlookup hl n \/ right inv hl' n.

Lemma right_set inv hl n x r k :
  length hl = length inv -> rootsRight inv hl ->
  vlookup inv n = Some x -> x <> UNKNOWN_NET -> chain inv x r k -> vlookup hl x = Some (Nat.odd k) ->
  let hl' := vupdate hl n (negb (Nat.odd k)) in
  rootsRight inv hl' /\ right inv hl' n /\ onlyRight inv hl hl'.
Proof.
  intros Hlen Hr En Hx Hc Hv hl'. subst hl'.
  assert (in_range hl n = true) as Hin.
  { apply in_range_spec. rewrite Hlen. by eapply vlookup_range. }
  assert (right inv (vupdate hl n (negb (Nat.odd k))) n) as Hn.
  { intros r' k' H'. rewrite vlookup_vupdate, Z.eqb_refl, Hin.
    destruct (chain_fun _ _ _ _ (chain_step inv n x r k En Hx Hc) _ _ H') as [_ <-].
    by rewrite Nat.odd_succ, <- Nat.negb_odd. }
  split_and!; [| exact Hn |].
  - intros m Hm. rewrite vlookup_vupdate_ne; [by apply Hr | congruence].
  - split; [apply vupdate_length |]. intros m. destruct (decide (m = n)) as [-> | Hne]; [by right |].
    left. by rewrite vlookup_vupdate_ne.
Qed.

Lemma onlyRight_trans inv a b c : onlyRight inv a b -> onlyRight inv b c -> onlyRight inv a c.
Proof.
  intros [L1 H1] [L2 H2]. split; [congruence |]. intros n.
  destruct (H2 n) as [E | H]; [| by right]. destruct (H1 n) as [E' | H]; [left; congruence |].
  right. intros r k Hc. rewrite E. by eapply H.
Qed.

Lemma onlyRight_right inv a b n : onlyRight inv a b -> right inv a n -> right inv b n.
Proof.
  intros [_ H] Hr. destruct (H n) as [E | ?]; [| done]. intros r k Hc. rewrite E. by eapply Hr.
Qed.

(** Nets already remembered lie further from the start of the chain. *)
Definition behind (inv : list Z) (s : gset Z) (k : nat) : Prop :=
  forall m r' k', m ∈ s -> chain inv m r' k' -> (k < k')%nat.

Lemma remember_behind inv c n s x r k :
  vlookup inv n = Some x -> x <> UNKNOWN_NET -> chain inv x r k -> behind inv s (S k) ->
  behind inv (remember c n s) k.
Proof.
  intros En Hx Hc Hb m r' k' Hm Hc'. unfold remember in Hm.
  assert (m = n \/ m ∈ s) as [-> | Hs] by (destruct (_ =? 0); set_solver).
  - destruct (chain_fun _ _ _ _ (chain_step inv n x r k En Hx Hc) _ _ Hc') as [_ <-]. lia.
  - specialize (Hb m r' k' Hs Hc'). lia.
Qed.

Lemma SetInverterHighLow_right fuel inv : forall n c hl s r k hl' s',
  length hl = length inv -> rootsRight inv hl -> chain inv n r k -> behind inv s k ->
  SetInverterHighLow fuel inv n c hl s = Ok (hl', s') ->
  rootsRight inv hl' /\ right inv hl' n /\ onlyRight inv hl hl'.
Proof.
  induction fuel as [| fuel IH]; intros n c hl s r k hl' s' Hlen Hr Hc Hb; [done |]. simpl.
  inversion Hc as [? E | ? x ? k0 E Hx Hc0]; subst; rewrite (proj2 (vget_Ok _ _ _) E); simpl.
  { intros [= <- <-]. split_and!; [done | | split; auto]. intros r' k' Hk. rewrite (Hr _ E).
    destruct (chain_fun _ _ _ _ Hc _ _ Hk) as [_ <-]. done. }
  rewrite (proj2 (Z.eqb_neq x UNKNOWN_NET) Hx).
  case_bool_decide as Hin.
  { specialize (Hb n r (S k0) Hin Hc). lia. }
  intros H. inv_ok H. destruct a as [hl1 s1].
  destruct (IH x _ hl _ r k0 hl1 s1 Hlen Hr Hc0 (remember_behind inv c n s x r k0 E Hx Hc0 Hb) Ha)
    as (Hr1 & Hx1 & Ho).
  unfold vget in H. rewrite (Hx1 r k0 Hc0) in H. simpl in H. inv_ok H. injection H as -> ->.
  apply vset_Ok in Ha0 as [_ ->].
  destruct (right_set inv hl1 n x r k0) as (H1 & H2 & H3); try done.
  { destruct Ho. congruence. }
  { by eapply Hx1. }
  split_and!; [done | done |]. by eapply onlyRight_trans.
Qed.

Lemma highLowStep_right inv n hl :
  inv_ok inv -> (forall m, inside inv m -> exists r k, chain inv m r k) -> length hl = length inv ->
  rootsRight inv hl -> inside inv n ->
  exists hl', highLowStep inv n hl = Ok hl' /\ rootsRight inv hl' /\ right inv hl' n /\ onlyRight inv hl hl'.
Proof.
  intros Hinv Hch Hlen Hr Hn. unfold highLowStep.
  destruct (Hch n Hn) as (r & k & Hc). inversion Hc as [? E | ? x ? k0 E Hx Hc0]; subst;
    rewrite (proj2 (vget_Ok _ _ _) E); simpl.
  { exists hl. split_and!; [done | done | | by split; auto]. intros r' k' Hk. rewrite (Hr _ E).
    destruct (chain_fun _ _ _ _ Hc _ _ Hk) as [_ <-]. done. }
  rewrite (proj2 (Z.eqb_neq x UNKNOWN_NET) Hx).
  destruct (Hinv n x E) as [| Hx']; [done |].
  destruct (SetInverterHighLow_total (inverterFuel inv) inv x 0 hl ∅) as (hl1 & s1 & Es & Hl);
    try done; [apply callsLeft_start |].
  rewrite Es. simpl.
  destruct (SetInverterHighLow_right (inverterFuel inv) inv x 0 hl ∅ r k0 hl1 s1) as (Hr1 & Hx1 & Ho); try done.
  unfold vget. rewrite (Hx1 r k0 Hc0). simpl.
  rewrite vset_in_range by (unfold inside in *; lia).
  destruct (right_set inv hl1 n x r k0) as (H1 & H2 & H3); try done; [by eapply Hx1 |].
  eexists. split_and!; [done | done | done |]. by eapply onlyRight_trans.
Qed.

(** ** Chain starts *)

(** [inv'] has the chains of [inv], possibly shortened. *)
Definition sameStarts (inv inv' : list Z) : Prop :=
  length inv' = length inv /\
  (forall n, vlookup inv n = Some UNKNOWN_NET <-> vlookup inv' n = Some UNKNOWN_NET) /\
  (forall n r k, chain inv n r k -> exists k', (k' <= k)%nat /\ chain inv' n r k').

Definition direct (inv : list Z) (n : Z) : Prop :=
  forall r k, chain inv n r k -> (k <= 1)%nat.

Lemma sameStarts_refl inv : sameStarts inv inv.
Proof. split_and!; [done | done |]. eauto. Qed.

Lemma sameStarts_trans a b c : sameStarts a b -> sameStarts b c -> sameStarts a c.
Proof.
  intros (L1 & U1 & C1) (L2 & U2 & C2). split_and!; [congruence | intros n; by rewrite U1 |].
  intros n r k H. destruct (C1 n r k H) as (k' & ? & H'). destruct (C2 n r k' H') as (k'' & ? & ?).
  exists k''. split; [lia | done].
Qed.

Lemma sameStarts_set inv n x r k :
  vlookup inv n = Some x -> x <> UNKNOWN_NET -> chain inv n r k -> inside inv r -> r <> UNKNOWN_NET ->
  sameStarts inv (vupdate inv n r) /\ chain (vupdate inv n r) n r 1.
Proof.
  intros En Hx Hc Hr Hru.
  assert (in_range inv n = true) as Hin by (apply in_range_spec; by eapply vlookup_range).
  assert (r <> n) as Hrn by (intros ->; apply chain_end in Hc; congruence).
  assert (chain (vupdate inv n r) n r 1) as Hd.
  { eapply chain_step; [by rewrite vlookup_vupdate, Z.eqb_refl, Hin | done |].
    apply chain_root. rewrite vlookup_vupdate_ne by done. by eapply chain_end. }
  split; [| exact Hd]. split_and!; [apply vupdate_length | |].
  - intros m. rewrite vlookup_vupdate. destruct (Z.eqb_spec n m) as [<- | _]; [| done].
    rewrite En, Hin. split; congruence.
  - intros m r' k' H'. induction H' as [m E | m y r' k' E Hy H' (k0 & ? & IH)].
    + exists 0%nat. split; [done |]. apply chain_root. rewrite vlookup_vupdate_ne; [done | congruence].
    + destruct (decide (m = n)) as [-> | Hne].
      * exists 1%nat. split; [lia |].
        destruct (chain_fun _ _ _ _ (chain_step inv n y r' k' E Hy H') _ _ Hc) as [-> _]. done.
      * exists (S k0). split; [lia |]. eapply chain_step; [| done | done].
        by rewrite vlookup_vupdate_ne.
Qed.

Lemma direct_keep inv inv' n : (forall m, inside inv m -> exists r k, chain inv m r k) ->
  sameStarts inv inv' -> direct inv n -> direct inv' n.
Proof.
  intros Hch (Hl & _ & Hs) Hd r k Hc.
  assert (inside inv n) as Hn.
  { unfold inside. rewrite <- Hl. destruct Hc; by eapply vlookup_range. }
  destruct (Hch n Hn) as (r0 & k0 & H0). pose proof (Hd _ _ H0).
  destruct (Hs n r0 k0 H0) as (k1 & ? & H1). destruct (chain_fun _ _ _ _ H1 _ _ Hc) as [_ <-]. lia.
Qed.

Definition small (inv : list Z) : Prop := Z.of_nat (length inv) <= UNKNOWN_NET.

Lemma chain_inside inv n r k : chain inv n r k -> inside inv r.
Proof. intros H. apply chain_end in H. by eapply vlookup_range. Qed.

Lemma inside_known inv n : small inv -> inside inv n -> n <> UNKNOWN_NET.
Proof. unfold small, inside. lia. Qed.

Lemma SetInverterInput_start fuel : forall inv n c s r k x inv' s',
  small inv -> chain inv n r k -> behind inv s k ->
  SetInverterInput fuel n c inv s = Ok (x, inv', s') -> x = r /\ sameStarts inv inv'.
Proof.
  induction fuel as [| fuel IH]; intros inv n c s r k x inv' s' Hsm Hc Hb; [done |]. simpl.
  pose proof (chain_inside _ _ _ _ Hc) as Hrin.
  inversion Hc as [? E | ? y ? k0 E Hy Hc0]; subst; rewrite (proj2 (vget_Ok _ _ _) E); simpl.
  { intros [= <- <- _]. split; [done | apply sameStarts_refl]. }
  rewrite (proj2 (Z.eqb_neq y UNKNOWN_NET) Hy).
  case_bool_decide as Hin.
  { specialize (Hb n r (S k0) Hin Hc). lia. }
  intros H. inv_ok H. destruct a as [[x1 inv1] s1].
  destruct (IH inv y _ _ r k0 x1 inv1 s1 Hsm Hc0 (remember_behind inv c n s y r k0 E Hy Hc0 Hb) Ha)
    as [-> Hs].
  simpl in H. inv_ok H. injection H as -> <- _. apply vset_Ok in Ha0 as [_ ->].
  split; [done |]. eapply sameStarts_trans; [exact Hs |].
  destruct Hs as (Hl & Hu & Hk). destruct (Hk n _ (S k0) Hc) as (k1 & _ & H1).
  destruct (vlookup inv1 n) as [z |] eqn:Ez; [| by destruct H1; congruence].
  eapply (sameStarts_set inv1 n z x k1); try done.
  - intros ->. apply Hu in Ez. congruence.
  - unfold inside in *. lia.
  - eapply (inside_known inv); [done |]. unfold inside in *. lia.
Qed.

Lemma inputStep_start inv0 inv n :
  small inv0 -> inv_ok inv0 -> (forall m, inside inv0 m -> exists r k, chain inv0 m r k) ->
  sameStarts inv0 inv -> inv_ok inv -> inside inv0 n ->
  exists inv', inputStep n inv = Ok inv' /\ inv_ok inv' /\ sameStarts inv0 inv' /\
    sameStarts inv inv' /\ direct inv' n.
Proof.
  intros Hsm Hok Hch Hs Hinv Hn. destruct (Hch n Hn) as (r & k & H0).
  pose proof Hs as (Hl & _ & Hk). destruct (Hk n r k H0) as (k1 & _ & Hc). unfold inputStep.
  assert (small inv) as Hsm' by (unfold small in *; lia).
  inversion Hc as [? E | ? x ? k0 E Hx Hc0]; subst; rewrite (proj2 (vget_Ok _ _ _) E); simpl.
  { exists inv. split_and!; [done | done | done | apply sameStarts_refl |]. intros r' k' H'.
    destruct (chain_fun _ _ _ _ Hc _ _ H') as [_ <-]. lia. }
  rewrite (proj2 (Z.eqb_neq x UNKNOWN_NET) Hx).
  destruct (Hinv n x E) as [| Hx']; [done |].
  destruct (SetInverterInput_total (inverterFuel inv) inv x 0 ∅) as (y & inv1 & s1 & Es & Hl1 & Hi1 & Hy);
    try done; [apply callsLeft_start |].
  rewrite Es. simpl.
  destruct (SetInverterInput_start (inverterFuel inv) inv x 0 ∅ r k0 y inv1 s1) as [-> Hs1]; try done.
  rewrite vset_in_range by (unfold inside in *; lia).
  pose proof Hs1 as (_ & Hu1 & Hk1). destruct (Hk1 n r (S k0) Hc) as (k2 & _ & Hc2).
  assert (exists z, vlookup inv1 n = Some z /\ z <> UNKNOWN_NET) as (z & Ez & Hz).
  { destruct (vlookup inv1 n) as [z |] eqn:Ez; [| by destruct Hc2; congruence].
    exists z. split; [done |]. intros ->. apply Hu1 in Ez. congruence. }
  destruct (sameStarts_set inv1 n z r k2 Ez Hz Hc2) as [Hs2 Hd].
  { unfold inside in *. lia. }
  { eapply (inside_known inv); done. }
  exists (vupdate inv1 n r). split_and!; [done | | | |].
  - apply inv_ok_update; [done |]. unfold inside in *. lia.
  - eapply sameStarts_trans; [exact Hs |]. by eapply sameStarts_trans.
  - by eapply sameStarts_trans.
  - intros r' k' H'. destruct (chain_fun _ _ _ _ Hd _ _ H') as [_ <-]. lia.
Qed.

(** ** The whole pass *)

Definition with_inverters (inv : list Z) (hl : list bool) (d : CCvcDb) : CCvcDb :=
  set_inverterNet_v inv (set_highLow_v hl d).

(** The database holds one entry per net and knows the master of each net. *)
Record inverters_ready (d : CCvcDb) : Prop := {
  ready_count : netCount (netlist d) = Z.of_nat (length (inverterNet_v d));
  ready_highLow : length (highLow_v d) = length (inverterNet_v d);
  ready_small : small (inverterNet_v d);
  ready_inputs : inv_ok (inverterNet_v d);
  ready_masters n : inside (inverterNet_v d) n -> exists x, GetEquivalentNet n d = Ok (x, d)
}.

Lemma overMasters_inv (P : Z -> list Z -> list bool -> Prop) step d :
  inverters_ready d ->
  P 0 (inverterNet_v d) (highLow_v d) ->
  (forall n inv hl, inside (inverterNet_v d) n -> P n inv hl ->
     (GetEquivalentNet n d <> Ok (n, d) -> P (n + 1) inv hl) /\
     (exists inv' hl', step n (with_inverters inv hl d) = Ok (tt, with_inverters inv' hl' d) /\
        P (n + 1) inv' hl')) ->
  exists inv' hl', overMasters step d = Ok (tt, with_inverters inv' hl' d) /\
    P (netCount (netlist d)) inv' hl'.
Proof.
  intros Hd H0 Hstep.
  assert (forall inv hl inv' hl', with_inverters inv hl (with_inverters inv' hl' d) = with_inverters inv hl d)
    as Hw by (intros; by destruct d).
  destruct (forRange_inv (fun j x => exists inv hl, x = with_inverters inv hl d /\ P j inv hl)
    (fun net_it => e ← GetEquivalentNet net_it; if net_it =? e then step net_it else mret tt)
    (Z.to_nat (netCount (netlist d))) 0 d) as (d' & E & inv' & hl' & -> & HP).
  - exists (inverterNet_v d), (highLow_v d). split; [by destruct d | done].
  - rewrite (ready_count d Hd). intros j x Hj (inv & hl & -> & HP).
    assert (inside (inverterNet_v d) j) as Hin by (unfold inside; lia).
    destruct (ready_masters d Hd j Hin) as (e & Ee).
    destruct (Hstep j inv hl Hin HP) as [H1 (inv1 & hl1 & E1 & H2)].
    assert (GetEquivalentNet j (with_inverters inv hl d) = Ok (e, with_inverters inv hl d)) as Ee'
      by (eapply GetEquivalentNet_frame; [.. | exact Ee]; by destruct d).
    unfold mbind, M_bind. rewrite Ee'. destruct (Z.eqb_spec j e) as [-> | Hne].
    + exists (with_inverters inv1 hl1 d). split; [done | eauto].
    + exists (with_inverters inv hl d). split; [done |]. exists inv, hl. split; [done |].
      apply H1. rewrite Ee. congruence.
  - exists inv', hl'. unfold overMasters, forNets, nl, gets, mbind at 1, M_bind at 1.
    rewrite E. split; [done |].
    replace (netCount (netlist d)) with (0 + Z.of_nat (Z.to_nat (netCount (netlist d)))); [done |].
    rewrite (ready_count d Hd). lia.
Qed.

Lemma inverters_ready_with d inv hl :
  inverters_ready d -> length inv = length (inverterNet_v d) -> length hl = length inv -> inv_ok inv ->
  inverters_ready (with_inverters inv hl d).
Proof.
  intros [H1 H2 H3 H4 H5] Hi Hh Hok. assert (inverterNet_v (with_inverters inv hl d) = inv) as E by (by destruct d).
  split; rewrite ?E; unfold small, inside in *.
  - rewrite Hi, <- H1. by destruct d.
  - rewrite <- Hh. by destruct d.
  - rewrite Hi. exact H3.
  - exact Hok.
  - intros n. rewrite Hi. intros Hn. destruct (H5 n Hn) as (x & Ex). exists x.
    eapply GetEquivalentNet_frame; [.. | exact Ex]; by destruct d.
Qed.

Lemma highLowBody_run n inv hl hl' d :
  highLowStep inv n hl = Ok hl' ->
  highLowBody n (with_inverters inv hl d) = Ok (tt, with_inverters inv hl' d).
Proof.
  intros E. unfold highLowBody, mbind, M_bind, gets, lift, modify. destruct d; simpl in *. by rewrite E.
Qed.

Lemma inputBody_run n inv hl inv' d :
  inputStep n inv = Ok inv' -> inputBody n (with_inverters inv hl d) = Ok (tt, with_inverters inv' hl d).
Proof.
  intros E. unfold inputBody, mbind, M_bind, gets, lift, modify. destruct d; simpl in *. by rewrite E.
Qed.

Lemma highLowStep_total inv n hl :
  inv_ok inv -> length hl = length inv -> inside inv n ->
  exists hl', highLowStep inv n hl = Ok hl' /\ length hl' = length inv.
Proof.
  intros Hinv Hlen Hn. unfold highLowStep. destruct (inside_vget inv n Hn) as (x & -> & Lx). simpl.
  destruct (Z.eqb_spec x UNKNOWN_NET) as [| Hx]; [by exists hl |].
  destruct (Hinv n x Lx) as [| Hx']; [done |].
  destruct (SetInverterHighLow_total (inverterFuel inv) inv x 0 hl ∅) as (hl1 & s1 & -> & Hl);
    try done; [apply callsLeft_start |].
  simpl. destruct (inside_vget hl1 x) as (b & -> & _); [unfold inside in *; lia |]. simpl.
  rewrite vset_in_range by (unfold inside in *; lia). eexists. split; [done |].
  by rewrite vupdate_length.
Qed.

Lemma inputStep_total inv n :
  inv_ok inv -> inside inv n ->
  exists inv', inputStep n inv = Ok inv' /\ length inv' = length inv /\ inv_ok inv'.
Proof.
  intros Hinv Hn. unfold inputStep. destruct (inside_vget inv n Hn) as (x & -> & Lx). simpl.
  destruct (Z.eqb_spec x UNKNOWN_NET) as [| Hx]; [by exists inv |].
  destruct (Hinv n x Lx) as [| Hx']; [done |].
  destruct (SetInverterInput_total (inverterFuel inv) inv x 0 ∅) as (y & inv1 & s1 & -> & Hl & Hi & Hy);
    try done; [apply callsLeft_start |].
  simpl. rewrite vset_in_range by (unfold inside in *; lia). eexists.
  split_and!; [done | by rewrite vupdate_length |]. apply inv_ok_update; [done |].
  unfold inside in *. lia.
Qed.

(** Both passes, each with an invariant of the nets visited so far. *)
Lemma SetInverters_run d (P : Z -> list bool -> Prop) (Q : Z -> list Z -> list bool -> Prop) :
  inverters_ready d -> P 0 (highLow_v d) ->
  (forall n hl, inside (inverterNet_v d) n -> P n hl ->
     (GetEquivalentNet n d <> Ok (n, d) -> P (n + 1) hl) /\
     exists hl', highLowStep (inverterNet_v d) n hl = Ok hl' /\ P (n + 1) hl') ->
  (forall n hl, P n hl -> length hl = length (inverterNet_v d)) ->
  (forall hl, P (netCount (netlist d)) hl -> Q 0 (inverterNet_v d) hl) ->
  (forall n inv hl, inside (inverterNet_v d) n -> Q n inv hl ->
     (GetEquivalentNet n d <> Ok (n, d) -> Q (n + 1) inv hl) /\
     exists inv', inputStep n inv = Ok inv' /\ Q (n + 1) inv' hl) ->
  exists inv' hl', SetInverters d = Ok (tt, with_inverters inv' hl' d) /\
    Q (netCount (netlist d)) inv' hl'.
Proof.
  intros Hd P0 HP Hlen HPQ HQ.
  destruct (overMasters_inv (fun n inv hl => inv = inverterNet_v d /\ P n hl) highLowBody d Hd)
    as (inv1 & hl1 & E1 & -> & H1); [done | |].
  { intros n inv hl Hn [-> Hp]. destruct (HP n hl Hn Hp) as [H1 (hl' & E & H2)]. split; [auto |].
    exists (inverterNet_v d), hl'. split; [by apply highLowBody_run | done]. }
  set (d1 := with_inverters (inverterNet_v d) hl1 d) in *.
  assert (inverterNet_v d1 = inverterNet_v d /\ highLow_v d1 = hl1 /\ netlist d1 = netlist d) as (F1 & F2 & F3)
    by (subst d1; by destruct d).
  assert (forall inv hl, with_inverters inv hl d1 = with_inverters inv hl d) as Hw
    by (intros; subst d1; by destruct d).
  assert (forall n, GetEquivalentNet n d = Ok (n, d) -> GetEquivalentNet n d1 = Ok (n, d1)) as Hg
    by (intros n; apply GetEquivalentNet_frame; subst d1; by destruct d).
  destruct (overMasters_inv Q inputBody d1) as (inv2 & hl2 & E2 & H2).
  - apply inverters_ready_with; [done | done | by eapply Hlen | by destruct Hd].
  - rewrite F1, F2. by apply HPQ.
  - intros n inv hl Hn Hq. rewrite F1 in Hn. destruct (HQ n inv hl Hn Hq) as [H2 (inv' & E & H3)].
    split; [intros Hne; apply H2; intros Hx; by apply Hne, Hg |]. exists inv', hl. rewrite !Hw.
    split; [by apply inputBody_run | done].
  - exists inv2, hl2. rewrite Hw in E2. rewrite F3 in H2. split; [| done].
    unfold SetInverters, mbind, M_bind. by rewrite E1.
Qed.

(** [SetInverters] ends on any inverter graph, loops (oscillators,
    latches) included: the recursion never runs longer than 1024 calls per net. *)
Theorem SetInverters_terminates d :
  inverters_ready d ->
  exists inv hl, SetInverters d = Ok (tt, with_inverters inv hl d) /\
    length inv = length (inverterNet_v d) /\ length hl = length (highLow_v d).
Proof.
  intros Hd. pose proof Hd as [H1 H2 H3 H4 H5].
  destruct (SetInverters_run d (fun _ hl => length hl = length (inverterNet_v d))
    (fun _ inv hl => length inv = length (inverterNet_v d) /\ inv_ok inv /\
                     length hl = length (highLow_v d))) as (inv & hl & E & Hl & _ & Hh); try done.
  - intros n hl Hn Hlen. split; [done |]. destruct (highLowStep_total (inverterNet_v d) n hl) as (hl' & ? & ?);
      try done. by exists hl'.
  - intros hl Hlen. split_and!; [done | done | congruence].
  - intros n inv hl Hn (Hl & Hok & Hh). split; [done |].
    destruct (inputStep_total inv n Hok) as (inv' & E & Hl' & Hok'); [unfold inside in *; lia |].
    exists inv'. split_and!; [done | congruence | done | done].
  - by exists inv, hl.
Qed.

(** Masters get the start and the parity of their chain. *)
Lemma inverter_chains d :
  inverters_ready d ->
  (forall n, inside (inverterNet_v d) n -> exists r k, chain (inverterNet_v d) n r k) ->
  rootsRight (inverterNet_v d) (highLow_v d) ->
  exists inv hl, SetInverters d = Ok (tt, with_inverters inv hl d) /\
    forall n r k, GetEquivalentNet n d = Ok (n, d) -> chain (inverterNet_v d) n r k ->
      vlookup hl n = Some (Nat.odd k) /\
      vlookup inv n = Some (if (k =? 0)%nat then UNKNOWN_NET else r).
Proof.
  intros Hd Hch Hr. pose proof Hd as [H1 H2 H3 H4 H5].
  set (inv0 := inverterNet_v d) in *.
  destruct (SetInverters_run d
    (fun i hl => length hl = length inv0 /\ rootsRight inv0 hl /\
       forall n, 0 <= n < i -> GetEquivalentNet n d = Ok (n, d) -> right inv0 hl n)
    (fun i inv hl => inv_ok inv /\ sameStarts inv0 inv /\
       (forall n, 0 <= n < i -> GetEquivalentNet n d = Ok (n, d) -> direct inv n) /\
       forall n, inside inv0 n -> GetEquivalentNet n d = Ok (n, d) -> right inv0 hl n))
    as (inv & hl & E & Hok & Hs & Hdir & Hright); try done.
  - split_and!; [done | done |]. intros. lia.
  - intros n hl Hn (Hl & Hrr & Hp). split.
    { intros Hne. split_and!; [done | done |]. intros m Hm Em. apply Hp; [| done].
      destruct (decide (m = n)); [congruence | lia]. }
    destruct (highLowStep_right inv0 n hl) as (hl' & E' & Hrr' & Hn' & Ho); try done.
    exists hl'. split_and!; [done | destruct Ho; congruence | done |]. intros m Hm Em.
    destruct (decide (m = n)) as [-> | ?]; [done |]. eapply onlyRight_right; [done |]. apply Hp; [lia | done].
  - intros n hl (? & _). done.
  - intros hl (Hl & Hrr & Hp). split_and!; [done | apply sameStarts_refl | intros; lia |].
    intros n Hn. apply Hp. rewrite H1. exact Hn.
  - intros n inv hl Hn (Hok & Hs & Hdir & Hri). split.
    { intros Hne. split_and!; [done | done | | done]. intros m Hm Em. apply Hdir; [| done].
      destruct (decide (m = n)); [congruence | lia]. }
    destruct (inputStep_start inv0 inv n) as (inv' & E' & Hok' & Hs' & Hs2 & Hd'); try done.
    exists inv'. split_and!; [done | done | done | | done]. intros m Hm Em.
    destruct (decide (m = n)) as [-> | ?]; [done |]. eapply direct_keep; [| done | apply Hdir; [lia | done]].
    intros x Hx. destruct Hs as (Hl & _ & Hk). destruct (Hch x) as (r & k & Hc); [unfold inside in *; lia |].
    destruct (Hk x r k Hc) as (k' & _ & Hc'). eauto.
  - exists inv, hl. split; [done |]. intros n r k En Hc.
    assert (inside inv0 n) as Hn by (destruct Hc; by eapply vlookup_range).
    split; [by eapply Hright |]. destruct Hs as (_ & Hu & Hk).
    destruct (Hk n r k Hc) as (k' & Hle & Hc').
    assert (k' <= 1)%nat as Hk1 by (eapply Hdir; [rewrite H1; exact Hn | done | done]).
    destruct Hc' as [n E0 | n x r k' Ex Hx Hc'].
    + apply Hu in E0. inversion Hc; simplify_eq. simpl. by apply Hu.
    + assert (k' = 0%nat) as -> by lia. inversion Hc'; subst.
      destruct k; [apply chain_end in Hc as Hx'; inversion Hc; simplify_eq; apply Hu in Hx'; congruence |]. done.
Qed.

(** C34: without loops, [SetInverters] gives every master net the net at the
    start of its inverter chain and the parity of the chain. *)
Theorem SetInverters_chains d :
  inverters_ready d ->
  (forall n, inside (inverterNet_v d) n -> exists r k, chain (inverterNet_v d) n r k) ->
  rootsRight (inverterNet_v d) (highLow_v d) ->
  exists inv hl, SetInverters d = Ok (tt, with_inverters inv hl d) /\
    forall n r k, GetEquivalentNet n d = Ok (n, d) -> chain (inverterNet_v d) n r k ->
      vlookup hl n = Some (Nat.odd k) /\
      vlookup inv n = Some (if (k =? 0)%nat then UNKNOWN_NET else r).
Proof. exact (inverter_chains d). Qed.

(** ** Transfer gates *)

(** The sign [IsTransferGate] gives a net [k] inverters away from the start of
    its chain: the start itself counts as an odd distance. *)
Definition polarity (k : nat) : bool := if (k =? 0)%nat then true else Nat.odd k.

Definition signed (b : bool) (r : Z) : string := ((if b then "+" else "-") +:+ pretty r)%string.

Lemma signed_inj b r b' r' : signed b r = signed b' r' <-> b = b' /\ r = r'.
Proof.
  unfold signed. split; [| by intros [-> ->]]. destruct b, b'; simpl; intros H; simplify_eq; done.
Qed.

Lemma origin_signed d n r k :
  vlookup (highLow_v d) n = Some (Nat.odd k) ->
  vlookup (inverterNet_v d) n = Some (if (k =? 0)%nat then UNKNOWN_NET else r) ->
  (k = 0%nat -> r = n) -> r <> UNKNOWN_NET ->
  origin n d = Ok (signed (polarity k) r, d) /\ invertedOrigin n d = Ok (signed (negb (polarity k)) r, d).
Proof.
  intros Hh Hi H0 Hr. unfold origin, invertedOrigin, at_, lift, vget, mbind, M_bind, polarity.
  rewrite Hi. cbv beta iota. rewrite Hh. cbv beta iota.
  destruct k as [| k]; [rewrite H0 by done; done |].
  unfold Nat.eqb. rewrite (proj2 (Z.eqb_neq r UNKNOWN_NET) Hr). by destruct (Nat.odd (S k)).
Qed.

(** After [SetInverters], [IsTransferGate] tests that the two gates come
    from the same chain start with different [polarity].  The start of a chain
    has the polarity of its inverse, so a net and its own inverter are not
    seen as complementary. *)
Theorem IsTransferGate_polarity d d' theNmos thePmos gn gp rn kn rp kp :
  inverters_ready d ->
  (forall n, inside (inverterNet_v d) n -> exists r k, chain (inverterNet_v d) n r k) ->
  rootsRight (inverterNet_v d) (highLow_v d) ->
  SetInverters d = Ok (tt, d') ->
  vlookup (gateNet_v (netlist d)) theNmos = Some gn -> GetEquivalentNet gn d = Ok (gn, d) ->
  vlookup (gateNet_v (netlist d)) thePmos = Some gp -> GetEquivalentNet gp d = Ok (gp, d) ->
  chain (inverterNet_v d) gn rn kn -> chain (inverterNet_v d) gp rp kp ->
  IsTransferGate theNmos thePmos d' = Ok (bool_decide (rn = rp) && xorb (polarity kn) (polarity kp), d').
Proof.
  intros Hd Hch Hr Hset En Mn Ep Mp Cn Cp.
  destruct (inverter_chains d Hd Hch Hr) as (inv & hl & E & H). rewrite Hset in E.
  injection E as ->. set (d' := with_inverters inv hl d).
  assert (highLow_v d' = hl /\ inverterNet_v d' = inv /\ netlist d' = netlist d) as (F1 & F2 & F3)
    by (subst d'; by destruct d).
  assert (forall g r k, GetEquivalentNet g d = Ok (g, d) -> chain (inverterNet_v d) g r k ->
    origin g d' = Ok (signed (polarity k) r, d') /\
    invertedOrigin g d' = Ok (signed (negb (polarity k)) r, d')) as Ho.
  { intros g r k Hg Hc. destruct (H g r k Hg Hc) as [Hh Hi]. apply origin_signed.
    - by rewrite F1.
    - by rewrite F2.
    - intros ->. by inversion Hc.
    - eapply inside_known; [exact (ready_small d Hd) |]. by eapply chain_inside. }
  unfold IsTransferGate, nlat, lift, vget, mbind, M_bind. rewrite F3, Ep.
  rewrite (proj1 (Ho gp rp kp Mp Cp)), F3, En, (proj2 (Ho gn rn kn Mn Cn)).
  unfold mret, M_ret. do 2 f_equal. apply eq_bool_prop_intro.
  rewrite bool_decide_spec, signed_inj, andb_True, bool_decide_spec.
  destruct (polarity kn), (polarity kp); simpl; naive_solver.
Qed.

(** ** Concrete circuits *)

(** Net 3 inverts net 2; the gates of devices 0 and 1 are nets 2 and 3. *)
Definition transferNetlist : CNetlist :=
  let 'mkNetlist a b c e f g h i j _ l m n o p q r s t u := ExampleDb.exampleNetlist in
  mkNetlist a b c e f g h i j [2; 3; UNKNOWN_NET; UNKNOWN_NET] l m n o p q r s t u.

Definition transferDb : CCvcDb :=
  set_netlist transferNetlist
    (set_inverterNet_v [UNKNOWN_NET; UNKNOWN_NET; UNKNOWN_NET; 2; UNKNOWN_NET] ExampleDb.exampleDb).

(** Nets 3 and 4 invert each other. *)
Definition latchDb : CCvcDb :=
  set_inverterNet_v [UNKNOWN_NET; UNKNOWN_NET; UNKNOWN_NET; 4; 3] ExampleDb.exampleDb.

Lemma vlookup5 {A} (a b c e f x : A) n :
  vlookup [a; b; c; e; f] n = Some x ->
  (n = 0 /\ x = a) \/ (n = 1 /\ x = b) \/ (n = 2 /\ x = c) \/ (n = 3 /\ x = e) \/ (n = 4 /\ x = f).
Proof.
  intros H. pose proof (vlookup_range _ _ _ H) as R. simpl in R.
  assert (n = 0 \/ n = 1 \/ n = 2 \/ n = 3 \/ n = 4) as [-> | [-> | [-> | [-> | ->]]]] by lia;
    injection H as <-; tauto.
Qed.

Ltac ready :=
  split; [reflexivity | reflexivity | unfold small; vm_compute; congruence
    | intros n x H; apply vlookup5 in H as [[_ ->] | [[_ ->] | [[_ ->] | [[_ ->] | [_ ->]]]]];
      first [by left | right; unfold inside; simpl; lia]
    | intros n Hn; exists n;
      assert (n = 0 \/ n = 1 \/ n = 2 \/ n = 3 \/ n = 4) as [-> | [-> | [-> | [-> | ->]]]]
        by (unfold inside in Hn; simpl in Hn; lia); vm_compute; reflexivity].

Lemma SetInverters_terminates_witness :
  inverters_ready latchDb /\ exists inv hl, SetInverters latchDb = Ok (tt, with_inverters inv hl latchDb).
Proof.
  assert (inverters_ready latchDb) as Hd by ready.
  split; [exact Hd |]. destruct (SetInverters_terminates latchDb Hd) as (inv & hl & E & _). eauto.
Defined.

Lemma transferDb_ready : inverters_ready transferDb.
Proof. ready. Qed.

Lemma transferDb_chains n :
  inside (inverterNet_v transferDb) n -> exists r k, chain (inverterNet_v transferDb) n r k.
Proof.
  intros Hn.
  assert (n = 0 \/ n = 1 \/ n = 2 \/ n = 3 \/ n = 4) as [-> | [-> | [-> | [-> | ->]]]]
    by (unfold inside in Hn; simpl in Hn; lia);
    [| | | exists 2, 1%nat; eapply chain_step; [reflexivity | done | by apply chain_root] |];
    eexists _, 0%nat; by apply chain_root.
Qed.

Lemma transferDb_roots : rootsRight (inverterNet_v transferDb) (highLow_v transferDb).
Proof.
  intros n H. apply vlookup5 in H as [[-> ?] | [[-> ?] | [[-> ?] | [[-> ?] | [-> ?]]]]]; done.
Qed.

Lemma SetInverters_chains_witness :
  exists inv hl, SetInverters transferDb = Ok (tt, with_inverters inv hl transferDb) /\
    vlookup hl 3 = Some true /\ vlookup inv 3 = Some 2.
Proof.
  destruct (SetInverters_chains transferDb transferDb_ready transferDb_chains transferDb_roots)
    as (inv & hl & E & H).
  exists inv, hl. split; [exact E |]. apply (H 3 2 1%nat); [reflexivity |].
  eapply chain_step; [reflexivity | done | by apply chain_root].
Defined.

(** The gates of a transfer gate driven by a net and its inverse. *)
Lemma IsTransferGate_polarity_witness :
  exists d', SetInverters transferDb = Ok (tt, d') /\ IsTransferGate 0 1 d' = Ok (false, d').
Proof.
  destruct (inverter_chains transferDb transferDb_ready transferDb_chains transferDb_roots)
    as (inv & hl & E & _).
  exists (with_inverters inv hl transferDb). split; [exact E |].
  apply (IsTransferGate_polarity transferDb _ 0 1 2 3 2 0 2 1 transferDb_ready transferDb_chains
           transferDb_roots E); try reflexivity; [by apply chain_root |].
  eapply chain_step; [reflexivity | done | by apply chain_root].
Defined.

End Inverter.
