(* ===== verification/Overvoltage.v ===== *)
(** * Overvoltage and model checks (CCvcDb_error.cc, first part)

    The four overvoltage checks compare the levels of two terminals of a device
    with the limit of its model, first the levels of the circuit and then, when
    these are in order, the saved leak levels.  Each check is a decision (the
    explanation that is printed, or none) followed by [PrintOverVoltageError].
    [FindAllOverVoltageErrors] runs them for every device of every model. *)

From S2P Require Import Prelude CvcTypes EventQueue VirtualNet Numeric Power Db ExampleDb.
From S2P Require Import Connection Short.
From stdpp Require Import base list strings gmap sets.
From Stdlib Require Import ZArith Lia.
#[local] Open Scope Z_scope.

Module Overvoltage.
Import VirtualNet.VirtualNet Power.Power Db.Db Connection.Connection Short.Short.

Definition checks {A} (f : CCheckParameters -> A) : DB A := param (fun x => f (cvcChecks x)).

(** ** Decisions *)

(** [validA && validB && abs(a - b) > theParameter]. *)
Definition exceeds (theParameter : Z) (validA validB : bool) (a b : Z) : bool :=
  validA && validB && (theParameter <? Z.abs (a - b)).

(** [valid && ! other1 && ... && abs(a) > theParameter]: a level without an
    opposite one is compared with 0. *)
Definition exceedsAlone (theParameter : Z) (valid : bool) (others : list bool) (a : Z) : bool :=
  valid && forallb negb others && (theParameter <? Z.abs a).

Section Decisions.
Variables (c : CFullConnection) (info : terminal_t -> CLeakInfo).

Definition minV (t : terminal_t) : Z := voltage (terminal (fMin c) t).
Definition maxV (t : terminal_t) : Z := voltage (terminal (fMax c) t).

(** The two comparisons of one pair of terminals. *)
Definition pairOver (theParameter : Z) (a b : terminal_t) : bool :=
  exceeds theParameter (validMax (info a)) (validMin (info b)) (maxV a) (minV b)
  || exceeds theParameter (validMin (info a)) (validMax (info b)) (minV a) (maxV b).

Definition pairOverLeak (theParameter : Z) (a b : terminal_t) : bool :=
  exceeds theParameter (validMaxLeak (info a)) (validMinLeak (info b))
    (maxLeakVoltage (info a)) (minLeakVoltage (info b))
  || exceeds theParameter (validMinLeak (info a)) (validMaxLeak (info b))
       (minLeakVoltage (info a)) (maxLeakVoltage (info b)).

Definition minAlone (theParameter : Z) (a : terminal_t) (others : list bool) : bool :=
  exceedsAlone theParameter (validMinLeak (info a)) others (minLeakVoltage (info a)).
Definition maxAlone (theParameter : Z) (a : terminal_t) (others : list bool) : bool :=
  exceedsAlone theParameter (validMaxLeak (info a)) others (maxLeakVoltage (info a)).

Abbreviation minL t := (validMinLeak (info t)).
Abbreviation maxL t := (validMaxLeak (info t)).

(** In the last comparison the source tests [validMinGate], not
    [validMinGateLeak]. *)
Definition vbgLeak (p : Z) : bool :=
  pairOverLeak p GATE BULK
  || maxAlone p GATE [minL BULK] || minAlone p GATE [maxL BULK]
  || minAlone p BULK [maxL GATE] || maxAlone p BULK [validMin (info GATE)].

Definition vbsLeak (p : Z) : bool :=
  pairOverLeak p SOURCE BULK || pairOverLeak p DRAIN BULK
  || minAlone p BULK [maxL SOURCE; maxL DRAIN] || maxAlone p BULK [minL SOURCE; minL DRAIN]
  || minAlone p SOURCE [maxL BULK] || maxAlone p SOURCE [minL BULK]
  || minAlone p DRAIN [maxL BULK] || maxAlone p DRAIN [minL BULK].

Definition vdsLeak (p : Z) : bool :=
  pairOverLeak p SOURCE DRAIN
  || minAlone p SOURCE [maxL DRAIN] || maxAlone p DRAIN [minL SOURCE]
  || maxAlone p SOURCE [minL DRAIN] || minAlone p DRAIN [maxL SOURCE].

Definition vgsLeak (p : Z) : bool :=
  pairOverLeak p GATE SOURCE || pairOverLeak p GATE DRAIN
  || minAlone p GATE [maxL SOURCE; maxL DRAIN] || maxAlone p GATE [minL SOURCE; minL DRAIN]
  || maxAlone p SOURCE [minL GATE] || maxAlone p DRAIN [minL GATE]
  || minAlone p SOURCE [maxL GATE] || minAlone p DRAIN [maxL GATE].

(** A pump capacitor is only compared min with min and max with max. *)
Definition pumped (p : Z) : bool :=
  IsPumpCapacitor c && (Z.abs (minV SOURCE - minV DRAIN) <=? p)
  && (Z.abs (maxV SOURCE - maxV DRAIN) <=? p).

Definition decide_ (logic excused leak : bool) (leakOvervoltage : bool) (text : string) : option string :=
  if logic then (if excused then None else Some text)
  else if leakOvervoltage && leak then Some (text +:+ " (logic ok)")%string else None.

Definition vbgDecision (p : Z) (leakOvervoltage : bool) : option string :=
  decide_ (pairOver p GATE BULK) false (vbgLeak p) leakOvervoltage "Overvoltage Error:Gate vs Bulk:".
Definition vbsDecision (p : Z) (leakOvervoltage : bool) : option string :=
  decide_ (pairOver p SOURCE BULK || pairOver p DRAIN BULK) false (vbsLeak p) leakOvervoltage
    "Overvoltage Error:Source/Drain vs Bulk:".
Definition vdsDecision (p : Z) (leakOvervoltage : bool) : option string :=
  decide_ (pairOver p SOURCE DRAIN) (pumped p) (vdsLeak p) leakOvervoltage
    "Overvoltage Error:Source vs Drain:".
Definition vgsDecision (p : Z) (leakOvervoltage : bool) : option string :=
  decide_ (pairOver p GATE SOURCE || pairOver p GATE DRAIN) false (vgsLeak p) leakOvervoltage
    "Overvoltage Error:Gate vs Source/Drain:".

(** [FindModelError]: only the parameter [Vb] is checked. *)
Definition modelError (k : CModelCheck) : bool :=
  if bool_decide (checkParameter k = "Vb"%string) then
    if negb (validMin (info BULK) && validMax (info BULK)) then true
    else
      (if negb (IsEmpty (minExclusiveText k)) then minV BULK <=? minExclusiveVoltage k
       else if negb (IsEmpty (minInclusiveText k)) then minV BULK <? minInclusiveVoltage k else false)
      || (if negb (IsEmpty (maxExclusiveText k)) then maxExclusiveVoltage k <=? maxV BULK
          else if negb (IsEmpty (maxInclusiveText k)) then maxInclusiveVoltage k <? maxV BULK else false)
  else false.
End Decisions.

(** ** Reports *)

(** [cvcCircuitErrorLimit == 0 || IncrementDeviceError(...) < limit]: in this
    order, the error is not counted when there is no limit. *)
Definition printCounted (theDeviceId : Z) (theError : cvcError_t) (r : report) : DB unit :=
  limit ← gets (fun d => cvcCircuitErrorLimit (cvcParameters d));
  if limit =? 0 then reportM r
  else n ← IncrementDeviceError theDeviceId theError; when (n <? limit) (reportM r).

Definition PrintOverVoltageError (c : CFullConnection) (theError : cvcError_t) (theExplanation : string)
    : DB unit :=
  printCounted (fDeviceId c) theError (ExplainedError theError (fDeviceId c) theExplanation).

Definition PrintModelError (c : CFullConnection) : DB unit :=
  printCounted (fDeviceId c) MODEL_CHECK (ReportedError MODEL_CHECK (fDeviceId c)).

Definition findError (decision : Z -> bool -> option string) (c : CFullConnection) (theError : cvcError_t)
    (theParameter : Z) : DB unit :=
  t ← checks cvcOvervoltageErrorThreshold;
  l ← checks cvcLeakOvervoltage;
  match decision (s16 (theParameter + t)) l with
  | Some text => PrintOverVoltageError c theError text
  | None => mret tt
  end.

Definition FindVbgError c info := findError (vbgDecision c info) c OVERVOLTAGE_VBG.
Definition FindVbsError c info := findError (vbsDecision c info) c OVERVOLTAGE_VBS.
Definition FindVdsError c info := findError (vdsDecision c info) c OVERVOLTAGE_VDS.
Definition FindVgsError c info := findError (vgsDecision c info) c OVERVOLTAGE_VGS.

Definition FindModelError (c : CFullConnection) (info : terminal_t -> CLeakInfo) (k : CModelCheck) : DB unit :=
  when (modelError c info k) (PrintModelError c).

(** The checks of one device of a model in one instance. *)
Definition checkInstance (m : CModel) (dev : CDevice) (theInstanceId : Z) : DB unit :=
  i ← nlat instancePtr_v theInstanceId;
  if IsParallelInstance i then mret tt
  else
    c ← MapInstanceDeviceNets i dev;
    info ← leakInfos c;
    let on v (f : Z -> DB unit) : DB unit := when (IsKnownVoltage_ v) (f v) in
    _ ← on (maxVbg m) (FindVbgError c info);
    _ ← on (maxVbs m) (FindVbsError c info);
    _ ← on (maxVds m) (FindVdsError c info);
    _ ← on (maxVgs m) (FindVgsError c info);
    forList (checkList m) (FindModelError c info).

(** The device chain of a model, instance by instance. *)
Definition overModelDevices (u : CModelUse) (body : CDevice -> Z -> DB unit) : DB unit :=
  forList (useDevices u) (fun '(k, o) =>
    circuit ← at_ circuits k;
    dev ← lift (vget (devicePtr_v circuit) o);
    forList (instanceId_v circuit) (body dev)).

Definition checkModel (u : CModelUse) : DB unit :=
  let m := useModel u in
  if negb (IsKnownVoltage_ (maxVbg m) || IsKnownVoltage_ (maxVbs m)
           || IsKnownVoltage_ (maxVds m) || IsKnownVoltage_ (maxVgs m)) then mret tt
  else overModelDevices u (checkInstance m).

(** Each check writes to a temporary file of its own.  [AppendErrorFile] copies
    the file to the error file: the reports of the check, out of those made
    since [before] (the list of reports has the last one first). *)
Definition errorOf (r : report) : option cvcError_t :=
  match r with ReportedError e _ | ExplainedError e _ _ => Some e | _ => None end.
Definition reportsOf (theError : cvcError_t) (l : list report) : list report :=
  filter (fun r => errorOf r = Some theError) l.

Definition AppendErrorFile (fresh : list report) (theError : cvcError_t) : DB unit :=
  _ ← modify (fun d => set_reports (reportsOf theError fresh ++ reports d) d);
  PrintAndResetCircuitErrors (errorIndex theError - errorIndex OVERVOLTAGE_VBG) [].

Definition FindAllOverVoltageErrors : DB unit :=
  before ← gets reports;
  l ← checks cvcModelListMap;
  _ ← forList l (fun models => forList models checkModel);
  all ← gets reports;
  let fresh := take (length all - length before) all in
  _ ← modify (fun d => set_reports before d);
  forList [OVERVOLTAGE_VBG; OVERVOLTAGE_VBS; OVERVOLTAGE_VDS; OVERVOLTAGE_VGS; MODEL_CHECK]
    (AppendErrorFile fresh).

(** ** Exactness of the checks *)

Definition pairsOf (e : cvcError_t) : list (terminal_t * terminal_t) :=
  match e with
  | OVERVOLTAGE_VBG => [(GATE, BULK)]
  | OVERVOLTAGE_VBS => [(SOURCE, BULK); (DRAIN, BULK)]
  | OVERVOLTAGE_VDS => [(SOURCE, DRAIN)]
  | OVERVOLTAGE_VGS => [(GATE, SOURCE); (GATE, DRAIN)]
  | _ => []
  end.

Definition decisionOf (e : cvcError_t) (c : CFullConnection) (info : terminal_t -> CLeakInfo) (p : Z) (l : bool)
    : option string :=
  match e with
  | OVERVOLTAGE_VBG => vbgDecision c info p l
  | OVERVOLTAGE_VBS => vbsDecision c info p l
  | OVERVOLTAGE_VDS => vdsDecision c info p l
  | OVERVOLTAGE_VGS => vgsDecision c info p l
  | _ => None
  end.

(** The explanation of an error of the circuit levels. *)
Definition isLogicError (o : option string) : Prop :=
  exists e, o = Some e /\ e ∈ ["Overvoltage Error:Gate vs Bulk:"; "Overvoltage Error:Source/Drain vs Bulk:";
                               "Overvoltage Error:Source vs Drain:"; "Overvoltage Error:Gate vs Source/Drain:"]%string.

(** The flags of a terminal come from its levels. *)
Definition flagged (c : CFullConnection) (info : terminal_t -> CLeakInfo) (t : terminal_t) : Prop :=
  exists sm minLeak maxLeak minOpen maxOpen,
    info t = leakFlags (minV c t) sm (maxV c t) minLeak maxLeak minOpen maxOpen.

Lemma leakFlags_flagged c t d x d' :
  SetMinMaxLeakVoltagesAndFlags c t d = Ok (x, d') ->
  exists sm a b e f, x = leakFlags (minV c t) sm (maxV c t) a b e f.
Proof. unfold SetMinMaxLeakVoltagesAndFlags. intros H. run_inv H. reader_inv H. eauto 10. Qed.

Lemma leakInfos_flagged c d info d' t : leakInfos c d = Ok (info, d') -> flagged c info t.
Proof.
  unfold leakInfos. intros H. run_inv H. reader_inv H. unfold flagged.
  destruct t; eapply leakFlags_flagged; eassumption.
Qed.

Lemma flagged_ordered c info t :
  flagged c info t -> validMin (info t) = true -> validMax (info t) = true -> minV c t <= maxV c t.
Proof.
  intros (sm & a & b & e & f & E) Hm HM. rewrite E in Hm, HM.
  by destruct (proj1 (leakFlags_spec _ _ _ _ _ _ _) Hm HM).
Qed.

Definition valid (info : terminal_t -> CLeakInfo) (t : terminal_t) : Prop :=
  validMin (info t) = true /\ validMax (info t) = true.

(** Two levels within the ranges of two terminals that are too far apart. *)
Definition tooFar (c : CFullConnection) (p : Z) (a b : terminal_t) : Prop :=
  exists x y, minV c a <= x <= maxV c a /\ minV c b <= y <= maxV c b /\ p < Z.abs (x - y).

(** Comparing the two opposite ends of the ranges is enough. *)
Lemma pairOver_spec c info p a b :
  flagged c info a -> flagged c info b -> valid info a -> valid info b ->
  pairOver c info p a b = true <-> tooFar c p a b.
Proof.
  intros Fa Fb [Ma Xa] [Mb Xb].
  pose proof (flagged_ordered _ _ _ Fa Ma Xa). pose proof (flagged_ordered _ _ _ Fb Mb Xb).
  unfold pairOver, exceeds, tooFar. rewrite Ma, Xa, Mb, Xb. simpl.
  rewrite orb_true_iff, !Z.ltb_lt. split.
  - intros [H1 | H1]; [exists (maxV c a), (minV c b) | exists (minV c a), (maxV c b)]; lia.
  - intros (x & y & ? & ? & ?). lia.
Qed.

Lemma decide_logic logic excused leak l text :
  text ∈ ["Overvoltage Error:Gate vs Bulk:"; "Overvoltage Error:Source/Drain vs Bulk:";
          "Overvoltage Error:Source vs Drain:"; "Overvoltage Error:Gate vs Source/Drain:"]%string ->
  isLogicError (decide_ logic excused leak l text) <-> logic = true /\ excused = false.
Proof.
  intros Ht. unfold decide_, isLogicError. destruct logic.
  - destruct excused; split; [by intros (? & ? & _) | by intros [_ ?] | done |]. intros _. by exists text.
  - split; [| by intros [? _]]. destruct (l && leak); [| by intros (? & ? & _)].
    intros (e & [= <-] & He). set_unfold.
    by destruct Ht as [-> | [-> | [-> | [-> | []]]]]; destruct He as [He | [He | [He | [He | []]]]].
Qed.

(** C40: the four overvoltage checks are exact.  When the levels of the compared
    terminals are known and ordered (the flags of
    [SetMinMaxLeakVoltagesAndFlags]), a check reports an error of the circuit
    levels if and only if two levels within the ranges of one of its pairs of
    terminals differ by more than the limit: comparing the opposite ends of
    the ranges misses nothing and reports nothing else.  A pump capacitor is
    excused when its min levels and its max levels agree up to the limit. *)
Theorem overvoltage_exact e c d info d' p l :
  e ∈ [OVERVOLTAGE_VBG; OVERVOLTAGE_VBS; OVERVOLTAGE_VDS; OVERVOLTAGE_VGS] ->
  leakInfos c d = Ok (info, d') ->
  (forall a b, (a, b) ∈ pairsOf e -> valid info a /\ valid info b) ->
  isLogicError (decisionOf e c info p l) <->
  (exists a b, (a, b) ∈ pairsOf e /\ tooFar c p a b) /\ (e = OVERVOLTAGE_VDS -> pumped c p = false).
Proof.
  intros He Hi Hv.
  assert (existsb (fun ab => pairOver c info p ab.1 ab.2) (pairsOf e) = true <->
          exists a b, (a, b) ∈ pairsOf e /\ tooFar c p a b) as <-.
  { rewrite existsb_exists. split.
    - intros ([a b] & Hab%list_elem_of_In & H). exists a, b. split; [done |]. destruct (Hv a b Hab).
      by eapply pairOver_spec; try by eapply leakInfos_flagged.
    - intros (a & b & Hab & H). exists (a, b). split; [by apply list_elem_of_In |]. destruct (Hv a b Hab).
      by eapply pairOver_spec; try by eapply leakInfos_flagged. }
  unfold decisionOf, vbgDecision, vbsDecision, vdsDecision, vgsDecision.
  set_unfold in He. destruct He as [-> | [-> | [-> | [-> | []]]]]; simpl; rewrite orb_false_r;
    rewrite decide_logic by set_solver; naive_solver.
Qed.

(** The default limits, a transistor with its gate at 5V and its source at 0V,
    and a limit of 3V. *)
Definition exampleTerminal (n v : Z) (a : option Z) : CTerminal :=
  mkTerminal (mkVirtualNet n 0 n 0 UNKNOWN_NET) v a.
Definition exampleSample (g s dr b : Z) : CSample :=
  mkSample (exampleTerminal 2 g (Some 2)) (exampleTerminal 1 s (Some 1)) (exampleTerminal 3 dr None)
    (exampleTerminal 1 b (Some 1)).
Definition exampleConnection (g : Z) : CFullConnection :=
  let x := exampleSample g 0 0 0 in
  mkFull 1 2 3 1 1 2 3 1 x x x ExampleDb.nmos 0 7000.

Lemma overvoltage_exact_witness :
  exists info d', leakInfos (exampleConnection 5000) ExampleDb.exampleDb = Ok (info, d') /\
  isLogicError (decisionOf OVERVOLTAGE_VGS (exampleConnection 5000) info 3000 true).
Proof.
  assert (exists info d', leakInfos (exampleConnection 5000) ExampleDb.exampleDb = Ok (info, d') /\
          valid info GATE /\ valid info SOURCE /\ valid info DRAIN) as (info & d' & E & Vg & Vs & Vd).
  { eexists _, _. split; [vm_compute; reflexivity |]. by split_and!. }
  exists info, d'. split; [exact E |].
  apply (overvoltage_exact OVERVOLTAGE_VGS (exampleConnection 5000) ExampleDb.exampleDb info d' 3000 true);
    [set_solver | exact E | | split; [| done]].
  - intros a b. simpl. set_unfold. naive_solver.
  - exists GATE, SOURCE. split; [simpl; set_solver |]. exists 5000, 0. vm_compute. naive_solver congruence.
Defined.

End Overvoltage.
