(* ===== verification/InverterCheck.v ===== *)
(** * Inverter checks (CCvcDb_error.cc, CCvcDb_utility.cc)

    Two checks on nets named in the net check file: [CheckInverterIO] compares
    the supplies of the input and the output of an inverter,
    [CheckOppositeLogic] that two nets carry opposite logic, as seen from the
    inverter chains of [inverterNet_v].  The nets the names stand for
    ([FindUniqueNetIds], [FindNetIds]) are arguments. *)

From S2P Require Import Prelude CvcTypes EventQueue VirtualNet Numeric Power Db ExampleDb.
From S2P Require Import Connection Short.
From stdpp Require Import base list strings gmap sets.
From Stdlib Require Import ZArith Lia.
#[local] Open Scope Z_scope.

Module InverterCheck.
Import VirtualNet.VirtualNet Power.Power Db.Db Connection.Connection Short.Short.

(** ** The input of an inverter *)

Definition OppositeNet (theDevice theNet : Z) : DB Z :=
  s ← nlat sourceNet_v theDevice;
  dr ← nlat drainNet_v theDevice;
  _ ← assertM ((s =? theNet) || (dr =? theNet));
  mret (if s =? theNet then dr else s).

Definition IsOnGate (theDevice : Z) (thePower_p : option Z) : DB bool :=
  g ← nlat gateNet_v theDevice;
  a ← powerAt g;
  p ← pointeeM a;
  match p with
  | Some p =>
      if negb (typeBit p POWER_BIT) then mret false
      else
        t ← nlat deviceType_v theDevice;
        if IsNmos_ t then x ← arrow thePower_p; mret (minVoltage x <? minVoltage p)
        else if IsPmos_ t then x ← arrow thePower_p; mret (maxVoltage p <? maxVoltage x)
        else raise AssertionFailed
  | None => mret false
  end.

(** One device list of [GetNextInSeries].  The test is the code's: a device
    whose source and drain differ is passed over. *)
Definition nextInList (theDevice theNet : Z) (first next : CNetlist -> list Z) (myNextDevice : Z)
    : DB (Z + Z) :=
  overDevicesWith first next theNet myNextDevice (fun found device_it =>
    s ← nlat sourceNet_v device_it;
    dr ← nlat drainNet_v device_it;
    if negb (s =? dr) then mret (inl found)
    else if device_it =? theDevice then mret (inl found)
    else if negb (found =? UNKNOWN_DEVICE) then mret (inr UNKNOWN_DEVICE)
    else mret (inl device_it)).

Definition GetNextInSeries (theDevice theNet : Z) : DB Z :=
  r ← nextInList theDevice theNet firstSource_v nextSource_v UNKNOWN_DEVICE;
  match r with
  | inr x => mret x
  | inl found =>
      r ← nextInList theDevice theNet firstDrain_v nextDrain_v found;
      match r with
      | inr x => mret x
      | inl found =>
          if found =? UNKNOWN_DEVICE then mret found
          else
            t ← nlat deviceType_v theDevice;
            u ← nlat deviceType_v found;
            mret (if bool_decide (t = u) || (IsNmos_ t && IsNmos_ u) || (IsPmos_ t && IsPmos_ u)
                  then found else UNKNOWN_DEVICE)
      end
  end.

(** The gate that decides one side: [None] when the input is not unique or
    there is no connection to the supply. *)
Definition mosInput (device_it theSupplyNet : Z) (mySupply_p : option Z) (drain : CNetlist -> list Z)
    (theInput : Z) : DB (option Z) :=
  let unique device : DB (option Z) :=
    g ← nlat gateNet_v device;
    mret (if theInput =? UNKNOWN_NET then Some g else if theInput =? g then Some theInput else None) in
  dr ← nlat drain device_it;
  if dr =? theSupplyNet then unique device_it
  else
    on ← IsOnGate device_it mySupply_p;
    if (on : bool) then
      n ← GetNextInSeries device_it dr;
      if n =? UNKNOWN_DEVICE then mret None
      else
        o ← OppositeNet n dr;
        if o =? theSupplyNet then unique n else mret None
    else mret None.

(** [FindUniqueMosInputs]: success, and the two inputs it has set. *)
Definition FindUniqueMosInputs (theOutputNet theGroundNet thePowerNet : Z)
    (first next source drain : CNetlist -> list Z) (inputs : Z * Z) : DB (bool * (Z * Z)) :=
  myGround_p ← powerAt theGroundNet;
  myPower_p ← powerAt thePowerNet;
  r ← overDevicesWith first next theOutputNet inputs (fun '(n, p) device_it =>
        s ← nlat source device_it;
        dr ← nlat drain device_it;
        if s =? dr then mret (inl (n, p))
        else
          t ← nlat deviceType_v device_it;
          if IsNmos_ t then
            x ← mosInput device_it theGroundNet myGround_p drain n;
            mret (match x with Some n => inl (n, p) | None => inr (n, p) end)
          else if IsPmos_ t then
            x ← mosInput device_it thePowerNet myPower_p drain p;
            mret (match x with Some p => inl (n, p) | None => inr (n, p) end)
          else mret (inl (n, p)));
  mret (match r with inl x => (true, x) | inr x => (false, x) end).

Definition FindInverterInput (theOutputNet : Z) : DB Z :=
  mn ← accessM MIN_QUEUE theOutputNet;
  mx ← accessM MAX_QUEUE theOutputNet;
  let myGroundNet := finalNetId mn in
  let myPowerNet := finalNetId mx in
  g ← powerAt myGroundNet; g ← pointeeM g;
  p ← powerAt myPowerNet; p ← pointeeM p;
  if negb (IsPower_ g) || negb (IsPower_ p) then mret UNKNOWN_NET
  else
    '(a, x) ← FindUniqueMosInputs theOutputNet myGroundNet myPowerNet
                firstSource_v nextSource_v sourceNet_v drainNet_v (UNKNOWN_NET, UNKNOWN_NET);
    '(b, (n, p)) ← FindUniqueMosInputs theOutputNet myGroundNet myPowerNet
                     firstDrain_v nextDrain_v drainNet_v sourceNet_v x;
    mret (if (a : bool) && (b : bool) && negb (n =? UNKNOWN_NET) && (n =? p) then n else UNKNOWN_NET).

(** The transistors of a type on one side of a net, shorted ones apart. *)
Definition mosDevices (theType : modelType_t) (first next : CNetlist -> list Z) (theNet : Z) (l : gset Z)
    : DB (gset Z) :=
  r ← overDevicesWith (R := unit) first next theNet l (fun l device_it =>
        s ← nlat sourceNet_v device_it;
        dr ← nlat drainNet_v device_it;
        t ← nlat deviceType_v device_it;
        mret (inl (if negb (s =? dr)
                      && ((bool_decide (theType = NMOS) && IsNmos_ t)
                          || (bool_decide (theType = PMOS) && IsPmos_ t))
                   then {[device_it]} ∪ l else l)));
  mret (match r with inl l => l | inr _ => l end).

Definition FindInverterDevice (theInputNet theOutputNet : Z) (theType : modelType_t) : DB Z :=
  l ← mosDevices theType firstSource_v nextSource_v theOutputNet ∅;
  l ← mosDevices theType firstDrain_v nextDrain_v theOutputNet l;
  r ← overDevices firstGate_v nextGate_v theInputNet (fun device_it =>
        mret (if bool_decide (device_it ∈ l) then Some device_it else None));
  mret (default UNKNOWN_DEVICE r).

(** ** Inverter inputs and outputs *)

Definition checkInverterNet (theType : modelType_t) (net : Z) : DB unit :=
  found ← FindInverterInput net;
  myInverterInput ← (if found =? UNKNOWN_NET then at_ inverterNet_v net else mret found);
  if myInverterInput =? UNKNOWN_NET then reportM (Warning net)
  else
    myMinInput ← accessM MIN_QUEUE myInverterInput;
    myMaxInput ← accessM MAX_QUEUE myInverterInput;
    myMinOutput ← accessM MIN_QUEUE net;
    myMaxOutput ← accessM MAX_QUEUE net;
    let sameMin := finalNetId myMinInput =? finalNetId myMinOutput in
    let sameMax := finalNetId myMaxInput =? finalNetId myMaxOutput in
    if (finalNetId myMinInput =? finalNetId myMaxInput) && (sameMin || sameMax) then mret tt
    else if (negb sameMin && bool_decide (theType = NMOS)) || (negb sameMax && bool_decide (theType = PMOS)) then
      myDevice ← FindInverterDevice myInverterInput net theType;
      if myDevice =? UNKNOWN_DEVICE then reportM (Warning net)
      else countAndReport myDevice (if bool_decide (theType = NMOS) then NMOS_GATE_SOURCE else PMOS_GATE_SOURCE)
    else mret tt.

Definition CheckInverterIO (theChecks : list (list Z)) (theType : modelType_t) : DB unit :=
  forList theChecks (fun nets => forList nets (checkInverterNet theType)).

(** ** Opposite logic *)

(** The first loop: the nets of the inverter chain of the first net, by
    parity. *)
Fixpoint logicSets (fuel : nat) (inverter : list Z) (myInverted : bool) (same inverted : gset Z) (net_it : Z)
    : outcome (gset Z * gset Z) :=
  match fuel with
  | O => throw OutOfFuel
  | S fuel =>
      if (net_it =? UNKNOWN_NET) || bool_decide (net_it ∈ same) then Ok (same, inverted)
      else
        i ← vget inverter net_it;
        if myInverted then
          let inverted := {[net_it]} ∪ inverted in
          _ ← assert_ (negb (bool_decide (i ∈ inverted)));
          logicSets fuel inverter false same inverted i
        else
          let same := {[net_it]} ∪ same in
          _ ← assert_ (negb (bool_decide (i ∈ same)));
          logicSets fuel inverter true same inverted i
  end.

(** The second loop: the first net of the other chain in the set of its own
    parity, or the end of the chain. *)
Fixpoint oppositeWalk (fuel : nat) (inverter : list Z) (same inverted : gset Z) (myInverted : bool) (net_it : Z)
    : outcome Z :=
  match fuel with
  | O => throw OutOfFuel
  | S fuel =>
      if net_it =? UNKNOWN_NET then Ok net_it
      else if bool_decide (net_it ∈ (if myInverted then inverted else same)) then Ok net_it
      else i ← vget inverter net_it; oppositeWalk fuel inverter same inverted (negb myInverted) i
  end.

(** A chain meets every net at most once with each parity. *)
Definition chainFuel (inverter : list Z) : nat := S (2 * length inverter).

Definition areOpposite (inverter : list Z) (first second : Z) : outcome bool :=
  '(same, inverted) ← logicSets (chainFuel inverter) inverter false ∅ ∅ first;
  n ← oppositeWalk (chainFuel inverter) inverter same inverted true second;
  Ok (negb (n =? UNKNOWN_NET)).

(** The devices of a type on the gate of a net, shorted ones apart. *)
Definition reportGates (theType : modelType_t) (net : Z) : DB Z :=
  r ← overDevicesWith (R := unit) firstGate_v nextGate_v net 0 (fun count device_it =>
        s ← nlat sourceNet_v device_it;
        dr ← nlat drainNet_v device_it;
        t ← nlat deviceType_v device_it;
        if s =? dr then mret (inl count)
        else if bool_decide (theType = PMOS) && negb (IsPmos_ t) then mret (inl count)
        else if bool_decide (theType = NMOS) && negb (IsNmos_ t) then mret (inl count)
        else _ ← countAndReport device_it HIZ_INPUT; mret (inl (count + 1)));
  mret (match r with inl n => n | inr _ => 0 end).

Definition checkOpposite (theType : modelType_t) (net opposite : Z) : DB unit :=
  first ← GetEquivalentNet net;
  second ← GetEquivalentNet opposite;
  a ← powerAt first; p ← pointeeM a;
  b ← powerAt second; q ← pointeeM b;
  if match p, q with
     | Some p, Some q => typeBit p POWER_BIT && typeBit q POWER_BIT && negb (simVoltage p =? simVoltage q)
     | _, _ => false
     end
  then mret tt
  else
    inverter ← gets inverterNet_v;
    ok ← lift (areOpposite inverter first second);
    if (ok : bool) then mret tt
    else
      n ← reportGates theType (if IsPower_ p then second else first);
      when (n =? 0) (reportM (Warning net)).

(** The second list is walked along with the first; when it is shorter its
    end is dereferenced. *)
Fixpoint checkOpposites (theType : modelType_t) (nets opposites : list Z) : DB unit :=
  match nets, opposites with
  | [], _ => mret tt
  | _ :: _, [] => raise UndefinedBehaviour
  | n :: nets, o :: opposites => _ ← checkOpposite theType n o; checkOpposites theType nets opposites
  end.

Definition CheckOppositeLogic (theChecks : list (list Z * list Z)) (theType : modelType_t) : DB unit :=
  forList theChecks (fun '(nets, opposites) => checkOpposites theType nets opposites).

(** ** Series transistors are not found *)

Definition shorted (d : CCvcDb) (i : Z) : Prop :=
  exists n, vlookup (sourceNet_v (netlist d)) i = Some n /\ vlookup (drainNet_v (netlist d)) i = Some n.

Lemma nextInList_shorted dev net first next found d r d' :
  (found = UNKNOWN_DEVICE \/ shorted d found) ->
  nextInList dev net first next found d = Ok (r, d') ->
  d' = d /\ match r with inl i => i = UNKNOWN_DEVICE \/ shorted d i | inr i => i = UNKNOWN_DEVICE end.
Proof.
  intros Hf H. revert H. unfold nextInList. intros H.
  apply (overDevicesWith_ind (fun i x => x = d /\ (i = UNKNOWN_DEVICE \/ shorted d i))
           (fun i x => x = d /\ i = UNKNOWN_DEVICE)) in H; [destruct r; naive_solver | | done].
  intros a i x y x' [-> Ha] E. run_inv E.
  destruct (Z.eqb_spec x x0) as [-> |]; simpl in E; [| reader_inv E; done].
  destruct (i =? dev); [reader_inv E; done |].
  destruct (a =? UNKNOWN_DEVICE); simpl in E; reader_inv E; [| done].
  split; [done |]. right. by exists x0.
Qed.

Lemma GetNextInSeries_shorted dev net d i d' :
  GetNextInSeries dev net d = Ok (i, d') -> d' = d /\ (i = UNKNOWN_DEVICE \/ shorted d i).
Proof.
  unfold GetNextInSeries. intros H. run_inv H.
  apply nextInList_shorted in R as [-> Hx]; [| by left]. destruct x as [x | x]; [| reader_inv H; naive_solver].
  run_inv H. apply nextInList_shorted in R as [-> Hy]; [| done].
  destruct x0 as [y | y]; [| reader_inv H; naive_solver].
  destruct (y =? UNKNOWN_DEVICE); [reader_inv H; naive_solver |].
  run_inv H. reader_inv H. split; [done |]. case_match; naive_solver.
Qed.

Lemma OppositeNet_shorted i n d m d' :
  shorted d i -> OppositeNet i n d = Ok (m, d') -> m = n /\ d' = d.
Proof.
  intros (k & Hs & Hd) H. unfold OppositeNet in H. run_inv H. reader_inv H.
  rewrite Hs in R. rewrite Hd in R0. injection R as <-. injection R0 as <-.
  by destruct (Z.eqb_spec k n).
Qed.

Lemma IsOnGate_state i p d b d' : IsOnGate i p d = Ok (b, d') -> d' = d.
Proof.
  unfold IsOnGate. intros H. run_inv H. destruct x1 as [q |]; [| by reader_inv H].
  destruct (negb _); [by reader_inv H |]. run_inv H. unfold arrow in H. destruct p as [p |].
  - repeat case_match; try done; run_inv H; by reader_inv H.
  - repeat case_match; done.
Qed.

(** An inverter whose output reaches a supply through two transistors in
    series is never recognised: [GetNextInSeries] passes over the devices
    whose source and drain differ (its comment says it ignores the inactive
    ones), so that the transistor it returns is shorted and [FindUniqueMosInputs]
    accepts only a device connected to the supply itself. *)
Theorem mosInput_not_through_series device_it theSupplyNet p drain theInput d g d' :
  mosInput device_it theSupplyNet p drain theInput d = Ok (Some g, d') ->
  d' = d /\ vlookup (drain (netlist d)) device_it = Some theSupplyNet /\
  vlookup (gateNet_v (netlist d)) device_it = Some g.
Proof.
  unfold mosInput. intros H. run_inv H.
  destruct (Z.eqb_spec x theSupplyNet) as [-> | Hne].
  - run_inv H. reader_inv H. split_and!; [done | done |].
    destruct (theInput =? UNKNOWN_NET); [congruence |]. destruct (Z.eqb_spec theInput x); congruence.
  - run_inv H. apply IsOnGate_state in R0 as ->. destruct x0; [| by reader_inv H].
    run_inv H. apply GetNextInSeries_shorted in R0 as [-> Hs].
    destruct (Z.eqb_spec x0 UNKNOWN_DEVICE); [by reader_inv H |]. destruct Hs as [? | Hs]; [done |].
    run_inv H. apply (OppositeNet_shorted _ _ _ _ _ Hs) in R0 as [-> ->].
    rewrite (proj2 (Z.eqb_neq x theSupplyNet) Hne) in H. by reader_inv H.
Qed.

Lemma mosInput_not_through_series_witness :
  mosInput 0 1 (Some 1) sourceNet_v UNKNOWN_NET ExampleDb.exampleDb = Ok (Some 2, ExampleDb.exampleDb) /\
  vlookup (sourceNet_v (netlist ExampleDb.exampleDb)) 0 = Some 1.
Proof.
  assert (mosInput 0 1 (Some 1) sourceNet_v UNKNOWN_NET ExampleDb.exampleDb
          = Ok (Some 2, ExampleDb.exampleDb)) as E by reflexivity.
  split; [exact E |]. exact (proj1 (proj2 (mosInput_not_through_series _ _ _ _ _ _ _ _ E))).
Defined.

(** ** Opposite logic *)

(** The inverter chain of a net, up to its start. *)
Inductive chain (inverter : list Z) : Z -> list Z -> Prop :=
| chain_start : chain inverter UNKNOWN_NET []
| chain_step n i l :
    n <> UNKNOWN_NET -> vlookup inverter n = Some i -> chain inverter i l -> chain inverter n (n :: l).

Section Chains.
Context (inverter : list Z).
Implicit Types (l : list Z) (same inverted : gset Z).

Lemma chain_unique n l : chain inverter n l -> forall l', chain inverter n l' -> l = l'.
Proof.
  induction 1 as [| n i l Hn Hi _ IH]; intros l' H'; inversion H'; simplify_eq; [done.. |].
  f_equal. naive_solver.
Qed.

Lemma chain_suffix n l m : chain inverter n l -> m ∈ l -> exists l1 l2, l = l1 ++ l2 /\ chain inverter m l2.
Proof.
  induction 1 as [| n i l Hn Hi C IH]; [by intros ?%not_elem_of_nil |].
  intros [-> | Hm]%elem_of_cons.
  - exists [], (n :: l). split; [done |]. by econstructor.
  - destruct (IH Hm) as (l1 & l2 & -> & ?). by exists (n :: l1), l2.
Qed.

Lemma chain_NoDup n l : chain inverter n l -> NoDup l.
Proof.
  induction 1 as [| n i l Hn Hi C IH]; [constructor |]. constructor; [| done].
  intros Hin. destruct (chain_suffix _ _ _ C Hin) as (l1 & l2 & -> & C2).
  assert (n :: l1 ++ l2 = l2) as E by (apply (chain_unique n); [by econstructor | done]).
  apply (f_equal length) in E. rewrite length_cons, length_app in E. lia.
Qed.

Lemma chain_range n l m : chain inverter n l -> m ∈ l -> 0 <= m < Z.of_nat (length inverter) /\ m <> UNKNOWN_NET.
Proof.
  induction 1 as [| n i l Hn Hi C IH]; [by intros ?%not_elem_of_nil |].
  intros [-> | Hm]%elem_of_cons; [| by apply IH]. split; [by eapply vlookup_range | done].
Qed.

Lemma chain_length n l : chain inverter n l -> (length l <= length inverter)%nat.
Proof.
  intros C. assert (l ⊆ seqZ 0 (Z.of_nat (length inverter))) as Hsub.
  { intros m Hm. apply elem_of_seqZ. pose proof (chain_range _ _ _ C Hm). lia. }
  pose proof (submseteq_length _ _ (NoDup_submseteq _ _ (chain_NoDup _ _ C) Hsub)) as H.
  rewrite length_seqZ in H. lia.
Qed.

(** The members at the even ([true]) or odd positions of a list. *)
Fixpoint parity (b : bool) (l : list Z) : list Z :=
  match l with
  | [] => []
  | x :: l => if b then x :: parity false l else parity true l
  end.

Lemma elem_of_parity b l m :
  m ∈ parity b l <-> exists i, l !! i = Some m /\ Nat.even i = b.
Proof.
  assert (forall i c, Nat.even (S i) = c <-> Nat.even i = negb c) as Hs.
  { intros i c. rewrite Nat.even_succ, <- Nat.negb_even. by destruct (Nat.even i), c. }
  revert b. induction l as [| x l IH]; intros b; simpl.
  { split; [by intros ?%not_elem_of_nil | by intros (i & ? & _)]. }
  destruct b; [rewrite elem_of_cons |]; rewrite IH; split.
  - intros [-> | (i & Hi & He)]; [by exists 0%nat |]. exists (S i). split; [done |]. by apply Hs.
  - intros ([| i] & E & He); [left; simpl in E; congruence |]. right. exists i. split; [done |]. by apply Hs in He.
  - intros (i & Hi & He). exists (S i). split; [done |]. by apply Hs.
  - intros ([| i] & E & He); [done |]. exists i. split; [done |]. by apply Hs in He.
Qed.

(** What the first loop leaves: the chain split by parity. *)
Lemma logicSets_chain n l : chain inverter n l -> forall fuel b same inverted,
  (length l < fuel)%nat -> UNKNOWN_NET ∉ same -> UNKNOWN_NET ∉ inverted ->
  (forall m, m ∈ l -> m ∉ same /\ m ∉ inverted) ->
  exists same' inverted',
    logicSets fuel inverter b same inverted n = Ok (same', inverted') /\
    (forall m, m ∈ same' <-> m ∈ same \/ m ∈ parity (negb b) l) /\
    (forall m, m ∈ inverted' <-> m ∈ inverted \/ m ∈ parity b l).
Proof.
  induction 1 as [| n i l Hn Hi C IH]; intros fuel b same inverted Hf Us Ui Hd;
    (destruct fuel as [| fuel]; [simpl in Hf; lia |]); simpl.
  - exists same, inverted. split; [done |]. split; intros m; set_solver.
  - rewrite (proj2 (Z.eqb_neq n UNKNOWN_NET) Hn). simpl in Hf.
    destruct (Hd n (list_elem_of_here _ _)) as [Ns Ni].
    rewrite bool_decide_eq_false_2 by done. simpl. rewrite (proj2 (vget_Ok _ _ _) Hi). simpl.
    assert (i <> n /\ (i = UNKNOWN_NET \/ i ∈ l)) as [Hin Hil].
    { assert (NoDup (n :: l)) as [Hnl _]%NoDup_cons by (apply (chain_NoDup n); by econstructor).
      inversion C; subst; [by split; [| left] |]. split; [intros ->; apply Hnl |]; [| right]; apply list_elem_of_here. }
    assert (i ∉ same /\ i ∉ inverted) as [Is Ii].
    { destruct Hil as [-> | Hil]; [done |]. apply Hd. by apply list_elem_of_further. }
    assert (n ∉ l) as Hnl by (eapply NoDup_cons, (chain_NoDup n); by econstructor).
    destruct b; rewrite bool_decide_eq_false_2 by set_solver; simpl.
    + destruct (IH fuel false same ({[n]} ∪ inverted)) as (s' & i' & E & Hs & Hi'); [lia | done | set_solver | |].
      { intros m Hm. destruct (Hd m) as [? ?]; [by apply list_elem_of_further |]. set_solver. }
      exists s', i'. split; [done |]. split; intros m; [rewrite Hs | rewrite Hi']; set_solver.
    + destruct (IH fuel true ({[n]} ∪ same) inverted) as (s' & i' & E & Hs & Hi'); [lia | set_solver | done | |].
      { intros m Hm. destruct (Hd m) as [? ?]; [by apply list_elem_of_further |]. set_solver. }
      exists s', i'. split; [done |]. split; intros m; [rewrite Hs | rewrite Hi']; set_solver.
Qed.

(** The second loop finds a member of the chain in the set of its parity. *)
Lemma oppositeWalk_chain same inverted n l : chain inverter n l -> forall fuel b,
  (length l < fuel)%nat ->
  exists m, oppositeWalk fuel inverter same inverted b n = Ok m /\
    (m <> UNKNOWN_NET <->
     exists k, (k ∈ parity b l /\ k ∈ inverted) \/ (k ∈ parity (negb b) l /\ k ∈ same)).
Proof.
  induction 1 as [| n i l Hn Hi C IH]; intros fuel b Hf; (destruct fuel as [| fuel]; [simpl in Hf; lia |]); simpl.
  - exists UNKNOWN_NET. split; [done |]. split; [done |]. set_solver.
  - rewrite (proj2 (Z.eqb_neq n UNKNOWN_NET) Hn). simpl in Hf.
    case_bool_decide as Hm.
    + exists n. split; [done |]. split; [| done]. intros _. exists n. destruct b; set_solver.
    + rewrite (proj2 (vget_Ok _ _ _) Hi). simpl.
      destruct (IH fuel (negb b) ltac:(lia)) as (m & E & H). exists m. split; [done |]. rewrite H.
      split; intros (k & Hk); exists k; destruct b; simpl in *; set_solver.
Qed.
End Chains.

(** [CheckOppositeLogic] accepts exactly the pairs of nets whose inverter
    chains share a net at an odd distance: when both chains have a start, the
    two loops end without a failed assertion, and the nets are opposite if
    and only if some net is [i] inverters before the first and [j] before the
    second with [i + j] odd. *)
Theorem areOpposite_spec inverter a b la lb :
  chain inverter a la -> chain inverter b lb ->
  exists r, areOpposite inverter a b = Ok r /\
    (r = true <-> exists i j m, la !! i = Some m /\ lb !! j = Some m /\ Nat.even (i + j) = false).
Proof.
  intros Ca Cb. pose proof (chain_length _ _ _ Ca). pose proof (chain_length _ _ _ Cb).
  destruct (logicSets_chain _ _ _ Ca (chainFuel inverter) false ∅ ∅) as (s & t & E & Hs & Ht);
    [unfold chainFuel; lia | set_solver.. |].
  destruct (oppositeWalk_chain inverter s t _ _ Cb (chainFuel inverter) true) as (m & E' & Hm);
    [unfold chainFuel; lia |].
  unfold areOpposite, mbind, outcome_bind. rewrite E, E'. eexists. split; [done |].
  rewrite negb_true_iff, Z.eqb_neq, Hm. setoid_rewrite Hs. setoid_rewrite Ht. simpl.
  setoid_rewrite elem_of_parity. setoid_rewrite Nat.even_add. split.
  - intros (k & [[(j & Hj & Ej) [? | (i & Hi & Ei)]] | [(j & Hj & Ej) [? | (i & Hi & Ei)]]]); [set_solver | | set_solver |];
      exists i, j, k; by rewrite Ei, Ej.
  - intros (i & j & k & Hi & Hj & E1). exists k.
    destruct (Nat.even i) eqn:Ei, (Nat.even j) eqn:Ej; try done; [right | left]; split; eauto.
Qed.

Lemma areOpposite_spec_witness :
  chain [UNKNOWN_NET; 0; 1] 2 [2; 1; 0] /\ chain [UNKNOWN_NET; 0; 1] 1 [1; 0] /\
  exists r, areOpposite [UNKNOWN_NET; 0; 1] 2 1 = Ok r /\
    (r = true <-> exists i j m, [2; 1; 0] !! i = Some m /\ [1; 0] !! j = Some m /\ Nat.even (i + j) = false).
Proof.
  assert (chain [UNKNOWN_NET; 0; 1] 1 [1; 0]) as C.
  { eapply (chain_step _ 1 0); [done | done |]. eapply (chain_step _ 0); [done | reflexivity | constructor]. }
  assert (chain [UNKNOWN_NET; 0; 1] 2 [2; 1; 0]) as C2 by (eapply (chain_step _ 2 1); done).
  split; [done |]. split; [done |]. by apply areOpposite_spec.
Defined.

(** The second loop of [CheckOppositeLogic] does not end when it enters a
    pair of cross-coupled inverters that is not part of the first chain: no
    number of steps is enough.  (The first loop stops at the first net it
    meets again.) *)
Theorem oppositeWalk_latch inverter same inverted x y b :
  vlookup inverter x = Some y -> vlookup inverter y = Some x ->
  x <> UNKNOWN_NET -> y <> UNKNOWN_NET -> x ∉ same ∪ inverted -> y ∉ same ∪ inverted ->
  forall fuel, oppositeWalk fuel inverter same inverted b x = Err OutOfFuel.
Proof.
  intros Hx Hy Nx Ny Fx Fy fuel. revert x y b Hx Hy Nx Ny Fx Fy.
  induction fuel as [| fuel IH]; intros x y b Hx Hy Nx Ny Fx Fy; [done |]. simpl.
  rewrite (proj2 (Z.eqb_neq x UNKNOWN_NET) Nx), bool_decide_eq_false_2 by (destruct b; set_solver).
  rewrite (proj2 (vget_Ok _ _ _) Hx). simpl. by apply (IH y x).
Qed.

Lemma oppositeWalk_latch_witness :
  logicSets 9 [UNKNOWN_NET; 0; 3; 2] false ∅ ∅ 1 = Ok ({[1]}, {[0]}) /\
  forall fuel, oppositeWalk fuel [UNKNOWN_NET; 0; 3; 2] {[1]} {[0]} true 2 = Err OutOfFuel.
Proof.
  split; [reflexivity |].
  apply (oppositeWalk_latch [UNKNOWN_NET; 0; 3; 2] {[1]} {[0]} 2 3 true); [done.. | set_solver | set_solver].
Defined.

End InverterCheck.
