(* ===== verification/GateSource.v ===== *)
(** * Gate against source checks (CCvcDb_error.cc)

    [FindNmosGateVsSourceErrors] reports the transistors whose gate, at its
    lowest level, is higher than the source or drain, so that the transistor
    is never off; [FindPmosGateVsSourceErrors] is its mirror image at the
    highest levels.  The part of a check that only looks at levels is the pure
    function [nmosGateCase] or [pmosGateCase]. *)

From S2P Require Import Prelude CvcTypes EventQueue VirtualNet Numeric Power Db ExampleDb.
From S2P Require Import Connection Short Overvoltage InverterCheck.
From stdpp Require Import base list strings gmap sets.
From Stdlib Require Import ZArith Lia.
#[local] Open Scope Z_scope.

Module GateSource.
Import VirtualNet.VirtualNet Power.Power Db.Db Connection.Connection Short.Short
  Overvoltage.Overvoltage InverterCheck.InverterCheck.

(** [min] and [max] of Cvc.hh on a [voltage_t] and a sum: the second argument
    is converted to the type of the first. *)
Definition min16 (a b : Z) : Z := if a <? s16 b then a else s16 b.
Definition max16 (a b : Z) : Z := if s16 b <? a then a else s16 b.

(** The levels decide nothing ([continue]), ask for the capacitor test, or
    leave a possible error. *)
Inductive gateCase : Set := Skipped | CapacitorTest | Remains.

#[export] Instance gateCase_eq_dec : EqDecision gateCase.
Proof. solve_decision. Defined.

Definition nmosGateCase (c : CFullConnection) (theThreshold : Z) (theMinVthGates : bool) : gateCase :=
  let G := minV c GATE in let S := minV c SOURCE in let D := minV c DRAIN in
  let myGateSourceDifference := s16 (G - min16 S (S + fVth c)) in
  let myGateDrainDifference := s16 (G - min16 D (D + fVth c)) in
  let m := s16 (Z.min 0 (fVth c)) in
  let m := if CheckTerminalMinVoltages c (mask [GATE; SOURCE]) && (m <? myGateSourceDifference)
              && negb (fGateId c =? fDrainId c) then myGateSourceDifference else m in
  let m := if CheckTerminalMinVoltages c (mask [GATE; DRAIN]) && (m <? myGateDrainDifference)
              && negb (fGateId c =? fSourceId c) then myGateDrainDifference else m in
  if (m <=? theThreshold) || (theMinVthGates && (m <? fVth c)) then Skipped
  else if CheckTerminalMaxVoltages c (mask [SOURCE]) then
    if CheckTerminalMaxVoltages c (mask [DRAIN]) then
      if Z.max (maxV c SOURCE) (maxV c DRAIN) - theThreshold <=? G then Skipped
      else if fSourceId c =? fDrainId c then CapacitorTest else Remains
    else if maxV c SOURCE - theThreshold <=? G then Skipped else Remains
  else if CheckTerminalMaxVoltages c (mask [DRAIN]) then
    if maxV c DRAIN - theThreshold <=? G then Skipped else Remains
  else Skipped.

Definition pmosGateCase (c : CFullConnection) (theThreshold : Z) (theMinVthGates : bool) : gateCase :=
  let G := maxV c GATE in let S := maxV c SOURCE in let D := maxV c DRAIN in
  let myGateSourceDifference := s16 (max16 S (S + fVth c) - G) in
  let myGateDrainDifference := s16 (max16 D (D + fVth c) - G) in
  let m := s16 (Z.max 0 (fVth c)) in
  let m := if CheckTerminalMaxVoltages c (mask [GATE; SOURCE]) && (m <? myGateSourceDifference)
              && negb (fGateId c =? fDrainId c) then myGateSourceDifference else m in
  let m := if CheckTerminalMaxVoltages c (mask [GATE; DRAIN]) && (m <? myGateDrainDifference)
              && negb (fGateId c =? fSourceId c) then myGateDrainDifference else m in
  if (m <=? theThreshold) || (theMinVthGates && (m <? - fVth c)) then Skipped
  else if CheckTerminalMinVoltages c (mask [SOURCE]) then
    if CheckTerminalMinVoltages c (mask [DRAIN]) then
      if G <=? Z.min (minV c SOURCE) (minV c DRAIN) + theThreshold then Skipped
      else if fSourceId c =? fDrainId c then CapacitorTest else Remains
    else if G <=? minV c SOURCE + theThreshold then Skipped else Remains
  else if CheckTerminalMinVoltages c (mask [DRAIN]) then
    if G <=? minV c DRAIN + theThreshold then Skipped else Remains
  else Skipped.

(** A capacitor between two supplies, or not between inputs and supplies, is
    ignored.  Both checks look at the min nets. *)
Definition ignoredCapacitor (c : CFullConnection) : DB bool :=
  let at_p n : DB (option CPower) := a ← powerAt n; pointeeM a in
  g ← at_p (fGateId c);
  dr ← at_p (fDrainId c);
  if IsPower_ g && IsPower_ dr then mret true
  else
    s ← at_p (finalNetId (master (atSource (fMin c))));
    if negb (IsInputOrPower_ s) then mret true
    else m ← at_p (finalNetId (master (atGate (fMin c)))); mret (negb (IsInputOrPower_ m)).

(** The gate is related to the source and to the drain. *)
Definition relatedSides (q : eventQueue_t) (x : CSample) (t : terminal_t) : DB bool :=
  s ← IsRelatedM (power_p (terminal x t)) (power_p (atSource x)) q q true true;
  if (s : bool) then IsRelatedM (power_p (terminal x t)) (power_p (atDrain x)) q q true true else mret false.

(** The verdict of one check: no error, an error of unrelated powers, or an
    error of levels, with the [Gate-source = Vth] note. *)
Inductive gateVerdict : Set := NoGateError | Unrelated | GateError (vth : bool).

Section OneSide.
Context (q : eventQueue_t) (sample : CFullConnection -> CSample) (calculated : powerType_t)
  (case : CFullConnection -> Z -> bool -> gateCase).

Definition vthLevels (c : CFullConnection) : bool :=
  let x := sample c in
  (voltage (atGate x) - voltage (atSource x) =? fVth c) || (voltage (atGate x) - voltage (atDrain x) =? fVth c).

Definition gateVerdictOf (c : CFullConnection) (p : CPower) : DB gateVerdict :=
  related ← relatedSides q (sample c) GATE;
  if negb related then mret Unrelated
  else
    t ← checks cvcGateErrorThreshold;
    v ← checks cvcMinVthGates;
    skip ← (match case c t v with
            | Skipped => mret true
            | Remains => mret false
            | CapacitorTest => ignoredCapacitor c
            end);
    if (skip : bool) then mret NoGateError
    else
      let myVthFlag := typeBit p calculated && vthLevels c in
      g ← checks cvcVthGates;
      mret (if myVthFlag && negb g then NoGateError else GateError myVthFlag).

(** The tests on the power of the gate that come first. *)
Definition checkGate (c : CFullConnection) (report : gateVerdict -> CPower -> DB unit) : DB unit :=
  p ← pointeeM (power_p (atGate (sample c)));
  match p with
  | None => mret tt
  | Some p =>
      analog ← checks cvcAnalogGates;
      if typeBit p ANALOG_BIT && negb analog then mret tt
      else if IsSCRCPower (Some p) then mret tt
      else v ← gateVerdictOf c p; report v p
  end.
End OneSide.

(** [IncrementDeviceError(...) < limit || limit == 0], and the explanation. *)
Definition countAndExplain (theDeviceId : Z) (theError : cvcError_t) (theExplanation : string) : DB unit :=
  n ← IncrementDeviceError theDeviceId theError;
  limit ← gets (fun d => cvcCircuitErrorLimit (cvcParameters d));
  when ((n <? limit) || (limit =? 0))
    (reportM (if IsEmpty theExplanation then ReportedError theError theDeviceId
              else ExplainedError theError theDeviceId theExplanation)).

Definition reportGate (c : CFullConnection) (theError : cvcError_t) (v : gateVerdict) : DB unit :=
  match v with
  | NoGateError => mret tt
  | Unrelated => countAndExplain (fDeviceId c) theError "Unrelated power error"
  | GateError b => countAndExplain (fDeviceId c) theError (if b then "Gate-source = Vth" else "")
  end.

Definition nmosGate (c : CFullConnection) : DB unit :=
  checkGate MIN_QUEUE fMin MIN_CALCULATED_BIT nmosGateCase c (fun v _ => reportGate c NMOS_GATE_SOURCE v).

(** With [cvcLogicDiodes], an error at a calculated gate without a power of its
    own is put off: the gate is expected to be low. *)
Definition expectLow (theNetId : Z) : DB unit :=
  a ← allocM (fun id =>
        set_extraData (Some (mkExtraPowerData "0" "" "" "" "" ∅ "" "" UNKNOWN_VOLTAGE UNKNOWN_VOLTAGE))
          (set_definition "GateVsSource logic check"
            (set_typeBit INPUT_BIT false (CPower_net theNetId id))));
  modify (fun d =>
    let x := cvcParameters d in let y := cvcChecks x in
    set_cvcParameters (mkParameters (cvcCircuitErrorLimit x) (cvcLeakLimit x) (cvcSOI x)
      (cvcMosDiodeErrorThreshold x) (cvcShortErrorThreshold x) (cvcFloatingErrorThreshold x)
      (cvcCellErrorLimitFile x)
      (mkCheckParameters (cvcVthGates y) (cvcMinVthGates y) (cvcIgnoreVthFloating y)
         (cvcIgnoreNoLeakFloating y) (cvcLeakOvervoltage y) (cvcLogicDiodes y) (cvcAnalogGates y)
         (cvcBiasErrorThreshold y) (cvcForwardErrorThreshold y) (cvcGateErrorThreshold y)
         (cvcLeakErrorThreshold y) (cvcExpectedErrorThreshold y) (cvcOvervoltageErrorThreshold y)
         (cvcModelListMap y) (cvcExpectedLevelPtrList y ++ [a]))) d).

Definition pmosGate (c : CFullConnection) : DB unit :=
  checkGate MAX_QUEUE fMax MAX_CALCULATED_BIT pmosGateCase c (fun v p =>
    match v with
    | NoGateError => mret tt
    | _ =>
        l ← checks cvcLogicDiodes;
        put_off ← (if typeBit p MAX_CALCULATED_BIT && (l : bool) then
                     a ← powerAt (fGateId c); mret (bool_decide (a = None))
                   else mret false);
        if (put_off : bool) then expectLow (fGateId c) else reportGate c PMOS_GATE_SOURCE v
    end).

(** The loop over all devices of a type. *)
Definition forDevicesOfType (ofType : modelType_t -> bool) (body : CFullConnection -> DB unit) : DB unit :=
  forAllDevices (fun device_it =>
    dev ← deviceOf device_it;
    if negb (ofType (modelType (model_p dev))) then mret tt
    else c ← MapFullDeviceNets device_it; body c).

Definition FindNmosGateVsSourceErrors (io : list (list Z)) (opposite : list (list Z * list Z)) : DB unit :=
  _ ← forDevicesOfType IsNmos_ nmosGate;
  _ ← CheckInverterIO io NMOS;
  _ ← CheckOppositeLogic opposite NMOS;
  PrintAndResetCircuitErrors 0 [].

Definition FindPmosGateVsSourceErrors (io : list (list Z)) (opposite : list (list Z * list Z)) : DB unit :=
  _ ← forDevicesOfType IsPmos_ pmosGate;
  _ ← CheckInverterIO io PMOS;
  _ ← CheckOppositeLogic opposite PMOS;
  PrintAndResetCircuitErrors 0 [].

End GateSource.
