(* ===== verification/Bias.v ===== *)
(** * Source and drain against bulk (CCvcDb_error.cc)

    [FindNmosSourceVsBulkErrors] reports the NMOS whose bulk can be higher than
    the source or drain, so that the junction conducts;
    [FindPmosSourceVsBulkErrors] is the opposite check.  With [gSetup_cvc] the
    nets of the errors at the min (max) levels are collected instead, for the
    setup report. *)

From S2P Require Import Prelude CvcTypes EventQueue VirtualNet Numeric Power Db ExampleDb.
From S2P Require Import Connection Short Overvoltage GateSource.
From stdpp Require Import base list strings gmap sets.
From Stdlib Require Import ZArith Lia.
#[local] Open Scope Z_scope.

Module Bias.
Import VirtualNet.VirtualNet Power.Power Db.Db Connection.Connection Short.Short
  Overvoltage.Overvoltage GateSource.GateSource.

Inductive biasVerdict : Set := NoBiasError | UnrelatedBias | BiasError | SourceError | DrainError.

(** A chain of [else if]s: the verdict of the first test that holds. *)
Fixpoint firstOf (l : list (DB bool * biasVerdict)) : DB biasVerdict :=
  match l with
  | [] => mret NoBiasError
  | (test, v) :: l => b ← test; if (b : bool) then mret v else firstOf l
  end.

(** ** The tests of one side *)

Section Tests.
Context (c : CFullConnection) (theThreshold : Z).

Definition resistanceAt (x : CSample) (t : terminal_t) : Z := finalResistance (master (terminal x t)).
Definition levelAt (x : CSample) (t : terminal_t) : Z := voltage (terminal x t).

(** NMOS at the min and sim levels: the bulk is higher, or equal and farther
    from the power. *)
Definition bulkAbove (x : CSample) (t : terminal_t) : bool :=
  known x (mask [BULK; t]) &&
  ((theThreshold <? levelAt x BULK - levelAt x t) ||
   ((levelAt x t =? levelAt x BULK) && (theThreshold =? 0) && (resistanceAt x t <? resistanceAt x BULK))).

(** PMOS at the max and sim levels. *)
Definition bulkBelow (x : CSample) (t : terminal_t) : bool :=
  known x (mask [BULK; t]) &&
  ((theThreshold <? levelAt x t - levelAt x BULK) ||
   ((levelAt x t =? levelAt x BULK) && (theThreshold =? 0) && (resistanceAt x t <? resistanceAt x BULK))).

Definition pathContainsM (q : eventQueue_t) (theSearchNet theTargetNet : Z) : DB bool :=
  n ← GetEquivalentNet theTargetNet;
  v ← gets (netsOf q);
  lift (PathContains v theSearchNet n).

(** NMOS at the max levels, PMOS at the min levels: a difference is excused when
    the level of the side was derived from the bulk, equal levels when there is
    no leak path. [far] is the level difference, [opposite] the level of the
    bulk at the other sample point. *)
Definition bulkBackwards (q : eventQueue_t) (x : CSample) (far opposite : Z) (openBulk : option Z)
    (defaultNet : CPower -> Z) (t : terminal_t) : DB bool :=
  if negb (known x (mask [BULK; t])) then mret false
  else
    derived ← (if theThreshold <? far then p ← arrow (power_p (terminal x t));
                                          mret (negb (defaultNet p =? fBulkId c))
               else mret false);
    if (derived : bool) then mret true
    else if (levelAt x t =? levelAt x BULK) && (theThreshold =? 0) && negb (levelAt x t =? opposite)
            && (resistanceAt x BULK <? resistanceAt x t) then
      b ← arrow openBulk;
      if typeBit b HIZ_BIT then mret false
      else p ← pathContainsM q (netOfTerminal c t) (fBulkId c); mret (negb p)
    else mret false.

(** An open bulk: a side that is not related to it.  For the sim level the side
    must also be known and on the wrong side of the bulk. *)
Definition unrelatedSide (q qt : eventQueue_t) (bulk side : option Z) : DB bool :=
  match side with
  | None => mret false
  | Some _ => r ← IsRelatedM bulk side q qt false false; mret (negb r)
  end.

Definition unrelatedSim (q : eventQueue_t) (bulk : option Z) (t : terminal_t) (wrong : Z -> bool) : DB bool :=
  let x := terminal (fSim c) t in
  p ← pointeeM (power_p x);
  match p with
  | None => mret false
  | Some p =>
      if negb (IsKnownVoltage_ (simVoltage p)) then mret false
      else
        r ← IsRelatedM bulk (power_p x) q SIM_QUEUE false false;
        mret (negb r && wrong (voltage x))
  end.

Definition openBulkTests (q : eventQueue_t) (bulk : option Z) (wrong : Z -> bool) : DB biasVerdict :=
  let side t :=
    [(unrelatedSide q MIN_QUEUE bulk (power_p (terminal (fMin c) t)), BiasError);
     (unrelatedSim q bulk t wrong, BiasError);
     (unrelatedSide q MAX_QUEUE bulk (power_p (terminal (fMax c) t)), BiasError)] in
  firstOf (side SOURCE ++ side DRAIN).

(** Some side of the device has a power. *)
Definition connectedSides : bool :=
  existsb (fun x : CSample => bool_decide (is_Some (power_p (atSource x))) || bool_decide (is_Some (power_p (atDrain x))))
    [fMin c; fSim c; fMax c].

Definition nmosBiasTests : DB biasVerdict :=
  let far t := maxV c BULK - maxV c t in
  let back t := bulkBackwards MAX_QUEUE (fMax c) (far t) (minV c BULK) (power_p (atBulk (fMin c))) defaultMaxNet t in
  firstOf
    [(mret (bulkAbove (fMin c) SOURCE), SourceError); (mret (bulkAbove (fMin c) DRAIN), DrainError);
     (mret (bulkAbove (fSim c) SOURCE), BiasError); (mret (bulkAbove (fSim c) DRAIN), BiasError);
     (back SOURCE, BiasError); (back DRAIN, BiasError)].

Definition pmosBiasTests : DB biasVerdict :=
  let far t := minV c t - minV c BULK in
  let back t := bulkBackwards MIN_QUEUE (fMin c) (far t) (maxV c BULK) (power_p (atBulk (fMax c))) defaultMinNet t in
  firstOf
    [(back SOURCE, BiasError); (back DRAIN, BiasError);
     (mret (bulkBelow (fSim c) SOURCE), BiasError); (mret (bulkBelow (fSim c) DRAIN), BiasError);
     (mret (bulkBelow (fMax c) SOURCE), SourceError); (mret (bulkBelow (fMax c) DRAIN), DrainError)].
End Tests.

(** ** The verdict of a device *)

(** [max bulk = min source = min drain], unknown sides apart. *)
Definition sameSides (bulk s dr : Z) : bool :=
  ((bulk =? s) || (s =? UNKNOWN_VOLTAGE)) && ((bulk =? dr) || (dr =? UNKNOWN_VOLTAGE)).

Definition bulkRelated (q : eventQueue_t) (x : CSample) : DB bool :=
  match power_p (atBulk x) with None => mret true | Some _ => relatedSides q x BULK end.

Definition nmosBias (c : CFullConnection) : DB biasVerdict :=
  if (fSourceId c =? fDrainId c) && (fSourceId c =? fBulkId c) then mret NoBiasError
  else
    related ← bulkRelated MIN_QUEUE (fMin c);
    if negb related then mret UnrelatedBias
    else if sameSides (maxV c BULK) (minV c SOURCE) (minV c DRAIN) then mret NoBiasError
    else
      t ← checks cvcBiasErrorThreshold;
      let bulk := power_p (atBulk (fMin c)) in
      open ← openPower bulk;
      if (open : bool) then
        if (fSourceId c =? fBulkId c) && (fDrainId c =? fBulkId c) then mret NoBiasError
        else openBulkTests c MIN_QUEUE bulk (fun v => v <? maxV c BULK)
      else if negb (CheckTerminalMinVoltages c (mask [BULK])) then
        mret (if connectedSides c then BiasError else NoBiasError)
      else nmosBiasTests c t.

Definition pmosBias (c : CFullConnection) : DB biasVerdict :=
  if (fSourceId c =? fDrainId c) && (fSourceId c =? fBulkId c) then mret NoBiasError
  else
    related ← bulkRelated MAX_QUEUE (fMax c);
    if negb related then mret UnrelatedBias
    else if sameSides (minV c BULK) (maxV c SOURCE) (maxV c DRAIN) then mret NoBiasError
    else
      t ← checks cvcBiasErrorThreshold;
      let bulk := power_p (atBulk (fMax c)) in
      open ← openPower bulk;
      if (open : bool) then openBulkTests c MAX_QUEUE bulk (fun v => minV c BULK <? v)
      else if negb (CheckTerminalMaxVoltages c (mask [BULK])) then
        mret (if connectedSides c then BiasError else NoBiasError)
      else pmosBiasTests c t.

(** ** The loops *)

(** The report, or in a setup run the nets to report. *)
Definition reportBias (gSetup_cvc : bool) (theError : cvcError_t) (c : CFullConnection) (v : biasVerdict)
    (myProblemNets : gset Z) : DB (gset Z) :=
  if gSetup_cvc then
    mret (match v with
          | DrainError => {[fDrainId c]} ∪ myProblemNets
          | SourceError => {[fSourceId c]} ∪ myProblemNets
          | _ => myProblemNets
          end)
  else
    match v with
    | NoBiasError => mret myProblemNets
    | UnrelatedBias => _ ← countAndExplain (fDeviceId c) theError "Unrelated power error"; mret myProblemNets
    | _ => _ ← countAndReport (fDeviceId c) theError; mret myProblemNets
    end.

Fixpoint biasLoop (gSetup_cvc : bool) (theError : cvcError_t) (ofType : modelType_t -> bool)
    (verdict : CFullConnection -> DB biasVerdict) (n : nat) (device_it : Z) (myProblemNets : gset Z) : DB (gset Z) :=
  match n with
  | O => mret myProblemNets
  | S n =>
      dev ← deviceOf device_it;
      l ← (if negb (ofType (modelType (model_p dev))) then mret myProblemNets
           else
             c ← MapFullDeviceNets device_it;
             v ← verdict c;
             reportBias gSetup_cvc theError c v myProblemNets);
      biasLoop gSetup_cvc theError ofType verdict n (device_it + 1) l
  end.

(** The result is the set of nets the setup report prints. *)
Definition findBias (gSetup_cvc : bool) (theError : cvcError_t) (ofType : modelType_t -> bool)
    (verdict : CFullConnection -> DB biasVerdict) : DB (gset Z) :=
  n ← nl deviceCount;
  l ← biasLoop gSetup_cvc theError ofType verdict (Z.to_nat n) 0 ∅;
  _ ← when (negb gSetup_cvc) (PrintAndResetCircuitErrors 0 []);
  mret l.

Definition FindNmosSourceVsBulkErrors (gSetup_cvc : bool) : DB (gset Z) :=
  findBias gSetup_cvc NMOS_SOURCE_BULK IsNmos_ nmosBias.
Definition FindPmosSourceVsBulkErrors (gSetup_cvc : bool) : DB (gset Z) :=
  findBias gSetup_cvc PMOS_SOURCE_BULK IsPmos_ pmosBias.

(** ** Devices that pass *)

Lemma firstOf_none test v l d d' :
  v <> NoBiasError -> firstOf ((test, v) :: l) d = Ok (NoBiasError, d') ->
  exists d1, test d = Ok (false, d1) /\ firstOf l d1 = Ok (NoBiasError, d').
Proof.
  intros Hv H. simpl in H. apply M_bind_inv in H as (b & d1 & E & H).
  destruct b; [by apply mret_inv in H as [? _] |]. by exists d1.
Qed.

(** The tests on levels that did not hold, whatever the others did. *)
Ltac none_of H :=
  repeat (let E := fresh "T" in apply firstOf_none in H as (? & E & H); [| done]; try reader_inv E).

Lemma nmosBiasTests_none c t d d' :
  nmosBiasTests c t d = Ok (NoBiasError, d') ->
  bulkAbove t (fMin c) SOURCE = false /\ bulkAbove t (fMin c) DRAIN = false /\
  bulkAbove t (fSim c) SOURCE = false /\ bulkAbove t (fSim c) DRAIN = false.
Proof. unfold nmosBiasTests. intros H. none_of H. split_and!; congruence. Qed.

Lemma pmosBiasTests_none c t d d' :
  pmosBiasTests c t d = Ok (NoBiasError, d') ->
  bulkBelow t (fMax c) SOURCE = false /\ bulkBelow t (fMax c) DRAIN = false /\
  bulkBelow t (fSim c) SOURCE = false /\ bulkBelow t (fSim c) DRAIN = false.
Proof. unfold pmosBiasTests. intros H. none_of H. split_and!; congruence. Qed.

Lemma known_side x s :
  known x (mask [BULK; s]) = IsKnownVoltage_ (levelAt x BULK) && IsKnownVoltage_ (levelAt x s).
Proof. rewrite known_mask. simpl. by rewrite andb_true_r. Qed.

Section Passed.
Context (c : CFullConnection) (d : CCvcDb) (s : terminal_t).
Context (Hs : s = SOURCE \/ s = DRAIN) (Hself : fSourceId c = fDrainId c -> fSourceId c <> fBulkId c).
Abbreviation threshold := (cvcBiasErrorThreshold (cvcChecks (cvcParameters d))).

Lemma not_self : (fSourceId c =? fDrainId c) && (fSourceId c =? fBulkId c) = false.
Proof. destruct (Z.eqb_spec (fSourceId c) (fDrainId c)), (Z.eqb_spec (fSourceId c) (fBulkId c)); naive_solver. Qed.

Lemma sameSides_side b v w :
  sameSides b v w = true -> IsKnownVoltage_ (if decide (s = SOURCE) then v else w) = true ->
  b = if decide (s = SOURCE) then v else w.
Proof.
  unfold sameSides, IsKnownVoltage_. intros H Hk. bool_to_prop.
  destruct (decide (s = SOURCE)); destruct (_ =? UNKNOWN_VOLTAGE) eqn:E; try done;
    rewrite ?E, ?orb_false_r in *; lia.
Qed.

Lemma relatedSides_state q x u b d' : relatedSides q x u d = Ok (b, d') -> d' = d.
Proof.
  unfold relatedSides. intros H. run_inv H. apply IsRelatedM_state in R as ->.
  destruct x0; [by eapply IsRelatedM_state | by reader_inv H].
Qed.

Lemma bulkRelated_state q x b d' : bulkRelated q x d = Ok (b, d') -> d' = d.
Proof. unfold bulkRelated. destruct (power_p _); [apply relatedSides_state | by intros [_ ->]%mret_inv]. Qed.

Lemma nmosBias_passed d' :
  openPower (power_p (atBulk (fMin c))) d = Ok (false, d) ->
  nmosBias c d = Ok (NoBiasError, d') ->
  IsKnownVoltage_ (minV c BULK) = true -> IsKnownVoltage_ (minV c s) = true ->
  minV c BULK <= maxV c BULK -> 0 <= threshold -> minV c BULK - minV c s <= threshold.
Proof.
  intros Ho H Hb Hk Hle Ht. unfold nmosBias in H. rewrite not_self in H. run_inv H.
  apply bulkRelated_state in R as ->. destruct x; [| by reader_inv H]. cbn [negb] in H.
  destruct (sameSides _ _ _) eqn:E.
  { apply sameSides_side in E; destruct Hs as [-> | ->]; simpl in *; try done; lia. }
  run_inv H. rewrite Ho in R. injection R as <- <-. reader_inv H.
  unfold CheckTerminalMinVoltages in H. rewrite known_mask in H. cbn [forallb] in H.
  fold (minV c BULK) in H. rewrite Hb in H. cbn [negb andb] in H.
  apply nmosBiasTests_none in H as (T1 & T2 & _).
  assert (bulkAbove threshold (fMin c) s = false) as T by (by destruct Hs as [-> | ->]).
  unfold bulkAbove in T. rewrite known_side in T. unfold levelAt in T.
  fold (minV c BULK) (minV c s) in T. rewrite Hb, Hk in T. simpl in T. bool_to_prop. lia.
Qed.

Lemma pmosBias_passed d' :
  openPower (power_p (atBulk (fMax c))) d = Ok (false, d) ->
  pmosBias c d = Ok (NoBiasError, d') ->
  IsKnownVoltage_ (maxV c BULK) = true -> IsKnownVoltage_ (maxV c s) = true ->
  minV c BULK <= maxV c BULK -> 0 <= threshold -> maxV c s - maxV c BULK <= threshold.
Proof.
  intros Ho H Hb Hk Hle Ht. unfold pmosBias in H. rewrite not_self in H. run_inv H.
  apply bulkRelated_state in R as ->. destruct x; [| by reader_inv H]. cbn [negb] in H.
  destruct (sameSides _ _ _) eqn:E.
  { apply sameSides_side in E; destruct Hs as [-> | ->]; simpl in *; try done; lia. }
  run_inv H. rewrite Ho in R. injection R as <- <-. reader_inv H.
  unfold CheckTerminalMaxVoltages in H. rewrite known_mask in H. cbn [forallb] in H.
  fold (maxV c BULK) in H. rewrite Hb in H. cbn [negb andb] in H.
  apply pmosBiasTests_none in H as (T1 & T2 & _).
  assert (bulkBelow threshold (fMax c) s = false) as T by (by destruct Hs as [-> | ->]).
  unfold bulkBelow in T. rewrite known_side in T. unfold levelAt in T.
  fold (maxV c BULK) (maxV c s) in T. rewrite Hb, Hk in T. simpl in T. bool_to_prop. lia.
Qed.
End Passed.

(** A transistor that passes the bias check has no forward biased junction:
    at the min levels the bulk of an NMOS is not above a known source or drain
    by more than the threshold, at the max levels the bulk of a PMOS not below
    it.  (The bulk has a known level that is not open, and its min level is not
    above its max level; a device whose source, drain and bulk are one net is
    not checked.) *)
Theorem passed_bias_is_safe c d d' s :
  s = SOURCE \/ s = DRAIN -> (fSourceId c = fDrainId c -> fSourceId c <> fBulkId c) ->
  minV c BULK <= maxV c BULK -> 0 <= cvcBiasErrorThreshold (cvcChecks (cvcParameters d)) ->
  (openPower (power_p (atBulk (fMin c))) d = Ok (false, d) ->
   nmosBias c d = Ok (NoBiasError, d') ->
   IsKnownVoltage_ (minV c BULK) = true -> IsKnownVoltage_ (minV c s) = true ->
   minV c BULK - minV c s <= cvcBiasErrorThreshold (cvcChecks (cvcParameters d))) /\
  (openPower (power_p (atBulk (fMax c))) d = Ok (false, d) ->
   pmosBias c d = Ok (NoBiasError, d') ->
   IsKnownVoltage_ (maxV c BULK) = true -> IsKnownVoltage_ (maxV c s) = true ->
   maxV c s - maxV c BULK <= cvcBiasErrorThreshold (cvcChecks (cvcParameters d))).
Proof.
  intros Hs Hself Hle Ht. split; intros Ho H Hb Hk.
  - by eapply nmosBias_passed.
  - by eapply pmosBias_passed.
Qed.

Lemma passed_bias_is_safe_witness :
  exists d', nmosBias (exampleConnection 1200) ExampleDb.exampleDb = Ok (NoBiasError, d') /\
    minV (exampleConnection 1200) BULK - minV (exampleConnection 1200) SOURCE <= 0.
Proof.
  assert (exists d', nmosBias (exampleConnection 1200) ExampleDb.exampleDb = Ok (NoBiasError, d')) as [d' E].
  { eexists. vm_compute. reflexivity. }
  exists d'. split; [exact E |].
  refine (proj1 (passed_bias_is_safe (exampleConnection 1200) ExampleDb.exampleDb d' SOURCE _ _ _ _) _ E _ _);
    try reflexivity; try (vm_compute; congruence). by left.
Defined.
End Bias.
