(* ===== verification/Diode.v ===== *)
(** * Forward biased diodes and LDD transistors (CCvcDb_error.cc, CCvcDb_utility.cc)

    [FindForwardBiasDiodes] checks the diodes of every device that is not a
    transistor: [SetDiodeConnections] moves the anode to the source and the
    cathode to the drain.  [FindLDDErrors] checks that the lightly doped side of
    an LDD transistor is the side of the higher (lower) voltage. *)

From S2P Require Import Prelude CvcTypes EventQueue VirtualNet Numeric Power Db ExampleDb.
From S2P Require Import Connection Short Overvoltage GateSource.
From stdpp Require Import base list strings gmap sets.
From Stdlib Require Import ZArith Lia.
#[local] Open Scope Z_scope.

Module Diode.
Import VirtualNet.VirtualNet Power.Power Db.Db Connection.Connection Short.Short
  Overvoltage.Overvoltage GateSource.GateSource.

(** ** The terminals of a diode *)

(** The terminal of a pin of a device, by its base type. *)
Definition pinTerminal (theBaseType : string) (pin : Z) : outcome terminal_t :=
  let pick l := match l !! Z.to_nat (pin - 1) with
                | Some t => if 0 <? pin then Ok t else throw EInvalidTerminal
                | None => throw EInvalidTerminal
                end in
  if bool_decide (theBaseType = "M"%string) then pick [DRAIN; GATE; SOURCE; BULK]
  else if bool_decide (theBaseType ∈ ["D"; "R"; "C"]%string) then pick [SOURCE; DRAIN; BULK]
  else if bool_decide (theBaseType = "Q"%string) then pick [SOURCE; GATE; DRAIN]
  else throw EUnknownModel.

Definition originalOf (c : CFullConnection) (t : terminal_t) : Z :=
  match t with
  | GATE => originalGateId c | SOURCE => originalSourceId c
  | DRAIN => originalDrainId c | BULK => originalBulkId c
  end.

Definition diodeSample (a k : terminal_t) (x : CSample) : CSample :=
  mkSample (atGate x) (terminal x a) (terminal x k) (atBulk x).

(** The connections with the anode as source and the cathode as drain. *)
Definition diodeConnections (a k : terminal_t) (c : CFullConnection) : CFullConnection :=
  mkFull (originalOf c a) (originalGateId c) (originalOf c k) (originalBulkId c)
    (netOfTerminal c a) (fGateId c) (netOfTerminal c k) (fBulkId c)
    (diodeSample a k (fMin c)) (diodeSample a k (fSim c)) (diodeSample a k (fMax c))
    (fDevice c) (fDeviceId c) (fResistance c).

Definition SetDiodeConnections (theDiodePair : Z * Z) (c : CFullConnection) : outcome CFullConnection :=
  let base := baseType (model_p (fDevice c)) in
  a ← pinTerminal base theDiodePair.1;
  k ← pinTerminal base theDiodePair.2;
  Ok (diodeConnections a k c).

(** ** Forward bias *)

Definition resAt (x : CSample) (t : terminal_t) : Z := finalResistance (master (terminal x t)).

Definition pathCrossesM (q : eventQueue_t) (n : Z) (qt : eventQueue_t) (m : Z) : DB bool :=
  v ← gets (netsOf q);
  w ← gets (netsOf qt);
  lift (PathCrosses v n w m).

(** The levels to compare: the max level of the anode and the min level of the
    cathode, unless both sides hang on one power.  [None] is [continue]. *)
Definition diodeLevels (c : CFullConnection) : DB (option (Z * Z)) :=
  let minS := minV c SOURCE in let minD := minV c DRAIN in
  let maxS := maxV c SOURCE in let maxD := maxV c DRAIN in
  let sameMin := bool_decide (power_p (atSource (fMin c)) = power_p (atDrain (fMin c))) in
  let sameMax := bool_decide (power_p (atSource (fMax c)) = power_p (atDrain (fMax c))) in
  if sameMin && (maxS =? maxD) && (minS =? maxD) then mret None
  else
    let rS := resAt (fMin c) SOURCE in let rD := resAt (fMin c) DRAIN in
    let mySource := if sameMin && (rS <? rD) then minS else UNKNOWN_VOLTAGE in
    let myDrain := if sameMin && (rD <? rS) then minD else UNKNOWN_VOLTAGE in
    r ← (if negb sameMax then mret (Some (mySource, myDrain))
         else if resAt (fMax c) DRAIN <? resAt (fMax c) SOURCE then
           if myDrain =? UNKNOWN_VOLTAGE then mret (Some (mySource, maxD))
           else
             x ← pathCrossesM MAX_QUEUE (fSourceId c) MIN_QUEUE (fDrainId c);
             mret (if (x : bool) then None else Some (mySource, myDrain))
         else
           x ← pathCrossesM MIN_QUEUE (fDrainId c) MAX_QUEUE (fSourceId c);
           mret (if (x : bool) then None else Some (maxS, myDrain)));
    mret (match r with
          | None => None
          | Some (s, dr) => Some (if s =? UNKNOWN_VOLTAGE then maxS else s,
                                  if dr =? UNKNOWN_VOLTAGE then minD else dr)
          end).

(** The verdict on a diode: no error, or an error, with the note of unrelated
    powers. *)
Inductive diodeVerdict : Set := NoDiodeError | ForwardBias | UnrelatedDiode.

Definition bothKnown (c : CFullConnection) (mySource myDrain : Z) : DB diodeVerdict :=
  t ← checks cvcForwardErrorThreshold;
  if t <? mySource - myDrain then
    sp ← arrow (power_p (atSource (fMax c)));
    open ← (if typeBit sp HIZ_BIT then mret true
            else dp ← arrow (power_p (atDrain (fMin c))); mret (typeBit dp HIZ_BIT));
    if negb open then mret ForwardBias
    else if (mySource =? UNKNOWN_VOLTAGE) || (maxV c DRAIN =? UNKNOWN_VOLTAGE) || (maxV c DRAIN <? mySource)
    then mret ForwardBias
    else
      r ← IsRelatedM (power_p (atSource (fMax c))) (power_p (atDrain (fMin c))) MAX_QUEUE MIN_QUEUE true false;
      mret (if (r : bool) then NoDiodeError else ForwardBias)
  else
    a ← IsRelatedM (power_p (atSource (fMin c))) (power_p (atDrain (fMin c))) MIN_QUEUE MIN_QUEUE true true;
    if negb a then mret UnrelatedDiode
    else
      b ← IsRelatedM (power_p (atSource (fMax c))) (power_p (atDrain (fMax c))) MAX_QUEUE MAX_QUEUE true true;
      mret (if (b : bool) then NoDiodeError else UnrelatedDiode).

Definition diodeVerdictOf (c : CFullConnection) : DB diodeVerdict :=
  e ← GetEquivalentNet (originalSourceId c);
  f ← GetEquivalentNet (originalDrainId c);
  if e =? f then mret NoDiodeError
  else
    both ← CheckTerminalMinMaxVoltages c (mask [SOURCE; DRAIN]) true;
    if (both : bool) then
      l ← diodeLevels c;
      match l with None => mret NoDiodeError | Some (s, dr) => bothKnown c s dr end
    else
      s ← CheckTerminalMinMaxVoltages c (mask [SOURCE]) true;
      dr ← CheckTerminalMinMaxVoltages c (mask [DRAIN]) true;
      if (s : bool) && negb dr then
        if 0 <? maxV c SOURCE then
          p ← arrow (power_p (atSource (fMax c)));
          mret (if typeBit p HIZ_BIT then NoDiodeError else ForwardBias)
        else mret NoDiodeError
      else if negb s && (dr : bool) then
        if minV c DRAIN <=? 0 then
          p ← arrow (power_p (atDrain (fMin c)));
          mret (if typeBit p HIZ_BIT then NoDiodeError else ForwardBias)
        else mret NoDiodeError
      else mret NoDiodeError.

(** The diodes of a device, up to the first error. *)
Fixpoint checkDiodes (c : CFullConnection) (diodes : list (Z * Z)) : DB unit :=
  match diodes with
  | [] => mret tt
  | theDiode :: diodes =>
      x ← lift (SetDiodeConnections theDiode c);
      v ← diodeVerdictOf x;
      match v with
      | NoDiodeError => checkDiodes c diodes
      | ForwardBias => countAndReport (fDeviceId c) FORWARD_DIODE
      | UnrelatedDiode => countAndExplain (fDeviceId c) FORWARD_DIODE "Unrelated power error"
      end
  end.

Definition FindForwardBiasDiodes : DB unit :=
  _ ← forAllDevices (fun device_it =>
        dev ← deviceOf device_it;
        t ← nlat deviceType_v device_it;
        if IsNmos_ t || IsPmos_ t then mret tt
        else
          match diodeList (model_p dev) with
          | [] => mret tt
          | l => c ← MapFullDeviceNets device_it; checkDiodes c l
          end);
  PrintAndResetCircuitErrors 0 [].

(** ** LDD transistors *)

(** The levels are on the wrong side; [e] is the equivalent net of the source. *)
Definition lddnError (c : CFullConnection) (e : Z) : bool :=
  let minS := minV c SOURCE in let minD := minV c DRAIN in
  let maxS := maxV c SOURCE in let maxD := maxV c DRAIN in
  let G := voltage (atGate (fSim c)) in
  negb (maxS <=? minD) &&
  ((minD <? minS) || ((minS =? minD) && (resAt (fMin c) DRAIN <? resAt (fMin c) SOURCE)) ||
   (maxD <? maxS) ||
   ((maxS =? maxD) && (resAt (fMax c) SOURCE <? resAt (fMax c) DRAIN) && negb (minS =? maxD)
    && negb (nextNetId (master (atDrain (fMax c))) =? e))) &&
  negb (IsKnownVoltage_ G && (G <=? Z.min minS minD)).

Definition lddpError (c : CFullConnection) (e : Z) : bool :=
  let minS := minV c SOURCE in let minD := minV c DRAIN in
  let maxS := maxV c SOURCE in let maxD := maxV c DRAIN in
  let G := voltage (atGate (fSim c)) in
  negb (maxD <=? minS) &&
  ((maxS <? maxD) || ((maxS =? maxD) && (resAt (fMax c) DRAIN <? resAt (fMax c) SOURCE)) ||
   (minS <? minD) ||
   ((minS =? minD) && (resAt (fMin c) SOURCE <? resAt (fMin c) DRAIN) && negb (maxS =? minD)
    && negb (nextNetId (master (atDrain (fMin c))) =? e))) &&
  negb (IsKnownVoltage_ G && (Z.max maxS maxD <=? G)).

Definition checkLDD (t : modelType_t) (dev : CDevice) (theInstanceId : Z) : DB unit :=
  i ← nlat instancePtr_v theInstanceId;
  if IsParallelInstance i then mret tt
  else
    c ← MapInstanceDeviceNets i dev;
    ok ← CheckTerminalMinMaxVoltages c (mask [SOURCE; DRAIN]) true;
    if negb ok then mret tt
    else
      e ← GetEquivalentNet (fSourceId c);
      when (if bool_decide (t = LDDN) then lddnError c e else lddpError c e)
        (countAndReport (fDeviceId c) LDD_SOURCE).

Definition FindLDDErrors : DB unit :=
  l ← checks cvcModelListMap;
  _ ← forList l (fun models => forList models (fun u =>
        let t := modelType (useModel u) in
        if bool_decide (t = LDDN) || bool_decide (t = LDDP) then overModelDevices u (checkLDD t) else mret tt));
  PrintAndResetCircuitErrors 0 [].

(** ** Diodes that pass *)

(** A diode that passes the check is not forward biased.  For a diode
    between different nets whose anode and cathode have ordered levels, hang on
    different powers, and are not open, the highest level of the anode does
    not exceed the lowest level of the cathode by more than the threshold. *)
Theorem passed_diode_is_safe c d d' e f p q :
  GetEquivalentNet (originalSourceId c) d = Ok (e, d) ->
  GetEquivalentNet (originalDrainId c) d = Ok (f, d) -> e <> f ->
  CheckTerminalMinMaxVoltages c (mask [SOURCE; DRAIN]) true d = Ok (true, d) ->
  IsKnownVoltage_ (maxV c SOURCE) = true -> IsKnownVoltage_ (minV c DRAIN) = true ->
  power_p (atSource (fMin c)) <> power_p (atDrain (fMin c)) ->
  power_p (atSource (fMax c)) <> power_p (atDrain (fMax c)) ->
  arrow (power_p (atSource (fMax c))) d = Ok (p, d) -> typeBit p HIZ_BIT = false ->
  arrow (power_p (atDrain (fMin c))) d = Ok (q, d) -> typeBit q HIZ_BIT = false ->
  diodeVerdictOf c d = Ok (NoDiodeError, d') ->
  maxV c SOURCE - minV c DRAIN <= cvcForwardErrorThreshold (cvcChecks (cvcParameters d)).
Proof.
  intros He Hf Hef Hb Ks Kd Nmin Nmax Hp Op Hq Oq H. unfold diodeVerdictOf in H.
  use_run H He. use_run H Hf. rewrite (proj2 (Z.eqb_neq e f) Hef) in H. use_run H Hb.
  assert (diodeLevels c d = Ok (Some (maxV c SOURCE, minV c DRAIN), d)) as Hl.
  { unfold diodeLevels. rewrite !bool_decide_eq_false_2 by done. done. }
  use_run H Hl. unfold bothKnown in H. use_run H (eq_refl : checks cvcForwardErrorThreshold d = Ok (_, d)).
  destruct (Z.ltb_spec (cvcForwardErrorThreshold (cvcChecks (cvcParameters d)))
              (maxV c SOURCE - minV c DRAIN)) as [Hlt | Hle]; [exfalso | done].
  use_run H Hp. rewrite Op in H.
  assert ((arrow (power_p (atDrain (fMin c))) ≫= fun dp => mret (typeBit dp HIZ_BIT)) d = Ok (false, d)) as Ho.
  { unfold mbind, M_bind. by rewrite Hq, <- Oq. }
  use_run H Ho. by apply mret_inv in H as [? _].
Qed.

(** A diode from ground to the supply, in reverse. *)
Definition reverseDiode : CFullConnection :=
  let none := exampleTerminal UNKNOWN_NET UNKNOWN_VOLTAGE None in
  let x := mkSample none (exampleTerminal 1 0 (Some 1)) (exampleTerminal 0 1200 (Some 0)) none in
  mkFull 1 UNKNOWN_NET 0 UNKNOWN_NET 1 UNKNOWN_NET 0 UNKNOWN_NET x x x
    (mkDevice "D0" [1; 0] (ExampleDb.plainModel "dio" DIODE 0 "D") "" 0) 0 1.

Lemma passed_diode_is_safe_witness :
  diodeVerdictOf reverseDiode ExampleDb.exampleDb = Ok (NoDiodeError, ExampleDb.exampleDb) /\
  maxV reverseDiode SOURCE - minV reverseDiode DRAIN <= 0.
Proof.
  assert (diodeVerdictOf reverseDiode ExampleDb.exampleDb = Ok (NoDiodeError, ExampleDb.exampleDb)) as E
    by reflexivity.
  split; [exact E |].
  refine (passed_diode_is_safe reverseDiode ExampleDb.exampleDb ExampleDb.exampleDb 1 0
            (ExampleDb.supply 1 0 1) (ExampleDb.supply 0 1200 0) _ _ _ _ _ _ _ _ _ _ _ _ E);
    try reflexivity; discriminate.
Defined.

End Diode.
