(* ===== verification/Mirror.v ===== *)
(** * NMOS and PMOS checks are mirror images

    The checks of CCvcDb_error.cc come in pairs, one for NMOS at the min levels
    and one for PMOS at the max levels, written out separately.  [mirror]
    reflects a connection: voltages and threshold change sign, min and max are
    exchanged, NMOS becomes PMOS.  The theorems compare each PMOS check with
    the NMOS check of the mirrored connection. *)

From S2P Require Import Prelude CvcTypes EventQueue VirtualNet Numeric Power Db ExampleDb.
From S2P Require Import Connection Short Overvoltage InverterCheck GateSource Diode.
From stdpp Require Import base list strings gmap sets.
From Stdlib Require Import ZArith Lia.
#[local] Open Scope Z_scope.

Module Mirror.
Import VirtualNet.VirtualNet Power.Power Db.Db Connection.Connection Short.Short
  Overvoltage.Overvoltage InverterCheck.InverterCheck GateSource.GateSource
  Diode.Diode.

(** ** Reflection *)

(** The unknown voltage stays unknown. *)
Definition negv (v : Z) : Z := if v =? UNKNOWN_VOLTAGE then UNKNOWN_VOLTAGE else - v.

Definition mirrorType (t : modelType_t) : modelType_t :=
  match t with NMOS => PMOS | PMOS => NMOS | LDDN => LDDP | LDDP => LDDN | _ => t end.

Definition mirrorModel (m : CModel) : CModel :=
  mkModel (modelName m) (mirrorType (modelType m)) (- Vth m) (baseType m) (maxVds m) (maxVgs m) (maxVbs m)
    (maxVbg m) (diodeList m) (checkList m).

Definition mirrorDevice (dev : CDevice) : CDevice :=
  mkDevice (deviceName dev) (signalId_v dev) (mirrorModel (model_p dev)) (parameters dev) (offset dev).

Definition mirrorTerminal (x : CTerminal) : CTerminal := mkTerminal (master x) (negv (voltage x)) (power_p x).
Definition mirrorSample (s : CSample) : CSample :=
  mkSample (mirrorTerminal (atGate s)) (mirrorTerminal (atSource s)) (mirrorTerminal (atDrain s))
    (mirrorTerminal (atBulk s)).

Definition mirror (c : CFullConnection) : CFullConnection :=
  mkFull (originalSourceId c) (originalGateId c) (originalDrainId c) (originalBulkId c)
    (fSourceId c) (fGateId c) (fDrainId c) (fBulkId c)
    (mirrorSample (fMax c)) (mirrorSample (fSim c)) (mirrorSample (fMin c))
    (mirrorDevice (fDevice c)) (fDeviceId c) (fResistance c).

(** Levels far enough from the ends of the 16-bit range. *)
Definition moderate (v : Z) : Prop := -10000 <= v <= 10000.
Definition moderateLevels (c : CFullConnection) : Prop :=
  (forall s t, s ∈ [fMin c; fSim c; fMax c] ->
     voltage (terminal s t) = UNKNOWN_VOLTAGE \/ moderate (voltage (terminal s t))) /\ moderate (fVth c).

Lemma UNKNOWN_VOLTAGE_val : UNKNOWN_VOLTAGE = 32767.
Proof. reflexivity. Qed.

Lemma negv_known v : IsKnownVoltage_ v = true -> negv v = - v.
Proof. unfold IsKnownVoltage_, negv. by destruct (v =? UNKNOWN_VOLTAGE). Qed.

Lemma IsKnown_negv v :
  v = UNKNOWN_VOLTAGE \/ moderate v -> IsKnownVoltage_ (negv v) = IsKnownVoltage_ v.
Proof.
  unfold IsKnownVoltage_, negv, moderate. rewrite UNKNOWN_VOLTAGE_val.
  intros [-> | H]; [done |]. rewrite (proj2 (Z.eqb_neq v 32767)) by lia. simpl.
  by rewrite (proj2 (Z.eqb_neq (- v) 32767)) by lia.
Qed.

Lemma terminal_mirror s t : terminal (mirrorSample s) t = mirrorTerminal (terminal s t).
Proof. by destruct t. Qed.

Section Mirrored.
Context (c : CFullConnection) (Hc : moderateLevels c).

Lemma moderate_at s t :
  s ∈ [fMin c; fSim c; fMax c] -> IsKnownVoltage_ (voltage (terminal s t)) = true ->
  moderate (voltage (terminal s t)).
Proof.
  intros Hs Hk. destruct (proj1 Hc s t Hs) as [E | H]; [| done].
  rewrite E in Hk. discriminate Hk.
Qed.

Lemma known_mirror s ts :
  s ∈ [fMin c; fSim c; fMax c] -> known (mirrorSample s) (mask ts) = known s (mask ts).
Proof.
  intros Hs. rewrite !known_mask. induction ts as [| t ts IH]; simpl; [done |].
  rewrite IH, terminal_mirror. simpl. by rewrite IsKnown_negv by (by apply (proj1 Hc)).
Qed.

Lemma mirror_min ts :
  CheckTerminalMinVoltages (mirror c) (mask ts) = CheckTerminalMaxVoltages c (mask ts).
Proof. apply (known_mirror (fMax c)). set_solver. Qed.
Lemma mirror_max ts :
  CheckTerminalMaxVoltages (mirror c) (mask ts) = CheckTerminalMinVoltages c (mask ts).
Proof. apply (known_mirror (fMin c)). set_solver. Qed.
Lemma mirror_sim ts :
  CheckTerminalSimVoltages (mirror c) (mask ts) = CheckTerminalSimVoltages c (mask ts).
Proof. apply (known_mirror (fSim c)). set_solver. Qed.

Lemma mirror_minV t : minV (mirror c) t = negv (maxV c t).
Proof. unfold minV, maxV. simpl. by rewrite terminal_mirror. Qed.
Lemma mirror_maxV t : maxV (mirror c) t = negv (minV c t).
Proof. unfold minV, maxV. simpl. by rewrite terminal_mirror. Qed.

(** The levels of the terminals a passed check names. *)
Lemma min_checked ts t :
  CheckTerminalMinVoltages c (mask ts) = true -> t ∈ ts -> negv (minV c t) = - minV c t /\ moderate (minV c t).
Proof.
  unfold CheckTerminalMinVoltages. rewrite known_mask, forallb_forall. intros H Ht%list_elem_of_In.
  specialize (H t Ht). split; [by apply negv_known |]. apply moderate_at; [set_solver | done].
Qed.
Lemma max_checked ts t :
  CheckTerminalMaxVoltages c (mask ts) = true -> t ∈ ts -> negv (maxV c t) = - maxV c t /\ moderate (maxV c t).
Proof.
  unfold CheckTerminalMaxVoltages. rewrite known_mask, forallb_forall. intros H Ht%list_elem_of_In.
  specialize (H t Ht). split; [by apply negv_known |]. apply moderate_at; [set_solver | done].
Qed.
End Mirrored.

(** ** Gate against source *)

Lemma difference_mirror g s v :
  moderate g -> moderate s -> moderate v ->
  s16 (- g - min16 (- s) (- s + - v)) = s16 (max16 s (s + v) - g).
Proof.
  unfold moderate, min16, max16. intros Hg Hs Hv.
  rewrite (s16_id (- s + - v)), (s16_id (s + v)) by lia.
  repeat case_test; rewrite !s16_id by lia; lia.
Qed.

(** The largest difference found so far. *)
Definition raise_ (b : bool) (m x : Z) (b' : bool) : Z := if b && (m <? x) && b' then x else m.

Lemma raise_mirror (b : bool) m x x' b' : (b = true -> x = x') -> raise_ b m x b' = raise_ b m x' b'.
Proof. unfold raise_. destruct b; [| done]. by intros ->. Qed.

(** The PMOS gate check is the NMOS gate check of the mirrored connection,
    for an enhancement PMOS (threshold not positive), moderate levels and a
    threshold that is not negative: the same devices are skipped, tested as
    capacitors or left as errors. *)
Theorem pmosGate_mirror c t b :
  moderateLevels c -> fVth c <= 0 -> 0 <= t <= 10000 ->
  pmosGateCase c t b = nmosGateCase (mirror c) t b.
Proof.
  intros Hc Hv Ht. pose proof (proj2 Hc) as Hm. unfold moderate in Hm.
  unfold pmosGateCase, nmosGateCase. cbv zeta.
  rewrite !(mirror_min c Hc), !(mirror_max c Hc), !mirror_minV, !mirror_maxV.
  change (fVth (mirror c)) with (- fVth c).
  change (fGateId (mirror c)) with (fGateId c). change (fSourceId (mirror c)) with (fSourceId c).
  change (fDrainId (mirror c)) with (fDrainId c).
  rewrite (Z.max_l 0 (fVth c)), (Z.min_l 0 (- fVth c)) by lia. change (s16 0) with 0.
  repeat match goal with
  | |- context [if ?b && (?m <? ?x) && ?b' then ?x else ?m] =>
      change (if b && (m <? x) && b' then x else m) with (raise_ b m x b')
  end.
  assert (forall t, t = SOURCE \/ t = DRAIN -> CheckTerminalMaxVoltages c (mask [GATE; t]) = true ->
    s16 (negv (maxV c GATE) - min16 (negv (maxV c t)) (negv (maxV c t) + - fVth c))
    = s16 (max16 (maxV c t) (maxV c t + fVth c) - maxV c GATE)) as Hd.
  { intros u _ Hk. destruct (max_checked c Hc _ GATE Hk) as [-> ?]; [set_solver |].
    destruct (max_checked c Hc _ u Hk) as [-> ?]; [set_solver |]. by apply difference_mirror. }
  rewrite (raise_mirror _ 0 _ _ _ (Hd SOURCE (or_introl eq_refl))).
  rewrite (raise_mirror _ _ _ _ _ (Hd DRAIN (or_intror eq_refl))).
  match goal with |- (if (?m <=? t) || _ then _ else _) = _ => set (M := m) end.
  destruct (M <=? t) eqn:EM; [done |]. rewrite !orb_false_l. destruct (b && (M <? - fVth c)); [done |].
  assert (IsKnownVoltage_ (maxV c GATE) = true) as Hg.
  { apply Z.leb_gt in EM. unfold M, raise_ in EM.
    destruct (CheckTerminalMaxVoltages c (mask [GATE; DRAIN])) eqn:E1.
    - unfold CheckTerminalMaxVoltages in E1. rewrite known_mask in E1. simpl in E1. by destruct (IsKnownVoltage_ _).
    - destruct (CheckTerminalMaxVoltages c (mask [GATE; SOURCE])) eqn:E2; [| simpl in EM; lia].
      unfold CheckTerminalMaxVoltages in E2. rewrite known_mask in E2. simpl in E2. by destruct (IsKnownVoltage_ _). }
  pose proof (moderate_at c Hc (fMax c) GATE ltac:(set_solver) Hg) as Hgm. fold (maxV c GATE) in Hgm.
  rewrite (negv_known _ Hg). unfold moderate in Hgm.
  destruct (CheckTerminalMinVoltages c (mask [SOURCE])) eqn:ES.
  - destruct (min_checked c Hc _ SOURCE ES) as [-> ?]; [set_solver |]. unfold moderate in *.
    destruct (CheckTerminalMinVoltages c (mask [DRAIN])) eqn:ED.
    + destruct (min_checked c Hc _ DRAIN ED) as [-> ?]; [set_solver |]. unfold moderate in *.
      repeat case_test; try done; lia.
    + repeat case_test; try done; lia.
  - destruct (CheckTerminalMinVoltages c (mask [DRAIN])) eqn:ED; [| done].
    destruct (min_checked c Hc _ DRAIN ED) as [-> ?]; [set_solver |]. unfold moderate in *.
    repeat case_test; try done; lia.
Qed.

(** ** LDD transistors *)

(** The LDD check of a P transistor is that of an N transistor on the
    mirrored connection, when source and drain have min and max levels. *)
Theorem lddp_mirror c e :
  moderateLevels c ->
  CheckTerminalMinVoltages c (mask [SOURCE; DRAIN]) = true ->
  CheckTerminalMaxVoltages c (mask [SOURCE; DRAIN]) = true ->
  lddpError c e = lddnError (mirror c) e.
Proof.
  intros Hc Hm HM. unfold lddpError, lddnError. rewrite !mirror_minV, !mirror_maxV.
  destruct (min_checked c Hc _ SOURCE Hm) as [-> _]; [set_solver |].
  destruct (min_checked c Hc _ DRAIN Hm) as [-> _]; [set_solver |].
  destruct (max_checked c Hc _ SOURCE HM) as [-> _]; [set_solver |].
  destruct (max_checked c Hc _ DRAIN HM) as [-> _]; [set_solver |].
  assert (IsKnownVoltage_ (negv (voltage (atGate (fSim c)))) = IsKnownVoltage_ (voltage (atGate (fSim c)))) as Ek
    by (apply IsKnown_negv, (proj1 Hc (fSim c) GATE); set_solver).
  cbn [fSim mirror mirrorSample atGate mirrorTerminal voltage fMin fMax atDrain master]. rewrite Ek.
  change (resAt (fMax (mirror c))) with (resAt (mirrorSample (fMin c))).
  change (resAt (fMin (mirror c))) with (resAt (mirrorSample (fMax c))).
  assert (forall s t, resAt (mirrorSample s) t = resAt s t) as Er by (intros s []; done). rewrite !Er.
  assert (forall a b, (- a <? - b) = (b <? a)) as El by (intros; apply Bool.eq_iff_eq_true; lia).
  assert (forall a b, (- a <=? - b) = (b <=? a)) as Ele by (intros; apply Bool.eq_iff_eq_true; lia).
  assert (forall a b, (- a =? - b) = (a =? b)) as Eq by (intros; apply Bool.eq_iff_eq_true; lia).
  rewrite !El, !Ele, !Eq.
  destruct (IsKnownVoltage_ (voltage (atGate (fSim c)))) eqn:Kg; [| done].
  rewrite (negv_known _ Kg), <- Z.opp_max_distr, Ele. done.
Qed.

(** A PMOS whose gate never rises to the highest level of its source. *)
Definition weakPmos : CFullConnection :=
  mkFull 0 2 3 0 0 2 3 0 (exampleSample 0 0 0 1200) (exampleSample 300 1200 0 1200)
    (exampleSample 600 1200 1200 1200) ExampleDb.pmos 1 3500.

Lemma moderate_weakPmos : moderateLevels weakPmos.
Proof.
  split; [| split; vm_compute; discriminate].
  intros s u Hs. right. set_unfold. unfold moderate. destruct Hs as [-> | [-> | [-> | []]]]; destruct u; simpl; lia.
Qed.

Lemma pmosGate_mirror_witness :
  pmosGateCase weakPmos 0 false = Remains /\ nmosGateCase (mirror weakPmos) 0 false = Remains.
Proof.
  split; [reflexivity |]. rewrite <- (pmosGate_mirror weakPmos 0 false); [reflexivity | | vm_compute; discriminate | lia].
  exact moderate_weakPmos.
Defined.

Lemma lddp_mirror_witness :
  lddpError weakPmos 0 = false /\ lddnError (mirror weakPmos) 0 = false.
Proof.
  split; [reflexivity |]. rewrite <- (lddp_mirror weakPmos 0); [reflexivity | | reflexivity | reflexivity].
  exact moderate_weakPmos.
Defined.

End Mirror.
