(* ===== verification/Leak.v ===== *)
(** * Possible leaks and floating inputs (CCvcDb_error.cc, CConnection.cc, CCvcDb_utility.cc)

    [FindNmosPossibleLeakErrors] and its PMOS counterpart report transistors
    with an unknown gate between different levels; [FindFloatingInputErrors]
    the gates of nets that float or may float ([IsPossibleHiZ]), in two passes. *)

From S2P Require Import Prelude CvcTypes EventQueue VirtualNet Numeric Power Db ExampleDb.
From S2P Require Import Connection Short Enqueue Propagate Simulate Resistor MinMax SimPower.
From S2P Require Import Overvoltage GateSource.
From stdpp Require Import base list strings gmap sets.
From Stdlib Require Import ZArith Lia Floats.SpecFloat.
#[local] Open Scope Z_scope.

Module Leak.
Import VirtualNet.VirtualNet Power.Power Numeric.Numeric Db.Db Connection.Connection Short.Short
  SimPower.SimPower Overvoltage.Overvoltage GateSource.GateSource.

(** ** Possible leaks *)

(** The gate is below (above) the threshold at every source and drain level.
    The saved leak level stands in for an unknown gate. *)
Definition nmosNeverOn (c : CFullConnection) : DB bool :=
  if negb (CheckTerminalMinVoltages c (mask [SOURCE; DRAIN])) then mret false
  else
    g ← Db.MaxVoltage (fGateId c) false;
    g ← (if g =? UNKNOWN_VOLTAGE then MaxLeakVoltage (fGateId c) else mret g);
    mret (IsKnownVoltage_ g && (g <=? minV c SOURCE + fVth c) && (g <=? minV c DRAIN + fVth c)).

Definition pmosNeverOn (c : CFullConnection) : DB bool :=
  if negb (CheckTerminalMaxVoltages c (mask [SOURCE; DRAIN])) then mret false
  else
    g ← Db.MinVoltage (fGateId c) false;
    g ← (if g =? UNKNOWN_VOLTAGE then MinLeakVoltage (fGateId c) else mret g);
    mret (IsKnownVoltage_ g && (maxV c SOURCE + fVth c <=? g) && (maxV c DRAIN + fVth c <=? g)).

(** [p->type[HIZ_BIT] && ! p->IsRelatedPower(other, simNet_v, simNet_v, false)]. *)
Definition cutoffLeak (p other : option Z) : DB bool :=
  x ← arrow p;
  if typeBit x HIZ_BIT then r ← IsRelatedM p other SIM_QUEUE SIM_QUEUE false false; mret (negb r)
  else mret false.

(** The part both checks share: different simulation levels that are not
    explained, or a current between the min and max levels. *)
Definition leaks (c : CFullConnection) : DB bool :=
  let S := voltage (atSource (fSim c)) in let D := voltage (atDrain (fSim c)) in
  limit ← param cvcLeakLimit;
  if CheckTerminalSimVoltages c (mask [SOURCE; DRAIN]) then
    t ← checks cvcLeakErrorThreshold;
    if S =? D then mret false
    else if Z.abs (S - D) <=? t then mret false
    else
      let s := power_p (atSource (fSim c)) in let dr := power_p (atDrain (fSim c)) in
      a ← cutoffLeak s dr;
      if (a : bool) then mret true
      else
        b ← cutoffLeak dr s;
        if (b : bool) then mret true
        else
          sp ← arrow s;
          dp ← arrow dr;
          if IsInternalOverride sp || IsInternalOverride dp then mret false
          else if typeBit sp SIM_CALCULATED_BIT || typeBit dp SIM_CALCULATED_BIT then
            i ← EstimatedSimCurrent c; mret (negb (SFleb i limit))
          else mret true
  else i ← EstimatedMinimumCurrent c; mret (SFltb limit i).

Definition possibleLeak (neverOn : CFullConnection -> DB bool) (theError : cvcError_t) (c : CFullConnection)
    : DB unit :=
  if IsKnownVoltage_ (voltage (atGate (fSim c))) then mret tt
  else
    off ← neverOn c;
    if (off : bool) then mret tt
    else e ← leaks c; when e (countAndReport (fDeviceId c) theError).

Definition FindNmosPossibleLeakErrors : DB unit :=
  _ ← forDevicesOfType IsNmos_ (possibleLeak nmosNeverOn NMOS_POSSIBLE_LEAK); PrintAndResetCircuitErrors 0 [].
Definition FindPmosPossibleLeakErrors : DB unit :=
  _ ← forDevicesOfType IsPmos_ (possibleLeak pmosNeverOn PMOS_POSSIBLE_LEAK); PrintAndResetCircuitErrors 0 [].

(** ** Floating gates *)

Definition IsFloatingGate (c : CFullConnection) : DB bool :=
  let side x : DB bool :=
    if voltage x =? UNKNOWN_VOLTAGE then mret true else p ← arrow (power_p x); mret (typeBit p HIZ_BIT) in
  a ← side (atGate (fMin c));
  if (a : bool) then mret true else side (atGate (fMax c)).

(** [IsAlwaysOff], on the saved leak levels. *)
Definition IsAlwaysOff (c : CFullConnection) : DB bool :=
  info ← leakInfos c;
  t ← nlat deviceType_v (fDeviceId c);
  let known l := forallb IsKnownVoltage_ l in
  let mn t := minLeakVoltage (info t) in let mx t := maxLeakVoltage (info t) in
  mret (match t with
        | NMOS | LDDN => known [mx GATE; mn SOURCE; mn DRAIN]
                         && (mx GATE <? Z.min (mn SOURCE) (mn DRAIN) + fVth c)
        | PMOS | LDDP => known [mn GATE; mx SOURCE; mx DRAIN]
                         && (Z.max (mx SOURCE) (mx DRAIN) + fVth c <? mn GATE)
        | CAPACITOR | SWITCH_OFF => true
        | DIODE => known [mn DRAIN; mx SOURCE] && (mn DRAIN <? mx SOURCE)
        | _ => false
        end).

(** ** Nets that may float *)

(** The devices to check, by type. *)
Record toCheck : Type := mkToCheck { myPmosToCheck : list Z; myNmosToCheck : list Z; myResistorToCheck : list Z }.

Definition AddConnectedDevices (theNetId : Z) (l : toCheck) (first next : CNetlist -> list Z) : DB toCheck :=
  r ← overDevicesWith (R := unit) first next theNetId l (fun l device_it =>
        t ← nlat deviceType_v device_it;
        let 'mkToCheck p n r := l in
        mret (inl (match t with
                   | NMOS | LDDN => mkToCheck p (n ++ [device_it]) r
                   | PMOS | LDDP => mkToCheck (p ++ [device_it]) n r
                   | RESISTOR | FUSE_ON | FUSE_OFF => mkToCheck p n (r ++ [device_it])
                   | _ => l
                   end)));
  mret (match r with inl l => l | inr _ => l end).

Definition addConnected (theNetId : Z) (l : toCheck) : DB toCheck :=
  l ← AddConnectedDevices theNetId l firstSource_v nextSource_v;
  AddConnectedDevices theNetId l firstDrain_v nextDrain_v.

Definition PMOS_ONLY : Z := 2.
Definition NMOS_ONLY : Z := 1.

(** The nets between the output and its supply: each must join two
    transistors of the one type.  [None] is the early [return false]. *)
Fixpoint stackDevices (fuel : nat) (q : eventQueue_t) (only finalNet net_it : Z) (l : toCheck) : DB (option toCheck) :=
  match fuel with
  | O => raise OutOfFuel
  | S fuel =>
      if net_it =? finalNet then mret (Some l)
      else
        k ← at_ connectionCount_v net_it;
        if negb (SourceDrainCount k =? 2) || negb (sourceDrainType k =? only) then mret None
        else
          l ← addConnected net_it l;
          n ← netM q net_it;
          stackDevices fuel q only finalNet (nextNetId n) l
  end.

Fixpoint origins (l : list Z) (mySet : gset string) : DB (gset string) :=
  match l with
  | [] => mret mySet
  | device :: l => g ← nlat gateNet_v device; o ← origin g; origins l ({[o]} ∪ mySet)
  end.

(** An NMOS whose gate is the inverse of that of some PMOS, and is unknown. *)
Fixpoint tristate (l : list Z) (myPmosInputs : gset string) : DB bool :=
  match l with
  | [] => mret false
  | device :: l =>
      g ← nlat gateNet_v device;
      o ← invertedOrigin g;
      if bool_decide (o ∈ myPmosInputs) then
        c ← MapFullDeviceNets device;
        if voltage (atGate (fSim c)) =? UNKNOWN_VOLTAGE then mret true else tristate l myPmosInputs
      else tristate l myPmosInputs
  end.

Definition clockedInverter (theGateId : Z) (l : toCheck) : DB bool :=
  mx ← netM MAX_QUEUE theGateId;
  mn ← netM MIN_QUEUE theGateId;
  fuel ← gets (fun d => S (length (nets (maxNet_v d))));
  r ← stackDevices fuel MAX_QUEUE PMOS_ONLY (finalNetId mx) (nextNetId mx) l;
  match r with
  | None => mret false
  | Some l =>
      r ← stackDevices fuel MIN_QUEUE NMOS_ONLY (finalNetId mn) (nextNetId mn) l;
      match r with
      | None => mret false
      | Some l => s ← origins (myPmosToCheck l) ∅; tristate (myNmosToCheck l) s
      end
  end.

Definition IsPossibleHiZ (c : CFullConnection) : DB bool :=
  k ← at_ connectionCount_v (fGateId c);
  if 10 <? SourceDrainCount k then mret false
  else
    a ← powerAt (fGateId c);
    p ← pointeeM a;
    if optb (fun p => typeBit p INPUT_BIT) p then mret false
    else
      l ← addConnected (fGateId c) (mkToCheck [] [] []);
      match myResistorToCheck l, myNmosToCheck l, myPmosToCheck l with
      | [], [n], [p] =>
          mn ← netM MIN_QUEUE (fGateId c);
          mx ← netM MAX_QUEUE (fGateId c);
          if nextNetId mn =? nextNetId mx then IsTransferGate n p else clockedInverter (fGateId c) l
      | _, _, _ => mret false
      end.

(** ** Floating inputs *)

(** One device of a net that floats. *)
Definition floatingDevice (net_it : Z) (myFloatingFlag : bool) (device_it : Z) : DB unit :=
  c ← MapFullDeviceNets device_it;
  myHasLeakPath ← HasLeakPath c;
  _ ← when myFloatingFlag (setDeviceBit device_it SIM_INACTIVE true);
  ignoreVth ← checks cvcIgnoreVthFloating;
  off ← (if (ignoreVth : bool) then IsAlwaysOff c else mret false);
  if (off : bool) then mret tt
  else
    k ← at_ connectionCount_v net_it;
    let myIsPhysicallyFloating := SourceDrainCount k =? 0 in
    ignoreNoLeak ← checks cvcIgnoreNoLeakFloating;
    if negb myHasLeakPath && (ignoreNoLeak : bool) && myIsPhysicallyFloating then mret tt
    else
      myHasParallelShort ← HasParallelShort c;
      if (myHasParallelShort : bool) && (ignoreNoLeak || negb myIsPhysicallyFloating) then mret tt
      else
        when (myHasLeakPath || myIsPhysicallyFloating)
          (countAndExplain (fDeviceId c) HIZ_INPUT
             ((if negb myHasLeakPath then "* No leak path" else "")
              +:+ (if negb myFloatingFlag then "* Tri-state input" else ""))%string).

(** A net with gates: its count and its first device. *)
Definition onGates (net_it : Z) (body : Z -> DB unit) : DB unit :=
  k ← at_ connectionCount_v net_it;
  if negb (0 <? gateCount k) then mret tt
  else
    g ← nlat firstGate_v net_it;
    if g =? UNKNOWN_DEVICE then mret tt else body g.

Definition forGates (net_it : Z) (body : Z -> DB unit) : DB unit :=
  _ ← overDevices (R := unit) firstGate_v nextGate_v net_it (fun device_it => _ ← body device_it; mret None);
  mret tt.

Definition floatingNet (net_it : Z) : DB unit :=
  onGates net_it (fun first =>
    c ← MapFullDeviceNets first;
    if negb (voltage (atGate (fSim c)) =? UNKNOWN_VOLTAGE) then mret tt
    else
      myFloatingFlag ← IsFloatingGate c;
      hiz ← (if (myFloatingFlag : bool) then mret true else IsPossibleHiZ c);
      when hiz (forGates net_it (floatingDevice net_it myFloatingFlag))).

(** The same loops as [HasActiveConnection], written out a second time. *)
Definition HasActiveConnections (theNetId : Z) : DB bool := HasActiveConnection theNetId.

(** The second pass: nets all of whose drivers have become inactive. *)
Definition secondaryNet (net_it : Z) : DB unit :=
  onGates net_it (fun first =>
    v ← Db.SimVoltage net_it;
    if negb (v =? UNKNOWN_VOLTAGE) then mret tt
    else
      a ← powerAt net_it;
      p ← pointeeM a;
      if optb (fun p => typeBit p INPUT_BIT) p then mret tt
      else
        active ← HasActiveConnections net_it;
        if (active : bool) then mret tt
        else
          c ← MapFullDeviceNets first;
          done_ ← IsFloatingGate c;
          if (done_ : bool) then mret tt
          else
            forGates net_it (fun device_it =>
              c ← MapFullDeviceNets device_it;
              short ← HasParallelShort c;
              if (short : bool) then mret tt
              else
                myHasLeakPath ← HasLeakPath c;
                when myHasLeakPath (countAndExplain (fDeviceId c) HIZ_INPUT "* Secondary HI-Z error"))).

Definition FindFloatingInputErrors : DB unit :=
  _ ← forNets floatingNet;
  _ ← forNets secondaryNet;
  PrintAndResetCircuitErrors 0 [].

End Leak.
