(* ===== verification/Frame.v ===== *)
(** * What the error checks leave alone

    The error checks run one after the other on the propagated database.  They
    write reports and error counters, and the caches of the virtual nets;
    [core] is the rest of the database.  [observes m] says that [m] leaves the
    core as it is; the hint database [observes] knows the functions that do. *)

From S2P Require Import Prelude CvcTypes EventQueue VirtualNet Numeric Power Db ExampleDb.
From S2P Require Import Connection Short SimPower.
From S2P Require Import Overvoltage InverterCheck GateSource Bias Diode Leak.
From stdpp Require Import base list strings gmap sets.
From Stdlib Require Import ZArith Lia Floats.SpecFloat.
#[local] Open Scope Z_scope.

Module Frame.
Import VirtualNet.VirtualNet Power.Power Numeric.Numeric Db.Db Connection.Connection Short.Short SimPower.SimPower
  Overvoltage.Overvoltage InverterCheck.InverterCheck GateSource.GateSource Bias.Bias Diode.Diode Leak.Leak.

(** ** The core of the database *)

(** A virtual net without its cached end. *)
Definition coreNet (x : CVirtualNet) : CVirtualNet :=
  mkVirtualNet (nextNetId x) (resistance x) 0 0 (backupNetId x).
Definition coreNets (v : CVirtualNetVector) : CVirtualNetVector :=
  mkVirtualNetVector (coreNet <$> nets v) (lastUpdate v) [] (calculatedBit v).
Definition coreCircuit : CCircuit -> CCircuit := set_errorCounts [] [].

Definition core (d : CCvcDb) : CCvcDb :=
  set_minNet_v (coreNets (minNet_v d)) (set_simNet_v (coreNets (simNet_v d)) (set_maxNet_v (coreNets (maxNet_v d))
    (set_circuits (coreCircuit <$> circuits d) (set_errorCount [] (set_cellErrorCountMap ∅ (set_reports [] d)))))).

Definition observes {A} (m : DB A) : Prop := forall d r d', m d = Ok (r, d') -> core d' = core d.

(** ** Rules *)

Lemma observes_ret {A} (a : A) : observes (mret a).
Proof. by intros d r d' [_ ->]%mret_inv. Qed.
Lemma observes_raise {A} e : observes (raise e : DB A).
Proof. by intros d r d'. Qed.
Lemma observes_gets {A} (f : CCvcDb -> A) : observes (gets f).
Proof. by intros d r d' [_ ->]%gets_inv. Qed.
Lemma observes_lift {A} (o : outcome A) : observes (lift o).
Proof. by intros d r d' [_ ->]%lift_inv. Qed.
Lemma observes_lift_state {A} (f : CCvcDb -> outcome A) : observes (fun d => lift (f d) d).
Proof. by intros d r d' [_ ->]%lift_inv. Qed.
Lemma observes_bind {A B} (m : DB A) (k : A -> DB B) : observes m -> (forall a, observes (k a)) -> observes (m ≫= k).
Proof.
  intros Hm Hk d r d' H. apply M_bind_inv in H as (a & d1 & E & H). etrans; [by eapply Hk | by eapply Hm].
Qed.
Lemma observes_when b m : observes m -> observes (when b m).
Proof. intros H. unfold when. destruct b; [done | apply observes_ret]. Qed.

Lemma core_reports v d : core (set_reports v d) = core d.
Proof. by destruct d. Qed.
Lemma core_errorCount v d : core (set_errorCount v d) = core d.
Proof. by destruct d. Qed.
Lemma core_cellErrors v d : core (set_cellErrorCountMap v d) = core d.
Proof. by destruct d. Qed.
Lemma core_circuits v d : coreCircuit <$> v = coreCircuit <$> circuits d -> core (set_circuits v d) = core d.
Proof. intros E. unfold core. by destruct d; cbn in *; rewrite E. Qed.
Lemma core_nets q v d : coreNets v = coreNets (netsOf q d) -> core (set_netsOf q v d) = core d.
Proof. intros E. unfold core. by destruct d, q; cbn in *; rewrite E. Qed.

Lemma access_core x v n y v' : access x v n = Ok (y, v') -> coreNets v' = coreNets v.
Proof.
  intros H. unfold access in H. destruct (n =? UNKNOWN_NET); [by injection H as <- <- |].
  inv_ok H. apply vget_Ok in Ha. inv_ok H. destruct a0.
  - inv_ok H. destruct a0 as [[f r] w]. inv_ok H. injection H as <- <-.
    inv_ok Ha1. destruct a1 as [f' r']. inv_ok Ha1. apply vset_Ok in Ha4 as [_ ->].
    inv_ok Ha1. injection Ha1 as <- <- <-. unfold coreNets. simpl. f_equal.
    unfold vupdate. apply Prelude.vlookup_lookup in Ha. destruct (in_range (nets v) n); [| done].
    rewrite list_fmap_insert. apply list_insert_id. by rewrite list_lookup_fmap, Ha.
  - inv_ok H. destruct a0 as [[f r] w]. injection Ha1 as <- <- <-. inv_ok H. by injection H as <- <-.
Qed.

Lemma observes_accessM q n : observes (accessM q n).
Proof.
  intros d r d' H. unfold accessM in H. destruct (access _ _ _) as [[y v'] |] eqn:E; [| done].
  injection H as <- <-. by apply core_nets, (access_core _ _ _ _ _ E).
Qed.
Lemma observes_reportM r : observes (reportM r).
Proof. intros d x d' H. injection H as <- <-. apply core_reports. Qed.

Create HintDb observes.
#[export] Hint Resolve observes_ret observes_raise observes_gets observes_lift observes_accessM observes_reportM
  : observes.

Ltac observe_step :=
  match goal with
  | |- observes (mbind _ _) => apply observes_bind; [| intros ?]
  | |- observes (when _ _) => apply observes_when
  | |- observes (let '(_, _) := ?x in _) => destruct x
  | |- observes ((let '(_, _) := ?x in _) _) => destruct x
  | |- observes (if ?b then _ else _) => destruct b
  | |- observes (match ?x with _ => _ end) => destruct x
  | |- observes (fun d => lift _ d) => apply (observes_lift_state (fun d => _))
  | |- _ => solve [auto with observes]
  end.
Ltac observe := repeat (cbv zeta; cbv beta; observe_step).

Lemma observes_nl {A} (f : CNetlist -> A) : observes (nl f).
Proof. apply observes_gets. Qed.
Lemma observes_nlat {A} (f : CNetlist -> list A) i : observes (nlat f i).
Proof. apply (observes_lift_state (fun d => vget (f (netlist d)) i)). Qed.
Lemma observes_at {A} (f : CCvcDb -> list A) i : observes (at_ f i).
Proof. apply (observes_lift_state (fun d => vget (f d) i)). Qed.
Lemma observes_powerAt n : observes (powerAt n).
Proof. apply observes_at. Qed.
Lemma observes_derefM a : observes (derefM a).
Proof. apply (observes_lift_state (fun d => deref (powers d) a)). Qed.
Lemma observes_pointeeM a : observes (pointeeM a).
Proof. apply (observes_lift_state (fun d => pointee (powers d) a)). Qed.
Lemma observes_arrow a : observes (arrow a).
Proof. unfold arrow. destruct a; [apply observes_derefM | apply observes_raise]. Qed.
Lemma observes_assertM b : observes (assertM b : DB unit).
Proof. apply observes_lift. Qed.
Lemma observes_netM q n : observes (netM q n).
Proof. apply (observes_lift_state (fun d => vget (nets (netsOf q d)) n)). Qed.
Lemma observes_param {A} (f : CCvcParameters -> A) : observes (param f).
Proof. apply observes_gets. Qed.
Lemma observes_checks {A} (f : CCheckParameters -> A) : observes (checks f).
Proof. apply observes_gets. Qed.
#[export] Hint Resolve observes_nl observes_nlat observes_at observes_powerAt observes_derefM observes_pointeeM
  observes_arrow observes_assertM observes_netM observes_param observes_checks : observes.

(** ** Loops *)

Lemma observes_forDevices {R} fuel next (body : Z -> DB (option R)) :
  (forall i, observes (body i)) -> forall i, observes (forDevices fuel next body i).
Proof. intros Hb. induction fuel as [| fuel IH]; intros i; cbn [forDevices]; observe. Qed.
Lemma observes_loopDevices {A R} fuel next (body : A -> Z -> DB (A + R)) :
  (forall a i, observes (body a i)) -> forall a i, observes (loopDevices fuel next body a i).
Proof. intros Hb. induction fuel as [| fuel IH]; intros a i; cbn [loopDevices]; observe. Qed.
Lemma observes_overDevices {R} first next n (body : Z -> DB (option R)) :
  (forall i, observes (body i)) -> observes (overDevices first next n body).
Proof. intros Hb. unfold overDevices. observe. by apply observes_forDevices. Qed.
Lemma observes_overDevicesWith {A R} first next n a (body : A -> Z -> DB (A + R)) :
  (forall a i, observes (body a i)) -> observes (overDevicesWith first next n a body).
Proof. intros Hb. unfold overDevicesWith. observe. by apply observes_loopDevices. Qed.
Lemma observes_forRange n body : (forall i, observes (body i)) -> forall i, observes (forRange n i body).
Proof. intros Hb. induction n as [| n IH]; intros i; cbn [forRange]; observe. Qed.
Lemma observes_forAllDevices body : (forall i, observes (body i)) -> observes (forAllDevices body).
Proof. intros Hb. unfold forAllDevices. observe. by apply observes_forRange. Qed.
Lemma observes_forList {A} (l : list A) body : (forall x, observes (body x)) -> observes (forList l body).
Proof. intros Hb. induction l as [| x l IH]; cbn [forList]; observe. Qed.
Lemma observes_forList_in (l : list (DB unit)) :
  (forall m, m ∈ l -> observes m) -> observes (forList l (fun m => m)).
Proof.
  induction l as [| m l IH]; intros Hl; cbn [forList]; observe; [apply Hl | apply IH; intros; apply Hl]; set_solver.
Qed.
#[export] Hint Resolve observes_overDevices observes_overDevicesWith observes_forAllDevices observes_forList : observes.

Ltac observe_loop :=
  match goal with
  | |- observes (overDevices _ _ _ _) => apply observes_overDevices; intros ?
  | |- observes (overDevicesWith _ _ _ _ _) => apply observes_overDevicesWith; intros ? ?
  | |- observes (forAllDevices _) => apply observes_forAllDevices; intros ?
  | |- observes (forList _ _) => apply observes_forList; intros ?
  | _ => observe_step
  end.
Ltac observe ::= repeat (cbv zeta; cbv beta; observe_loop).

(** ** Counting errors *)

Lemma observes_updateCircuit k f :
  (forall c c', f c = Ok c' -> coreCircuit c' = coreCircuit c) -> observes (updateCircuit k f).
Proof.
  intros Hf d r d' H. unfold updateCircuit in H. run_inv H. injection H as <- <-. apply core_circuits.
  unfold vupdate. apply Prelude.vlookup_lookup in R. destruct (in_range _ _); [| done].
  rewrite list_fmap_insert. apply list_insert_id. rewrite list_lookup_fmap, R. simpl. by rewrite (Hf _ _ R0).
Qed.

Lemma observes_limitedAncestor fuel i : observes (limitedAncestor fuel i).
Proof. revert i. induction fuel; intros i; cbn [limitedAncestor]; observe. Qed.
Lemma observes_modify f : (forall d, core (f d) = core d) -> observes (modify f).
Proof. intros Hf d r d' H. injection H as <- <-. apply Hf. Qed.
Lemma observes_cellLimitCount a o s r c : observes (cellLimitCount a o s r c).
Proof.
  unfold cellLimitCount. observe.
  all: apply observes_modify; intros; apply core_cellErrors.
Qed.
#[export] Hint Resolve observes_limitedAncestor observes_cellLimitCount : observes.
Lemma observes_CalculateMFactor i : observes (CalculateMFactor i).
Proof. unfold CalculateMFactor. observe. Qed.
#[export] Hint Resolve observes_CalculateMFactor : observes.

Lemma observes_IncrementDeviceError i e : observes (IncrementDeviceError i e).
Proof.
  unfold IncrementDeviceError. observe.
  all: apply observes_updateCircuit || (apply observes_modify; intros; apply core_errorCount).
  all: intros c' c'' H; inv_ok H; by injection H as <-.
Qed.
#[export] Hint Resolve observes_IncrementDeviceError : observes.
Lemma observes_countAndReport i e : observes (countAndReport i e).
Proof. unfold countAndReport. observe. Qed.
#[export] Hint Resolve observes_countAndReport : observes.
Lemma observes_countAndExplain i e t : observes (countAndExplain i e t).
Proof. unfold countAndExplain. observe. Qed.
#[export] Hint Resolve observes_countAndExplain : observes.
Lemma observes_printCounted i e r : observes (printCounted i e r).
Proof. unfold printCounted. observe. Qed.
#[export] Hint Resolve observes_printCounted : observes.

Lemma resetCircuits_core i l cs cs' : resetCircuits i l cs = Ok cs' -> coreCircuit <$> cs' = coreCircuit <$> cs.
Proof.
  revert cs'. induction cs as [| c cs IH]; intros cs' H; [by injection H as <- |].
  cbn [resetCircuits] in H. inv_ok H. inv_ok H. injection H as <-. cbn. f_equal; [| by apply IH].
  unfold resetCircuit in Ha. destruct (_ =? 0); [by injection Ha as <- |].
  inv_ok Ha. inv_ok Ha. by injection Ha as <-.
Qed.

Lemma observes_PrintAndResetCircuitErrors i l : observes (PrintAndResetCircuitErrors i l).
Proof.
  intros d r d' H. unfold PrintAndResetCircuitErrors in H. run_inv H.
  injection H as <- <-. rewrite core_cellErrors. apply core_circuits. by eapply resetCircuits_core.
Qed.
#[export] Hint Resolve observes_PrintAndResetCircuitErrors : observes.

(** ** Lookups *)

Lemma observes_GetEquivalentNet n : observes (GetEquivalentNet n).
Proof. unfold GetEquivalentNet. observe. Qed.
#[export] Hint Resolve observes_GetEquivalentNet : observes.
Lemma observes_assertEquivalent n : observes (assertEquivalent n).
Proof. unfold assertEquivalent. observe. Qed.
#[export] Hint Resolve observes_assertEquivalent : observes.
Lemma observes_levelOf q f n b : observes (levelOf q f n b).
Proof. unfold levelOf. observe. Qed.
#[export] Hint Resolve observes_levelOf : observes.
Lemma observes_MinVoltage n b : observes (Db.Db.MinVoltage n b).
Proof. unfold Db.Db.MinVoltage. observe. Qed.
#[export] Hint Resolve observes_MinVoltage : observes.
Lemma observes_MaxVoltage n b : observes (Db.Db.MaxVoltage n b).
Proof. unfold Db.Db.MaxVoltage. observe. Qed.
#[export] Hint Resolve observes_MaxVoltage : observes.
Lemma observes_SimVoltage n : observes (Db.Db.SimVoltage n).
Proof. unfold Db.Db.SimVoltage. observe. Qed.
#[export] Hint Resolve observes_SimVoltage : observes.
Lemma observes_leakLevel q f n : observes (leakLevel q f n).
Proof. unfold leakLevel. observe. Qed.
#[export] Hint Resolve observes_leakLevel : observes.
Lemma observes_MinLeakVoltage n : observes (MinLeakVoltage n).
Proof. unfold MinLeakVoltage. observe. Qed.
#[export] Hint Resolve observes_MinLeakVoltage : observes.
Lemma observes_MaxLeakVoltage n : observes (MaxLeakVoltage n).
Proof. unfold MaxLeakVoltage. observe. Qed.
#[export] Hint Resolve observes_MaxLeakVoltage : observes.
Lemma observes_deviceOf i : observes (deviceOf i).
Proof. unfold deviceOf. observe. Qed.
#[export] Hint Resolve observes_deviceOf : observes.
Lemma observes_resistanceOfText t : observes (resistanceOfText t).
Proof. unfold resistanceOfText. observe. Qed.
#[export] Hint Resolve observes_resistanceOfText : observes.
Lemma observes_IsRelatedM a t q r x y : observes (IsRelatedM a t q r x y).
Proof. unfold IsRelatedM. observe. Qed.
#[export] Hint Resolve observes_IsRelatedM : observes.
Lemma observes_queueVoltage q n : observes (queueVoltage q n).
Proof. unfold queueVoltage. observe. Qed.
#[export] Hint Resolve observes_queueVoltage : observes.
Lemma observes_mapSample q s g dr b : observes (mapSample q s g dr b).
Proof. unfold mapSample. observe. Qed.
#[export] Hint Resolve observes_mapSample : observes.
Lemma observes_MapInstanceDeviceNets i dev : observes (MapInstanceDeviceNets i dev).
Proof. unfold MapInstanceDeviceNets. observe. Qed.
#[export] Hint Resolve observes_MapInstanceDeviceNets : observes.
Lemma observes_MapFullDeviceNets i : observes (MapFullDeviceNets i).
Proof. unfold MapFullDeviceNets. observe. Qed.
#[export] Hint Resolve observes_MapFullDeviceNets : observes.
Lemma observes_openPower a : observes (openPower a).
Proof. unfold openPower. observe. Qed.
#[export] Hint Resolve observes_openPower : observes.
Lemma observes_forTerminals l m f : (forall t, observes (f t)) -> observes (forTerminals l m f).
Proof. intros Hf. induction l as [| t l IH]; cbn [forTerminals]; observe. Qed.
Lemma observes_CheckTerminalMinMaxVoltages c m b : observes (CheckTerminalMinMaxVoltages c m b).
Proof. unfold CheckTerminalMinMaxVoltages. apply observes_forTerminals. intros t. observe. Qed.
#[export] Hint Resolve observes_CheckTerminalMinMaxVoltages : observes.
Lemma observes_EstimatedCurrentVth c b : observes (EstimatedCurrentVth c b).
Proof. unfold EstimatedCurrentVth. observe. Qed.
#[export] Hint Resolve observes_EstimatedCurrentVth : observes.
Lemma observes_EstimatedSimCurrent c : observes (EstimatedSimCurrent c).
Proof. unfold EstimatedSimCurrent. observe. Qed.
#[export] Hint Resolve observes_EstimatedSimCurrent : observes.
Lemma observes_EstimatedMinimumCurrent c : observes (EstimatedMinimumCurrent c).
Proof. unfold EstimatedMinimumCurrent. observe. Qed.
#[export] Hint Resolve observes_EstimatedMinimumCurrent : observes.
Lemma observes_SetMinMaxLeakVoltagesAndFlags c t : observes (SetMinMaxLeakVoltagesAndFlags c t).
Proof. unfold SetMinMaxLeakVoltagesAndFlags. observe. Qed.
#[export] Hint Resolve observes_SetMinMaxLeakVoltagesAndFlags : observes.
Lemma observes_leakInfos c : observes (leakInfos c).
Proof. unfold leakInfos. observe. Qed.
#[export] Hint Resolve observes_leakInfos : observes.
Lemma observes_getDeviceBit i b : observes (getDeviceBit i b).
Proof. unfold getDeviceBit. observe. Qed.
#[export] Hint Resolve observes_getDeviceBit : observes.
Lemma observes_HasActiveConnection n : observes (HasActiveConnection n).
Proof. unfold HasActiveConnection. observe. Qed.
#[export] Hint Resolve observes_HasActiveConnection : observes.

(** ** The checks *)

Lemma observes_PrintOverVoltageError c e s : observes (PrintOverVoltageError c e s).
Proof. unfold PrintOverVoltageError. observe. Qed.
#[export] Hint Resolve observes_PrintOverVoltageError : observes.
Lemma observes_findError f c e p : observes (findError f c e p).
Proof. unfold findError. observe. Qed.
#[export] Hint Resolve observes_findError : observes.
Lemma observes_FindVbgError c i p : observes (FindVbgError c i p).
Proof. unfold FindVbgError. observe. Qed.
#[export] Hint Resolve observes_FindVbgError : observes.
Lemma observes_FindVbsError c i p : observes (FindVbsError c i p).
Proof. unfold FindVbsError. observe. Qed.
#[export] Hint Resolve observes_FindVbsError : observes.
Lemma observes_FindVdsError c i p : observes (FindVdsError c i p).
Proof. unfold FindVdsError. observe. Qed.
#[export] Hint Resolve observes_FindVdsError : observes.
Lemma observes_FindVgsError c i p : observes (FindVgsError c i p).
Proof. unfold FindVgsError. observe. Qed.
#[export] Hint Resolve observes_FindVgsError : observes.
Lemma observes_FindModelError c i k : observes (FindModelError c i k).
Proof. unfold FindModelError, PrintModelError. observe. Qed.
#[export] Hint Resolve observes_FindModelError : observes.
Lemma observes_checkInstance m dev i : observes (checkInstance m dev i).
Proof. unfold checkInstance. observe. Qed.
#[export] Hint Resolve observes_checkInstance : observes.
Lemma observes_overModelDevices u body : (forall dev i, observes (body dev i)) -> observes (overModelDevices u body).
Proof. intros Hb. unfold overModelDevices. observe. Qed.
Lemma observes_checkModel u : observes (checkModel u).
Proof. unfold checkModel. observe. apply observes_overModelDevices. intros. observe. Qed.
#[export] Hint Resolve observes_checkModel : observes.
Lemma observes_AppendErrorFile l e : observes (AppendErrorFile l e).
Proof. unfold AppendErrorFile. observe. apply observes_modify. intros. apply core_reports. Qed.
#[export] Hint Resolve observes_AppendErrorFile : observes.
Lemma observes_FindAllOverVoltageErrors : observes (FindAllOverVoltageErrors).
Proof. unfold FindAllOverVoltageErrors. observe. apply observes_modify. intros. apply core_reports. Qed.
#[export] Hint Resolve observes_FindAllOverVoltageErrors : observes.
Lemma observes_OppositeNet i n : observes (OppositeNet i n).
Proof. unfold OppositeNet. observe. Qed.
#[export] Hint Resolve observes_OppositeNet : observes.
Lemma observes_IsOnGate i p : observes (IsOnGate i p).
Proof. unfold IsOnGate. observe. Qed.
#[export] Hint Resolve observes_IsOnGate : observes.
Lemma observes_nextInList i n f g x : observes (nextInList i n f g x).
Proof. unfold nextInList. observe. Qed.
#[export] Hint Resolve observes_nextInList : observes.
Lemma observes_GetNextInSeries i n : observes (GetNextInSeries i n).
Proof. unfold GetNextInSeries. observe. Qed.
#[export] Hint Resolve observes_GetNextInSeries : observes.
Lemma observes_mosInput i n p dr x : observes (mosInput i n p dr x).
Proof. unfold mosInput. observe. Qed.
#[export] Hint Resolve observes_mosInput : observes.
Lemma observes_FindUniqueMosInputs o g p f n s dr x : observes (FindUniqueMosInputs o g p f n s dr x).
Proof. unfold FindUniqueMosInputs. observe. Qed.
#[export] Hint Resolve observes_FindUniqueMosInputs : observes.
Lemma observes_FindInverterInput o : observes (FindInverterInput o).
Proof. unfold FindInverterInput. observe. Qed.
#[export] Hint Resolve observes_FindInverterInput : observes.
Lemma observes_mosDevices t f n o l : observes (mosDevices t f n o l).
Proof. unfold mosDevices. observe. Qed.
#[export] Hint Resolve observes_mosDevices : observes.
Lemma observes_FindInverterDevice i o t : observes (FindInverterDevice i o t).
Proof. unfold FindInverterDevice. observe. Qed.
#[export] Hint Resolve observes_FindInverterDevice : observes.
Lemma observes_checkInverterNet t n : observes (checkInverterNet t n).
Proof. unfold checkInverterNet. observe. Qed.
#[export] Hint Resolve observes_checkInverterNet : observes.
Lemma observes_CheckInverterIO l t : observes (CheckInverterIO l t).
Proof. unfold CheckInverterIO. observe. Qed.
#[export] Hint Resolve observes_CheckInverterIO : observes.
Lemma observes_reportGates t n : observes (reportGates t n).
Proof. unfold reportGates. observe. Qed.
#[export] Hint Resolve observes_reportGates : observes.
Lemma observes_checkOpposite t n o : observes (checkOpposite t n o).
Proof. unfold checkOpposite. observe. Qed.
#[export] Hint Resolve observes_checkOpposite : observes.
Lemma observes_checkOpposites t l m : observes (checkOpposites t l m).
Proof. revert m. induction l as [| n l IH]; intros [| o m]; cbn [checkOpposites]; observe. Qed.
#[export] Hint Resolve observes_checkOpposites : observes.
Lemma observes_CheckOppositeLogic l t : observes (CheckOppositeLogic l t).
Proof. unfold CheckOppositeLogic. observe. Qed.
#[export] Hint Resolve observes_CheckOppositeLogic : observes.
Lemma observes_ignoredCapacitor c : observes (ignoredCapacitor c).
Proof. unfold ignoredCapacitor. observe. Qed.
#[export] Hint Resolve observes_ignoredCapacitor : observes.
Lemma observes_relatedSides q x t : observes (relatedSides q x t).
Proof. unfold relatedSides. observe. Qed.
#[export] Hint Resolve observes_relatedSides : observes.
Lemma observes_gateVerdictOf q f t k c p : observes (gateVerdictOf q f t k c p).
Proof. unfold gateVerdictOf. observe. Qed.
#[export] Hint Resolve observes_gateVerdictOf : observes.
Lemma observes_checkGate q f t k c r : (forall v p, observes (r v p)) -> observes (checkGate q f t k c r).
Proof. intros Hf. unfold checkGate. observe. Qed.
Lemma observes_reportGate c e v : observes (reportGate c e v).
Proof. unfold reportGate. observe. Qed.
#[export] Hint Resolve observes_reportGate : observes.
Lemma observes_nmosGate c : observes (nmosGate c).
Proof. unfold nmosGate. apply observes_checkGate. intros. observe. Qed.
#[export] Hint Resolve observes_nmosGate : observes.
Lemma observes_forDevicesOfType f body : (forall c, observes (body c)) -> observes (forDevicesOfType f body).
Proof. intros Hb. unfold forDevicesOfType. observe. Qed.
#[export] Hint Resolve observes_forDevicesOfType : observes.
Lemma observes_FindNmosGateVsSourceErrors io op : observes (FindNmosGateVsSourceErrors io op).
Proof. unfold FindNmosGateVsSourceErrors. observe. Qed.
#[export] Hint Resolve observes_FindNmosGateVsSourceErrors : observes.
Lemma observes_firstOf l : Forall (fun p => observes p.1) l -> observes (firstOf l).
Proof. induction 1 as [| [m v] l Hm Hl IH]; cbn [firstOf]; observe. Qed.
Lemma observes_pathContainsM q n t : observes (pathContainsM q n t).
Proof. unfold pathContainsM. observe. Qed.
#[export] Hint Resolve observes_pathContainsM : observes.
Lemma observes_bulkBackwards c t q x f o b d s : observes (bulkBackwards c t q x f o b d s).
Proof. unfold bulkBackwards. observe. Qed.
#[export] Hint Resolve observes_bulkBackwards : observes.
Lemma observes_unrelatedSide q r b s : observes (unrelatedSide q r b s).
Proof. unfold unrelatedSide. observe. Qed.
#[export] Hint Resolve observes_unrelatedSide : observes.
Lemma observes_unrelatedSim c q b t w : observes (unrelatedSim c q b t w).
Proof. unfold unrelatedSim. observe. Qed.
#[export] Hint Resolve observes_unrelatedSim : observes.
Lemma observes_openBulkTests c q b w : observes (openBulkTests c q b w).
Proof. apply observes_firstOf. repeat constructor; simpl; auto with observes. Qed.
#[export] Hint Resolve observes_openBulkTests : observes.
Lemma observes_nmosBiasTests c t : observes (nmosBiasTests c t).
Proof. apply observes_firstOf. repeat constructor; simpl; auto with observes. Qed.
#[export] Hint Resolve observes_nmosBiasTests : observes.
Lemma observes_pmosBiasTests c t : observes (pmosBiasTests c t).
Proof. apply observes_firstOf. repeat constructor; simpl; auto with observes. Qed.
#[export] Hint Resolve observes_pmosBiasTests : observes.
Lemma observes_bulkRelated q x : observes (bulkRelated q x).
Proof. unfold bulkRelated. observe. Qed.
#[export] Hint Resolve observes_bulkRelated : observes.
Lemma observes_nmosBias c : observes (nmosBias c).
Proof. unfold nmosBias. observe. Qed.
#[export] Hint Resolve observes_nmosBias : observes.
Lemma observes_pmosBias c : observes (pmosBias c).
Proof. unfold pmosBias. observe. Qed.
#[export] Hint Resolve observes_pmosBias : observes.
Lemma observes_reportBias g e c v l : observes (reportBias g e c v l).
Proof. unfold reportBias. observe. Qed.
#[export] Hint Resolve observes_reportBias : observes.
Lemma observes_biasLoop g e f verdict :
  (forall c, observes (verdict c)) -> forall n i l, observes (biasLoop g e f verdict n i l).
Proof. intros Hv. induction n as [| n IH]; intros i l; cbn [biasLoop]; observe. Qed.
Lemma observes_findBias g e f verdict : (forall c, observes (verdict c)) -> observes (findBias g e f verdict).
Proof. intros Hv. unfold findBias. observe. by apply observes_biasLoop. Qed.
Lemma observes_FindNmosSourceVsBulkErrors g : observes (FindNmosSourceVsBulkErrors g).
Proof. apply observes_findBias. auto with observes. Qed.
#[export] Hint Resolve observes_FindNmosSourceVsBulkErrors : observes.
Lemma observes_FindPmosSourceVsBulkErrors g : observes (FindPmosSourceVsBulkErrors g).
Proof. apply observes_findBias. auto with observes. Qed.
#[export] Hint Resolve observes_FindPmosSourceVsBulkErrors : observes.
Lemma observes_pathCrossesM q n r m : observes (pathCrossesM q n r m).
Proof. unfold pathCrossesM. observe. Qed.
#[export] Hint Resolve observes_pathCrossesM : observes.
Lemma observes_diodeLevels c : observes (diodeLevels c).
Proof. unfold diodeLevels. observe. Qed.
#[export] Hint Resolve observes_diodeLevels : observes.
Lemma observes_bothKnown c s dr : observes (bothKnown c s dr).
Proof. unfold bothKnown. observe. Qed.
#[export] Hint Resolve observes_bothKnown : observes.
Lemma observes_diodeVerdictOf c : observes (diodeVerdictOf c).
Proof. unfold diodeVerdictOf. observe. Qed.
#[export] Hint Resolve observes_diodeVerdictOf : observes.
Lemma observes_checkDiodes c l : observes (checkDiodes c l).
Proof. induction l as [| x l IH]; cbn [checkDiodes]; observe. Qed.
#[export] Hint Resolve observes_checkDiodes : observes.
Lemma observes_FindForwardBiasDiodes : observes FindForwardBiasDiodes.
Proof. unfold FindForwardBiasDiodes. observe. Qed.
#[export] Hint Resolve observes_FindForwardBiasDiodes : observes.
Lemma observes_checkLDD t dev i : observes (checkLDD t dev i).
Proof. unfold checkLDD. observe. Qed.
#[export] Hint Resolve observes_checkLDD : observes.
Lemma observes_FindLDDErrors : observes FindLDDErrors.
Proof. unfold FindLDDErrors. observe. all: apply observes_overModelDevices; intros; observe. Qed.
#[export] Hint Resolve observes_FindLDDErrors : observes.
Lemma observes_nmosNeverOn c : observes (nmosNeverOn c).
Proof. unfold nmosNeverOn. observe. Qed.
#[export] Hint Resolve observes_nmosNeverOn : observes.
Lemma observes_pmosNeverOn c : observes (pmosNeverOn c).
Proof. unfold pmosNeverOn. observe. Qed.
#[export] Hint Resolve observes_pmosNeverOn : observes.
Lemma observes_cutoffLeak p o : observes (cutoffLeak p o).
Proof. unfold cutoffLeak. observe. Qed.
#[export] Hint Resolve observes_cutoffLeak : observes.
Lemma observes_leaks c : observes (leaks c).
Proof. unfold leaks. observe. Qed.
#[export] Hint Resolve observes_leaks : observes.
Lemma observes_possibleLeak f e c : observes (f c) -> observes (possibleLeak f e c).
Proof. intros Hf. unfold possibleLeak. observe. Qed.
#[export] Hint Resolve observes_possibleLeak : observes.
Lemma observes_FindNmosPossibleLeakErrors : observes FindNmosPossibleLeakErrors.
Proof. unfold FindNmosPossibleLeakErrors. observe. Qed.
#[export] Hint Resolve observes_FindNmosPossibleLeakErrors : observes.
Lemma observes_FindPmosPossibleLeakErrors : observes FindPmosPossibleLeakErrors.
Proof. unfold FindPmosPossibleLeakErrors. observe. Qed.
#[export] Hint Resolve observes_FindPmosPossibleLeakErrors : observes.

(** ** The claim *)

(** The checks that only report, in the order of [VerifyCircuitForAllModes];
    [io] and [opposite] are the nets of the CELL_IO and OPPOSITE_LOGIC lists. *)
Definition reportingChecks (io : list (list Z)) (opposite : list (list Z * list Z)) : list (DB unit) :=
  [FindForwardBiasDiodes; (_ ← FindNmosSourceVsBulkErrors false; mret tt);
   FindNmosGateVsSourceErrors io opposite; (_ ← FindPmosSourceVsBulkErrors false; mret tt);
   FindLDDErrors; FindAllOverVoltageErrors; FindNmosPossibleLeakErrors; FindPmosPossibleLeakErrors].

Lemma observes_reportingChecks io opposite : Forall observes (reportingChecks io opposite).
Proof. repeat constructor; observe. Qed.

(** C12: The forward bias, source against bulk, NMOS gate against source, LDD,
    overvoltage and possible leak checks, run in any order and any number of
    times, change nothing of the database but the error counters, the reports
    and the cached ends of the virtual nets: the levels, the powers, the device
    lists and the device status a later check looks at are those the
    propagation left. *)
Theorem checks_only_report io opposite (l : list (DB unit)) (d d' : CCvcDb) :
  l ⊆ reportingChecks io opposite -> forList l (fun m => m) d = Ok (tt, d') -> core d' = core d.
Proof.
  intros Hl. apply (observes_forList_in l). intros m Hm. pose proof (observes_reportingChecks io opposite) as Hall.
  rewrite Forall_forall in Hall. by apply Hall, Hl.
Qed.

(** The example with an open gate and the output at the upper supply. *)
Definition leakingDb : CCvcDb :=
  set_netVoltagePtr_v [Some 0; Some 1; Some 2; Some 0; None]
    (set_powers (mkHeap (<[2 := ExampleDb.input 2 0 UNKNOWN_VOLTAGE 1200 2]>
       (cells (powers ExampleDb.exampleDb))) 3 3) ExampleDb.exampleDb).

Lemma checks_only_report_witness :
  exists d', forList (reportingChecks [] []) (fun m => m) leakingDb = Ok (tt, d') /\
    reports d' <> [] /\ core d' = core leakingDb.
Proof.
  assert (exists d', forList (reportingChecks [] []) (fun m => m) leakingDb = Ok (tt, d') /\ reports d' <> [])
    as (d' & E & R) by (eexists; split; [vm_compute; reflexivity | vm_compute; discriminate]).
  exists d'. split_and!; [exact E | exact R |]. exact (checks_only_report [] [] _ leakingDb d' (fun _ H => H) E).
Defined.

End Frame.
