(* ===== verification/Equivalent.v ===== *)
(** * Equivalent nets (CCvcDb_init.cc)

    Switches that are on short their nets before anything is propagated.
    [MakeEquivalentNets] merges two classes of nets, a union-find whose links
    [equivalentNet_v] always lead to a smaller net, together with the power
    definitions of the nets; [SetEquivalentNets] does so for every switch and
    then replaces the links by the representative of the class. *)

From S2P Require Import Prelude CvcTypes EventQueue VirtualNet Numeric Power Db ExampleDb.
From S2P Require Import Connection Netlist Short Overvoltage Frame.
From stdpp Require Import base list strings gmap sets relations.
From Stdlib Require Import ZArith Lia Floats.SpecFloat.
#[local] Open Scope Z_scope.

Module Equivalent.
Import VirtualNet.VirtualNet Power.Power Db.Db Connection.Connection Netlist.Netlist Short.Short
  Overvoltage.Overvoltage Frame.Frame.

(** ** Operations *)

(** The nets of a class, apart from its least net, by that net. *)
Abbreviation CNetMap := (gmap Z (list Z)).

(** [theNetMap[n]]: a missing entry is an empty list. *)
Definition netsIn (m : CNetMap) (n : Z) : list Z := default [] (m !! n).

(** [SetMasterPower]: the power of the merged class and [theSamePowerFlag];
    [None] is the exception [EEquivalenceError]. *)
Definition SetMasterPower (theFirstNetId theSecondNetId : Z) : DB (option (option Z * bool)) :=
  a ← powerAt theFirstNetId;
  b ← powerAt theSecondNetId;
  match a, b with
  | None, _ => mret (Some (b, false))
  | _, None => mret (Some (a, false))
  | Some _, Some _ =>
      p ← arrow a;
      q ← arrow b;
      t ← param cvcShortErrorThreshold;
      mret (if IsSamePower p q then Some (None, true)
            else if IsValidSubset p q t then Some (a, true)
            else if IsValidSubset q p t then Some (b, true)
            else None)
  end.

(** What a call did: the exception, the return for equal definitions, the
    return for nets that are equivalent already, a merge. *)
Inductive merge_t : Set := Conflict | SameDefinition | AlreadyEquivalent | Merged.

#[export] Instance merge_eq_dec : EqDecision merge_t.
Proof. solve_decision. Defined.

(** The power of the minor class becomes that of the master. *)
Definition shareMaster (theNetMap : CNetMap) (myMinorNetId : Z) (master : option Z) : DB CNetMap :=
  match master with
  | None => mret theNetMap
  | Some _ =>
      _ ← setPowerAt myMinorNetId master;
      _ ← forList (netsIn theNetMap myMinorNetId) (fun n => setPowerAt n master);
      mret (<[myMinorNetId := netsIn theNetMap myMinorNetId]> theNetMap)
  end.

(** [push_front], then [splice_after] when the greater net has a list. *)
Definition joinLists (theNetMap : CNetMap) (myLesserNetId myGreaterNetId : Z) : CNetMap :=
  let m := <[myLesserNetId := myGreaterNetId :: netsIn theNetMap myLesserNetId]> theNetMap in
  match m !! myGreaterNetId with
  | Some l => <[myGreaterNetId := []]> (<[myLesserNetId := l ++ netsIn m myLesserNetId]> m)
  | None => m
  end.

Definition MakeEquivalentNets (theNetMap : CNetMap) (theFirstNetId theSecondNetId : Z) : DB (merge_t * CNetMap) :=
  x ← gets netlist;
  a ← lift (GetLeastEquivalentNet x theFirstNetId);
  b ← lift (GetLeastEquivalentNet x theSecondNetId);
  if a =? b then mret (AlreadyEquivalent, theNetMap)
  else
    let myLesserNetId := Z.min a b in
    let myGreaterNetId := Z.max a b in
    r ← SetMasterPower a b;
    match r with
    | None => mret (Conflict, theNetMap)
    | Some (master, mySamePowerFlag) =>
        g ← powerAt myGreaterNetId;
        let myMinorNetId := if bool_decide (g = master) then myLesserNetId else myGreaterNetId in
        _ ← when mySamePowerFlag (reportM (Warning myMinorNetId));
        if mySamePowerFlag && bool_decide (master = None) then mret (SameDefinition, theNetMap)
        else
          m ← shareMaster theNetMap myMinorNetId master;
          _ ← modifyNl (fun x => v ← vset (equivalentNet_v x) myGreaterNetId myLesserNetId;
                                 Ok (set_equivalentNet_v v x));
          mret (Merged, joinLists m myLesserNetId myGreaterNetId)
    end.

(** A loop with a local variable. *)
Fixpoint foldList {A B} (l : list A) (body : B -> A -> DB B) (b : B) : DB B :=
  match l with
  | [] => mret b
  | x :: l => b ← body b x; foldList l body b
  end.

(** The report of a switch between powers that conflict. *)
Definition reportSwitchShort (theDeviceId s dr : Z) : DB unit :=
  e ← GetEquivalentNet s;
  f ← GetEquivalentNet dr;
  v ← Db.SimVoltage e;
  w ← Db.SimVoltage f;
  _ ← powerAt e;
  _ ← powerAt f;
  printCounted theDeviceId LEAK
    (if v =? w then ExplainedError LEAK theDeviceId "Unrelated power error" else ReportedError LEAK theDeviceId).

(** One switch of one instance. *)
Definition shortSwitch (dev : CDevice) (theNetMap : CNetMap) (theInstanceId : Z) : DB CNetMap :=
  i ← nlat instancePtr_v theInstanceId;
  if IsParallelInstance i then mret theNetMap
  else
    let myDeviceId := u32 (firstDeviceId i + offset dev) in
    s ← lift (k ← vget (signalId_v dev) 0; vget (localToGlobalNetId_v i) k);
    dr ← lift (k ← vget (signalId_v dev) 1; vget (localToGlobalNetId_v i) k);
    '(r, m) ← MakeEquivalentNets theNetMap s dr;
    _ ← when (bool_decide (r = Conflict)) (reportSwitchShort myDeviceId s dr);
    _ ← IgnoreDevice myDeviceId;
    mret m.

Definition shortModel (theNetMap : CNetMap) (u : CModelUse) : DB CNetMap :=
  if bool_decide (modelType (useModel u) = SWITCH_ON) then
    foldList (useDevices u) (fun m '(k, o) =>
      circuit ← at_ circuits k;
      dev ← lift (vget (devicePtr_v circuit) o);
      foldList (instanceId_v circuit) (shortSwitch dev) m) theNetMap
  else mret theNetMap.

(** The last loop, from the greatest net down; its counter is an [int]. *)
Definition fixNet (net_it : Z) : DB unit :=
  e ← GetEquivalentNet net_it;
  _ ← modifyNl (fun x => v ← vset (equivalentNet_v x) net_it e; Ok (set_equivalentNet_v v x));
  a ← powerAt net_it;
  p ← pointeeM a;
  match p with
  | Some p => when (negb (net_it =? netId p)) (setPowerAt net_it None)
  | None => mret tt
  end.

Fixpoint fixNets (n : nat) : DB unit :=
  match n with
  | O => mret tt
  | S n => _ ← fixNet (Z.of_nat n); fixNets n
  end.

Definition identityNets (n : Z) : list Z := Z.of_nat <$> seq 0 (Z.to_nat n).

Definition SetEquivalentNets : DB unit :=
  _ ← modifyNl (fun x => Ok (set_isFixedEquivalentNet false
                              (set_equivalentNet_v (identityNets (netCount x)) x)));
  l ← checks cvcModelListMap;
  _ ← foldList l (fun m models => foldList models shortModel m) ∅;
  _ ← PrintAndResetCircuitErrors 0 [];
  n ← nl (fun x => s32 (Z.of_nat (length (equivalentNet_v x)) - 1));
  _ ← fixNets (Z.to_nat (n + 1));
  modifyNl (fun x => Ok (set_isFixedEquivalentNet true x)).

(** ** Roots *)

(** Links lead to the net itself or to a smaller one. *)
Definition descending (v : list Z) : Prop := forall n m, vlookup v n = Some m -> 0 <= m <= n.

Inductive rootOf (v : list Z) : Z -> Z -> Prop :=
| root_here n : vlookup v n = Some n -> rootOf v n n
| root_next n m r : vlookup v n = Some m -> m < n -> rootOf v m r -> rootOf v n r.

Section Roots.
Context (v : list Z) (Hv : descending v).

Lemma rootOf_fun n r r' : rootOf v n r -> rootOf v n r' -> r = r'.
Proof.
  intros H. revert r'. induction H as [n E | n m r E Hlt H IH]; intros r' H'.
  - inversion H' as [| ? m' ? E' Hlt']; [done |]. subst. rewrite E in E'. injection E' as <-. lia.
  - inversion H' as [? E' | ? m' ? E' Hlt' H'']; subst; rewrite E in E'; injection E' as <-; [lia | auto].
Qed.

Lemma rootOf_is_root n r : rootOf v n r -> vlookup v r = Some r.
Proof. by induction 1. Qed.

Lemma rootOf_le n r : rootOf v n r -> 0 <= r <= n.
Proof. induction 1 as [n E | n m r E Hlt H IH]; [apply Hv in E; lia | lia]. Qed.

Lemma leastLoop_root n : 0 <= n < Z.of_nat (length v) -> forall fuel, (Z.to_nat n < fuel)%nat ->
  exists r, leastLoop fuel v n = Ok r /\ rootOf v n r.
Proof.
  intros Hn. revert Hn. induction n as [n IH] using (well_founded_induction (Z.lt_wf 0)). intros Hn fuel Hf.
  destruct fuel as [| fuel]; [lia |]. destruct (proj2 (vlookup_is_Some v n) Hn) as [m E].
  pose proof (Hv _ _ E) as Hm. apply vget_Ok in E as Eg. cbn [leastLoop mbind outcome_bind]. rewrite Eg.
  cbn [mbind outcome_bind]. destruct (Z.ltb_spec m n) as [Hlt | Hge].
  - destruct (IH m) with (fuel := fuel) as (r & El & Hr); [lia | lia | lia |].
    exists r. split; [done |]. by eapply root_next.
  - exists n. split; [done |]. constructor. replace n with m at 2 by lia. done.
Qed.

Lemma rootOf_exists n : 0 <= n < Z.of_nat (length v) -> exists r, rootOf v n r.
Proof. intros Hn. destruct (leastLoop_root n Hn _ (Nat.lt_succ_diag_r _)) as (r & _ & H). eauto. Qed.
End Roots.

(** Linking root [g] to the smaller root [l]. *)
Section Link.
Context (v : list Z) (g l : Z) (Hv : descending v) (Hg : vlookup v g = Some g) (Hl : vlookup v l = Some l)
  (Hlt : l < g).
Abbreviation v' := (vupdate v g l).

Lemma link_g : vlookup v' g = Some l.
Proof. apply vlookup_vupdate_eq. by eapply vlookup_range. Qed.

Lemma link_descending : descending v'.
Proof.
  intros n m H. destruct (decide (g = n)) as [<- | Hne].
  - rewrite link_g in H. injection H as <-. apply Hv in Hl. lia.
  - rewrite vlookup_vupdate_ne in H by done. auto.
Qed.

Lemma link_root n r : rootOf v n r -> rootOf v' n (if decide (r = g) then l else r).
Proof.
  assert (rootOf v' l l) as HL by (constructor; rewrite vlookup_vupdate_ne; [done | lia]).
  induction 1 as [n E | n m r E Hm H IH].
  - destruct (decide (n = g)) as [-> | Hne]; [by apply (root_next _ _ l); [apply link_g | |] |].
    constructor. by rewrite vlookup_vupdate_ne.
  - assert (n <> g) by (intros ->; rewrite Hg in E; injection E as <-; lia).
    eapply root_next; [by rewrite vlookup_vupdate_ne | done | done].
Qed.
End Link.

(** ** Connected components *)

Definition pairs (l : list (Z * Z)) (n m : Z) : Prop := (n, m) ∈ l.
Definition connected (l : list (Z * Z)) : Z -> Z -> Prop := rtsc (pairs l).

#[export] Instance connected_equivalence l : Equivalence (connected l).
Proof. apply rtsc_equivalence. Qed.

Lemma connected_mono l l' n m : l ⊆ l' -> connected l n m -> connected l' n m.
Proof. intros Hl. apply (rtsc_congruence id). intros x y H. by apply Hl. Qed.
Lemma connected_weaken l p n m : connected l n m -> connected (p :: l) n m.
Proof. apply connected_mono. set_solver. Qed.

Lemma connected_cons l x y n m :
  connected ((x, y) :: l) n m <->
  connected l n m \/ (connected l n x /\ connected l y m) \/ (connected l n y /\ connected l x m).
Proof.
  split.
  - intros H. induction H as [n | n k m H _ IH]; [by left |].
    assert (connected l n k \/ (n = x /\ k = y) \/ (n = y /\ k = x)) as [Hnk | [[-> ->] | [-> ->]]].
    { destruct H as [H | H]; apply elem_of_cons in H as [[= -> ->] | H]; auto;
        left; [by apply rtsc_lr | by apply rtsc_rl]. }
    + rewrite !Hnk. exact IH.
    + destruct IH as [IH | [[IH1 IH2] | [IH1 IH2]]]; [right; left; by split | right; left; by split | by left].
    + destruct IH as [IH | [[IH1 IH2] | [IH1 IH2]]]; [right; right; by split | by left | right; right; by split].
  - assert (connected ((x, y) :: l) x y) as Hxy by (apply rtsc_lr; by left).
    intros [H | [[H1 H2] | [H1 H2]]]; [by apply connected_weaken | |].
    + etrans; [apply connected_weaken, H1 |]. etrans; [exact Hxy | by apply connected_weaken].
    + etrans; [apply connected_weaken, H1 |]. etrans; [symmetry; exact Hxy | by apply connected_weaken].
Qed.

Lemma connected_redundant l x y n m : connected l x y -> connected ((x, y) :: l) n m <-> connected l n m.
Proof.
  intros Hxy. rewrite connected_cons. split; [| by left].
  intros [H | [[H1 H2] | [H1 H2]]]; [done | by do 2 (etrans; [eassumption |]) |].
  etrans; [exact H1 |]. etrans; [symmetry; exact Hxy | done].
Qed.

Lemma connected_nil n m : connected [] n m <-> n = m.
Proof.
  split; [| by intros ->]. intros H. induction H as [n | n k m H _ IH]; [done |].
  by destruct H as [H%elem_of_nil | H%elem_of_nil].
Qed.

(** ** Classes *)

(** [v] are the links, [w] the powers of the nets, [m] the lists and [l] the
    pairs of nets merged so far. *)
Record classes (v : list Z) (w : list (option Z)) (h : powerHeap) (m : CNetMap) (l : list (Z * Z)) : Prop := {
  class_links : descending v;
  class_length : length w = length v;
  class_connected n k r s : rootOf v n r -> rootOf v k s -> r = s <-> connected l n k;
  class_power n r : rootOf v n r -> vlookup w n = vlookup w r;
  class_list n r : vlookup v r = Some r -> n ∈ netsIn m r <-> rootOf v n r /\ n <> r;
  class_owner n r a : rootOf v n r -> vlookup w n = Some (Some a) ->
    exists p, deref h a = Ok p /\ rootOf v (netId p) r
}.

Lemma rootOf_range v n r : rootOf v n r -> 0 <= n < Z.of_nat (length v).
Proof. intros H. inversion H; by eapply vlookup_range. Qed.

Lemma classes_redundant v w h m l s dr :
  connected l s dr -> classes v w h m l -> classes v w h m ((s, dr) :: l).
Proof.
  intros Hc [H1 H2 H3 H4 H5 H6]. split; [done | done | | done | done | done].
  intros n k r t Hr Ht. rewrite (H3 _ _ _ _ Hr Ht). symmetry. by apply connected_redundant.
Qed.

(** Merging the class of root [g] into that of the smaller root [t]; [w'] has
    the power [master], that of one of the two, on both. *)
Section Merge.
Context (v : list Z) (w w' : list (option Z)) (h : powerHeap) (m m' : CNetMap) (l : list (Z * Z))
  (s dr a b g t : Z) (master : option Z).
Context (Hc : classes v w h m l) (Ha : rootOf v s a) (Hb : rootOf v dr b) (Hab : (a = g /\ b = t) \/ (a = t /\ b = g))
  (Hlt : t < g) (Hlen : length w' = length w)
  (Hw : forall n r, rootOf v n r -> vlookup w' n = if decide (r = g \/ r = t) then Some master else vlookup w n)
  (Hmaster : vlookup w a = Some master \/ vlookup w b = Some master)
  (Hm : forall n r, r <> g -> n ∈ netsIn m' r <-> if decide (r = t) then n = g \/ n ∈ netsIn m g \/ n ∈ netsIn m t
                                               else n ∈ netsIn m r).

Abbreviation join r := (if decide (r = g) then t else r).

Lemma merge_roots : vlookup v g = Some g /\ vlookup v t = Some t.
Proof.
  pose proof (rootOf_is_root _ _ _ Ha) as Ea. pose proof (rootOf_is_root _ _ _ Hb) as Eb.
  destruct Hab as [[E F] | [E F]]; rewrite E in Ea; rewrite F in Eb; done.
Qed.

Lemma merge_root n r : rootOf v n r -> rootOf (vupdate v g t) n (join r).
Proof. destruct merge_roots. apply link_root; auto. Qed.

Lemma merge_root_inv n r : rootOf (vupdate v g t) n r -> exists r0, rootOf v n r0 /\ r = join r0.
Proof.
  intros H. pose proof (rootOf_range _ _ _ H) as Hn. rewrite vupdate_length in Hn.
  destruct (rootOf_exists v (class_links _ _ _ _ _ Hc) n Hn) as [r0 Hr]. exists r0. split; [done |].
  by eapply rootOf_fun; [exact H | apply merge_root].
Qed.

Lemma merge_connected n k r u : rootOf v n r -> rootOf v k u ->
  join r = join u <-> connected ((s, dr) :: l) n k.
Proof.
  intros Hr Hu. rewrite connected_cons.
  rewrite <- (class_connected _ _ _ _ _ Hc n k r u), <- (class_connected _ _ _ _ _ Hc n s r a),
    <- (class_connected _ _ _ _ _ Hc dr k b u), <- (class_connected _ _ _ _ _ Hc n dr r b),
    <- (class_connected _ _ _ _ _ Hc s k a u) by done.
  destruct (decide (r = g)), (decide (u = g)); lia.
Qed.

Lemma merge_list n r : vlookup (vupdate v g t) r = Some r ->
  n ∈ netsIn m' r <-> rootOf (vupdate v g t) n r /\ n <> r.
Proof.
  intros Hr. destruct merge_roots as [Eg Et].
  assert (r <> g) as Hne.
  { intros ->. rewrite vlookup_vupdate_eq in Hr by (by eapply vlookup_range). injection Hr. lia. }
  rewrite vlookup_vupdate_ne in Hr by done. rewrite (Hm n r Hne).
  pose proof (class_list _ _ _ _ _ Hc) as HL.
  assert (forall q, vlookup v q = Some q -> rootOf v q q) as Hself by (intros; by constructor).
  destruct (decide (r = t)) as [-> | Hnt].
  - rewrite (HL n g Eg), (HL n t Et). split.
    + intros [-> | [[H _] | [H Hn]]].
      * pose proof (merge_root _ _ (Hself _ Eg)) as H. rewrite decide_True in H by done. split; [done | lia].
      * split; [apply merge_root in H; by rewrite decide_True in H |]. intros ->.
        pose proof (rootOf_fun _ _ _ _ H (Hself _ Et)). lia.
      * split; [| done]. apply merge_root in H. rewrite decide_False in H by lia. done.
    + intros [(r0 & H & E)%merge_root_inv Hn]. destruct (decide (r0 = g)) as [-> | ?]; [| subst; tauto].
      destruct (decide (n = g)); tauto.
  - rewrite (HL n r Hr). split.
    + intros [H Hn]. apply merge_root in H. by destruct (decide (r = g)).
    + intros [(r0 & H & E)%merge_root_inv Hn]. destruct (decide (r0 = g)); by subst.
Qed.

Lemma merge_owner n r q : rootOf v n r -> vlookup w' n = Some (Some q) ->
  exists p, deref h q = Ok p /\ rootOf (vupdate v g t) (netId p) (join r).
Proof.
  intros Hr E. rewrite (Hw n r Hr) in E. destruct (decide (r = g \/ r = t)) as [Hd | Hd].
  - injection E as ->.
    assert (exists x, rootOf v x x /\ (x = g \/ x = t) /\ vlookup w x = Some (Some q)) as (x & Hx & Hgt & Ex).
    { destruct Hmaster as [E | E]; [exists a | exists b]; split_and!; try done; try lia;
        constructor; by eapply rootOf_is_root. }
    destruct (class_owner _ _ _ _ _ Hc x x q Hx Ex) as (p & Ep & Hp). exists p. split; [done |].
    apply merge_root in Hp. destruct (decide (x = g)), (decide (r = g)); naive_solver lia.
  - destruct (class_owner _ _ _ _ _ Hc n r q Hr E) as (p & Ep & Hp). exists p. split; [done |]. by apply merge_root.
Qed.

Lemma merge_classes : classes (vupdate v g t) w' h m' ((s, dr) :: l).
Proof.
  destruct merge_roots as [Eg Et]. split.
  - by apply link_descending; [apply Hc | | |].
  - rewrite vupdate_length, Hlen. apply Hc.
  - intros n k r u (r0 & Hr & ->)%merge_root_inv (u0 & Hu & ->)%merge_root_inv. by apply merge_connected.
  - intros n r (r0 & Hr & ->)%merge_root_inv. rewrite (Hw n r0 Hr).
    assert (rootOf v (join r0) (join r0)) as Hj.
    { constructor. destruct (decide (r0 = g)); [done |]. by eapply rootOf_is_root. }
    rewrite (Hw _ _ Hj). rewrite (class_power _ _ _ _ _ Hc n r0 Hr).
    by destruct (decide (r0 = g)) as [-> | ?]; repeat case_decide; naive_solver.
  - exact merge_list.
  - intros n r q (r0 & Hr & ->)%merge_root_inv. by apply merge_owner.
Qed.
End Merge.

(** ** [MakeEquivalentNets] *)

Lemma leastLoop_rootOf v n r : rootOf v n r -> forall fuel, (Z.to_nat n < fuel)%nat -> leastLoop fuel v n = Ok r.
Proof.
  induction 1 as [n E | n k r E Hlt H IH]; intros [| fuel] Hf; try lia; cbn [leastLoop];
    apply vget_Ok in E; rewrite E; cbn [mbind outcome_bind].
  - by rewrite Z.ltb_irrefl.
  - rewrite (proj2 (Z.ltb_lt _ _) Hlt). apply rootOf_range in H. apply IH. lia.
Qed.

Lemma GetLeast_root x n r : n <> UNKNOWN_NET -> rootOf (equivalentNet_v x) n r -> GetLeastEquivalentNet x n = Ok r.
Proof.
  intros Hn H. unfold GetLeastEquivalentNet. rewrite (proj2 (Z.eqb_neq _ _) Hn).
  pose proof (rootOf_range _ _ _ H). apply leastLoop_rootOf; [done | lia].
Qed.

(** What the merges leave alone. *)
Definition base (d : CCvcDb) : CNetlist * list CCircuit * CCvcParameters * powerHeap :=
  (set_equivalentNet_v [] (netlist d), coreCircuit <$> circuits d, cvcParameters d, powers d).
Definition links (d : CCvcDb) : list Z := equivalentNet_v (netlist d).

Lemma net_powers w d : netVoltagePtr_v (set_netVoltagePtr_v w d) = w.
Proof. by destruct d. Qed.
Lemma net_links w d : links (set_netVoltagePtr_v w d) = links d.
Proof. by destruct d. Qed.
Lemma net_base w d : base (set_netVoltagePtr_v w d) = base d.
Proof. by destruct d. Qed.
Lemma link_powers x d : netVoltagePtr_v (set_netlist x d) = netVoltagePtr_v d.
Proof. by destruct d. Qed.
Lemma link_links v d : links (set_netlist (set_equivalentNet_v v (netlist d)) d) = v.
Proof. by destruct d. Qed.
Lemma link_base v d : base (set_netlist (set_equivalentNet_v v (netlist d)) d) = base d.
Proof. by destruct d. Qed.
Lemma base_powers d d' : base d' = base d -> powers d' = powers d.
Proof. intros E. exact (f_equal snd E). Qed.
#[local] Hint Rewrite net_powers net_links net_base link_powers link_links link_base : merge.

Lemma core_same d d' : core d' = core d ->
  base d' = base d /\ links d' = links d /\ netVoltagePtr_v d' = netVoltagePtr_v d.
Proof. destruct d, d'. unfold core, base, links. intros [=]. cbn in *. split_and!; congruence. Qed.

(** Writing one power on several nets. *)
Lemma setPowerAt_inv n a d u d' : setPowerAt n a d = Ok (u, d') ->
  d' = set_netVoltagePtr_v (vupdate (netVoltagePtr_v d) n a) d /\ 0 <= n < Z.of_nat (length (netVoltagePtr_v d)).
Proof.
  unfold setPowerAt. destruct (vset _ n a) as [w |] eqn:E; [| done]. apply vset_Ok in E as [Hn ->].
  by intros [= <- <-].
Qed.

Lemma setPowers_inv a l d u d' : forList l (fun n => setPowerAt n a) d = Ok (u, d') ->
  exists w, d' = set_netVoltagePtr_v w d /\ length w = length (netVoltagePtr_v d) /\
    forall n, vlookup w n = if decide (n ∈ l) then Some a else vlookup (netVoltagePtr_v d) n.
Proof.
  revert d. induction l as [| k l IH]; intros d H; cbn [forList] in H.
  - apply mret_inv in H as [_ ->]. exists (netVoltagePtr_v d). split_and!; [by destruct d | done |].
    intros n. by rewrite decide_False by apply not_elem_of_nil.
  - apply M_bind_inv in H as (? & d1 & [-> Hk]%setPowerAt_inv & H).
    apply IH in H as (w & -> & Hlen & Hw). autorewrite with merge in Hlen. exists w.
    split_and!; [by destruct d | by rewrite Hlen, vupdate_length |]. intros n. rewrite Hw, net_powers.
    destruct (decide (n ∈ l)) as [Hn | Hn]; [by rewrite decide_True by (by right) |].
    destruct (decide (k = n)) as [-> | Hne].
    + rewrite vlookup_vupdate_eq by done. by rewrite decide_True by left.
    + rewrite vlookup_vupdate_ne by done. rewrite decide_False; [done |]. by intros [-> | ?]%elem_of_cons.
Qed.

Lemma netsIn_eq m k l : netsIn (<[k := l]> m) k = l.
Proof. unfold netsIn. by rewrite lookup_insert_eq. Qed.
Lemma netsIn_ne m k r l : k <> r -> netsIn (<[k := l]> m) r = netsIn m r.
Proof. intros. unfold netsIn. by rewrite lookup_insert_ne. Qed.

Lemma shareMaster_inv v l (m : CNetMap) k master d m' d' :
  classes v (netVoltagePtr_v d) (powers d) m l -> vlookup v k = Some k ->
  shareMaster m k master d = Ok (m', d') ->
  (forall r, netsIn m' r = netsIn m r) /\
  exists w, d' = set_netVoltagePtr_v w d /\ length w = length (netVoltagePtr_v d) /\
    forall n r, rootOf v n r ->
      vlookup w n = if decide (r = k /\ master <> None) then Some master else vlookup (netVoltagePtr_v d) n.
Proof.
  intros Hc Hk H. unfold shareMaster in H. destruct master as [p |].
  - apply M_bind_inv in H as (? & d1 & [-> Hr]%setPowerAt_inv & H).
    apply M_bind_inv in H as (? & d1 & (w & -> & Hlen & Hw)%setPowers_inv & H). apply mret_inv in H as [-> ->].
    split.
    { intros r. destruct (decide (k = r)) as [<- | ?]; [by rewrite netsIn_eq | by rewrite netsIn_ne]. }
    autorewrite with merge in Hlen. exists w. split_and!; [by destruct d | by rewrite Hlen, vupdate_length |].
    intros n r Hn. rewrite Hw, net_powers.
    pose proof (class_list _ _ _ _ _ Hc n k Hk) as HL.
    assert (rootOf v k k) as Hkk by (by constructor).
    destruct (decide (n = k)) as [-> | Hnk].
    + assert (r = k) as -> by (by eapply rootOf_fun). rewrite vlookup_vupdate_eq by done.
      by repeat case_decide; naive_solver.
    + rewrite vlookup_vupdate_ne by done. destruct (decide (r = k /\ _)) as [[-> _] | Hd].
      * by rewrite decide_True by tauto.
      * rewrite decide_False; [done |]. intros [Hr' _]%HL. apply Hd. split; [by eapply rootOf_fun | done].
  - apply mret_inv in H as [-> ->]. split; [done |]. exists (netVoltagePtr_v d).
    split_and!; [by destruct d | done |]. intros n r _. by rewrite decide_False by naive_solver.
Qed.

Lemma joinLists_nets m t g n r : t <> g -> r <> g ->
  n ∈ netsIn (joinLists m t g) r <->
  if decide (r = t) then n = g \/ n ∈ netsIn m g \/ n ∈ netsIn m t else n ∈ netsIn m r.
Proof.
  intros Htg Hr. unfold joinLists. rewrite lookup_insert_ne by done.
  assert (netsIn m g = default [] (m !! g)) as Eg by done. destruct (m !! g) as [l |]; cbn [default] in Eg.
  - rewrite netsIn_ne, netsIn_eq by done. destruct (decide (r = t)) as [-> | ?].
    + rewrite netsIn_eq, elem_of_app, elem_of_cons, Eg. tauto.
    + by rewrite !netsIn_ne by done.
  - destruct (decide (r = t)) as [-> | ?].
    + rewrite netsIn_eq, elem_of_cons, Eg, elem_of_nil. tauto.
    + by rewrite netsIn_ne by done.
Qed.

Definition has (d : CCvcDb) (n : Z) : Prop := exists a, vlookup (netVoltagePtr_v d) n = Some (Some a).

Lemma SetMasterPower_inv a b d r d' : SetMasterPower a b d = Ok (r, d') ->
  d' = d /\
  (has d a /\ has d b /\ (r = None \/ r = Some (None, true)) \/
   exists master f, r = Some (master, f) /\ f && bool_decide (master = None) = false /\
     (vlookup (netVoltagePtr_v d) a = Some master \/ vlookup (netVoltagePtr_v d) b = Some master) /\
     (master = None -> vlookup (netVoltagePtr_v d) a = Some None /\ vlookup (netVoltagePtr_v d) b = Some None)).
Proof.
  intros H. unfold SetMasterPower in H. run_inv H.
  destruct x as [x |]; [destruct x0 as [y |] |].
  - apply M_bind_inv in H as (p & d1 & E1 & H). apply M_bind_inv in H as (q & d2 & E2 & H).
    cbn [arrow] in E1, E2. reader_inv E1. reader_inv E2. run_inv H. apply mret_inv in H as [-> ->].
    split; [done |]. unfold has. case_match; [left; eauto 6 |]. case_match; [right; naive_solver |].
    case_match; [right; naive_solver | left; eauto 6].
  - apply mret_inv in H as [-> ->]. split; [done |]. right. eexists _, _. by split_and!; [| | left |].
  - apply mret_inv in H as [-> ->]. split; [done |]. right. eexists _, _. split_and!; [done | done | by right |].
    by intros ->.
Qed.

(** Both classes get the power of the merged class. *)
Lemma merged_powers m l s dr d a b g t master m1 d1 :
  classes (links d) (netVoltagePtr_v d) (powers d) m l ->
  rootOf (links d) s a -> rootOf (links d) dr b -> (a = g /\ b = t) \/ (a = t /\ b = g) ->
  (vlookup (netVoltagePtr_v d) a = Some master \/ vlookup (netVoltagePtr_v d) b = Some master) ->
  (master = None -> vlookup (netVoltagePtr_v d) a = Some None /\ vlookup (netVoltagePtr_v d) b = Some None) ->
  shareMaster m (if bool_decide (vlookup (netVoltagePtr_v d) g = Some master) then t else g) master d = Ok (m1, d1) ->
  (forall r, netsIn m1 r = netsIn m r) /\
  exists w, d1 = set_netVoltagePtr_v w d /\ length w = length (netVoltagePtr_v d) /\
    forall n r, rootOf (links d) n r ->
      vlookup w n = if decide (r = g \/ r = t) then Some master else vlookup (netVoltagePtr_v d) n.
Proof.
  intros Hc Ha Hb Hab Hm Hnone H.
  pose proof (rootOf_is_root _ _ _ Ha) as Ea. pose proof (rootOf_is_root _ _ _ Hb) as Eb.
  eapply shareMaster_inv in H as (Hm1 & w & -> & Hlen & Hw); [| exact Hc | case_bool_decide; naive_solver].
  split; [done |]. exists w. split_and!; [done | done |]. intros n r Hr. rewrite (Hw n r Hr).
  rewrite (class_power _ _ _ _ _ Hc n r Hr).
  destruct (decide (r = _ /\ _)) as [H1 | H1], (decide (r = g \/ r = t)) as [H2 | H2];
    case_bool_decide; destruct master; naive_solver.
Qed.

Lemma modifyNl_inv f d u d' : modifyNl f d = Ok (u, d') -> exists x, f (netlist d) = Ok x /\ d' = set_netlist x d.
Proof. unfold modifyNl. destruct (f (netlist d)) as [x |]; [| done]. intros [= <- <-]. eauto. Qed.

Section Make.
Context (m : CNetMap) (l : list (Z * Z)) (s dr : Z) (d : CCvcDb).
Context (Hc : classes (links d) (netVoltagePtr_v d) (powers d) m l)
  (Hs : 0 <= s < Z.of_nat (length (links d))) (Hdr : 0 <= dr < Z.of_nat (length (links d)))
  (Hmax : Z.of_nat (length (links d)) <= UNKNOWN_NET).

Lemma has_root n r : rootOf (links d) n r -> has d n <-> has d r.
Proof. intros H. unfold has. by rewrite (class_power _ _ _ _ _ Hc n r H). Qed.

(** The two cases after [SetMasterPower]. *)
Definition mergeCase (a b : Z) (x : option (option Z * bool)) : DB (merge_t * CNetMap) :=
  match x with
  | None => mret (Conflict, m)
  | Some (master, mySamePowerFlag) =>
      g ← powerAt (Z.max a b);
      let myMinorNetId := if bool_decide (g = master) then Z.min a b else Z.max a b in
      _ ← when mySamePowerFlag (reportM (Warning myMinorNetId));
      if mySamePowerFlag && bool_decide (master = None) then mret (SameDefinition, m)
      else
        m ← shareMaster m myMinorNetId master;
        _ ← modifyNl (fun x => v ← vset (equivalentNet_v x) (Z.max a b) (Z.min a b);
                               Ok (set_equivalentNet_v v x));
        mret (Merged, joinLists m (Z.min a b) (Z.max a b))
  end.

Lemma unmerged_inv a b x r m' d' :
  rootOf (links d) s a -> rootOf (links d) dr b -> has d a -> has d b -> x = None \/ x = Some (None, true) ->
  mergeCase a b x d = Ok ((r, m'), d') ->
  base d' = base d /\ links d' = links d /\ netVoltagePtr_v d' = netVoltagePtr_v d /\ m' = m /\
  has d s /\ has d dr.
Proof.
  intros Ha Hb Hpa Hpb Hx H. rewrite (has_root _ _ Ha), (has_root _ _ Hb).
  assert (core d' = core d /\ m' = m) as [E ->].
  { destruct Hx as [-> | ->]; cbn [mergeCase] in H; [by apply mret_inv in H as [[= -> ->] ->] |].
    apply M_bind_inv in H as (g & d1 & [_ ->]%powerAt_inv & H).
    apply M_bind_inv in H as (u & d1 & R%observes_reportM & H). by apply mret_inv in H as [[= -> ->] ->]. }
  by apply core_same in E as (? & ? & ?).
Qed.

Lemma merged_inv a b master f r m' d' :
  rootOf (links d) s a -> rootOf (links d) dr b -> a <> b -> f && bool_decide (master = None) = false ->
  (vlookup (netVoltagePtr_v d) a = Some master \/ vlookup (netVoltagePtr_v d) b = Some master) ->
  (master = None -> vlookup (netVoltagePtr_v d) a = Some None /\ vlookup (netVoltagePtr_v d) b = Some None) ->
  mergeCase a b (Some (master, f)) d = Ok ((r, m'), d') ->
  base d' = base d /\ length (links d') = length (links d) /\ (forall n, has d n -> has d' n) /\
  classes (links d') (netVoltagePtr_v d') (powers d') m' ((s, dr) :: l).
Proof.
  intros Ha Hb Hne Hf Hor Hnone H. cbn [mergeCase] in H.
  apply M_bind_inv in H as (g & d1 & [Eg ->]%powerAt_inv & H).
  apply M_bind_inv in H as (u & d1 & R & H). rewrite Hf in H.
  assert (core d1 = core d) as (B1 & L1 & W1)%core_same by (eapply (observes_when f); [apply observes_reportM | exact R]).
  pose proof (base_powers _ _ B1) as P1. rewrite <- L1, <- W1, <- P1 in Hc. rewrite <- L1 in Ha, Hb.
  rewrite <- W1 in Hor, Hnone, Eg. unfold has. rewrite <- B1, <- L1, <- W1. clear R B1 L1 W1 P1 Hs Hdr Hmax d.
  apply M_bind_inv in H as (m1 & d2 & R2 & H). apply M_bind_inv in H as (u2 & d3 & R3 & H).
  apply mret_inv in H as [[= -> ->] ->].
  assert ((if bool_decide (g = master) then Z.min a b else Z.max a b) =
          (if bool_decide (vlookup (netVoltagePtr_v d1) (Z.max a b) = Some master) then Z.min a b else Z.max a b))
    as Eminor by (rewrite Eg; repeat case_bool_decide; naive_solver).
  rewrite Eminor in R2.
  assert ((a = Z.max a b /\ b = Z.min a b) \/ (a = Z.min a b /\ b = Z.max a b)) as Hab by lia.
  destruct (merged_powers _ _ _ _ _ _ _ _ _ _ _ _ Hc Ha Hb Hab Hor Hnone R2) as (Hm1 & w & -> & Hlen & Hw).
  apply modifyNl_inv in R3 as (x & E & ->). inv_ok E. injection E as <-. apply vset_Ok in Ha0 as [Hg ->].
  change (equivalentNet_v (netlist (set_netVoltagePtr_v w d1))) with (links (set_netVoltagePtr_v w d1)).
  rewrite link_base, link_links, link_powers, !net_base, !net_links, !net_powers.
  assert (powers (set_netlist (set_equivalentNet_v (vupdate (links d1) (Z.max a b) (Z.min a b))
    (netlist (set_netVoltagePtr_v w d1))) (set_netVoltagePtr_v w d1)) = powers d1) as -> by (by destruct d1).
  split_and!; [done | by rewrite vupdate_length | |].
  - intros n [q E]. pose proof (vlookup_range _ _ _ E) as Hn. rewrite (class_length _ _ _ _ _ Hc) in Hn.
    destruct (rootOf_exists _ (class_links _ _ _ _ _ Hc) n Hn) as [r Hr]. rewrite (Hw n r Hr).
    destruct (decide (r = _ \/ _)) as [Hd | _]; [| eauto]. destruct master as [p |]; [eauto |].
    rewrite (class_power _ _ _ _ _ Hc n r Hr) in E. destruct (Hnone eq_refl).
    destruct Hd as [-> | ->]; destruct Hab as [[Ea Eb] | [Ea Eb]]; rewrite <- ?Ea, <- ?Eb in E; congruence.
  - eapply (merge_classes _ _ _ _ _ _ _ _ _ _ _ _ _ master Hc Ha Hb Hab); [lia | done | done | done |].
    intros n r Hr. rewrite joinLists_nets by lia. by rewrite !Hm1.
Qed.

Lemma MakeEquivalentNets_inv r m' d' :
  MakeEquivalentNets m s dr d = Ok ((r, m'), d') ->
  base d' = base d /\ length (links d') = length (links d) /\ (forall n, has d n -> has d' n) /\
  (classes (links d') (netVoltagePtr_v d') (powers d') m' ((s, dr) :: l) \/
   classes (links d') (netVoltagePtr_v d') (powers d') m' l /\ has d' s /\ has d' dr).
Proof.
  intros H. pose proof (class_links _ _ _ _ _ Hc) as Hd.
  destruct (rootOf_exists _ Hd _ Hs) as [a Ha]. destruct (rootOf_exists _ Hd _ Hdr) as [b Hb].
  unfold MakeEquivalentNets in H. run_inv H.
  rewrite (GetLeast_root (netlist d) s a ltac:(lia) Ha) in R. injection R as Ex.
  rewrite (GetLeast_root (netlist d) dr b ltac:(lia) Hb) in R0. injection R0 as Ey.
  rewrite <- Ex, <- Ey in H.
  destruct (Z.eqb_spec a b) as [<- | Hne].
  { apply mret_inv in H as [[= -> ->] ->]. split_and!; [done | done | done |]. left.
    apply classes_redundant; [| done]. by apply (class_connected _ _ _ _ _ Hc s dr a a). }
  apply M_bind_inv in H as (c & d1 & [-> E]%SetMasterPower_inv & H).
  destruct E as [(Hpa & Hpb & Hx) | (master & f & -> & Hf & Hor & Hnone)].
  - destruct (unmerged_inv a b c r m' d' Ha Hb Hpa Hpb Hx H) as (B & L & W & -> & Ps & Pdr).
    unfold has. rewrite B, L, W, (base_powers _ _ B). split_and!; auto.
  - destruct (merged_inv a b master f r m' d' Ha Hb Hne Hf Hor Hnone H) as (B & L & P & C). auto.
Qed.
End Make.

(** ** The switches *)

(** The nets a switch of an instance joins; parallel instances are skipped. *)
Definition switchNets (x : list CInstance) (dev : CDevice) (theInstanceId : Z) : list (Z * Z) :=
  match vlookup x theInstanceId with
  | Some i =>
      let net k := n ← vlookup (signalId_v dev) k; vlookup (localToGlobalNetId_v i) n in
      match net 0, net 1 with
      | Some s, Some dr => if IsParallelInstance i then [] else [(s, dr)]
      | _, _ => []
      end
  | None => []
  end.

(** The pairs of nets the switches of the modes join, in the order of the loops. *)
Definition useSwitches (x : list CInstance) (cs : list CCircuit) (u : CModelUse) : list (Z * Z) :=
  if bool_decide (modelType (useModel u) = SWITCH_ON) then
    flat_map (fun '(k, o) =>
      match vlookup cs k with
      | Some c => match vlookup (devicePtr_v c) o with
                  | Some dev => flat_map (switchNets x dev) (instanceId_v c)
                  | None => []
                  end
      | None => []
      end) (useDevices u)
  else [].
Definition switchPairs (d : CCvcDb) : list (Z * Z) :=
  flat_map (fun models => flat_map (useSwitches (instancePtr_v (netlist d)) (circuits d)) models)
    (cvcModelListMap (cvcChecks (cvcParameters d))).

Lemma foldList_inv {A B P} (f : A -> list P) (I : list P -> B -> CCvcDb -> Prop) (body : B -> A -> DB B) l :
  (forall x ps b d b' d', I ps b d -> body b x d = Ok (b', d') -> I (ps ++ f x) b' d') ->
  forall ps b d b' d', I ps b d -> foldList l body b d = Ok (b', d') -> I (ps ++ flat_map f l) b' d'.
Proof.
  intros Hb. induction l as [| x l IH]; intros ps b d b' d' H E; cbn [foldList flat_map] in *.
  - apply mret_inv in E as [-> ->]. by rewrite app_nil_r.
  - apply M_bind_inv in E as (b1 & d1 & E1 & E). rewrite app_assoc. eapply IH; [| exact E]. by eapply Hb.
Qed.

Lemma observes_reportSwitchShort i s dr : observes (reportSwitchShort i s dr).
Proof. unfold reportSwitchShort. observe. Qed.

Lemma IgnoreDevice_same i d u d' : IgnoreDevice i d = Ok (u, d') ->
  base d' = base d /\ links d' = links d /\ netVoltagePtr_v d' = netVoltagePtr_v d.
Proof. unfold IgnoreDevice. intros H. run_inv H. injection H as <- <-. by destruct d. Qed.

Section Switches.
Context (d0 : CCvcDb).
Abbreviation N := (netCount (netlist d0)).
Context (HN : 0 <= N <= UNKNOWN_NET)
  (Hnets : forall i x n, vlookup (instancePtr_v (netlist d0)) i = Some x -> n ∈ localToGlobalNetId_v x -> 0 <= n < N).

(** After the switches [ps], of which [l] were merged. *)
Record merging (ps : list (Z * Z)) (m : CNetMap) (d : CCvcDb) : Prop := {
  merging_base : base d = base d0;
  merging_length : Z.of_nat (length (links d)) = N;
  merging_has n : has d0 n -> has d n;
  merging_classes : exists l, l ⊆ ps /\ classes (links d) (netVoltagePtr_v d) (powers d) m l /\
    forall s dr, (s, dr) ∈ ps -> connected l s dr \/ has d s /\ has d dr
}.

Lemma merging_same ps m d d' :
  base d' = base d /\ links d' = links d /\ netVoltagePtr_v d' = netVoltagePtr_v d ->
  merging ps m d -> merging ps m d'.
Proof.
  intros (B & L & W) [H1 H2 H3 H4]. pose proof (base_powers _ _ B) as P. unfold has in *.
  split; unfold has; rewrite ?B, ?L, ?W, ?P; auto.
Qed.

Lemma merging_make ps m d s dr r m' d' :
  0 <= s < N -> 0 <= dr < N -> merging ps m d -> MakeEquivalentNets m s dr d = Ok ((r, m'), d') ->
  merging (ps ++ [(s, dr)]) m' d'.
Proof.
  intros Hs Hdr [HB HL HP (l & Hl & Hc & Hdone)] H.
  destruct (MakeEquivalentNets_inv m l s dr d Hc ltac:(lia) ltac:(lia) ltac:(lia) r m' d' H) as (B & L & P & C).
  split; [congruence | lia | auto |].
  assert (forall l', l ⊆ l' -> forall x y, (x, y) ∈ ps -> connected l' x y \/ has d' x /\ has d' y) as Hold.
  { intros l' Hl' x y [Hx | [Hx Hy]]%Hdone; [left | right; auto].
    by apply (connected_mono l). }
  destruct C as [C | (C & Ps & Pdr)].
  - exists ((s, dr) :: l). split_and!; [set_solver | done |].
    intros x y [Hx | Hx%list_elem_of_singleton]%elem_of_app; [apply Hold; [set_solver | done] |].
    injection Hx as -> ->. left. apply rtsc_lr. by left.
  - exists l. split_and!; [set_solver | done |].
    intros x y [Hx | Hx%list_elem_of_singleton]%elem_of_app; [by apply Hold |]. injection Hx as -> ->. auto.
Qed.

Lemma merging_switch ps dev m d i m' d' :
  merging ps m d -> shortSwitch dev m i d = Ok (m', d') ->
  merging (ps ++ switchNets (instancePtr_v (netlist d0)) dev i) m' d'.
Proof.
  intros HI H. unfold shortSwitch in H. apply M_bind_inv in H as (x & d1 & [Ei ->]%nlat_inv & H).
  assert (instancePtr_v (netlist d) = instancePtr_v (netlist d0)) as Ex.
  { exact (f_equal (fun b => instancePtr_v b.1.1.1) (merging_base _ _ _ HI)). }
  rewrite Ex in Ei. unfold switchNets. rewrite Ei.
  destruct (IsParallelInstance x).
  { apply mret_inv in H as [-> ->]. by repeat case_match; rewrite app_nil_r. }
  apply M_bind_inv in H as (s & d1 & [Es ->]%lift_inv & H). apply M_bind_inv in H as (dr & d1 & [Edr ->]%lift_inv & H).
  inv_ok Es. inv_ok Edr. rewrite vget_Ok in *. rewrite Ha, Ha0. cbn [mbind option_bind]. rewrite Es, Edr.
  apply M_bind_inv in H as ([r m1] & d1 & E1 & H). apply M_bind_inv in H as (u & d2 & E2 & H).
  apply M_bind_inv in H as (u3 & d3 & E3 & H). apply mret_inv in H as [-> ->].
  apply (merging_same _ _ _ _ (IgnoreDevice_same _ _ _ _ E3)).
  apply (merging_same _ _ d1).
  { apply core_same. eapply observes_when; [| exact E2]. apply observes_reportSwitchShort. }
  eapply merging_make; [| | exact HI | exact E1]; eapply Hnets; try exact Ei;
    eapply list_elem_of_lookup_2, Prelude.vlookup_lookup; eassumption.
Qed.

Lemma circuit_same k c d :
  coreCircuit <$> circuits d = coreCircuit <$> circuits d0 -> vlookup (circuits d) k = Some c ->
  exists c0, vlookup (circuits d0) k = Some c0 /\ devicePtr_v c0 = devicePtr_v c /\ instanceId_v c0 = instanceId_v c.
Proof.
  intros E H. pose proof (vlookup_range _ _ _ H) as Hk. apply Prelude.vlookup_lookup in H.
  assert ((coreCircuit <$> circuits d0) !! Z.to_nat k = Some (coreCircuit c)) as F by (by rewrite <- E, list_lookup_fmap, H).
  apply list_lookup_fmap_Some in F as (c0 & F & Hc). exists c0.
  split; [| destruct c, c0; unfold coreCircuit in Hc; cbn in Hc; by simplify_eq].
  unfold vlookup. apply (f_equal length) in E. rewrite !length_fmap in E. rewrite E in Hk.
  by apply in_range_spec in Hk as ->.
Qed.

Lemma merging_model ps m d u m' d' :
  merging ps m d -> shortModel m u d = Ok (m', d') ->
  merging (ps ++ useSwitches (instancePtr_v (netlist d0)) (circuits d0) u) m' d'.
Proof.
  intros HI H. unfold shortModel in H. unfold useSwitches. case_bool_decide.
  2: { apply mret_inv in H as [-> ->]. by rewrite app_nil_r. }
  eapply (foldList_inv _ merging); [| exact HI | exact H].
  clear ps m d u m' d' HI H H0. intros [k o] ps m d m' d' HI H.
  apply M_bind_inv in H as (c & d1 & [Ec ->]%at_inv & H). apply M_bind_inv in H as (dev & d1 & [Ed ->]%lift_inv & H).
  pose proof (f_equal (fun b => b.1.1.2) (merging_base _ _ _ HI)) as Ecs.
  destruct (circuit_same k c d Ecs Ec) as (c0 & -> & -> & ->). apply vget_Ok in Ed as ->.
  eapply (foldList_inv _ merging); [| exact HI | exact H]. intros. by eapply merging_switch.
Qed.
End Switches.

(** ** The last loop *)

(** The representative of a net: the net of the power of its class, or the
    least net. *)
Definition repOf (d : CCvcDb) (n e : Z) : Prop :=
  exists r, rootOf (links d) n r /\
    match vlookup (netVoltagePtr_v d) r with
    | Some (Some a) => exists p, deref (powers d) a = Ok p /\ e = netId p
    | _ => e = r
    end.

Lemma dropPower_inv k d x q u d' :
  vlookup (netVoltagePtr_v d) k = Some x -> pointee (powers d) x = Ok q ->
  match q with Some p => when (negb (k =? netId p)) (setPowerAt k None) | None => mret tt end d = Ok (u, d') ->
  base d' = base d /\ links d' = links d /\ length (netVoltagePtr_v d') = length (netVoltagePtr_v d) /\
  (forall n, n <> k -> vlookup (netVoltagePtr_v d') n = vlookup (netVoltagePtr_v d) n) /\
  forall a, vlookup (netVoltagePtr_v d') k = Some (Some a) <-> x = Some a /\ exists p, deref (powers d) a = Ok p /\ netId p = k.
Proof.
  intros E Eq H. destruct x as [a |]; cbn in Eq.
  - inv_ok Eq. injection Eq as <-. destruct (Z.eqb_spec k (netId a0)) as [Hk | Hk]; cbn [when negb] in H.
    + apply mret_inv in H as [_ ->]. split_and!; try done. intros b. rewrite E. naive_solver.
    + apply setPowerAt_inv in H as [-> Hr]. rewrite net_base, net_links, net_powers. split_and!; try done.
      * by rewrite vupdate_length.
      * intros n Hn. by rewrite vlookup_vupdate_ne.
      * intros b. rewrite vlookup_vupdate_eq by done. split; [done |]. intros [[= <-] (p & Ep & Hp)]. congruence.
  - injection Eq as <-. apply mret_inv in H as [_ ->]. split_and!; try done. intros b. rewrite E. naive_solver.
Qed.

Section Fix.
Context (d : CCvcDb) (m : CNetMap) (l : list (Z * Z)).
Context (Hc : classes (links d) (netVoltagePtr_v d) (powers d) m l)
  (Hmax : Z.of_nat (length (links d)) <= UNKNOWN_NET) (Hfree : isFixedEquivalentNet (netlist d) = false).

Lemma repOf_root n e r : repOf d n e -> rootOf (links d) n r -> rootOf (links d) e r.
Proof.
  intros (r' & Hr' & He) Hr. assert (r' = r) as -> by (by eapply rootOf_fun).
  assert (rootOf (links d) r r) as Hrr by (constructor; by eapply rootOf_is_root).
  destruct (vlookup _ r) as [[a |] |] eqn:E; [| by subst | by subst].
  destruct He as (p & Ep & ->). destruct (class_owner _ _ _ _ _ Hc r r a Hrr E) as (q & Eq & Hq). congruence.
Qed.

Lemma repOf_fun n k e f r : repOf d n e -> repOf d k f -> rootOf (links d) n r -> rootOf (links d) k r -> e = f.
Proof.
  intros (r1 & H1 & He) (r2 & H2 & Hf) Hn Hk.
  assert (r1 = r) as -> by (by eapply rootOf_fun). assert (r2 = r) as -> by (by eapply rootOf_fun).
  destruct (vlookup _ r) as [[a |] |]; [| congruence | congruence].
  destruct He as (p & Ep & ->), Hf as (q & Eq & ->). congruence.
Qed.

(** After the nets from [k] on. *)
Record fixed (k : Z) (d1 : CCvcDb) : Prop := {
  fixed_base : base d1 = base d;
  fixed_length : length (links d1) = length (links d) /\ length (netVoltagePtr_v d1) = length (links d);
  fixed_below n : n < k -> vlookup (links d1) n = vlookup (links d) n /\
    vlookup (netVoltagePtr_v d1) n = vlookup (netVoltagePtr_v d) n;
  fixed_above n : k <= n < Z.of_nat (length (links d)) -> exists e, vlookup (links d1) n = Some e /\ repOf d n e;
  fixed_power n a : k <= n -> vlookup (netVoltagePtr_v d1) n = Some (Some a) <->
    vlookup (netVoltagePtr_v d) n = Some (Some a) /\ exists p, deref (powers d) a = Ok p /\ netId p = n
}.

Lemma rootOf_below v v' k n r : (forall i, i < k -> vlookup v' i = vlookup v i) -> n < k -> rootOf v n r -> rootOf v' n r.
Proof.
  intros Hv Hn H. induction H as [n E | n i r E Hlt H IH].
  - constructor. by rewrite Hv.
  - eapply root_next; [by rewrite Hv | done | apply IH; lia].
Qed.

(** [GetEquivalentNet] of the next net to fix. *)
Lemma GetEquivalentNet_rep k d1 e d2 :
  fixed (k + 1) d1 -> 0 <= k < Z.of_nat (length (links d)) -> GetEquivalentNet k d1 = Ok (e, d2) ->
  d2 = d1 /\ repOf d k e.
Proof.
  intros HF Hk H. destruct (rootOf_exists _ (class_links _ _ _ _ _ Hc) k Hk) as [r Hr].
  pose proof (rootOf_le _ (class_links _ _ _ _ _ Hc) _ _ Hr) as Hle.
  unfold GetEquivalentNet in H. rewrite (proj2 (Z.eqb_neq _ _)) in H by lia.
  apply M_bind_inv in H as (f & d3 & [-> ->]%nl_inv & H). apply M_bind_inv in H as (x1 & d3 & [-> ->]%gets_inv & H).
  assert (isFixedEquivalentNet (netlist d1) = false) as Ef.
  { rewrite <- Hfree. exact (f_equal (fun b => isFixedEquivalentNet b.1.1.1) (fixed_base _ _ HF)). }
  rewrite Ef in H. apply M_bind_inv in H as (n & d3 & [En ->]%lift_inv & H).
  assert (rootOf (links d1) k r) as Hr1.
  { eapply (rootOf_below _ _ (k + 1)); [| lia | exact Hr]. intros i Hi. by apply (fixed_below _ _ HF). }
  rewrite (GetLeast_root (netlist d1) k r ltac:(lia) Hr1) in En. injection En as <-.
  run_inv H. rewrite (proj2 (fixed_below _ _ HF r ltac:(lia))) in R.
  rewrite (base_powers _ _ (fixed_base _ _ HF)) in R0.
  assert (d2 = d1 /\ match x0 with Some p => e = netId p | None => e = r end) as [-> He].
  { destruct x0 as [p |]; [| by apply mret_inv in H as [-> ->]]. destruct (Z.eqb_spec (netId p) UNKNOWN_NET) as [Eu |].
    - destruct x as [a |]; [| done]. cbn in R0. inv_ok R0. injection R0 as ->.
      destruct (class_owner _ _ _ _ _ Hc r r a) as (q & Eq & Hq); [constructor; by eapply rootOf_is_root | done |].
      assert (q = p) as -> by congruence. apply rootOf_range in Hq. lia.
    - by apply mret_inv in H as [-> ->]. }
  split; [done |]. exists r. split; [done |]. rewrite R. destruct x as [a |].
  - cbn in R0. inv_ok R0. injection R0 as <-. eauto.
  - injection R0 as <-. done.
Qed.

Lemma fixed_start : fixed (Z.of_nat (length (links d))) d.
Proof.
  pose proof (class_length _ _ _ _ _ Hc). split; [done | done | done | lia |]. intros n a Hn.
  split; [| by intros [? _]]. intros E. apply vlookup_range in E. lia.
Qed.

Lemma fixed_step k d1 u d2 :
  fixed (k + 1) d1 -> 0 <= k < Z.of_nat (length (links d)) -> fixNet k d1 = Ok (u, d2) -> fixed k d2.
Proof.
  intros HF Hk H. unfold fixNet in H.
  apply M_bind_inv in H as (e & d3 & [-> He]%(GetEquivalentNet_rep k d1) & H); [| done | done].
  apply M_bind_inv in H as (u1 & d3 & (x & E & ->)%modifyNl_inv & H). inv_ok E. injection E as <-.
  apply vset_Ok in Ha as [Hr ->]. fold (links d1) in *. run_inv H. rewrite link_powers in R.
  assert (powers (set_netlist (set_equivalentNet_v (vupdate (links d1) k e) (netlist d1)) d1) = powers d) as Ep.
  { rewrite <- (base_powers _ _ (fixed_base _ _ HF)). by destruct d1. }
  rewrite Ep in R0. rewrite (proj2 (fixed_below _ _ HF k ltac:(lia))) in R.
  set (d3 := set_netlist _ d1) in *.
  assert (netVoltagePtr_v d3 = netVoltagePtr_v d1) as W3 by apply link_powers.
  destruct (dropPower_inv k d3 x x0 u d2) as (B & L & Hlen & Hne & Heq); [rewrite W3 | rewrite Ep | |]; try done.
  { by rewrite (proj2 (fixed_below _ _ HF k ltac:(lia))). }
  rewrite W3 in Hlen, Hne. rewrite Ep in Heq.
  destruct HF as [F1 [F2 F3] F4 F5 F6]. split.
  - rewrite B, <- F1. apply link_base.
  - rewrite L, Hlen. unfold d3. rewrite link_links, vupdate_length. auto.
  - intros n Hn. rewrite L, Hne by lia. unfold d3. rewrite link_links, vlookup_vupdate_ne by lia. apply F4. lia.
  - intros n Hn. rewrite L. unfold d3. rewrite link_links. destruct (decide (k = n)) as [<- | Hkn].
    + exists e. split; [by apply vlookup_vupdate_eq | done].
    + rewrite vlookup_vupdate_ne by done. apply F5. lia.
  - intros n a Hn. destruct (decide (n = k)) as [-> | Hkn].
    + rewrite Heq, R. split; [intros [-> ?]; auto | intros [[= ->] ?]; auto].
    + rewrite Hne by done. apply F6. lia.
Qed.

Lemma fixNets_inv n d1 u d2 :
  fixed (Z.of_nat n) d1 -> (n <= length (links d))%nat -> fixNets n d1 = Ok (u, d2) -> fixed 0 d2.
Proof.
  revert d1. induction n as [| n IH]; intros d1 HF Hn H; cbn [fixNets] in H; [by apply mret_inv in H as [_ ->] |].
  apply M_bind_inv in H as (u1 & d3 & E & H). eapply IH; [| lia | exact H].
  eapply fixed_step; [| | exact E]; [| lia]. replace (Z.of_nat n + 1) with (Z.of_nat (S n)) by lia. done.
Qed.

(** The database after the loop. *)
Lemma fixed_rep d1 n : fixed 0 d1 -> 0 <= n < Z.of_nat (length (links d)) ->
  exists e, vlookup (links d1) n = Some e /\ repOf d n e.
Proof. intros HF Hn. apply (fixed_above _ _ HF). lia. Qed.

Lemma fixed_same d1 n k e f : fixed 0 d1 -> vlookup (links d1) n = Some e -> vlookup (links d1) k = Some f ->
  e = f <-> connected l n k.
Proof.
  intros HF E F. pose proof (vlookup_range _ _ _ E) as Hn. pose proof (vlookup_range _ _ _ F) as Hk.
  rewrite (proj1 (fixed_length _ _ HF)) in Hn, Hk.
  destruct (fixed_rep d1 n HF Hn) as (e' & E' & He). destruct (fixed_rep d1 k HF Hk) as (f' & F' & Hf).
  assert (e' = e) as -> by congruence. assert (f' = f) as -> by congruence.
  destruct (rootOf_exists _ (class_links _ _ _ _ _ Hc) n Hn) as [r Hr].
  destruct (rootOf_exists _ (class_links _ _ _ _ _ Hc) k Hk) as [s Hs].
  rewrite <- (class_connected _ _ _ _ _ Hc n k r s Hr Hs). split.
  - intros <-. pose proof (repOf_root _ _ _ He Hr). pose proof (repOf_root _ _ _ Hf Hs). by eapply rootOf_fun.
  - intros <-. by eapply (repOf_fun n k e f r).
Qed.

Lemma fixed_idempotent d1 n e : fixed 0 d1 -> vlookup (links d1) n = Some e -> vlookup (links d1) e = Some e.
Proof.
  intros HF E. pose proof (vlookup_range _ _ _ E) as Hn. rewrite (proj1 (fixed_length _ _ HF)) in Hn.
  destruct (fixed_rep d1 n HF Hn) as (e' & E' & He). assert (e' = e) as -> by congruence.
  destruct (rootOf_exists _ (class_links _ _ _ _ _ Hc) n Hn) as [r Hr].
  pose proof (repOf_root _ _ _ He Hr) as Hre.
  destruct (fixed_rep d1 e HF (rootOf_range _ _ _ Hre)) as (f & F & Hf).
  by rewrite F, (repOf_fun n e e f r He Hf Hr Hre).
Qed.

(** A power stays on the representative of its class and nowhere else. *)
Lemma fixed_owner d1 n a : fixed 0 d1 -> vlookup (netVoltagePtr_v d1) n = Some (Some a) -> vlookup (links d1) n = Some n.
Proof.
  intros HF E. pose proof (vlookup_range _ _ _ E) as Hn. rewrite (proj2 (fixed_length _ _ HF)) in Hn.
  apply (fixed_power _ _ HF n a ltac:(lia)) in E as (E & p & Ep & Hp).
  destruct (fixed_rep d1 n HF Hn) as (e & E' & r & Hr & He). rewrite E'. f_equal.
  rewrite (class_power _ _ _ _ _ Hc n r Hr) in E. rewrite E in He. destruct He as (q & Eq & ->). congruence.
Qed.

Lemma fixed_has d1 n e : fixed 0 d1 -> has d n -> vlookup (links d1) n = Some e -> has d1 e.
Proof.
  intros HF [a Ea] E. pose proof (vlookup_range _ _ _ E) as Hn. rewrite (proj1 (fixed_length _ _ HF)) in Hn.
  destruct (fixed_rep d1 n HF Hn) as (e' & E' & He). assert (e' = e) as -> by congruence.
  destruct (rootOf_exists _ (class_links _ _ _ _ _ Hc) n Hn) as [r Hr].
  pose proof (repOf_root _ _ _ He Hr) as Hre. pose proof (rootOf_range _ _ _ Hre).
  exists a. apply (fixed_power _ _ HF e a ltac:(lia)).
  rewrite (class_power _ _ _ _ _ Hc e r Hre), <- (class_power _ _ _ _ _ Hc n r Hr). split; [done |].
  destruct He as (r' & Hr' & He). assert (r' = r) as -> by (by eapply rootOf_fun).
  rewrite <- (class_power _ _ _ _ _ Hc n r Hr), Ea in He. destruct He as (p & Ep & ->). eauto.
Qed.
End Fix.

(** ** [SetEquivalentNets] *)

(** What [SetModePower] leaves: each power is on its own net; the loop counter
    [int net_it] reaches every net. *)
Record placed (d : CCvcDb) : Prop := {
  placed_count : 0 <= netCount (netlist d) <= 2 ^ 31;
  placed_nets i x n : vlookup (instancePtr_v (netlist d)) i = Some x -> n ∈ localToGlobalNetId_v x ->
    0 <= n < netCount (netlist d);
  placed_length : Z.of_nat (length (netVoltagePtr_v d)) = netCount (netlist d);
  placed_powers n a : vlookup (netVoltagePtr_v d) n = Some (Some a) ->
    exists p, deref (powers d) a = Ok p /\ netId p = n
}.

Lemma identity_length n : 0 <= n -> Z.of_nat (length (identityNets n)) = n.
Proof. intros. unfold identityNets. rewrite length_fmap, length_seq. lia. Qed.

Lemma identity_lookup n k e : vlookup (identityNets n) k = Some e -> e = k.
Proof.
  intros H. pose proof (vlookup_range _ _ _ H). apply Prelude.vlookup_lookup in H. unfold identityNets in H.
  apply list_lookup_fmap_Some in H as (i & -> & H). apply lookup_seq in H. lia.
Qed.

Lemma identity_root n k r : rootOf (identityNets n) k r -> r = k.
Proof. intros H. inversion H as [| ? j ? E Hlt]; [done |]. apply identity_lookup in E. lia. Qed.

(** At the start every net is a class. *)
Lemma identity_classes w h n :
  0 <= n -> Z.of_nat (length w) = n ->
  (forall k a, vlookup w k = Some (Some a) -> exists p, deref h a = Ok p /\ netId p = k) ->
  classes (identityNets n) w h ∅ [].
Proof.
  intros Hn Hw Hp. split.
  - intros k e E. pose proof (vlookup_range _ _ _ E). apply identity_lookup in E. lia.
  - pose proof (identity_length n Hn). lia.
  - intros k j r s ->%identity_root ->%identity_root. by rewrite connected_nil.
  - by intros k r ->%identity_root.
  - intros k r _. unfold netsIn. rewrite lookup_empty. split; [by intros ?%elem_of_nil |].
    by intros [->%identity_root ?].
  - intros k r a Hr E. destruct (Hp k a E) as (p & Ep & Hk). exists p. split; [done |]. by rewrite Hk.
Qed.

(** The database with every net in a class of its own. *)
Definition unmergedDb (d : CCvcDb) : CCvcDb :=
  set_netlist (set_isFixedEquivalentNet false
    (set_equivalentNet_v (identityNets (netCount (netlist d))) (netlist d))) d.

Lemma unmerged_count d : netCount (netlist (unmergedDb d)) = netCount (netlist d).
Proof. by destruct d. Qed.

Lemma merging_start d : placed d -> merging (unmergedDb d) [] ∅ (unmergedDb d).
Proof.
  intros [[H0 H1] H2 H3 H4].
  assert (links (unmergedDb d) = identityNets (netCount (netlist d)) /\
          netVoltagePtr_v (unmergedDb d) = netVoltagePtr_v d /\ powers (unmergedDb d) = powers d /\
          netCount (netlist (unmergedDb d)) = netCount (netlist d)) as (E1 & E2 & E3 & E4) by (by destruct d).
  split; [done | by rewrite E1, E4, identity_length | done |].
  exists []. split_and!; [done | | by intros s dr ?%elem_of_nil]. rewrite E1, E2, E3. by apply identity_classes.
Qed.

(** The merges and the last loop of a run. *)
Lemma SetEquivalentNets_inv d d' : placed d -> SetEquivalentNets d = Ok (tt, d') ->
  exists m dm l d1, merging (unmergedDb d) (switchPairs d) m dm /\ l ⊆ switchPairs d /\
    classes (links dm) (netVoltagePtr_v dm) (powers dm) m l /\
    (forall s dr, (s, dr) ∈ switchPairs d -> connected l s dr \/ has dm s /\ has dm dr) /\
    fixed dm 0 d1 /\ links d' = links d1 /\ netVoltagePtr_v d' = netVoltagePtr_v d1.
Proof.
  intros Hp H. pose proof (merging_start d Hp) as HS. unfold SetEquivalentNets in H.
  apply M_bind_inv in H as (u & d0 & (x & [= <-] & ->)%modifyNl_inv & H). fold (unmergedDb d) in H.
  apply M_bind_inv in H as (ms & d2 & [-> ->]%gets_inv & H). apply M_bind_inv in H as (m & d2 & E & H).
  assert (switchPairs (unmergedDb d) = switchPairs d) as Epairs by (by destruct d).
  assert (merging (unmergedDb d) (switchPairs d) m d2) as HM.
  { rewrite <- Epairs. refine (foldList_inv _ (merging (unmergedDb d)) _ _ _ [] _ _ _ _ HS E).
    intros models ps b d3 b' d3' H3 E3. refine (foldList_inv _ (merging (unmergedDb d)) _ _ _ ps _ _ _ _ H3 E3).
    intros u' ps' b2 d4 b2' d4' H4 E4. eapply merging_model; [| | exact H4 | exact E4].
    - rewrite unmerged_count. pose proof (placed_count _ Hp). unfold UNKNOWN_NET, UINT32_MAX. lia.
    - intros i x' n Hx Hn. destruct d. by apply (placed_nets _ Hp i x' n). }
  clear E. apply M_bind_inv in H as (u1 & d3 & E%observes_PrintAndResetCircuitErrors & H).
  apply core_same, (fun E => merging_same _ _ m _ _ E HM) in E as HM'. clear E HM d2.
  destruct (merging_classes _ _ _ _ HM') as (l & Hl & Hc & Hdone).
  pose proof (merging_length _ _ _ _ HM') as HL. rewrite unmerged_count in HL. pose proof (placed_count _ Hp) as HC.
  apply M_bind_inv in H as (n & d4 & [-> ->]%nl_inv & H). fold (links d3) in H.
  apply M_bind_inv in H as (u2 & d4 & E & H). apply modifyNl_inv in H as (x & [= <-] & ->).
  exists m, d3, l, d4. split_and!; [done | done | done | done | | by destruct d4 | by destruct d4].
  assert (Z.to_nat (s32 (Z.of_nat (length (links d3)) - 1) + 1) = length (links d3)) as En.
  { rewrite s32_id by lia. lia. }
  rewrite En in E. eapply fixNets_inv; [exact Hc | | | | done | exact E].
  - unfold UNKNOWN_NET, UINT32_MAX. lia.
  - etrans; [exact (f_equal (fun b => isFixedEquivalentNet b.1.1.1) (merging_base _ _ _ _ HM')) | by destruct d].
  - eapply fixed_start. exact Hc.
Qed.

(** C8: After [SetEquivalentNets] every net has a representative, itself its
    own; two nets have the same representative exactly when they are connected
    by the switches that were merged ([connected], the equivalence closure of
    the pairs).  A switch is left out only between two nets that both keep a
    power.  No class loses its power, and a power is kept on the
    representative of its class and on no other net. *)
Theorem SetEquivalentNets_classes d d' :
  placed d -> SetEquivalentNets d = Ok (tt, d') ->
  let e := equivalentNet_v (netlist d') in
  Z.of_nat (length e) = netCount (netlist d) /\
  (exists l, l ⊆ switchPairs d /\
     forall n k r s, vlookup e n = Some r -> vlookup e k = Some s -> r = s <-> connected l n k) /\
  (forall n r, vlookup e n = Some r -> vlookup e r = Some r) /\
  (forall s dr r t, (s, dr) ∈ switchPairs d -> vlookup e s = Some r -> vlookup e dr = Some t ->
     r = t \/ has d' r /\ has d' t) /\
  (forall n r, has d n -> vlookup e n = Some r -> has d' r) /\
  (forall n, has d' n -> vlookup e n = Some n).
Proof.
  intros Hp H e. destruct (SetEquivalentNets_inv d d' Hp H) as (m & dm & l & d1 & HM & Hl & Hc & Hdone & HF & EL & EW).
  unfold e, has. fold (links d'). rewrite EL, EW. fold (has d1).
  split_and!.
  - rewrite (proj1 (fixed_length _ _ _ HF)), (merging_length _ _ _ _ HM). apply unmerged_count.
  - exists l. split; [done |]. intros n k r s Er Es. by apply (fixed_same dm m l Hc d1).
  - intros n r Er. by apply (fixed_idempotent dm m l Hc d1 n r).
  - intros s dr r t Hsd Er Et. destruct (Hdone s dr Hsd) as [Hst | [Hs Ht]].
    + left. by apply (fixed_same dm m l Hc d1 s dr).
    + right. split; [by apply (fixed_has dm m l Hc d1 s) | by apply (fixed_has dm m l Hc d1 dr)].
  - intros n r Hn Er. apply (fixed_has dm m l Hc d1 n); [done | | done].
    apply (merging_has _ _ _ _ HM). by destruct d.
  - intros n [a Ha]. by apply (fixed_owner dm m l Hc d1 n a).
Qed.

(** The example with its resistors read as switches: the first joins net 4 to
    the upper supply, the second would join the two supplies. *)
Definition switchDb : CCvcDb :=
  set_cvcParameters (mkParameters 100 (cvcLeakLimit (cvcParameters ExampleDb.exampleDb)) false 0 0 0 EmptyString
    (mkCheckParameters false false false false true false true 0 0 0 0 0 0
       [[mkModelUse (ExampleDb.plainModel "sw" SWITCH_ON 0 "R") [(0, 2); (0, 3)]]] [])) ExampleDb.exampleDb.

Lemma switchDb_placed : placed switchDb.
Proof.
  split; [vm_compute; split; discriminate | | reflexivity |].
  - intros i x n Hx. apply Prelude.vlookup_lookup in Hx.
    assert (Forall (fun x => Forall (fun n => 0 <= n < 5) (localToGlobalNetId_v x)) (instancePtr_v (netlist switchDb))) as HF.
    { repeat constructor; lia. }
    rewrite Forall_forall in HF. apply list_elem_of_lookup_2 in Hx. specialize (HF x Hx). rewrite Forall_forall in HF.
    apply HF.
  - intros n a Hn. pose proof (vlookup_range _ _ _ Hn) as Hr. cbn in Hr.
    assert (n = 0 \/ n = 1 \/ n = 2 \/ n = 3 \/ n = 4) as Hcases by lia.
    destruct Hcases as [-> | [-> | [-> | [-> | ->]]]]; vm_compute in Hn; simplify_eq; eexists; split; vm_compute; reflexivity.
Qed.

Lemma SetEquivalentNets_classes_witness :
  exists d', SetEquivalentNets switchDb = Ok (tt, d') /\ links d' = [0; 1; 2; 3; 0] /\ reports d' <> [] /\
    has d' 0 /\ has d' 1.
Proof.
  assert (exists d', SetEquivalentNets switchDb = Ok (tt, d') /\ links d' = [0; 1; 2; 3; 0] /\ reports d' <> [])
    as (d' & E & L & R) by (eexists; split_and!; [vm_compute; reflexivity | reflexivity | vm_compute; discriminate]).
  exists d'. split; [exact E |]. split; [exact L |]. split; [exact R |].
  pose proof (SetEquivalentNets_classes switchDb d' switchDb_placed E) as (_ & _ & _ & Hs & _).
  unfold links in L. rewrite L in Hs.
  destruct (Hs 4 1 0 1 ltac:(vm_compute; right; left; done) eq_refl eq_refl) as [? | H]; [lia | exact H].
Defined.

End Equivalent.
