(* ===== verification/Text.v ===== *)
(** * C++ strings and numbers in text

    The files that describe models and powers are read with [std::string],
    [sscanf] and string streams.  This file models what the code uses of them:
    positions are [size_t] with [npos], [substr] throws [out_of_range]
    ([EOutOfRange]), decimal text is converted with correct rounding. *)

From S2P Require Import Prelude CvcTypes Numeric.
From stdpp Require Import base list strings.
From Stdlib Require Import ZArith Lia Ascii Floats.SpecFloat.
#[local] Open Scope string_scope.
#[local] Open Scope list_scope.
#[local] Open Scope Z_scope.

Module Text.
Import Numeric.Numeric.

(** ** Positions *)

Definition npos : Z := 18446744073709551615.
Definition size (s : string) : Z := Z.of_nat (String.length s).

Fixpoint charIn (cs : string) (c : ascii) : bool :=
  match cs with
  | EmptyString => false
  | String x cs => Ascii.eqb c x || charIn cs c
  end.

Fixpoint dropText (n : nat) (s : string) : string :=
  match n, s with
  | S n, String _ s => dropText n s
  | _, _ => s
  end.
Fixpoint takeText (n : nat) (s : string) : string :=
  match n, s with
  | S n, String c s => String c (takeText n s)
  | _, _ => EmptyString
  end.

(** The position of the first character that satisfies [p], counted from [k]. *)
Fixpoint firstFrom (p : ascii -> bool) (k : Z) (s : string) : Z :=
  match s with
  | EmptyString => npos
  | String c s => if p c then k else firstFrom p (k + 1) s
  end.

Definition searchFrom (p : ascii -> bool) (s : string) (pos : Z) : Z :=
  if size s <=? pos then npos else firstFrom p pos (dropText (Z.to_nat pos) s).
Definition find_first_of (s cs : string) (pos : Z) : Z := searchFrom (charIn cs) s pos.
Definition find_first_not_of (s cs : string) (pos : Z) : Z := searchFrom (fun c => negb (charIn cs c)) s pos.

(** The last position, [npos] when there is none. *)
Fixpoint lastNotOf (cs : string) (k found : Z) (s : string) : Z :=
  match s with
  | EmptyString => found
  | String c s => lastNotOf cs (k + 1) (if charIn cs c then found else k) s
  end.
Definition find_last_not_of (s cs : string) : Z := lastNotOf cs 0 npos s.

Definition substr (s : string) (pos n : Z) : outcome string :=
  if size s <? pos then throw EOutOfRange
  else Ok (takeText (Z.to_nat (Z.min n (size s - pos))) (dropText (Z.to_nat pos) s)).

Definition blanks : string := String " " (String "009" (String "010" EmptyString)).
Definition blanksOfLine : string := String " " (String "009" EmptyString).

(** [trim_]: throws for a text of blanks. *)
Definition trim_ (s : string) : outcome string :=
  t ← substr s 0 (u64 (find_last_not_of s blanks + 1));
  substr t (find_first_not_of s blanks 0) npos.

Definition toupper (c : ascii) : ascii :=
  let n := nat_of_ascii c in
  if bool_decide (97 <= n /\ n <= 122)%nat then ascii_of_nat (n - 32) else c.
Definition isalpha (c : ascii) : bool :=
  let n := nat_of_ascii c in bool_decide (65 <= n /\ n <= 90 \/ 97 <= n /\ n <= 122)%nat.
Fixpoint toupper_ (s : string) : string :=
  match s with EmptyString => EmptyString | String c s => String (toupper c) (toupper_ s) end.

(** [s[0]], the terminating zero for an empty text. *)
Definition firstChar (s : string) : ascii := match s with EmptyString => "000"%char | String c _ => c end.

(** ** [sscanf] *)

Inductive directive : Set :=
| ScanSet (cs : string)        (* %[...] *)
| ScanSet1 (cs : string)       (* %1[...] *)
| ScanInt                      (* %d *)
| ScanText1                    (* %1s *)
| ScanChar (c : ascii).

Definition isSpace (c : ascii) : bool :=
  let n := nat_of_ascii c in bool_decide (n = 32 \/ 9 <= n /\ n <= 13)%nat.
Definition isDigit (c : ascii) : bool :=
  let n := nat_of_ascii c in bool_decide (48 <= n /\ n <= 57)%nat.

Fixpoint skipWhile (p : ascii -> bool) (s : string) : string :=
  match s with
  | String c s' => if p c then skipWhile p s' else s
  | EmptyString => s
  end.
Definition skipSign (s : string) : string :=
  match s with String c s' => if charIn "+-" c then s' else s | EmptyString => s end.

(** What is left after a directive, and whether it stores a value. *)
Definition scanOne (d : directive) (s : string) : option (string * nat) :=
  match d with
  | ScanSet cs => if charIn cs (firstChar s) then Some (skipWhile (charIn cs) s, 1%nat) else None
  | ScanSet1 cs =>
      match s with String c s' => if charIn cs c then Some (s', 1%nat) else None | EmptyString => None end
  | ScanInt =>
      let s := skipSign (skipWhile isSpace s) in
      if isDigit (firstChar s) then Some (skipWhile isDigit s, 1%nat) else None
  | ScanText1 =>
      match skipWhile isSpace s with String _ s' => Some (s', 1%nat) | EmptyString => None end
  | ScanChar x =>
      match s with String c s' => if Ascii.eqb c x then Some (s', 0%nat) else None | EmptyString => None end
  end.

(** The number of values stored. *)
Fixpoint sscanf (s : string) (ds : list directive) : nat :=
  match ds with
  | [] => 0
  | d :: ds => match scanOne d s with Some (s, n) => n + sscanf s ds | None => 0 end
  end.

Definition suffixes : string := "afpnumkKMGTPE".
Definition IsValidVoltage_ (s : string) : bool :=
  let sign := ScanSet "-+" in
  let fraction := [ScanInt; ScanChar "."; ScanInt] in
  let suffix := ScanSet1 suffixes in
  bool_decide (sscanf s (sign :: fraction ++ [ScanText1]) = 3%nat)
  || bool_decide (sscanf s [sign; ScanInt; ScanText1] = 2%nat)
  || bool_decide (sscanf s (fraction ++ [ScanText1]) = 2%nat)
  || bool_decide (sscanf s [ScanInt; ScanText1] = 1%nat)
  || bool_decide (sscanf s (sign :: fraction ++ [suffix; ScanText1]) = 4%nat)
  || bool_decide (sscanf s [sign; ScanInt; suffix; ScanText1] = 3%nat)
  || bool_decide (sscanf s (fraction ++ [suffix; ScanText1]) = 3%nat)
  || bool_decide (sscanf s [ScanInt; suffix; ScanText1] = 2%nat).

(** ** Numbers *)

(** The value and the number of the leading digits, and the rest. *)
Fixpoint leadingDigits (value : Z) (count : nat) (s : string) : Z * nat * string :=
  match s with
  | String c s' =>
      if isDigit c then leadingDigits (value * 10 + Z.of_nat (nat_of_ascii c - 48)) (S count) s'
      else (value, count, s)
  | EmptyString => (value, count, s)
  end.

(** [(-1)^neg * m * 10^e], rounded to nearest. *)
Definition decimal (prec emax : Z) (neg : bool) (m e : Z) : spec_float :=
  match m with
  | Zpos p =>
      if 0 <=? e then binary_normalize prec emax ((if neg then -1 else 1) * m * 10 ^ e) 0 neg
      else match 10 ^ (- e) with
           | Zpos q => SFdiv prec emax (S754_finite neg p 0) (S754_finite false q 0)
           | _ => S754_nan
           end
  | _ => S754_zero neg
  end.

Definition startsWith (cs s : string) : bool := charIn cs (firstChar s).
Definition minusFirst (s : string) : bool := startsWith "-" s.

(** [stream >> number]: the characters of a number are collected and converted
    together, so that an exponent without digits fails the whole number. *)
Definition readNumber (s : string) : option (bool * Z * Z) * string :=
  let s := skipWhile isSpace s in
  let neg := minusFirst s in
  let '(i, n, s) := leadingDigits 0 0 (skipSign s) in
  let '(m, n, k, s) :=
    if startsWith "." s then
      let '(m, n', s) := leadingDigits i n (dropText 1 s) in (m, n', (n' - n)%nat, s)
    else (i, n, 0%nat, s) in
  if bool_decide (n = 0%nat) then (None, s)
  else if startsWith "eE" s then
    let s := dropText 1 s in
    let negExponent := minusFirst s in
    let '(x, c, s) := leadingDigits 0 0 (skipSign s) in
    if bool_decide (c = 0%nat) then (None, s)
    else (Some (neg, m, (if negExponent then - x else x) - Z.of_nat k), s)
  else (Some (neg, m, - Z.of_nat k), s).

(** A [double] rounded to [float]. *)
Definition toSingle (f : spec_float) : spec_float :=
  match f with
  | S754_finite s m e => binary_normalize 24 128 (if s then Z.neg m else Z.pos m) e s
  | f => f
  end.

Definition SISuffix (s : string) : option spec_float :=
  let f e := Some (toSingle (decimal 53 1024 false 1 e)) in
  if bool_decide (s = "a") then f (-18) else if bool_decide (s = "f") then f (-15)
  else if bool_decide (s = "p") then f (-12) else if bool_decide (s = "n") then f (-9)
  else if bool_decide (s = "u") then f (-6) else if bool_decide (s = "m") then f (-3)
  else if bool_decide (s = "k") || bool_decide (s = "K") then f 3
  else if bool_decide (s = "M") then f 6 else if bool_decide (s = "G") then f 9
  else if bool_decide (s = "T") then f 12 else if bool_decide (s = "P") then f 15
  else if bool_decide (s = "E") then f 18 else None.

(** The next word of a stream. *)
Fixpoint word (s : string) : string :=
  match s with
  | String c s => if isSpace c then EmptyString else String c (word s)
  | EmptyString => EmptyString
  end.

(** [from_string] for [float] ([prec] 24) and [double] ([prec] 53): a failed
    read gives zero, an overflow the largest number, and then no suffix is read. *)
Definition largest (prec emax : Z) (neg : bool) : spec_float :=
  match 2 ^ prec - 1 with Zpos p => S754_finite neg p (emax - prec) | _ => S754_nan end.

Definition from_string (prec emax : Z) (s : string) : outcome spec_float :=
  match readNumber s with
  | (None, _) => Ok (S754_zero false)
  | (Some (neg, m, e), rest) =>
      match decimal prec emax neg m e with
      | S754_infinity _ => Ok (largest prec emax neg)
      | v =>
          let mySuffix := word (skipWhile isSpace rest) in
          if bool_decide (mySuffix = EmptyString) then Ok v
          else match SISuffix mySuffix with
               | Some f => Ok (SFmul prec emax v f)
               | None => throw EOutOfRange
               end
      end
  end.
Definition from_string_float : string -> outcome spec_float := from_string 24 128.
Definition from_string_double : string -> outcome spec_float := from_string 53 1024.

(** [round]: to the nearest integer, halves away from zero.  A conversion of
    what is not a number or does not fit is undefined. *)
Definition roundAway (f : spec_float) : outcome Z :=
  match f with
  | S754_zero _ => Ok 0
  | S754_finite s m e =>
      let n := if 0 <=? e then Z.pos m * 2 ^ e else (2 * Z.pos m + 2 ^ (- e)) / (2 * 2 ^ (- e)) in
      Ok (if s then - n else n)
  | _ => throw UndefinedBehaviour
  end.
Definition fits (lo hi n : Z) : outcome Z := if (lo <=? n) && (n <=? hi) then Ok n else throw UndefinedBehaviour.

Definition dadd := SFadd 53 1024.
Definition fadd := SFadd 24 128.
Definition tenth : spec_float := decimal 53 1024 false 1 (-1).

(** [round(v * VOLTAGE_SCALE + 0.1)] of a [float], in an exact integer. *)
Definition scaledVoltage (v : spec_float) : outcome Z :=
  roundAway (dadd (promote (fmul v (single VOLTAGE_SCALE))) tenth).

(** [String_to_Voltage]: not converted to [voltage_t] yet. *)
Definition String_to_Voltage (s : string) : outcome Z :=
  if IsValidVoltage_ s then v ← from_string_float s; scaledVoltage v else Ok UNKNOWN_VOLTAGE.

(** ** Parts of a text *)

Lemma append_nil s : String.append "" s = s.
Proof. done. Qed.
Lemma append_cons c t s : String.append (String c t) s = String c (String.append t s).
Proof. done. Qed.
Lemma append_empty s : String.append s "" = s.
Proof. induction s as [| c s IH]; [done |]. by rewrite append_cons, IH. Qed.
Lemma append_assoc a b c : String.append (String.append a b) c = String.append a (String.append b c).
Proof. induction a as [| x a IH]; [done |]. by rewrite !append_cons, IH. Qed.
Lemma append_length a b : String.length (String.append a b) = (String.length a + String.length b)%nat.
Proof. induction a as [| c a IH]; [done |]. rewrite append_cons. cbn. by rewrite IH. Qed.
Lemma size_append a b : size (String.append a b) = size a + size b.
Proof. unfold size. rewrite append_length. lia. Qed.
Lemma size_nonneg s : 0 <= size s.
Proof. unfold size. lia. Qed.

Lemma dropText_append a b : dropText (String.length a) (String.append a b) = b.
Proof. induction a as [| c a IH]; [by destruct b |]. rewrite append_cons. exact IH. Qed.
Lemma takeText_append a b : takeText (String.length a) (String.append a b) = a.
Proof. induction a as [| c a IH]; [by destruct b |]. rewrite append_cons. cbn. by rewrite IH. Qed.

Lemma firstFrom_skip p k a b :
  (forall c, c ∈ String.list_ascii_of_string a -> p c = false) ->
  firstFrom p k (String.append a b) = firstFrom p (k + size a) b.
Proof.
  revert k. induction a as [| c a IH]; intros k Ha; [rewrite append_nil; f_equal; unfold size; cbn; lia |].
  rewrite append_cons. cbn [firstFrom]. rewrite (Ha c) by (by left).
  rewrite IH by (intros x Hx; apply Ha; by right). f_equal. unfold size. cbn. lia.
Qed.

Lemma searchFrom_append p a b : b <> "" -> searchFrom p (String.append a b) (size a) = firstFrom p (size a) b.
Proof.
  intros Hb. unfold searchFrom. rewrite size_append.
  assert (0 < size b) as Hs by (destruct b; [done |]; unfold size; cbn; lia).
  rewrite (proj2 (Z.leb_gt _ _)) by lia. unfold size at 2. by rewrite Nat2Z.id, dropText_append.
Qed.

Lemma substr_append a b n : size b <= n -> substr (String.append a b) (size a) n = Ok b.
Proof.
  intros Hn. unfold substr. rewrite size_append. pose proof (size_nonneg b).
  rewrite (proj2 (Z.ltb_ge _ _)) by lia. replace (Z.min n (size a + size b - size a)) with (size b) by lia.
  unfold size at 2. rewrite Nat2Z.id, dropText_append. f_equal. unfold size. rewrite Nat2Z.id.
  rewrite <- (append_empty b) at 2. apply takeText_append.
Qed.

Lemma substr_middle a b c : substr (String.append a (String.append b c)) (size a) (size b) = Ok b.
Proof.
  unfold substr. rewrite !size_append. pose proof (size_nonneg b). pose proof (size_nonneg c).
  rewrite (proj2 (Z.ltb_ge _ _)) by lia. replace (Z.min (size b) _) with (size b) by lia.
  unfold size at 2. rewrite Nat2Z.id, dropText_append. f_equal. unfold size. rewrite Nat2Z.id. apply takeText_append.
Qed.

(** ** Where searches stop *)

Definition charAt (s : string) (i : Z) : ascii := firstChar (dropText (Z.to_nat i) s).

Lemma dropText_S n s : dropText (S n) s = match dropText n s with EmptyString => EmptyString | String _ t => t end.
Proof. revert s. induction n as [| n IH]; intros [| c s]; try done. cbn [dropText] in *. by rewrite <- IH. Qed.
Lemma dropText_size n s : size (dropText n s) = Z.max 0 (size s - Z.of_nat n).
Proof.
  revert s. induction n as [| n IH]; intros s; [unfold size; destruct s; cbn [dropText]; lia |].
  destruct s as [| c s]; [unfold size; cbn; lia |]. cbn [dropText]. rewrite IH. unfold size. cbn [String.length]. lia.
Qed.

Lemma firstFrom_spec p s i :
  firstFrom p (Z.of_nat i) (dropText i s) = npos \/
  exists r, (i <= r)%nat /\ firstFrom p (Z.of_nat i) (dropText i s) = Z.of_nat r /\ Z.of_nat r < size s /\
            p (charAt s (Z.of_nat r)) = true.
Proof.
  remember (String.length (dropText i s)) as n eqn:En. revert i En.
  induction n as [| n IH]; intros i En; destruct (dropText i s) as [| c t] eqn:E; try done; [by left |].
  cbn [firstFrom]. pose proof (dropText_size i s) as Hs. rewrite E in Hs. unfold size in Hs at 1. cbn [String.length] in Hs.
  destruct (p c) eqn:Ep.
  - right. exists i. split_and!; [done | done | lia |]. unfold charAt. by rewrite Nat2Z.id, E.
  - pose proof (dropText_S i s) as Et. rewrite E in Et. specialize (IH (S i)). rewrite Et in IH.
    replace (Z.of_nat i + 1) with (Z.of_nat (S i)) by lia.
    destruct IH as [IH | (r & Hr & ? & ? & ?)]; [cbn in En; lia | by left | right; exists r; split_and!; [lia | done..]].
Qed.

Lemma searchFrom_spec p s pos : 0 <= pos ->
  searchFrom p s pos = npos \/ (pos <= searchFrom p s pos < size s /\ p (charAt s (searchFrom p s pos)) = true).
Proof.
  intros Hp. unfold searchFrom. destruct (size s <=? pos) eqn:E; [by left |].
  destruct (firstFrom_spec p s (Z.to_nat pos)) as [H | (r & Hr & H & Hs & Ht)]; rewrite Z2Nat.id in H by done.
  - by left.
  - right. rewrite H. split; [lia | done].
Qed.

(** A search for the complement moves on. *)
Lemma searchFrom_next p s pos : 0 <= pos -> size s <= npos -> p (charAt s pos) = false ->
  searchFrom p s pos < size s -> pos < searchFrom p s pos.
Proof.
  intros Hp Hs Hc Hlt. destruct (searchFrom_spec p s pos Hp) as [H | [H Ht]]; [lia |].
  destruct (Z.eq_dec (searchFrom p s pos) pos) as [E | ?]; [| lia]. rewrite E in Ht. congruence.
Qed.

Lemma substr_size s pos n t : substr s pos n = Ok t -> size t <= size s.
Proof.
  unfold substr. destruct (_ <? _); [done |]. intros [= <-].
  assert (forall k u, size (takeText k u) <= size u) as H.
  { induction k as [| k IH]; intros [| c u]; try (unfold size; cbn; lia). specialize (IH u). unfold size in *. cbn. lia. }
  etransitivity; [apply H |]. rewrite dropText_size. pose proof (size_nonneg s). lia.
Qed.

End Text.
