(* ===== verification/Equation.v ===== *)
(** * Equations (utility.cc)

    Voltages, resistances and tolerances may be given as infix equations with
    two levels of operators, [+ -] and [* / < >] ([<] is the minimum, [>] the
    maximum), parentheses and a leading minus.  [ParseEquation] splits the text
    into tokens, [postfix] reorders them for the stack machines of
    [CalculateVoltage] and [CalculateResistance]. *)

From S2P Require Import Prelude Text.
From stdpp Require Import base list strings.
From Stdlib Require Import ZArith Lia Ascii.
#[local] Open Scope string_scope.
#[local] Open Scope list_scope.

Module Equation.
Import Text.Text.

(** ** Tokens *)

(** The text up to the next delimiter, and the rest. *)
Fixpoint untilDelimiter (theDelimiters s : string) : string * string :=
  match s with
  | EmptyString => (EmptyString, EmptyString)
  | String c s' =>
      if charIn theDelimiters c then (EmptyString, s)
      else let '(t, r) := untilDelimiter theDelimiters s' in (String c t, r)
  end.

(** The loop of [ParseEquation] on the text from [myTokenStart] on. *)
Fixpoint parseFrom (fuel : nat) (theDelimiters s : string) : list string :=
  match fuel with
  | O => []
  | S fuel =>
      match s with
      | EmptyString => []
      | String c s' =>
          if charIn theDelimiters c then String c EmptyString :: parseFrom fuel theDelimiters s'
          else let '(t, r) := untilDelimiter theDelimiters s in t :: parseFrom fuel theDelimiters r
      end
  end.

(** Every token has a character, so the length of the text bounds the loop. *)
Definition ParseEquation (theEquation theDelimiters : string) : list string :=
  parseFrom (String.length theEquation) theDelimiters theEquation.

(** ** Postfix *)

(** [theText.find(theToken)] finds something. *)
Definition occursIn (theText theToken : string) : bool :=
  match String.index 0 theToken theText with Some _ => true | None => false end.

Definition myOperators : string := "()+-/*<>".
Definition myLowPrecedence : string := "+-".
Definition myHighPrecedence : string := "/*<>".

(** The output, the operator stack with its top first, and the last token. *)
Record postfixState : Type := mkPostfix {
  postfixList : list string;
  operatorStack : list string;
  lastToken : string
}.

(** Pop up to the open parenthesis; [back()] of an empty list is undefined. *)
Fixpoint popToParenthesis (l stack : list string) : outcome (list string * list string) :=
  match stack with
  | [] => throw UndefinedBehaviour
  | o :: stack => if bool_decide (o = "(") then Ok (l, stack) else popToParenthesis (l ++ [o]) stack
  end.

(** Pop the operators of high precedence on top. *)
Fixpoint popHigh (l stack : list string) : list string * list string :=
  match stack with
  | o :: stack' => if occursIn myHighPrecedence o then popHigh (l ++ [o]) stack' else (l, stack)
  | [] => (l, [])
  end.

Definition postfixToken (st : postfixState) (tok : string) : outcome postfixState :=
  let '(mkPostfix l stack last) := st in
  let top := hd EmptyString stack in
  if negb (occursIn myOperators tok) then Ok (mkPostfix (l ++ [tok]) stack tok)
  else if bool_decide (stack = []) || bool_decide (top = "(") || bool_decide (tok = "(") then
    let unary := bool_decide (tok = "-") && (bool_decide (last = "") || bool_decide (last = "(")) in
    Ok (mkPostfix (if unary then l ++ ["0"] else l) (tok :: stack) tok)
  else if bool_decide (tok = ")") then
    '(l, stack) ← popToParenthesis l stack;
    Ok (mkPostfix l stack tok)
  else if occursIn myHighPrecedence tok && occursIn myLowPrecedence top then
    Ok (mkPostfix l (tok :: stack) tok)
  else if occursIn myLowPrecedence tok && occursIn myHighPrecedence top then
    let '(l, stack) := popHigh l stack in
    match stack with
    | o :: stack' => if occursIn myLowPrecedence o then Ok (mkPostfix (l ++ [o]) (tok :: stack') tok)
                     else Ok (mkPostfix l (tok :: stack) tok)
    | [] => Ok (mkPostfix l [tok] tok)
    end
  else Ok (mkPostfix (l ++ [top]) (tok :: tl stack) tok).

Fixpoint postfixTokens (st : postfixState) (toks : list string) : outcome postfixState :=
  match toks with
  | [] => Ok st
  | tok :: toks => st ← postfixToken st tok; postfixTokens st toks
  end.

Definition postfix (theEquation : string) : outcome (list string) :=
  st ← postfixTokens (mkPostfix [] [] "") (ParseEquation theEquation myOperators);
  Ok (postfixList st ++ operatorStack st).

(** ** The stack machine *)

Inductive operator : Set := Plus | Minus | Over | Times | Min | Max.

#[export] Instance operator_eq_dec : EqDecision operator.
Proof. solve_decision. Defined.

Definition symbol (o : operator) : string :=
  match o with Plus => "+" | Minus => "-" | Over => "/" | Times => "*" | Min => "<" | Max => ">" end.

Definition machineOperators : string := "+-/*<>".
Definition operatorOf (tok : string) : option operator :=
  if bool_decide (tok = "+") then Some Plus else if bool_decide (tok = "-") then Some Minus
  else if bool_decide (tok = "*") then Some Times else if bool_decide (tok = "/") then Some Over
  else if bool_decide (tok = "<") then Some Min else if bool_decide (tok = ">") then Some Max else None.

(** The loop that [CalculateVoltage] and [CalculateResistance] share: [value]
    reads a name or a number, [apply] computes.  The stack has its top first. *)
Section Machine.
Context {ST V : Type} (value : string -> M ST V) (apply : operator -> V -> V -> V).

Fixpoint machine (stack : list V) (toks : list string) : M ST (list V) :=
  match toks with
  | [] => mret stack
  | tok :: toks =>
      if occursIn machineOperators tok then
        match stack, operatorOf tok with
        | b :: a :: stack, Some o => machine (apply o a b :: stack) toks
        | _, _ => raise EPowerError
        end
      else v ← value tok; machine (v :: stack) toks
  end.
End Machine.

(** ** Expressions *)

Inductive expression : Set :=
| Atom (text : string)
| Negate (e : expression)
| Binary (o : operator) (e f : expression).

Definition isHigh (o : operator) : bool := match o with Plus | Minus => false | _ => true end.

(** 0 for sums, 1 for products, 2 for atoms. *)
Definition level (e : expression) : nat :=
  match e with Atom _ => 2 | Negate _ => 0 | Binary o _ _ => if isHigh o then 1 else 0 end.
Definition levelOf (o : operator) : nat := if isHigh o then 1 else 0.

(** The tokens of an expression, with the parentheses it needs. *)
Definition inParentheses (b : bool) (l : list string) : list string := if b then "(" :: l ++ [")"] else l.

Fixpoint infix (e : expression) : list string :=
  match e with
  | Atom s => [s]
  | Negate e => "-" :: inParentheses (level e <=? 0)%nat (infix e)
  | Binary o e f =>
      inParentheses (level e <? levelOf o)%nat (infix e) ++
      symbol o :: inParentheses (level f <=? levelOf o)%nat (infix f)
  end.

Definition joinTokens (toks : list string) : string := foldr String.append "" toks.
Definition printEquation (e : expression) : string := joinTokens (infix e).

(** The order of the stack machine. *)
Fixpoint rpn (e : expression) : list string :=
  match e with
  | Atom s => [s]
  | Negate e => "0" :: rpn e ++ ["-"]
  | Binary o e f => rpn e ++ rpn f ++ [symbol o]
  end.

(** A name or a number: not empty, without operators. *)
Definition plainText (s : string) : Prop :=
  s <> "" /\ forall c, c ∈ String.list_ascii_of_string s -> charIn myOperators c = false.
Fixpoint plainAtoms (e : expression) : Prop :=
  match e with
  | Atom s => plainText s
  | Negate e => plainAtoms e
  | Binary _ e f => plainAtoms e /\ plainAtoms f
  end.

(** ** One token *)

(** A token that is found in a text has a first character in it. *)
Lemma occursIn_false (t s : string) :
  s <> "" -> (forall n c, String.get n t = Some c -> String.get 0 s <> Some c) -> occursIn t s = false.
Proof.
  intros Hne Hs. unfold occursIn. destruct (String.index 0 s t) as [n |] eqn:E; [| done].
  apply String.index_correct1 in E. destruct s as [| c s]; [done |].
  assert (String.get 0 (String c s) = String.get n t) as Hc.
  { rewrite <- E at 1. rewrite String.substring_correct1 by (cbn; lia). done. }
  by destruct (Hs n c).
Qed.

Lemma get_delimiter t n c : String.get n t = Some c -> charIn t c = true.
Proof.
  revert n. induction t as [| x t IH]; intros n H; [by destruct n |]. cbn. destruct n as [| n].
  - injection H as ->. by rewrite Ascii.eqb_refl.
  - rewrite (IH n H). apply orb_true_r.
Qed.

Lemma plain_first s c : plainText s -> String.get 0 s = Some c -> charIn myOperators c = false.
Proof. intros [_ Hs] H. destruct s as [| x s]; [done |]. injection H as ->. apply Hs. by left. Qed.

Lemma occursIn_operators s : plainText s -> occursIn myOperators s = false.
Proof.
  intros Hs. apply occursIn_false; [apply Hs |]. intros n c Hn H0.
  pose proof (plain_first s c Hs H0). apply get_delimiter in Hn. congruence.
Qed.

Lemma occursIn_machine s : plainText s -> occursIn machineOperators s = false.
Proof.
  intros Hs. apply occursIn_false; [apply Hs |]. intros n c Hn H0.
  pose proof (plain_first s c Hs H0) as Hc.
  do 6 (destruct n as [| n]; [injection Hn as <-; by vm_compute in Hc |]). by destruct n.
Qed.

Definition opens (stack : list string) : Prop := stack = [] \/ exists s, stack = "(" :: s.
Definition lowTop (stack : list string) : Prop := exists o s, stack = symbol o :: s /\ isHigh o = false.

(** What may be below an expression on the stack. *)
Definition below (lv : nat) (stack : list string) : Prop :=
  match lv with O => opens stack | S O => opens stack \/ lowTop stack | _ => True end.

(** The operators an expression leaves on the stack. *)
Definition pendingOps (lv : nat) (ops : list string) : Prop :=
  match lv with
  | O => exists o, isHigh o = false /\ (ops = [symbol o] \/ exists h, isHigh h = true /\ ops = [symbol h; symbol o])
  | S O => exists h, isHigh h = true /\ ops = [symbol h]
  | _ => ops = []
  end.
Definition ended (last : string) : Prop := last <> "" /\ last <> "(".

Section Tokens.
Context (l stack : list string) (last : string).

Lemma token_atom s : plainText s -> postfixToken (mkPostfix l stack last) s = Ok (mkPostfix (l ++ [s]) stack s).
Proof. intros H. unfold postfixToken. by rewrite occursIn_operators. Qed.

Lemma token_open : postfixToken (mkPostfix l stack last) "(" = Ok (mkPostfix l ("(" :: stack) "(").
Proof. unfold postfixToken. cbn [hd]. change (occursIn myOperators "(") with true. by rewrite orb_true_r. Qed.

Lemma token_negate : opens stack -> last = "" \/ last = "(" ->
  postfixToken (mkPostfix l stack last) "-" = Ok (mkPostfix (l ++ ["0"]) ("-" :: stack) "-").
Proof. by intros [-> | [s ->]] [-> | ->]. Qed.

Lemma popToParenthesis_ops ops : ~ "(" ∈ ops ->
  forall m, popToParenthesis m (ops ++ "(" :: stack) = Ok (m ++ ops, stack).
Proof.
  intros H. induction ops as [| o ops IH]; intros m; cbn; [by rewrite app_nil_r |].
  rewrite bool_decide_false by (intros ->; apply H; by left).
  rewrite IH by (intros ?; apply H; by right). by rewrite <- app_assoc.
Qed.

Lemma pendingOps_symbols lv ops : pendingOps lv ops -> ~ "(" ∈ ops.
Proof.
  assert (forall o, "(" <> symbol o) as Ho by (by intros []).
  destruct lv as [| [| lv]]; cbn; [intros (o & _ & [-> | (h & _ & ->)]) | intros (h & _ & ->) | intros ->];
    rewrite ?not_elem_of_cons; split_and?; auto using not_elem_of_nil.
Qed.

Lemma token_close lv ops : (lv < 2)%nat -> pendingOps lv ops ->
  postfixToken (mkPostfix l (ops ++ "(" :: stack) last) ")" = Ok (mkPostfix (l ++ ops) stack ")").
Proof.
  intros Hlv H. pose proof (pendingOps_symbols lv ops H) as Hs.
  assert (exists o ops', ops = symbol o :: ops') as (o & ops' & E).
  { destruct lv as [| [| lv]]; [| | lia]; cbn in H; naive_solver. }
  unfold postfixToken. change (occursIn myOperators ")") with true. cbn [negb].
  rewrite bool_decide_false by (by rewrite E). rewrite (bool_decide_false (hd _ _ = _)) by (rewrite E; by destruct o).
  cbn [orb]. rewrite bool_decide_false by done. rewrite bool_decide_true by done.
  by rewrite popToParenthesis_ops.
Qed.

Lemma token_low o lv ops : isHigh o = false -> pendingOps lv ops -> opens stack -> ended last ->
  postfixToken (mkPostfix l (ops ++ stack) last) (symbol o) = Ok (mkPostfix (l ++ ops) (symbol o :: stack) (symbol o)).
Proof.
  intros Ho H Hs [H1 H2]. unfold postfixToken. rewrite (bool_decide_false _ H1), (bool_decide_false _ H2).
  cbn [orb]. rewrite andb_false_r.
  destruct lv as [| [| lv]]; cbn in H.
  - destruct H as (p & Hp & [-> | (h & Hh & ->)]); destruct o; try done; destruct p; try done;
      try destruct h; try done; destruct Hs as [-> | [s ->]]; cbn; rewrite <- ?app_assoc; done.
  - destruct H as (h & Hh & ->). destruct o; try done; destruct h; try done;
      destruct Hs as [-> | [s ->]]; done.
  - subst. rewrite (app_nil_r l). by destruct o; try done; destruct Hs as [-> | [s ->]].
Qed.

Lemma token_high o lv ops : isHigh o = true -> (0 < lv)%nat -> pendingOps lv ops -> below 1 stack -> ended last ->
  postfixToken (mkPostfix l (ops ++ stack) last) (symbol o) = Ok (mkPostfix (l ++ ops) (symbol o :: stack) (symbol o)).
Proof.
  intros Ho Hlv H Hs _. destruct lv as [| [| lv]]; [lia | |]; cbn in H.
  - destruct H as (h & Hh & ->). destruct o; try done; destruct h; done.
  - subst. rewrite (app_nil_r l). destruct Hs as [[-> | [s ->]] | (p & s & -> & Hp)]; destruct o; try done; by destruct p.
Qed.
End Tokens.

(** ** Whole expressions *)

(** What an expression adds to the output and leaves on the stack. *)
Fixpoint emitted (e : expression) : list string * list string :=
  let grouped (b : bool) e := if b then (rpn e, []) else emitted e in
  match e with
  | Atom s => ([s], [])
  | Negate e =>
      let x := grouped (level e <=? 0)%nat e in
      ("0" :: x.1, x.2 ++ ["-"])
  | Binary o e f =>
      let x := grouped (level e <? levelOf o)%nat e in
      let y := grouped (level f <=? levelOf o)%nat f in
      (x.1 ++ x.2 ++ y.1, y.2 ++ [symbol o])
  end.
Definition groupedEmit (b : bool) (e : expression) : list string * list string :=
  if b then (rpn e, []) else emitted e.

Lemma emitted_negate e :
  emitted (Negate e) = let x := groupedEmit (level e <=? 0)%nat e in ("0" :: x.1, x.2 ++ ["-"]).
Proof. done. Qed.
Lemma emitted_binary o e f :
  emitted (Binary o e f) =
  let x := groupedEmit (level e <? levelOf o)%nat e in
  let y := groupedEmit (level f <=? levelOf o)%nat f in
  (x.1 ++ x.2 ++ y.1, y.2 ++ [symbol o]).
Proof. done. Qed.

Lemma emitted_rpn e : (emitted e).1 ++ (emitted e).2 = rpn e.
Proof.
  assert (forall b e, (emitted e).1 ++ (emitted e).2 = rpn e -> (groupedEmit b e).1 ++ (groupedEmit b e).2 = rpn e) as Hg.
  { intros [] f Hf; cbn; [by rewrite app_nil_r | done]. }
  induction e as [s | e IH | o e IHe f IHf]; [done | |].
  - rewrite emitted_negate. cbn. by rewrite app_assoc, Hg.
  - rewrite emitted_binary. cbn zeta. cbn [fst snd]. rewrite <- !app_assoc.
    rewrite (app_assoc (groupedEmit _ f).1), Hg, (app_assoc (groupedEmit _ e).1), Hg by done. done.
Qed.

(** A leading minus. *)
Fixpoint negative (e : expression) : bool :=
  match e with
  | Atom _ => false
  | Negate _ => true
  | Binary o e _ => negb (level e <? levelOf o)%nat && negative e
  end.

Lemma negative_level e : negative e = true -> level e = 0%nat.
Proof.
  induction e as [s | e IH | o e IHe f IHf]; [done | done |]. cbn. intros [Hl He]%andb_prop.
  rewrite (IHe He) in Hl. unfold levelOf in Hl. by destruct (isHigh o).
Qed.

(** The operators a right operand leaves: none, or one of high precedence. *)
Lemma grouped_right o f : pendingOps (level f) (emitted f).2 ->
  (groupedEmit (level f <=? levelOf o)%nat f).2 = [] \/
  isHigh o = false /\ exists h, isHigh h = true /\ (groupedEmit (level f <=? levelOf o)%nat f).2 = [symbol h].
Proof.
  intros H. unfold groupedEmit, levelOf. destruct (level f) as [| [| n]], (isHigh o); cbn in *; auto.
Qed.

Lemma emitted_ops e : pendingOps (level e) (emitted e).2.
Proof.
  induction e as [s | e IH | o e IHe f IHf]; [done | |].
  - rewrite emitted_negate. cbn [pendingOps level fst snd]. exists Minus. split; [done |].
    change (level e <=? 0)%nat with (level e <=? levelOf Minus)%nat. cbn zeta.
    destruct (grouped_right Minus e IH) as [-> | (_ & h & Hh & ->)]; [by left |]. right. by exists h.
  - rewrite emitted_binary. cbn.
    destruct (grouped_right o f IHf) as [-> | (Ho & h & Hh & ->)].
    + destruct (isHigh o) eqn:Ho; cbn; exists o; auto.
    + rewrite Ho. cbn. exists o. split; [done |]. right. by exists h.
Qed.

(** [postfixTokens] takes the tokens of [toks] from one state to another. *)
Definition runs (toks : list string) (st st' : postfixState) : Prop :=
  forall rest, postfixTokens st (toks ++ rest) = postfixTokens st' rest.

Lemma runs_app a b st st1 st2 : runs a st st1 -> runs b st1 st2 -> runs (a ++ b) st st2.
Proof. intros H1 H2 rest. by rewrite <- app_assoc, H1, H2. Qed.
Lemma runs_token tok st st' : postfixToken st tok = Ok st' -> runs [tok] st st'.
Proof. intros H rest. cbn. by rewrite H. Qed.

Definition ready (e : expression) (stack : list string) (last : string) : Prop :=
  below (level e) stack /\ (negative e = true -> last = "" \/ last = "(").

Definition runsAs (e : expression) : Prop :=
  forall l stack last, ready e stack last ->
  exists last', ended last' /\
    runs (infix e) (mkPostfix l stack last) (mkPostfix (l ++ (emitted e).1) ((emitted e).2 ++ stack) last').

Lemma runs_group b e : runsAs e -> (b = true -> level e < 2)%nat ->
  forall l stack last, (b = false -> ready e stack last) ->
  exists last', ended last' /\
    runs (inParentheses b (infix e)) (mkPostfix l stack last)
      (mkPostfix (l ++ (groupedEmit b e).1) ((groupedEmit b e).2 ++ stack) last').
Proof.
  intros IH Hb l stack last Hr. destruct b; [| by apply IH, Hr].
  destruct (IH l ("(" :: stack) "(") as (last' & He & H).
  { split; [| by right]. destruct (level e) as [| [| n]]; cbn; unfold opens; eauto. }
  exists ")". split; [done |]. cbn [inParentheses groupedEmit fst snd app].
  change ("(" :: infix e ++ [")"]) with (["("] ++ infix e ++ [")"]).
  eapply runs_app; [apply runs_token, token_open |]. eapply runs_app; [exact H |].
  rewrite <- (emitted_rpn e), app_assoc. apply runs_token.
  apply (token_close _ _ _ (level e)); [auto | apply emitted_ops].
Qed.

Lemma operator_step o e l stack last :
  below (level (Binary o e e)) stack -> ended last ->
  let x := groupedEmit (level e <? levelOf o)%nat e in
  postfixToken (mkPostfix l (x.2 ++ stack) last) (symbol o) =
  Ok (mkPostfix (l ++ x.2) (symbol o :: stack) (symbol o)).
Proof.
  intros Hb He x. cbn [level] in Hb. pose proof (emitted_ops e) as Hops. unfold x, groupedEmit, levelOf.
  destruct (isHigh o) eqn:Ho.
  - destruct (level e) as [| n] eqn:El; cbn [Nat.ltb Nat.leb snd];
      [apply (token_high _ _ _ _ 2) | apply (token_high _ _ _ _ (S n))]; auto; try lia; done.
  - destruct (level e) eqn:El; by eapply token_low.
Qed.

Lemma infix_runs e : plainAtoms e -> runsAs e.
Proof.
  induction e as [s | e IH | o e IHe f IHf]; intros Hp l stack last [Hb Hn].
  - exists s. split; [split; [apply Hp |] | by apply runs_token, token_atom].
    intros ->. destruct Hp as [_ Hp]. by specialize (Hp "("%char ltac:(by left)).
  - destruct (runs_group (level e <=? 0)%nat e (IH Hp) ltac:(intros ?%Nat.leb_le; lia) (l ++ ["0"]) ("-" :: stack) "-")
      as (last' & He & H).
    { intros Hl%Nat.leb_gt. split; [| intros ?%negative_level; lia].
      destruct (level e) as [| [| n]]; cbn; [lia | right; by exists Minus, stack | done]. }
    exists last'. split; [done |]. cbn [infix]. change ("-" :: ?x) with (["-"] ++ x).
    eapply runs_app; [by apply runs_token, token_negate; [| apply Hn] |].
    rewrite emitted_negate. cbn in *. by rewrite <- !app_assoc in *.
  - destruct Hp as [Hpe Hpf]. rewrite emitted_binary. cbn [infix fst snd].
    destruct (runs_group (level e <? levelOf o)%nat e (IHe Hpe) ltac:(unfold levelOf; case_match; intros ?%Nat.ltb_lt; lia)
      l stack last) as (last1 & He1 & H1).
    { intros Hl. split; [| intros Hneg; apply Hn; cbn [negative]; by rewrite Hl, Hneg].
      apply Nat.ltb_ge in Hl. revert Hb Hl. cbn [level]. unfold levelOf.
      destruct (isHigh o), (level e) as [| [| n]]; cbn; auto; lia. }
    set (x := groupedEmit (level e <? levelOf o)%nat e) in *.
    assert (runs [symbol o] (mkPostfix (l ++ x.1) (x.2 ++ stack) last1)
              (mkPostfix (l ++ x.1 ++ x.2) (symbol o :: stack) (symbol o))) as H2.
    { apply runs_token. rewrite app_assoc. by apply operator_step. }
    destruct (runs_group (level f <=? levelOf o)%nat f (IHf Hpf)
      ltac:(unfold levelOf; case_match; intros ?%Nat.leb_le; lia) (l ++ x.1 ++ x.2) (symbol o :: stack) (symbol o))
      as (last3 & He3 & H3).
    { intros Hl%Nat.leb_gt. split; [| intros Hneg%negative_level; lia].
      revert Hl. unfold levelOf. destruct (isHigh o) eqn:Ho, (level f) as [| [| n]]; cbn; try lia; try done.
      right. by exists o, stack. }
    exists last3. split; [done |]. eapply runs_app; [exact H1 |].
    change (symbol o :: ?x) with ([symbol o] ++ x). eapply runs_app; [exact H2 |].
    by rewrite <- !app_assoc in *.
Qed.

(** ** The value of an expression *)

Section Value.
Context {ST V : Type} (value : string -> M ST V) (apply : operator -> V -> V -> V).

Fixpoint evaluate (e : expression) : M ST V :=
  match e with
  | Atom s => value s
  | Negate e => z ← value "0"; v ← evaluate e; mret (apply Minus z v)
  | Binary o e f => a ← evaluate e; b ← evaluate f; mret (apply o a b)
  end.

Lemma operator_token o : occursIn machineOperators (symbol o) = true /\ operatorOf (symbol o) = Some o.
Proof. by destruct o. Qed.

Lemma machine_rpn e : plainAtoms e -> forall stack rest st,
  machine value apply stack (rpn e ++ rest) st = (v ← evaluate e; machine value apply (v :: stack) rest) st.
Proof.
  induction e as [s | e IH | o e IHe f IHf]; intros Hp stack rest st; cbn [rpn evaluate].
  - cbn [app machine]. by rewrite occursIn_machine.
  - rewrite <- app_comm_cons, <- app_assoc. cbn [machine]. change (occursIn machineOperators "0") with false.
    unfold mbind, M_bind. destruct (value "0" st) as [[z st1] |]; [| done]. rewrite (IH Hp).
    unfold mbind, M_bind. destruct (evaluate e st1) as [[v st2] |]; [| done]. done.
  - destruct Hp as [Hpe Hpf]. rewrite <- !app_assoc, (IHe Hpe). unfold mbind, M_bind.
    destruct (evaluate e st) as [[a st1] |]; [| done]. rewrite (IHf Hpf). unfold mbind, M_bind.
    destruct (evaluate f st1) as [[b st2] |]; [| done]. cbn [app machine].
    destruct (operator_token o) as [-> ->]. done.
Qed.
End Value.

(** ** Splitting the text *)

Definition operatorToken (t : string) : Prop := exists c, t = String c "" /\ charIn myOperators c = true.
Definition startsOperator (toks : list string) : Prop := match toks with [] => True | t :: _ => operatorToken t end.

(** Names and numbers are separated by operators. *)
Fixpoint separated (toks : list string) : Prop :=
  match toks with
  | [] => True
  | t :: toks => (operatorToken t \/ plainText t /\ startsOperator toks) /\ separated toks
  end.

Lemma separated_app a b : separated a -> separated b -> startsOperator b -> separated (a ++ b).
Proof.
  intros Ha Hb Hs. induction a as [| t [| u a] IH]; [done | |]; cbn in *.
  - destruct Ha as [[Ht | [Ht _]] _]; auto.
  - destruct Ha as [Ht Ha]. split; [done | by apply IH].
Qed.

Lemma symbol_operator o : operatorToken (symbol o).
Proof. by destruct o; eexists. Qed.

Lemma infix_separated e : plainAtoms e -> separated (infix e).
Proof.
  assert (forall b l, separated l -> separated (inParentheses b l)) as Hg.
  { intros [] l Hl; [| done]. cbn. split; [left; by eexists |].
    apply separated_app; [done | | by eexists]. cbn. split; [left; by eexists | done]. }
  induction e as [s | e IH | o e IHe f IHf]; cbn; intros Hp.
  - auto.
  - split; [left; by eexists | by apply Hg, IH].
  - destruct Hp. apply separated_app; [by apply Hg, IHe | | apply symbol_operator].
    cbn. split; [left; apply symbol_operator | by apply Hg, IHf].
Qed.

Lemma untilDelimiter_plain t s :
  (forall c, c ∈ String.list_ascii_of_string t -> charIn myOperators c = false) ->
  (s = "" \/ exists c s', s = String c s' /\ charIn myOperators c = true) ->
  untilDelimiter myOperators (String.append t s) = (t, s).
Proof.
  intros Ht Hs. induction t as [| c t IH].
  - rewrite append_nil. destruct Hs as [-> | (c & s' & -> & Hc)]; cbn [untilDelimiter]; [done | by rewrite Hc].
  - rewrite append_cons. cbn [untilDelimiter]. rewrite (Ht c) by (by left). rewrite IH; [done |]. intros x Hx. apply Ht. by right.
Qed.

Lemma parseFrom_join toks fuel :
  separated toks -> (String.length (joinTokens toks) <= fuel)%nat -> parseFrom fuel myOperators (joinTokens toks) = toks.
Proof.
  revert fuel. induction toks as [| t toks IH]; intros fuel Hs Hf; [by destruct fuel |].
  destruct Hs as [Ht Hs]. cbn [joinTokens foldr] in *. fold (joinTokens toks) in *. rewrite append_length in Hf.
  destruct Ht as [(c & -> & Hc) | [[Hne Ht] Hop]].
  - destruct fuel as [| fuel]; cbn in Hf; [lia |]. rewrite append_cons, append_nil. cbn [parseFrom]. rewrite Hc. f_equal. apply IH; [done | lia].
  - destruct t as [| c t]; [done |]. destruct fuel as [| fuel]; cbn in Hf; [lia |].
    rewrite append_cons. cbn [parseFrom]. rewrite (Ht c) by (by left). rewrite <- append_cons.
    rewrite untilDelimiter_plain; [| done |].
    + f_equal. apply IH; [done | lia].
    + destruct toks as [| u toks]; [by left |]. right. destruct Hop as (x & -> & Hx). by exists x, (joinTokens toks).
Qed.

(** ** The round trip *)

Lemma postfix_print e : plainAtoms e -> postfix (printEquation e) = Ok (rpn e).
Proof.
  intros Hp. unfold postfix, printEquation, ParseEquation. rewrite parseFrom_join by (done || by apply infix_separated).
  destruct (infix_runs e Hp [] [] "") as (last & _ & H).
  { split; [| by left]. destruct (level e) as [| [| n]]; cbn; unfold opens; auto. }
  specialize (H []). rewrite app_nil_r in H. rewrite H. cbn. by rewrite app_nil_r, emitted_rpn.
Qed.

(** C14: [postfix] undoes printing: the infix text of an expression, with the
    parentheses its operators need and a leading minus where it has one, comes
    out in the order of the stack machine, whatever the nesting; operators of
    one level associate to the left. *)
Theorem postfix_print_roundtrip e : plainAtoms e -> postfix (printEquation e) = Ok (rpn e).
Proof. apply postfix_print. Qed.

Lemma postfix_print_roundtrip_witness :
  let e := Binary Times (Atom "a") (Binary Minus (Negate (Atom "b")) (Binary Over (Atom "c") (Atom "2"))) in
  printEquation e = "a*(-b-c/2)" /\ postfix "a*(-b-c/2)" = Ok ["a"; "0"; "b"; "-"; "c"; "2"; "/"; "-"; "*"].
Proof.
  intros e. split; [reflexivity |]. apply (postfix_print_roundtrip e).
  assert (forall c, charIn myOperators c = false -> plainText (String c "")) as H.
  { intros c Hc. split; [discriminate |]. intros x Hx. apply list_elem_of_singleton in Hx as ->. exact Hc. }
  repeat split; apply H; reflexivity.
Defined.

End Equation.
