(* ===== verification/Conditions.v ===== *)
(** * Parameters and conditions (CNormalValue.cc, CParameterMap.cc, CCondition.cc)

    The parameters of a device are text; conditions compare them as
    [CNormalValue], an integer with a decimal scale, and the resistance of a
    device is an equation over them. *)

From S2P Require Import Prelude CvcTypes Numeric Equation Text.
From stdpp Require Import base list strings gmap.
From Stdlib Require Import ZArith Lia ZifyBool Ascii Floats.SpecFloat.
#[local] Open Scope string_scope.
#[local] Open Scope list_scope.
#[local] Open Scope Z_scope.

Module Conditions.
Import Numeric.Numeric Equation.Equation Text.Text.

(** ** Values with a scale *)

Record CNormalValue : Set := mkNormalValue { value : Z; scale : Z }.

#[export] Instance CNormalValue_eq_dec : EqDecision CNormalValue.
Proof. solve_decision. Defined.

(** [pow(10, k)], rounded to nearest. *)
Definition pow10 (k : Z) : spec_float := decimal 53 1024 false 1 k.

Definition unitOf (c : ascii) : option Z :=
  if Ascii.eqb c "G" then Some 9 else if Ascii.eqb c "M" then Some 6
  else if Ascii.eqb c "K" || Ascii.eqb c "k" then Some 3 else if Ascii.eqb c "m" then Some (-3)
  else if Ascii.eqb c "u" then Some (-6) else if Ascii.eqb c "n" then Some (-9)
  else if Ascii.eqb c "p" then Some (-12) else if Ascii.eqb c "f" then Some (-15) else None.

(** The scale goes down in steps of 3 until the value has seven digits. *)
Fixpoint scaleLoop (fuel : nat) (myRealValue : spec_float) (scale : Z) : Z :=
  match fuel with
  | O => scale
  | S fuel =>
      if SFltb (SFabs (dmul myRealValue (pow10 (- scale)))) (double 1000000) && (-21 <? scale)
      then scaleLoop fuel myRealValue (scale - 3) else scale
  end.

(** The scale is 0 before the loop and at least -21 after it. *)
Definition NormalValue (theStringValue : string) : outcome CNormalValue :=
  myStringValue ← trim_ theStringValue;
  let myUnitOffset := Z.min (find_first_not_of myStringValue "-+0123456789.eE" 0) (size myStringValue) in
  number ← substr myStringValue 0 myUnitOffset;
  myRealValue ← from_string_double number;
  myRealValue ← (match dropText (Z.to_nat myUnitOffset) myStringValue with
                 | EmptyString => Ok myRealValue
                 | String c _ => match unitOf c with
                                 | Some k => Ok (dmul myRealValue (pow10 k))
                                 | None => throw EFatalError
                                 end
                 end);
  let scale := scaleLoop 8 myRealValue 0 in
  n ← roundAway (dadd (dmul myRealValue (pow10 (- scale))) tenth);
  n ← fits (- 2 ^ 63) (2 ^ 63 - 1) n;
  Ok (mkNormalValue n scale).

Definition equalValue (a b : CNormalValue) : bool := (value a =? value b) && (scale a =? scale b).

Definition lessValue (a b : CNormalValue) : bool :=
  if equalValue a b then false
  else if (value a <? 0) && (0 <=? value b) then true
  else if (0 <=? value a) && (value b <? 0) then false
  else if 0 <=? value a then
    if scale a <? scale b then true else if scale b <? scale a then false else value a <? value b
  else
    if scale b <? scale a then true else if scale a <? scale b then false else value a <? value b.

Definition greaterValue (a b : CNormalValue) : bool :=
  if equalValue a b then false else negb (lessValue a b).

(** [Compare] with a value that is already read. *)
Definition CompareValue (a b : CNormalValue) : Z :=
  if 0 <? value a then
    if value b <=? 0 then 1
    else if scale b <? scale a then 1 else if scale a <? scale b then -1
    else if value b <? value a then 1 else if value a <? value b then -1 else 0
  else if value a <? 0 then
    if 0 <=? value b then -1
    else if scale b <? scale a then -1 else if scale a <? scale b then 1
    else if value b <? value a then 1 else if value a <? value b then -1 else 0
  else if value b <? 0 then -1 else if 0 <? value b then 1 else 0.
Definition Compare (a : CNormalValue) (theStringValue : string) : outcome Z :=
  b ← NormalValue theStringValue; Ok (CompareValue a b).

Definition RealValue (v : CNormalValue) : spec_float :=
  toSingle (ddiv (promote (single (value v))) (pow10 (- scale v))).

(** ** Conditions *)

Inductive relation_t : Set := equals | lessThan | greaterThan | notLessThan | notGreaterThan.

(** [gRelationStringMap[...]]: a missing entry is made, as [equals]. *)
Definition relationOf (s : string) : relation_t :=
  if bool_decide (s = "<") then lessThan else if bool_decide (s = ">") then greaterThan
  else if bool_decide (s ∈ ["=>"; ">="]) then notLessThan
  else if bool_decide (s ∈ ["=<"; "<="]) then notGreaterThan else equals.

Record CCondition : Set := mkCondition {
  parameter : string;
  relation : relation_t;
  stringValue : string;
  numericValue : CNormalValue
}.
Definition Condition (theParameter theRelation theValue : string) : outcome CCondition :=
  v ← NormalValue theValue;
  Ok (mkCondition theParameter (relationOf theRelation) theValue v).

Definition CheckCondition (c : CCondition) (theCheckValue : CNormalValue) : bool :=
  let v := numericValue c in
  match relation c with
  | equals => equalValue theCheckValue v
  | lessThan => lessValue theCheckValue v
  | greaterThan => greaterValue theCheckValue v
  | notLessThan => negb (lessValue theCheckValue v)
  | notGreaterThan => negb (greaterValue theCheckValue v)
  end.

(** ** Parameters of a device *)

Abbreviation CParameterMap := (gmap string string).

(** One pass of the loop from [myStringBegin] on; [None] ends the loop. *)
Definition parameterAt (theParameterString : string) (myStringBegin : Z) (m : CParameterMap)
    : outcome (CParameterMap * option Z) :=
  let myStringEnd := find_first_of theParameterString " " myStringBegin in
  let myEqualIndex := find_first_of theParameterString "=" myStringBegin in
  myParameterName ← substr theParameterString myStringBegin (u64 (myEqualIndex - myStringBegin));
  myParameterName ← (if Ascii.eqb (firstChar myParameterName) "$" then substr myParameterName 1 npos
                     else Ok myParameterName);
  let eq1 := u64 (myEqualIndex + 1) in
  myParameterValue ← substr theParameterString eq1 (u64 (myStringEnd - eq1));
  Ok (<[toupper_ myParameterName := myParameterValue]> m,
      if myStringEnd <? size theParameterString then Some (u64 (myStringEnd + 1)) else None).

Fixpoint parameterLoop (fuel : nat) (theParameterString : string) (myStringBegin : Z) (m : CParameterMap)
    : outcome CParameterMap :=
  match fuel with
  | O => throw OutOfFuel
  | S fuel =>
      '(m, next) ← parameterAt theParameterString myStringBegin m;
      match next with
      | Some begin => parameterLoop fuel theParameterString begin m
      | None => Ok m
      end
  end.

Definition CreateParameterMap (theParameterString : string) (m : CParameterMap) : outcome CParameterMap :=
  if 0 <? size theParameterString
  then parameterLoop (S (String.length theParameterString)) theParameterString 0 m else Ok m.

(** ** Resistances *)

Definition doubleApply (o : operator) (a b : spec_float) : spec_float :=
  match o with
  | Plus => SFadd 53 1024 a b
  | Minus => SFsub 53 1024 a b
  | Times => SFmul 53 1024 a b
  | Over => SFdiv 53 1024 a b
  | Min => if SFltb b a then b else a
  | Max => if SFltb a b then b else a
  end.

(** A name or a number of the equation; the machine has no state. *)
Definition resistanceToken (m : CParameterMap) (tok : string) : M unit spec_float :=
  if isalpha (firstChar tok) then
    match m !! toupper_ tok with
    | Some text => v ← lift (NormalValue text); mret (promote (RealValue v))
    | None => raise EResistanceError
    end
  else if IsValidVoltage_ tok then v ← lift (from_string_float tok); mret (promote v)
  else raise EResistanceError.

(** The bottom of the stack, limited to what a [resistance_t] holds. *)
Definition limitResistance (r : spec_float) : outcome Z :=
  if SFleb (double MAX_RESISTANCE) r then Ok MAX_RESISTANCE
  else n ← roundAway r; n ← fits (- 2 ^ 31) (2 ^ 31 - 1) n; Ok (Z.max 1 n).

Definition CalculateResistance (m : CParameterMap) (theEquation : string) : outcome Z :=
  toks ← (if IsValidVoltage_ theEquation then Ok [theEquation] else postfix theEquation);
  '(stack, _) ← machine (resistanceToken m) doubleApply [] toks tt;
  match last stack with
  | Some r => limitResistance r
  | None => throw UndefinedBehaviour
  end.

(** ** The order of values *)

(** What the loop of the constructor aims at: a scale that is a multiple of 3,
    at least seven digits above the smallest scale and at most nine below 0. *)
Record normalised (v : CNormalValue) : Prop := mkNormalised {
  normal_scale : exists k, 0 <= k <= 7 /\ scale v = 3 * k - 21;
  normal_above : scale v <> 0 -> Z.abs (value v) < 10 ^ 9;
  normal_below : scale v <> -21 -> 10 ^ 6 <= Z.abs (value v)
}.

(** The number in units of 10^-21. *)
Definition units (v : CNormalValue) : Z := value v * 10 ^ (scale v + 21).

Lemma pow10_split j k : 0 <= j < k -> exists x, 0 < x /\ 10 ^ (3 * j) = x /\ exists y, 1 <= y /\ 10 ^ (3 * k) = 1000 * x * y.
Proof.
  intros H. exists (10 ^ (3 * j)). split; [apply Z.pow_pos_nonneg; lia |]. split; [done |].
  exists (10 ^ (3 * (k - j - 1))). split; [pose proof (Z.pow_pos_nonneg 10 (3 * (k - j - 1))); lia |].
  change 1000 with (10 ^ 3). rewrite <- !Z.pow_add_r by lia. f_equal. lia.
Qed.

(** A larger scale means a larger absolute value. *)
Lemma scale_units a b :
  normalised a -> normalised b -> scale a < scale b -> Z.abs (units a) < Z.abs (units b).
Proof.
  intros [(j & Hj & Ea) Ha _] [(k & Hk & Eb) _ Hb] Hlt. unfold units. rewrite Ea, Eb in *.
  replace (3 * j - 21 + 21) with (3 * j) by lia. replace (3 * k - 21 + 21) with (3 * k) by lia.
  destruct (pow10_split j k ltac:(lia)) as (x & Hx & -> & y & Hy & ->).
  specialize (Ha ltac:(lia)). specialize (Hb ltac:(lia)). rewrite (Z.abs_mul (value a)), (Z.abs_mul (value b)).
  assert (0 <= 1000 * x * y) as Hxy by (apply Z.mul_nonneg_nonneg; lia).
  rewrite (Z.abs_eq x), (Z.abs_eq (1000 * x * y)) by lia.
  assert (10 ^ 9 <= Z.abs (value b) * 1000 * y) as Hp by nia.
  replace (Z.abs (value b) * (1000 * x * y)) with (Z.abs (value b) * 1000 * y * x) by ring. nia.
Qed.

Lemma units_sign v : normalised v -> (0 <= units v <-> 0 <= value v) /\ (units v < 0 <-> value v < 0).
Proof.
  intros [(k & Hk & E) _ _]. unfold units. rewrite E. pose proof (Z.pow_pos_nonneg 10 (3 * k - 21 + 21)). nia.
Qed.

Lemma units_same_scale a b : normalised a -> scale a = scale b ->
  (units a < units b <-> value a < value b) /\ (units a = units b <-> value a = value b).
Proof.
  intros [(k & Hk & E) _ _] Es. unfold units. rewrite <- Es, E.
  pose proof (Z.pow_pos_nonneg 10 (3 * k - 21 + 21)). nia.
Qed.

Section Order.
Context (a b : CNormalValue) (Ha : normalised a) (Hb : normalised b).

(** By the scales. *)
Lemma scales :
  (scale a < scale b /\ Z.abs (units a) < Z.abs (units b)) \/
  (scale b < scale a /\ Z.abs (units b) < Z.abs (units a)) \/
  (scale a = scale b /\ (units a < units b <-> value a < value b) /\ (units a = units b <-> value a = value b)).
Proof.
  destruct (Z.lt_trichotomy (scale a) (scale b)) as [Hs | [Hs | Hs]].
  - left. split; [done | by apply scale_units].
  - right; right. split; [done | by apply units_same_scale].
  - right; left. split; [done | by apply scale_units].
Qed.

Lemma equalValue_units : equalValue a b = (units a =? units b).
Proof.
  unfold equalValue. destruct scales as [[? ?] | [[? ?] | [? ?]]];
    destruct (Z.eqb_spec (value a) (value b)), (Z.eqb_spec (scale a) (scale b)); cbn; lia.
Qed.

Lemma lessValue_units : lessValue a b = (units a <? units b).
Proof.
  unfold lessValue. rewrite equalValue_units. pose proof (units_sign a Ha) as [Ia Na].
  pose proof (units_sign b Hb) as [Ib Nb]. destruct (Z.eqb_spec (units a) (units b)); [lia |].
  destruct scales as [[? ?] | [[? ?] | [? ?]]]; repeat case_match; lia.
Qed.

Lemma greaterValue_units : greaterValue a b = (units b <? units a).
Proof. unfold greaterValue. rewrite equalValue_units, lessValue_units. repeat case_match; lia. Qed.

Lemma CompareValue_units :
  CompareValue a b = if value a =? 0 then Z.sgn (units b - units a) else Z.sgn (units a - units b).
Proof.
  unfold CompareValue. pose proof (units_sign a Ha) as [Ia Na]. pose proof (units_sign b Hb) as [Ib Nb].
  assert (value a = 0 <-> units a = 0) by (unfold units; pose proof (Z.pow_pos_nonneg 10 (scale a + 21));
    destruct Ha as [(k & ? & ?) _ _]; nia).
  assert (value b = 0 <-> units b = 0) by (unfold units; pose proof (Z.pow_pos_nonneg 10 (scale b + 21));
    destruct Hb as [(k & ? & ?) _ _]; nia).
  destruct scales as [[? ?] | [[? ?] | [? ?]]]; repeat case_match; lia.
Qed.
End Order.



(** ** Resistance of an equation *)

(** The resistance of an equation is its value: for the text of any
    expression over parameter names and numbers (the whole text not being a
    number itself), [CalculateResistance] computes the expression with
    left-associative operators of two levels in double precision, reading the
    names from left to right, and limits the result to 1 and [MAX_RESISTANCE];
    a missing or malformed parameter is the error of the first such name. *)
Theorem CalculateResistance_expression (m : CParameterMap) (e : expression) :
  plainAtoms e -> IsValidVoltage_ (printEquation e) = false ->
  CalculateResistance m (printEquation e) =
  ('(r, _) ← evaluate (resistanceToken m) doubleApply e tt; limitResistance r).
Proof.
  intros Hp Hv. unfold CalculateResistance. rewrite Hv, postfix_print by done. cbn [mbind outcome_bind].
  rewrite <- (app_nil_r (rpn e)), machine_rpn by done. unfold mbind at 2, M_bind.
  by destruct (evaluate _ _ e tt) as [[r []] |].
Qed.

Lemma CalculateResistance_expression_witness :
  let e := Binary Times (Binary Over (Atom "L") (Atom "W")) (Atom "7000") in
  let m : CParameterMap := <["L" := "0.2u"]> (<["W" := "2u"]> ∅) in
  printEquation e = "L/W*7000" /\ CalculateResistance m "L/W*7000" = Ok 700.
Proof.
  intros e m. split; [reflexivity |].
  assert (plainAtoms e) as Hp.
  { assert (forall s, s <> "" -> Forall (fun c => charIn myOperators c = false) (String.list_ascii_of_string s) ->
            plainText s) as H by (intros s Hs HF; split; [exact Hs | exact (proj1 (Forall_forall _ _) HF)]).
    repeat split; apply H; try discriminate; repeat constructor. }
  change "L/W*7000" with (printEquation e).
  rewrite (CalculateResistance_expression m e Hp eq_refl). vm_compute. reflexivity.
Defined.

(** ** Reading parameters *)

(** The text of parameters: [name=value] separated by blanks. *)
Definition parameterText (p : string * string) : string := String.append p.1 (String "=" p.2).
Fixpoint parametersText (l : list (string * string)) : string :=
  match l with
  | [] => ""
  | [p] => parameterText p
  | p :: l => String.append (parameterText p) (String " " (parametersText l))
  end.

Definition without (cs s : string) : Prop := forall c, c ∈ String.list_ascii_of_string s -> charIn cs c = false.
Definition plainParameter (p : string * string) : Prop :=
  without " =" p.1 /\ firstChar p.1 <> "$"%char /\ without " " p.2.

Definition addParameter (m : CParameterMap) (p : string * string) : CParameterMap := <[toupper_ p.1 := p.2]> m.

Lemma without_sub cs cs' s : (forall c, charIn cs' c = true -> charIn cs c = true) -> without cs s -> without cs' s.
Proof. intros H Hs c Hc. specialize (Hs c Hc). destruct (charIn cs' c) eqn:E; [| done]. apply H in E. congruence. Qed.

Section ReadParameter.
Context (pre n v rest : string) (m : CParameterMap).
Abbreviation text := (String.append pre (String.append (parameterText (n, v)) rest)).
Context (Hp : plainParameter (n, v)) (Hsize : size text < npos)
  (Hrest : rest = "" \/ exists r, rest = String " " r).

Lemma blank_position :
  find_first_of text " " (size pre) = if bool_decide (rest = "") then npos else size pre + size n + 1 + size v.
Proof.
  destruct Hp as (Hn & _ & Hv). cbn [fst snd] in *. unfold find_first_of. rewrite searchFrom_append.
  2: { unfold parameterText. destruct n; discriminate. }
  unfold parameterText. cbn [fst snd]. rewrite append_assoc, firstFrom_skip.
  2: { eapply without_sub; [| exact Hn]. cbn. intros c. rewrite !orb_false_r. by intros ->. }
  rewrite append_cons. cbn [firstFrom charIn Ascii.eqb]. change (Ascii.eqb "=" " ") with false. cbn [orb].
  rewrite firstFrom_skip by exact Hv.
  destruct Hrest as [-> | [r ->]]; [done |]. rewrite bool_decide_false by done. cbn [firstFrom].
  change (charIn " " " ") with true. done.
Qed.

Lemma equal_position : find_first_of text "=" (size pre) = size pre + size n.
Proof.
  destruct Hp as (Hn & _ & Hv). cbn [fst snd] in *. unfold find_first_of. rewrite searchFrom_append.
  2: { unfold parameterText. destruct n; discriminate. }
  unfold parameterText. cbn [fst snd]. rewrite append_assoc, firstFrom_skip.
  2: { eapply without_sub; [| exact Hn]. cbn. intros c. rewrite !orb_false_r. intros ->. apply orb_true_r. }
  done.
Qed.

Lemma parameterAt_text :
  parameterAt text (size pre) m =
  Ok (addParameter m (n, v),
      if bool_decide (rest = "") then None else Some (size pre + size n + 1 + size v + 1)).
Proof.
  pose proof (size_nonneg pre). pose proof (size_nonneg n). pose proof (size_nonneg v). pose proof (size_nonneg rest).
  assert (size text = size pre + size n + 1 + size v + size rest) as Htext.
  { rewrite !size_append. unfold parameterText. cbn [fst snd]. rewrite size_append. unfold size. cbn [String.length]. lia. }
  unfold parameterAt. rewrite blank_position, equal_position.
  assert (u64 (size pre + size n - size pre) = size n) as -> by (rewrite u64_id; [lia | unfold npos in *; lia]).
  assert (u64 (size pre + size n + 1) = size (String.append pre (String.append n "="))) as ->.
  { rewrite u64_id by (unfold npos in *; lia). rewrite !size_append. unfold size. cbn. lia. }
  assert (text = String.append pre (String.append n (String.append (String "=" v) rest))) as E1.
  { unfold parameterText. cbn [fst snd]. by rewrite append_assoc. }
  assert (text = String.append (String.append pre (String.append n "=")) (String.append v rest)) as E2.
  { unfold parameterText. cbn [fst snd]. by rewrite !append_assoc, !append_cons, append_nil. }
  rewrite E1 at 1. rewrite substr_middle. cbn [mbind outcome_bind].
  rewrite (proj2 (Ascii.eqb_neq _ _)) by apply Hp. cbn [mbind outcome_bind].
  assert (size (String.append pre (String.append n "=")) = size pre + size n + 1) as E3.
  { rewrite !size_append. unfold size. cbn. lia. }
  rewrite E2 at 1. destruct Hrest as [Er | [r Er]].
  - rewrite bool_decide_true by done. rewrite (proj2 (Z.ltb_ge npos _)) by lia.
    rewrite Er, append_empty, substr_append; [done |]. rewrite E3, u64_id; unfold npos in *; lia.
  - assert (0 < size rest) by (rewrite Er; unfold size; cbn; lia). rewrite bool_decide_false by (by rewrite Er).
    rewrite (proj2 (Z.ltb_lt _ _)) by lia. rewrite E3.
    rewrite (u64_id (_ - _)) by (unfold npos in *; lia). rewrite (u64_id (_ + 1)) by (unfold npos in *; lia).
    rewrite <- E3 at 1. replace (size pre + size n + 1 + size v - _) with (size v) by lia.
    by rewrite substr_middle.
Qed.
End ReadParameter.

Lemma parameterLoop_text l : l <> [] -> Forall plainParameter l -> forall fuel pre m,
  (length l <= fuel)%nat -> size (String.append pre (parametersText l)) < npos ->
  parameterLoop fuel (String.append pre (parametersText l)) (size pre) m = Ok (foldl addParameter m l).
Proof.
  induction l as [| [n v] l IH]; intros Hl HF fuel pre m Hf Hs; [done |]. apply Forall_cons in HF as [Hp HF].
  destruct fuel as [| fuel]; cbn [length] in Hf; [lia |]. cbn [parameterLoop].
  destruct l as [| q l].
  - cbn [parametersText] in *. rewrite <- (append_empty (parameterText (n, v))) in *.
    rewrite (parameterAt_text pre n v "" m Hp Hs) by (by left). done.
  - change (parametersText ((n, v) :: q :: l))
      with (String.append (parameterText (n, v)) (String " " (parametersText (q :: l)))) in *.
    rewrite (parameterAt_text pre n v _ m Hp Hs) by (right; by eexists). cbn [mbind outcome_bind].
    rewrite bool_decide_false by done. cbn iota.
    set (pre' := String.append pre (String.append (parameterText (n, v)) " ")).
    assert (size pre + size n + 1 + size v + 1 = size pre') as ->.
    { unfold pre', parameterText. rewrite !size_append. unfold size. cbn. lia. }
    assert (String.append pre (String.append (parameterText (n, v)) (String " " (parametersText (q :: l)))) =
            String.append pre' (parametersText (q :: l))) as E.
    { unfold pre'. by rewrite !append_assoc, append_cons, append_nil. }
    rewrite E in *. apply IH; [done | done | cbn [length] in *; lia | done].
Qed.

Lemma parametersText_size l : (length l <= String.length (parametersText l))%nat.
Proof.
  induction l as [| p [| q l] IH]; [done | |].
  - cbn [parametersText length]. unfold parameterText. rewrite append_length. cbn. lia.
  - change (parametersText (p :: q :: l)) with (String.append (parameterText p) (String " " (parametersText (q :: l)))).
    rewrite append_length. cbn [length String.length] in *. lia.
Qed.

(** Reading a parameter text gives back its parameters: for any list of
    name-value pairs without blanks, the map holds each value under its name in
    capitals, the last one of a name, and the loop ends. *)
Theorem CreateParameterMap_roundtrip (l : list (string * string)) (m : CParameterMap) :
  Forall plainParameter l -> size (parametersText l) < npos ->
  CreateParameterMap (parametersText l) m = Ok (foldl addParameter m l).
Proof.
  intros HF Hs. unfold CreateParameterMap. destruct l as [| p l]; [done |].
  pose proof (parametersText_size (p :: l)) as Hlen. cbn [length] in Hlen.
  rewrite (proj2 (Z.ltb_lt _ _)) by (unfold size; lia).
  rewrite <- (append_nil (parametersText (p :: l))) at 2. apply (parameterLoop_text (p :: l)); [done | done | | done].
  cbn [length]. lia.
Qed.

Lemma CreateParameterMap_roundtrip_witness :
  CreateParameterMap "L=0.2u w=2u" ∅ = Ok (<["W" := "2u"]> (<["L" := "0.2u"]> ∅)).
Proof.
  change "L=0.2u w=2u" with (parametersText [("L", "0.2u"); ("w", "2u")]).
  apply (CreateParameterMap_roundtrip [("L", "0.2u"); ("w", "2u")] ∅); [| reflexivity].
  assert (forall cs s, Forall (fun c => charIn cs c = false) (String.list_ascii_of_string s) -> without cs s) as H
    by (intros cs s HF c Hc; exact (proj1 (Forall_forall _ _) HF c Hc)).
  repeat constructor; first [discriminate | apply H; repeat constructor].
Defined.

End Conditions.
