(* ===== verification/Model.v ===== *)
(** * Device models (CModel.cc, CCvcDb_init.cc, CPower.cc)

    A line of the model file becomes a model of the list of its key, the base
    type and the name.  [FindModel] picks the first model of the list whose
    conditions hold for the parameters of a device; [SetDeviceModels] chains the
    devices of each model and sets the tolerances of the models, equations over
    the power macros. *)

From S2P Require Import Prelude CvcTypes Numeric Power Text Equation Conditions.
From stdpp Require Import base list strings gmap.
From Stdlib Require Import ZArith Lia Ascii Floats.SpecFloat.
#[local] Open Scope string_scope.
#[local] Open Scope list_scope.
#[local] Open Scope Z_scope.

Module Model.
Import Numeric.Numeric Power.Power Text.Text Equation.Equation Conditions.Conditions.

(** ** Models *)

(** [CModel] as it is read: the texts, and the voltages calculated from them. *)
Record modelEntry : Type := mkEntry {
  entryName : string;
  maxVdsDefinition : string;
  maxVgsDefinition : string;
  maxVbsDefinition : string;
  maxVbgDefinition : string;
  vthDefinition : string;
  entryMaxVds : Z;
  entryMaxVgs : Z;
  entryMaxVbs : Z;
  entryMaxVbg : Z;
  entryVth : Z;
  resistanceDefinition : string;
  entryBaseType : string;
  validModel : bool;
  entryType : modelType_t;
  conditionPtrList : list CCondition;
  cellFilter : string;
  entryDiodes : list (Z * Z);
  definition : string
}.

Definition gModelTypeStringMap (s : string) : option modelType_t :=
  if bool_decide (s = "M") then Some MOSFET else if bool_decide (s = "MN") then Some NMOS
  else if bool_decide (s = "LDDN") then Some LDDN else if bool_decide (s = "MP") then Some PMOS
  else if bool_decide (s = "LDDP") then Some LDDP
  else if bool_decide (s ∈ ["R"; "RESISTOR"]) then Some RESISTOR
  else if bool_decide (s ∈ ["C"; "CAPACITOR"]) then Some CAPACITOR
  else if bool_decide (s ∈ ["D"; "DIODE"]) then Some DIODE
  else if bool_decide (s = "switch_on") then Some SWITCH_ON
  else if bool_decide (s = "switch_off") then Some SWITCH_OFF
  else if bool_decide (s = "fuse_on") then Some FUSE_ON
  else if bool_decide (s = "fuse_off") then Some FUSE_OFF
  else if bool_decide (s ∈ ["Q"; "BIPOLAR"]) then Some BIPOLAR
  else if bool_decide (s = "BOX") then Some BOX else None.

Definition gBaseModelTypePrefixMap (t : modelType_t) : option string :=
  match t with
  | MOSFET | NMOS | PMOS | LDDN | LDDP => Some "M"
  | RESISTOR => Some "R" | CAPACITOR => Some "C" | DIODE => Some "D"
  | SWITCH_ON | SWITCH_OFF | FUSE_ON | FUSE_OFF => Some ""
  | BIPOLAR => Some "Q" | BOX => Some "X"
  | UNKNOWN => None
  end.
(** [at] of a map. *)
Definition atMap {A} (x : option A) : outcome A := match x with Some a => Ok a | None => throw EOutOfRange end.

Definition DEFAULT_MOS_RESISTANCE : string := "L/W*7000".
Definition DEFAULT_RESISTANCE : string := "R".

(** [stream >> int]; a suffix multiplies in single precision. *)
Definition readInt (s : string) : option Z * string :=
  let s := skipWhile isSpace s in
  let neg := minusFirst s in
  let '(n, c, s) := leadingDigits 0 0 (skipSign s) in
  if bool_decide (c = 0%nat) then (None, s) else (Some (if neg then - n else n), s).
Definition truncate (f : spec_float) : outcome Z :=
  match f with
  | S754_zero _ => Ok 0
  | S754_finite s m e =>
      let n := if 0 <=? e then Z.pos m * 2 ^ e else Z.pos m / 2 ^ (- e) in Ok (if s then - n else n)
  | _ => throw UndefinedBehaviour
  end.
Definition from_string_int (s : string) : outcome Z :=
  match readInt s with
  | (None, _) => Ok 0
  | (Some n, rest) =>
      if n <? - 2 ^ 31 then Ok (- 2 ^ 31) else if 2 ^ 31 - 1 <? n then Ok (2 ^ 31 - 1)
      else
        let mySuffix := word (skipWhile isSpace rest) in
        if bool_decide (mySuffix = EmptyString) then Ok n
        else f ← atMap (SISuffix mySuffix); z ← truncate (fmul (single n) f); fits (- 2 ^ 31) (2 ^ 31 - 1) z
  end.

(** ** Cell filters *)

(** [FuzzyFilter]: shell patterns become regular expressions.  [previous] is
    the last character written; the result tells whether a star was replaced. *)
Fixpoint globFilter (previous : ascii) (s : string) : string * bool :=
  match s with
  | EmptyString => (EmptyString, false)
  | String c s =>
      if Ascii.eqb c "*" then
        if Ascii.eqb previous "." then let '(t, b) := globFilter "*" s in (String "*" t, b)
        else let '(t, _) := globFilter "*" s in (String "." (String "*" t), true)
      else if Ascii.eqb c "[" || Ascii.eqb c "]" then
        let '(t, b) := globFilter c s in (String "\" (String c t), b)
      else if Ascii.eqb c "?" then let '(t, b) := globFilter "." s in (String "." t, b)
      else let '(t, b) := globFilter c s in (String c t, b)
  end.

(** The regular expressions of the standard library: which texts are valid, and
    whether a text matches one. *)
Section Models.
Context (validRegex : string -> bool) (regex_match : string -> string -> bool).

Definition FuzzyFilter (theFilter : string) : string :=
  let '(g, star) := globFilter "000" theFilter in
  if negb (validRegex theFilter) then g
  else if star then g else String.append "(" (String.append g (String.append ")|(" (String.append theFilter ")"))).

(** ** Reading a model *)

(** The loop over the conditions of [condition=(...)]. *)
Definition between (s : string) (i j : Z) : outcome string := t ← substr s i (u64 (j - i)); trim_ t.

Fixpoint conditionLoop (fuel : nat) (s : string) (myStringBegin myStringEnd : Z) (l : list CCondition)
    (filter : string) : outcome (list CCondition * string) :=
  match fuel with
  | O => throw OutOfFuel
  | S fuel =>
      if negb (myStringEnd <? size s) then Ok (l, filter)
      else
        let myRelationIndex := find_first_of s "<=>" myStringBegin in
        let myValueIndex := find_first_not_of s "<=>" myRelationIndex in
        name ← between s myStringBegin myRelationIndex;
        rel ← between s myRelationIndex myValueIndex;
        v ← between s myValueIndex myStringEnd;
        let name := toupper_ name in
        '(l, filter) ← (if bool_decide (name = "CELL") && bool_decide (rel = "=") then
                          if validRegex (FuzzyFilter v) then Ok (l, v) else throw ERegexError
                        else c ← Condition name rel v; Ok (l ++ [c], filter));
        let myStringBegin := find_first_not_of s (String.append "), " (String "009" "")) myStringEnd in
        conditionLoop fuel s myStringBegin (find_first_of s ", )" myStringBegin) l filter
  end.
Definition CreateConditions (s : string) (l : list CCondition) (filter : string) : outcome (list CCondition * string) :=
  let myStringBegin := find_first_not_of s (String.append "( " (String "009" "")) 0 in
  conditionLoop (S (String.length s)) s myStringBegin (find_first_of s ", )" myStringBegin) l filter.

Fixpoint diodeLoop (fuel : nat) (s : string) (myStringBegin myStringEnd : Z) (l : list (Z * Z))
    : outcome (list (Z * Z)) :=
  match fuel with
  | O => throw OutOfFuel
  | S fuel =>
      if negb (myStringEnd <? size s) then Ok l
      else
        let myDelimterIndex := find_first_of s "-" myStringBegin in
        a ← between s myStringBegin myDelimterIndex;
        myAnode ← from_string_int a;
        k ← between s (u64 (myDelimterIndex + 1)) myStringEnd;
        myCathode ← from_string_int k;
        let stops := String.append "), " (String "009" "") in
        let myStringBegin := find_first_not_of s stops myStringEnd in
        diodeLoop fuel s myStringBegin (find_first_of s stops myStringBegin) (l ++ [(myAnode, myCathode)])
  end.
Definition SetDiodes (s : string) : outcome (list (Z * Z)) :=
  let myStringBegin := find_first_not_of s (String.append "(, " (String "009" "")) 0 in
  diodeLoop (S (String.length s)) s myStringBegin
    (find_first_of s (String.append "), " (String "009" "")) myStringBegin) [].

(** The new entry with one field changed. *)
Definition set_texts (vds vgs vbs vbg vth r : string) (m : modelEntry) : modelEntry :=
  mkEntry (entryName m) vds vgs vbs vbg vth (entryMaxVds m) (entryMaxVgs m) (entryMaxVbs m) (entryMaxVbg m)
    (entryVth m) r (entryBaseType m) (validModel m) (entryType m) (conditionPtrList m) (cellFilter m)
    (entryDiodes m) (definition m).
Definition set_rest (t : modelType_t) (c : list CCondition) (f : string) (di : list (Z * Z)) (def : string)
    (m : modelEntry) : modelEntry :=
  mkEntry (entryName m) (maxVdsDefinition m) (maxVgsDefinition m) (maxVbsDefinition m) (maxVbgDefinition m)
    (vthDefinition m) (entryMaxVds m) (entryMaxVgs m) (entryMaxVbs m) (entryMaxVbg m) (entryVth m)
    (resistanceDefinition m) (entryBaseType m) (validModel m) t c f di def.

(** [model=...]: what may be overridden by what. *)
Definition overrideType (base v : string) : outcome modelType_t :=
  if negb (bool_decide (base ∈ ["M"; "R"; "C"; "X"])) then throw EModelError
  else if bool_decide (base = "M") && negb (bool_decide (v ∈ ["fuse_on"; "fuse_off"])) then throw EModelError
  else if negb (bool_decide (base = "X")) && negb (bool_decide (v ∈ ["switch_on"; "switch_off"; "fuse_on"; "fuse_off"]))
  then throw EModelError
  else atMap (gModelTypeStringMap v).

Definition setParameter (name v : string) (m : modelEntry) : outcome modelEntry :=
  let '(vds, vgs, vbs, vbg, vth, r) :=
    (maxVdsDefinition m, maxVgsDefinition m, maxVbsDefinition m, maxVbgDefinition m, vthDefinition m,
     resistanceDefinition m) in
  if bool_decide (name = "Vth") then Ok (set_texts vds vgs vbs vbg v r m)
  else if bool_decide (name = "Vgs") then Ok (set_texts vds v vbs vbg vth r m)
  else if bool_decide (name = "Vds") then Ok (set_texts v vgs vbs vbg vth r m)
  else if bool_decide (name = "Vbs") then Ok (set_texts vds vgs v vbg vth r m)
  else if bool_decide (name = "Vbg") then Ok (set_texts vds vgs vbs v vth r m)
  else if bool_decide (name = "R") then Ok (set_texts vds vgs vbs vbg vth v m)
  else if bool_decide (name = "model") then
    t ← overrideType (entryBaseType m) v;
    Ok (set_rest t (conditionPtrList m) (cellFilter m) (entryDiodes m) (definition m) m)
  else if bool_decide (name = "condition") then
    '(c, f) ← CreateConditions v (conditionPtrList m) (cellFilter m);
    Ok (set_rest (entryType m) c f (entryDiodes m) (definition m) m)
  else if bool_decide (name = "diode") then
    di ← SetDiodes v;
    Ok (set_rest (entryType m) (conditionPtrList m) (cellFilter m) di (definition m) m)
  else throw EModelError.

Fixpoint modelLoop (fuel : nat) (s : string) (myStringBegin : Z) (m : modelEntry) : outcome modelEntry :=
  match fuel with
  | O => throw OutOfFuel
  | S fuel =>
      if negb (myStringBegin <? size s) then Ok m
      else
        let myStringEnd := find_first_of s blanksOfLine myStringBegin in
        text ← substr s myStringBegin (u64 (myStringEnd - myStringBegin));
        let m := set_rest (entryType m) (conditionPtrList m) (cellFilter m) (entryDiodes m)
                   (String.append (definition m) (String " " text)) m in
        let myEqualIndex := find_first_of s "=" myStringBegin in
        name ← substr s myStringBegin (u64 (myEqualIndex - myStringBegin));
        v ← substr s (u64 (myEqualIndex + 1)) (u64 (myStringEnd - u64 (myEqualIndex + 1)));
        m ← setParameter name v m;
        modelLoop fuel s (find_first_not_of s blanksOfLine myStringEnd) m
  end.

Definition defaultDiodes (t : modelType_t) : list (Z * Z) :=
  if IsNmos_ t then [(4, 1); (4, 3)] else if IsPmos_ t then [(1, 4); (3, 4)]
  else if bool_decide (t = DIODE) then [(1, 2)] else [].

Definition newModel (s : string) : outcome modelEntry :=
  let myStringBegin := find_first_not_of s blanksOfLine 0 in
  let myStringEnd := find_first_of s blanksOfLine myStringBegin in
  kind ← substr s myStringBegin (u64 (myStringEnd - myStringBegin));
  t ← atMap (gModelTypeStringMap kind);
  base ← atMap (gBaseModelTypePrefixMap t);
  let r := if IsMos_ t then DEFAULT_MOS_RESISTANCE
           else if bool_decide (t = RESISTOR) then DEFAULT_RESISTANCE else "" in
  let myStringBegin := find_first_not_of s blanksOfLine myStringEnd in
  let myStringEnd := find_first_of s blanksOfLine myStringBegin in
  name ← substr s myStringBegin (u64 (myStringEnd - myStringBegin));
  m ← modelLoop (S (String.length s)) s (find_first_not_of s blanksOfLine myStringEnd)
        (mkEntry name "" "" "" "" "" UNKNOWN_VOLTAGE UNKNOWN_VOLTAGE UNKNOWN_VOLTAGE UNKNOWN_VOLTAGE UNKNOWN_VOLTAGE
           r base true t [] "" [] (String.append kind (String " " name)));
  Ok (if bool_decide (entryDiodes m = []) then
        set_rest (entryType m) (conditionPtrList m) (cellFilter m) (defaultDiodes (entryType m)) (definition m) m
      else m).

(** ** Lists of models *)

(** [CModelList]; [listVth] is calculated when an equation asks for it. *)
Record CModelList : Type := mkModelList { entries : list modelEntry; listVth : Z; listVthDefinition : string }.

(** [std::map<string, CModelList>] with its keys in order. *)
Abbreviation CModelListMap := (list (string * CModelList)).

Fixpoint lookupKey (k : string) (m : CModelListMap) : option CModelList :=
  match m with
  | [] => None
  | (k', l) :: m => if bool_decide (k' = k) then Some l else lookupKey k m
  end.
Fixpoint insertKey (k : string) (l : CModelList) (m : CModelListMap) : CModelListMap :=
  match m with
  | [] => [(k, l)]
  | (k', l') :: m =>
      if bool_decide (k' = k) then (k, l) :: m
      else if String.ltb k k' then (k, l) :: (k', l') :: m else (k', l') :: insertKey k l m
  end.

(** The map and [hasError]: any exception for a line sets the error. *)
Definition AddModel (m : CModelListMap) (hasError : bool) (theParameterString : string)
    : outcome (CModelListMap * bool) :=
  match newModel theParameterString with
  | Err UndefinedBehaviour => throw UndefinedBehaviour
  | Err OutOfFuel => throw OutOfFuel
  | Err _ => Ok (m, true)
  | Ok x =>
      let myModelKey := String.append (entryBaseType x) (String " " (entryName x)) in
      Ok (match lookupKey myModelKey m with
          | Some l => insertKey myModelKey (mkModelList (entries l ++ [x]) (listVth l) (listVthDefinition l)) m
          | None => insertKey myModelKey (mkModelList [x] UNKNOWN_VOLTAGE (vthDefinition x)) m
          end, hasError)
  end.

(** ** Finding a model *)

(** [myCheckValue = theParameterMap.at(...)]: an [out_of_range] becomes the
    fatal error of a missing parameter. *)
Definition checkValue (theParameterMap : CParameterMap) (c : CCondition) : outcome CNormalValue :=
  match theParameterMap !! parameter c with
  | None => throw EFatalError
  | Some text =>
      match NormalValue text with
      | Err EOutOfRange => throw EFatalError
      | x => x
      end
  end.

Fixpoint conditionsHold (theParameterMap : CParameterMap) (l : list CCondition) : outcome bool :=
  match l with
  | [] => Ok true
  | c :: l => v ← checkValue theParameterMap c;
              if CheckCondition c v then conditionsHold theParameterMap l else Ok false
  end.

Definition ParameterMatch (m : modelEntry) (theParameterMap : CParameterMap) (theCellName : string) : outcome bool :=
  b ← conditionsHold theParameterMap (conditionPtrList m);
  Ok (b && (bool_decide (cellFilter m = "") || regex_match (FuzzyFilter (cellFilter m)) theCellName)).

Abbreviation CTextResistanceMap := (gmap string Z).

(** The resistance of a device of a model. *)
Definition modelResistance (m : modelEntry) (theParameterMap : CParameterMap) : outcome Z :=
  if IsMos_ (entryType m) || bool_decide (entryType m = RESISTOR)
  then CalculateResistance theParameterMap (resistanceDefinition m) else Ok 1.

(** The first model that matches, by its index. *)
Fixpoint firstMatch (l : list modelEntry) (i : nat) (p : CParameterMap) (theCellName theParameterText : string)
    (r : CTextResistanceMap) : outcome (option nat * CTextResistanceMap) :=
  match l with
  | [] => Ok (None, r)
  | m :: l =>
      b ← ParameterMatch m p theCellName;
      if (b : bool) then x ← modelResistance m p; Ok (Some i, <[theParameterText := x]> r)
      else firstMatch l (S i) p theCellName theParameterText r
  end.

(** A reference to a model: its key and its index in the list. *)
Definition modelRef : Type := string * nat.

Definition modelKey (myParameterString : string) : outcome string :=
  substr myParameterString 0 (find_first_of myParameterString " " 2).

Definition FindModel (m : CModelListMap) (theCellName theParameterText : string) (r : CTextResistanceMap)
    : outcome (option modelRef * CTextResistanceMap) :=
  myParameterString ← trim_ theParameterText;
  myModelKey ← modelKey myParameterString;
  let body : outcome (option modelRef * CTextResistanceMap) :=
    p ← (if size myModelKey <? size myParameterString then
           t ← substr myParameterString (size myModelKey + 1) npos; CreateParameterMap t ∅
         else Ok ∅);
    l ← atMap (lookupKey myModelKey m);
    '(i, r) ← firstMatch (entries l) 0 p theCellName theParameterText r;
    Ok (match i with Some i => Some (myModelKey, i) | None => None end, r) in
  match body with
  | Err EOutOfRange => Ok (None, r)
  | x => x
  end.

(** ** The models of the devices *)

(** A device as [SetDeviceModels] sees it, by circuit and offset. *)
Record modelDevice : Type := mkModelDevice { deviceText : string; deviceSignals : list Z }.
Record modelCircuit : Type := mkModelCircuit { cellName : string; cellLinked : bool; cellDevices : list modelDevice }.
Definition deviceRef : Type := nat * nat.

(** The pointers [model_p], [firstDevice_p] and [nextDevice_p], the resistances
    and [myModelError]. *)
Record chainState : Type := mkChains {
  modelOf : gmap (nat * nat) modelRef;
  firstDevice : gmap (string * nat) deviceRef;
  nextDevice : gmap (nat * nat) deviceRef;
  resistances : CTextResistanceMap;
  modelError : bool
}.

Definition entryOf (m : CModelListMap) (ref : modelRef) : option modelEntry :=
  l ← lookupKey ref.1 m; entries l !! ref.2.

(** A MOS transistor used as a fuse has its source on its drain, and with SOI on
    its fourth signal. *)
Definition fuseError (soi : bool) (x : modelEntry) (dev : modelDevice) : outcome bool :=
  if bool_decide (entryBaseType x = "M") && bool_decide (entryType x ∈ [FUSE_ON; FUSE_OFF]) then
    s ← vget (deviceSignals dev) 0; t ← vget (deviceSignals dev) 2;
    if negb (s =? t) then Ok true
    else if soi then u ← vget (deviceSignals dev) 3; Ok (negb (s =? u)) else Ok false
  else Ok false.

(** The device goes in front of the chain of its model; [nextDevice_p] is only
    written when the chain is not empty. *)
Definition chainDevice (ref : modelRef) (d : deviceRef) (st : chainState) : chainState :=
  mkChains (modelOf st) (<[ref := d]> (firstDevice st))
    (match firstDevice st !! ref with Some f => <[d := f]> (nextDevice st) | None => nextDevice st end)
    (resistances st) (modelError st).
Definition failModel (st : chainState) : chainState :=
  mkChains (modelOf st) (firstDevice st) (nextDevice st) (resistances st) true.
(** [model_p = FindModel(...)]. *)
Definition assignModel (d : deviceRef) (ref : option modelRef) (r : CTextResistanceMap) (st : chainState) : chainState :=
  mkChains (match ref with Some x => <[d := x]> (modelOf st) | None => delete d (modelOf st) end)
    (firstDevice st) (nextDevice st) r (modelError st).

Definition setDeviceModel (m : CModelListMap) (soi : bool) (c : modelCircuit) (d : deviceRef) (dev : modelDevice)
    (st : chainState) : outcome chainState :=
  '(ref, r) ← FindModel m (cellName c) (deviceText dev) (resistances st);
  let st := assignModel d ref r st in
  match ref with
  | None => Ok (failModel st)
  | Some ref =>
      x ← atMap (entryOf m ref);
      if negb (validModel x) then Ok (failModel st)
      else
        e ← fuseError soi x dev;
        let st := chainDevice ref d st in
        Ok (if (e : bool) then failModel st else st)
  end.

Fixpoint setDevices (m : CModelListMap) (soi : bool) (c : modelCircuit) (k o : nat) (l : list modelDevice)
    (st : chainState) : outcome chainState :=
  match l with
  | [] => Ok st
  | dev :: l => st ← setDeviceModel m soi c (k, o) dev st; setDevices m soi c k (S o) l st
  end.
Fixpoint setCircuits (m : CModelListMap) (soi : bool) (k : nat) (l : list modelCircuit) (st : chainState)
    : outcome chainState :=
  match l with
  | [] => Ok st
  | c :: l =>
      st ← (if cellLinked c then setDevices m soi c k 0 (cellDevices c) st else Ok st);
      setCircuits m soi (S k) l st
  end.

(** ** Voltages *)

Definition UNKNOWN_TOKEN : spec_float := fmul (single MAX_VOLTAGE) (single 2).
Definition isUnknown (v : spec_float) : bool := SFeqb v UNKNOWN_TOKEN.

(** An unknown operand is ignored by minimum and maximum and makes the result of
    the other operators unknown. *)
Definition floatApply (o : operator) (a b : spec_float) : spec_float :=
  let extremum := match o with Min | Max => true | _ => false end in
  if isUnknown b then if extremum then a else UNKNOWN_TOKEN
  else if isUnknown a then if extremum then b else a
  else match o with
       | Plus => SFadd 24 128 a b
       | Minus => SFsub 24 128 a b
       | Times => SFmul 24 128 a b
       | Over => SFdiv 24 128 a b
       | Min => if SFltb b a then b else a
       | Max => if SFltb a b then b else a
       end.

(** [implicitFamily] of the macros and the models. *)
Record voltageState : Type := mkVoltageState { implicitFamily : string; voltageModels : CModelListMap }.

Definition volts (v : Z) : spec_float :=
  if v =? UNKNOWN_VOLTAGE then UNKNOWN_TOKEN else fdiv (single v) (single VOLTAGE_SCALE).
(** The calls ask for one of these three; for another type the code pushes
    nothing. *)
Definition levelOfPower (t : netStatus_t) (p : CPower) : option Z :=
  match t with
  | MIN_POWER => Some (minVoltage p) | SIM_POWER => Some (simVoltage p) | MAX_POWER => Some (maxVoltage p)
  | _ => None
  end.

(** [Vth[name]]: the key of the model list. *)
Definition lastChar (s : string) : ascii := List.last (String.list_ascii_of_string s) "000"%char.
Definition vthKey (tok : string) : option string :=
  if bool_decide (takeText 4 tok = "Vth[") && Ascii.eqb (lastChar tok) "]"
  then Some (String.append "M " (takeText (String.length tok - 5) (dropText 4 tok))) else None.

Definition setListVth (k : string) (v : Z) (m : CModelListMap) : CModelListMap :=
  match lookupKey k m with
  | Some l => insertKey k (mkModelList (entries l) v (listVthDefinition l)) m
  | None => m
  end.

Section Voltage.
Context (macros : string -> option CPower).

(** [recurse] is the call for the definition of a threshold. *)
Definition voltageToken (recurse : string -> M voltageState Z) (theType : netStatus_t) (thePermitUndefinedFlag : bool)
    (tok : string) : M voltageState spec_float :=
  if isalpha (firstChar tok) then
    match macros tok with
    | Some p =>
        match levelOfPower theType p with
        | Some v =>
            _ ← modify (fun st => mkVoltageState (String.append (implicitFamily st) (String "," tok)) (voltageModels st));
            mret (volts v)
        | None => raise UndefinedBehaviour
        end
    | None =>
        match vthKey tok with
        | Some k =>
            l ← gets (fun st => lookupKey k (voltageModels st));
            match l with
            | Some l =>
                v ← (if listVth l =? UNKNOWN_VOLTAGE then
                       v ← recurse (listVthDefinition l);
                       _ ← modify (fun st => mkVoltageState (implicitFamily st) (setListVth k v (voltageModels st)));
                       mret v
                     else mret (listVth l));
                mret (fdiv (single v) (single VOLTAGE_SCALE))
            | None => raise EModelError
            end
        | None => if thePermitUndefinedFlag then mret UNKNOWN_TOKEN else raise EPowerError
        end
    end
  else if IsValidVoltage_ tok then lift (from_string_float tok)
  else raise EPowerError.

(** The one value left, as a voltage. *)
Definition finalVoltage (stack : list spec_float) : outcome Z :=
  match stack with
  | [v] =>
      if SFltb (single MAX_VOLTAGE) v then Ok UNKNOWN_VOLTAGE
      else n ← scaledVoltage v; fits (- 2 ^ 15) (2 ^ 15 - 1) n
  | _ => throw EPowerError
  end.

(** [fuel] bounds the nesting of threshold definitions. *)
Fixpoint CalculateVoltage (fuel : nat) (theEquation : string) (theType : netStatus_t) (thePermitUndefinedFlag : bool)
    (theResetImplicitFlag : bool) : M voltageState Z :=
  match fuel with
  | O => raise OutOfFuel
  | S fuel =>
      _ ← when theResetImplicitFlag (modify (fun st => mkVoltageState "" (voltageModels st)));
      toks ← (if IsValidVoltage_ theEquation then mret [theEquation] else lift (postfix theEquation));
      stack ← machine (voltageToken (fun def => CalculateVoltage fuel def SIM_POWER false false)
                         theType thePermitUndefinedFlag) floatApply [] toks;
      lift (finalVoltage stack)
  end.
End Voltage.

(** ** Tolerances *)

(** Changing one entry of a list. *)
Definition updateEntry (ref : modelRef) (f : modelEntry -> modelEntry) (m : CModelListMap) : CModelListMap :=
  match lookupKey ref.1 m with
  | Some l => insertKey ref.1 (mkModelList (alter f ref.2 (entries l)) (listVth l) (listVthDefinition l)) m
  | None => m
  end.

Inductive tolerance : Set := TolVth | TolVbg | TolVbs | TolVds | TolVgs.
Definition toleranceText (t : tolerance) (x : modelEntry) : string :=
  match t with
  | TolVth => vthDefinition x | TolVbg => maxVbgDefinition x | TolVbs => maxVbsDefinition x
  | TolVds => maxVdsDefinition x | TolVgs => maxVgsDefinition x
  end.
(** The calculated value; an unknown one makes the model invalid. *)
Definition setTolerance (t : tolerance) (v : Z) (x : modelEntry) : modelEntry :=
  let pick u old := match t, u with
                    | TolVth, TolVth | TolVbg, TolVbg | TolVbs, TolVbs | TolVds, TolVds | TolVgs, TolVgs => v
                    | _, _ => old
                    end in
  mkEntry (entryName x) (maxVdsDefinition x) (maxVgsDefinition x) (maxVbsDefinition x) (maxVbgDefinition x)
    (vthDefinition x) (pick TolVds (entryMaxVds x)) (pick TolVgs (entryMaxVgs x)) (pick TolVbs (entryMaxVbs x))
    (pick TolVbg (entryMaxVbg x)) (pick TolVth (entryVth x)) (resistanceDefinition x) (entryBaseType x)
    (validModel x && negb (v =? UNKNOWN_VOLTAGE)) (entryType x) (conditionPtrList x) (cellFilter x)
    (entryDiodes x) (definition x).

(** The tolerances of one model in the order of the code, and
    [myToleranceErrorFlag]: an [EPowerError] ends the model, the values before
    it stay.  What the failed calculation did to [implicitFamily] is undone by
    the next call, and a cached threshold is calculated again. *)
Fixpoint setTolerances (fuel : nat) (macros : string -> option CPower) (ref : modelRef) (l : list tolerance)
    (st : voltageState) : outcome (bool * voltageState) :=
  match l with
  | [] => Ok (false, st)
  | t :: l =>
      x ← atMap (entryOf (voltageModels st) ref);
      if bool_decide (toleranceText t x = "") then setTolerances fuel macros ref l st
      else
        match CalculateVoltage macros fuel (toleranceText t x) SIM_POWER true true st with
        | Err EPowerError => Ok (true, st)
        | Err e => throw e
        | Ok (v, st) =>
            setTolerances fuel macros ref l
              (mkVoltageState (implicitFamily st) (updateEntry ref (setTolerance t v) (voltageModels st)))
        end
  end.

Definition allRefs (m : CModelListMap) : list modelRef :=
  flat_map (fun kl => map (pair kl.1) (seq 0 (length (entries kl.2)))) m.

Fixpoint toleranceLoop (fuel : nat) (macros : string -> option CPower) (refs : list modelRef) (error : bool)
    (st : voltageState) : outcome (bool * voltageState) :=
  match refs with
  | [] => Ok (error, st)
  | ref :: refs =>
      '(e, st) ← setTolerances fuel macros ref [TolVth; TolVbg; TolVbs; TolVds; TolVgs] st;
      toleranceLoop fuel macros refs (error || e) st
  end.

(** [true] is [OK]. *)
Definition SetVoltageTolerances (fuel : nat) (macros : string -> option CPower) (st : voltageState)
    : outcome (bool * voltageState) :=
  '(e, st) ← toleranceLoop fuel macros (allRefs (voltageModels st)) false st; Ok (negb e, st).

Definition SetDeviceModels (fuel : nat) (macros : string -> option CPower) (soi : bool) (cs : list modelCircuit)
    (next : gmap (nat * nat) deviceRef) (vs : voltageState) : outcome (bool * chainState * voltageState) :=
  st ← setCircuits (voltageModels vs) soi 0 cs (mkChains ∅ ∅ next ∅ false);
  if modelError st then Ok (false, st, vs)
  else '(ok, vs) ← SetVoltageTolerances fuel macros vs; Ok (ok, st, vs).

(** ** Reading a model ends *)

Lemma fits_fuel lo hi n : fits lo hi n <> Err OutOfFuel.
Proof. unfold fits. by destruct (_ && _). Qed.
Lemma bind_fuel {A B} (m : outcome A) (f : A -> outcome B) :
  m <> Err OutOfFuel -> (forall a, f a <> Err OutOfFuel) -> m ≫= f <> Err OutOfFuel.
Proof. intros Hm Hf. destruct m as [a | e]; cbn; [apply Hf | congruence]. Qed.
Lemma roundAway_fuel f : roundAway f <> Err OutOfFuel.
Proof. unfold roundAway. by destruct f. Qed.

Lemma from_string_fuel prec emax s : from_string prec emax s <> Err OutOfFuel.
Proof. unfold from_string. by repeat case_match. Qed.
Lemma substr_fuel s i n : substr s i n <> Err OutOfFuel.
Proof. unfold substr. by case_match. Qed.
Lemma atMap_fuel {A} (x : option A) : atMap x <> Err OutOfFuel.
Proof. by destruct x. Qed.
Lemma trim_fuel s : trim_ s <> Err OutOfFuel.
Proof. unfold trim_. apply bind_fuel; [apply substr_fuel | intros; apply substr_fuel]. Qed.
Create HintDb cvc_fuel.
#[local] Hint Resolve bind_fuel fits_fuel roundAway_fuel from_string_fuel substr_fuel atMap_fuel trim_fuel : cvc_fuel.

Lemma between_fuel s i j : between s i j <> Err OutOfFuel.
Proof. unfold between. auto with cvc_fuel. Qed.
Lemma NormalValue_fuel s : NormalValue s <> Err OutOfFuel.
Proof.
  unfold NormalValue. do 3 (apply bind_fuel; [auto with cvc_fuel; apply from_string_fuel | intros]).
  apply bind_fuel; [by repeat case_match |]. intros. do 2 (apply bind_fuel; [auto with cvc_fuel | intros]). done.
Qed.
Lemma Condition_fuel a b c : Condition a b c <> Err OutOfFuel.
Proof. unfold Condition. by apply bind_fuel; [apply NormalValue_fuel |]. Qed.
Lemma from_string_int_fuel s : from_string_int s <> Err OutOfFuel.
Proof.
  unfold from_string_int. repeat case_match; try done. apply bind_fuel; [auto with cvc_fuel | intros].
  apply bind_fuel; [unfold truncate; by case_match | auto with cvc_fuel].
Qed.
#[local] Hint Resolve between_fuel Condition_fuel from_string_int_fuel : cvc_fuel.

(** The delimiter found after a search for something else is further on. *)
Lemma next_delimiter s stops cs e :
  size s <= npos -> 0 <= e -> (forall c, charIn cs c = true -> charIn stops c = true) ->
  charIn cs (charAt s e) = true ->
  let b := find_first_not_of s stops e in
  find_first_of s cs b < size s -> e < find_first_of s cs b /\ charIn cs (charAt s (find_first_of s cs b)) = true.
Proof.
  intros Hs He Hsub Hc b. unfold find_first_of, find_first_not_of in *.
  assert (0 <= b) as Hb. { unfold b. destruct (searchFrom_spec (fun c => negb (charIn stops c)) s e He) as [-> | [? _]]; unfold npos; lia. }
  destruct (searchFrom_spec (charIn cs) s b Hb) as [-> | [Hr Hp]]; [lia |]. intros Hlt. split; [| done].
  destruct (Z_lt_dec b (size s)) as [Hb' |]; [| lia].
  assert (e < b); [| lia]. apply searchFrom_next; [done | done | by rewrite (Hsub _ Hc) | done].
Qed.

(** The first delimiter. *)
Lemma first_delimiter s cs b : 0 <= b ->
  let e := find_first_of s cs b in 0 <= e /\ (size s <= npos -> e < size s -> charIn cs (charAt s e) = true).
Proof.
  intros Hb. unfold find_first_of. destruct (searchFrom_spec (charIn cs) s b Hb) as [-> | [? ?]];
    [split; unfold npos; lia | split; [lia | done]].
Qed.
Lemma find_first_not_of_nonneg s cs b : 0 <= b -> 0 <= find_first_not_of s cs b.
Proof. intros Hb. unfold find_first_not_of. destruct (searchFrom_spec (fun c => negb (charIn cs c)) s b Hb) as [-> | [? _]]; unfold npos; lia. Qed.

(** One step of the loops: from a delimiter before the end to the next one. *)
Lemma delimiter_step s stops cs e fuel :
  size s <= npos -> 0 <= e -> e < size s -> charIn cs (charAt s e) = true ->
  (forall c, charIn cs c = true -> charIn stops c = true) -> Z.max 0 (size s - e) < Z.of_nat (S fuel) ->
  let e' := find_first_of s cs (find_first_not_of s stops e) in
  0 <= e' /\ (e' < size s -> charIn cs (charAt s e') = true) /\ Z.max 0 (size s - e') < Z.of_nat fuel.
Proof.
  intros Hs He Hlt Hc Hsub Hf e'. pose proof (find_first_not_of_nonneg s stops e He) as Hb.
  destruct (first_delimiter s cs _ Hb) as [He' Hc']. fold e' in He', Hc'. split_and!; [done | by apply Hc' |].
  destruct (Z_lt_dec e' (size s)); [| lia]. destruct (next_delimiter s stops cs e Hs He Hsub Hc) as [? _]; [done | lia].
Qed.

Lemma conditionLoop_fuel s : size s <= npos -> forall fuel b e l filter, 0 <= e ->
  (e < size s -> charIn ", )" (charAt s e) = true) -> Z.max 0 (size s - e) < Z.of_nat fuel ->
  conditionLoop fuel s b e l filter <> Err OutOfFuel.
Proof.
  intros Hs fuel. induction fuel as [| fuel IH]; intros b e l filter He Hc Hf; cbn [conditionLoop]; [lia |].
  destruct (e <? size s) eqn:E; [| done]. apply Z.ltb_lt in E. cbn [negb].
  do 3 (apply bind_fuel; [apply between_fuel | intros ?]). apply bind_fuel.
  { destruct (_ && _); [by case_match | apply bind_fuel; [apply Condition_fuel | done]]. }
  intros [l' f']. destruct (delimiter_step s (String.append "), " (String "009" "")) ", )" e fuel) as (? & ? & ?); auto.
  intros c. change (String.append "), " (String "009" "")) with (String ")" (String "," (String " " (String "009" "")))).
  cbn [charIn]. by destruct (Ascii.eqb c ","), (Ascii.eqb c " "), (Ascii.eqb c ")").
Qed.

Lemma CreateConditions_fuel s l filter : size s <= npos -> CreateConditions s l filter <> Err OutOfFuel.
Proof.
  intros Hs. unfold CreateConditions. set (b := find_first_not_of _ _ _).
  destruct (first_delimiter s ", )" b) as [He Hc]; [by apply find_first_not_of_nonneg |].
  apply conditionLoop_fuel; [done | done | by apply Hc |]. unfold size in *. lia.
Qed.

Lemma diodeLoop_fuel s : size s <= npos -> forall fuel b e l, 0 <= e ->
  (e < size s -> charIn (String.append "), " (String "009" "")) (charAt s e) = true) ->
  Z.max 0 (size s - e) < Z.of_nat fuel -> diodeLoop fuel s b e l <> Err OutOfFuel.
Proof.
  intros Hs fuel. induction fuel as [| fuel IH]; intros b e l He Hc Hf; cbn [diodeLoop]; [lia |].
  destruct (e <? size s) eqn:E; [| done]. apply Z.ltb_lt in E. cbn [negb].
  do 2 (apply bind_fuel; [apply between_fuel | intros ?]; apply bind_fuel; [apply from_string_int_fuel | intros ?]).
  destruct (delimiter_step s (String.append "), " (String "009" "")) (String.append "), " (String "009" "")) e fuel)
    as (? & ? & ?); auto.
Qed.

Lemma SetDiodes_fuel s : size s <= npos -> SetDiodes s <> Err OutOfFuel.
Proof.
  intros Hs. unfold SetDiodes. set (b := find_first_not_of _ _ _).
  destruct (first_delimiter s (String.append "), " (String "009" "")) b) as [He Hc]; [by apply find_first_not_of_nonneg |].
  apply diodeLoop_fuel; [done | done | by apply Hc |]. unfold size in *. lia.
Qed.

Lemma setParameter_fuel name v m : size v <= npos -> setParameter name v m <> Err OutOfFuel.
Proof.
  intros Hv. unfold setParameter, overrideType.
  repeat first [ done | apply bind_fuel; [| by intros ?; repeat case_match] | by apply CreateConditions_fuel
               | by apply SetDiodes_fuel | apply atMap_fuel | case_match ].
Qed.

Lemma modelLoop_fuel s : size s <= npos -> forall fuel b m, 0 <= b -> Z.max 0 (size s - b) < Z.of_nat fuel ->
  modelLoop fuel s b m <> Err OutOfFuel.
Proof.
  intros Hs fuel. induction fuel as [| fuel IH]; intros b m Hb Hf; cbn [modelLoop]; [lia |].
  destruct (b <? size s) eqn:E; [| done]. apply Z.ltb_lt in E. cbn [negb].
  do 2 (apply bind_fuel; [apply substr_fuel | intros ?]).
  destruct (substr s (u64 _) _) as [v |] eqn:Ev; [| pose proof (substr_fuel s) as Hx; cbn; congruence].
  cbn [mbind outcome_bind]. apply bind_fuel; [apply setParameter_fuel; apply substr_size in Ev; lia |]. intros m'.
  destruct (first_delimiter s blanksOfLine b Hb) as [He Hc].
  assert (b <= find_first_of s blanksOfLine b) as Hbe.
  { unfold find_first_of. destruct (searchFrom_spec (charIn blanksOfLine) s b Hb) as [-> | [? _]]; lia. }
  set (e := find_first_of s blanksOfLine b) in *.
  apply IH; [by apply find_first_not_of_nonneg |].
  destruct (Z_lt_dec e (size s)) as [Hlt |].
  - destruct (Z_lt_dec (find_first_not_of s blanksOfLine e) (size s)) as [H |]; [| lia].
    assert (e < find_first_not_of s blanksOfLine e); [| lia].
    apply searchFrom_next; [done | done | by rewrite Hc | done].
  - unfold find_first_not_of, searchFrom. rewrite (proj2 (Z.leb_le _ _)) by lia. lia.
Qed.

Lemma newModel_fuel s : size s <= npos -> newModel s <> Err OutOfFuel.
Proof.
  intros Hs. unfold newModel. repeat (apply bind_fuel; [auto with cvc_fuel | intros ?]); [| done].
  apply modelLoop_fuel; [done | |].
  - repeat apply find_first_not_of_nonneg. apply first_delimiter. apply find_first_not_of_nonneg.
    apply first_delimiter. by apply find_first_not_of_nonneg.
  - match goal with |- Z.max 0 (_ - ?b) < _ => assert (0 <= b) end.
    { repeat apply find_first_not_of_nonneg. apply first_delimiter. apply find_first_not_of_nonneg.
      apply first_delimiter. by apply find_first_not_of_nonneg. }
    unfold size in *. lia.
Qed.

(** ** The first model that matches *)

Lemma firstMatch_spec l i p cell text r j r' :
  firstMatch l i p cell text r = Ok (Some j, r') ->
  exists k x v, j = (i + k)%nat /\ l !! k = Some x /\ ParameterMatch x p cell = Ok true /\
    modelResistance x p = Ok v /\ r' = <[text := v]> r /\
    forall k', (k' < k)%nat -> exists y, l !! k' = Some y /\ ParameterMatch y p cell = Ok false.
Proof.
  revert i. induction l as [| m l IH]; intros i H; cbn [firstMatch] in H; [done |]. inv_ok H. destruct a.
  - inv_ok H. injection H as <- <-. exists 0%nat, m, a. split_and!; [lia | done | done | done | done | lia].
  - apply IH in H as (k & x & v & -> & Hx & Hm & Hv & Hr & Hk). exists (S k), x, v.
    split_and!; [lia | done | done | done | done |]. intros [| k'] Hlt; [by exists m | apply Hk; lia].
Qed.

(** ** Chains *)

(** The devices met from a device on. *)
Inductive chainFrom (next : gmap (nat * nat) deviceRef) : deviceRef -> list deviceRef -> Prop :=
| chain_last d : next !! d = None -> chainFrom next d [d]
| chain_next d e l : next !! d = Some e -> chainFrom next e l -> chainFrom next d (d :: l).

Definition chainOf (st : chainState) (ref : modelRef) (l : list deviceRef) : Prop :=
  match firstDevice st !! ref with
  | Some d => chainFrom (nextDevice st) d l
  | None => l = []
  end.

Lemma chainFrom_frame next d e l x : chainFrom next e l -> d ∉ l -> chainFrom (<[d := x]> next) e l.
Proof.
  induction 1 as [e E | e f l E H IH]; intros Hd; apply not_elem_of_cons in Hd as [Hne Hd].
  - constructor. by rewrite lookup_insert_ne.
  - eapply chain_next; [by rewrite lookup_insert_ne | auto].
Qed.

(** The devices of a model among those done. *)
Definition ofModel (st : chainState) (ref : modelRef) (dones : list deviceRef) : list deviceRef :=
  filter (fun d => modelOf st !! d = Some ref) dones.

Record chained (st : chainState) (dones : list deviceRef) : Prop := mkChained {
  chained_lists ref : chainOf st ref (reverse (ofModel st ref dones));
  chained_free d : d ∉ dones -> nextDevice st !! d = None
}.

Lemma ofModel_other st st' ref d dones :
  d ∉ dones -> (forall e, e <> d -> modelOf st' !! e = modelOf st !! e) -> ofModel st' ref dones = ofModel st ref dones.
Proof.
  intros Hd He. unfold ofModel. induction dones as [| e l IH]; [done |].
  apply not_elem_of_cons in Hd as [Hne Hd]. rewrite !filter_cons, (IH Hd).
  specialize (He e (not_eq_sym Hne)). by repeat case_decide; rewrite ?He in *.
Qed.

Lemma chainDevice_chained st dones d ref :
  chained st dones -> d ∉ dones -> modelOf st !! d = Some ref -> chained (chainDevice ref d st) (dones ++ [d]).
Proof.
  intros [HL HF] Hd Hm. split.
  - intros ref'. change (ofModel (chainDevice ref d st) ref' (dones ++ [d])) with (ofModel st ref' (dones ++ [d])).
    unfold ofModel. rewrite filter_app. cbn [filter list_filter]. fold (ofModel st ref' dones).
    specialize (HL ref'). unfold chainOf in *. cbn [firstDevice nextDevice chainDevice].
    assert (d ∉ reverse (ofModel st ref' dones)) as Hnot.
    { rewrite elem_of_reverse. unfold ofModel. by intros [_ ?]%list_elem_of_filter. }
    destruct (decide (ref = ref')) as [<- | Hne].
    + rewrite lookup_insert_eq, decide_True by done. rewrite reverse_snoc.
      destruct (firstDevice st !! ref) as [f |].
      * eapply chain_next; [by rewrite lookup_insert_eq | by apply chainFrom_frame].
      * rewrite HL. constructor. by apply HF.
    + rewrite lookup_insert_ne by done. rewrite decide_False by congruence. rewrite app_nil_r.
      destruct (firstDevice st !! ref') as [f |]; [| done].
      destruct (firstDevice st !! ref) as [g |]; [by apply chainFrom_frame | done].
  - intros e [He1 He2]%not_elem_of_app. cbn. apply not_elem_of_cons in He2 as [He2 _].
    destruct (firstDevice st !! ref); [rewrite lookup_insert_ne by done |]; by apply HF.
Qed.

(** What one device leaves of the map of models. *)
Lemma assignModel_other d ref r st e : e <> d -> modelOf (assignModel d ref r st) !! e = modelOf st !! e.
Proof. intros He. destruct ref; cbn; [by rewrite lookup_insert_ne | by rewrite lookup_delete_ne]. Qed.

Lemma assignModel_chained st dones d ref r :
  chained st dones -> d ∉ dones -> chained (assignModel d ref r st) dones.
Proof.
  intros [HL HF] Hd. split; [| by intros e He; apply HF].
  intros ref'. rewrite (ofModel_other st _ ref' d dones Hd) by (intros; by apply assignModel_other). apply HL.
Qed.

Lemma unassigned_chained st dones d :
  chained st dones -> modelOf st !! d = None -> chained st (dones ++ [d]).
Proof.
  intros [HL HF] Hd. split.
  - intros ref. unfold ofModel. rewrite filter_app. cbn [filter list_filter].
    rewrite decide_False by congruence. rewrite app_nil_r. apply HL.
  - intros e [He _]%not_elem_of_app. by apply HF.
Qed.

Definition validModels (m : CModelListMap) : Prop :=
  forall ref x, entryOf m ref = Some x -> validModel x = true.

(** The devices done are chained, and have a model unless there was an error. *)
Record modelled (st : chainState) (dones : list deviceRef) : Prop := mkModelled {
  modelled_chains : chained st dones;
  modelled_all : modelError st = false -> Forall (fun d => is_Some (modelOf st !! d)) dones
}.

Lemma setDeviceModel_modelled m soi c d dev st st' dones :
  validModels m -> modelled st dones -> d ∉ dones ->
  setDeviceModel m soi c d dev st = Ok st' -> modelled st' (dones ++ [d]).
Proof.
  intros Hm [HC HA] Hd H. unfold setDeviceModel in H. inv_ok H. destruct a as [ref r].
  pose proof (assignModel_chained st dones d ref r HC Hd) as HC'.
  assert (modelError st = false -> Forall (fun e => is_Some (modelOf (assignModel d ref r st) !! e)) dones) as HA'.
  { intros He. apply Forall_forall. intros e Hin. rewrite assignModel_other by (by intros ->).
    exact (proj1 (Forall_forall _ _) (HA He) e Hin). }
  destruct ref as [ref |].
  - inv_ok H. unfold atMap in Ha0. destruct (entryOf m ref) as [x |] eqn:Ex; [| done]. injection Ha0 as <-.
    rewrite (Hm _ _ Ex) in H. cbn [negb] in H. inv_ok H. injection H as <-.
    assert (modelOf (assignModel d (Some ref) r st) !! d = Some ref) as Ed by (cbn; by rewrite lookup_insert_eq).
    destruct (chainDevice_chained _ _ _ _ HC' Hd Ed) as [HL HF].
    split; [by destruct a; split |].
    destruct a; cbn; [done |]. intros He. apply Forall_app. split; [by apply HA' |].
    apply Forall_singleton. by exists ref.
  - injection H as <-. split; [| done]. 
    destruct (unassigned_chained _ dones d HC') as [HL HF]; [cbn; by rewrite lookup_delete_eq |]. by split.
Qed.

(** The devices of the linked circuits, in order. *)
Fixpoint linkedDevices (k : nat) (cs : list modelCircuit) : list deviceRef :=
  match cs with
  | [] => []
  | c :: cs => (if cellLinked c then map (pair k) (seq 0 (length (cellDevices c))) else []) ++ linkedDevices (S k) cs
  end.

(** The devices before an offset of a circuit. *)
Definition earlier (k o : nat) (d : deviceRef) : Prop := (d.1 < k \/ d.1 = k /\ d.2 < o)%nat.

Lemma earlier_fresh k o l : Forall (earlier k o) l -> (k, o) ∉ l.
Proof. intros H Hin. pose proof (proj1 (Forall_forall _ _) H _ Hin) as He. unfold earlier in He. cbn in He. lia. Qed.

Lemma setDevices_modelled m soi c k l : validModels m -> forall o st st' dones,
  modelled st dones -> Forall (earlier k o) dones -> setDevices m soi c k o l st = Ok st' ->
  modelled st' (dones ++ map (pair k) (seq o (length l))) /\
  Forall (earlier (S k) 0) (dones ++ map (pair k) (seq o (length l))).
Proof.
  intros Hm. induction l as [| dev l IH]; intros o st st' dones Hs He H; cbn [setDevices length seq map] in *.
  - injection H as <-. rewrite app_nil_r. split; [done |].
    eapply Forall_impl; [exact He |]. unfold earlier. intros. lia.
  - inv_ok H. apply (setDeviceModel_modelled _ _ _ _ _ _ _ dones) in Ha; [| done | done | by apply earlier_fresh].
    apply (IH _ _ _ (dones ++ [(k, o)])) in H; [by rewrite <- app_assoc in H | done |].
    apply Forall_app. split; [eapply Forall_impl; [exact He |] | apply Forall_singleton]; unfold earlier; cbn; intros; lia.
Qed.

Lemma setCircuits_modelled m soi cs : validModels m -> forall k st st' dones,
  modelled st dones -> Forall (earlier k 0) dones -> setCircuits m soi k cs st = Ok st' ->
  modelled st' (dones ++ linkedDevices k cs).
Proof.
  intros Hm. induction cs as [| c cs IH]; intros k st st' dones Hs He H; cbn [setCircuits linkedDevices] in *.
  - injection H as <-. by rewrite app_nil_r.
  - inv_ok H. rewrite app_assoc. destruct (cellLinked c).
    + apply (setDevices_modelled _ _ _ _ _ Hm _ _ _ dones Hs He) in Ha as [Ha He']. eapply IH; [done | done | done].
    + injection Ha as <-. rewrite app_nil_r. eapply IH; [done | | done].
      eapply Forall_impl; [exact He |]. unfold earlier. intros. lia.
Qed.

Lemma start_modelled : modelled (mkChains ∅ ∅ ∅ ∅ false) [].
Proof. split; [split |]; [intros ref; unfold chainOf; cbn; by rewrite lookup_empty | by intros; cbn; rewrite lookup_empty | done]. Qed.

(** C13: [SetDeviceModels] chains the devices of each model: from fresh
    pointers and models none of which is marked invalid, following
    [nextDevice_p] from [firstDevice_p] of a model meets exactly the devices of
    the linked circuits whose model it is, the last one first; when it returns
    [OK] every such device has a model. *)
Theorem SetDeviceModels_chains fuel macros soi cs vs ok st vs' :
  validModels (voltageModels vs) ->
  SetDeviceModels fuel macros soi cs ∅ vs = Ok (ok, st, vs') ->
  (forall ref, chainOf st ref (reverse (filter (fun d => modelOf st !! d = Some ref) (linkedDevices 0 cs)))) /\
  (ok = true -> Forall (fun d => is_Some (modelOf st !! d)) (linkedDevices 0 cs)).
Proof.
  intros Hv H. unfold SetDeviceModels in H. inv_ok H.
  destruct (setCircuits_modelled _ _ _ Hv _ _ _ [] start_modelled ltac:(done) Ha) as [[HL _] HA].
  destruct (modelError a) eqn:E.
  - injection H as <- <- <-. done.
  - inv_ok H. destruct a0 as [b vs2]. injection H as <- <- <-. split; [exact HL | intros _; by apply HA].
Qed.

(** [FindModel] picks the first model that matches: when it returns a
    model, that model is in the list of the key of the text, its conditions
    hold for the parameters of the device and its cell filter for the cell,
    every model before it was tried and does not match, and the resistance map
    holds under the text the value of the model's resistance equation. *)
Theorem FindModel_first m cell text r k i r' :
  FindModel m cell text r = Ok (Some (k, i), r') ->
  exists s p l x v, trim_ text = Ok s /\ modelKey s = Ok k /\ lookupKey k m = Some l /\
    (if size k <? size s then t ← substr s (size k + 1) npos; CreateParameterMap t ∅ else Ok ∅) = Ok p /\
    entries l !! i = Some x /\ ParameterMatch x p cell = Ok true /\
    (forall j y, (j < i)%nat -> entries l !! j = Some y -> ParameterMatch y p cell = Ok false) /\
    modelResistance x p = Ok v /\ r' = <[text := v]> r.
Proof.
  unfold FindModel. intros H. inv_ok H. rename a into s. inv_ok H. rename a into key.
  match type of H with (match ?b with _ => _ end) = _ => destruct b as [[ref r2] | []] eqn:E; try done end.
  injection H as -> ->. inv_ok E. rename a into p. inv_ok E. rename a into l. inv_ok E. destruct a as [[j |] r2]; [| done].
  injection E as -> -> ->. apply firstMatch_spec in Ha3 as (n & x & v & Hn & Hx & Hmatch & Hv & Hr & Hbefore).
  cbn in Hn. subst n. unfold atMap in Ha2. destruct (lookupKey k m) as [l' |] eqn:El; [| done]. injection Ha2 as ->.
  exists s, p, l, x, v. split_and!; try done. intros j y Hj Hy. destruct (Hbefore j Hj) as (z & Hz & ?). congruence.
Qed.

End Models.

(** ** Voltage equations *)


(** *** Thresholds that refer to thresholds *)

Lemma lookupKey_insertKey k l m k' : lookupKey k' (insertKey k l m) = if bool_decide (k = k') then Some l else lookupKey k' m.
Proof.
  induction m as [| [k1 l1] m IH]; cbn [insertKey lookupKey]; [done |].
  destruct (bool_decide_reflect (k1 = k)) as [-> | Hne]; cbn [lookupKey]; [by case_bool_decide |].
  destruct (String.ltb k k1); cbn [lookupKey]; [done |]. rewrite IH.
  repeat case_bool_decide; congruence.
Qed.

Definition equationTokens (s : string) : outcome (list string) := if IsValidVoltage_ s then Ok [s] else postfix s.

(** The thresholds an equation names have a rank below [n]. *)
Definition ranked (rank : string -> nat) (n : nat) (s : string) : Prop :=
  forall toks tok k, equationTokens s = Ok toks -> tok ∈ toks -> vthKey tok = Some k -> (rank k < n)%nat.
(** The definitions of the thresholds go down in rank: there is no cycle. *)
Definition acyclic (rank : string -> nat) (st : voltageState) : Prop :=
  forall k l, lookupKey k (voltageModels st) = Some l -> ranked rank (rank k) (listVthDefinition l).

(** A computation that keeps an invariant and does not run out of fuel. *)
Definition safely {A} (P : voltageState -> Prop) (m : M voltageState A) : Prop :=
  forall st, P st -> match m st with Ok (_, st') => P st' | Err e => e <> OutOfFuel end.

Lemma safely_bind {A B} P (m : M voltageState A) (f : A -> M voltageState B) :
  safely P m -> (forall a, safely P (f a)) -> safely P (m ≫= f).
Proof.
  intros Hm Hf st Hst. specialize (Hm st Hst). unfold mbind, M_bind. destruct (m st) as [[a st'] | e]; [by apply Hf | done].
Qed.
Lemma safely_ret {A} P (a : A) : safely P (mret a).
Proof. by intros st Hst. Qed.
Lemma safely_lift {A} P (o : outcome A) : o <> Err OutOfFuel -> safely P (lift o).
Proof. intros Ho st Hst. unfold lift. destruct o; [done |]. congruence. Qed.
Lemma safely_modify P f : (forall st, P st -> P (f st)) -> safely P (modify f).
Proof. intros Hf st Hst. by apply Hf. Qed.
Lemma safely_raise {A} P e : e <> OutOfFuel -> safely P (raise (A := A) e).
Proof. by intros He st _. Qed.

Create HintDb cvc_safely.
#[local] Hint Resolve safely_ret safely_raise safely_lift safely_modify : cvc_safely.

Lemma machine_safely P (value : string -> M voltageState spec_float) apply toks :
  Forall (fun tok => safely P (value tok)) toks -> forall stack, safely P (machine value apply stack toks).
Proof.
  induction 1 as [| tok toks H HF IH]; intros stack; cbn [machine]; [auto with cvc_safely |].
  destruct (occursIn machineOperators tok); [| by apply safely_bind].
  destruct stack as [| b [| a stack]], (operatorOf tok); auto with cvc_safely; by apply safely_raise.
Qed.

(** *** The parts of a calculation that have no fuel *)

Lemma finalVoltage_fuel stack : finalVoltage stack <> Err OutOfFuel.
Proof.
  unfold finalVoltage. destruct stack as [| v [| ? ?]]; try done. destruct (SFltb _ _); [done |].
  apply bind_fuel; [apply roundAway_fuel | intros; apply fits_fuel].
Qed.

Lemma popToParenthesis_fuel l stack : popToParenthesis l stack <> Err OutOfFuel.
Proof. revert l. induction stack as [| o stack IH]; intros l; cbn; [done | by repeat case_match]. Qed.

Lemma postfix_fuel s : postfix s <> Err OutOfFuel.
Proof.
  unfold postfix. apply bind_fuel; [| done].
  generalize (mkPostfix [] [] "") as st. induction (ParseEquation s myOperators) as [| tok toks IH]; intros st; [done |].
  cbn [postfixTokens]. apply bind_fuel; [| done]. destruct st as [l stack last]. unfold postfixToken.
  repeat first [ done | apply bind_fuel; [apply popToParenthesis_fuel | by intros []] | case_match ].
Qed.

Lemma setListVth_acyclic rank k v st :
  acyclic rank st -> acyclic rank (mkVoltageState (implicitFamily st) (setListVth k v (voltageModels st))).
Proof.
  intros H k' l. cbn. unfold setListVth. destruct (lookupKey k (voltageModels st)) as [l0 |] eqn:E; [| apply H].
  rewrite lookupKey_insertKey. case_bool_decide as Hk; [| apply H]. intros [= <-]. subst k'. cbn. by apply H.
Qed.

Section Ranks.
Context (macros : string -> option CPower) (rank : string -> nat).

Lemma voltageToken_safely recurse theType permit tok :
  (forall k, vthKey tok = Some k -> forall s, ranked rank (rank k) s -> safely (acyclic rank) (recurse s)) ->
  safely (acyclic rank) (voltageToken macros recurse theType permit tok).
Proof.
  intros Hr. unfold voltageToken. destruct (isalpha (firstChar tok)).
  2: { destruct (IsValidVoltage_ tok); [apply safely_lift; apply from_string_fuel | by apply safely_raise]. }
  destruct (macros tok) as [p |].
  - destruct (levelOfPower theType p); [| by apply safely_raise].
    apply safely_bind; [by apply safely_modify | auto with cvc_safely].
  - destruct (vthKey tok) as [k |]; [| destruct permit; [apply safely_ret | by apply safely_raise]].
    intros st Hst. unfold gets, mbind at 1, M_bind at 1.
    destruct (lookupKey k (voltageModels st)) as [l |] eqn:El; [| done]. revert st Hst El.
    assert (ranked rank (rank k) (listVthDefinition l) ->
      safely (acyclic rank)
        (v ← (if listVth l =? UNKNOWN_VOLTAGE then
                v ← recurse (listVthDefinition l);
                _ ← modify (fun st => mkVoltageState (implicitFamily st) (setListVth k v (voltageModels st)));
                mret v
              else mret (listVth l));
         mret (fdiv (single v) (single VOLTAGE_SCALE)))) as H.
    { intros Hl. apply safely_bind; [| auto with cvc_safely]. destruct (_ =? _); [| apply safely_ret].
      apply safely_bind; [by apply (Hr k) |]. intros v. apply safely_bind; [| auto with cvc_safely].
      apply safely_modify. intros st. apply setListVth_acyclic. }
    intros st Hst El. apply H; [by apply (Hst k) | done].
Qed.

Lemma safely_tokens {A} s (f : list string -> M voltageState A) :
  (forall toks, equationTokens s = Ok toks -> safely (acyclic rank) (f toks)) ->
  safely (acyclic rank) (toks ← (if IsValidVoltage_ s then mret [s] else lift (postfix s)); f toks).
Proof.
  intros H st Hst. unfold equationTokens in H. unfold mbind, M_bind, lift, mret, M_ret. pose proof (postfix_fuel s).
  destruct (IsValidVoltage_ s); [by apply H |]. destruct (postfix s); [by apply H | congruence].
Qed.

Lemma CalculateVoltage_safely fuel : forall s theType permit reset,
  ranked rank fuel s -> safely (acyclic rank) (CalculateVoltage macros (S fuel) s theType permit reset).
Proof.
  induction fuel as [| fuel IH]; intros s theType permit reset Hs; cbn [CalculateVoltage];
    (apply safely_bind; [destruct reset; [by apply safely_modify | apply safely_ret] | intros _]);
    apply safely_tokens; intros toks Ht;
    (apply safely_bind; [| intros stack; apply safely_lift, finalVoltage_fuel]);
    apply machine_safely, Forall_forall; intros tok Hin; apply voltageToken_safely; intros k Hk def Hdef;
    pose proof (Hs toks tok k Ht Hin Hk); [lia |].
  apply IH. intros ts t k' H1 H2 H3. specialize (Hdef ts t k' H1 H2 H3). lia.
Qed.

(** A voltage equation can be calculated when threshold definitions are not
    cyclic: if the thresholds named by the definition of a threshold have a lower
    rank than it, an equation that names thresholds of rank below [fuel] ends
    with a voltage or an exception within [fuel] nested calls. *)
Theorem CalculateVoltage_terminates fuel s theType permit reset st :
  acyclic rank st -> ranked rank fuel s ->
  CalculateVoltage macros (S fuel) s theType permit reset st <> Err OutOfFuel.
Proof.
  intros Ha Hs E. pose proof (CalculateVoltage_safely fuel s theType permit reset Hs st Ha) as H. by rewrite E in H.
Qed.
End Ranks.

(** A threshold defined by itself is calculated for ever. *)
Lemma CalculateVoltage_cyclic macros st l :
  macros "Vth[nch]" = None -> lookupKey "M nch" (voltageModels st) = Some l -> listVth l = UNKNOWN_VOLTAGE ->
  listVthDefinition l = "Vth[nch]" ->
  forall fuel theType permit, CalculateVoltage macros fuel "Vth[nch]" theType permit false st = Err OutOfFuel.
Proof.
  intros Hm Hl Hv Hd fuel. induction fuel as [| fuel IH]; intros theType permit; [done |].
  cbn [CalculateVoltage]. change (IsValidVoltage_ "Vth[nch]") with false.
  change (postfix "Vth[nch]") with (Ok (A := list string) ["Vth[nch]"]). cbn [when]. unfold mbind, M_bind, mret, M_ret, lift.
  cbn [machine]. change (occursIn machineOperators "Vth[nch]") with false. cbn iota. unfold voltageToken.
  change (isalpha (firstChar "Vth[nch]")) with true. rewrite Hm. change (vthKey "Vth[nch]") with (Some "M nch").
  cbn iota. unfold gets, mbind, M_bind. rewrite Hl, Hv, Hd. change (UNKNOWN_VOLTAGE =? UNKNOWN_VOLTAGE) with true.
  cbn beta iota. rewrite IH. done.
Qed.

(** ** Examples *)

(** Regular expressions on cell names without special characters. *)
Definition literalMatch (p s : string) : bool :=
  bool_decide (p = String.append "(" (String.append s (String.append ")|(" (String.append s ")")))).

Definition addModels (l : list string) : list (string * CModelList) :=
  match foldl (fun x s => '(m, e) ← x; AddModel (fun _ => true) m e s) (Ok ([], false)) l with
  | Ok (m, false) => m
  | _ => []
  end.
Definition exampleModels : list (string * CModelList) := addModels
  ["MN nch Vth=0.3 Vgs=1.2 condition=(L<0.4u,CELL=inv)"; "MN nch Vth=0.3 Vgs=3.3"; "R res"; "MN low Vth=Vth[nch]/2"].

Definition exampleCircuits : list modelCircuit :=
  [mkModelCircuit "inv" true [mkModelDevice "M nch L=0.2u W=2u" [0; 1; 2; 3]; mkModelDevice "M nch L=0.6u W=6u" [0; 1; 2; 3];
                              mkModelDevice "M nch L=0.2u W=1u" [0; 1; 2; 3]];
   mkModelCircuit "nand" false [mkModelDevice "M unused" [0; 1; 2; 3]];
   mkModelCircuit "top" true [mkModelDevice "M nch L=0.2u W=2u" [0; 1; 2; 3]; mkModelDevice "R res R=2k" [0; 1]]].

Lemma validModels_all m : forallb (fun kl => forallb validModel (entries kl.2)) m = true -> validModels m.
Proof.
  intros H [k i] x. unfold entryOf. cbn. induction m as [| [k' l] m IH]; cbn in *; [done |].
  apply andb_true_iff in H as [Hl Hm]. case_bool_decide; [| by apply IH]. cbn.
  intros E%list_elem_of_lookup_2. rewrite forallb_forall in Hl. by apply Hl, list_elem_of_In.
Qed.

(** The devices of a model after a run. *)
Definition devicesOf (o : outcome (bool * chainState * voltageState)) (ref : modelRef) : bool * list deviceRef :=
  match o with
  | Ok (ok, st, _) => (ok, reverse (filter (fun d => modelOf st !! d = Some ref) (linkedDevices 0 exampleCircuits)))
  | Err _ => (false, [])
  end.
Abbreviation exampleRun :=
  (SetDeviceModels (fun _ => true) literalMatch 2 (fun _ => None) false exampleCircuits ∅ (mkVoltageState "" exampleModels)).

Lemma SetDeviceModels_chains_witness :
  exists st vs', exampleRun = Ok (true, st, vs') /\
    chainOf st ("M nch", 0%nat) [(0, 2); (0, 0)]%nat /\ chainOf st ("M nch", 1%nat) [(2, 0); (0, 1)]%nat.
Proof.
  assert (devicesOf exampleRun ("M nch", 0%nat) = (true, [(0, 2); (0, 0)]%nat)) as H0 by (vm_compute; reflexivity).
  assert (devicesOf exampleRun ("M nch", 1%nat) = (true, [(2, 0); (0, 1)]%nat)) as H1 by (vm_compute; reflexivity).
  destruct exampleRun as [[[ok st] vs'] | e] eqn:E; [| discriminate H0].
  destruct (SetDeviceModels_chains (fun _ => true) literalMatch 2 (fun _ => None) false exampleCircuits
              (mkVoltageState "" exampleModels) ok st vs'
              (validModels_all exampleModels ltac:(vm_compute; reflexivity)) E) as [H _].
  injection H0 as -> H0. injection H1 as H1. exists st, vs'. split; [reflexivity |].
  rewrite <- H0 at 1. rewrite <- H1 at 1. split; apply H.
Defined.

Lemma FindModel_first_witness :
  exists r, FindModel (fun _ => true) literalMatch exampleModels "nand" "M nch L=0.2u W=2u" ∅ = Ok (Some ("M nch", 1%nat), r) /\
    exists x p, (l ← lookupKey "M nch" exampleModels; entries l !! 1%nat) = Some x /\
      ParameterMatch (fun _ => true) literalMatch x p "nand" = Ok true.
Proof.
  assert (match FindModel (fun _ => true) literalMatch exampleModels "nand" "M nch L=0.2u W=2u" ∅ with
          | Ok (Some ref, _) => bool_decide (ref = ("M nch", 1%nat)) | _ => false end = true) as H by (vm_compute; reflexivity).
  destruct (FindModel (fun _ => true) literalMatch exampleModels "nand" "M nch L=0.2u W=2u" ∅)
    as [[[ref |] r] |] eqn:E; [| discriminate H | discriminate H]. apply bool_decide_eq_true in H. subst ref.
  exists r. split; [reflexivity |].
  destruct (FindModel_first (fun _ => true) literalMatch exampleModels "nand" "M nch L=0.2u W=2u" ∅ "M nch" 1 r E)
    as (s & p & l & x & v & _ & _ & Hl & _ & Hx & Hm & _).
  exists x, p. split; [rewrite Hl; exact Hx | exact Hm].
Defined.


Lemma lookupKey_in k m l : lookupKey k m = Some l -> (k, l) ∈ m.
Proof.
  induction m as [| [k' l'] m IH]; cbn; [done |]. case_bool_decide as E; [intros [= <-]; subst; by left | right; by apply IH].
Qed.

Definition exampleRank (k : string) : nat := if bool_decide (k = "M low") then 1 else 0.

Lemma ranked_all rank n s toks :
  equationTokens s = Ok toks ->
  forallb (fun tok => match vthKey tok with Some k => (rank k <? n)%nat | None => true end) toks = true ->
  ranked rank n s.
Proof.
  intros E H toks' tok k E' Hin Hk. rewrite E in E'. injection E' as <-. rewrite forallb_forall in H.
  specialize (H tok (proj1 (list_elem_of_In _ _) Hin)). rewrite Hk in H. by apply Nat.ltb_lt.
Qed.

(** [acyclic] as a test. *)
Lemma acyclic_all rank st :
  forallb (fun kl => match equationTokens (listVthDefinition kl.2) with
                     | Ok toks => forallb (fun tok => match vthKey tok with
                                                      | Some k => (rank k <? rank kl.1)%nat
                                                      | None => true
                                                      end) toks
                     | Err _ => true
                     end) (voltageModels st) = true -> acyclic rank st.
Proof.
  intros H k l Hl%lookupKey_in%list_elem_of_In toks tok k' E Hin Hk. rewrite forallb_forall in H.
  specialize (H _ Hl). cbn [fst snd] in H. rewrite E in H. by apply (ranked_all rank (rank k) _ toks E H toks tok).
Qed.

Lemma CalculateVoltage_terminates_witness :
  CalculateVoltage (fun _ => None) 3 "Vth[low]+1.2" SIM_POWER false true (mkVoltageState "" exampleModels) <> Err OutOfFuel.
Proof.
  apply (CalculateVoltage_terminates (fun _ => None) exampleRank).
  - apply (acyclic_all exampleRank). vm_compute. reflexivity.
  - eapply ranked_all; vm_compute; reflexivity.
Defined.

(** A second run keeps the [nextDevice_p] of the first: with the second device
    as the only one of its model, the chain goes on to the first device, which
    belongs to another model. *)
Example stale_next :
  match SetDeviceModels (fun _ => true) literalMatch 2 (fun _ => None) false
    [mkModelCircuit "inv" true [mkModelDevice "M nch L=0.2u W=2u" [0; 1; 2; 3]; mkModelDevice "M low L=0.6u W=6u" [0; 1; 2; 3]]]
    {[ (0, 1)%nat := (0, 0)%nat ]} (mkVoltageState "" exampleModels) with
  | Ok (ok, st, _) => (ok, firstDevice st !! ("M low", 0%nat), nextDevice st !! (0, 1)%nat, modelOf st !! (0, 0)%nat)
  | Err _ => (false, None, None, None)
  end = (true, Some (0, 1)%nat, Some (0, 0)%nat, Some ("M nch", 0%nat)).
Proof. vm_compute. reflexivity. Qed.

End Model.
