(* ===== verification/Hierarchy.v ===== *)
(** * Circuits and their hierarchy (CCircuit.cc, CCvcDb_init.cc)

    A circuit is read with names for its signals, numbered as they appear; the
    calls of subcircuits are then linked to the circuits they name, and each
    circuit counts its devices, nets and instances with everything below it. *)

From S2P Require Import Prelude CvcTypes Db.
From stdpp Require Import base list strings gmap.
From Stdlib Require Import ZArith Lia Ascii.
#[local] Open Scope string_scope.
#[local] Open Scope list_scope.
#[local] Open Scope Z_scope.

Module Hierarchy.
Import Db.Db.

(** ** Reading a circuit *)

(** [CTextNetIdMap] *)
Abbreviation signalMap := (gmap string Z).

(** A device as the parser builds it; [cdlParameters] is [None] for the null
    pointer. *)
Record cdlDevice : Type := mkCdl {
  cdlName : string;
  cdlSignals : list string;
  cdlParameters : option string;
  cdlMaster : string
}.
Definition IsSubcircuit (d : cdlDevice) : bool :=
  match cdlName d, cdlParameters d with
  | String c _, None => Ascii.eqb c "X"%char
  | _, _ => false
  end.

(** [AddPortSignalIds]: the map and [portCount]. *)
Fixpoint AddPortSignalIds (thePortList : list string) (st : signalMap * Z) : outcome (signalMap * Z) :=
  match thePortList with
  | [] => Ok st
  | p :: l =>
      match st.1 !! p with
      | Some _ => throw EFatalError
      | None => AddPortSignalIds l (<[p := st.2]> st.1, u32 (st.2 + 1))
      end
  end.

(** [SetSignalIds]: a new name gets the size of the map as its number. *)
Definition signalId (m : signalMap) (s : string) : signalMap * Z :=
  match m !! s with
  | Some i => (m, i)
  | None => let i := u32 (Z.of_nat (size m)) in (<[s := i]> m, i)
  end.
Fixpoint SetSignalIds (l : list string) (m : signalMap) : signalMap * list Z :=
  match l with
  | [] => (m, [])
  | s :: l => let '(m, i) := signalId m s in let '(m, v) := SetSignalIds l m in (m, i :: v)
  end.

(** [model_p] is set by [SetDeviceModels]. *)
Definition noModel : CModel :=
  mkModel "" UNKNOWN UNKNOWN_VOLTAGE "" UNKNOWN_VOLTAGE UNKNOWN_VOLTAGE UNKNOWN_VOLTAGE UNKNOWN_VOLTAGE [] [].

(** [localSignalIdMap], [devicePtr_v], [subcircuitPtr_v] and [myDeviceIdMap]. *)
Record loadState : Type := mkLoad {
  loadSignals : signalMap;
  loadDevices : list CDevice;
  loadCalls : list CSubcircuit;
  loadNames : gset string
}.

Definition loadDevice (st : loadState) (d : cdlDevice) : outcome loadState :=
  let '(m, ids) := SetSignalIds (cdlSignals d) (loadSignals st) in
  if bool_decide (cdlName d ∈ loadNames st) then throw EDuplicateInstance
  else
    let names := {[ cdlName d ]} ∪ loadNames st in
    Ok (if IsSubcircuit d then
          mkLoad m (loadDevices st) (loadCalls st ++ [mkSubcircuit (cdlName d) ids (cdlMaster d) UNKNOWN_DEVICE]) names
        else
          mkLoad m (loadDevices st ++
            [mkDevice (cdlName d) ids noModel (default "" (cdlParameters d)) (u32 (Z.of_nat (length (loadDevices st))))])
            (loadCalls st) names).
Fixpoint LoadDevices (l : list cdlDevice) (st : loadState) : outcome loadState :=
  match l with
  | [] => Ok st
  | d :: l => st ← loadDevice st d; LoadDevices l st
  end.

(** The names of a map in the order of their numbers. *)
Definition nameOf (m : signalMap) (i : Z) : option string :=
  fst <$> (snd <$> list_find (fun kv => kv.2 = i) (map_to_list m)).
Definition numbered (m : signalMap) : list string := omap (nameOf m) (seqZ 0 (Z.of_nat (size m))).

(** The circuit of a [.SUBCKT]: its ports, then its devices. *)
Definition readCircuit (name : string) (thePortList : list string) (l : list cdlDevice) : outcome CCircuit :=
  '(m, ports) ← AddPortSignalIds thePortList (∅, 0);
  st ← LoadDevices l (mkLoad m [] [] ∅);
  let counts := replicate (length (loadDevices st)) (replicate 5 0) in
  Ok (mkCircuit UNKNOWN_DEVICE name (loadDevices st) counts counts ports 0 [] (loadCalls st)
        (u32 (Z.of_nat (size (loadSignals st)))) [] false 0 0 0 (numbered (loadSignals st))).

(** ** Numbers of signals *)

(** [m] numbers the names of [l] by their positions. *)
Record numbers (m : signalMap) (l : list string) : Prop := mkNumbers {
  num_at s i : m !! s = Some i <-> 0 <= i /\ l !! Z.to_nat i = Some s;
  num_size : size m = length l
}.

Lemma numbers_nil : numbers ∅ [].
Proof. split; [| done]. intros s i. rewrite lookup_empty, lookup_nil. naive_solver. Qed.

Lemma numbers_fresh m l s : numbers m l -> m !! s = None <-> s ∉ l.
Proof.
  intros [Ha _]. rewrite list_elem_of_lookup. split.
  - intros Hn [i Hi]. assert (m !! s = Some (Z.of_nat i)) by (apply Ha; rewrite Nat2Z.id; split; [lia | done]). congruence.
  - intros Hl. destruct (m !! s) as [i |] eqn:E; [| done]. apply Ha in E as [_ E]. exfalso. eauto.
Qed.

Lemma numbers_snoc m l s : numbers m l -> s ∉ l -> numbers (<[s := Z.of_nat (length l)]> m) (l ++ [s]).
Proof.
  intros Hn Hs. pose proof (proj2 (numbers_fresh m l s Hn) Hs) as Hm. destruct Hn as [Ha Hsz].
  split; [| rewrite map_size_insert_None by done; rewrite length_app; cbn; lia].
  intros t i. rewrite lookup_insert_Some, lookup_app_Some, Ha. split.
  - intros [[<- <-] | [Hne [? ?]]]; [| by auto]. split; [lia |]. right. rewrite Nat2Z.id.
    by replace (length l - length l)%nat with 0%nat by lia.
  - intros [Hi [Hl | [Hlen Hl]]].
    + right. split; [intros ->; apply Hs, list_elem_of_lookup; by exists (Z.to_nat i) | done].
    + left. apply list_lookup_singleton_Some in Hl as [Hz ->]. split; [done | lia].
Qed.

Lemma numbers_NoDup m l : numbers m l -> NoDup l.
Proof.
  intros [Ha _]. apply NoDup_alt. intros i j s Hi Hj.
  assert (m !! s = Some (Z.of_nat i)) by (apply Ha; rewrite Nat2Z.id; split; [lia | done]).
  assert (m !! s = Some (Z.of_nat j)) by (apply Ha; rewrite Nat2Z.id; split; [lia | done]).
  assert (Z.of_nat i = Z.of_nat j) by congruence. lia.
Qed.

Lemma nameOf_numbers m l i : numbers m l -> 0 <= i < Z.of_nat (length l) -> nameOf m i = l !! Z.to_nat i.
Proof.
  intros Hn Hi. pose proof (numbers_NoDup m l Hn) as Hd. destruct Hn as [Ha _].
  destruct (lookup_lt_is_Some_2 l (Z.to_nat i)) as [s Es]; [lia |]. rewrite Es.
  assert (m !! s = Some i) as Hm by (apply Ha; split; [lia | done]). unfold nameOf.
  destruct (list_find_elem_of (fun kv => kv.2 = i) (map_to_list m) (s, i)) as [[j [t k]] E];
    [by apply elem_of_map_to_list | done |].
  rewrite E. apply list_find_Some in E as (Hj & Hk & _). cbn in *. subst k.
  apply list_elem_of_lookup_2, elem_of_map_to_list, Ha in Hj as [_ Hj]. congruence.
Qed.

Lemma numbered_numbers m l : numbers m l -> numbered m = l.
Proof.
  intros Hn. unfold numbered. rewrite (num_size _ _ Hn). apply list_eq. intros k.
  assert (forall n, (n <= length l)%nat -> omap (nameOf m) (seqZ 0 (Z.of_nat n)) = take n l) as H.
  { induction n as [| n IH]; intros Hle; [done |].
    rewrite seqZ_S, omap_app, IH by lia. destruct (lookup_lt_is_Some_2 l n) as [s Es]; [lia |].
    rewrite (take_S_r l n s Es). f_equal. cbn. rewrite (nameOf_numbers m l) by (done || lia). rewrite Z.add_0_l, Nat2Z.id, Es. done. }
  by rewrite H, firstn_all.
Qed.

(** ** The circuit that is read *)

Lemma AddPortSignalIds_Ok ports : forall m l, numbers m l ->
  Z.of_nat (length l + length ports) < 2 ^ 32 -> NoDup (l ++ ports) ->
  exists m', AddPortSignalIds ports (m, Z.of_nat (length l)) = Ok (m', Z.of_nat (length (l ++ ports))) /\
             numbers m' (l ++ ports).
Proof.
  induction ports as [| p ports IH]; intros m l Hn Hlt Hd; cbn [AddPortSignalIds fst snd].
  { exists m. by rewrite app_nil_r. }
  assert (p ∉ l) as Hp. { apply NoDup_app in Hd as (_ & Hd & _). intros Hin. by apply (Hd p Hin), list_elem_of_here. }
  rewrite (proj2 (numbers_fresh m l p Hn) Hp).
  replace (l ++ p :: ports) with ((l ++ [p]) ++ ports) in * by (by rewrite <- app_assoc).
  replace (u32 (Z.of_nat (length l) + 1)) with (Z.of_nat (length (l ++ [p]))).
  2: { rewrite length_app, u32_id; cbn in *; lia. }
  apply IH; [by apply numbers_snoc | rewrite length_app; cbn in *; lia | done].
Qed.

Lemma AddPortSignalIds_Err ports : forall m l k,
  (forall s, m !! s = None <-> s ∉ l) -> NoDup l -> ~ NoDup (l ++ ports) -> AddPortSignalIds ports (m, k) = Err EFatalError.
Proof.
  induction ports as [| p ports IH]; intros m l k Hm Hl Hd; cbn [AddPortSignalIds fst snd].
  { by rewrite app_nil_r in Hd. }
  destruct (m !! p) eqn:E; [done |]. apply Hm in E. apply (IH _ (l ++ [p])).
  - intros s. rewrite lookup_insert_None, not_elem_of_app, Hm, list_elem_of_singleton. naive_solver.
  - apply NoDup_app. split_and!; [done | | apply NoDup_singleton]. intros x Hx ->%list_elem_of_singleton. done.
  - by rewrite <- app_assoc.
Qed.

(** The names in the order they are first seen. *)
Definition see (seen : list string) (s : string) : list string :=
  if bool_decide (s ∈ seen) then seen else seen ++ [s].
Definition firstSeen (seen l : list string) : list string := foldl see seen l.

Lemma see_prefix seen s : seen `prefix_of` see seen s.
Proof. unfold see. case_bool_decide; [done | by eexists]. Qed.
Lemma firstSeen_prefix l : forall seen, seen `prefix_of` firstSeen seen l.
Proof. induction l as [| s l IH]; intros seen; [done |]. etransitivity; [apply see_prefix | apply IH]. Qed.
Lemma firstSeen_length l : forall seen, (length (firstSeen seen l) <= length seen + length l)%nat.
Proof.
  induction l as [| s l IH]; intros seen; cbn; [lia |]. fold (firstSeen (see seen s) l).
  specialize (IH (see seen s)). unfold see in *. case_bool_decide; rewrite ?length_app in *; cbn in *; lia.
Qed.
Lemma firstSeen_elem l : forall seen s, s ∈ seen \/ s ∈ l -> s ∈ firstSeen seen l.
Proof.
  induction l as [| t l IH]; intros seen s H; cbn [firstSeen foldl].
  { by destruct H as [? | ?%not_elem_of_nil]. }
  apply IH. rewrite elem_of_cons in H. unfold see. case_bool_decide; [naive_solver |].
  rewrite elem_of_app, list_elem_of_singleton. naive_solver.
Qed.
Lemma firstSeen_NoDup l : forall seen, NoDup (seen ++ l) -> firstSeen seen l = seen ++ l.
Proof.
  induction l as [| s l IH]; intros seen Hd; cbn [firstSeen foldl]; [by rewrite app_nil_r |].
  unfold see. rewrite bool_decide_false.
  - replace (seen ++ s :: l) with ((seen ++ [s]) ++ l) in * by (by rewrite <- app_assoc). by apply IH.
  - apply NoDup_app in Hd as (_ & Hd & _). intros Hin. by apply (Hd s Hin), list_elem_of_here.
Qed.

(** The position of a name. *)
Definition idOf (names : list string) (s : string) : Z :=
  match list_find (s =.) names with Some (i, _) => Z.of_nat i | None => UNKNOWN_NET end.

Lemma idOf_numbers m names s : numbers m names -> s ∈ names -> m !! s = Some (idOf names s).
Proof.
  intros [Ha _] Hs. unfold idOf. destruct (list_find_elem_of (s =.) names s Hs eq_refl) as [[i t] E]. rewrite E.
  apply list_find_Some in E as (Hi & <- & _). apply Ha. rewrite Nat2Z.id. split; [lia | done].
Qed.
Lemma idOf_prefix names names' s : names `prefix_of` names' -> s ∈ names -> idOf names' s = idOf names s.
Proof.
  intros [k ->] Hs. unfold idOf. destruct (list_find_elem_of (s =.) names s Hs eq_refl) as [[i t] E].
  by rewrite (list_find_app_l _ _ _ i t E), E.
Qed.

Lemma signalId_spec m l s :
  numbers m l -> Z.of_nat (length l) < 2 ^ 32 ->
  exists m', signalId m s = (m', idOf (see l s) s) /\ numbers m' (see l s).
Proof.
  intros Hn Hlt. unfold signalId, see. case_bool_decide as Hs.
  - rewrite (idOf_numbers m l s Hn Hs). eauto.
  - rewrite (proj2 (numbers_fresh m l s Hn) Hs). rewrite (num_size _ _ Hn), u32_id by lia.
    pose proof (numbers_snoc m l s Hn Hs) as Hn'. eexists. split; [| done]. f_equal.
    assert (s ∈ l ++ [s]) as Hin by (apply elem_of_app; right; by apply list_elem_of_singleton).
    pose proof (idOf_numbers _ _ s Hn' Hin) as E. rewrite lookup_insert_eq in E. congruence.
Qed.

Lemma SetSignalIds_spec ss : forall m l,
  numbers m l -> Z.of_nat (length l + length ss) < 2 ^ 32 ->
  exists m', SetSignalIds ss m = (m', map (idOf (firstSeen l ss)) ss) /\ numbers m' (firstSeen l ss).
Proof.
  induction ss as [| s ss IH]; intros m l Hn Hlt; cbn [SetSignalIds map firstSeen foldl]; [eauto |].
  cbn [length] in Hlt. destruct (signalId_spec m l s Hn) as (m1 & -> & H1); [lia |].
  destruct (IH m1 (see l s) H1) as (m2 & -> & H2).
  { pose proof (firstSeen_length [s] l). cbn in *. lia. }
  exists m2. split; [| done]. do 2 f_equal. symmetry. apply idOf_prefix; [apply firstSeen_prefix |].
  apply (firstSeen_elem [s] l). right. by apply list_elem_of_singleton.
Qed.

(** What a device and a call become, by the names of the circuit. *)
Definition deviceAs (names : list string) (k : nat) (d : cdlDevice) : CDevice :=
  mkDevice (cdlName d) (map (idOf names) (cdlSignals d)) noModel (default "" (cdlParameters d)) (u32 (Z.of_nat k)).
Definition callAs (names : list string) (d : cdlDevice) : CSubcircuit :=
  mkSubcircuit (cdlName d) (map (idOf names) (cdlSignals d)) (cdlMaster d) UNKNOWN_DEVICE.

Definition namesOf (ports : list string) (l : list cdlDevice) : list string :=
  firstSeen ports (concat (map cdlSignals l)).

Definition circuitAs (name : string) (ports : list string) (l : list cdlDevice) : CCircuit :=
  let names := namesOf ports l in
  let devices := filter (fun d => IsSubcircuit d = false) l in
  let counts := replicate (length devices) (replicate 5 0) in
  mkCircuit UNKNOWN_DEVICE name (imap (deviceAs names) devices) counts counts (Z.of_nat (length ports)) 0 []
    (map (callAs names) (filter (fun d => IsSubcircuit d = true) l)) (Z.of_nat (length names)) [] false 0 0 0 names.

Lemma map_idOf_prefix names names' ss :
  names `prefix_of` names' -> (forall s, s ∈ ss -> s ∈ names) -> map (idOf names') ss = map (idOf names) ss.
Proof.
  intros Hp Hs. apply map_ext_in. intros s Hin%list_elem_of_In. apply idOf_prefix; auto.
Qed.

Lemma LoadDevices_Ok l : forall st seen, numbers (loadSignals st) seen ->
  Z.of_nat (length seen + length (concat (map cdlSignals l))) < 2 ^ 32 ->
  NoDup (map cdlName l) -> (forall d, d ∈ l -> cdlName d ∉ loadNames st) ->
  let names := namesOf seen l in
  exists st', LoadDevices l st = Ok st' /\ numbers (loadSignals st') names /\
    loadDevices st' = loadDevices st ++
      imap (fun k => deviceAs names (length (loadDevices st) + k)) (filter (fun d => IsSubcircuit d = false) l) /\
    loadCalls st' = loadCalls st ++ map (callAs names) (filter (fun d => IsSubcircuit d = true) l).
Proof.
  induction l as [| d l IH]; intros st seen Hn Hlt Hd Hf; cbn [LoadDevices].
  { exists st. cbn. by rewrite !app_nil_r. }
  cbn [map concat] in *. rewrite length_app in Hlt. apply NoDup_cons in Hd as [Hd1 Hd2]. unfold loadDevice.
  destruct (SetSignalIds_spec (cdlSignals d) (loadSignals st) seen Hn) as (m & -> & Hm); [lia |].
  rewrite bool_decide_false by (apply Hf; by left). cbn [mbind outcome_bind].
  set (seen' := firstSeen seen (cdlSignals d)) in *.
  assert (namesOf seen (d :: l) = namesOf seen' l) as En by (unfold namesOf, firstSeen; cbn; by rewrite foldl_app).
  pose proof (firstSeen_length (cdlSignals d) seen) as Hlen. fold seen' in Hlen.
  assert (map (idOf seen') (cdlSignals d) = map (idOf (namesOf seen (d :: l))) (cdlSignals d)) as Ei.
  { rewrite En. symmetry. apply map_idOf_prefix; [apply firstSeen_prefix |]. intros s Hs. apply firstSeen_elem. auto. }
  rewrite Ei. match goal with |- context [LoadDevices l ?x] => set (st1 := x) end.
  assert (loadSignals st1 = m /\ loadNames st1 = {[cdlName d]} ∪ loadNames st) as [E1 E2]
    by (unfold st1; by destruct (IsSubcircuit d)).
  destruct (IH st1 seen') as (st' & -> & H1 & H2 & H3); [by rewrite E1 | lia | done | |].
  { intros e He. rewrite E2, not_elem_of_union, not_elem_of_singleton. split; [| apply Hf; by right].
    intros E. apply Hd1. rewrite <- E. by apply list_elem_of_In, in_map, list_elem_of_In. }
  exists st'. rewrite En. split; [done |]. split; [done |]. unfold st1 in H2, H3.
  destruct (IsSubcircuit d) eqn:Es; cbn [loadDevices loadCalls] in H2, H3; split.
  - rewrite H2, filter_cons_False by congruence. done.
  - rewrite H3, filter_cons_True by done. cbn [map]. by rewrite <- app_assoc, <- En.
  - rewrite H2, filter_cons_True by done. cbn [imap]. rewrite <- app_assoc, <- En. cbn [app]. f_equal.
    unfold deviceAs at 2. rewrite Nat.add_0_r. f_equal. apply imap_ext. intros k x _. unfold compose.
    f_equal. rewrite length_app. cbn. lia.
  - by rewrite H3, filter_cons_False by congruence.
Qed.

Lemma LoadDevices_Err l : forall st, (exists d, d ∈ l /\ cdlName d ∈ loadNames st) \/ ~ NoDup (map cdlName l) ->
  LoadDevices l st = Err EDuplicateInstance.
Proof.
  induction l as [| d l IH]; intros st H; cbn [LoadDevices].
  { destruct H as [(d & Hd & _) | H]; [by apply not_elem_of_nil in Hd |]. destruct H. constructor. }
  unfold loadDevice. destruct (SetSignalIds _ _) as [m ids]. case_bool_decide as Hin; [done |]. cbn [mbind outcome_bind].
  apply IH. cbn [map] in H. rewrite NoDup_cons in H.
  assert (forall st', loadNames st' = {[cdlName d]} ∪ loadNames st ->
    (exists e, e ∈ l /\ cdlName e ∈ loadNames st') \/ ~ NoDup (map cdlName l)) as Hst.
  { intros st' ->. destruct H as [(e & [-> | He]%elem_of_cons & Hn) | H]; [done | left; exists e; set_solver |].
    destruct (decide (cdlName d ∈ map cdlName l)) as [Hd |]; [left | right; tauto].
    apply list_elem_of_In, in_map_iff in Hd as (e & E & He%list_elem_of_In). exists e. set_solver. }
  destruct (IsSubcircuit d); by apply Hst.
Qed.

(** The signals of the devices and calls of a circuit are its own, and its ports
    come first. *)
Record circuit_typed (c : CCircuit) : Prop := mkTyped {
  typed_ports : 0 <= portCount c <= localSignalCount c;
  typed_devices : Forall (fun d => Forall (fun i => 0 <= i < localSignalCount c) (signalId_v d)) (devicePtr_v c);
  typed_calls : Forall (fun s => Forall (fun i => 0 <= i < localSignalCount c) (portSignalId_v s)) (subcircuitPtr_v c);
  typed_names : Z.of_nat (length (signalName_v c)) = localSignalCount c
}.

Lemma idOf_range names s : s ∈ names -> 0 <= idOf names s < Z.of_nat (length names).
Proof.
  intros Hs. unfold idOf. destruct (list_find_elem_of (s =.) names s Hs eq_refl) as [[i t] E]. rewrite E.
  apply list_find_Some in E as (Hi & _). apply lookup_lt_Some in Hi. lia.
Qed.

Lemma namesOf_elem ports l d s : d ∈ l -> s ∈ cdlSignals d -> s ∈ namesOf ports l.
Proof.
  intros Hd Hs. apply firstSeen_elem. right. apply list_elem_of_In, in_concat. exists (cdlSignals d).
  split; [by apply in_map, list_elem_of_In | by apply list_elem_of_In].
Qed.

Lemma circuitAs_typed name ports l : circuit_typed (circuitAs name ports l).
Proof.
  assert (forall d, d ∈ l -> Forall (fun i => 0 <= i < Z.of_nat (length (namesOf ports l)))
            (map (idOf (namesOf ports l)) (cdlSignals d))) as H.
  { intros d Hd. apply Forall_forall. intros i Hi%list_elem_of_In. apply in_map_iff in Hi as (s & <- & Hs%list_elem_of_In).
    by apply idOf_range, (namesOf_elem _ _ d). }
  split; cbn.
  - split; [lia |]. pose proof (prefix_length _ _ (firstSeen_prefix (concat (map cdlSignals l)) ports)). unfold namesOf. lia.
  - apply Forall_forall. intros d Hd. apply elem_of_lookup_imap in Hd as (k & e & -> & He%list_elem_of_lookup_2).
    apply list_elem_of_filter in He as [_ He]. by apply H.
  - apply Forall_forall. intros c Hc%list_elem_of_In. apply in_map_iff in Hc as (e & <- & He%list_elem_of_In).
    apply list_elem_of_filter in He as [_ He]. by apply H.
  - done.
Qed.

(** C20: A circuit is read to well-formed numbers or rejected: with distinct port
    names and distinct device names the signals are numbered in the order they
    are first seen, the ports first, the devices and the subcircuit calls keep
    their order with each signal replaced by its number, and every number is
    below the count of signals, each of which has its name; a repeated port is an [EFatalError], a repeated
    device or call an [EDuplicateInstance]. *)
Theorem readCircuit_typed name ports l :
  Z.of_nat (length ports + length (concat (map cdlSignals l))) < 2 ^ 32 ->
  readCircuit name ports l =
    (if bool_decide (NoDup ports) then
       if bool_decide (NoDup (map cdlName l)) then Ok (circuitAs name ports l) else Err EDuplicateInstance
     else Err EFatalError) /\
  circuit_typed (circuitAs name ports l).
Proof.
  intros Hlt. split; [| apply circuitAs_typed]. unfold readCircuit. case_bool_decide as Hp.
  - destruct (AddPortSignalIds_Ok ports ∅ [] numbers_nil) as (m & E & Hm); [cbn; lia | done |].
    change (Z.of_nat (length [])) with 0 in E. cbn [app] in E, Hm. rewrite E. cbn [mbind outcome_bind]. case_bool_decide as Hd.
    + destruct (LoadDevices_Ok l (mkLoad m [] [] ∅) ports Hm Hlt Hd) as (st & -> & H1 & H2 & H3);
        [intros; apply not_elem_of_empty |].
      cbn [mbind outcome_bind loadDevices loadCalls app length] in *. rewrite H2, H3.
      unfold circuitAs. rewrite (numbered_numbers _ _ H1), (num_size _ _ H1), u32_id, length_imap; [done |].
      pose proof (firstSeen_length (concat (map cdlSignals l)) ports). unfold namesOf. lia.
    + by rewrite (LoadDevices_Err l) by auto.
  - rewrite (AddPortSignalIds_Err ports ∅ []); [done | | constructor | done].
    intros s. rewrite lookup_empty. split; [intros _; apply not_elem_of_nil | done].
Qed.

Definition inverterText : list cdlDevice :=
  [mkCdl "MN1" ["out"; "in"; "vss"; "vss"] (Some "M nch") ""; mkCdl "X1" ["out"; "mid"] None "cap";
   mkCdl "MP1" ["out"; "in"; "vdd"; "vdd"] (Some "M pch") ""].

Lemma readCircuit_typed_witness :
  exists c, readCircuit "inv" ["in"; "out"; "vdd"; "vss"] inverterText = Ok c /\ circuit_typed c /\
    localSignalCount c = 5 /\ map signalId_v (devicePtr_v c) = [[1; 0; 3; 3]; [1; 0; 2; 2]] /\
    map portSignalId_v (subcircuitPtr_v c) = [[1; 4]].
Proof.
  destruct (readCircuit_typed "inv" ["in"; "out"; "vdd"; "vss"] inverterText) as [-> H]; [cbn; lia |].
  exists (circuitAs "inv" ["in"; "out"; "vdd"; "vss"] inverterText). split; [reflexivity |]. split; [exact H |].
  split_and!; reflexivity.
Defined.

End Hierarchy.
