(* ===== verification/Counting.v ===== *)
(** * Linking and counting the hierarchy (CCircuit.cc, CCvcDb_init.cc)

    [CountObjectsAndLinkSubcircuits] resolves the calls of the circuits below
    the top circuit and leaves in each of them the number of its instances and
    the totals of devices, nets and subcircuits below it, visiting the calls of
    a circuit only once.  The reference is the list of all instances of the
    expanded hierarchy. *)

From S2P Require Import Prelude CvcTypes Db Hierarchy.
From stdpp Require Import base list strings gmap.
From Stdlib Require Import ZArith Lia.
#[local] Open Scope string_scope.
#[local] Open Scope list_scope.
#[local] Open Scope Z_scope.

Module Counting.
Import Db.Db Hierarchy.Hierarchy.

(** ** The code *)

Abbreviation CT := (M (list CCircuit)).

Definition circuitAt (k : Z) : CT CCircuit := fun cs => c ← vget cs k; Ok (c, cs).
Definition updateCircuit (k : Z) (f : CCircuit -> CCircuit) : CT unit :=
  fun cs => c ← vget cs k; Ok (tt, vupdate cs k (f c)).

Fixpoint forEach {S A} (l : list A) (body : A -> M S unit) : M S unit :=
  match l with
  | [] => mret tt
  | x :: l => _ ← body x; forEach l body
  end.

(** The members that counting and linking change. *)
Definition set_link (instances : Z) (calls : list CSubcircuit) (l : bool) (nets devices subcircuits : Z)
    (c : CCircuit) : CCircuit :=
  mkCircuit (errorLimit c) (circuitName c) (devicePtr_v c) (deviceErrorCount_v c) (devicePrintCount_v c)
    (portCount c) instances (instanceId_v c) calls (localSignalCount c) (instanceHashId_v c) l nets devices subcircuits
    (signalName_v c).

Definition startCounts (nets : Z) (c : CCircuit) : CCircuit :=
  set_link (instanceCount c) (subcircuitPtr_v c) (linked c) nets (u32 (Z.of_nat (length (devicePtr_v c))))
    (u32 (Z.of_nat (length (subcircuitPtr_v c)))) c.
Definition setMaster (j : nat) (m : Z) (c : CCircuit) : CCircuit :=
  set_link (instanceCount c)
    (alter (fun s => mkSubcircuit (subcircuitName s) (portSignalId_v s) (masterName s) m) j (subcircuitPtr_v c))
    (linked c) (totalNets c) (totalDevices c) (totalSubcircuits c) c.
Definition addInstance (c : CCircuit) : CCircuit :=
  set_link (u32 (instanceCount c + 1)) (subcircuitPtr_v c) (linked c) (totalNets c) (totalDevices c)
    (totalSubcircuits c) c.
Definition addTotals (child : CCircuit) (c : CCircuit) : CCircuit :=
  set_link (instanceCount c) (subcircuitPtr_v c) (linked c) (u32 (totalNets c + totalNets child))
    (u32 (totalDevices c + totalDevices child)) (u32 (totalSubcircuits c + totalSubcircuits child)) c.
Definition setLinked (c : CCircuit) : CCircuit :=
  set_link (instanceCount c) (subcircuitPtr_v c) true (totalNets c) (totalDevices c) (totalSubcircuits c) c.

(** [LocalNetCount] *)
Definition LocalNetCount (c : CCircuit) : outcome Z :=
  _ ← assert_ (portCount c <=? localSignalCount c); Ok (u32 (localSignalCount c - portCount c)).

(** [circuitNameMap]: the last circuit of a name. *)
Fixpoint lastNamed (name : string) (k : Z) (found : option Z) (cs : list CCircuit) : option Z :=
  match cs with
  | [] => found
  | c :: cs => lastNamed name (k + 1) (if bool_decide (circuitName c = name) then Some k else found) cs
  end.
Definition FindCircuit (cs : list CCircuit) (name : string) : option Z := lastNamed name 0 None cs.

(** [fuel] bounds the depth of the hierarchy. *)
Fixpoint CountInstantiations (fuel : nat) (k : Z) : CT unit :=
  match fuel with
  | O => raise OutOfFuel
  | S fuel =>
      c ← circuitAt k;
      forEach (subcircuitPtr_v c) (fun s =>
        let m := masterCircuit_p s in
        child ← circuitAt m;
        _ ← assertM (linked child);
        _ ← when (0 <? totalSubcircuits child) (CountInstantiations fuel m);
        updateCircuit m addInstance)
  end.

(** One call of circuit [k]; [recurse] counts the circuit it names. *)
Definition countCall (fuel : nat) (recurse : Z -> CT unit) (k : Z) (j : nat) : CT unit :=
  c ← circuitAt k;
  s ← lift (match subcircuitPtr_v c !! j with Some s => Ok s | None => throw UndefinedBehaviour end);
  found ← gets (fun cs => FindCircuit cs (masterName s));
  match found with
  | None => raise EFatalError
  | Some m =>
      _ ← updateCircuit k (setMaster j m);
      child ← circuitAt m;
      _ ← (if linked child then when (0 <? totalSubcircuits child) (CountInstantiations fuel m) else recurse m);
      child ← circuitAt m;
      if negb (Z.of_nat (length (portSignalId_v s)) =? portCount child) then raise EFatalError
      else
        _ ← updateCircuit m addInstance;
        child ← circuitAt m;
        updateCircuit k (addTotals child)
  end.

Fixpoint countCircuit (fuel : nat) (k : Z) : CT unit :=
  match fuel with
  | O => raise OutOfFuel
  | S fuel =>
      c ← circuitAt k;
      nets ← lift (LocalNetCount c);
      _ ← updateCircuit k (startCounts nets);
      _ ← forEach (seq 0 (length (subcircuitPtr_v c))) (countCall fuel (countCircuit fuel) k);
      updateCircuit k setLinked
  end.

Definition MAX_ITEMS : Z := 2 ^ 32 - 2.

(** [CCvcDb::CountObjectsAndLinkSubcircuits]; the result is [topCircuit_p]. *)
Definition CountObjectsAndLinkSubcircuits (fuel : nat) (cvcTopBlock : string) : CT Z :=
  found ← gets (fun cs => FindCircuit cs cvcTopBlock);
  match found with
  | None => raise EFatalError
  | Some t =>
      _ ← countCircuit fuel t;
      _ ← updateCircuit t (fun c =>
            set_link (u32 (instanceCount c + 1)) (subcircuitPtr_v c) (linked c) (u32 (totalNets c + portCount c))
              (totalDevices c) (u32 (totalSubcircuits c + 1)) c);
      c ← circuitAt t;
      if (MAX_ITEMS <? totalNets c) || (MAX_ITEMS <? totalSubcircuits c) || (MAX_ITEMS <? totalDevices c)
      then raise EFatalError else mret t
  end.

(** ** The expanded hierarchy *)

Section Expansion.
Context (cs0 : list CCircuit).

(** The circuits a circuit calls. *)
Definition kids (k : Z) : list Z :=
  match vlookup cs0 k with
  | Some c => map (fun s => default UNKNOWN_DEVICE (FindCircuit cs0 (masterName s))) (subcircuitPtr_v c)
  | None => []
  end.

(** The circuits of all instances from an instance of [k] on. *)
Fixpoint expandFrom (fuel : nat) (k : Z) : list Z :=
  match fuel with
  | O => []
  | S fuel => k :: concat (map (expandFrom fuel) (kids k))
  end.

Definition sumOf (f : Z -> Z) (l : list Z) : Z := foldr (fun x n => f x + n) 0 l.

Lemma sumOf_app f l l' : sumOf f (l ++ l') = sumOf f l + sumOf f l'.
Proof. unfold sumOf. induction l as [| x l IH]; cbn; lia. Qed.
Lemma sumOf_concat f ls : sumOf f (concat ls) = foldr (fun l n => sumOf f l + n) 0 ls.
Proof. induction ls as [| l ls IH]; [done |]. cbn [concat foldr]. by rewrite sumOf_app, IH. Qed.
Lemma sumOf_nonneg f l : (forall x, 0 <= f x) -> 0 <= sumOf f l.
Proof. intros Hf. unfold sumOf. induction l as [| x l IH]; cbn; [lia |]. specialize (Hf x). lia. Qed.
Lemma sumOf_ext f g l : (forall x, x ∈ l -> f x = g x) -> sumOf f l = sumOf g l.
Proof.
  intros H. unfold sumOf. induction l as [| x l IH]; cbn; [done |].
  rewrite (H x), IH; [done | intros; apply H; by right | by left].
Qed.


(** ** Designs without recursion *)

(** The circuits [R] in use: their calls name circuits in use, with as many
    signals as the circuit has ports, and go down in rank. *)
Record linkable (rank : Z -> nat) (R : Z -> Prop) : Prop := mkLinkable {
  lk_exists k : R k -> exists c, vlookup cs0 k = Some c /\ 0 <= portCount c <= localSignalCount c;
  lk_calls k c : R k -> vlookup cs0 k = Some c -> Forall (fun s =>
    exists m d, FindCircuit cs0 (masterName s) = Some m /\ vlookup cs0 m = Some d /\
      Z.of_nat (length (portSignalId_v s)) = portCount d /\ R m /\ (rank m < rank k)%nat) (subcircuitPtr_v c)
}.

Context (rank : Z -> nat) (R : Z -> Prop) (HL : linkable rank R).

Lemma kids_R k : R k -> Forall (fun m => R m /\ (rank m < rank k)%nat) (kids k).
Proof.
  intros Hk. destruct (lk_exists _ _ HL k Hk) as (c & Hc & _). unfold kids. rewrite Hc.
  apply Forall_map. eapply Forall_impl; [apply (lk_calls _ _ HL k c Hk Hc) |].
  intros s (m & d & E & _ & _ & Hm & Hr). cbn. by rewrite E.
Qed.

(** More fuel than the rank changes nothing. *)
Lemma expandFrom_enough n : forall m k, R k -> (rank k < n)%nat -> (rank k < m)%nat -> expandFrom n k = expandFrom m k.
Proof.
  induction n as [| n IH]; intros m k Hk Hn Hm; [lia |]. destruct m as [| m]; [lia |]. cbn [expandFrom]. do 2 f_equal.
  apply map_ext_in. intros x Hx%list_elem_of_In.
  destruct (proj1 (Forall_forall _ _) (kids_R k Hk) x Hx) as [HR Hr]. apply IH; [done | lia | lia].
Qed.

Definition expand (k : Z) : list Z := expandFrom (S (rank k)) k.

Lemma expand_eq k : R k -> expand k = k :: concat (map expand (kids k)).
Proof.
  intros Hk. unfold expand at 1. cbn [expandFrom]. do 2 f_equal. apply map_ext_in. intros x Hx%list_elem_of_In.
  destruct (proj1 (Forall_forall _ _) (kids_R k Hk) x Hx) as [HR Hr]. apply expandFrom_enough; [done | lia | lia].
Qed.

(** The sum of [f] over the instances. *)
Definition total (f : Z -> Z) (k : Z) : Z := sumOf f (expand k).

Lemma total_eq f k : R k -> total f k = f k + sumOf (total f) (kids k).
Proof.
  intros Hk. unfold total at 1. rewrite expand_eq by done. cbn [sumOf foldr]. fold (sumOf f (concat (map expand (kids k)))).
  f_equal. rewrite sumOf_concat. induction (kids k) as [| m l IH]; [done |]. cbn [map foldr sumOf]. by rewrite IH.
Qed.

(** The instances of [x] below an instance of [k]. *)
Definition same (x y : Z) : Z := if y =? x then 1 else 0.
Definition occurs (k x : Z) : Z := total (same x) k.
Definition below (k x : Z) : Z := sumOf (fun m => occurs m x) (kids k).

Lemma occurs_eq k x : R k -> occurs k x = same x k + below k x.
Proof. intros Hk. unfold occurs at 1. by rewrite total_eq. Qed.
Lemma same_nonneg x y : 0 <= same x y.
Proof. unfold same. destruct (_ =? _); lia. Qed.
Lemma occurs_nonneg k x : 0 <= occurs k x.
Proof. apply sumOf_nonneg. intros. apply same_nonneg. Qed.
Lemma below_nonneg k x : 0 <= below k x.
Proof. apply sumOf_nonneg. intros. apply occurs_nonneg. Qed.

(** Circuits of a rank that is not lower do not occur below. *)
Lemma occurs_rank n : forall k x, R k -> (rank k <= n)%nat -> (rank k < rank x)%nat \/ (rank k = rank x /\ k <> x) -> occurs k x = 0.
Proof.
  induction n as [| n IH]; intros k x Hk Hn Hr; rewrite occurs_eq by done;
    assert (same x k = 0) as -> by (unfold same; destruct (Z.eqb_spec k x); [subst; lia | done]);
    unfold below; (erewrite sumOf_ext; [instantiate (1 := fun _ => 0); unfold sumOf; induction (kids k); cbn; lia |]);
    intros m Hm; destruct (proj1 (Forall_forall _ _) (kids_R k Hk) m Hm) as [HR Hrm]; [lia |].
  apply IH; [done | lia | lia].
Qed.
Lemma below_self k : R k -> below k k = 0.
Proof.
  intros Hk. unfold below. erewrite sumOf_ext; [instantiate (1 := fun _ => 0); unfold sumOf; induction (kids k); cbn; lia |].
  intros m Hm. destruct (proj1 (Forall_forall _ _) (kids_R k Hk) m Hm) as [HR Hrm].
  apply (occurs_rank (rank m)); [done | lia | lia].
Qed.

(** Descendants of descendants. *)
Lemma sumOf_pos f l : (forall x, 0 <= f x) -> 0 < sumOf f l <-> exists x, x ∈ l /\ 0 < f x.
Proof.
  intros Hf. unfold sumOf. induction l as [| y l IH]; cbn [foldr].
  - split; [lia |]. by intros (x & Hx%not_elem_of_nil & _).
  - pose proof (sumOf_nonneg f l Hf) as Hn. unfold sumOf in Hn. pose proof (Hf y). split.
    + intros H1. destruct (decide (0 < f y)); [exists y; split; [by left | done] |].
      destruct (proj1 IH ltac:(lia)) as (x & Hx & ?). exists x. split; [by right | done].
    + intros (x & [-> | Hx]%elem_of_cons & Hp); [lia |]. assert (0 < foldr (fun x n => f x + n) 0 l) by (apply IH; eauto). lia.
Qed.

Lemma occurs_kids n : forall k x m, R k -> (rank k <= n)%nat -> 0 < occurs k x -> m ∈ kids x -> R x /\ 0 < occurs k m.
Proof.
  induction n as [| n IH]; intros k x m Hk Hn Ho Hm; rewrite occurs_eq in Ho by done;
    pose proof (proj1 (Forall_forall _ _) (kids_R k Hk)) as Hkids;
    assert (k = x \/ exists y, y ∈ kids k /\ 0 < occurs y x) as [<- | (y & Hy & Hp)]
      by (unfold same in Ho; destruct (Z.eqb_spec k x); [by left | right; apply (sumOf_pos (fun y => occurs y x));
          [intros; apply occurs_nonneg | fold (below k x); lia]]).
  1, 3: split; [done |]; rewrite occurs_eq by done; pose proof (same_nonneg m k);
    assert (0 < below k m); [| lia]; apply sumOf_pos; [intros; apply occurs_nonneg |]; exists m; split; [done |];
    rewrite occurs_eq by (by apply Hkids); pose proof (below_nonneg m m); unfold same; rewrite Z.eqb_refl; lia.
  - apply Hkids in Hy as [_ ?]. lia.
  - destruct (IH y x m) as [HRx Hym]; [by apply Hkids | apply Hkids in Hy as [_ ?]; lia | done | done |].
    split; [done |]. rewrite occurs_eq by done. pose proof (same_nonneg m k). assert (0 < below k m); [| lia].
    apply sumOf_pos; [intros; apply occurs_nonneg |]. by exists y.
Qed.

Lemma occurs_R k x : R k -> 0 < occurs k x -> R x.
Proof.
  intros Hk. remember (rank k) as n eqn:En. revert k Hk En. induction n as [n IH] using lt_wf_ind. intros k Hk -> Ho.
  rewrite occurs_eq in Ho by done. destruct (decide (k = x)) as [<- | Hne]; [done |].
  assert (same x k = 0) as E by (unfold same; by rewrite (proj2 (Z.eqb_neq _ _))).
  destruct (proj1 (sumOf_pos (fun y => occurs y x) (kids k) ltac:(intros; apply occurs_nonneg))) as (y & Hy & Hp).
  { fold (below k x). lia. }
  destruct (proj1 (Forall_forall _ _) (kids_R k Hk) y Hy) as [HR Hr]. by apply (IH (rank y) Hr y HR).
Qed.

(** ** What counting does to the circuits *)

Definition localNets (k : Z) : Z :=
  match vlookup cs0 k with Some c => localSignalCount c - portCount c | None => 0 end.
Definition localDevices (k : Z) : Z :=
  match vlookup cs0 k with Some c => Z.of_nat (length (devicePtr_v c)) | None => 0 end.
Definition localCalls (k : Z) : Z := Z.of_nat (length (kids k)).

(** The first [n] calls with their circuits. *)
Definition withMaster (s : CSubcircuit) (m : Z) : CSubcircuit :=
  mkSubcircuit (subcircuitName s) (portSignalId_v s) (masterName s) m.
Definition mastersTo (n : nat) (k : Z) (calls : list CSubcircuit) : list CSubcircuit :=
  imap (fun j s => if (j <? n)%nat then withMaster s (default UNKNOWN_DEVICE (kids k !! j)) else s) calls.

(** A circuit as it is when the first [n] calls are counted. *)
Definition partly (n : nat) (l : bool) (k : Z) (c : CCircuit) : CCircuit :=
  let upTo f := u32 (f k + sumOf (total f) (take n (kids k))) in
  set_link (instanceCount c) (mastersTo n k (subcircuitPtr_v c)) l (upTo localNets) (upTo localDevices) (upTo localCalls) c.
Definition linkAs (k : Z) (c : CCircuit) : CCircuit := partly (length (kids k)) true k c.
Definition bump (w : Z) (c : CCircuit) : CCircuit :=
  set_link (u32 (instanceCount c + w)) (subcircuitPtr_v c) (linked c) (totalNets c) (totalDevices c) (totalSubcircuits c) c.

(** Counting [w x] instances of each circuit [x] links the circuits that have
    one and adds to their counts. *)
Definition act (w : Z -> Z) (cs : list CCircuit) : list CCircuit :=
  imap (fun n c => let x := Z.of_nat n in if 0 <? w x then bump (w x) (linkAs x c) else c) cs.

Lemma imap_twice {A B C} (f : nat -> B -> C) (g : nat -> A -> B) l : imap f (imap g l) = imap (fun n x => f n (g n x)) l.
Proof. apply list_eq. intros n. rewrite !list_lookup_imap. by destruct (l !! n). Qed.
Lemma imap_same {A} (l : list A) : imap (fun _ x => x) l = l.
Proof. apply list_eq. intros n. rewrite list_lookup_imap. by destruct (l !! n). Qed.

Lemma mastersTo_twice n k calls : mastersTo n k (mastersTo n k calls) = mastersTo n k calls.
Proof.
  unfold mastersTo. rewrite imap_twice. apply imap_ext. intros j s _. by destruct (j <? n)%nat.
Qed.

Lemma linkAs_bump k a c : linkAs k (bump a (linkAs k c)) = bump a (linkAs k c).
Proof. unfold linkAs, bump, partly, set_link. cbn -[mastersTo sumOf u32]. by rewrite mastersTo_twice. Qed.
Lemma bump_bump a b c : bump a (bump b c) = bump (b + a) c.
Proof. unfold bump, set_link. cbn. f_equal. unfold u32. rewrite Zplus_mod_idemp_l. f_equal. lia. Qed.

Lemma act_act w v cs : (forall x, 0 <= w x) -> (forall x, 0 <= v x) -> act w (act v cs) = act (fun x => v x + w x) cs.
Proof.
  intros Hw Hv. unfold act. rewrite imap_twice. apply imap_ext. intros n c _. cbn zeta.
  specialize (Hw (Z.of_nat n)). specialize (Hv (Z.of_nat n)).
  destruct (Z.ltb_spec 0 (v (Z.of_nat n))), (Z.ltb_spec 0 (w (Z.of_nat n))),
    (Z.ltb_spec 0 (v (Z.of_nat n) + w (Z.of_nat n))); try lia; try done.
  - by rewrite linkAs_bump, bump_bump.
  - by replace (w (Z.of_nat n)) with 0 by lia; rewrite Z.add_0_r.
  - by replace (v (Z.of_nat n)) with 0 by lia; rewrite Z.add_0_l.
Qed.

Lemma act_ext w v cs : (forall x, w x = v x) -> act w cs = act v cs.
Proof. intros H. unfold act. apply imap_ext. intros n c _. by rewrite H. Qed.
Lemma act_zero w cs : (forall x, w x = 0) -> act w cs = cs.
Proof. intros H. unfold act. rewrite <- (imap_same cs) at 2. apply imap_ext. intros n c _. by rewrite H. Qed.

Lemma act_lookup w cs x :
  vlookup (act w cs) x = (fun c => if 0 <? w x then bump (w x) (linkAs x c) else c) <$> vlookup cs x.
Proof.
  unfold vlookup, in_range, act. rewrite length_imap. destruct ((0 <=? x) && (x <? Z.of_nat (length cs))) eqn:E; [| done].
  bool_to_prop. by rewrite list_lookup_imap, Z2Nat.id by done.
Qed.

(** ** The state during the count *)

Definition callShape (s : CSubcircuit) : string * list Z * string := (subcircuitName s, portSignalId_v s, masterName s).

(** What counting does not change. *)
Record sameShape (c d : CCircuit) : Prop := mkShape {
  sh_name : circuitName d = circuitName c;
  sh_devices : devicePtr_v d = devicePtr_v c;
  sh_ports : portCount d = portCount c;
  sh_signals : localSignalCount d = localSignalCount c;
  sh_ids : instanceId_v d = instanceId_v c;
  sh_names : signalName_v d = signalName_v c;
  sh_calls : map callShape (subcircuitPtr_v d) = map callShape (subcircuitPtr_v c)
}.

Lemma sameShape_refl c : sameShape c c.
Proof. by split. Qed.
Lemma sameShape_trans c d e : sameShape c d -> sameShape d e -> sameShape c e.
Proof. intros [] []. split; congruence. Qed.

Lemma mastersTo_shape n k calls : map callShape (mastersTo n k calls) = map callShape calls.
Proof.
  unfold mastersTo. apply list_eq. intros j. rewrite !list_lookup_fmap, list_lookup_imap.
  destruct (calls !! j) as [s |]; [| done]. by destruct (j <? n)%nat.
Qed.
Lemma partly_shape n l k c : sameShape c (partly n l k c).
Proof. split; [done | done | done | done | done | done |]. exact (mastersTo_shape n k (subcircuitPtr_v c)). Qed.
Lemma bump_shape w c : sameShape c (bump w c).
Proof. by split. Qed.
Lemma act_shape (w : Z -> Z) x c : sameShape c (if 0 <? w x then bump (w x) (linkAs x c) else c).
Proof.
  destruct (0 <? w x); [| apply sameShape_refl]. eapply sameShape_trans; [apply partly_shape | apply bump_shape].
Qed.

Definition isLinked (cs : list CCircuit) (k : Z) : Prop := exists d, vlookup cs k = Some d /\ linked d = true.

Record inv (cs : list CCircuit) : Prop := mkInv {
  inv_shape : Forall2 sameShape cs0 cs;
  inv_linked x c : vlookup cs x = Some c -> linked c = true ->
    R x /\ linkAs x c = c /\ Forall (isLinked cs) (kids x)
}.

Lemma inv_lookup cs k c0 : inv cs -> vlookup cs0 k = Some c0 -> exists c, vlookup cs k = Some c /\ sameShape c0 c.
Proof.
  intros [Hs _] H0. unfold vlookup, in_range in *. rewrite <- (Forall2_length _ _ _ Hs).
  destruct ((0 <=? k) && (k <? Z.of_nat (length cs0))); [| done].
  destruct (Forall2_lookup_l _ _ _ _ _ Hs H0) as (c & -> & H). eauto.
Qed.

Lemma FindCircuit_shape l1 l2 name : Forall2 sameShape l1 l2 -> FindCircuit l2 name = FindCircuit l1 name.
Proof.
  unfold FindCircuit. intros H. generalize 0 as k, (@None Z) as found.
  induction H as [| c d l1 l2 Hc H IH]; intros k found; cbn [lastNamed]; [done |]. by rewrite (sh_name _ _ Hc), IH.
Qed.

Lemma act_length w cs : length (act w cs) = length cs.
Proof. apply length_imap. Qed.

Lemma act_isLinked w cs x : isLinked cs x -> isLinked (act w cs) x.
Proof.
  intros (d & Hd & Hl). unfold isLinked. rewrite act_lookup, Hd. cbn.
  destruct (0 <? w x); eexists; (split; [reflexivity | done]).
Qed.

Lemma act_inv w cs :
  (forall x, 0 < w x -> R x /\ Forall (fun m => 0 < w m) (kids x)) -> inv cs -> inv (act w cs).
Proof.
  intros Hw Hi. pose proof Hi as [Hs Hl]. split.
  - apply Forall2_same_length_lookup. rewrite act_length. split; [by apply Forall2_length in Hs |].
    intros n c d Hc Hd. unfold act in Hd. rewrite list_lookup_imap in Hd.
    destruct (Forall2_lookup_l _ _ _ _ _ Hs Hc) as (e & He & Hce). rewrite He in Hd. injection Hd as <-.
    eapply sameShape_trans; [exact Hce | apply act_shape].
  - intros x d. rewrite act_lookup. destruct (vlookup cs x) as [c |] eqn:Ec; [| done]. cbn.
    destruct (Z.ltb_spec 0 (w x)) as [Hpos |].
    + intros [= <-] _. destruct (Hw x Hpos) as [HRx Hk]. split; [done |]. split; [apply linkAs_bump |].
      apply Forall_forall. intros m Hm. pose proof (proj1 (Forall_forall _ _) Hk m Hm) as Hwm.
      destruct (proj1 (Forall_forall _ _) (kids_R x HRx) m Hm) as [HRm _].
      destruct (lk_exists _ _ HL m HRm) as (m0 & Hm0 & _). destruct (inv_lookup cs m m0 Hi Hm0) as (e & He & _).
      unfold isLinked. rewrite act_lookup, He. cbn. rewrite (proj2 (Z.ltb_lt _ _) Hwm). eexists. split; [reflexivity | done].
    + intros [= <-] Hlc. destruct (Hl x c Ec Hlc) as (HRx & E & Hk). split; [done |]. split; [done |].
      eapply Forall_impl; [exact Hk |]. intros m. apply act_isLinked.
Qed.

(** Writing a circuit that is not linked. *)
Lemma inv_update cs k c d :
  inv cs -> vlookup cs k = Some c -> linked c = false -> sameShape c d -> linked d = false -> inv (vupdate cs k d).
Proof.
  intros [Hs Hl] Hc Hlc Hsh Hld. pose proof (vlookup_range _ _ _ Hc) as Hr.
  assert (forall x e, vlookup (vupdate cs k d) x = Some e -> linked e = true -> x <> k /\ vlookup cs x = Some e) as Hx.
  { intros x e He Hle. destruct (Z.eq_dec x k) as [-> | Hne].
    - rewrite vlookup_vupdate_eq in He by done. congruence.
    - by rewrite vlookup_vupdate_ne in He by done. }
  split.
  - unfold vupdate. rewrite (proj2 (in_range_spec _ _) Hr).
    destruct (Forall2_lookup_r _ _ _ _ _ Hs (Prelude.vlookup_lookup _ _ _ Hc)) as (c0 & Hc0 & Hcc).
    rewrite <- (list_insert_id cs0 (Z.to_nat k) c0 Hc0). apply Forall2_insert; [done |].
    by eapply sameShape_trans.
  - intros x e He Hle. destruct (Hx x e He Hle) as [Hne He']. destruct (Hl x e He' Hle) as (HRx & E & Hk).
    split_and!; [done | done |]. eapply Forall_impl; [exact Hk |]. intros m (f & Hf & Hlf). exists f. split; [| done].
    rewrite vlookup_vupdate_ne; [done |]. intros <-. congruence.
Qed.

Lemma act_vupdate w cs k d : w k = 0 -> act w (vupdate cs k d) = vupdate (act w cs) k d.
Proof.
  intros Hw. unfold vupdate. rewrite (eq_refl : in_range (act w cs) k = (0 <=? k) && (k <? Z.of_nat (length (act w cs)))).
  rewrite act_length. fold (in_range cs k). destruct (in_range cs k) eqn:Er; [| done]. apply in_range_spec in Er.
  apply list_eq. intros n. unfold act. rewrite list_lookup_imap. destruct (decide (Z.to_nat k = n)) as [<- | Hne].
  - rewrite !list_lookup_insert_eq by (rewrite ?length_imap; lia). cbn. by rewrite Z2Nat.id, Hw by lia.
  - by rewrite !list_lookup_insert_ne, list_lookup_imap by done.
Qed.

(** Counting one instance of a linked circuit. *)
Lemma act_one cs m d : vlookup cs m = Some d -> linkAs m d = d -> vupdate cs m (addInstance d) = act (fun x => same x m) cs.
Proof.
  intros Hd Hl. pose proof (vlookup_range _ _ _ Hd) as Hr. unfold vupdate. rewrite (proj2 (in_range_spec _ _) Hr).
  apply list_eq. intros n. unfold act. rewrite list_lookup_imap. destruct (decide (Z.to_nat m = n)) as [<- | Hne].
  - rewrite list_lookup_insert_eq by lia. rewrite (Prelude.vlookup_lookup _ _ _ Hd). cbn. rewrite Z2Nat.id by lia.
    unfold same. rewrite Z.eqb_refl. cbn. by rewrite Hl.
  - rewrite list_lookup_insert_ne by done. unfold same. destruct (Z.eqb_spec m (Z.of_nat n)); [lia |]. by destruct (cs !! n).
Qed.

(** ** Running the count *)

(** The counts of calls fit in their 32 bits. *)
Context (Hfit : forall k, R k -> total localCalls k < 2 ^ 32).

Lemma total_nonneg f k : (forall x, 0 <= f x) -> 0 <= total f k.
Proof. apply sumOf_nonneg. Qed.

Lemma totalSubcircuits_linked k c :
  R k -> linkAs k c = c -> (0 <? totalSubcircuits c) = negb (bool_decide (kids k = [])).
Proof.
  intros Hk E. assert (totalSubcircuits c = total localCalls k) as ->.
  { rewrite <- E. cbn -[u32 sumOf]. rewrite firstn_all, <- total_eq by done. apply u32_id.
    pose proof (total_nonneg localCalls k ltac:(unfold localCalls; lia)). specialize (Hfit k Hk). lia. }
  rewrite total_eq by done. unfold localCalls at 1. case_bool_decide as Hn.
  - rewrite Hn. reflexivity.
  - apply Z.ltb_lt. destruct (kids k) as [| m l]; [done |].
    pose proof (sumOf_nonneg (total localCalls) (m :: l) ltac:(intros; apply total_nonneg; unfold localCalls; lia)).
    cbn [length]. lia.
Qed.

Lemma below_nil k x : kids k = [] -> below k x = 0.
Proof. intros E. unfold below. by rewrite E. Qed.

Lemma linked_calls k c c0 :
  vlookup cs0 k = Some c0 -> sameShape c0 c -> linkAs k c = c -> map masterCircuit_p (subcircuitPtr_v c) = kids k.
Proof.
  intros H0 Hs E. rewrite <- E. cbn -[mastersTo]. unfold mastersTo. apply list_eq. intros j.
  rewrite list_lookup_fmap, list_lookup_imap.
  assert (length (subcircuitPtr_v c) = length (kids k)) as Hlen.
  { unfold kids. rewrite H0, length_map. rewrite <- (length_map callShape), (sh_calls _ _ Hs). apply length_map. }
  destruct (subcircuitPtr_v c !! j) as [s |] eqn:Es.
  - pose proof (lookup_lt_Some _ _ _ Es) as Hlt. rewrite Hlen in Hlt.
    destruct (lookup_lt_is_Some_2 (kids k) j Hlt) as [m Hm]. rewrite Hm.
    change (Some (masterCircuit_p (if (j <? length (kids k))%nat then withMaster s m else s)) = Some m).
    by rewrite (proj2 (Nat.ltb_lt _ _) Hlt).
  - apply lookup_ge_None in Es. symmetry. apply lookup_ge_None. lia.
Qed.

(** Adding the weights of a list of circuits. *)
Definition weights (ms : list Z) (x : Z) : Z := sumOf (fun m => occurs m x) ms.

Lemma weights_nonneg ms x : 0 <= weights ms x.
Proof. apply sumOf_nonneg. intros. apply occurs_nonneg. Qed.
Lemma occurs_closed m x : R m -> 0 < occurs m x -> R x /\ Forall (fun y => 0 < occurs m y) (kids x).
Proof.
  intros Hm Hx. split; [by eapply occurs_R |]. apply Forall_forall. intros y Hy.
  by destruct (occurs_kids (rank m) m x y Hm (le_n _) Hx Hy).
Qed.

(** What is done for a call of a linked circuit. *)
Definition instantiate (fuel : nat) (m : Z) : CT unit :=
  child ← circuitAt m;
  _ ← assertM (linked child);
  _ ← when (0 <? totalSubcircuits child) (CountInstantiations fuel m);
  updateCircuit m addInstance.

Lemma forEach_map {ST A B} (g : A -> B) (f : B -> M ST unit) l st :
  forEach l (fun a => f (g a)) st = forEach (map g l) f st.
Proof.
  revert st. induction l as [| a l IH]; intros st; [done |]. cbn [forEach map]. unfold mbind, M_bind.
  destruct (f (g a) st) as [[[] st'] |]; [apply IH | done].
Qed.

Section Instantiations.
Context (fuel : nat)
  (Hrec : forall k cs, inv cs -> isLinked cs k -> (rank k < fuel)%nat -> CountInstantiations fuel k cs = Ok (tt, act (below k) cs)).

Lemma instantiate_act m cs :
  inv cs -> isLinked cs m -> (rank m < fuel)%nat -> instantiate fuel m cs = Ok (tt, act (occurs m) cs) /\ R m.
Proof.
  intros Hi (d & Hd & Hl) Hr. destruct (inv_linked _ Hi m d Hd Hl) as (Hm & E & _). split; [| done].
  unfold instantiate, mbind, M_bind, circuitAt. rewrite (proj2 (vget_Ok _ _ _) Hd). cbn [mbind outcome_bind].
  rewrite Hl. cbn [assertM lift assert_]. rewrite (totalSubcircuits_linked m d Hm E).
  assert ((when (negb (bool_decide (kids m = []))) (CountInstantiations fuel m)) cs = Ok (tt, act (below m) cs)) as ->.
  { case_bool_decide as Hk; cbn [negb when]; [| by apply Hrec; [| exists d |]].
    rewrite act_zero; [done |]. intros x. by apply below_nil. }
  assert (vlookup (act (below m) cs) m = Some d) as Hd'.
  { rewrite act_lookup, Hd. cbn. by rewrite below_self. }
  unfold updateCircuit. rewrite (proj2 (vget_Ok _ _ _) Hd'). cbn [mbind outcome_bind].
  rewrite (act_one _ m d Hd' E), act_act by (intros; apply below_nonneg || apply same_nonneg).
  do 2 f_equal. apply act_ext. intros x. rewrite occurs_eq by done. lia.
Qed.

Lemma instantiate_all ms : forall cs,
  inv cs -> Forall (fun m => isLinked cs m /\ (rank m < fuel)%nat) ms ->
  forEach ms (instantiate fuel) cs = Ok (tt, act (weights ms) cs).
Proof.
  induction ms as [| m ms IH]; intros cs Hi HF; cbn [forEach].
  { rewrite act_zero; done. }
  apply Forall_cons in HF as [[Hl Hr] HF]. destruct (instantiate_act m cs Hi Hl Hr) as [E Hm].
  unfold mbind, M_bind. rewrite E, IH.
  - rewrite act_act by (intros; apply occurs_nonneg || apply weights_nonneg). done.
  - apply act_inv; [| done]. intros x Hx. by apply occurs_closed.
  - eapply Forall_impl; [exact HF |]. intros y [Hy ?]. split; [by apply act_isLinked | done].
Qed.
End Instantiations.

Lemma CountInstantiations_act fuel : forall k cs,
  inv cs -> isLinked cs k -> (rank k < fuel)%nat -> CountInstantiations fuel k cs = Ok (tt, act (below k) cs).
Proof.
  induction fuel as [| fuel IH]; intros k cs Hi (d & Hd & Hl) Hr; [lia |].
  destruct (inv_linked _ Hi k d Hd Hl) as (Hk & E & Hkids). cbn [CountInstantiations].
  unfold mbind at 1, M_bind at 1, circuitAt. rewrite (proj2 (vget_Ok _ _ _) Hd). cbn [mbind outcome_bind].
  etransitivity; [exact (forEach_map masterCircuit_p (instantiate fuel) (subcircuitPtr_v d) cs) |].
  destruct (lk_exists _ _ HL k Hk) as (c0 & H0 & _).
  destruct (inv_lookup cs k c0 Hi H0) as (d' & Hd' & Hs). assert (d' = d) as -> by congruence.
  rewrite (linked_calls k d c0 H0 Hs E). apply instantiate_all; [done | done |].
  apply Forall_forall. intros m Hm. split; [by apply (proj1 (Forall_forall _ _) Hkids) |].
  pose proof (proj1 (Forall_forall _ _) (kids_R k Hk) m Hm) as [_ ?]. lia.
Qed.

(** *** Counting a circuit *)

Lemma act_link w cs m d :
  vlookup cs m = Some d -> w m = 0 -> (forall x, 0 <= w x) ->
  vupdate (act w cs) m (addInstance (linkAs m d)) = act (fun x => same x m + w x) cs.
Proof.
  intros Hd Hw Hn. pose proof (vlookup_range _ _ _ Hd) as Hr. unfold vupdate.
  rewrite (proj2 (in_range_spec _ _)) by (by rewrite act_length). apply list_eq. intros n. unfold act.
  rewrite list_lookup_imap. destruct (decide (Z.to_nat m = n)) as [<- | Hne].
  - rewrite list_lookup_insert_eq by (rewrite length_imap; lia). rewrite (Prelude.vlookup_lookup _ _ _ Hd).
    cbn [fmap option_fmap option_map]. rewrite Z2Nat.id, Hw by lia. unfold same. rewrite Z.eqb_refl. done.
  - rewrite list_lookup_insert_ne, list_lookup_imap by done. unfold same. by destruct (Z.eqb_spec m (Z.of_nat n)); [lia |].
Qed.

Lemma mastersTo_step k calls j m :
  kids k !! j = Some m -> alter (fun s => withMaster s m) j (mastersTo j k calls) = mastersTo (S j) k calls.
Proof.
  intros Hm. unfold mastersTo. apply list_eq. intros i. destruct (decide (i = j)) as [-> | Hne].
  - rewrite list_lookup_alter_eq, !list_lookup_imap. destruct (calls !! j) as [s |]; [| done]. cbn [fmap option_fmap option_map].
    rewrite (proj2 (Nat.ltb_ge j j)), (proj2 (Nat.ltb_lt j (S j))), Hm by lia. done.
  - rewrite list_lookup_alter_ne, !list_lookup_imap by done. destruct (calls !! i) as [s |]; [| done]. cbn [fmap option_fmap option_map].
    destruct (Nat.ltb_spec i j), (Nat.ltb_spec i (S j)); try lia; done.
Qed.

Lemma u32_add_r a b : u32 (a + u32 b) = u32 (a + b).
Proof. unfold u32. apply Zplus_mod_idemp_r. Qed.
Lemma u32_add_l a b : u32 (u32 a + b) = u32 (a + b).
Proof. unfold u32. apply Zplus_mod_idemp_l. Qed.

Lemma partly_step k j m c d :
  kids k !! j = Some m -> R m -> linkAs m d = d ->
  addTotals d (setMaster j m (partly j false k c)) = partly (S j) false k c.
Proof.
  intros Hm HRm Hd. unfold addTotals, setMaster, partly, set_link.
  cbn [totalNets totalDevices totalSubcircuits instanceCount subcircuitPtr_v linked errorLimit circuitName devicePtr_v
       deviceErrorCount_v devicePrintCount_v portCount instanceId_v localSignalCount instanceHashId_v].
  change (alter _ j (mastersTo j k (subcircuitPtr_v c))) with (alter (fun s => withMaster s m) j (mastersTo j k (subcircuitPtr_v c))).
  rewrite (mastersTo_step k _ j m Hm), (take_S_r _ _ _ Hm).
  assert (totalNets d = u32 (total localNets m) /\ totalDevices d = u32 (total localDevices m) /\
          totalSubcircuits d = u32 (total localCalls m)) as (-> & -> & ->).
  { rewrite <- Hd. cbn [linkAs partly set_link totalNets totalDevices totalSubcircuits]. unfold linkAs, partly, set_link.
    cbn [totalNets totalDevices totalSubcircuits]. by rewrite firstn_all, !total_eq by done. }
  f_equal; rewrite u32_add_r, u32_add_l, sumOf_app; cbn [sumOf foldr]; f_equal; lia.
Qed.

Lemma partly_start k c0 c :
  vlookup cs0 k = Some c0 -> sameShape c0 c -> linked c = false ->
  startCounts (u32 (localSignalCount c - portCount c)) c = partly 0 false k c.
Proof.
  intros H0 Hs Hl. unfold startCounts, partly, set_link. rewrite Hl.
  assert (mastersTo 0 k (subcircuitPtr_v c) = subcircuitPtr_v c) as -> by apply imap_same.
  unfold localNets, localDevices, localCalls. rewrite H0, (sh_signals _ _ Hs), (sh_ports _ _ Hs), (sh_devices _ _ Hs).
  rewrite take_0. cbn [sumOf foldr]. rewrite !Z.add_0_r. f_equal. f_equal. unfold kids. rewrite H0, length_map.
  rewrite <- (length_map callShape (subcircuitPtr_v c)), (sh_calls _ _ Hs). by rewrite length_map.
Qed.

Section Circuits.
Context (fuel : nat)
  (Hrec : forall m cs d, inv cs -> R m -> vlookup cs m = Some d -> linked d = false -> (rank m < fuel)%nat ->
    countCircuit fuel m cs = Ok (tt, vupdate (act (below m) cs) m (linkAs m d))).

Lemma child_act m st d :
  inv st -> R m -> vlookup st m = Some d -> (rank m < fuel)%nat ->
  exists st1 d1,
    (if linked d then when (0 <? totalSubcircuits d) (CountInstantiations fuel m) else countCircuit fuel m) st = Ok (tt, st1) /\
    vlookup st1 m = Some d1 /\ linkAs m d1 = d1 /\ portCount d1 = portCount d /\
    vupdate st1 m (addInstance d1) = act (occurs m) st.
Proof.
  intros Hi Hm Hd Hr. pose proof (vlookup_range _ _ _ Hd) as Hrange.
  assert (forall x, same x m + below m x = occurs m x) as Hocc by (intros; by rewrite occurs_eq).
  destruct (linked d) eqn:Hl.
  - destruct (inv_linked _ Hi m d Hd Hl) as (_ & E & _). exists (act (below m) st), d. split_and!; [| | done | done |].
    + rewrite (totalSubcircuits_linked m d Hm E). case_bool_decide as Hk; cbn [negb when].
      * rewrite act_zero; [done |]. intros x. by apply below_nil.
      * by apply CountInstantiations_act; [| exists d |].
    + rewrite act_lookup, Hd. cbn. by rewrite below_self.
    + rewrite <- E at 1. rewrite (act_link _ st m d Hd) by (by apply below_self || (intros; apply below_nonneg)).
      by apply act_ext.
  - exists (vupdate (act (below m) st) m (linkAs m d)), (linkAs m d). split_and!.
    + by apply Hrec.
    + apply vlookup_vupdate_eq. by rewrite act_length.
    + unfold linkAs, partly, set_link. cbn -[mastersTo sumOf u32]. by rewrite mastersTo_twice.
    + done.
    + rewrite vupdate_vupdate, (act_link _ st m d Hd) by (by apply below_self || (intros; apply below_nonneg)).
      by apply act_ext.
Qed.
Section OneCircuit.
Context (k : Z) (c : CCircuit) (cs : list CCircuit)
  (Hi : inv cs) (Hk : R k) (Hc : vlookup cs k = Some c) (Hl : linked c = false) (Hr : (rank k < S fuel)%nat).

(** After [n] calls; [d] is the circuit itself. *)
Definition during (n : nat) (d : CCircuit) : list CCircuit := vupdate (act (weights (take n (kids k))) cs) k d.

Lemma weights_self n : weights (take n (kids k)) k = 0.
Proof.
  unfold weights. erewrite sumOf_ext; [instantiate (1 := fun _ => 0); unfold sumOf; induction (take n (kids k)); cbn; lia |].
  intros m Hm%elem_of_take. destruct Hm as (i & Hm%list_elem_of_lookup_2 & _).
  destruct (proj1 (Forall_forall _ _) (kids_R k Hk) m Hm) as [HR Hrm]. apply (occurs_rank (rank m)); [done | lia | lia].
Qed.

Lemma weights_closed n x :
  0 < weights (take n (kids k)) x -> R x /\ Forall (fun m => 0 < weights (take n (kids k)) m) (kids x).
Proof.
  intros (m & Hm & Hp)%sumOf_pos; [| intros; apply occurs_nonneg].
  pose proof Hm as Hm'. apply elem_of_take in Hm' as (i & Hm'%list_elem_of_lookup_2 & _).
  destruct (proj1 (Forall_forall _ _) (kids_R k Hk) m Hm') as [HR _]. destruct (occurs_closed m x HR Hp) as [HRx HF].
  split; [done |]. eapply Forall_impl; [exact HF |]. intros y Hy. apply sumOf_pos; [intros; apply occurs_nonneg |]. by exists m.
Qed.

Lemma act_self n : vlookup (act (weights (take n (kids k))) cs) k = Some c.
Proof. rewrite act_lookup, Hc. cbn. by rewrite weights_self. Qed.

Lemma during_inv n d : sameShape c d -> linked d = false -> inv (during n d).
Proof.
  intros Hs Hd. eapply inv_update; [| apply act_self | done | done | done].
  apply act_inv; [apply weights_closed | done].
Qed.
Lemma during_self n d : vlookup (during n d) k = Some d.
Proof. apply vlookup_vupdate_eq. rewrite act_length. by eapply vlookup_range. Qed.

Lemma setMaster_shape j m d : sameShape d (setMaster j m d).
Proof.
  split; [done | done | done | done | done | done |]. cbn [setMaster set_link subcircuitPtr_v]. unfold setMaster, set_link. cbn [subcircuitPtr_v].
  apply list_eq. intros i. rewrite !list_lookup_fmap. destruct (decide (i = j)) as [-> | Hne].
  - rewrite list_lookup_alter_eq. by destruct (subcircuitPtr_v d !! j).
  - by rewrite list_lookup_alter_ne.
Qed.

(** The call [j] of the circuit, as it was read. *)
Lemma call_at j m : kids k !! j = Some m -> exists s d0,
  subcircuitPtr_v (partly j false k c) !! j = Some s /\ FindCircuit cs0 (masterName s) = Some m /\
  vlookup cs0 m = Some d0 /\ Z.of_nat (length (portSignalId_v s)) = portCount d0 /\ R m /\ (rank m < rank k)%nat.
Proof.
  intros Hm. destruct (lk_exists _ _ HL k Hk) as (c0 & H0 & _). destruct (inv_lookup cs k c0 Hi H0) as (c' & Hc' & Hs).
  assert (c' = c) as -> by congruence. pose proof (sameShape_trans _ _ _ Hs (partly_shape j false k c)) as Hs'.
  unfold kids in Hm. rewrite H0, list_lookup_fmap in Hm. destruct (subcircuitPtr_v c0 !! j) as [s0 |] eqn:Es; [| done].
  injection Hm as Hm. pose proof (sh_calls _ _ Hs') as Hcalls. apply (f_equal (fun l => l !! j)) in Hcalls.
  rewrite !list_lookup_fmap, Es in Hcalls. destruct (subcircuitPtr_v (partly j false k c) !! j) as [s |]; [| done].
  injection Hcalls as _ Hports Hname. exists s.
  destruct (proj1 (Forall_forall _ _) (lk_calls _ _ HL k c0 Hk H0) s0 (list_elem_of_lookup_2 _ _ _ Es))
    as (m' & d0 & Ef & Hd0 & Hlen & HRm & Hrm).
  exists d0. rewrite Hname, Hports. rewrite Ef in Hm. cbn in Hm. subst m'. done.
Qed.

Lemma addInstance_link m d : linkAs m d = d -> linkAs m (addInstance d) = addInstance d.
Proof. intros E. change (addInstance d) with (bump 1 d). rewrite <- E. apply linkAs_bump. Qed.

Lemma countCall_step j m : kids k !! j = Some m ->
  countCall fuel (countCircuit fuel) k j (during j (partly j false k c)) = Ok (tt, during (S j) (partly (S j) false k c)).
Proof.
  intros Hm. destruct (call_at j m Hm) as (s & d0 & Es & Ef & Hd0 & Hlen & HRm & Hrm).
  assert (m <> k) as Hne by (intros ->; lia).
  set (p := setMaster j m (partly j false k c)).
  assert (sameShape c p) as Hp by (eapply sameShape_trans; [apply partly_shape | apply setMaster_shape]).
  pose proof (during_inv j p Hp eq_refl) as Hst'. set (st' := during j p) in *.
  destruct (inv_lookup st' m d0 Hst' Hd0) as (d & Hd & Hsd).
  destruct (child_act m st' d Hst' HRm Hd ltac:(lia)) as (st1 & d1 & E1 & Hd1 & El & Eports & Eact).
  assert (vlookup (act (occurs m) st') m = Some (addInstance d1)) as Hd2.
  { rewrite <- Eact. apply vlookup_vupdate_eq. by eapply vlookup_range. }
  assert (occurs m k = 0) as Hok by (apply (occurs_rank (rank m)); [done | lia | lia]).
  assert (vlookup (act (occurs m) st') k = Some p) as Hp2 by (rewrite act_lookup; unfold st';
    rewrite during_self; cbn [fmap option_fmap option_map]; by rewrite Hok).
  unfold countCall, mbind, M_bind, circuitAt, updateCircuit, gets, lift.
  rewrite (proj2 (vget_Ok _ _ _) (during_self j (partly j false k c))). cbn [mbind outcome_bind]. rewrite Es.
  rewrite (FindCircuit_shape _ _ (masterName s)
    (inv_shape _ (during_inv j _ (partly_shape j false k c) eq_refl))), Ef.
  rewrite (proj2 (vget_Ok _ _ _) (during_self j (partly j false k c))). cbn [mbind outcome_bind].
  fold p. assert (vupdate (during j (partly j false k c)) k p = st') as -> by (unfold during; apply vupdate_vupdate).
  rewrite (proj2 (vget_Ok _ _ _) Hd). cbn [mbind outcome_bind]. rewrite E1, (proj2 (vget_Ok _ _ _) Hd1). cbn [mbind outcome_bind].
  rewrite (proj2 (Z.eqb_eq _ _)) by (rewrite Hlen, Eports; by rewrite (sh_ports _ _ Hsd)). cbn [negb].
  rewrite (proj2 (vget_Ok _ _ _) Hd1). cbn [mbind outcome_bind]. rewrite Eact, (proj2 (vget_Ok _ _ _) Hd2). cbn [mbind outcome_bind].
  rewrite (proj2 (vget_Ok _ _ _) Hp2). cbn [mbind outcome_bind].
  assert (addTotals (addInstance d1) p = partly (S j) false k c) as ->
    by exact (partly_step k j m c _ Hm HRm (addInstance_link m d1 El)).
  unfold st', during.
  rewrite act_vupdate, vupdate_vupdate, act_act by (done || (intros; apply occurs_nonneg || apply weights_nonneg)).
  do 2 f_equal. f_equal. apply act_ext. intros x. rewrite (take_S_r _ _ _ Hm). unfold weights. rewrite sumOf_app. cbn. lia.
Qed.

Lemma countCalls_all n : forall j, (j + n = length (kids k))%nat ->
  forEach (seq j n) (countCall fuel (countCircuit fuel) k) (during j (partly j false k c)) =
  Ok (tt, during (length (kids k)) (partly (length (kids k)) false k c)).
Proof.
  induction n as [| n IH]; intros j Hj; cbn [seq forEach].
  { by replace (length (kids k)) with j by lia. }
  destruct (lookup_lt_is_Some_2 (kids k) j ltac:(lia)) as [m Hm].
  unfold mbind, M_bind. rewrite (countCall_step j m Hm). apply IH. lia.
Qed.
End OneCircuit.
End Circuits.

Lemma countCircuit_act fuel : forall k cs c,
  inv cs -> R k -> vlookup cs k = Some c -> linked c = false -> (rank k < fuel)%nat ->
  countCircuit fuel k cs = Ok (tt, vupdate (act (below k) cs) k (linkAs k c)).
Proof.
  induction fuel as [| fuel IH]; intros k cs c Hi Hk Hc Hl Hr; [lia |].
  destruct (lk_exists _ _ HL k Hk) as (c0 & H0 & Hports). destruct (inv_lookup cs k c0 Hi H0) as (c' & Hc' & Hs).
  assert (c' = c) as -> by congruence. clear Hc'.
  assert (length (subcircuitPtr_v c) = length (kids k)) as Hlen.
  { unfold kids. rewrite H0, length_map. rewrite <- (length_map callShape), (sh_calls _ _ Hs). apply length_map. }
  pose proof (countCalls_all fuel IH k c cs Hi Hk Hc Hl Hr (length (kids k)) 0 eq_refl) as Hall.
  cbn [countCircuit]. unfold mbind, M_bind, circuitAt, updateCircuit, lift. rewrite (proj2 (vget_Ok _ _ _) Hc).
  cbn [mbind outcome_bind]. unfold LocalNetCount.
  rewrite (proj2 (Z.leb_le _ _)) by (rewrite (sh_ports _ _ Hs), (sh_signals _ _ Hs); lia). cbn [assert_ mbind outcome_bind].
  rewrite (proj2 (vget_Ok _ _ _) Hc). cbn [mbind outcome_bind]. rewrite (partly_start k c0 c H0 Hs Hl), Hlen.
  replace (vupdate cs k (partly 0 false k c)) with (during k cs 0 (partly 0 false k c)).
  2: { unfold during. by rewrite take_0, act_zero by done. }
  rewrite Hall, (proj2 (vget_Ok _ _ _) (during_self k c cs Hc _ _)). cbn [mbind outcome_bind].
  unfold during. rewrite vupdate_vupdate, firstn_all. done.
Qed.

(** ** The whole count *)

Lemma fresh_inv : Forall (fun c => linked c = false) cs0 -> inv cs0.
Proof.
  intros HF. split.
  - clear. induction cs0; constructor; [apply sameShape_refl | done].
  - intros x c Hc%Prelude.vlookup_lookup%list_elem_of_lookup_2 Hl. pose proof (proj1 (Forall_forall _ _) HF c Hc). congruence.
Qed.

Lemma occurs_count k x : occurs k x = Z.of_nat (length (filter (x =.) (expand k))).
Proof.
  unfold occurs, total, sumOf. induction (expand k) as [| y l IH]; [done |]. cbn [foldr]. rewrite IH, filter_cons.
  unfold same. destruct (Z.eqb_spec y x) as [-> | Hne]; case_decide; cbn [length]; congruence || lia.
Qed.
Lemma occurs_elem k x : 0 < occurs k x <-> x ∈ expand k.
Proof.
  rewrite occurs_count. split.
  - intros H. destruct (filter (x =.) (expand k)) as [| y l] eqn:E; [cbn in H; lia |].
    assert (y ∈ filter (x =.) (expand k)) as Hy by (rewrite E; by left). by apply list_elem_of_filter in Hy as [<- ?].
  - intros H. assert (x ∈ filter (x =.) (expand k)) as Hx by (by apply list_elem_of_filter).
    destruct (filter (x =.) (expand k)); [by apply not_elem_of_nil in Hx | cbn; lia].
Qed.

End Expansion.

(** The circuit [x] of the netlist [cs0] when its instances and everything below
    them are counted; [more] is what the top circuit adds for itself. *)
Record counted (cs0 : list CCircuit) (rank : Z -> nat) (t x : Z) (c : CCircuit) : Prop := mkCounted {
  counted_instances : instanceCount c = u32 (Z.of_nat (length (filter (x =.) (expand cs0 rank t))));
  counted_linked : linked c = bool_decide (x ∈ expand cs0 rank t);
  counted_masters : x ∈ expand cs0 rank t -> map masterCircuit_p (subcircuitPtr_v c) = kids cs0 x;
  counted_devices : x ∈ expand cs0 rank t -> totalDevices c = u32 (sumOf (localDevices cs0) (expand cs0 rank x));
  counted_nets : x ∈ expand cs0 rank t ->
    totalNets c = u32 (sumOf (localNets cs0) (expand cs0 rank x) + if x =? t then portCount c else 0);
  counted_subcircuits : x ∈ expand cs0 rank t ->
    totalSubcircuits c = u32 (Z.of_nat (length (expand cs0 rank x)) - if x =? t then 0 else 1)
}.


Section Whole.
Context (cs0 : list CCircuit) (rank : Z -> nat) (R : Z -> Prop) (HL : linkable cs0 rank R)
  (Hsize : forall k, R k -> Z.of_nat (length (expand cs0 rank k)) <= 2 ^ 32)
  (Hfresh : Forall (fun c => linked c = false /\ instanceCount c = 0) cs0).

Lemma expand_length k : R k -> total cs0 rank (localCalls cs0) k = Z.of_nat (length (expand cs0 rank k)) - 1.
Proof.
  remember (rank k) as n eqn:En. revert k En. induction n as [n IH] using lt_wf_ind. intros k -> Hk.
  rewrite (total_eq cs0 rank R HL) by done. rewrite (expand_eq cs0 rank R HL) by done. unfold localCalls at 1.
  pose proof (kids_R cs0 rank R HL k Hk) as HF. cbn [length]. revert HF.
  induction (kids cs0 k) as [| m l IHl]; intros HF; [done |]. apply Forall_cons in HF as [[HRm Hrm] HF].
  specialize (IHl HF). cbn [sumOf foldr map concat length] in *. rewrite length_app.
  fold (sumOf (total cs0 rank (localCalls cs0)) l). unfold sumOf in *. rewrite (IH (rank m) Hrm m eq_refl HRm).
  assert (0 < Z.of_nat (length (expand cs0 rank m))) by (rewrite (expand_eq cs0 rank R HL) by done; cbn; lia). lia.
Qed.

Lemma sizes_fit k : R k -> total cs0 rank (localCalls cs0) k < 2 ^ 32.
Proof. intros Hk. rewrite expand_length by done. specialize (Hsize k Hk). lia. Qed.

Lemma fresh_circuit x c : vlookup cs0 x = Some c -> linked c = false /\ instanceCount c = 0.
Proof. intros Hc%Prelude.vlookup_lookup%list_elem_of_lookup_2. exact (proj1 (Forall_forall _ _) Hfresh c Hc). Qed.

(** The members of a linked circuit. *)
Lemma linkAs_members x c : R x -> vlookup cs0 x = Some c -> let d := linkAs cs0 rank x c in
  instanceCount d = instanceCount c /\ map masterCircuit_p (subcircuitPtr_v d) = kids cs0 x /\
  totalDevices d = u32 (sumOf (localDevices cs0) (expand cs0 rank x)) /\
  totalNets d = u32 (sumOf (localNets cs0) (expand cs0 rank x)) /\
  totalSubcircuits d = u32 (Z.of_nat (length (expand cs0 rank x)) - 1).
Proof.
  intros Hx Hc d.
  assert (forall f, u32 (f x + sumOf (total cs0 rank f) (take (length (kids cs0 x)) (kids cs0 x))) = u32 (total cs0 rank f x)) as Ht.
  { intros f. by rewrite firstn_all, (total_eq cs0 rank R HL). }
  split; [done |]. split.
  - apply (linked_calls cs0 rank x d c Hc); [apply partly_shape |].
    unfold d, linkAs, partly, set_link. cbn -[mastersTo sumOf u32]. by rewrite mastersTo_twice.
  - unfold d, linkAs, partly, set_link. cbn [totalNets totalDevices totalSubcircuits]. rewrite !Ht.
    by rewrite expand_length.
Qed.

Lemma localDevices_nonneg k : 0 <= sumOf (localDevices cs0) (expand cs0 rank k).
Proof. apply sumOf_nonneg. intros x. unfold localDevices. case_match; lia. Qed.
Lemma localNets_nonneg k : R k -> 0 <= sumOf (localNets cs0) (expand cs0 rank k).
Proof.
  intros Hk. rewrite (sumOf_ext _ (fun x => Z.max 0 (localNets cs0 x))); [apply sumOf_nonneg; lia |].
  intros x Hx. apply occurs_elem in Hx. apply (occurs_R cs0 rank R HL k x Hk) in Hx.
  destruct (lk_exists _ _ _ HL x Hx) as (c & Hc & Hp). unfold localNets. rewrite Hc. lia.
Qed.

(** A circuit other than the top. *)
Lemma counted_other t x c :
  R t -> x <> t -> vlookup cs0 x = Some c ->
  counted cs0 rank t x (if 0 <? below cs0 rank t x then bump (below cs0 rank t x) (linkAs cs0 rank x c) else c).
Proof.
  intros Ht Hne Hc. destruct (fresh_circuit x c Hc) as [Hl Hi].
  assert (below cs0 rank t x = occurs cs0 rank t x) as E.
  { rewrite (occurs_eq cs0 rank R HL) by done. unfold same. by rewrite (proj2 (Z.eqb_neq t x)) by congruence. }
  rewrite E. pose proof (occurs_elem cs0 rank t x) as He. pose proof (occurs_count cs0 rank t x) as Hn.
  destruct (Z.ltb_spec 0 (occurs cs0 rank t x)) as [Hp | Hz].
  - assert (R x) as HRx by (by apply (occurs_R cs0 rank R HL t)).
    destruct (linkAs_members x c HRx Hc) as (H1 & H2 & H3 & H4 & H5).
    assert (counted cs0 rank t x (bump (occurs cs0 rank t x) (linkAs cs0 rank x c))); [| done].
    split; intros; cbn [bump set_link instanceCount linked subcircuitPtr_v totalDevices totalNets totalSubcircuits portCount];
      unfold bump, set_link; cbn [instanceCount linked subcircuitPtr_v totalDevices totalNets totalSubcircuits portCount];
      rewrite ?H1, ?Hi, ?Hn, ?(proj2 (Z.eqb_neq x t) Hne), ?Z.add_0_r; try done.
    by rewrite bool_decide_true by (by apply He).
  - assert (x ∉ expand cs0 rank t) as Hx by (intros Hx; apply He in Hx; lia).
    split; [| by rewrite bool_decide_false | done | done | done | done].
    rewrite Hi. assert (occurs cs0 rank t x = 0) as E0 by (pose proof (occurs_nonneg cs0 rank t x); lia). by rewrite <- Hn, E0.
Qed.

Lemma counted_top t c d :
  R t -> vlookup cs0 t = Some c ->
  d = set_link (u32 (instanceCount (linkAs cs0 rank t c) + 1)) (subcircuitPtr_v (linkAs cs0 rank t c)) true
        (u32 (totalNets (linkAs cs0 rank t c) + portCount c)) (totalDevices (linkAs cs0 rank t c))
        (u32 (totalSubcircuits (linkAs cs0 rank t c) + 1)) (linkAs cs0 rank t c) ->
  counted cs0 rank t t d.
Proof.
  intros Ht Hc ->. destruct (fresh_circuit t c Hc) as [_ Hi].
  destruct (linkAs_members t c Ht Hc) as (H1 & H2 & H3 & H4 & H5).
  assert (occurs cs0 rank t t = 1) as Ho.
  { rewrite (occurs_eq cs0 rank R HL), (below_self cs0 rank R HL) by done. unfold same. by rewrite Z.eqb_refl. }
  pose proof (occurs_count cs0 rank t t) as Hn. rewrite Ho in Hn.
  split; intros; cbn [set_link instanceCount linked subcircuitPtr_v totalDevices totalNets totalSubcircuits portCount];
    unfold set_link; cbn [instanceCount linked subcircuitPtr_v totalDevices totalNets totalSubcircuits portCount]; try done.
  - by rewrite <- Hn, H1, Hi.
  - rewrite bool_decide_true; [done |]. apply (occurs_elem cs0 rank t t). lia.
  - rewrite H4, Z.eqb_refl. apply u32_add_l.
  - rewrite H5, Z.eqb_refl, u32_add_l. f_equal. lia.
Qed.

Lemma CountObjects_run fuel name t :
  FindCircuit cs0 name = Some t -> R t -> (rank t < fuel)%nat ->
  sumOf (localDevices cs0) (expand cs0 rank t) <= MAX_ITEMS ->
  Z.of_nat (length (expand cs0 rank t)) <= MAX_ITEMS ->
  (forall c, vlookup cs0 t = Some c -> sumOf (localNets cs0) (expand cs0 rank t) + portCount c <= MAX_ITEMS) ->
  exists cs, CountObjectsAndLinkSubcircuits fuel name cs0 = Ok (t, cs) /\ Forall2 sameShape cs0 cs /\
    forall x c, vlookup cs x = Some c -> counted cs0 rank t x c.
Proof.
  intros Hf Ht Hr Hd Hs Hn. destruct (lk_exists _ _ _ HL t Ht) as (c & Hc & Hports). specialize (Hn c Hc).
  destruct (fresh_circuit t c Hc) as [Hl Hi]. pose proof (vlookup_range _ _ _ Hc) as Hrange.
  pose proof (fresh_inv cs0 rank R (Forall_impl _ _ _ Hfresh (fun c H => proj1 H))) as Hinv.
  destruct (linkAs_members t c Ht Hc) as (H1 & _ & H3 & H4 & H5).
  pose proof (localNets_nonneg t Ht) as Hn0. pose proof (localDevices_nonneg t) as Hd0.
  set (top := set_link (u32 (instanceCount (linkAs cs0 rank t c) + 1)) (subcircuitPtr_v (linkAs cs0 rank t c)) true
        (u32 (totalNets (linkAs cs0 rank t c) + portCount c)) (totalDevices (linkAs cs0 rank t c))
        (u32 (totalSubcircuits (linkAs cs0 rank t c) + 1)) (linkAs cs0 rank t c)).
  exists (vupdate (act cs0 rank (below cs0 rank t) cs0) t top). split_and!.
  - unfold CountObjectsAndLinkSubcircuits, mbind, M_bind, gets. rewrite Hf.
    rewrite (countCircuit_act cs0 rank R HL sizes_fit fuel t cs0 c Hinv Ht Hc Hl Hr).
    unfold updateCircuit, circuitAt. rewrite (proj2 (vget_Ok _ _ _) (vlookup_vupdate_eq _ _ _ ltac:(by rewrite act_length))).
    cbn [mbind outcome_bind]. rewrite vupdate_vupdate.
    rewrite (proj2 (vget_Ok _ _ _) (vlookup_vupdate_eq _ _ _ ltac:(by rewrite act_length))). cbn [mbind outcome_bind].
    change (set_link _ _ _ _ _ _ _) with top.
    assert (totalNets top <= MAX_ITEMS /\ totalDevices top <= MAX_ITEMS /\ totalSubcircuits top <= MAX_ITEMS) as (B1 & B2 & B3).
    { unfold top, set_link. cbn [totalNets totalDevices totalSubcircuits]. rewrite H3, H4, H5, !u32_add_l.
      replace (Z.of_nat (length (expand cs0 rank t)) - 1 + 1) with (Z.of_nat (length (expand cs0 rank t))) by lia.
      unfold MAX_ITEMS in *. rewrite !u32_id by lia. lia. }
    by rewrite !(proj2 (Z.ltb_ge _ _)) by done.
  - assert (Forall2 sameShape cs0 (act cs0 rank (below cs0 rank t) cs0)) as Hact.
    { apply (act_inv cs0 rank R HL); [| done]. intros x Hx. destruct (proj1 (sumOf_pos (fun m => occurs cs0 rank m x) _
        ltac:(intros; apply occurs_nonneg)) Hx) as (m & Hm & Hp).
      destruct (proj1 (Forall_forall _ _) (kids_R cs0 rank R HL t Ht) m Hm) as [HRm _].
      destruct (occurs_closed cs0 rank R HL m x HRm Hp) as [HRx HF]. split; [done |]. eapply Forall_impl; [exact HF |].
      intros k Hk. apply sumOf_pos; [intros; apply occurs_nonneg |]. by exists m. }
    unfold vupdate. rewrite (proj2 (in_range_spec _ _)) by (by rewrite act_length).
    rewrite <- (list_insert_id cs0 _ _ (Prelude.vlookup_lookup _ _ _ Hc)) at 1. apply Forall2_insert; [done |].
    split; try done. cbn [top set_link subcircuitPtr_v]. unfold top, set_link. cbn [subcircuitPtr_v]. apply mastersTo_shape.
  - intros x d Hx. destruct (Z.eq_dec x t) as [-> | Hne].
    + rewrite vlookup_vupdate_eq in Hx by (by rewrite act_length). injection Hx as <-. by apply (counted_top t c).
    + rewrite vlookup_vupdate_ne, act_lookup in Hx by done. destruct (vlookup cs0 x) as [e |] eqn:Ee; [| done].
      injection Hx as <-. by apply counted_other.
Qed.

(** C18: [CountObjectsAndLinkSubcircuits] counts the expanded hierarchy although
    it visits the calls of a circuit once: on a netlist without recursion whose
    calls name circuits with as many ports as they pass signals, it succeeds,
    links exactly the circuits that have an instance below the top, sets their
    calls to the circuits they name, and leaves in each the number of its
    instances and the totals of devices, nets and subcircuits of the list of all
    instances below it; the top also counts itself and its ports. *)
Theorem CountObjects_expanded fuel name t :
  FindCircuit cs0 name = Some t -> R t -> (rank t < fuel)%nat ->
  sumOf (localDevices cs0) (expand cs0 rank t) <= MAX_ITEMS ->
  Z.of_nat (length (expand cs0 rank t)) <= MAX_ITEMS ->
  (forall c, vlookup cs0 t = Some c -> sumOf (localNets cs0) (expand cs0 rank t) + portCount c <= MAX_ITEMS) ->
  exists cs, CountObjectsAndLinkSubcircuits fuel name cs0 = Ok (t, cs) /\ length cs = length cs0 /\
    forall x c, vlookup cs x = Some c -> counted cs0 rank t x c.
Proof.
  intros Hf Ht Hr Hd Hs Hn. destruct (CountObjects_run fuel name t Hf Ht Hr Hd Hs Hn) as (cs & E & Hsh & Hc).
  exists cs. split_and!; [done | by apply Forall2_length in Hsh | done].
Qed.
End Whole.

(** ** The netlist after the count *)

Section Recount.
Context (l1 l2 : list CCircuit) (Hsh : Forall2 sameShape l1 l2).

Lemma shape_lookup k c : vlookup l2 k = Some c -> exists d, vlookup l1 k = Some d /\ sameShape d c.
Proof.
  intros H. unfold vlookup, in_range in *. rewrite (Forall2_length _ _ _ Hsh).
  destruct ((0 <=? k) && (k <? Z.of_nat (length l2))); [| done].
  destruct (Forall2_lookup_r _ _ _ _ _ Hsh H) as (d & -> & ?). eauto.
Qed.
Lemma shape_lookup_l k d : vlookup l1 k = Some d -> exists c, vlookup l2 k = Some c /\ sameShape d c.
Proof.
  intros H. unfold vlookup, in_range in *. rewrite <- (Forall2_length _ _ _ Hsh).
  destruct ((0 <=? k) && (k <? Z.of_nat (length l1))); [| done].
  destruct (Forall2_lookup_l _ _ _ _ _ Hsh H) as (c & -> & ?). eauto.
Qed.

Lemma kids_shape k : kids l2 k = kids l1 k.
Proof.
  unfold kids. destruct (vlookup l2 k) as [c |] eqn:Ec.
  - destruct (shape_lookup k c Ec) as (d & -> & Hd).
    transitivity (map (fun p => default UNKNOWN_DEVICE (FindCircuit l1 p.2)) (map callShape (subcircuitPtr_v c))).
    + rewrite map_map. apply map_ext. intros s. cbn. by rewrite (FindCircuit_shape l1 l2).
    + rewrite (sh_calls _ _ Hd), map_map. done.
  - destruct (vlookup l1 k) as [d |] eqn:Ed; [| done]. destruct (shape_lookup_l k d Ed) as (c & ? & _). congruence.
Qed.

Lemma expandFrom_shape n : forall k, expandFrom l2 n k = expandFrom l1 n k.
Proof.
  induction n as [| n IH]; intros k; [done |]. cbn [expandFrom]. rewrite kids_shape. do 2 f_equal. by apply map_ext.
Qed.
Lemma expand_shape rank k : expand l2 rank k = expand l1 rank k.
Proof. apply expandFrom_shape. Qed.

Lemma localNets_shape k : localNets l2 k = localNets l1 k.
Proof.
  unfold localNets. destruct (vlookup l2 k) as [c |] eqn:Ec.
  - destruct (shape_lookup k c Ec) as (d & -> & Hd). by rewrite (sh_signals _ _ Hd), (sh_ports _ _ Hd).
  - destruct (vlookup l1 k) as [d |] eqn:Ed; [| done]. destruct (shape_lookup_l k d Ed) as (c & ? & _). congruence.
Qed.
Lemma localDevices_shape k : localDevices l2 k = localDevices l1 k.
Proof.
  unfold localDevices. destruct (vlookup l2 k) as [c |] eqn:Ec.
  - destruct (shape_lookup k c Ec) as (d & -> & Hd). by rewrite (sh_devices _ _ Hd).
  - destruct (vlookup l1 k) as [d |] eqn:Ed; [| done]. destruct (shape_lookup_l k d Ed) as (c & ? & _). congruence.
Qed.

(** The circuits in use among those of an expansion. *)
Lemma linkable_shape rank R t :
  linkable l1 rank R -> R t -> linkable l2 rank (fun k => R k /\ k ∈ expand l1 rank t).
Proof.
  intros HL Ht. split.
  - intros k [Hk _]. destruct (lk_exists _ _ _ HL k Hk) as (d & Hd & Hp). destruct (shape_lookup_l k d Hd) as (c & Hc & Hs).
    exists c. by rewrite (sh_ports _ _ Hs), (sh_signals _ _ Hs).
  - intros k c [Hk Hin] Hc. destruct (shape_lookup k c Hc) as (d & Hd & Hs).
    pose proof (lk_calls _ _ _ HL k d Hk Hd) as HF. apply Forall_forall. intros s Hin_s.
    assert (callShape s ∈ map callShape (subcircuitPtr_v d)) as Hs'.
    { rewrite <- (sh_calls _ _ Hs). apply list_elem_of_In, in_map, list_elem_of_In, Hin_s. }
    apply list_elem_of_In, in_map_iff in Hs' as (s0 & E & Hs0%list_elem_of_In). injection E as _ E1 E2.
    destruct (proj1 (Forall_forall _ _) HF s0 Hs0) as (m & e & Ef & He & Hlen & HRm & Hr).
    destruct (shape_lookup_l m e He) as (e' & He' & Hse). exists m, e'.
    rewrite (FindCircuit_shape l1 l2), <- E2, <- E1, (sh_ports _ _ Hse) by done. split_and!; try done.
    apply (occurs_elem l1 rank t m). apply (occurs_elem l1 rank t k) in Hin.
    apply (occurs_kids l1 rank R HL (rank t) t k m Ht (le_n _) Hin).
    unfold kids. rewrite Hd. apply list_elem_of_In, in_map_iff. exists s0. rewrite Ef. split; [done | by apply list_elem_of_In].
Qed.
End Recount.

(** [linkable] as a test on a whole netlist. *)
Definition linkableTest (cs0 : list CCircuit) (rank : Z -> nat) : bool :=
  forallb (fun k => match vlookup cs0 k with
    | Some c => (0 <=? portCount c) && (portCount c <=? localSignalCount c) &&
        forallb (fun s => match FindCircuit cs0 (masterName s) with
          | Some m => match vlookup cs0 m with
              | Some d => (Z.of_nat (length (portSignalId_v s)) =? portCount d) && (rank m <? rank k)%nat
              | None => false
              end
          | None => false
          end) (subcircuitPtr_v c)
    | None => false
    end) (seqZ 0 (Z.of_nat (length cs0))).

Lemma linkable_test cs0 rank :
  linkableTest cs0 rank = true -> linkable cs0 rank (fun k => in_range cs0 k = true).
Proof.
  intros H. unfold linkableTest in H. rewrite forallb_forall in H.
  assert (forall k, in_range cs0 k = true -> In k (seqZ 0 (Z.of_nat (length cs0)))) as Hin.
  { intros k Hk%in_range_spec. apply list_elem_of_In, elem_of_seqZ. lia. }
  split.
  - intros k Hk. specialize (H k (Hin k Hk)). destruct (vlookup cs0 k) as [c |]; [| done]. exists c.
    bool_to_prop. done.
  - intros k c Hk Hc. specialize (H k (Hin k Hk)). rewrite Hc in H. bool_to_prop. apply Forall_forall. intros s Hs%list_elem_of_In.
    match goal with Ha : forallb _ _ = true |- _ => rewrite forallb_forall in Ha; specialize (Ha s Hs); rename Ha into Ht end.
    destruct (FindCircuit cs0 (masterName s)) as [m |]; [| done]. destruct (vlookup cs0 m) as [d |] eqn:Ed; [| done].
    bool_to_prop. exists m, d. split_and!; [done | done | done | | by apply Nat.ltb_lt].
    apply in_range_spec. by eapply vlookup_range.
Qed.

(** An inverter, a buffer of two inverters, and a top circuit with two buffers and
    an inverter. *)
Definition transistor (name g : string) (d s : string) : cdlDevice := mkCdl name [d; g; s; s] (Some "M nch") "".
Definition call (name : string) (signals : list string) (master : string) : cdlDevice := mkCdl name signals None master.
Definition readAll (l : list (string * list string * list cdlDevice)) : list CCircuit :=
  omap (fun x => match readCircuit x.1.1 x.1.2 x.2 with Ok c => Some c | Err _ => None end) l.
Definition exampleCells : list CCircuit := readAll
  [("inv", ["i"; "o"; "vss"], [transistor "MN1" "i" "o" "vss"; transistor "MN2" "i" "o" "mid"]);
   ("buf", ["i"; "o"; "vss"], [call "X1" ["i"; "n"; "vss"] "inv"; call "X2" ["n"; "o"; "vss"] "inv"]);
   ("top", ["a"; "z"; "vss"], [call "X1" ["a"; "b"; "vss"] "buf"; call "X2" ["a"; "b"; "vss"] "buf";
                               call "X3" ["b"; "z"; "vss"] "inv"])].

Lemma CountObjects_expanded_witness :
  expand exampleCells Z.to_nat 2 = [2; 1; 0; 0; 1; 0; 0; 0] /\
  exists cs, CountObjectsAndLinkSubcircuits 3 "top" exampleCells = Ok (2, cs) /\
    map instanceCount cs = [5; 2; 1] /\ map totalDevices cs = [2; 4; 10] /\ map totalNets cs = [1; 3; 11].
Proof.
  split; [reflexivity |].
  assert (match CountObjectsAndLinkSubcircuits 3 "top" exampleCells with
          | Ok (_, cs) => (map instanceCount cs, map totalDevices cs, map totalNets cs) | Err _ => ([], [], []) end =
          ([5; 2; 1], [2; 4; 10], [1; 3; 11])) as E by (vm_compute; reflexivity).
  destruct (CountObjects_expanded exampleCells Z.to_nat (fun k => in_range exampleCells k = true)
              (linkable_test exampleCells Z.to_nat ltac:(vm_compute; reflexivity))
              ltac:(intros k Hk%in_range_spec; change (Z.of_nat (length exampleCells)) with 3 in Hk;
                    assert (k = 0 \/ k = 1 \/ k = 2) as [-> | [-> | ->]] by lia; vm_compute; discriminate)
              ltac:(repeat constructor) 3 "top" 2) as (cs & Ecs & _);
    [reflexivity | reflexivity | cbn; lia | vm_compute; discriminate | vm_compute; discriminate
    | intros c Hc; vm_compute in Hc; injection Hc as <-; vm_compute; discriminate |].
  exists cs. split; [exact Ecs |]. rewrite Ecs in E. injection E as E1 E2 E3. auto.
Defined.

(** A circuit that calls itself is counted for ever: it is only marked as linked
    when its calls are done. *)
Lemma countCircuit_recursive fuel : forall c s,
  linked c = false -> portCount c <= localSignalCount c -> subcircuitPtr_v c = [s] -> masterName s = circuitName c ->
  countCircuit fuel 0 [c] = Err OutOfFuel.
Proof.
  induction fuel as [| fuel IH]; intros c s Hl Hp Hs Hn; [done |]. cbn [countCircuit].
  unfold mbind, M_bind, circuitAt, updateCircuit, lift. change (vget [c] 0) with (Ok c). cbn [mbind outcome_bind].
  unfold LocalNetCount. rewrite (proj2 (Z.leb_le _ _) Hp). cbn [assert_ mbind outcome_bind]. rewrite Hs. cbn [length seq forEach].
  unfold countCall, circuitAt, updateCircuit, lift, gets, mbind, M_bind. change (vget [c] 0) with (Ok c).
  cbn [mbind outcome_bind]. set (c1 := startCounts (u32 (localSignalCount c - portCount c)) c).
  change (vget (vupdate [c] 0 c1) 0) with (Ok c1). cbn [mbind outcome_bind].
  change (subcircuitPtr_v c1) with (subcircuitPtr_v c). rewrite Hs. cbn [lookup list_lookup].
  assert (FindCircuit (vupdate [c] 0 c1) (masterName s) = Some 0) as ->.
  { change (vupdate [c] 0 c1) with [c1]. unfold FindCircuit. cbn [lastNamed]. by rewrite bool_decide_true by (by rewrite Hn). }
  cbn beta iota. change (vget (vupdate [c] 0 c1) 0) with (Ok c1). cbn [mbind outcome_bind].
  set (c2 := setMaster 0 0 c1). change (vget (vupdate (vupdate [c] 0 c1) 0 c2) 0) with (Ok c2). cbn [mbind outcome_bind].
  change (linked c2) with (linked c). rewrite Hl. change (vupdate (vupdate [c] 0 c1) 0 c2) with [c2].
  rewrite (IH c2 (withMaster s 0)); [done | done | done | | done].
  unfold c2, c1, setMaster, startCounts, set_link. cbn [subcircuitPtr_v]. by rewrite Hs.
Qed.

End Counting.
