(* ===== verification/Flatten.v ===== *)
(** * Flattening the hierarchy (CInstance.cc, CDevice.cc, CCvcDb_init.cc)

    [AssignGlobalIDs] makes an instance for every call below the top circuit and
    gives the nets and devices of the instances their global numbers.  Instances
    of one circuit on the same nets are found by hashing and merged, for
    circuits with few ports: they keep no nets and refer to the instance that is
    kept. *)

From S2P Require Import Prelude CvcTypes Db Hierarchy Counting.
From stdpp Require Import base list strings gmap.
From Stdlib Require Import ZArith Lia.
#[local] Open Scope string_scope.
#[local] Open Scope list_scope.
#[local] Open Scope Z_scope.

Module Flatten.
Import Db.Db Hierarchy.Hierarchy Counting.Counting.

(** ** State *)

(** What [AssignGlobalIDs] writes: the instances, [None] for the null pointer,
    the circuits with their lists of instances, the counters, and the parents of
    nets and devices. *)
Record flatState : Type := mkFlat {
  slots : list (option CInstance);
  cells : list CCircuit;
  flatSubcircuits : Z;
  flatNets : Z;
  flatDevices : Z;
  netParents : list Z;
  deviceParents : list Z
}.
Abbreviation FL := (M flatState).

Definition set_slots (v : list (option CInstance)) (st : flatState) : flatState :=
  mkFlat v (cells st) (flatSubcircuits st) (flatNets st) (flatDevices st) (netParents st) (deviceParents st).
Definition set_cells (v : list CCircuit) (st : flatState) : flatState :=
  mkFlat (slots st) v (flatSubcircuits st) (flatNets st) (flatDevices st) (netParents st) (deviceParents st).
Definition addSubcircuits (n : Z) (st : flatState) : flatState :=
  mkFlat (slots st) (cells st) (u32 (flatSubcircuits st + n)) (flatNets st) (flatDevices st) (netParents st) (deviceParents st).

(** [vector::resize] with a value, to a size that is not smaller. *)
Definition resizeWith {A} (n : Z) (a : A) (l : list A) : list A := take (Z.to_nat n) (l ++ replicate (Z.to_nat n - length l) a).
(** The nets and devices of instance [i]. *)
Definition addItems (i nets devices : Z) (st : flatState) : flatState :=
  let n := u32 (flatNets st + nets) in let d := u32 (flatDevices st + devices) in
  mkFlat (slots st) (cells st) (flatSubcircuits st) n d (resizeWith n i (netParents st)) (resizeWith d i (deviceParents st)).

Definition cellAt (k : Z) : FL CCircuit := fun st => c ← vget (cells st) k; Ok (c, st).
Definition instanceAt (i : Z) : FL CInstance :=
  fun st => match vlookup (slots st) i with Some (Some x) => Ok (x, st) | _ => Err UndefinedBehaviour end.
Definition writeInstance (i : Z) (x : CInstance) : FL unit :=
  fun st => v ← vset (slots st) i (Some x); Ok (tt, set_slots v st).
Definition updateInstance (i : Z) (f : CInstance -> CInstance) : FL unit := x ← instanceAt i; writeInstance i (f x).
Definition updateCell (k : Z) (f : CCircuit -> CCircuit) : FL unit :=
  fun st => c ← vget (cells st) k; Ok (tt, set_cells (vupdate (cells st) k (f c)) st).

Definition set_ids (ids hash : list Z) (c : CCircuit) : CCircuit :=
  mkCircuit (errorLimit c) (circuitName c) (devicePtr_v c) (deviceErrorCount_v c) (devicePrintCount_v c)
    (portCount c) (instanceCount c) ids (subcircuitPtr_v c) (localSignalCount c) hash (linked c) (totalNets c)
    (totalDevices c) (totalSubcircuits c) (signalName_v c).
Definition pushInstance (i : Z) (c : CCircuit) : CCircuit := set_ids (instanceId_v c ++ [i]) (instanceHashId_v c) c.
Definition setHash (key i : Z) (c : CCircuit) : CCircuit := set_ids (instanceId_v c) (vupdate (instanceHashId_v c) key i) c.
(** [AllocateInstances] *)
Definition AllocateInstances (c : CCircuit) : CCircuit :=
  set_ids (instanceId_v c) (resizeWith (instanceCount c) UNKNOWN_DEVICE (instanceHashId_v c)) c.

(** The members of an instance. *)
Definition set_place (parent master first : Z) (x : CInstance) : CInstance :=
  mkInstance (firstDeviceId x) first (firstNetId x) (parallelInstanceCount x) (localToGlobalNetId_v x) parent master
    (nextHashedInstanceId x).
(** [parallelInstanceCount] and [parallelInstanceId] are one union. *)
Definition set_parallel (n : Z) (x : CInstance) : CInstance :=
  mkInstance (firstDeviceId x) (firstSubcircuitId x) (firstNetId x) n (localToGlobalNetId_v x) (parentId x) (master_p x)
    (nextHashedInstanceId x).
Definition set_nextHashed (n : Z) (x : CInstance) : CInstance :=
  mkInstance (firstDeviceId x) (firstSubcircuitId x) (firstNetId x) (parallelInstanceCount x) (localToGlobalNetId_v x)
    (parentId x) (master_p x) n.
Definition set_items (device net : Z) (nets : list Z) (x : CInstance) : CInstance :=
  mkInstance device (firstSubcircuitId x) net (parallelInstanceCount x) nets (parentId x) (master_p x)
    (nextHashedInstanceId x).
Definition newInstance : CInstance := mkInstance 0 0 0 0 [] 0 UNKNOWN_DEVICE UNKNOWN_DEVICE.
Definition addParallel (x : CInstance) : CInstance := set_parallel (u32 (parallelInstanceCount x + 1)) x.

(** ** Merging instances *)

Definition A_PRIME : Z := 3432918353.

(** The global nets of the ports of a call, in an instance with nets [nets]. *)
Fixpoint portNets (nets signals : list Z) : outcome (list Z) :=
  match signals with
  | [] => Ok []
  | s :: signals => n ← vget nets s; l ← portNets nets signals; Ok (n :: l)
  end.

(** The first [portCount] signals of the call. *)
Definition callNets (nets : list Z) (s : CSubcircuit) (c : CCircuit) : outcome (list Z) :=
  if Z.of_nat (length (portSignalId_v s)) <? portCount c then throw UndefinedBehaviour
  else portNets nets (take (Z.to_nat (portCount c)) (portSignalId_v s)).

Definition hashStep (myHash n : Z) : Z := u32 (Z.lxor (Z.lxor (u32 (Z.shiftl myHash 16)) n) myHash * A_PRIME).
Definition MakePortHash (nets : list Z) (s : CSubcircuit) (c : CCircuit) : outcome Z :=
  ports ← callNets nets s c;
  if instanceCount c =? 0 then throw UndefinedBehaviour else Ok (foldl hashStep 0 ports mod instanceCount c).

(** The walk over the instances of one hash key: the instance whose ports are on
    the nets [ports], or the last one of the chain. *)
Definition samePorts (ports nets : list Z) : outcome bool :=
  if bool_decide (length nets < length ports)%nat && bool_decide (take (length nets) ports = nets)
  then throw UndefinedBehaviour else Ok (bool_decide (take (length ports) nets = ports)).
Fixpoint hashWalk (fuel : nat) (ports : list Z) (i : Z) : FL (Z + Z) :=
  match fuel with
  | O => raise OutOfFuel
  | S fuel =>
      x ← instanceAt i;
      b ← lift (samePorts ports (localToGlobalNetId_v x));
      if (b : bool) then mret (inl i)
      else if nextHashedInstanceId x =? UNKNOWN_DEVICE then mret (inr i)
      else hashWalk fuel ports (nextHashedInstanceId x)
  end.

Definition FindParallelInstance (theInstanceId : Z) (nets : list Z) (s : CSubcircuit) : FL Z :=
  c ← cellAt (masterCircuit_p s);
  myKey ← lift (MakePortHash nets s c);
  _ ← assertM (negb (myKey =? UNKNOWN_DEVICE) && (myKey <? instanceCount c));
  first ← lift (vget (instanceHashId_v c) myKey);
  if first =? UNKNOWN_DEVICE then
    _ ← updateCell (masterCircuit_p s) (setHash myKey theInstanceId);
    mret theInstanceId
  else
    ports ← lift (callNets nets s c);
    fuel ← gets (fun st => S (length (slots st)));
    found ← hashWalk fuel ports first;
    match found with
    | inl i => mret i
    | inr i => _ ← updateInstance i (set_nextHashed theInstanceId); mret theInstanceId
    end.

(** The place of an instance below a merged one: the instance at the same place
    below the instance its parent is merged with. *)
Definition mergeBelow (theInstanceId : Z) (parent : CInstance) : FL unit :=
  _ ← assertM (IsParallelInstance parent);
  kept ← instanceAt (parallelInstanceCount parent);
  let id := u32 (firstSubcircuitId kept + s32 (theInstanceId - firstSubcircuitId parent)) in
  _ ← updateInstance theInstanceId (set_parallel id);
  x ← instanceAt id;
  if IsParallelInstance x then updateInstance (parallelInstanceCount x) addParallel else updateInstance id addParallel.

(** Whether the instance is merged. *)
Definition mergeInstance (limit theInstanceId : Z) (parent : CInstance) (s : CSubcircuit) (isParallel : bool) : FL bool :=
  if isParallel then _ ← mergeBelow theInstanceId parent; mret true
  else if Z.of_nat (length (portSignalId_v s)) <=? limit then
    myParallelInstance ← FindParallelInstance theInstanceId (localToGlobalNetId_v parent) s;
    if myParallelInstance =? theInstanceId then
      _ ← updateInstance theInstanceId (set_parallel 1); mret false
    else
      _ ← updateInstance myParallelInstance addParallel;
      _ ← updateInstance theInstanceId (set_parallel myParallelInstance);
      mret true
  else mret false.

(** ** Assigning numbers *)

(** [localToGlobalNetId_v]: the nets of the ports, then new ones. *)
Definition localNetsOf (c : CCircuit) (ports : list Z) (first : Z) : list Z :=
  ports ++ map (fun j => u32 (first + j)) (seqZ 0 (localSignalCount c - portCount c)).

Definition expandInstance (theInstanceId : Z) (parent : CInstance) (s : CSubcircuit) (c : CCircuit) : FL unit :=
  first ← gets flatNets;
  device ← gets flatDevices;
  ports ← lift (callNets (localToGlobalNetId_v parent) s c);
  _ ← updateInstance theInstanceId (set_items device first (localNetsOf c ports first));
  nets ← lift (LocalNetCount c);
  modify (addItems theInstanceId nets (Z.of_nat (length (devicePtr_v c)))).

(** A child in the loop over the calls, with its place made by the caller. *)
Definition makeChild (assign : Z -> CSubcircuit -> Z -> bool -> FL unit) (parent first : Z) (isParallel : bool)
    (p : nat * CSubcircuit) : FL unit :=
  let id := u32 (first + Z.of_nat p.1) in
  master ← cellAt (masterCircuit_p p.2);
  _ ← when (bool_decide (instanceId_v master = [])) (updateCell (masterCircuit_p p.2) AllocateInstances);
  _ ← writeInstance id newInstance;
  assign id p.2 parent isParallel.
Definition numberedCalls (c : CCircuit) : list (nat * CSubcircuit) := imap pair (subcircuitPtr_v c).

Fixpoint AssignGlobalIDs (limit : Z) (fuel : nat) (theInstanceId : Z) (s : CSubcircuit) (theParentId : Z)
    (isParallel : bool) : FL unit :=
  match fuel with
  | O => raise OutOfFuel
  | S fuel =>
      let m := masterCircuit_p s in
      c ← cellAt m;
      first ← gets flatSubcircuits;
      _ ← updateInstance theInstanceId (set_place theParentId m first);
      _ ← updateCell m (pushInstance theInstanceId);
      parent ← instanceAt theParentId;
      isParallel ← mergeInstance limit theInstanceId parent s isParallel;
      _ ← when (negb isParallel) (expandInstance theInstanceId parent s c);
      _ ← modify (addSubcircuits (Z.of_nat (length (subcircuitPtr_v c))));
      forEach (numberedCalls c) (makeChild (AssignGlobalIDs limit fuel) theInstanceId first isParallel)
  end.

(** [CCvcDb::AssignGlobalIDs] with [AssignTopGlobalIDs] for the top circuit [t]. *)
Definition AssignTopGlobalIDs (limit : Z) (fuel : nat) (t : Z) : FL unit :=
  c ← cellAt t;
  _ ← updateCell t (pushInstance 0);
  _ ← updateInstance 0 (set_place 0 t 1);
  _ ← updateInstance 0 (fun x => set_items (firstDeviceId x) (firstNetId x) (seqZ 0 (localSignalCount c)) x);
  _ ← modify (fun st =>
        let n := u32 (localSignalCount c) in let d := u32 (Z.of_nat (length (devicePtr_v c))) in
        mkFlat (slots st) (cells st) (u32 (1 + Z.of_nat (length (subcircuitPtr_v c)))) n d
          (resizeWith n 0 (netParents st)) (resizeWith d 0 (deviceParents st)));
  forEach (numberedCalls c) (makeChild (AssignGlobalIDs limit fuel) 0 1 false).

Definition flatten (limit : Z) (fuel : nat) (t : Z) (cs : list CCircuit) : outcome flatState :=
  c ← vget cs t;
  v ← vset (replicate (Z.to_nat (totalSubcircuits c)) None) 0 (Some newInstance);
  '(_, st) ← AssignTopGlobalIDs limit fuel t (mkFlat v cs 0 0 0 [] []);
  Ok st.

(** ** Instances that are not merged *)

Lemma resizeWith_grow {A} n (a : A) l :
  Z.of_nat (length l) <= n -> resizeWith n a l = l ++ replicate (Z.to_nat (n - Z.of_nat (length l))) a.
Proof.
  intros H. unfold resizeWith. rewrite take_ge by (rewrite length_app, length_replicate; lia).
  do 2 f_equal. lia.
Qed.

Lemma portNets_Ok nets signals :
  Forall (fun s => 0 <= s < Z.of_nat (length nets)) signals ->
  exists l, portNets nets signals = Ok l /\ length l = length signals /\ Forall (fun n => n ∈ nets) l.
Proof.
  induction 1 as [| s signals Hs HF IH]; cbn [portNets]; [eauto |]. destruct IH as (l & -> & Hl & Hn).
  destruct (vget nets s) as [n |] eqn:E.
  - exists (n :: l). cbn. split; [done |]. split; [by rewrite Hl |]. constructor; [| done].
    apply vget_Ok, Prelude.vlookup_lookup in E. by eapply list_elem_of_lookup_2.
  - unfold vget in E. destruct (vlookup nets s) eqn:Ev; [done |]. exfalso.
    pose proof (proj2 (vlookup_is_Some nets s) Hs) as [? ?]. congruence.
Qed.

Lemma prefix_vlookup {A} (l l' : list A) i a : l `prefix_of` l' -> vlookup l i = Some a -> vlookup l' i = Some a.
Proof.
  intros [k ->] H. pose proof (vlookup_range _ _ _ H) as Hr. apply Prelude.vlookup_lookup in H.
  unfold vlookup. rewrite (proj2 (in_range_spec _ _)) by (rewrite length_app; lia). by apply lookup_app_l_Some.
Qed.

Definition sameCell (c d : CCircuit) : Prop := d = set_ids (instanceId_v d) (instanceHashId_v d) c.

Lemma cellAt_run k c st : vlookup (cells st) k = Some c -> cellAt k st = Ok (c, st).
Proof. intros H. unfold cellAt. by rewrite (proj2 (vget_Ok _ _ _) H). Qed.
Lemma updateCell_run k f c st :
  vlookup (cells st) k = Some c -> updateCell k f st = Ok (tt, set_cells (vupdate (cells st) k (f c)) st).
Proof. intros H. unfold updateCell. by rewrite (proj2 (vget_Ok _ _ _) H). Qed.
Lemma instanceAt_run i x st : vlookup (slots st) i = Some (Some x) -> instanceAt i st = Ok (x, st).
Proof. intros H. unfold instanceAt. by rewrite H. Qed.
Lemma writeInstance_run i x st :
  0 <= i < Z.of_nat (length (slots st)) -> writeInstance i x st = Ok (tt, set_slots (vupdate (slots st) i (Some x)) st).
Proof. intros H. unfold writeInstance. by rewrite vset_in_range. Qed.
Lemma updateInstance_run i f x st :
  vlookup (slots st) i = Some (Some x) -> updateInstance i f st = Ok (tt, set_slots (vupdate (slots st) i (Some (f x))) st).
Proof.
  intros H. unfold updateInstance, mbind, M_bind. rewrite (instanceAt_run _ _ _ H). apply writeInstance_run.
  by eapply vlookup_range.
Qed.

(** The circuit and the instance of a call that is not merged. *)
Definition allocated (c : CCircuit) : CCircuit := if bool_decide (instanceId_v c = []) then AllocateInstances c else c.
Definition instanceOf (st : flatState) (p m : Z) (c : CCircuit) (ports : list Z) : CInstance :=
  mkInstance (flatDevices st) (flatSubcircuits st) (flatNets st) 0 (localNetsOf c ports (flatNets st)) p m UNKNOWN_DEVICE.
(** The state before the children of the instance. *)
Definition started (st : flatState) (i p m : Z) (c : CCircuit) (ports : list Z) : flatState :=
  addSubcircuits (Z.of_nat (length (subcircuitPtr_v c)))
    (addItems i (u32 (localSignalCount c - portCount c)) (Z.of_nat (length (devicePtr_v c)))
      (mkFlat (vupdate (slots st) i (Some (instanceOf st p m c ports)))
         (vupdate (cells st) m (pushInstance i (allocated c)))
         (flatSubcircuits st) (flatNets st) (flatDevices st) (netParents st) (deviceParents st))).

Lemma start_run limit fuel st p y first j s i c ports :
  vlookup (slots st) p = Some (Some y) -> p <> i -> i = u32 (first + Z.of_nat j) ->
  0 <= i < Z.of_nat (length (slots st)) -> limit < Z.of_nat (length (portSignalId_v s)) ->
  vlookup (cells st) (masterCircuit_p s) = Some c -> portCount c <= localSignalCount c ->
  callNets (localToGlobalNetId_v y) s c = Ok ports ->
  makeChild (AssignGlobalIDs limit (S fuel)) p first false (j, s) st =
  forEach (numberedCalls c) (makeChild (AssignGlobalIDs limit fuel) i (flatSubcircuits st) false)
    (started st i p (masterCircuit_p s) c ports).
Proof.
  intros Hp Hne Ei Hi Hlim Hc Hpc Hports. unfold makeChild at 1. cbn [fst snd]. rewrite <- Ei.
  set (m := masterCircuit_p s) in *. pose proof (vlookup_range _ _ _ Hc) as Hm.
  unfold mbind at 1, M_bind at 1. rewrite (cellAt_run m c st Hc).
  assert (exists cells1, (when (bool_decide (instanceId_v c = [])) (updateCell m AllocateInstances)) st = Ok (tt, set_cells cells1 st)
    /\ vlookup cells1 m = Some (allocated c) /\ forall v, vupdate cells1 m v = vupdate (cells st) m v) as (cells1 & E1 & Hc1 & Hup).
  { unfold allocated. case_bool_decide; cbn [when].
    - rewrite (updateCell_run m AllocateInstances c st Hc). eexists. split; [reflexivity |].
      split; [by apply vlookup_vupdate_eq | intros; apply vupdate_vupdate].
    - exists (cells st). split; [by destruct st | done]. }
  unfold mbind at 1, M_bind at 1. rewrite E1. unfold mbind at 1, M_bind at 1. rewrite writeInstance_run by done.
  assert (forall a, vlookup (vupdate (slots st) i a) i = Some a) as Hself by (intros; by apply vlookup_vupdate_eq).
  assert (forall a, vlookup (vupdate (slots st) i a) p = Some (Some y)) as Hpar by (intros; by rewrite vlookup_vupdate_ne).
  assert (portCount (allocated c) = portCount c /\ localSignalCount (allocated c) = localSignalCount c /\
          devicePtr_v (allocated c) = devicePtr_v c /\ subcircuitPtr_v (allocated c) = subcircuitPtr_v c) as (A1 & A2 & A3 & A4)
    by (unfold allocated; by case_bool_decide).
  cbn [AssignGlobalIDs]. unfold mbind at 1, M_bind at 1. fold m. rewrite (cellAt_run m (allocated c)) by exact Hc1.
  unfold mbind at 1, M_bind at 1, gets at 1. unfold mbind at 1, M_bind at 1.
  rewrite (updateInstance_run i _ newInstance) by exact (Hself (Some newInstance)). cbn [slots set_slots set_cells cells].
  rewrite vupdate_vupdate. unfold mbind at 1, M_bind at 1. rewrite (updateCell_run m _ (allocated c)) by exact Hc1.
  cbn [slots set_slots set_cells cells]. rewrite Hup.
  unfold mbind at 1, M_bind at 1. rewrite (instanceAt_run p y) by exact (Hpar _).
  unfold mbind at 1, M_bind at 1, mergeInstance at 1. rewrite (proj2 (Z.leb_gt _ _)) by done. cbn [mret M_ret negb when].
  unfold mbind at 1, M_bind at 1, expandInstance at 1, gets, lift. unfold mbind at 1 2 3, M_bind at 1 2 3.
  assert (callNets (localToGlobalNetId_v y) s (allocated c) = Ok ports) as -> by (unfold callNets in *; by rewrite A1).
  unfold mbind at 1, M_bind at 1. rewrite (updateInstance_run i _ (set_place p m (flatSubcircuits st) newInstance)) by exact (Hself _).
  cbn [slots set_slots set_cells cells flatNets flatDevices]. rewrite vupdate_vupdate.
  unfold mbind at 1, M_bind at 1, LocalNetCount at 1. rewrite A1, A2, (proj2 (Z.leb_le _ _) Hpc). cbn [assert_ mbind outcome_bind].
  unfold modify. unfold mbind at 1, M_bind at 1. unfold numberedCalls. rewrite A4.
  assert (localNetsOf (allocated c) ports (flatNets st) = localNetsOf c ports (flatNets st)) as ->
    by (unfold localNetsOf; by rewrite A1, A2).
  by rewrite A3.
Qed.

Section Unmerged.
Context (cs : list CCircuit) (rank : Z -> nat) (R : Z -> Prop) (limit : Z).

(** A linked netlist without recursion, with well-formed signals, in which every
    call has more ports than are considered for merging. *)
Record unmerged : Prop := mkUnmerged {
  un_linkable : linkable cs rank R;
  un_masters k c : R k -> vlookup cs k = Some c -> map masterCircuit_p (subcircuitPtr_v c) = kids cs k;
  un_typed k c : R k -> vlookup cs k = Some c -> circuit_typed c;
  un_limit k c : R k -> vlookup cs k = Some c -> Forall (fun s => limit < Z.of_nat (length (portSignalId_v s))) (subcircuitPtr_v c)
}.
Context (HU : unmerged).

Definition filled (st : flatState) (i : Z) (x : CInstance) : Prop := vlookup (slots st) i = Some (Some x).

(** Where the nets of an instance come from: the top has its own, an instance
    takes those of its ports from the instance of its call. *)
Definition placed (st : flatState) (i : Z) (x : CInstance) (c : CCircuit) : Prop :=
  let nets := localToGlobalNetId_v x in
  (i = 0 /\ nets = seqZ 0 (localSignalCount c) /\
     (forall n, 0 <= n < localSignalCount c -> vlookup (netParents st) n = Some 0)) \/
  (exists y d j s, filled st (parentId x) y /\ vlookup cs (master_p y) = Some d /\ subcircuitPtr_v d !! j = Some s /\
     i = firstSubcircuitId y + Z.of_nat j /\ masterCircuit_p s = master_p x /\
     exists ports, portNets (localToGlobalNetId_v y) (portSignalId_v s) = Ok ports /\
       nets = ports ++ map (fun n => firstNetId x + n) (seqZ 0 (localSignalCount c - portCount c)) /\
       (forall n, 0 <= n < localSignalCount c - portCount c -> vlookup (netParents st) (firstNetId x + n) = Some i)).

Record wf (st : flatState) (i : Z) (x : CInstance) : Prop := mkWf {
  wf_circuit : exists c, R (master_p x) /\ vlookup cs (master_p x) = Some c /\
    Z.of_nat (length (localToGlobalNetId_v x)) = localSignalCount c /\ placed st i x c /\
    0 <= firstDeviceId x /\
    (forall n, 0 <= n < Z.of_nat (length (devicePtr_v c)) -> vlookup (deviceParents st) (firstDeviceId x + n) = Some i);
  wf_nets : Forall (fun n => 0 <= n < flatNets st) (localToGlobalNetId_v x);
  wf_place : i < firstSubcircuitId x /\ 0 <= firstNetId x /\ (i = 0 -> firstNetId x = 0) /\
    forall c, vlookup cs (master_p x) = Some c -> firstSubcircuitId x + Z.of_nat (length (subcircuitPtr_v c)) <= flatSubcircuits st
}.

(** What is numbered stays. *)
Record extends (st st' : flatState) : Prop := mkExtends {
  ex_slots i x : filled st i x -> filled st' i x;
  ex_count : flatNets st <= flatNets st';
  ex_subcircuits : flatSubcircuits st <= flatSubcircuits st';
  ex_nets : netParents st `prefix_of` netParents st';
  ex_devices : deviceParents st `prefix_of` deviceParents st'
}.

#[local] Instance extends_refl : Reflexive extends.
Proof. by split. Qed.
#[local] Instance extends_trans : Transitive extends.
Proof. intros a b c [] []. split; [auto | lia | lia | by etransitivity | by etransitivity]. Qed.

Lemma wf_extends st st' i x : extends st st' -> wf st i x -> wf st' i x.
Proof.
  intros [Hs Hc Hsub Hn Hd] [(c & HR & Hcell & Hlen & Hp & H0 & Hdev) Hnets (P1 & P2 & P3 & P4)]. split.
  - exists c. split_and!; try done.
    + destruct Hp as [(-> & E & Hp) | (y & d & j & s & Hy & Hd' & Hj & E & Em & ports & Ep & El & Hp)]; [left | right].
      * split_and!; [done | done |]. intros n Hlt. eapply prefix_vlookup; eauto.
      * exists y, d, j, s. split_and!; auto. exists ports. split_and!; [done | done |].
        intros n Hlt. eapply prefix_vlookup; eauto.
    + intros n Hlt. eapply prefix_vlookup; eauto.
  - eapply Forall_impl; [exact Hnets |]. cbn. intros. lia.
  - split_and!; try done. intros c' Hc'. specialize (P4 c' Hc'). lia.
Qed.

Record ok (st : flatState) : Prop := mkOk {
  ok_cells : Forall2 sameCell cs (cells st);
  ok_nets : Z.of_nat (length (netParents st)) = flatNets st;
  ok_devices : Z.of_nat (length (deviceParents st)) = flatDevices st;
  ok_count : 0 <= flatSubcircuits st <= Z.of_nat (length (slots st));
  ok_slots i x : filled st i x -> i < flatSubcircuits st /\ wf st i x;
  ok_ids k c : vlookup (cells st) k = Some c -> NoDup (instanceId_v c) /\
    forall i, i ∈ instanceId_v c <-> exists x, filled st i x /\ master_p x = k
}.

Lemma ok_cell st k c : ok st -> vlookup cs k = Some c -> exists d, vlookup (cells st) k = Some d /\ sameCell c d.
Proof.
  intros [Hs _ _ _ _ _] H0. unfold vlookup, in_range in *. rewrite <- (Forall2_length _ _ _ Hs).
  destruct ((0 <=? k) && (k <? Z.of_nat (length cs))); [| done].
  destruct (Forall2_lookup_l _ _ _ _ _ Hs H0) as (d & -> & H). eauto.
Qed.

Section Start.
Context (st : flatState) (i p : Z) (y : CInstance) (d : CCircuit) (j : nat) (s : CSubcircuit) (c0 c : CCircuit) (ports : list Z).
Context (Hok : ok st) (Hy : filled st p y) (Hd : vlookup cs (master_p y) = Some d) (Hs : subcircuitPtr_v d !! j = Some s)
  (Ei : i = firstSubcircuitId y + Z.of_nat j) (Hi : 0 <= i < flatSubcircuits st) (Hnull : vlookup (slots st) i = Some None)
  (HR : R (masterCircuit_p s)) (Hc0 : vlookup cs (masterCircuit_p s) = Some c0)
  (Hc : vlookup (cells st) (masterCircuit_p s) = Some c) (Hsame : sameCell c0 c)
  (Hports : portNets (localToGlobalNetId_v y) (portSignalId_v s) = Ok ports)
  (Hlen : Z.of_nat (length ports) = portCount c0) (Hin : Forall (fun n => n ∈ localToGlobalNetId_v y) ports)
  (Hpc : 0 <= portCount c0 <= localSignalCount c0)
  (Hslots : flatSubcircuits st + Z.of_nat (length (subcircuitPtr_v c0)) <= Z.of_nat (length (slots st)) <= MAX_ITEMS)
  (Hnets : flatNets st + (localSignalCount c0 - portCount c0) <= MAX_ITEMS)
  (Hdevs : flatDevices st + Z.of_nat (length (devicePtr_v c0)) <= MAX_ITEMS).

Let st1 := started st i p (masterCircuit_p s) c ports.
Let x1 := instanceOf st p (masterCircuit_p s) c ports.

Lemma same_members : portCount c = portCount c0 /\ localSignalCount c = localSignalCount c0 /\
  devicePtr_v c = devicePtr_v c0 /\ subcircuitPtr_v c = subcircuitPtr_v c0.
Proof. unfold sameCell in Hsame. by rewrite Hsame. Qed.

(** The members of the state. *)
Lemma started_members :
  slots st1 = vupdate (slots st) i (Some x1) /\
  cells st1 = vupdate (cells st) (masterCircuit_p s) (pushInstance i (allocated c)) /\
  flatSubcircuits st1 = flatSubcircuits st + Z.of_nat (length (subcircuitPtr_v c0)) /\
  flatNets st1 = flatNets st + (localSignalCount c0 - portCount c0) /\
  flatDevices st1 = flatDevices st + Z.of_nat (length (devicePtr_v c0)) /\
  netParents st1 = netParents st ++ replicate (Z.to_nat (localSignalCount c0 - portCount c0)) i /\
  deviceParents st1 = deviceParents st ++ replicate (length (devicePtr_v c0)) i.
Proof.
  destruct same_members as (E1 & E2 & E3 & E4). destruct Hok as [_ Hn Hdv Hct _ _].
  unfold MAX_ITEMS in *. unfold st1, started, addSubcircuits, addItems. cbn [slots cells flatSubcircuits flatNets flatDevices netParents deviceParents].
  rewrite E1, E2, E3, E4. rewrite (u32_id (localSignalCount c0 - portCount c0)) by lia.
  rewrite !u32_id by lia. rewrite !resizeWith_grow by lia.
  split_and!; try done; do 2 f_equal; lia.
Qed.

Lemma started_filled k x : filled st1 k x <-> (k = i /\ x = x1) \/ (k <> i /\ filled st k x).
Proof.
  unfold filled. destruct started_members as (-> & _). assert (0 <= i < Z.of_nat (length (slots st))) as Hr by (by eapply vlookup_range).
  destruct (decide (k = i)) as [-> | Hne].
  - rewrite vlookup_vupdate_eq by done. naive_solver.
  - rewrite vlookup_vupdate_ne by done. naive_solver.
Qed.

Lemma started_extends : extends st st1.
Proof.
  destruct started_members as (_ & _ & E3 & E4 & _ & E6 & E7). split.
  - intros k x Hk. apply started_filled. right. split; [| done]. intros ->. unfold filled in Hk. congruence.
  - lia.
  - lia.
  - rewrite E6. by eexists.
  - rewrite E7. by eexists.
Qed.

Lemma replicated_parent (l : list Z) n k : 0 <= k < Z.of_nat n -> vlookup (l ++ replicate n i) (Z.of_nat (length l) + k) = Some i.
Proof.
  intros Hk. unfold vlookup. rewrite (proj2 (in_range_spec _ _)) by (rewrite length_app, length_replicate; lia).
  rewrite lookup_app_r by lia. apply lookup_replicate. split; [done | lia].
Qed.

Lemma instance_nets : localToGlobalNetId_v x1 = ports ++ map (fun n => flatNets st + n) (seqZ 0 (localSignalCount c0 - portCount c0)).
Proof.
  destruct same_members as (E1 & E2 & _ & _). unfold x1, instanceOf, localNetsOf. cbn [localToGlobalNetId_v]. rewrite E1, E2. f_equal.
  apply map_ext_in. intros n Hn%list_elem_of_In%elem_of_seqZ. pose proof (ok_nets _ Hok) as Hl. unfold MAX_ITEMS in *.
  apply u32_id. lia.
Qed.

Lemma started_wf : wf st1 i x1.
Proof.
  destruct started_members as (_ & _ & E3 & E4 & E5 & E6 & E7).
  destruct (ok_slots _ Hok p y Hy) as [Hpr [(cy & HRy & Hcy & _) Hynets (Hyp & _)]].
  pose proof (vlookup_range _ _ _ Hy) as Hp0.
  assert (p <> i) as Hne by (intros ->; unfold filled in Hy; congruence). split.
  - exists c0. split; [exact HR |]. split; [exact Hc0 |]. split; [| split; [right | split]].
    + rewrite instance_nets, length_app, length_map, length_seqZ. lia.
    + exists y, d, j, s. split_and!; [by apply started_filled; right | done | done | done | done |].
      exists ports. split; [done |]. split; [apply instance_nets |]. intros n Hn. rewrite E6. cbn [firstNetId x1 instanceOf].
      change (firstNetId x1) with (flatNets st). rewrite <- (ok_nets _ Hok). apply replicated_parent. lia.
    + change (firstDeviceId x1) with (flatDevices st). rewrite <- (ok_devices _ Hok). lia.
    + intros n Hn. rewrite E7. change (firstDeviceId x1) with (flatDevices st). rewrite <- (ok_devices _ Hok).
      by apply replicated_parent.
  - rewrite instance_nets, E4. apply Forall_app. split.
    + apply Forall_forall. intros n Hn. pose proof (proj1 (Forall_forall _ _) Hin n Hn) as Hn'.
      pose proof (proj1 (Forall_forall _ _) Hynets n Hn'). cbn in *. lia.
    + apply Forall_forall. intros n Hn%list_elem_of_In. apply in_map_iff in Hn as (k & <- & Hk%list_elem_of_In%elem_of_seqZ).
      pose proof (ok_nets _ Hok). lia.
  - change (firstSubcircuitId x1) with (flatSubcircuits st). change (firstNetId x1) with (flatNets st).
    change (master_p x1) with (masterCircuit_p s). pose proof (ok_nets _ Hok). split_and!; [lia | lia | lia |].
    intros c' Hc'. assert (c' = c0) as -> by congruence. lia.
Qed.

Lemma started_ok : ok st1.
Proof.
  pose proof started_members as (E1 & E2 & E3 & E4 & E5 & E6 & E7). pose proof Hok as [Hcells Hn Hdv Hct Hsl Hids].
  assert (0 <= masterCircuit_p s < Z.of_nat (length (cells st))) as Hm by (by eapply vlookup_range).
  assert (instanceId_v (allocated c) = instanceId_v c) as Eids by (unfold allocated; by case_bool_decide).
  split.
  - rewrite E2. unfold vupdate. rewrite (proj2 (in_range_spec _ _) Hm).
    rewrite <- (list_insert_id cs _ _ (Prelude.vlookup_lookup _ _ _ Hc0)). apply Forall2_insert; [done |].
    unfold sameCell in *. rewrite Hsame. unfold allocated. by case_bool_decide.
  - rewrite E6, E4, length_app, length_replicate. lia.
  - rewrite E7, E5, length_app, length_replicate. lia.
  - rewrite E3, E1, vupdate_length. lia.
  - intros k x Hk. split.
    + rewrite E3. apply started_filled in Hk as [[-> _] | [_ Hk]]; [lia |]. apply Hsl in Hk as [? _]. lia.
    + apply started_filled in Hk as [[-> ->] | [_ Hk]]; [apply started_wf |].
      eapply wf_extends; [apply started_extends | by apply Hsl].
  - intros k e. rewrite E2. destruct (decide (k = masterCircuit_p s)) as [-> | Hne].
    + rewrite vlookup_vupdate_eq by done. intros [= <-]. destruct (Hids _ _ Hc) as [Hnd Hin'].
      unfold pushInstance, set_ids. cbn [instanceId_v]. rewrite Eids.
      assert (i ∉ instanceId_v c) as Hfresh. { intros Hii. apply Hin' in Hii as (x & Hx & _). unfold filled in Hx. congruence. }
      split; [apply NoDup_app; split_and!; [done | | apply NoDup_singleton]; intros k Hk ->%list_elem_of_singleton; done |].
      intros k. rewrite elem_of_app, list_elem_of_singleton, Hin'. split.
      * intros [(x & Hx & Hmx) | ->]; [exists x | exists x1]; rewrite started_filled; [| by auto].
        split; [right; split; [intros ->; unfold filled in Hx; congruence | done] | done].
      * intros (x & [[-> ->] | [_ Hx]]%started_filled & Hmx); [by right | left; by exists x].
    + rewrite vlookup_vupdate_ne by congruence. intros He. destruct (Hids k e He) as [Hnd Hin']. split; [done |].
      intros q. rewrite Hin'. split; intros (x & Hx & Hmx); exists x; rewrite started_filled in *.
      * split; [right; split; [intros ->; unfold filled in Hx; congruence | done] | done].
      * destruct Hx as [[-> ->] | [_ Hx]]; [by cbn in Hmx | done].
Qed.
End Start.

(** ** The whole hierarchy *)

Definition sizeOf (m : Z) : Z := Z.of_nat (length (expand cs rank m)).
Definition netsBelow (m : Z) : Z := sumOf (localNets cs) (expand cs rank m).
Definition devicesBelow (m : Z) : Z := sumOf (localDevices cs) (expand cs rank m).

Lemma sizeOf_eq m : R m -> sizeOf m = 1 + sumOf sizeOf (kids cs m).
Proof.
  intros Hm. unfold sizeOf at 1. rewrite (expand_eq cs rank R (un_linkable HU)) by done. cbn [length].
  rewrite Nat2Z.inj_succ. unfold sumOf. induction (kids cs m) as [| k l IH]; [done |].
  cbn [map concat foldr]. rewrite length_app. unfold sizeOf at 1. lia.
Qed.
Lemma netsBelow_eq m : R m -> netsBelow m = localNets cs m + sumOf netsBelow (kids cs m).
Proof. apply (total_eq cs rank R (un_linkable HU)). Qed.
Lemma devicesBelow_eq m : R m -> devicesBelow m = localDevices cs m + sumOf devicesBelow (kids cs m).
Proof. apply (total_eq cs rank R (un_linkable HU)). Qed.

(** There is room for instances of the circuits [ms] and all below them, apart from
    the instances of [ms] themselves, whose places are taken. *)
Definition room (st : flatState) (ms : list Z) : Prop :=
  flatSubcircuits st + sumOf (fun m => sizeOf m - 1) ms <= Z.of_nat (length (slots st)) <= MAX_ITEMS /\
  flatNets st + sumOf netsBelow ms <= MAX_ITEMS /\ flatDevices st + sumOf devicesBelow ms <= MAX_ITEMS.

(** What making the instances [is] of the circuits [ms] does. *)
Record made (st st' : flatState) (is_ : list Z) (ms : list Z) : Prop := mkMade {
  made_ok : ok st';
  made_extends : extends st st';
  made_length : length (slots st') = length (slots st);
  made_subcircuits : flatSubcircuits st' = flatSubcircuits st + sumOf (fun m => sizeOf m - 1) ms;
  made_nets : flatNets st' = flatNets st + sumOf netsBelow ms;
  made_devices : flatDevices st' = flatDevices st + sumOf devicesBelow ms;
  made_frame k : k ∉ is_ -> k < flatSubcircuits st -> vlookup (slots st') k = vlookup (slots st) k;
  made_is : Forall (fun i => exists x, filled st' i x) is_;
  made_new k : flatSubcircuits st <= k < flatSubcircuits st' -> exists x, filled st' k x
}.

Lemma made_nil st : ok st -> made st st [] [].
Proof. intros H. split; try done; cbn; lia. Qed.

Lemma sizeOf_pos m : R m -> 1 <= sizeOf m.
Proof. intros Hm. unfold sizeOf. rewrite (expand_eq cs rank R (un_linkable HU)) by done. cbn. lia. Qed.

Lemma made_app st st1 st2 i is_ m ms :
  R m -> i < flatSubcircuits st -> Forall (fun k => k < flatSubcircuits st /\ k <> i) is_ ->
  made st st1 [i] [m] -> made st1 st2 is_ ms -> made st st2 (i :: is_) (m :: ms).
Proof.
  intros Hm Hlt HF H1 H2. pose proof (sizeOf_pos m Hm). pose proof (made_subcircuits _ _ _ _ H1) as E1.
  pose proof (made_subcircuits _ _ _ _ H2) as E2. cbn [sumOf foldr] in E1. split.
  - apply H2.
  - etransitivity; [apply H1 | apply H2].
  - by rewrite (made_length _ _ _ _ H2), (made_length _ _ _ _ H1).
  - rewrite E2, E1. unfold sumOf. cbn [foldr]. lia.
  - rewrite (made_nets _ _ _ _ H2), (made_nets _ _ _ _ H1). unfold sumOf. cbn [foldr]. lia.
  - rewrite (made_devices _ _ _ _ H2), (made_devices _ _ _ _ H1). unfold sumOf. cbn [foldr]. lia.
  - intros k [Hki Hk]%not_elem_of_cons Hkl. rewrite (made_frame _ _ _ _ H2) by (done || lia).
    apply (made_frame _ _ _ _ H1); [by rewrite list_elem_of_singleton | done].
  - constructor; [| apply H2]. pose proof (proj1 (Forall_singleton _ _) (made_is _ _ _ _ H1)) as (x & Hx).
    exists x. by apply (ex_slots _ _ (made_extends _ _ _ _ H2)).
  - intros k Hk. destruct (decide (k < flatSubcircuits st1)) as [Hk1 | Hk1].
    + destruct (made_new _ _ _ _ H1 k ltac:(lia)) as (x & Hx). exists x. by apply (ex_slots _ _ (made_extends _ _ _ _ H2)).
    + apply (made_new _ _ _ _ H2). lia.
Qed.

(** Making the instance of one call. *)
Definition makes (fuel : nat) : Prop := forall st p y d j s,
  ok st -> filled st p y -> vlookup cs (master_p y) = Some d -> subcircuitPtr_v d !! j = Some s ->
  let i := firstSubcircuitId y + Z.of_nat j in
  vlookup (slots st) i = Some None -> 0 <= i < flatSubcircuits st -> (rank (masterCircuit_p s) < fuel)%nat ->
  room st [masterCircuit_p s] ->
  exists st', makeChild (AssignGlobalIDs limit fuel) p (firstSubcircuitId y) false (j, s) st = Ok (tt, st') /\
    made st st' [i] [masterCircuit_p s].

Lemma kid_call k c j s : R k -> vlookup cs k = Some c -> subcircuitPtr_v c !! j = Some s ->
  kids cs k !! j = Some (masterCircuit_p s) /\ R (masterCircuit_p s) /\ (rank (masterCircuit_p s) < rank k)%nat.
Proof.
  intros Hk Hc Hs. assert (kids cs k !! j = Some (masterCircuit_p s)) as E.
  { rewrite <- (un_masters HU k c Hk Hc), list_lookup_fmap, Hs. done. }
  split; [done |]. pose proof (kids_R cs rank R (un_linkable HU) k Hk) as HF.
  exact (proj1 (Forall_forall _ _) HF _ (list_elem_of_lookup_2 _ _ _ E)).
Qed.

Lemma sumOf_cons f x l : sumOf f (x :: l) = f x + sumOf f l.
Proof. done. Qed.

Lemma calls_run fuel (Hmakes : makes fuel) n : forall j0 st i x c,
  ok st -> filled st i x -> vlookup cs (master_p x) = Some c -> (rank (master_p x) <= fuel)%nat ->
  (j0 + n = length (subcircuitPtr_v c))%nat ->
  (forall k, (j0 <= k < length (subcircuitPtr_v c))%nat -> let q := firstSubcircuitId x + Z.of_nat k in
     vlookup (slots st) q = Some None /\ 0 <= q < flatSubcircuits st) ->
  room st (drop j0 (kids cs (master_p x))) ->
  exists st', forEach (drop j0 (numberedCalls c)) (makeChild (AssignGlobalIDs limit fuel) i (firstSubcircuitId x) false) st
      = Ok (tt, st') /\
    made st st' (map (fun k => firstSubcircuitId x + Z.of_nat k) (seq j0 n)) (drop j0 (kids cs (master_p x))).
Proof.
  induction n as [| n IH]; intros j0 st i x c Hok Hx Hc Hr Hj Hslots Hroom.
  all: destruct (ok_slots _ Hok i x Hx) as [_ [(c' & HR & Hc' & _) _ _]].
  all: assert (length (kids cs (master_p x)) = length (subcircuitPtr_v c)) as Hlen
         by (rewrite <- (un_masters HU _ _ HR Hc); apply length_map).
  - exists st. rewrite !drop_ge by (unfold numberedCalls; rewrite ?length_imap; lia). split; [done |]. by apply made_nil.
  - destruct (lookup_lt_is_Some_2 (subcircuitPtr_v c) j0 ltac:(lia)) as [s Hs].
    destruct (kid_call _ _ _ _ HR Hc Hs) as (Hk & HRm & Hrm). set (m := masterCircuit_p s) in *.
    assert (numberedCalls c !! j0 = Some (j0, s)) as Hn by (unfold numberedCalls; by rewrite list_lookup_imap, Hs).
    rewrite (drop_S _ _ _ Hn), (drop_S _ _ _ Hk) in *. cbn [forEach seq map]. unfold mbind, M_bind.
    destruct (Hslots j0 ltac:(lia)) as [Hnull Hrange]. destruct Hroom as (B1 & B2 & B3). rewrite sumOf_cons in B1, B2, B3.
    assert (forall l, Forall (fun k => R k) l -> 0 <= sumOf (fun m => sizeOf m - 1) l /\ 0 <= sumOf netsBelow l /\ 0 <= sumOf devicesBelow l) as Hpos.
    { induction 1 as [| k l HRk HF IHl]; [done |]. rewrite !sumOf_cons. pose proof (sizeOf_pos k HRk).
      pose proof (localNets_nonneg cs rank R (un_linkable HU) k HRk). pose proof (localDevices_nonneg cs rank k).
      unfold netsBelow, devicesBelow in *. lia. }
    destruct (Hpos (drop (S j0) (kids cs (master_p x)))) as (P1 & P2 & P3).
    { apply Forall_drop. eapply Forall_impl; [apply (kids_R cs rank R (un_linkable HU) _ HR) | by intros k [? _]]. }
    destruct (Hmakes st i x c j0 s Hok Hx Hc Hs Hnull Hrange ltac:(fold m; lia)) as (st1 & E1 & H1).
    { unfold room. rewrite !sumOf_cons. cbn [sumOf foldr]. fold m. lia. }
    rewrite E1. pose proof (made_subcircuits _ _ _ _ H1) as S1. pose proof (made_nets _ _ _ _ H1) as S2.
    pose proof (made_devices _ _ _ _ H1) as S3. pose proof (made_length _ _ _ _ H1) as S4. cbn [sumOf foldr] in S1, S2, S3.
    fold m in S1, S2, S3. pose proof (sizeOf_pos m HRm).
    destruct (IH (S j0) st1 i x c) as (st2 & E2 & H2).
    + apply H1.
    + by apply (ex_slots _ _ (made_extends _ _ _ _ H1)).
    + done.
    + done.
    + lia.
    + intros k Hk'. destruct (Hslots k ltac:(lia)) as [Hn' Hr']. cbn zeta. split; [| lia].
      rewrite (made_frame _ _ _ _ H1); [done | | lia]. rewrite list_elem_of_singleton. lia.
    + unfold room. lia.
    + exists st2. split; [done |]. eapply made_app; [done | lia | | exact H1 | exact H2].
      apply Forall_forall. intros q Hq%list_elem_of_In. apply in_map_iff in Hq as (k & <- & Hk2%in_seq).
      destruct (Hslots k ltac:(lia)) as [_ Hr']. cbn zeta in *. lia.
Qed.

Lemma sizes_nonneg k : R k -> 1 <= sizeOf k /\ 0 <= netsBelow k /\ 0 <= devicesBelow k.
Proof.
  intros Hk. split; [by apply sizeOf_pos |]. split; [by apply (localNets_nonneg cs rank R (un_linkable HU)) |].
  apply localDevices_nonneg.
Qed.

Lemma sumOf_minus l : sumOf (fun m => sizeOf m - 1) l = sumOf sizeOf l - Z.of_nat (length l).
Proof. unfold sumOf. induction l as [| k l IH]; cbn [foldr length]; lia. Qed.

Lemma made_instance st st1 st' i m c :
  R m -> i < flatSubcircuits st -> extends st st1 -> length (slots st1) = length (slots st) ->
  (forall k, k <> i -> vlookup (slots st1) k = vlookup (slots st) k) -> (exists x, filled st1 i x) ->
  vlookup cs m = Some c ->
  flatSubcircuits st1 = flatSubcircuits st + Z.of_nat (length (subcircuitPtr_v c)) ->
  flatNets st1 = flatNets st + (localSignalCount c - portCount c) ->
  flatDevices st1 = flatDevices st + Z.of_nat (length (devicePtr_v c)) ->
  made st1 st' (map (fun k => flatSubcircuits st + Z.of_nat k) (seq 0 (length (subcircuitPtr_v c)))) (kids cs m) ->
  made st st' [i] [m].
Proof.
  intros Hm Hi Hex Hlen Hsl (x & Hx) Hc S1 S2 S3 H.
  assert (length (kids cs m) = length (subcircuitPtr_v c)) as Hk by (rewrite <- (un_masters HU _ _ Hm Hc); apply length_map).
  assert (localNets cs m = localSignalCount c - portCount c) as En by (unfold localNets; by rewrite Hc).
  assert (localDevices cs m = Z.of_nat (length (devicePtr_v c))) as Ed by (unfold localDevices; by rewrite Hc).
  pose proof (made_subcircuits _ _ _ _ H) as T1. rewrite sumOf_minus in T1.
  split.
  - apply H.
  - etransitivity; [exact Hex | apply H].
  - by rewrite (made_length _ _ _ _ H).
  - rewrite T1, sumOf_cons, (sizeOf_eq m Hm). cbn [sumOf foldr]. lia.
  - rewrite (made_nets _ _ _ _ H), sumOf_cons, (netsBelow_eq m Hm). cbn [sumOf foldr]. lia.
  - rewrite (made_devices _ _ _ _ H), sumOf_cons, (devicesBelow_eq m Hm). cbn [sumOf foldr]. lia.
  - intros k Hki Hk'. rewrite list_elem_of_singleton in Hki. rewrite (made_frame _ _ _ _ H); [by apply Hsl | | lia].
    intros Hin%list_elem_of_In. apply in_map_iff in Hin as (q & <- & _). lia.
  - apply Forall_singleton. exists x. by apply (ex_slots _ _ (made_extends _ _ _ _ H)).
  - intros k Hk'. destruct (decide (k < flatSubcircuits st1)) as [Hlt | Hge].
    + apply (proj1 (Forall_forall _ _) (made_is _ _ _ _ H)). apply list_elem_of_In, in_map_iff.
      exists (Z.to_nat (k - flatSubcircuits st)). split; [lia |]. apply in_seq. lia.
    + apply (made_new _ _ _ _ H). lia.
Qed.

Lemma null_above st k : ok st -> flatSubcircuits st <= k < Z.of_nat (length (slots st)) -> vlookup (slots st) k = Some None.
Proof.
  intros Hok Hk. assert (0 <= k < Z.of_nat (length (slots st))) as Hr by (pose proof (ok_count _ Hok); lia).
  apply vlookup_is_Some in Hr as [[x |] Hx]; [| done]. apply (ok_slots _ Hok) in Hx as [? _]. lia.
Qed.

(** The nets of the ports of a call. *)
Lemma call_ports st p y d j s c :
  ok st -> filled st p y -> vlookup cs (master_p y) = Some d -> subcircuitPtr_v d !! j = Some s ->
  vlookup cs (masterCircuit_p s) = Some c -> exists ports,
  portNets (localToGlobalNetId_v y) (portSignalId_v s) = Ok ports /\ Z.of_nat (length ports) = portCount c /\
  Z.of_nat (length (portSignalId_v s)) = portCount c /\ Forall (fun n => n ∈ localToGlobalNetId_v y) ports.
Proof.
  intros Hok Hy Hd Hs Hc. destruct (ok_slots _ Hok p y Hy) as [_ [(d' & HR & Hd' & Hlen & _) _ _]].
  assert (d' = d) as -> by congruence. pose proof (list_elem_of_lookup_2 _ _ _ Hs) as Hin.
  destruct (portNets_Ok (localToGlobalNetId_v y) (portSignalId_v s)) as (ports & E & Hl & HF).
  { rewrite Hlen. exact (proj1 (Forall_forall _ _) (typed_calls _ (un_typed HU _ _ HR Hd)) s Hin). }
  destruct (proj1 (Forall_forall _ _) (lk_calls _ _ _ (un_linkable HU) _ _ HR Hd) s Hin) as (m & c' & Ef & Hc' & Hports & _).
  assert (m = masterCircuit_p s) as ->.
  { destruct (kid_call _ _ _ _ HR Hd Hs) as (Hk & _). unfold kids in Hk. rewrite Hd, list_lookup_fmap, Hs in Hk. cbn in Hk.
    rewrite Ef in Hk. cbn in Hk. congruence. }
  assert (c' = c) as -> by congruence. exists ports. split_and!; [done | lia | done | done].
Qed.

Lemma makes_all fuel : makes fuel.
Proof.
  induction fuel as [| fuel IH]; intros st p y d j s Hok Hy Hd Hs i Hnull Hi Hr Hroom; [lia |].
  destruct (ok_slots _ Hok p y Hy) as [Hp [(d' & HRy & _) _]].
  destruct (kid_call _ _ _ _ HRy Hd Hs) as (_ & HRm & _). set (m := masterCircuit_p s) in *.
  destruct (lk_exists _ _ _ (un_linkable HU) m HRm) as (c0 & Hc0 & Hpc).
  destruct (ok_cell st m c0 Hok Hc0) as (c & Hc & Hsame). destruct (same_members c0 c Hsame) as (A1 & A2 & A3 & A4).
  destruct (call_ports st p y d j s c0 Hok Hy Hd Hs Hc0) as (ports & Eports & Hlen & Hlen' & Hin).
  destruct Hroom as (B1 & B2 & B3). rewrite sumOf_cons in B1, B2, B3. cbn [sumOf foldr] in B1, B2, B3.
  rewrite (sizeOf_eq m HRm) in B1. rewrite (netsBelow_eq m HRm) in B2. rewrite (devicesBelow_eq m HRm) in B3.
  assert (localNets cs m = localSignalCount c0 - portCount c0) as En by (unfold localNets; by rewrite Hc0).
  assert (localDevices cs m = Z.of_nat (length (devicePtr_v c0))) as Ed by (unfold localDevices; by rewrite Hc0).
  assert (length (kids cs m) = length (subcircuitPtr_v c0)) as Hk by (rewrite <- (un_masters HU _ _ HRm Hc0); apply length_map).
  pose proof (sumOf_minus (kids cs m)) as Hsum.
  assert (0 <= sumOf (fun m => sizeOf m - 1) (kids cs m) /\ 0 <= sumOf netsBelow (kids cs m) /\ 0 <= sumOf devicesBelow (kids cs m)) as (P1 & P2 & P3).
  { pose proof (kids_R cs rank R (un_linkable HU) m HRm) as HF. clear -HF HU. induction HF as [| k l [HRk _] HF IHl]; [done |].
    rewrite !sumOf_cons. destruct (sizes_nonneg k HRk) as (? & ? & ?). lia. }
  set (st1 := started st i p m c ports). set (x1 := instanceOf st p m c ports).
  assert (ok st1) as Hok1 by (eapply (started_ok st i p y d j s c0); eauto; lia).
  assert (extends st st1) as Hex1 by (eapply (started_extends st i p y j s c0); eauto; lia).
  assert (slots st1 = vupdate (slots st) i (Some x1) /\
    flatSubcircuits st1 = flatSubcircuits st + Z.of_nat (length (subcircuitPtr_v c0)) /\
    flatNets st1 = flatNets st + (localSignalCount c0 - portCount c0) /\
    flatDevices st1 = flatDevices st + Z.of_nat (length (devicePtr_v c0))) as (M1 & M3 & M4 & M5).
  { edestruct (started_members st i p j s c0 c ports) as (? & _ & ? & ? & ? & _); eauto; lia. }
  assert (0 <= i < Z.of_nat (length (slots st))) as Hir by (by eapply vlookup_range).
  assert (filled st1 i x1) as Hx1 by (unfold filled; rewrite M1; by apply vlookup_vupdate_eq).
  destruct (calls_run fuel IH (length (subcircuitPtr_v c0)) 0 st1 i x1 c0) as (st' & E & Hmade); [done | done | done | | done | | |].
  { change (master_p x1) with m. lia. }
  { intros k Hk'. cbn zeta. change (firstSubcircuitId x1) with (flatSubcircuits st). split; [| lia].
    rewrite M1, vlookup_vupdate_ne by lia. apply null_above; [done | lia]. }
  { change (master_p x1) with m. rewrite drop_0. unfold room. rewrite M1, vupdate_length. lia. }
  exists st'. split.
  - rewrite (start_run limit fuel st p y _ j s i c ports); [| exact Hy | | | done | | done | lia |].
    + rewrite <- E. unfold numberedCalls. by rewrite A4.
    + intros ->. unfold filled in Hy. congruence.
    + symmetry. apply u32_id. unfold MAX_ITEMS in *. lia.
    + exact (proj1 (Forall_forall _ _) (un_limit HU _ _ HRy Hd) s (list_elem_of_lookup_2 _ _ _ Hs)).
    + unfold callNets. rewrite A1, (proj2 (Z.ltb_ge _ _)) by lia. by rewrite take_ge by lia.
  - eapply (made_instance st st1 st' i m c0); eauto.
    + lia.
    + by rewrite M1, vupdate_length.
    + intros k Hne. by rewrite M1, vlookup_vupdate_ne.
Qed.

(** *** The top *)

(** Every place is filled, by an instance whose nets and devices are numbered. *)
Definition flattened (st : flatState) : Prop :=
  ok st /\ forall i, 0 <= i < Z.of_nat (length (slots st)) -> exists x, filled st i x.

Section Top.
Context (t : Z) (c : CCircuit) (Ht : R t) (Hc : vlookup cs t = Some c)
  (Hids : Forall (fun c => instanceId_v c = []) cs)
  (Hsize : sizeOf t <= MAX_ITEMS) (Hnets : netsBelow t + portCount c <= MAX_ITEMS) (Hdevs : devicesBelow t <= MAX_ITEMS).

Definition topInstance : CInstance := mkInstance 0 1 0 0 (seqZ 0 (localSignalCount c)) 0 t UNKNOWN_DEVICE.
Definition topState : flatState :=
  mkFlat (vupdate (replicate (Z.to_nat (sizeOf t)) None) 0 (Some topInstance)) (vupdate cs t (pushInstance 0 c))
    (1 + Z.of_nat (length (subcircuitPtr_v c))) (localSignalCount c) (Z.of_nat (length (devicePtr_v c)))
    (replicate (Z.to_nat (localSignalCount c)) 0) (replicate (length (devicePtr_v c)) 0).

Lemma top_sizes : 0 <= portCount c <= localSignalCount c /\ length (kids cs t) = length (subcircuitPtr_v c) /\
  sizeOf t = 1 + sumOf sizeOf (kids cs t) /\ netsBelow t = localSignalCount c - portCount c + sumOf netsBelow (kids cs t) /\
  devicesBelow t = Z.of_nat (length (devicePtr_v c)) + sumOf devicesBelow (kids cs t) /\
  0 <= sumOf (fun m => sizeOf m - 1) (kids cs t) /\ 0 <= sumOf netsBelow (kids cs t) /\ 0 <= sumOf devicesBelow (kids cs t).
Proof.
  destruct (lk_exists _ _ _ (un_linkable HU) t Ht) as (c' & Hc' & Hp). assert (c' = c) as -> by congruence.
  split; [done |]. split; [rewrite <- (un_masters HU _ _ Ht Hc); apply length_map |]. split; [by apply sizeOf_eq |].
  split; [rewrite (netsBelow_eq t Ht); unfold localNets; by rewrite Hc |].
  split; [rewrite (devicesBelow_eq t Ht); unfold localDevices; by rewrite Hc |].
  pose proof (kids_R cs rank R (un_linkable HU) t Ht) as HF. clear -HF HU. induction HF as [| k l [HRk _] HF IHl]; [done |].
  rewrite !sumOf_cons. destruct (sizes_nonneg k HRk) as (? & ? & ?). lia.
Qed.

Lemma top_length : Z.of_nat (length (slots topState)) = sizeOf t.
Proof. cbn [slots topState]. rewrite vupdate_length, length_replicate. pose proof (sizeOf_pos t Ht). lia. Qed.

Lemma top_filled k x : filled topState k x <-> k = 0 /\ x = topInstance.
Proof.
  unfold filled. cbn [slots topState]. rewrite vlookup_vupdate. pose proof (sizeOf_pos t Ht).
  rewrite (proj2 (in_range_spec _ _)) by (rewrite length_replicate; lia).
  destruct (Z.eqb_spec 0 k) as [<- | Hne]; [naive_solver |]. split; [| naive_solver].
  intros Hx%Prelude.vlookup_lookup. apply lookup_replicate in Hx as [? _]. done.
Qed.

Lemma vlookup_replicate {A} n (a : A) k : 0 <= k < Z.of_nat n -> vlookup (replicate n a) k = Some a.
Proof.
  intros Hk. unfold vlookup. rewrite (proj2 (in_range_spec _ _)) by (rewrite length_replicate; lia).
  apply lookup_replicate. split; [done | lia].
Qed.

Lemma top_ok : ok topState.
Proof.
  destruct top_sizes as (Hp & Hk & E1 & E2 & E3 & P1 & P2 & P3). pose proof (sumOf_minus (kids cs t)).
  pose proof (vlookup_range _ _ _ Hc) as Hr. split.
  - cbn [cells topState]. unfold vupdate. rewrite (proj2 (in_range_spec _ _) Hr).
    rewrite <- (list_insert_id cs _ _ (Prelude.vlookup_lookup _ _ _ Hc)) at 1. apply Forall2_insert.
    + clear. induction cs as [| e l IH]; constructor; [by destruct e | done].
    + by destruct c.
  - cbn. rewrite length_replicate. lia.
  - cbn. by rewrite length_replicate.
  - rewrite top_length. cbn [flatSubcircuits topState]. lia.
  - intros k x [-> ->]%top_filled. split; [cbn; lia |]. split.
    + exists c. split; [done |]. split; [done |]. split; [cbn [localToGlobalNetId_v topInstance]; rewrite length_seqZ; lia |].
      split; [left; split; [done |]; split; [done |]; intros n Hn; cbn [netParents topState]; apply vlookup_replicate; lia |].
      split; [done |]. intros n Hn. cbn [deviceParents topState firstDeviceId topInstance]. by apply vlookup_replicate.
    + apply Forall_forall. intros n Hn. cbn [localToGlobalNetId_v topInstance flatNets topState] in *.
      apply elem_of_seqZ in Hn. lia.
    + cbn [firstSubcircuitId firstNetId master_p topInstance flatSubcircuits topState]. split_and!; [lia | lia | done |].
      intros c' Hc'. assert (c' = c) as -> by congruence. lia.
  - intros k e. cbn [cells topState]. rewrite vlookup_vupdate, (proj2 (in_range_spec _ _) Hr).
    destruct (Z.eqb_spec t k) as [<- | Hne]; intros He.
    + injection He as <-. pose proof (proj1 (Forall_forall _ _) Hids c
        (list_elem_of_lookup_2 _ _ _ (Prelude.vlookup_lookup _ _ _ Hc))) as Hnil.
      cbn [pushInstance set_ids instanceId_v]. unfold pushInstance, set_ids. cbn [instanceId_v]. rewrite Hnil. cbn [app].
      split; [apply NoDup_singleton |]. intros q. rewrite list_elem_of_singleton. split.
      * intros ->. exists topInstance. split; [by apply top_filled | done].
      * by intros (x & [-> _]%top_filled & _).
    + pose proof (proj1 (Forall_forall _ _) Hids e
        (list_elem_of_lookup_2 _ _ _ (Prelude.vlookup_lookup _ _ _ He))) as Hnil. rewrite Hnil.
      split; [constructor |]. intros q. split; [by intros ?%not_elem_of_nil |].
      intros (x & [-> ->]%top_filled & Hm). cbn in Hm. congruence.
Qed.

Lemma top_run fuel : totalSubcircuits c = sizeOf t ->
  flatten limit fuel t cs =
  ('(_, st) ← forEach (numberedCalls c) (makeChild (AssignGlobalIDs limit fuel) 0 1 false) topState; Ok st).
Proof.
  intros Htot. destruct top_sizes as (Hp & Hk & E1 & E2 & E3 & P1 & P2 & P3). pose proof (sizeOf_pos t Ht) as Hpos.
  pose proof (sumOf_minus (kids cs t)). pose proof (vlookup_range _ _ _ Hc) as Hr.
  assert (0 <= 0 < Z.of_nat (length (replicate (Z.to_nat (sizeOf t)) (@None CInstance)))) as H0 by (rewrite length_replicate; lia).
  unfold flatten. rewrite (proj2 (vget_Ok _ _ _) Hc). cbn [mbind outcome_bind]. rewrite Htot, (vset_in_range _ _ _ H0).
  cbn [mbind outcome_bind]. unfold AssignTopGlobalIDs, mbind at 2, M_bind at 1. rewrite (cellAt_run t c) by exact Hc.
  unfold mbind at 2, M_bind at 1. rewrite (updateCell_run t _ c) by exact Hc.
  unfold mbind at 2, M_bind at 1. rewrite (updateInstance_run 0 _ newInstance) by (by apply vlookup_vupdate_eq).
  cbn [slots set_slots set_cells cells]. rewrite vupdate_vupdate.
  unfold mbind at 2, M_bind at 1. rewrite (updateInstance_run 0 _ (set_place 0 t 1 newInstance)) by (by apply vlookup_vupdate_eq).
  cbn [slots set_slots set_cells cells]. rewrite vupdate_vupdate. unfold mbind at 2, M_bind at 1, modify.
  cbn [slots set_slots set_cells cells flatSubcircuits flatNets flatDevices netParents deviceParents].
  unfold MAX_ITEMS in *. rewrite !u32_id by lia. rewrite !resizeWith_grow by (cbn; lia). cbn [length app].
  rewrite !Z.sub_0_r, Nat2Z.id. done.
Qed.

Lemma flatten_run fuel : totalSubcircuits c = sizeOf t -> (rank t <= fuel)%nat ->
  exists st, flatten limit fuel t cs = Ok st /\ flattened st /\ Z.of_nat (length (slots st)) = sizeOf t /\
    flatSubcircuits st = sizeOf t /\ flatNets st = netsBelow t + portCount c /\ flatDevices st = devicesBelow t.
Proof.
  intros Htot Hr. destruct top_sizes as (Hp & Hk & E1 & E2 & E3 & P1 & P2 & P3). pose proof (sumOf_minus (kids cs t)) as Hs.
  destruct (calls_run fuel (makes_all fuel) (length (subcircuitPtr_v c)) 0 topState 0 topInstance c)
    as (st & E & Hmade); [apply top_ok | by apply top_filled | done | done | done | | |].
  { intros k Hk'. cbn zeta. change (firstSubcircuitId topInstance) with 1. split.
    - cbn [slots topState]. rewrite vlookup_vupdate_ne by lia. apply vlookup_replicate. lia.
    - cbn [flatSubcircuits topState]. lia. }
  { rewrite drop_0. change (master_p topInstance) with t. unfold room. rewrite top_length.
    cbn [flatSubcircuits flatNets flatDevices topState]. lia. }
  rewrite !drop_0 in *. change (master_p topInstance) with t in *. change (firstSubcircuitId topInstance) with 1 in *.
  pose proof (made_subcircuits _ _ _ _ Hmade) as S1. pose proof (made_nets _ _ _ _ Hmade) as S2.
  pose proof (made_devices _ _ _ _ Hmade) as S3. pose proof (made_length _ _ _ _ Hmade) as S4.
  cbn [flatSubcircuits flatNets flatDevices topState] in S1, S2, S3. pose proof top_length as Hl.
  exists st. split; [rewrite top_run by done; by rewrite E |]. split; [| lia]. split; [apply Hmade |]. intros i Hi.
  destruct (decide (i = 0)) as [-> | Hne].
  { exists topInstance. apply (ex_slots _ _ (made_extends _ _ _ _ Hmade)). by apply top_filled. }
  destruct (decide (i < 1 + Z.of_nat (length (subcircuitPtr_v c)))).
  - apply (proj1 (Forall_forall _ _) (made_is _ _ _ _ Hmade)). apply list_elem_of_In, in_map_iff.
    exists (Z.to_nat (i - 1)). split; [lia |]. apply in_seq. lia.
  - apply (made_new _ _ _ _ Hmade). cbn [flatSubcircuits topState]. lia.
Qed.
End Top.

End Unmerged.

(** ** From the counted netlist *)

Section Composed.
Context (cs0 : list CCircuit) (rank : Z -> nat) (R : Z -> Prop) (limit : Z) (HL : linkable cs0 rank R)
  (Hsize : forall k, R k -> Z.of_nat (length (expand cs0 rank k)) <= 2 ^ 32)
  (Hfresh : Forall (fun c => linked c = false /\ instanceCount c = 0 /\ instanceId_v c = []) cs0)
  (Htyped : Forall circuit_typed cs0)
  (Hlimit : Forall (fun c => Forall (fun s => limit < Z.of_nat (length (portSignalId_v s))) (subcircuitPtr_v c)) cs0).

(** What holds of the signals of the calls holds after the count. *)
Lemma calls_shape (P : list Z -> Prop) c d :
  sameShape c d -> Forall (fun s => P (portSignalId_v s)) (subcircuitPtr_v c) ->
  Forall (fun s => P (portSignalId_v s)) (subcircuitPtr_v d).
Proof.
  intros Hs H. apply Forall_map. apply Forall_map in H.
  assert (forall l, map portSignalId_v l = map (fun x => x.1.2) (map callShape l)) as E by (intros; by rewrite map_map).
  rewrite E, (sh_calls _ _ Hs), <- E. exact H.
Qed.

Lemma counted_unmerged t cs :
  R t -> Forall2 sameShape cs0 cs -> (forall x c, vlookup cs x = Some c -> counted cs0 rank t x c) ->
  unmerged cs rank (fun k => R k /\ k ∈ expand cs0 rank t) limit.
Proof.
  intros Ht Hsh Hcount.
  assert (forall (P : CCircuit -> Prop) k c, Forall P cs0 -> vlookup cs k = Some c -> exists d, P d /\ sameShape d c) as Hback.
  { intros P k c HP Hc. destruct (shape_lookup _ _ Hsh k c Hc) as (d & Hd & Hs). exists d. split; [| done].
    apply (proj1 (Forall_forall _ _) HP), (list_elem_of_lookup_2 _ (Z.to_nat k)). by apply Prelude.vlookup_lookup. }
  split.
  - by apply (linkable_shape cs0 cs Hsh rank R t HL Ht).
  - intros k c [_ Hk] Hc. rewrite (kids_shape cs0 cs Hsh). by apply (counted_masters _ _ _ _ _ (Hcount k c Hc)).
  - intros k c _ Hc. destruct (Hback _ k c Htyped Hc) as (d & [H1 H2 H3 H4] & Hs). split.
    + by rewrite (sh_ports _ _ Hs), (sh_signals _ _ Hs).
    + by rewrite (sh_devices _ _ Hs), (sh_signals _ _ Hs).
    + rewrite (sh_signals _ _ Hs). by apply (calls_shape (Forall _) d c).
    + by rewrite (sh_names _ _ Hs), (sh_signals _ _ Hs).
  - intros k c _ Hc. destruct (Hback _ k c Hlimit Hc) as (d & Hd & Hs).
    by apply (calls_shape (fun l => limit < Z.of_nat (length l)) d c).
Qed.

(** The composition, with what the netlist is linked to. *)
Lemma flatten_composed fuel name t c :
  FindCircuit cs0 name = Some t -> R t -> vlookup cs0 t = Some c -> (rank t < fuel)%nat ->
  sumOf (localDevices cs0) (expand cs0 rank t) <= MAX_ITEMS ->
  Z.of_nat (length (expand cs0 rank t)) <= MAX_ITEMS ->
  sumOf (localNets cs0) (expand cs0 rank t) + portCount c <= MAX_ITEMS ->
  exists cs st, CountObjectsAndLinkSubcircuits fuel name cs0 = Ok (t, cs) /\ flatten limit fuel t cs = Ok st /\
    Forall2 sameShape cs0 cs /\ unmerged cs rank (fun k => R k /\ k ∈ expand cs0 rank t) limit /\
    flattened cs (fun k => R k /\ k ∈ expand cs0 rank t) st /\
    length (slots st) = length (expand cs0 rank t) /\
    Z.of_nat (length (netParents st)) = sumOf (localNets cs0) (expand cs0 rank t) + portCount c /\
    Z.of_nat (length (deviceParents st)) = sumOf (localDevices cs0) (expand cs0 rank t).
Proof.
  intros Hf Ht Hc Hr Hd Hs Hn.
  destruct (CountObjects_run cs0 rank R HL Hsize (Forall_impl _ _ _ Hfresh (fun c H => conj (proj1 H) (proj1 (proj2 H))))
    fuel name t Hf Ht Hr Hd Hs ltac:(congruence)) as (cs & E & Hsh & Hcount).
  destruct (shape_lookup_l _ _ Hsh t c Hc) as (d & Hd' & Hshape). pose proof (counted_unmerged t cs Ht Hsh Hcount) as HU.
  assert (t ∈ expand cs0 rank t) as Hin by (rewrite (expand_eq cs0 rank R HL t Ht); by left).
  assert (expand cs rank t = expand cs0 rank t) as Eexp by apply (expand_shape _ _ Hsh).
  assert (netsBelow cs rank t = sumOf (localNets cs0) (expand cs0 rank t) /\
          devicesBelow cs rank t = sumOf (localDevices cs0) (expand cs0 rank t) /\
          sizeOf cs rank t = Z.of_nat (length (expand cs0 rank t))) as (N1 & N2 & N3).
  { unfold netsBelow, devicesBelow, sizeOf. rewrite Eexp. split_and!; [| | done]; apply sumOf_ext; intros.
    - apply (localNets_shape _ _ Hsh).
    - apply (localDevices_shape _ _ Hsh). }
  assert (Forall (fun c => instanceId_v c = []) cs) as Hids.
  { apply Forall_forall. intros e He. apply list_elem_of_lookup in He as (k & Hk).
    destruct (Forall2_lookup_r _ _ _ _ _ Hsh Hk) as (e0 & He0 & Hse). rewrite (sh_ids _ _ Hse).
    by apply (proj1 (Forall_forall _ _) Hfresh e0 (list_elem_of_lookup_2 _ _ _ He0)). }
  destruct (flatten_run cs rank _ limit HU t d (conj Ht Hin) Hd' Hids) with (fuel := fuel) as (st & Est & Hfl & H1 & _ & H3 & H4).
  - lia.
  - rewrite (sh_ports _ _ Hshape). lia.
  - lia.
  - rewrite (counted_subcircuits _ _ _ _ _ (Hcount t d Hd') Hin), Z.eqb_refl, Z.sub_0_r, N3. apply u32_id.
    unfold MAX_ITEMS in *. lia.
  - lia.
  - exists cs, st. destruct (proj1 Hfl) as [_ Hnets Hdevs _ _ _]. split_and!; [done | done | done | done | done | lia | |].
    + rewrite Hnets, H3, N1. by rewrite (sh_ports _ _ Hshape).
    + by rewrite Hdevs, H4.
Qed.

(** C17: Counting and then numbering the hierarchy builds the expanded design: on
    a netlist without recursion in which every call has more ports than are
    considered for merging, [CountObjectsAndLinkSubcircuits] and
    [AssignGlobalIDs] succeed; the places made from the count are filled exactly,
    one for each instance of the expansion; the numbers of nets and devices are
    those of the expansion; every instance is of the circuit its parent calls at
    that place, takes the nets of its ports from the parent and owns its other
    nets and its devices; and a circuit lists exactly its instances. *)
Theorem flatten_expands fuel name t c :
  FindCircuit cs0 name = Some t -> R t -> vlookup cs0 t = Some c -> (rank t < fuel)%nat ->
  sumOf (localDevices cs0) (expand cs0 rank t) <= MAX_ITEMS ->
  Z.of_nat (length (expand cs0 rank t)) <= MAX_ITEMS ->
  sumOf (localNets cs0) (expand cs0 rank t) + portCount c <= MAX_ITEMS ->
  exists cs st, CountObjectsAndLinkSubcircuits fuel name cs0 = Ok (t, cs) /\ flatten limit fuel t cs = Ok st /\
    flattened cs (fun k => R k /\ k ∈ expand cs0 rank t) st /\
    length (slots st) = length (expand cs0 rank t) /\
    Z.of_nat (length (netParents st)) = sumOf (localNets cs0) (expand cs0 rank t) + portCount c /\
    Z.of_nat (length (deviceParents st)) = sumOf (localDevices cs0) (expand cs0 rank t).
Proof.
  intros. destruct (flatten_composed fuel name t c) as (cs & st & E & Est & _ & _ & HF); try done. by exists cs, st.
Qed.
End Composed.

(** The netlist of [exampleCells]: eight instances, eleven nets, ten devices. *)
Lemma flatten_expands_witness :
  exists cs st, CountObjectsAndLinkSubcircuits 3 "top" exampleCells = Ok (2, cs) /\ flatten 0 3 2 cs = Ok st /\
    length (slots st) = 8%nat /\ Z.of_nat (length (netParents st)) = 11 /\ Z.of_nat (length (deviceParents st)) = 10 /\
    netParents st = [0; 0; 0; 0; 1; 4; 5; 2; 6; 7; 3].
Proof.
  assert (match CountObjectsAndLinkSubcircuits 3 "top" exampleCells with
          | Ok (_, cs) => match flatten 0 3 2 cs with Ok st => netParents st | Err _ => [] end | Err _ => [] end =
          [0; 0; 0; 0; 1; 4; 5; 2; 6; 7; 3]) as E by (vm_compute; reflexivity).
  assert (exampleCells = ltac:(let l := eval vm_compute in exampleCells in exact l)) as El by (vm_compute; reflexivity).
  destruct (vlookup exampleCells 2) as [c |] eqn:Ec; [| discriminate Ec].
  assert (portCount c = 3) as Hp by (vm_compute in Ec; injection Ec as <-; reflexivity).
  destruct (flatten_expands exampleCells Z.to_nat (fun k => in_range exampleCells k = true) 0
              (linkable_test exampleCells Z.to_nat ltac:(vm_compute; reflexivity))
              ltac:(intros k Hk%in_range_spec; change (Z.of_nat (length exampleCells)) with 3 in Hk;
                    assert (k = 0 \/ k = 1 \/ k = 2) as [-> | [-> | ->]] by lia; vm_compute; discriminate)
              ltac:(rewrite El; repeat constructor)
              ltac:(rewrite El; repeat constructor; cbn; lia) ltac:(rewrite El; repeat constructor) 3 "top" 2 c)
    as (cs & st & E1 & E2 & _ & H1 & H2 & H3);
    [reflexivity | reflexivity | exact Ec | cbn; lia | vm_compute; discriminate | vm_compute; discriminate
    | rewrite Hp; vm_compute; discriminate |].
  exists cs, st. rewrite E1, E2 in E. rewrite Hp in H2. split_and!; [exact E1 | exact E2 | exact H1 | exact H2 | exact H3 | exact E].
Defined.

(** ** Merged instances *)

Definition flattenAll (limit : Z) (name : string) (cells : list CCircuit) : outcome flatState :=
  '(t, cs) ← CountObjectsAndLinkSubcircuits 9 name cells; flatten limit 9 t cs.

(** With a limit of three ports the second buffer of [exampleCells] is merged with
    the first, its inverters with those of the first, and the
    nets and devices of five instances are numbered. *)
Example flatten_merged :
  match flattenAll 3 "top" exampleCells with
  | Ok st => (map (option_map parallelInstanceCount) (slots st), flatSubcircuits st, flatNets st, flatDevices st)
  | Err _ => ([], 0, 0, 0)
  end = ([Some 0; Some 2; Some 1; Some 1; Some 2; Some 2; Some 4; Some 5], 8, 8, 6).
Proof. vm_compute. reflexivity. Qed.

(** Three levels of calls on the same two nets: a pair of leaves in each of two
    pairs below each of two blocks. *)
Definition nestedCells : list CCircuit :=
  let pair name cell := (name, ["p"; "q"], [call "X1" ["p"; "q"] cell; call "X2" ["p"; "q"] cell]) in
  readAll [("b", ["p"; "q"], [transistor "MN1" "p" "p" "q"]); pair "a" "b"; pair "t" "a"; pair "top" "t"].

(** All eight leaves are merged with the first, instance 5, but it counts only
    seven: an instance below a merged one is merged with an instance that is
    itself merged, and then the union of [parallelInstanceCount] and
    [parallelInstanceId] of that instance, 6, is incremented from 5 to 6. *)
Example flatten_nested :
  match flattenAll 10 "top" nestedCells with
  | Ok st => (map (option_map parallelInstanceCount) (slots st), flatDevices st)
  | Err _ => ([], 0)
  end = ([Some 0; Some 2; Some 1; Some 4; Some 3; Some 7; Some 6; Some 5; Some 6; Some 3; Some 4; Some 5; Some 6; Some 7;
          Some 8], 1).
Proof. vm_compute. reflexivity. Qed.

End Flatten.
