(* ===== verification/Merging.v ===== *)
(** * Merging instances on the same nets (CDevice.cc, CInstance.cc)

    The instances of a circuit that are kept form a hash table: the circuit has
    the first instance of each key, the instances of a key are linked through
    [nextHashedInstanceId].  Looking up the nets of a call in the table is the
    search for the first kept instance whose ports are on these nets. *)

From S2P Require Import Prelude CvcTypes Db Hierarchy Counting Flatten.
From stdpp Require Import base list strings gmap.
From Stdlib Require Import ZArith Lia.
#[local] Open Scope string_scope.
#[local] Open Scope list_scope.
#[local] Open Scope Z_scope.

Module Merging.
Import Db.Db Hierarchy.Hierarchy Counting.Counting Flatten.Flatten.

(** What the table reads of an instance: its link and its nets. *)
Definition look (v : list (option CInstance)) (i : Z) : option (Z * list Z) :=
  match vlookup v i with
  | Some (Some x) => Some (nextHashedInstanceId x, localToGlobalNetId_v x)
  | _ => None
  end.

(** The instances from [i] on are [l]. *)
Fixpoint chain (v : list (option CInstance)) (i : Z) (l : list Z) : Prop :=
  match l with
  | [] => i = UNKNOWN_DEVICE
  | x :: l => i = x /\ i <> UNKNOWN_DEVICE /\ exists next nets, look v i = Some (next, nets) /\ chain v next l
  end.

Definition portsAt (v : list (option CInstance)) (n : Z) (i : Z) : list Z :=
  match look v i with Some (_, nets) => take (Z.to_nat n) nets | None => [] end.
Definition keyOf (c : CCircuit) (ports : list Z) : Z := foldl hashStep 0 ports mod instanceCount c.
Definition inKey (c : CCircuit) (v : list (option CInstance)) (k : Z) (ids : list Z) : list Z :=
  filter (fun i => keyOf c (portsAt v (portCount c) i) = k) ids.

(** The kept instances [ids] of circuit [c], in the order in which they were met. *)
Record table (c : CCircuit) (v : list (option CInstance)) (ids : list Z) : Prop := mkTable {
  tb_size : 0 < instanceCount c <= UNKNOWN_DEVICE /\ Z.of_nat (length (instanceHashId_v c)) = instanceCount c;
  tb_heads k : 0 <= k < instanceCount c -> exists first, vlookup (instanceHashId_v c) k = Some first /\ chain v first (inKey c v k ids);
  tb_ports i : i ∈ ids -> Z.of_nat (length (portsAt v (portCount c) i)) = portCount c;
  tb_apart : NoDup (map (portsAt v (portCount c)) ids)
}.

Lemma look_portsAt v n i next nets : look v i = Some (next, nets) -> portsAt v n i = take (Z.to_nat n) nets.
Proof. intros H. unfold portsAt. by rewrite H. Qed.

Lemma chain_ext v v' l : forall i, (forall x, x ∈ l -> look v' x = look v x) -> chain v i l -> chain v' i l.
Proof.
  induction l as [| x l IH]; intros i H; [done |]. cbn. intros (-> & Hu & next & nets & E & Hc). split_and!; [done | done |].
  exists next, nets. split; [rewrite H; [done | by left] |]. apply IH; [| done]. intros y Hy. apply H. by right.
Qed.

Lemma inKey_elem c v k ids i : i ∈ inKey c v k ids <-> keyOf c (portsAt v (portCount c) i) = k /\ i ∈ ids.
Proof. unfold inKey. by rewrite list_elem_of_filter. Qed.

Lemma portsAt_ext v v' n i : look v' i = look v i -> portsAt v' n i = portsAt v n i.
Proof. intros H. unfold portsAt. by rewrite H. Qed.
Lemma inKey_ext c v v' k ids :
  (forall i, i ∈ ids -> portsAt v' (portCount c) i = portsAt v (portCount c) i) -> inKey c v' k ids = inKey c v k ids.
Proof.
  intros H. unfold inKey. induction ids as [| i ids IH]; [done |]. rewrite !filter_cons, IH by (intros; apply H; by right).
  by rewrite (H i ltac:(by left)).
Qed.

Lemma table_ext c v v' ids : (forall i, i ∈ ids -> look v' i = look v i) -> table c v ids -> table c v' ids.
Proof.
  intros H [Hs Hh Hp Ha]. split; [done | | |].
  - intros k Hk. destruct (Hh k Hk) as (first & E & Hc). exists first. split; [done |]. rewrite (inKey_ext c v v' k ids) by auto using portsAt_ext.
    eapply chain_ext; [| exact Hc]. intros x [_ Hx]%inKey_elem. by apply H.
  - intros i Hi. rewrite (portsAt_ext v v' _ i (H i Hi)). by apply Hp.
  - rewrite (map_ext_in _ (portsAt v (portCount c))); [done |]. intros i Hi%list_elem_of_In. by apply portsAt_ext, H.
Qed.

(** ** The walk over a chain *)

Section Walk.
Context (c : CCircuit) (ports : list Z) (st : flatState) (Hlen : Z.of_nat (length ports) = portCount c).
Local Abbreviation at_ i := (portsAt (slots st) (portCount c) i).

Lemma samePorts_Ok i next nets :
  look (slots st) i = Some (next, nets) -> Z.of_nat (length (at_ i)) = portCount c ->
  samePorts ports nets = Ok (bool_decide (at_ i = ports)).
Proof.
  intros E Hl. rewrite (look_portsAt _ _ _ _ _ E) in *. unfold samePorts.
  replace (length ports) with (Z.to_nat (portCount c)) by lia. rewrite length_take in Hl.
  by rewrite bool_decide_false by lia.
Qed.

(** The first instance on the ports, or the last of the chain. *)
Lemma hashWalk_run l : forall i fuel,
  chain (slots st) i l -> l <> [] -> (length l <= fuel)%nat ->
  (forall x, x ∈ l -> Z.of_nat (length (at_ x)) = portCount c) ->
  hashWalk fuel ports i st =
  Ok (match head (filter (fun x => at_ x = ports) l) with Some x => inl x | None => inr (default 0 (last l)) end, st).
Proof.
  induction l as [| x l IH]; intros i fuel Hc Hne Hf Hp; [done |]. destruct fuel as [| fuel]; [cbn in Hf; lia |].
  destruct Hc as (-> & _ & next & nets & E & Hc). cbn [hashWalk]. unfold mbind, M_bind, instanceAt, lift.
  unfold look in E. destruct (vlookup (slots st) x) as [[inst |] |] eqn:Ex; [| done | done]. injection E as E1 E2.
  assert (look (slots st) x = Some (next, nets)) as El by (unfold look; rewrite Ex; congruence).
  rewrite E1, E2, (samePorts_Ok x next nets El) by (apply Hp; by left). rewrite filter_cons. cbn [mbind outcome_bind].
  destruct (decide (at_ x = ports)) as [Ea | Ea]; [by rewrite bool_decide_true |]. rewrite bool_decide_false by done.
  destruct l as [| y l].
  - cbn in Hc. by rewrite Hc, Z.eqb_refl.
  - pose proof Hc as (-> & Hu & _). rewrite (proj2 (Z.eqb_neq _ _) Hu). rewrite (IH y fuel Hc); [done | done | cbn in *; lia |].
    intros z Hz. apply Hp. by right.
Qed.
End Walk.

Lemma chain_snoc v v' z n nets l : forall i,
  chain v i (l ++ [z]) -> (forall x, x ∈ l -> look v' x = look v x) -> n <> UNKNOWN_DEVICE ->
  (forall next old, look v z = Some (next, old) -> look v' z = Some (n, old)) -> look v' n = Some (UNKNOWN_DEVICE, nets) ->
  chain v' i (l ++ [z] ++ [n]).
Proof.
  induction l as [| x l IH]; intros i Hc Hl Hn Hz Hi; cbn [app chain] in *; destruct Hc as (-> & Hu & next & old & E & Hc).
  - split_and!; [done | done |]. exists n, old. split; [by eapply Hz |]. split_and!; [done | done |]. by exists UNKNOWN_DEVICE, nets.
  - split_and!; [done | done |]. exists next, old. split; [rewrite Hl; [done | by left] |].
    apply IH; [done | | done | done | done]. intros y Hy. apply Hl. by right.
Qed.

(** ** Adding an instance *)

Section Add.
Context (c : CCircuit) (v v' : list (option CInstance)) (ids ports h : list Z) (i : Z) (nets : list Z).
Context (HT : table c v ids) (Hnew : forall x, x ∈ ids -> portsAt v (portCount c) x <> ports)
  (Hkeep : forall x, x ∈ ids -> portsAt v' (portCount c) x = portsAt v (portCount c) x)
  (Hi : look v' i = Some (UNKNOWN_DEVICE, nets)) (Hports : take (Z.to_nat (portCount c)) nets = ports)
  (Hlen : Z.of_nat (length ports) = portCount c).
Let c' := set_ids (instanceId_v c) h c.
Let key := keyOf c ports.

Lemma added_ports : portsAt v' (portCount c) i = ports.
Proof. by rewrite (look_portsAt _ _ _ _ _ Hi). Qed.

Lemma added_key k : inKey c' v' k (ids ++ [i]) = inKey c v k ids ++ (if decide (key = k) then [i] else []).
Proof.
  unfold inKey. change (portCount c') with (portCount c). change (keyOf c') with (keyOf c). rewrite filter_app. f_equal.
  - by apply inKey_ext.
  - rewrite filter_cons, filter_nil, added_ports. done.
Qed.

Lemma table_add :
  Z.of_nat (length h) = instanceCount c ->
  (forall k, 0 <= k < instanceCount c -> exists first, vlookup h k = Some first /\
    chain v' first (inKey c v k ids ++ (if decide (key = k) then [i] else []))) ->
  table c' v' (ids ++ [i]).
Proof.
  intros Hh Hheads. destruct HT as [[Hs _] _ Hp Ha]. split.
  - done.
  - intros k Hk. rewrite added_key. by apply Hheads.
  - change (portCount c') with (portCount c). intros x [Hx | ->%list_elem_of_singleton]%elem_of_app.
    + rewrite Hkeep by done. by apply Hp.
    + by rewrite added_ports.
  - change (portCount c') with (portCount c). rewrite map_app. cbn [map]. rewrite added_ports.
    rewrite (map_ext_in _ (portsAt v (portCount c))) by (intros x Hx%list_elem_of_In; by apply Hkeep).
    apply NoDup_app. split_and!; [done | | apply NoDup_singleton].
    intros q Hq ->%list_elem_of_singleton. apply list_elem_of_In, in_map_iff in Hq as (x & E & Hx%list_elem_of_In).
    by apply (Hnew x Hx).
Qed.
End Add.

Lemma look_update v i x k :
  0 <= i < Z.of_nat (length v) ->
  look (vupdate v i (Some x)) k = if decide (k = i) then Some (nextHashedInstanceId x, localToGlobalNetId_v x) else look v k.
Proof.
  intros Hi. unfold look. destruct (decide (k = i)) as [-> | Hne].
  - by rewrite vlookup_vupdate_eq.
  - by rewrite vlookup_vupdate_ne.
Qed.

Lemma look_range v i e : look v i = Some e -> 0 <= i < Z.of_nat (length v).
Proof. unfold look. destruct (vlookup v i) eqn:E; [| done]. intros _. by eapply vlookup_range. Qed.

Lemma chain_look v l : forall i x, chain v i l -> x ∈ l -> exists next nets, look v x = Some (next, nets).
Proof.
  induction l as [| y l IH]; intros i x Hc Hx; [by apply not_elem_of_nil in Hx |].
  destruct Hc as (-> & _ & next & nets & E & Hc). apply elem_of_cons in Hx as [-> | Hx]; eauto.
Qed.

Section Find.
Context (st : flatState) (s : CSubcircuit) (c : CCircuit) (ids nets ports : list Z) (i : Z) (x0 : CInstance).
Context (Hcell : vlookup (cells st) (masterCircuit_p s) = Some c) (HT : table c (slots st) ids)
  (Hx0 : vlookup (slots st) i = Some (Some x0)) (Hnext : nextHashedInstanceId x0 = UNKNOWN_DEVICE) (Hnew : i ∉ ids)
  (Hid : i <> UNKNOWN_DEVICE) (Hcall : callNets nets s c = Ok ports) (Hlen : Z.of_nat (length ports) = portCount c).

Local Abbreviation at_ x := (portsAt (slots st) (portCount c) x).
(** The first kept instance on the nets. *)
Definition firstOn : option Z := head (filter (fun x => at_ x = ports) ids).

Lemma key_range : 0 <= keyOf c ports < instanceCount c.
Proof. destruct (tb_size _ _ _ HT) as [[? ?] _]. apply Z.mod_pos_bound. lia. Qed.

Lemma ids_look x : x ∈ ids -> exists next nets, look (slots st) x = Some (next, nets).
Proof.
  intros Hx. destruct (tb_size _ _ _ HT) as [[? ?] _].
  destruct (tb_heads _ _ _ HT (keyOf c (at_ x))) as (first & _ & Hc); [apply Z.mod_pos_bound; lia |].
  eapply chain_look; [exact Hc |]. by apply inKey_elem.
Qed.

Lemma ids_NoDup : NoDup ids.
Proof. exact (NoDup_fmap_1 _ _ (tb_apart _ _ _ HT)). Qed.

Lemma ids_length : (length ids <= length (slots st))%nat.
Proof.
  rewrite <- (length_seq (length (slots st)) 0), <- (length_map Z.to_nat ids).
  apply NoDup_incl_length.
  - apply NoDup_ListNoDup. apply NoDup_fmap_2_strong; [| apply ids_NoDup]. intros x y Hx Hy E.
    destruct (ids_look x Hx) as (? & ? & Ex%look_range), (ids_look y Hy) as (? & ? & Ey%look_range). lia.
  - intros n Hn. apply in_map_iff in Hn as (x & <- & Hx%list_elem_of_In). apply in_seq.
    destruct (ids_look x Hx) as (? & ? & Ex%look_range). lia.
Qed.

(** Only instances of the same key can be on the nets. *)
Lemma firstOn_key : head (filter (fun x => at_ x = ports) (inKey c (slots st) (keyOf c ports) ids)) = firstOn.
Proof.
  unfold firstOn, inKey. f_equal. rewrite list_filter_filter_l; [done |]. by intros x ->.
Qed.

Lemma firstOn_None x : firstOn = None -> x ∈ ids -> at_ x <> ports.
Proof.
  unfold firstOn. intros H Hx E. assert (x ∈ filter (fun x => at_ x = ports) ids) as Hf by (by apply list_elem_of_filter).
  destruct (filter _ ids); [by apply not_elem_of_nil in Hf | done].
Qed.

Let m := masterCircuit_p s.
Let key := keyOf c ports.

(** The lookup up to the head of the chain. *)
Lemma Find_head first : vlookup (instanceHashId_v c) key = Some first ->
  FindParallelInstance i nets s st =
  if first =? UNKNOWN_DEVICE then Ok (i, set_cells (vupdate (cells st) m (setHash key i c)) st)
  else (found ← hashWalk (S (length (slots st))) ports first;
        match found with inl k => mret k | inr k => _ ← updateInstance k (set_nextHashed i); mret i end) st.
Proof.
  intros Hf. unfold FindParallelInstance, mbind at 1, M_bind at 1. fold m. rewrite (cellAt_run m c st Hcell).
  destruct (tb_size _ _ _ HT) as [[Hs Hu] _]. pose proof key_range as Hk. fold key in Hk.
  unfold mbind at 1, M_bind at 1, lift, MakePortHash. rewrite Hcall. cbn [mbind outcome_bind].
  rewrite (proj2 (Z.eqb_neq _ _)) by lia. change (foldl hashStep 0 ports `mod` instanceCount c) with key.
  unfold mbind at 1, M_bind at 1. rewrite (proj2 (Z.eqb_neq key _)) by lia. rewrite (proj2 (Z.ltb_lt _ _)) by lia.
  cbn [negb andb]. change (assertM true st) with (Ok (tt, st)). cbv beta iota. unfold mbind at 1, M_bind at 1. rewrite (proj2 (vget_Ok _ _ _) Hf).
  cbn [mbind outcome_bind]. destruct (first =? UNKNOWN_DEVICE).
  - unfold mbind, M_bind. rewrite (updateCell_run _ _ c) by exact Hcell. done.
  - reflexivity.
Qed.

(** The chain of the key, walked to its end. *)
Lemma Find_walk first l : vlookup (instanceHashId_v c) key = Some first -> inKey c (slots st) key ids = l -> l <> [] ->
  chain (slots st) first l -> first =? UNKNOWN_DEVICE = false /\
  hashWalk (S (length (slots st))) ports first st =
  Ok (match firstOn with Some x => inl x | None => inr (default 0 (last l)) end, st).
Proof.
  intros Hf El Hne Hc. assert (length l <= length ids)%nat as Hll by (rewrite <- El; apply length_filter).
  pose proof ids_length. split.
  - destruct l as [| y l]; [done |]. destruct Hc as (-> & Hu & _). by apply Z.eqb_neq.
  - rewrite (hashWalk_run c ports st Hlen l first _ Hc Hne); [| lia |].
    + rewrite <- firstOn_key. fold key. by rewrite El.
    + intros x Hx. rewrite <- El in Hx. apply inKey_elem in Hx as [_ Hx]. by apply (tb_ports _ _ _ HT).
Qed.

Lemma Find_Some j : firstOn = Some j -> FindParallelInstance i nets s st = Ok (j, st).
Proof.
  intros Hj. destruct (tb_heads _ _ _ HT key key_range) as (first & Hf & Hc). rewrite (Find_head first Hf).
  destruct (Find_walk first _ Hf eq_refl) as [-> Hw]; [| done |].
  - intros E. rewrite <- firstOn_key in Hj. fold key in Hj. by rewrite E in Hj.
  - unfold mbind, M_bind. by rewrite Hw, Hj.
Qed.

(** An instance that is not found is added at the end of its chain: the table
    holds when the instance has its nets. *)
Definition added (h : list Z) (v : list (option CInstance)) : Prop :=
  vlookup v i = Some (Some x0) /\ length v = length (slots st) /\
  forall x, nextHashedInstanceId x = UNKNOWN_DEVICE -> take (Z.to_nat (portCount c)) (localToGlobalNetId_v x) = ports ->
    table (set_ids (instanceId_v c) h c) (vupdate v i (Some x)) (ids ++ [i]).

Lemma added_by h v :
  firstOn = None -> vlookup v i = Some (Some x0) -> length v = length (slots st) -> Z.of_nat (length h) = instanceCount c ->
  (forall y, y ∈ ids -> portsAt v (portCount c) y = at_ y) ->
  (forall x k, nextHashedInstanceId x = UNKNOWN_DEVICE -> 0 <= k < instanceCount c -> exists first, vlookup h k = Some first /\
    chain (vupdate v i (Some x)) first (inKey c (slots st) k ids ++ (if decide (key = k) then [i] else []))) -> added h v.
Proof.
  intros Hn Hv Hl Hh Hp Hc. split_and!; [done | done |]. intros x Hx1 Hx2. pose proof (vlookup_range _ _ _ Hv) as Hir.
  apply (table_add c (slots st) _ ids ports _ i (localToGlobalNetId_v x)); try done.
  - intros y Hy. by apply firstOn_None.
  - intros y Hy. rewrite <- (Hp y Hy). apply portsAt_ext. rewrite look_update, decide_False by (done || congruence). done.
  - rewrite look_update, decide_True by done. by rewrite Hx1.
  - intros k Hk. by apply Hc.
Qed.

(** The first instance of its key. *)
Lemma added_first : firstOn = None -> inKey c (slots st) key ids = [] -> added (vupdate (instanceHashId_v c) key i) (slots st).
Proof.
  intros Hn El. destruct (tb_size _ _ _ HT) as [_ Hhash]. pose proof (vlookup_range _ _ _ Hx0) as Hir. pose proof key_range as Hk.
  apply added_by; try done; [by rewrite vupdate_length |]. intros x k Hx Hkr. destruct (decide (key = k)) as [<- | Hne].
  - rewrite El. exists i. split; [apply vlookup_vupdate_eq; lia |]. cbn. split_and!; [done | done |].
    exists UNKNOWN_DEVICE, (localToGlobalNetId_v x). by rewrite look_update, decide_True, Hx.
  - rewrite vlookup_vupdate_ne, app_nil_r by done. destruct (tb_heads _ _ _ HT k Hkr) as (f & Ef & Hcf). exists f.
    split; [done |]. eapply chain_ext; [| exact Hcf]. intros y [_ Hy]%inKey_elem.
    rewrite look_update, decide_False by (done || congruence). done.
Qed.

(** An instance behind [z]. *)
Lemma added_behind l z xz :
  firstOn = None -> inKey c (slots st) key ids = l ++ [z] -> vlookup (slots st) z = Some (Some xz) ->
  added (instanceHashId_v c) (vupdate (slots st) z (Some (set_nextHashed i xz))).
Proof.
  intros Hn El Hz. destruct (tb_size _ _ _ HT) as [_ Hhash]. pose proof (vlookup_range _ _ _ Hx0) as Hir.
  pose proof (vlookup_range _ _ _ Hz) as Hzr. assert (z ∈ inKey c (slots st) key ids) as Hzk by (rewrite El; set_solver).
  apply inKey_elem in Hzk as [Hkz Hzi]. assert (z <> i) as Hzne by congruence.
  assert (forall x y, y ∈ ids -> y <> z ->
    look (vupdate (vupdate (slots st) z (Some (set_nextHashed i xz))) i (Some x)) y = look (slots st) y) as Hother.
  { intros x y Hy Hyz. rewrite look_update, decide_False by (rewrite ?vupdate_length; done || congruence).
    by rewrite look_update, decide_False. }
  apply added_by; try done.
  - by rewrite vlookup_vupdate_ne.
  - by rewrite vupdate_length.
  - intros y Hy. unfold portsAt. rewrite look_update by done. destruct (decide (y = z)) as [-> |]; [| done].
    unfold look. by rewrite Hz.
  - intros x k Hx Hkr. destruct (tb_heads _ _ _ HT k Hkr) as (f & Ef & Hcf). exists f. split; [done |].
    destruct (decide (key = k)) as [<- | Hne].
    + rewrite El in *. rewrite <- app_assoc. eapply (chain_snoc (slots st)); [exact Hcf | | done | |].
      * intros y Hy. apply Hother.
        -- apply (inKey_elem c (slots st) key ids y). rewrite El. set_solver.
        -- intros ->. assert (NoDup (l ++ [z])) as Hnd by (rewrite <- El; apply NoDup_filter, ids_NoDup).
           apply NoDup_app in Hnd as (_ & Hnd & _). apply (Hnd z Hy). by left.
      * intros next old E. unfold look in E. rewrite Hz in E. injection E as _ <-.
        rewrite look_update, decide_False by (rewrite ?vupdate_length; done). by rewrite look_update, decide_True.
      * rewrite look_update, decide_True by (rewrite ?vupdate_length; done). by rewrite Hx.
    + rewrite app_nil_r. eapply chain_ext; [| exact Hcf]. intros y [Hky Hy]%inKey_elem. apply Hother; [done |]. intros ->. apply Hne. by rewrite <- Hkz.
Qed.

Lemma Find_None : firstOn = None -> exists h v,
  FindParallelInstance i nets s st = Ok (i, set_cells (vupdate (cells st) m (set_ids (instanceId_v c) h c)) (set_slots v st)) /\
  added h v.
Proof.
  intros Hn. destruct (tb_heads _ _ _ HT key key_range) as (first & Hf & Hc). rewrite (Find_head first Hf).
  destruct (inKey c (slots st) key ids) as [| z l _] eqn:El using rev_ind.
  - cbn in Hc. subst first. rewrite Z.eqb_refl. eexists _, _. split; [| by apply added_first]. by destruct st.
  - destruct (Find_walk first _ Hf El) as [-> Hw]; [by destruct l | done |].
    assert (z ∈ ids) as Hz by (apply (inKey_elem c (slots st) key ids z); rewrite El; set_solver).
    destruct (ids_look z Hz) as (next & old & Ez). unfold look in Ez.
    destruct (vlookup (slots st) z) as [[xz |] |] eqn:Exz; [| done | done].
    exists (instanceHashId_v c), (vupdate (slots st) z (Some (set_nextHashed i xz))). split; [| by eapply added_behind].
    unfold mbind, M_bind. rewrite Hw, Hn, last_snoc. cbn [default]. unfold mbind, M_bind.
    rewrite (updateInstance_run z _ xz) by done. unfold mret, M_ret.
    assert (set_ids (instanceId_v c) (instanceHashId_v c) c = c) as -> by (by destruct c).
    unfold vupdate at 2. rewrite (proj2 (in_range_spec _ _)) by (by eapply vlookup_range).
    rewrite list_insert_id by (by apply Prelude.vlookup_lookup). done.
Qed.

Lemma firstOn_elem j : firstOn = Some j -> j ∈ ids /\ at_ j = ports.
Proof.
  unfold firstOn. intros H. destruct (filter (fun x => at_ x = ports) ids) as [| k l] eqn:E; [done |]. injection H as <-.
  assert (k ∈ filter (fun x => at_ x = ports) ids) as Hk by (rewrite E; by left).
  by apply list_elem_of_filter in Hk as [].
Qed.
End Find.

Lemma callNets_length nets s c ports :
  0 <= portCount c -> callNets nets s c = Ok ports -> Z.of_nat (length ports) = portCount c.
Proof.
  intros Hp. unfold callNets. destruct (Z.ltb_spec (Z.of_nat (length (portSignalId_v s))) (portCount c)) as [| Hle]; [done |].
  assert (forall l, portNets nets l = Ok ports -> length ports = length l) as Hl.
  { intros l. revert ports. induction l as [| x l IH]; intros ports; cbn [portNets]; [by intros [= <-] |].
    destruct (vget nets x) as [n |]; [| done]. cbn [mbind outcome_bind]. destruct (portNets nets l) as [k |]; [| done].
    cbn [mbind outcome_bind]. intros [= <-]. cbn. f_equal. by apply IH. }
  intros E%Hl. rewrite E, length_take. lia.
Qed.

(** A circuit without instances has an empty table. *)
Lemma table_empty c v :
  0 < instanceCount c <= UNKNOWN_DEVICE -> instanceHashId_v c = [] -> table (AllocateInstances c) v [].
Proof.
  intros Hc Hh. assert (instanceHashId_v (AllocateInstances c) = replicate (Z.to_nat (instanceCount c)) UNKNOWN_DEVICE) as E.
  { unfold AllocateInstances, set_ids. cbn [instanceHashId_v]. rewrite Hh, resizeWith_grow by (cbn; lia). cbn [app length].
    do 2 f_equal. lia. }
  split.
  - rewrite E, length_replicate. cbn [AllocateInstances set_ids instanceCount]. unfold AllocateInstances, set_ids.
    cbn [instanceCount]. lia.
  - intros k Hk. exists UNKNOWN_DEVICE. rewrite E. split; [| done]. apply vlookup_replicate.
    unfold AllocateInstances, set_ids in Hk. cbn [instanceCount] in Hk. lia.
  - by intros i Hi%not_elem_of_nil.
  - constructor.
Qed.

(** The step of [AssignGlobalIDs] between the place and the children. *)
Definition mergeOrExpand (limit i : Z) (parent : CInstance) (s : CSubcircuit) (c : CCircuit) : FL bool :=
  isParallel ← mergeInstance limit i parent s false;
  _ ← when (negb isParallel) (expandInstance i parent s c);
  mret isParallel.

(** C19: Instances are merged as by a search: for a call with few enough ports,
    the hash table of the circuit finds the first kept instance whose ports are
    on the nets of the call, if there is one; then that instance counts one more
    and the new one refers to it and is not expanded.  Otherwise the new instance
    is expanded with its ports on these nets, counts one, and is in the table for
    the calls that follow. *)
Theorem merge_finds_first limit i parent s c0 c x0 ids ports st :
  vlookup (cells st) (masterCircuit_p s) = Some c -> sameCell c0 c -> 0 <= portCount c0 <= localSignalCount c0 ->
  table c (slots st) ids -> vlookup (slots st) i = Some (Some x0) -> nextHashedInstanceId x0 = UNKNOWN_DEVICE ->
  i ∉ ids -> i <> UNKNOWN_DEVICE -> Z.of_nat (length (portSignalId_v s)) <= limit ->
  callNets (localToGlobalNetId_v parent) s c = Ok ports ->
  match head (filter (fun x => portsAt (slots st) (portCount c) x = ports) ids) with
  | Some j => exists xj st', vlookup (slots st) j = Some (Some xj) /\
      mergeOrExpand limit i parent s c0 st = Ok (true, st') /\
      st' = set_slots (vupdate (vupdate (slots st) j (Some (addParallel xj))) i (Some (set_parallel j x0))) st /\
      table c (slots st') ids
  | None => exists st' c' x, mergeOrExpand limit i parent s c0 st = Ok (false, st') /\
      vlookup (cells st') (masterCircuit_p s) = Some c' /\ table c' (slots st') (ids ++ [i]) /\
      vlookup (slots st') i = Some (Some x) /\ parallelInstanceCount x = 1 /\
      localToGlobalNetId_v x = localNetsOf c0 ports (flatNets st)
  end.
Proof.
  intros Hcell Hsame Hpc HT Hx0 Hnext Hnew Hid Hlim Hcall. set (m := masterCircuit_p s) in *.
  assert (portCount c = portCount c0) as Epc by (unfold sameCell in Hsame; by rewrite Hsame).
  pose proof (callNets_length _ s c ports ltac:(lia) Hcall) as Hlen. pose proof (vlookup_range _ _ _ Hx0) as Hir.
  assert (callNets (localToGlobalNetId_v parent) s c0 = Ok ports) as Hcall0 by (unfold callNets in *; by rewrite <- Epc).
  unfold mergeOrExpand, mergeInstance. rewrite (proj2 (Z.leb_le _ _) Hlim). fold (firstOn st c ids ports).
  destruct (firstOn st c ids ports) as [j |] eqn:Ej.
  - destruct (firstOn_elem st c ids ports j Ej) as [Hj Hpj]. destruct (ids_look st c ids ports HT j Hj) as (nj & ej & El).
    pose proof (look_range _ _ _ El) as Hjr. unfold look in El. destruct (vlookup (slots st) j) as [[xj |] |] eqn:Exj; [| done | done].
    assert (j <> i) as Hne by congruence.
    exists xj, (set_slots (vupdate (vupdate (slots st) j (Some (addParallel xj))) i (Some (set_parallel j x0))) st).
    split_and!; [done | | done |].
    + unfold mbind, M_bind. rewrite (Find_Some st s c ids _ ports i Hcell HT Hcall Hlen j Ej).
      rewrite (proj2 (Z.eqb_neq _ _) Hne). unfold mbind, M_bind. rewrite (updateInstance_run j _ xj) by done.
      rewrite (updateInstance_run i _ x0) by (cbn [slots set_slots]; by rewrite vlookup_vupdate_ne). done.
    + eapply table_ext; [| exact HT]. intros k Hk. cbn [slots set_slots].
      rewrite look_update, decide_False by (rewrite ?vupdate_length; done || congruence). rewrite look_update by done.
      destruct (decide (k = j)) as [-> |]; [| done]. unfold look. by rewrite Exj.
  - destruct (Find_None st s c ids (localToGlobalNetId_v parent) ports i x0) as (h & v & E & Hv & Hl & Htab); try done.
    set (x := set_items (flatDevices st) (flatNets st) (localNetsOf c0 ports (flatNets st)) (set_parallel 1 x0)).
    set (c' := set_ids (instanceId_v c) h c) in *. fold m in E.
    assert (0 <= i < Z.of_nat (length v)) as Hiv by (by rewrite Hl).
    exists (addItems i (u32 (localSignalCount c0 - portCount c0)) (Z.of_nat (length (devicePtr_v c0)))
      (set_slots (vupdate v i (Some x)) (set_cells (vupdate (cells st) m c') st))), c', x. split_and!; try done.
    + unfold mbind at 1 2 3, M_bind at 1 2 3. rewrite E, Z.eqb_refl. unfold mbind, M_bind.
      rewrite (updateInstance_run i _ x0) by exact Hv. cbn [mret M_ret negb when]. unfold expandInstance, gets, lift, mbind, M_bind.
      rewrite Hcall0. cbn [mbind outcome_bind]. cbn [slots set_slots set_cells cells].
      rewrite (updateInstance_run i _ (set_parallel 1 x0)) by (by apply vlookup_vupdate_eq). cbn [slots set_slots set_cells cells].
      rewrite vupdate_vupdate. unfold LocalNetCount. rewrite (proj2 (Z.leb_le _ _)) by lia. done.
    + apply vlookup_vupdate_eq. by eapply vlookup_range.
    + apply Htab; [done |]. cbn [x localToGlobalNetId_v set_items localNetsOf]. unfold x, set_items, localNetsOf.
      cbn [localToGlobalNetId_v]. replace (Z.to_nat (portCount c)) with (length ports) by lia. apply take_app_length.
    + by apply vlookup_vupdate_eq.
Qed.

(** The second of two calls of a circuit with two ports on the nets 7 and 9 of
    the parent: instance 1 is kept, instance 2 is merged with it. *)
Definition exampleCall : CSubcircuit := mkSubcircuit "X2" [0; 1] "b" 0.
Definition exampleParent : CInstance := mkInstance 0 1 0 0 [7; 9] 0 1 UNKNOWN_DEVICE.
Definition exampleKept : CInstance := mkInstance 0 3 10 1 [7; 9; 10] 0 0 UNKNOWN_DEVICE.
Definition exampleCircuit : CCircuit :=
  let k := foldl hashStep 0 [7; 9] mod 2 in
  mkCircuit UNKNOWN_DEVICE "b" [] [] [] 2 2 [1; 2] [] 3 (vupdate [UNKNOWN_DEVICE; UNKNOWN_DEVICE] k 1) true 0 0 0
    ["A"; "B"; "C"].
Definition exampleFlat : flatState :=
  mkFlat [Some exampleParent; Some exampleKept; Some newInstance] [exampleCircuit] 3 11 0 [] [].

Lemma example_table : table exampleCircuit (slots exampleFlat) [1].
Proof.
  split; [done | | | apply NoDup_singleton].
  - intros k Hk. change (instanceCount exampleCircuit) with 2 in Hk. assert (k = 0 \/ k = 1) as [-> | ->] by lia.
    + exists 1. split; [vm_compute; reflexivity |]. change (inKey exampleCircuit (slots exampleFlat) 0 [1]) with [1].
      split_and!; [done | done |]. by exists UNKNOWN_DEVICE, [7; 9; 10].
    + by exists UNKNOWN_DEVICE.
  - by intros i ->%list_elem_of_singleton.
Qed.

Lemma merge_finds_first_witness :
  exists st', mergeOrExpand 4 2 exampleParent exampleCall exampleCircuit exampleFlat = Ok (true, st') /\
    map (option_map parallelInstanceCount) (slots st') = [Some 0; Some 2; Some 1].
Proof.
  destruct (merge_finds_first 4 2 exampleParent exampleCall exampleCircuit exampleCircuit newInstance [1] [7; 9] exampleFlat)
    as (xj & st' & Exj & E & -> & _);
    [reflexivity | reflexivity | split; discriminate | exact example_table | reflexivity | reflexivity
    | by intros H%list_elem_of_singleton | done | discriminate | reflexivity |].
  eexists. split; [exact E |]. change (vlookup (slots exampleFlat) 1 = Some (Some xj)) in Exj. injection Exj as <-. reflexivity.
Defined.

End Merging.
