(* ===== verification/Reads.v ===== *)
(** * Computations that only read the database

    A computation in the class [Reads] leaves the state as it is when it
    succeeds.  The instances follow the structure of a definition, so that
    [apply _] proves it for the functions that decide something without
    changing anything. *)

From S2P Require Import Prelude CvcTypes EventQueue VirtualNet Power Db.
From stdpp Require Import base list gmap sets.
From Stdlib Require Import ZArith Lia.
#[local] Open Scope Z_scope.

Module Reads.
Import VirtualNet.VirtualNet Power.Power Db.Db.

Class Reads {A} (m : DB A) : Prop := reads d r d' : m d = Ok (r, d') -> d' = d.
#[global] Hint Mode Reads - ! : typeclass_instances.

#[export] Instance reads_ret {A} (a : A) : Reads (mret a).
Proof. by intros d r d' [_ ->]%mret_inv. Qed.
#[export] Instance reads_raise {A} e : Reads (raise e : DB A).
Proof. by intros d r d'. Qed.
#[export] Instance reads_gets {A} (f : CCvcDb -> A) : Reads (gets f).
Proof. by intros d r d' [_ ->]%gets_inv. Qed.
#[export] Instance reads_lift {A} (o : outcome A) : Reads (lift o).
Proof. by intros d r d' [_ ->]%lift_inv. Qed.
Lemma reads_state {A} (f : CCvcDb -> outcome A) : Reads (fun d => lift (f d) d).
Proof. by intros d r d' [_ ->]%lift_inv. Qed.
#[export] Instance reads_bind {A B} (m : DB A) (k : A -> DB B) : Reads m -> (forall a, Reads (k a)) -> Reads (m ≫= k).
Proof.
  intros Hm Hk d r d' H. apply M_bind_inv in H as (a & d1 & E & H). etrans; [by eapply Hk | by eapply Hm].
Qed.
#[export] Instance reads_nl {A} (f : CNetlist -> A) : Reads (nl f).
Proof. apply reads_gets. Qed.
#[export] Instance reads_nlat {A} (f : CNetlist -> list A) i : Reads (nlat f i).
Proof. apply (reads_state (fun d => vget (f (netlist d)) i)). Qed.
#[export] Instance reads_at {A} (f : CCvcDb -> list A) i : Reads (at_ f i).
Proof. apply (reads_state (fun d => vget (f d) i)). Qed.
#[export] Instance reads_powerAt n : Reads (powerAt n).
Proof. apply reads_at. Qed.
#[export] Instance reads_derefM a : Reads (derefM a).
Proof. apply (reads_state (fun d => deref (powers d) a)). Qed.
#[export] Instance reads_pointeeM a : Reads (pointeeM a).
Proof. apply (reads_state (fun d => pointee (powers d) a)). Qed.
#[export] Instance reads_arrow a : Reads (arrow a).
Proof. unfold arrow. destruct a; apply _. Qed.
#[export] Instance reads_assertM b : Reads (assertM b : DB unit).
Proof. apply reads_lift. Qed.
#[export] Instance reads_netM q n : Reads (netM q n).
Proof. apply (reads_state (fun d => vget (nets (netsOf q d)) n)). Qed.

#[export] Hint Extern 1 (Reads (fun d => lift _ d)) => apply (reads_state (fun d => _)) : typeclass_instances.

(** Branches: every [if] and [match] of a definition. *)
#[export] Hint Extern 2 (Reads (if ?b then _ else _)) => destruct b : typeclass_instances.
#[export] Hint Extern 3 (Reads (match ?x with _ => _ end)) => destruct x : typeclass_instances.

#[export] Instance reads_loopDevices {A R} fuel next (body : A -> Z -> DB (A + R)) :
  (forall a i, Reads (body a i)) -> forall a i, Reads (loopDevices fuel next body a i).
Proof. intros Hb. induction fuel as [| fuel IH]; intros a i; cbn [loopDevices]; apply _. Qed.
#[export] Instance reads_overDevicesWith {A R} first next n a (body : A -> Z -> DB (A + R)) :
  (forall a i, Reads (body a i)) -> Reads (overDevicesWith first next n a body).
Proof. intros Hb. unfold overDevicesWith. apply _. Qed.

(** What a computation that reads returns does not depend on anything it does. *)
Lemma reads_inv {A} (m : DB A) {HR : Reads m} d r d' : m d = Ok (r, d') -> m d = Ok (r, d) /\ d' = d.
Proof. intros H. pose proof (HR d r d' H) as ->. done. Qed.

End Reads.
