(* ===== verification/Latch.v ===== *)
(** * Latch and SCRC power (CCvcDb_init.cc, CCvcDb_utility.cc)

    Between the simulation passes some nets get a simulation voltage that no
    path of conducting devices gives them: the gates of the switches of powers
    that are cut off ([SetSCRCPower]), and outputs that are tied to one power by
    two devices with complementary gates ([SetLatchPower]). *)

From S2P Require Import Prelude CvcTypes EventQueue VirtualNet Numeric Power Db ExampleDb Connection Netlist.
From stdpp Require Import base list strings gmap sets.
From Stdlib Require Import ZArith Lia.
#[local] Open Scope string_scope.
#[local] Open Scope list_scope.
#[local] Open Scope Z_scope.

Module Latch.
Import EventQueue.EventQueue VirtualNet.VirtualNet Power.Power Db.Db Connection.Connection Netlist.Netlist.

(** ** Devices in series *)

Definition notInSeries (t : modelType_t) : bool :=
  match t with SWITCH_OFF | FUSE_OFF | CAPACITOR | DIODE | BIPOLAR => true | _ => false end.

(** One device at the net: the loop keeps [myReturnDevice] or returns. *)
Definition seriesDevice (theDeviceId : Z) (myDeviceType : modelType_t) (myReturnDevice device_it : Z) : DB (Z + Z) :=
  t ← nlat deviceType_v device_it;
  mret (if notInSeries t then inl myReturnDevice
        else if theDeviceId =? device_it then inl myReturnDevice
        else if negb (bool_decide (t = myDeviceType)) then inr UNKNOWN_DEVICE
        else if negb (myReturnDevice =? UNKNOWN_DEVICE) then inr UNKNOWN_DEVICE
        else inl device_it).

Definition GetSeriesConnectedDevice (theDeviceId theNetId : Z) : DB Z :=
  myDeviceType ← nlat deviceType_v theDeviceId;
  r ← overDevicesWith firstDrain_v nextDrain_v theNetId UNKNOWN_DEVICE (seriesDevice theDeviceId myDeviceType);
  match r with
  | inr r => mret r
  | inl a =>
      r ← overDevicesWith firstSource_v nextSource_v theNetId a (seriesDevice theDeviceId myDeviceType);
      mret (match r with inl a => a | inr r => r end)
  end.

(** ** Latches *)

Record mosData_t : Type := mkMosData { gate : Z; source : Z; id : Z }.

Definition MAX_LATCH_DEVICE_COUNT : nat := 6.

(** The two arrays of [MAX_LATCH_DEVICE_COUNT] entries with their counts. *)
Record latchData : Type := mkLatchData { nmosData_v : list mosData_t; pmosData_v : list mosData_t }.

Definition addMos (x : mosData_t) (l : list mosData_t) : outcome (list mosData_t) :=
  if (length l <? MAX_LATCH_DEVICE_COUNT)%nat then Ok (l ++ [x]) else throw UndefinedBehaviour.
Definition addNmos (x : mosData_t) (v : latchData) : outcome latchData :=
  l ← addMos x (nmosData_v v); Ok (mkLatchData l (pmosData_v v)).
Definition addPmos (x : mosData_t) (v : latchData) : outcome latchData :=
  l ← addMos x (pmosData_v v); Ok (mkLatchData (nmosData_v v) l).

(** [simNet_v[n].finalNetId] *)
Definition simFinal (n : Z) : DB Z := x ← netM SIM_QUEUE n; mret (finalNetId x).

(** The device behind one that is on. *)
Definition seriesMos (device_it mySource : Z) : DB (option mosData_t) :=
  myNextDevice ← GetSeriesConnectedDevice device_it mySource;
  if myNextDevice =? UNKNOWN_DEVICE then mret None
  else
    s ← nlat sourceNet_v myNextDevice;
    s ← simFinal s;
    s ← (if s =? mySource then dr ← nlat drainNet_v myNextDevice; simFinal dr else mret s);
    g ← nlat gateNet_v myNextDevice;
    g ← simFinal g;
    mret (Some (mkMosData g s myNextDevice)).

(** A device whose gate is unknown is an entry, one that is on stands for the
    device in series. *)
Definition latchMos (add : mosData_t -> latchData -> outcome latchData) (device_it mySource myGate myGateVoltage : Z)
    (isOn : bool) (v : latchData) : DB latchData :=
  if myGateVoltage =? UNKNOWN_VOLTAGE then lift (add (mkMosData myGate mySource device_it) v)
  else if isOn then
    x ← seriesMos device_it mySource;
    match x with Some x => lift (add x v) | None => mret v end
  else mret v.

(** [addN] and [addP] are the writes to the two arrays. *)
Definition latchDevice (addN addP : mosData_t -> latchData -> outcome latchData) (theMinVoltage theMaxVoltage : Z)
    (theSourceNet_v : CNetlist -> list Z) (v : latchData) (device_it : Z) : DB (latchData + unit) :=
  s ← nlat theSourceNet_v device_it;
  g ← nlat gateNet_v device_it;
  esd ← (if s =? g then a ← powerAt s; mret (bool_decide (is_Some a)) else mret false);
  if (esd : bool) then mret (inl v)
  else
    mySource ← simFinal s;
    myGate ← simFinal g;
    a ← powerAt myGate;
    p ← pointeeM a;
    let myGateVoltage :=
      match p with
      | Some p => if typeBit p SIM_CALCULATED_BIT then UNKNOWN_VOLTAGE else simVoltage p
      | None => UNKNOWN_VOLTAGE
      end in
    t ← nlat deviceType_v device_it;
    v ← (if IsNmos_ t then latchMos addN device_it mySource myGate myGateVoltage (theMaxVoltage <=? myGateVoltage) v
         else mret v);
    v ← (if IsPmos_ t then latchMos addP device_it mySource myGate myGateVoltage (myGateVoltage <=? theMinVoltage) v
         else mret v);
    mret (inl v).

Definition FindLatchDevices (theNetId theMinVoltage theMaxVoltage : Z) (theFirstDrain_v theNextDrain_v theSourceNet_v : CNetlist -> list Z)
    (v : latchData) : DB latchData :=
  r ← overDevicesWith theFirstDrain_v theNextDrain_v theNetId v
         (latchDevice addNmos addPmos theMinVoltage theMaxVoltage theSourceNet_v);
  mret (match r with inl v => v | inr _ => v end).

Definition IsOppositeLogic (theFirstNet theSecondNet : Z) : DB bool :=
  a ← at_ inverterNet_v theFirstNet;
  if a =? theSecondNet then mret true
  else b ← at_ inverterNet_v theSecondNet; mret (theFirstNet =? b).

(** The simulation voltage and alias of a source; [None] is skipped. *)
Definition sourcePower (x : mosData_t) : DB (option (Z * string)) :=
  a ← powerAt (source x);
  p ← pointeeM a;
  mret (match p with
        | Some p => if simVoltage p =? UNKNOWN_VOLTAGE then None else Some (simVoltage p, powerAlias p)
        | None => None
        end).

(** A voltage found, with the alias of the source and the sample device. *)
Record muxData : Type := mkMux { muxVoltage : Z; muxAlias : string; muxSample : Z }.

Fixpoint muxNext (x : mosData_t) (myVoltage : Z) (myAlias : string) (rest : list mosData_t) (found : option muxData)
    : DB (option muxData) :=
  match rest with
  | [] => mret found
  | y :: rest =>
      p ← sourcePower y;
      b ← (match p with
           | Some (myNextVoltage, _) =>
               if myVoltage =? myNextVoltage then IsOppositeLogic (gate x) (gate y) else mret false
           | None => mret false
           end);
      muxNext x myVoltage myAlias rest (if (b : bool) then Some (mkMux myVoltage myAlias (id x)) else found)
  end.
(** Two devices to one voltage with opposite gates, the last pair found. *)
Fixpoint muxPairs (l : list mosData_t) (found : option muxData) : DB (option muxData) :=
  match l with
  | [] | [_] => mret found
  | x :: ((_ :: _) as rest) =>
      p ← sourcePower x;
      found ← (match p with
               | Some (myVoltage, myAlias) => muxNext x myVoltage myAlias rest found
               | None => mret found
               end);
      muxPairs rest found
  end.

(** The level of the power at the end of the min or max net, when that is a
    defined power. *)
Definition latchLevel (q : eventQueue_t) (level : CPower -> Z) (net_it : Z) : DB Z :=
  x ← netM q net_it;
  if finalNetId x =? UNKNOWN_NET then mret UNKNOWN_VOLTAGE
  else
    a ← powerAt (finalNetId x);
    p ← pointeeM a;
    mret (match p with Some p => if typeBit p POWER_BIT then level p else UNKNOWN_VOLTAGE | None => UNKNOWN_VOLTAGE end).

Definition knownSim (n : Z) : DB bool :=
  a ← powerAt n;
  p ← pointeeM a;
  mret (match p with Some p => IsKnownVoltage_ (simVoltage p) | None => false end).

(** [theIgnoreNet_v[net_it]] after the tests at the start of the loop. *)
Definition latchIgnored (thePassCount : Z) (ignored : bool) (net_it : Z) : DB bool :=
  b ← (if thePassCount =? 1 then
         e ← GetEquivalentNet net_it;
         if negb (net_it =? e) then mret true
         else
           c ← at_ connectionCount_v net_it;
           mret (negb (sourceDrainType c =? NMOS_PMOS) || (Z.of_nat MAX_LATCH_DEVICE_COUNT <? SourceDrainCount c))
       else mret false);
  if ignored || (b : bool) then mret true
  else
    x ← netM SIM_QUEUE net_it;
    if negb (finalNetId x =? net_it) then mret true else knownSim net_it.

(** [extraData->powerSignal] and [extraData->powerAlias] of a power that has
    them. *)
Definition setSignal (theSignal : string) (p : CPower) : CPower :=
  match extraData p with
  | Some x => set_extraData (Some (mkExtraPowerData (expectedSim_ x) (expectedMin_ x) (expectedMax_ x)
      (family_ x) (implicitFamily_ x) (relativeSet x) theSignal (powerAlias_ x) (pullDownVoltage_ x) (pullUpVoltage_ x))) p
  | None => p
  end.
(** [netVoltagePtr_v[n].full = new CPower(n, v, true)], changed by [f] and added
    to the list of powers. *)
Definition newSimPower (theNetId theVoltage : Z) (f : CPower -> CPower) : DB unit :=
  a ← pushPowerM (CPower_sim theNetId theVoltage true);
  _ ← setPowerAt theNetId (Some a);
  updateM (Some a) f.

(** The net gets the voltage: a power that has no simulation voltage is
    completed, otherwise there is a new one. *)
Definition setLatch (net_it : Z) (x : muxData) : DB unit :=
  a ← powerAt net_it;
  match a with
  | Some _ =>
      p ← arrow a;
      _ ← assertM (simVoltage p =? UNKNOWN_VOLTAGE);
      updateM a (set_simVoltage (muxVoltage x))
  | None => newSimPower net_it (muxVoltage x) (fun p => setAlias (muxAlias x) (setSignal (muxAlias x) p))
  end.

Definition reportMux (mySampleNmos : Z) : DB unit :=
  limit ← gets (fun d => cvcCircuitErrorLimit (cvcParameters d));
  b ← (if limit =? 0 then mret true else n ← IncrementDeviceError mySampleNmos LEAK; mret (n <? limit));
  when b (_ ← MapFullDeviceNets mySampleNmos; reportM (ReportedError LEAK mySampleNmos)).

(** What the loop does with a net that is not ignored: whether a voltage was
    added. *)
Definition latchNet (net_it : Z) : DB bool :=
  myMinVoltage ← latchLevel MIN_QUEUE minVoltage net_it;
  myMaxVoltage ← latchLevel MAX_QUEUE maxVoltage net_it;
  if (myMinVoltage =? UNKNOWN_VOLTAGE) && (myMaxVoltage =? UNKNOWN_VOLTAGE) then mret false
  else
    let lo := if myMinVoltage =? UNKNOWN_VOLTAGE then myMaxVoltage else myMinVoltage in
    let hi := if myMaxVoltage =? UNKNOWN_VOLTAGE then lo else myMaxVoltage in
    v ← FindLatchDevices net_it lo hi firstDrain_v nextDrain_v sourceNet_v (mkLatchData [] []);
    v ← FindLatchDevices net_it lo hi firstSource_v nextSource_v drainNet_v v;
    n ← muxPairs (nmosData_v v) None;
    p ← muxPairs (pmosData_v v) None;
    match n, p with
    | Some n, Some p =>
        if muxVoltage n =? muxVoltage p then _ ← setLatch net_it n; mret true
        else _ ← reportMux (muxSample n); mret false
    | Some x, None | None, Some x => _ ← setLatch net_it x; mret true
    | None, None => mret false
    end.

(** The loop over the nets with [theIgnoreNet_v] and [theNewNetSet]; whether a
    latch was found. *)
Fixpoint latchLoop (thePassCount : Z) (n : nat) (net_it : Z) (theIgnoreNet_v : list bool) (theNewNetSet : gset Z)
    : DB (list bool * gset Z) :=
  match n with
  | O => mret (theIgnoreNet_v, theNewNetSet)
  | S n =>
      i ← lift (vget theIgnoreNet_v net_it);
      i ← latchIgnored thePassCount i net_it;
      v ← lift (vset theIgnoreNet_v net_it i);
      b ← (if (i : bool) then mret false else latchNet net_it);
      latchLoop thePassCount n (net_it + 1) v (if (b : bool) then {[net_it]} ∪ theNewNetSet else theNewNetSet)
  end.

Definition SetLatchPower (thePassCount : Z) (theIgnoreNet_v : list bool) : DB (bool * list bool * gset Z) :=
  n ← gets (fun d => length (nets (simNet_v d)));
  '(v, s) ← latchLoop thePassCount n 0 theIgnoreNet_v ∅;
  mret (bool_decide (s <> ∅), v, s).

(** ** Powers that are cut off *)

(** From the gate of a switch to the net its inverters are driven from: the first
    with a simulation voltage, or the start of the chain.  The loop has no other
    end; [fuel] bounds the length of the chain. *)
Fixpoint scrcParent (fuel : nat) (myParentNet : Z) (theExpectedHighInput : bool) : DB (Z * bool) :=
  match fuel with
  | O => raise OutOfFuel
  | S fuel =>
      i ← at_ inverterNet_v myParentNet;
      if i =? UNKNOWN_NET then mret (myParentNet, theExpectedHighInput)
      else
        k ← knownSim myParentNet;
        if (k : bool) then mret (myParentNet, theExpectedHighInput)
        else scrcParent fuel i (negb theExpectedHighInput)
  end.

Definition finalPower (q : eventQueue_t) (n : Z) : DB (option CPower) :=
  x ← netM q n;
  a ← powerAt (finalNetId x);
  pointeeM a.

Definition SetSCRCParentPower (theNetId theDeviceId : Z) (theExpectedHighInput : bool) : DB unit :=
  g ← nlat gateNet_v theDeviceId;
  fuel ← gets (fun d => S (length (inverterNet_v d)));
  '(myParentNet, high) ← scrcParent fuel g theExpectedHighInput;
  myHighPower_p ← finalPower MAX_QUEUE myParentNet;
  myLowPower_p ← finalPower MIN_QUEUE myParentNet;
  let myExpectedPower_p := if (high : bool) then myHighPower_p else myLowPower_p in
  let myExpectedVoltage :=
    match myExpectedPower_p with Some p => if high then maxVoltage p else minVoltage p | None => UNKNOWN_VOLTAGE end in
  a ← powerAt myParentNet;
  p ← pointeeM a;
  let found := match p with Some p => simVoltage p | None => UNKNOWN_VOLTAGE end in
  if IsKnownVoltage_ found then
    when (bool_decide (is_Some myExpectedPower_p) && negb (myExpectedVoltage =? found)) (reportM (Warning theNetId))
  else
    match myExpectedPower_p with
    | None => reportM (Warning theNetId)
    | Some e =>
        if (myExpectedVoltage =? UNKNOWN_VOLTAGE) || typeBit e HIZ_BIT then reportM (Warning theNetId)
        else
          match p with
          | None => newSimPower myParentNet myExpectedVoltage (setSignal "SCRC expected")
          | Some _ => when (negb (found =? myExpectedVoltage)) (reportM (Warning theNetId))
          end
    end.

(** The transistors between the net and another power; the number for which a
    gate level was looked for. *)
Definition scrcDevice (theNetId : Z) (mySourcePower_p : option Z) (theDrain_v : CNetlist -> list Z) (theNoCheckFlag : bool)
    (myAttemptCount device_it : Z) : DB (Z + unit) :=
  t ← nlat deviceType_v device_it;
  if negb (IsMos_ t) then mret (inl myAttemptCount)
  else
    n ← nlat theDrain_v device_it;
    a ← powerAt n;
    match a with
    | None => mret (inl myAttemptCount)
    | Some myDrain =>
        e ← GetEquivalentNet theNetId;
        g ← nlat gateNet_v device_it;
        g ← GetEquivalentNet g;
        if e =? g then mret (inl myAttemptCount)
        else
          related ← (if theNoCheckFlag then
                       match mySourcePower_p with
                       | None => raise UndefinedBehaviour
                       | Some s => fun d =>
                           lift (IsRelatedPower (powers d) (netVoltagePtr_v d) (simNet_v d) (simNet_v d) s (Some myDrain)
                                   false false) d
                       end
                     else mret false);
          if (related : bool) then mret (inl myAttemptCount)
          else
            p ← derefM myDrain;
            if typeBit p POWER_BIT && (theNoCheckFlag || IsSCRCPower (Some p)) then
              _ ← SetSCRCParentPower theNetId device_it (IsPmos_ t);
              mret (inl (myAttemptCount + 1))
            else mret (inl myAttemptCount)
    end.

Definition SetSCRCGatePower (theNetId : Z) (theFirstSource_v theNextSource_v theDrain_v : CNetlist -> list Z)
    (theNoCheckFlag : bool) : DB Z :=
  mySourcePower_p ← powerAt theNetId;
  r ← overDevicesWith theFirstSource_v theNextSource_v theNetId 0 (scrcDevice theNetId mySourcePower_p theDrain_v theNoCheckFlag);
  mret (match r with inl n => n | inr _ => 0 end).

Definition IsSCRCLogicNet (theNetId : Z) : DB bool :=
  myMinPower ← finalPower MIN_QUEUE theNetId;
  myMaxPower ← finalPower MAX_QUEUE theNetId;
  match myMinPower, myMaxPower with
  | Some mn, Some mx =>
      if Bool.eqb (typeBit mn HIZ_BIT) (typeBit mx HIZ_BIT) then mret false
      else if typeBit mn MIN_CALCULATED_BIT || typeBit mx MAX_CALCULATED_BIT then mret false
      else
        c ← at_ connectionCount_v theNetId;
        mret ((sourceDrainType c =? NMOS_PMOS) && xorb (IsSCRCPower (Some mn)) (IsSCRCPower (Some mx)))
  | _, _ => mret false
  end.

(** A logic net of a power that is cut off: its gates, or the net itself. *)
Definition forceSCRC (net_it : Z) : DB unit :=
  mn ← finalPower MIN_QUEUE net_it;
  mx ← finalPower MAX_QUEUE net_it;
  if IsSCRCPower mn && IsSCRCPower mx then mret tt
  else
    let level (p : option CPower) f := match p with Some p => mret (f p) | None => raise UndefinedBehaviour end in
    myExpectedVoltage ← (if IsSCRCPower mn then level mx maxVoltage else level mn minVoltage);
    a ← powerAt net_it;
    p ← pointeeM a;
    match p with
    | Some p => when (negb (simVoltage p =? myExpectedVoltage)) (reportM (Warning net_it))
    | None => newSimPower net_it myExpectedVoltage (setSignal "SCRC forced")
    end.

Definition scrcNet (net_it : Z) : DB unit :=
  b ← IsSCRCLogicNet net_it;
  when b
    (n ← SetSCRCGatePower net_it firstDrain_v nextDrain_v sourceNet_v false;
     m ← SetSCRCGatePower net_it firstSource_v nextSource_v drainNet_v false;
     when (n + m =? 0) (forceSCRC net_it)).

(** The powers that are added to the list during the first loop are not open. *)
Definition SetSCRCPower : DB unit :=
  l ← gets cvcPowerPtrList;
  _ ← forList l (fun a =>
        p ← derefM a;
        when (typeBit p HIZ_BIT)
          (_ ← SetSCRCGatePower (netId p) firstDrain_v nextDrain_v sourceNet_v true;
           _ ← SetSCRCGatePower (netId p) firstSource_v nextSource_v drainNet_v true;
           mret tt));
  forNets scrcNet.

(** ** Saved voltages *)

Definition SaveMinMaxLeakVoltages : DB unit :=
  _ ← modify (set_leakVoltageSet true);
  _ ← modify (fun d => set_minNet_v (BackupVirtualNets (minNet_v d)) d);
  _ ← modify (fun d => set_maxNet_v (BackupVirtualNets (maxNet_v d)) d);
  modify (fun d => set_leakVoltagePtr_v (netVoltagePtr_v d) d).

Definition SaveInitialVoltages : DB unit :=
  _ ← modify (fun d => set_simNet_v (BackupVirtualNets (simNet_v d)) d);
  modify (fun d => set_initialVoltagePtr_v (netVoltagePtr_v d) d).

End Latch.
