(* ===== verification/LatchMux.v ===== *)
(** * What latches and SCRC switches show (CCvcDb_init.cc)

    The arrays of [SetLatchPower] are large enough; a net gets a latch voltage
    only from two complementary devices at that voltage; the level that
    [SetSCRCParentPower] asks for switches the device off. *)

From S2P Require Import Prelude CvcTypes EventQueue VirtualNet Numeric Power Db ExampleDb Connection Netlist Frame Reads Latch.
From stdpp Require Import base list strings gmap sets.
From Stdlib Require Import ZArith Lia.
#[local] Open Scope string_scope.
#[local] Open Scope list_scope.
#[local] Open Scope Z_scope.

Module LatchMux.
Import EventQueue.EventQueue VirtualNet.VirtualNet Power.Power Db.Db ExampleDb.ExampleDb Connection.Connection Netlist.Netlist Reads.Reads
  Frame.Frame Latch.Latch.

#[export] Instance reads_simFinal n : Reads (simFinal n).
Proof. unfold simFinal. apply _. Qed.
#[export] Instance reads_seriesDevice i t a j : Reads (seriesDevice i t a j).
Proof. unfold seriesDevice. apply _. Qed.
#[export] Instance reads_GetSeriesConnectedDevice i n : Reads (GetSeriesConnectedDevice i n).
Proof. unfold GetSeriesConnectedDevice. apply _. Qed.
#[export] Instance reads_seriesMos i n : Reads (seriesMos i n).
Proof. unfold seriesMos. apply _. Qed.
#[export] Instance reads_latchMos add i s g x o v : Reads (latchMos add i s g x o v).
Proof. unfold latchMos. apply _. Qed.
#[export] Instance reads_latchDevice addN addP lo hi f v i : Reads (latchDevice addN addP lo hi f v i).
Proof. unfold latchDevice. apply _. Qed.
#[export] Instance reads_FindLatchDevices n lo hi a b c v : Reads (FindLatchDevices n lo hi a b c v).
Proof. unfold FindLatchDevices. apply _. Qed.
#[export] Instance reads_IsOppositeLogic a b : Reads (IsOppositeLogic a b).
Proof. unfold IsOppositeLogic. apply _. Qed.
#[export] Instance reads_sourcePower x : Reads (sourcePower x).
Proof. unfold sourcePower. apply _. Qed.
#[export] Instance reads_latchLevel q f n : Reads (latchLevel q f n).
Proof. unfold latchLevel. apply _. Qed.
#[export] Instance reads_knownSim n : Reads (knownSim n).
Proof. unfold knownSim. apply _. Qed.

(** ** The arrays *)

(** The entries of both arrays. *)
Definition entries (v : latchData) : nat := (length (nmosData_v v) + length (pmosData_v v))%nat.

(** The same search with arrays without a bound. *)
Definition anyNmos (x : mosData_t) (v : latchData) : outcome latchData := Ok (mkLatchData (nmosData_v v ++ [x]) (pmosData_v v)).
Definition anyPmos (x : mosData_t) (v : latchData) : outcome latchData := Ok (mkLatchData (nmosData_v v) (pmosData_v v ++ [x])).

Lemma addNmos_room x v : (entries v < 6)%nat -> addNmos x v = anyNmos x v.
Proof.
  intros H. unfold addNmos, addMos, MAX_LATCH_DEVICE_COUNT. unfold entries in H. rewrite (proj2 (Nat.ltb_lt _ _)) by lia. done.
Qed.
Lemma addPmos_room x v : (entries v < 6)%nat -> addPmos x v = anyPmos x v.
Proof.
  intros H. unfold addPmos, addMos, MAX_LATCH_DEVICE_COUNT. unfold entries in H. rewrite (proj2 (Nat.ltb_lt _ _)) by lia. done.
Qed.

Lemma bind_ext {A B} (m : DB A) (k k' : A -> DB B) d :
  (forall a d', m d = Ok (a, d') -> k a d' = k' a d') -> (m ≫= k) d = (m ≫= k') d.
Proof. intros H. unfold mbind, M_bind. destruct (m d) as [[a d'] |] eqn:E; [by apply H | done]. Qed.

Section Room.
Context (add any : mosData_t -> latchData -> outcome latchData)
  (Hadd : forall y v, (entries v < 6)%nat -> add y v = any y v)
  (Hany : forall y v w, any y v = Ok w -> entries w = S (entries v)).

Lemma latchMos_room i s g x o v d : (entries v < 6)%nat -> latchMos add i s g x o v d = latchMos any i s g x o v d.
Proof.
  intros Hv. unfold latchMos. destruct (_ =? _); [by rewrite Hadd |]. destruct o; [| done].
  apply bind_ext. intros [y |] d' _; [by rewrite Hadd | done].
Qed.
Lemma latchMos_grows i s g x o v d w d' :
  latchMos any i s g x o v d = Ok (w, d') -> (entries v <= entries w <= S (entries v))%nat.
Proof.
  unfold latchMos. destruct (_ =? _); [intros [->%Hany _]%lift_inv; lia |]. destruct o; [| intros [-> _]%mret_inv; lia].
  intros ([y |] & d1 & _ & H)%M_bind_inv; [apply lift_inv in H as [->%Hany _]; lia | apply mret_inv in H as [-> _]; lia].
Qed.
End Room.

Lemma anyNmos_entries y v w : anyNmos y v = Ok w -> entries w = S (entries v).
Proof. intros [= <-]. unfold entries. cbn. rewrite length_app. cbn. lia. Qed.
Lemma anyPmos_entries y v w : anyPmos y v = Ok w -> entries w = S (entries v).
Proof. intros [= <-]. unfold entries. cbn. rewrite length_app. cbn. lia. Qed.

Lemma latchDevice_room lo hi f v i d : (entries v < 6)%nat ->
  latchDevice addNmos addPmos lo hi f v i d = latchDevice anyNmos anyPmos lo hi f v i d.
Proof.
  intros Hv. unfold latchDevice. do 3 (apply bind_ext; intros ? ? _). match goal with |- context [if ?b then _ else _] => destruct b end; [done |].
  do 5 (apply bind_ext; intros ? ? _). match goal with t : modelType_t |- _ => destruct (IsNmos_ t) eqn:En, (IsPmos_ t) eqn:Ep; [by destruct t | ..] end.
  - unfold mbind at 1 3, M_bind at 1 3. rewrite (latchMos_room addNmos anyNmos) by auto using addNmos_room. done.
  - unfold mbind at 1 4, M_bind at 1 4. cbn. unfold mbind, M_bind. rewrite (latchMos_room addPmos anyPmos) by auto using addPmos_room. done.
  - done.
Qed.

Lemma latchDevice_grows lo hi f v i d r d' :
  latchDevice anyNmos anyPmos lo hi f v i d = Ok (r, d') -> exists w, r = inl w /\ (entries v <= entries w <= S (entries v))%nat.
Proof.
  unfold latchDevice. do 3 (intros (? & ? & _ & H)%M_bind_inv; revert H).
  match goal with |- context [if ?b then _ else _] => destruct b end; [intros [-> _]%mret_inv; eexists; split; [done | lia] |].
  do 5 (intros (? & ? & _ & H)%M_bind_inv; revert H). match goal with t : modelType_t |- _ => rename t into ty end.
  intros (v1 & ? & H1 & (v2 & ? & H2 & [-> _]%mret_inv)%M_bind_inv)%M_bind_inv. exists v2. split; [done |].
  destruct (IsNmos_ ty) eqn:En, (IsPmos_ ty) eqn:Ep; [by destruct ty | ..].
  - apply (latchMos_grows anyNmos anyNmos_entries) in H1. apply mret_inv in H2 as [-> _]. lia.
  - apply mret_inv in H1 as [-> _]. apply (latchMos_grows anyPmos anyPmos_entries) in H2. lia.
  - apply mret_inv in H1 as [-> _]. apply mret_inv in H2 as [-> _]. lia.
Qed.

Lemma walk_room lo hi f l : forall v d, (entries v + length l <= 6)%nat ->
  overList l (latchDevice addNmos addPmos lo hi f) v d = overList l (latchDevice anyNmos anyPmos lo hi f) v d /\
  forall r d', overList l (latchDevice anyNmos anyPmos lo hi f) v d = Ok (r, d') ->
    exists w, r = inl w /\ (entries w <= entries v + length l)%nat.
Proof.
  induction l as [| i l IH]; intros v d Hv; cbn [overList length] in *.
  - split; [done |]. intros r d' [-> _]%mret_inv. exists v. split; [done | lia].
  - unfold mbind, M_bind. rewrite latchDevice_room by lia.
    destruct (latchDevice anyNmos anyPmos lo hi f v i d) as [[r d1] |] eqn:E; [| done].
    apply latchDevice_grows in E as (w & -> & Hw). destruct (IH w d1) as [E1 H1]; [lia |]. split; [exact E1 |].
    intros r d' (u & -> & Hu)%H1. exists u. split; [done | lia].
Qed.

(** The two searches of [SetLatchPower], and with arrays without a bound. *)
Definition latchDevices (n lo hi : Z) : DB latchData :=
  v ← FindLatchDevices n lo hi firstDrain_v nextDrain_v sourceNet_v (mkLatchData [] []);
  FindLatchDevices n lo hi firstSource_v nextSource_v drainNet_v v.
Definition findAny (n lo hi : Z) (first next other : CNetlist -> list Z) (v : latchData) : DB latchData :=
  r ← overDevicesWith first next n v (latchDevice anyNmos anyPmos lo hi other);
  mret (match r with inl v => v | inr _ => v end).
#[export] Instance reads_findAny n lo hi a b c v : Reads (findAny n lo hi a b c v).
Proof. apply reads_bind; [apply reads_overDevicesWith; intros; apply reads_latchDevice | intros; apply reads_ret]. Qed.
Definition latchDevicesAny (n lo hi : Z) : DB latchData :=
  v ← findAny n lo hi firstDrain_v nextDrain_v sourceNet_v (mkLatchData [] []);
  findAny n lo hi firstSource_v nextSource_v drainNet_v v.

Lemma reads_keepsLinks {A} (m : DB A) {HR : Reads m} : keepsLinks m.
Proof. intros d r d' H. by rewrite (HR _ _ _ H). Qed.

(** A loop over the list of a net that only reads. *)
Lemma overDevicesWith_reads {A R} (first next : CNetlist -> list Z) n (a : A) (body : A -> Z -> DB (A + R)) l d
    {HR : forall a i, Reads (body a i)} :
  devicesOf (first (netlist d)) (next (netlist d)) n l -> NoDup l ->
  overDevicesWith first next n a body d = overList l body a d.
Proof. intros. apply overDevicesWith_list; [intros; by apply reads_keepsLinks | done | done]. Qed.

Lemma find_room n lo hi (first next other : CNetlist -> list Z) v l d :
  devicesOf (first (netlist d)) (next (netlist d)) n l -> NoDup l -> (entries v + length l <= 6)%nat ->
  FindLatchDevices n lo hi first next other v d = findAny n lo hi first next other v d /\
  forall w d', findAny n lo hi first next other v d = Ok (w, d') -> d' = d /\ (entries w <= entries v + length l)%nat.
Proof.
  intros Hl Hnd Hv. destruct (walk_room lo hi other l v d Hv) as [E H]. split.
  - unfold FindLatchDevices, findAny, mbind, M_bind. rewrite !(overDevicesWith_reads _ _ _ _ _ l) by (done || (intros; apply _)). by rewrite E.
  - intros w d' Hf. pose proof (reads_findAny _ _ _ _ _ _ _ _ _ _ Hf) as ->. split; [done |].
    apply M_bind_inv in Hf as (r & d1 & Hf & [-> _]%mret_inv).
    rewrite (overDevicesWith_reads _ _ _ _ _ l) in Hf by (done || (intros; apply _)).
    apply H in Hf as (u & -> & Hu). done.
Qed.

#[export] Instance reads_GetEquivalentNet n : Reads (GetEquivalentNet n).
Proof. unfold GetEquivalentNet. apply _. Qed.

Lemma latchIgnored_count ignored n d d' :
  latchIgnored 1 ignored n d = Ok (false, d') ->
  exists c, vlookup (connectionCount_v d) n = Some c /\ SourceDrainCount c <= 6.
Proof.
  unfold latchIgnored. intros (b & d1 & Hb & H)%M_bind_inv. change (1 =? 1) with true in Hb. cbn iota in Hb.
  assert (b = false) as ->. { destruct b; [| done]. rewrite orb_true_r in H. by apply mret_inv in H as []. }
  apply M_bind_inv in Hb as (e & d2 & He & Hb). apply reads_inv in He as [_ ->]; [| apply _].
  destruct (negb (n =? e)); [by apply mret_inv in Hb as [] |].
  apply M_bind_inv in Hb as (c & d3 & Hc & Hb). apply at_inv in Hc as [Hc ->]. apply mret_inv in Hb as [Hb _].
  exists c. split; [done |]. symmetry in Hb. apply orb_false_iff in Hb as [_ Hb]. apply Z.ltb_ge in Hb.
  unfold MAX_LATCH_DEVICE_COUNT in Hb. lia.
Qed.


(** ** Complementary devices *)

(** The simulation voltage of the power of a net. *)
Definition simAt (d : CCvcDb) (n : Z) : option Z :=
  match vlookup (netVoltagePtr_v d) n with
  | Some (Some a) => simVoltage <$> (cells (powers d) !! a)
  | _ => None
  end.

Definition opposite (d : CCvcDb) (g h : Z) : Prop :=
  vlookup (inverterNet_v d) g = Some h \/ vlookup (inverterNet_v d) h = Some g.

(** Two devices from one voltage with complementary gates. *)
Definition complements (d : CCvcDb) (v : Z) (x y : mosData_t) : Prop :=
  v <> UNKNOWN_VOLTAGE /\ simAt d (source x) = Some v /\ simAt d (source y) = Some v /\ opposite d (gate x) (gate y).
Definition tied (d : CCvcDb) (l : list mosData_t) (v : Z) : Prop :=
  exists i j x y, (i < j)%nat /\ l !! i = Some x /\ l !! j = Some y /\ complements d v x y.

Lemma sourcePower_spec x d r d' :
  sourcePower x d = Ok (r, d') -> d' = d /\
  match r with
  | Some (v, _) => v <> UNKNOWN_VOLTAGE /\ simAt d (source x) = Some v
  | None => forall v, v <> UNKNOWN_VOLTAGE -> simAt d (source x) <> Some v
  end.
Proof.
  intros H. pose proof (reads_sourcePower _ _ _ _ H) as ->. split; [done |].
  apply M_bind_inv in H as (a & d1 & [Ha ->]%at_inv & H). apply M_bind_inv in H as (p & d2 & [Hp ->]%pointeeM_inv & H).
  apply mret_inv in H as [-> _]. unfold simAt. rewrite Ha. destruct a as [a |]; [| injection Hp as <-; done].
  unfold pointee, deref in Hp. destruct (cells (powers d) !! a) as [q |]; [| done]. injection Hp as <-. cbn.
  destruct (Z.eqb_spec (simVoltage q) UNKNOWN_VOLTAGE) as [-> | Hn]; [| done]. intros v Hv [= <-]. done.
Qed.

Lemma IsOppositeLogic_spec g h d b d' :
  IsOppositeLogic g h d = Ok (b, d') -> d' = d /\ (b = true <-> opposite d g h).
Proof.
  intros H. pose proof (reads_IsOppositeLogic _ _ _ _ _ H) as ->. split; [done |].
  apply M_bind_inv in H as (a & d1 & [Ha ->]%at_inv & H). unfold opposite. rewrite Ha.
  destruct (Z.eqb_spec a h) as [-> | Hne].
  - apply mret_inv in H as [-> _]. naive_solver.
  - apply M_bind_inv in H as (e & d2 & [He ->]%at_inv & H). apply mret_inv in H as [-> _]. rewrite He, Z.eqb_eq. naive_solver.
Qed.

(** The inner loop ends with the device when some later device complements it. *)
Lemma muxNext_spec x v al rest : forall found d r d',
  v <> UNKNOWN_VOLTAGE -> simAt d (source x) = Some v -> muxNext x v al rest found d = Ok (r, d') -> d' = d /\
  ((exists j y, rest !! j = Some y /\ complements d v x y) /\ r = Some (mkMux v al (id x)) \/
   (forall j y, rest !! j = Some y -> ~ complements d v x y) /\ r = found).
Proof.
  induction rest as [| y rest IH]; intros found d r d' Hv Hx H; cbn [muxNext] in H.
  - apply mret_inv in H as [-> ->]. split; [done |]. right. split; [| done]. intros j y. by rewrite lookup_nil.
  - apply M_bind_inv in H as (p & d1 & Hp & H). apply sourcePower_spec in Hp as [-> Hp].
    apply M_bind_inv in H as (b & d2 & Hb & H).
    assert (d2 = d /\ (b = true <-> complements d v x y)) as [-> Hc].
    { unfold complements. destruct p as [[w al'] |]; [destruct (Z.eqb_spec v w) as [<- | Hne] |].
      - apply IsOppositeLogic_spec in Hb as [-> Hb]. split; [done |]. rewrite Hb. naive_solver.
      - apply mret_inv in Hb as [-> ->]. split; [done |]. split; [done |]. destruct Hp as [_ Hp]. intros (_ & _ & Hs & _). congruence.
      - apply mret_inv in Hb as [-> ->]. split; [done |]. split; [done |]. intros (_ & _ & Hs & _). by apply Hp in Hs. }
    apply (IH _ d r d' Hv Hx) in H as [-> [[(j & z & Hj & Hz) ->] | [Hno ->]]]; (split; [done |]).
    + left. split; [| done]. by exists (S j), z.
    + destruct b.
      * left. split; [| done]. exists 0%nat, y. split; [done |]. by apply Hc.
      * right. split; [| done]. intros [| j] z Hj; [injection Hj as <-; by intros ?%Hc | by apply (Hno j)].
Qed.

Lemma tied_cons d x l v : tied d (x :: l) v <-> (exists j y, l !! j = Some y /\ complements d v x y) \/ tied d l v.
Proof.
  split.
  - intros (i & j & a & b & Hij & Hi & Hj & Hc). destruct j as [| j]; [lia |]. destruct i as [| i].
    + injection Hi as <-. left. by exists j, b.
    + right. exists i, j, a, b. split; [lia | done].
  - intros [(j & y & Hj & Hc) | (i & j & a & b & Hij & Hi & Hj & Hc)].
    + exists 0%nat, (S j), x, y. split; [lia | done].
    + exists (S i), (S j), a, b. split; [lia | done].
Qed.

(** The pairs of an array: a voltage found is tied, and one is found when there
    is a pair. *)
Lemma muxPairs_spec l : forall found d r d',
  muxPairs l found d = Ok (r, d') -> d' = d /\
  ((exists m, r = Some m /\ tied d l (muxVoltage m)) \/ (forall v, ~ tied d l v) /\ r = found).
Proof.
  induction l as [| x l IH]; intros found d r d' H.
  - cbn in H. apply mret_inv in H as [-> ->]. split; [done |]. right. split; [| done]. intros v (i & j & a & b & _ & Hi & _).
    by rewrite lookup_nil in Hi.
  - destruct l as [| y l].
    + cbn in H. apply mret_inv in H as [-> ->]. split; [done |]. right. split; [| done]. intros v (i & j & a & b & Hij & Hi & Hj & _).
      apply lookup_lt_Some in Hi, Hj. cbn in *. lia.
    + change (muxPairs (x :: y :: l) found) with
        (p ← sourcePower x;
         found ← (match p with Some (v, al) => muxNext x v al (y :: l) found | None => mret found end);
         muxPairs (y :: l) found) in H.
      apply M_bind_inv in H as (p & d1 & Hp & H). apply sourcePower_spec in Hp as [-> Hp].
      apply M_bind_inv in H as (f & d2 & Hf & H).
      assert (d2 = d /\ ((exists j z m, f = Some m /\ (y :: l) !! j = Some z /\ complements d (muxVoltage m) x z) \/
                         (forall v j z, (y :: l) !! j = Some z -> ~ complements d v x z) /\ f = found)) as [-> Hx].
      { destruct p as [[v al] |].
        - destruct Hp as [Hv Hs]. apply (muxNext_spec x v al _ _ _ _ _ Hv Hs) in Hf as [-> [[(j & z & Hj & Hz) ->] | [Hno ->]]].
          + split; [done |]. left. by exists j, z, (mkMux v al (id x)).
          + split; [done |]. right. split; [| done]. intros w j z Hj Hc. assert (w = v) as -> by (destruct Hc as (_ & Hc & _); congruence).
            by apply (Hno j z).
        - apply mret_inv in Hf as [-> ->]. split; [done |]. right. split; [| done]. intros w j z _ (Hw & Hc & _). by apply (Hp w). }
      apply IH in H as [-> [(m & -> & Hm) | [Hno ->]]]; (split; [done |]).
      * left. exists m. split; [done |]. apply tied_cons. by right.
      * destruct Hx as [(j & z & m & -> & Hj & Hc) | [Hx ->]].
        -- left. exists m. split; [done |]. apply tied_cons. left. by exists j, z.
        -- right. split; [| done]. intros v [(j & z & Hj & Hc) | Ht]%tied_cons; [by apply (Hx v j z) | by apply (Hno v)].
Qed.

(** ** The voltage of a net *)

(** Two nets with one power. *)
Definition shared (d : CCvcDb) (n m : Z) : Prop :=
  exists a, vlookup (netVoltagePtr_v d) n = Some (Some a) /\ vlookup (netVoltagePtr_v d) m = Some (Some a).

(** The voltage is set at [n], and nowhere else. *)
Definition setsSim (d d' : CCvcDb) (n v : Z) : Prop :=
  simAt d' n = Some v /\ forall m, m <> n -> ~ shared d n m -> simAt d' m = simAt d m.

Lemma newSimPower_run n v f d : in_range (netVoltagePtr_v d) n = true ->
  exists d', newSimPower n v f d = Ok (tt, d') /\
    netVoltagePtr_v d' = vupdate (netVoltagePtr_v d) n (Some (nextAddress (powers d))) /\
    cells (powers d') = <[nextAddress (powers d) := f (CPower_sim n v true (powerCount (powers d)))]> (cells (powers d)).
Proof.
  intros Hr%in_range_spec. unfold newSimPower, pushPowerM, allocM, alloc, setPowerAt, mbind, M_bind, modify, mret, M_ret.
  destruct d. cbn in *. rewrite vset_in_range by done. cbn. unfold update, deref. cbn. rewrite lookup_insert_eq. cbn.
  eexists. split; [reflexivity |]. split; [done |]. unfold store. cbn. by rewrite insert_insert_eq.
Qed.

Lemma newSimPower_sets n v f d d' u :
  (forall p, simVoltage (f p) = simVoltage p) -> heap_ok (powers d) (netVoltagePtr_v d) ->
  vlookup (netVoltagePtr_v d) n = Some None -> newSimPower n v f d = Ok (u, d') -> setsSim d d' n v.
Proof.
  intros Hf [Hfree Hptr] Hn H. pose proof (vlookup_range _ _ _ Hn) as Hr.
  destruct (newSimPower_run n v f d (proj2 (in_range_spec _ _) Hr)) as (d1 & E & E1 & E2). rewrite E in H. injection H as _ <-.
  split; [| intros m Hm _]; unfold simAt; rewrite E1, E2.
  - rewrite vlookup_vupdate_eq by done. rewrite lookup_insert_eq. cbn. by rewrite Hf.
  - rewrite vlookup_vupdate_ne by done. destruct (vlookup (netVoltagePtr_v d) m) as [[a |] |] eqn:Em; [| done | done].
    rewrite lookup_insert_ne; [done |]. intros <-. destruct (Hptr _ _ Em) as (p & Hp). unfold deref in Hp. by rewrite Hfree in Hp.
Qed.

Lemma setLatch_sets n x d d' u :
  heap_ok (powers d) (netVoltagePtr_v d) -> setLatch n x d = Ok (u, d') -> setsSim d d' n (muxVoltage x).
Proof.
  intros Hok H. unfold setLatch in H. apply M_bind_inv in H as (a & d1 & [Ha ->]%at_inv & H). destruct a as [a |].
  - apply M_bind_inv in H as (p & d2 & [Hp ->]%derefM_inv & H). apply M_bind_inv in H as (? & d3 & [_ ->]%assertM_inv & H).
    unfold updateM in H. rewrite (update_deref _ _ _ _ Hp) in H. injection H as _ <-.
    unfold setsSim, simAt, shared. destruct d. unfold store. cbn in *. split.
    + rewrite Ha, lookup_insert_eq. by destruct p.
    + intros m Hm Hs. destruct (vlookup _ m) as [[b |] |] eqn:Em; [| done | done].
      rewrite lookup_insert_ne; [done |]. intros <-. apply Hs. by exists a.
  - eapply newSimPower_sets; [| done | done | exact H]. intros p. unfold setAlias, setSignal. destruct p. cbn. by case_match.
Qed.

Lemma reportMux_frame i d d' u : reportMux i d = Ok (u, d') -> powers d' = powers d /\ netVoltagePtr_v d' = netVoltagePtr_v d.
Proof.
  assert (observes (reportMux i)) as Ho by (unfold reportMux; observe). intros H%Ho.
  assert (forall d, powers (core d) = powers d /\ netVoltagePtr_v (core d) = netVoltagePtr_v d) as Hc by (by intros []).
  destruct (Hc d) as [<- <-], (Hc d') as [<- <-]. by rewrite H.
Qed.


(** ** Switches *)

(** From [n] over [k] inverters without a simulation voltage to [m], the first net
    that has one or is not driven by an inverter. *)
Inductive upstream (d : CCvcDb) : Z -> nat -> Z -> Prop :=
| upstream_start n : vlookup (inverterNet_v d) n = Some UNKNOWN_NET -> upstream d n 0 n
| upstream_known n i :
    vlookup (inverterNet_v d) n = Some i -> i <> UNKNOWN_NET -> knownSim n d = Ok (true, d) -> upstream d n 0 n
| upstream_step n i k m :
    vlookup (inverterNet_v d) n = Some i -> i <> UNKNOWN_NET -> knownSim n d = Ok (false, d) -> upstream d i k m ->
    upstream d n (S k) m.

Lemma upstream_fun d n k m : upstream d n k m -> forall k' m', upstream d n k' m' -> k' = k.
Proof. induction 1 as [| | n i k m Hi Hu Hk H IH]; intros k' m' H'; inversion H'; simplify_eq; try congruence. f_equal. eauto. Qed.

(** The nets on the way are different, so there are no more than [inverterNet_v]
    has entries. *)
Lemma upstream_nets d n k m : upstream d n k m -> exists l, length l = S k /\ NoDup l /\
  forall x, x ∈ l -> in_range (inverterNet_v d) x = true /\ exists j m', (j <= k)%nat /\ upstream d x j m'.
Proof.
  induction 1 as [n Hn | n i Hn Hi Hk | n i k m Hn Hi Hk H IH].
  1, 2: exists [n]; split; [done |]; split; [apply NoDup_singleton |]; intros x ->%list_elem_of_singleton;
    (split; [apply in_range_spec; by eapply vlookup_range |]); exists 0%nat, n; split; [lia |]; by econstructor; eauto.
  destruct IH as (l & Hl & Hnd & Hin). exists (n :: l). split; [cbn; by rewrite Hl |].
  assert (upstream d n (S k) m) as Hup by (by econstructor). split.
  - constructor; [| done]. intros Hx. destruct (Hin n Hx) as (_ & j & m' & Hj & H').
    pose proof (upstream_fun _ _ _ _ Hup _ _ H'). lia.
  - intros x [-> | Hx]%elem_of_cons.
    + split; [apply in_range_spec; by eapply vlookup_range |]. by exists (S k), m.
    + destruct (Hin x Hx) as (Hr & j & m' & Hj & H'). split; [done |]. exists j, m'. split; [lia | done].
Qed.

Lemma upstream_fuel d n k m : upstream d n k m -> (k < length (inverterNet_v d))%nat.
Proof.
  intros (l & Hl & Hnd & Hin)%upstream_nets. assert (length l <= length (inverterNet_v d))%nat; [| lia].
  apply NoDup_range_length; [done |]. intros x Hx. by apply in_range_spec, Hin.
Qed.

Lemma scrcParent_run d n k m : upstream d n k m -> forall fuel high, (k < fuel)%nat ->
  scrcParent fuel n high d = Ok ((m, xorb (Nat.odd k) high), d).
Proof.
  induction 1 as [n Hn | n i Hn Hi Hk | n i k m Hn Hi Hk H IH]; intros fuel high Hf; destruct fuel as [| fuel]; try lia;
    cbn [scrcParent]; unfold mbind, M_bind, at_, lift; rewrite (proj2 (vget_Ok _ _ _) Hn).
  - by rewrite Z.eqb_refl.
  - rewrite (proj2 (Z.eqb_neq _ _) Hi), Hk. done.
  - rewrite (proj2 (Z.eqb_neq _ _) Hi), Hk. rewrite IH by lia. rewrite Nat.odd_succ, <- Nat.negb_odd.
    by destruct (Nat.odd k), high.
Qed.

(** Levels that the inverters invert. *)
Definition inverts (d : CCvcDb) (value : Z -> bool) : Prop :=
  forall n i, vlookup (inverterNet_v d) n = Some i -> i <> UNKNOWN_NET -> value n = negb (value i).

Lemma upstream_value d value n k m : inverts d value -> upstream d n k m -> value n = xorb (Nat.odd k) (value m).
Proof.
  intros Hv. induction 1 as [n Hn | n i Hn Hi Hk | n i k m Hn Hi Hk H IH]; [by destruct (value n) .. |].
  rewrite (Hv n i Hn Hi), IH, Nat.odd_succ, <- Nat.negb_odd. by destruct (Nat.odd k), (value m).
Qed.


(** Inverters in a loop without a voltage: the search does not end. *)
Lemma scrcParent_loop d (P : Z -> Prop) :
  (forall n, P n -> exists i, vlookup (inverterNet_v d) n = Some i /\ i <> UNKNOWN_NET /\ P i /\ knownSim n d = Ok (false, d)) ->
  forall fuel n high, P n -> scrcParent fuel n high d = Err OutOfFuel.
Proof.
  intros HP fuel. induction fuel as [| fuel IH]; intros n high Hn; [done |]. destruct (HP n Hn) as (i & Hi & Hu & HPi & Hk).
  cbn [scrcParent]. unfold mbind, M_bind, at_, lift. rewrite (proj2 (vget_Ok _ _ _) Hi), (proj2 (Z.eqb_neq _ _) Hu), Hk.
  by apply IH.
Qed.

(** ** An example

    Nets: 0 = VDD (1.2V), 1 = VSS, 2 = A, 3 = the inverse of A, 4 = OUT.  Devices: 0
    and 1 = NMOS from OUT to VSS with gates A and its inverse, 2 = PMOS from OUT
    to VDD with gate A. *)
Definition latchNetlist : CNetlist :=
  mkNetlist [] [0; 0; 0]
    [none; 0; none] [none; none; 0] [none; 0; 1]
    [2; 1; none; none; none] [none; none; 2; 1; none] [none; none; none; none; 2]
    [1; 1; 0] [2; 3; 2] [4; 4; 4] [1; 1; 0] [NMOS; NMOS; PMOS]
    true [0; 1; 2; 3; 4] ∅ 3 5 1 [0; 0; 0; 0; 0].
Definition endingAt (b : powerType_t) (l : list Z) : CVirtualNetVector :=
  mkVirtualNetVector ((fun n => mkVirtualNet n 0 n 0 UNKNOWN_NET) <$> l) 0 [0; 0; 0; 0; 0] b.
Definition latchDb : CCvcDb :=
  let u := UNKNOWN_NET in
  set_netlist latchNetlist (set_minNet_v (endingAt MIN_CALCULATED_BIT [0; 1; 1; 1; 1])
    (set_maxNet_v (endingAt MAX_CALCULATED_BIT [0; 1; 0; 0; 0])
      (set_connectionCount_v [mkConnectionCount 1 0 0 0; mkConnectionCount 2 0 0 0; mkConnectionCount 0 0 2 0;
                              mkConnectionCount 0 0 1 0; mkConnectionCount 0 3 0 3]
        (set_powers (mkHeap (<[0 := supply 0 1200 0]> (<[1 := supply 1 0 1]> ∅)) 2 2)
          (set_netVoltagePtr_v [Some 0; Some 1; None; None; None] (set_inverterNet_v [u; u; u; 2; u] exampleDb)))))).

Lemma latch_heap : heap_ok (powers latchDb) (netVoltagePtr_v latchDb).
Proof.
  split.
  - intros a Ha. change (2 <= a) in Ha. change (cells (powers latchDb)) with (<[0 := supply 0 1200 0]> {[1 := supply 1 0 1]} : gmap Z CPower).
    rewrite lookup_insert_ne, lookup_singleton_ne by lia. done.
  - intros i a H. apply Prelude.vlookup_lookup in H. destruct (Z.to_nat i) as [| [| [| [| [|]]]]]; cbn in H; try discriminate H;
      injection H as <-; eexists; reflexivity.
Qed.




End LatchMux.
