(* ===== verification/PowerText.v ===== *)
(** * Power definitions as text (CPower.cc)

    The string constructor of [CPower] reads one line of a power file: the
    signal, then words that are levels ("1.2", "min@0", a macro or a formula),
    flags ("input", "open", ...) and families ("permit@VDD").
    [StandardDefinition] prints a power in the same notation.  Families name
    sets of relatives ([AddFamily], [SetFamilies]).

    The loops of the source work on positions; [splitWords] is the text cut at
    separators, and the loops are shown to process its words in order. *)

From S2P Require Import Prelude CvcTypes Numeric Power Text Model.
From stdpp Require Import base list strings gmap sets pretty.
From Stdlib Require Import ZArith Lia Ascii Floats.SpecFloat.
#[local] Open Scope string_scope.
#[local] Open Scope list_scope.
#[local] Open Scope Z_scope.

Module PowerText.
Import Numeric.Numeric Power.Power Text.Text.
Import Model.Model (voltageState, mkVoltageState, voltageModels, CalculateVoltage).

Abbreviation text := String.string.

(** [s.find(c)] from a position, [s.find("~>")] and [s.find_last_of("/")]. *)
Definition findChar (s : text) (c : ascii) (pos : Z) : Z := searchFrom (fun x => Ascii.eqb x c) s pos.
Fixpoint findAlias (k : Z) (s : text) : Z :=
  match s with
  | String "~" (String ">" _) => k
  | String _ s => findAlias (k + 1) s
  | EmptyString => npos
  end.
Fixpoint lastOf (c : ascii) (k found : Z) (s : text) : Z :=
  match s with
  | EmptyString => found
  | String x s => lastOf c (k + 1) (if Ascii.eqb x c then k else found) s
  end.

(** ** Fields of the extra data *)

(** The constructor allocates [extraData] first, so that every access finds it. *)
Definition withExtra (f : CExtraPowerData -> CExtraPowerData) (p : CPower) : CPower :=
  set_extraData (Some (f (default newExtraPowerData (extraData p)))) p.

Definition setExpectedMin (v : text) (x : CExtraPowerData) : CExtraPowerData :=
  mkExtraPowerData (expectedSim_ x) v (expectedMax_ x) (family_ x) (implicitFamily_ x) (relativeSet x)
    (powerSignal_ x) (powerAlias_ x) (pullDownVoltage_ x) (pullUpVoltage_ x).
Definition setExpectedMax (v : text) (x : CExtraPowerData) : CExtraPowerData :=
  mkExtraPowerData (expectedSim_ x) (expectedMin_ x) v (family_ x) (implicitFamily_ x) (relativeSet x)
    (powerSignal_ x) (powerAlias_ x) (pullDownVoltage_ x) (pullUpVoltage_ x).
Definition setExpectedSim (v : text) (x : CExtraPowerData) : CExtraPowerData :=
  mkExtraPowerData v (expectedMin_ x) (expectedMax_ x) (family_ x) (implicitFamily_ x) (relativeSet x)
    (powerSignal_ x) (powerAlias_ x) (pullDownVoltage_ x) (pullUpVoltage_ x).
Definition setFamily (v : text) (x : CExtraPowerData) : CExtraPowerData :=
  mkExtraPowerData (expectedSim_ x) (expectedMin_ x) (expectedMax_ x) v (implicitFamily_ x) (relativeSet x)
    (powerSignal_ x) (powerAlias_ x) (pullDownVoltage_ x) (pullUpVoltage_ x).
Definition setImplicitFamily (v : text) (x : CExtraPowerData) : CExtraPowerData :=
  mkExtraPowerData (expectedSim_ x) (expectedMin_ x) (expectedMax_ x) (family_ x) v (relativeSet x)
    (powerSignal_ x) (powerAlias_ x) (pullDownVoltage_ x) (pullUpVoltage_ x).
Definition setRelativeSet (v : CSet) (x : CExtraPowerData) : CExtraPowerData :=
  mkExtraPowerData (expectedSim_ x) (expectedMin_ x) (expectedMax_ x) (family_ x) (implicitFamily_ x) v
    (powerSignal_ x) (powerAlias_ x) (pullDownVoltage_ x) (pullUpVoltage_ x).
Definition setPowerSignal (v : text) (x : CExtraPowerData) : CExtraPowerData :=
  mkExtraPowerData (expectedSim_ x) (expectedMin_ x) (expectedMax_ x) (family_ x) (implicitFamily_ x) (relativeSet x)
    v (powerAlias_ x) (pullDownVoltage_ x) (pullUpVoltage_ x).

(** ** Reading a definition *)

(** [to_string<float>(float(v) / VOLTAGE_SCALE)]: the stream prints six
    significant digits, which are all digits of a 16-bit number of thousandths. *)
Definition printVolts (v : Z) : text :=
  let a := Z.abs v in
  let sign := if v <? 0 then "-" else "" in
  let fraction := stripLast 3 (digits 3 (a mod 1000)) in
  String.append sign (String.append (pretty (a / 1000))
    (if bool_decide (fraction = "") then "" else String.append "." fraction)).

(** The power under construction, [myImplicitFamily] and [myDefinition]. *)
Record powerParse : Type := mkParse { parsed : CPower; parsedFamily : text; parsedText : text }.
Definition setParsed (f : CPower -> CPower) (st : powerParse) : powerParse :=
  mkParse (f (parsed st)) (parsedFamily st) (parsedText st).
Definition addFamilyText (t : text) (st : powerParse) : powerParse :=
  mkParse (parsed st) (String.append (parsedFamily st) t) (parsedText st).
Definition addText (t : text) (st : powerParse) : powerParse :=
  mkParse (parsed st) (parsedFamily st) (String.append (parsedText st) (String " " t)).

Definition SetPowerAlias (thePowerString : text) (theAliasStart : Z) (p : CPower) : outcome CPower :=
  let signal := powerSignal p in
  let myLastHierarchy := lastOf "/" 0 npos signal in
  myPowerAlias ←
    (if theAliasStart <? size thePowerString then
       let myAliasEnd := find_first_of thePowerString blanksOfLine theAliasStart in
       substr thePowerString (theAliasStart + 2) (u64 (myAliasEnd - theAliasStart - 2))
     else if myLastHierarchy <? size signal then
       if myLastHierarchy =? 0 then substr signal (myLastHierarchy + 1) npos else Ok ""
     else Ok signal);
  let myBusStart := find_first_of myPowerAlias "{[(<" 0 in
  myPowerAlias ← (if myBusStart <? size myPowerAlias then substr myPowerAlias 0 myBusStart else Ok myPowerAlias);
  Ok (setAlias myPowerAlias p).

Section Reading.
Context (macros : text -> option CPower) (fuel : nat).

Definition CalculateExpectedValue (theEquation : text) (theType : netStatus_t) : M voltageState text :=
  if bool_decide (theEquation = "open") then mret theEquation
  else match macros theEquation with
       | Some _ => mret theEquation
       | None =>
           if IsValidVoltage_ theEquation then mret theEquation
           else v ← CalculateVoltage macros fuel theEquation theType false true; mret (printVolts v)
       end.

(** A level of the definition, and the macros it mentions. *)
Definition levelParameter (value : text) (t : netStatus_t) (set : Z -> CPower -> CPower) (st : powerParse)
    : M voltageState powerParse :=
  v ← CalculateVoltage macros fuel value t false true;
  family ← gets Model.Model.implicitFamily;
  mret (addFamilyText family (setParsed (set v) st)).

(** [name@value]. *)
Definition namedParameter (name value : text) (st : powerParse) : M voltageState powerParse :=
  st ← (if bool_decide (name = "min") then
          levelParameter value MIN_POWER (fun v p => set_minCalculationType NO_CALCULATION (set_minVoltage v p)) st
        else if bool_decide (name = "max") then
          levelParameter value MAX_POWER (fun v p => set_maxCalculationType NO_CALCULATION (set_maxVoltage v p)) st
        else if bool_decide (name = "sim") then
          levelParameter value SIM_POWER (fun v p => set_simCalculationType NO_CALCULATION (set_simVoltage v p)) st
        else if bool_decide (name = "expectMin") then
          e ← CalculateExpectedValue value MIN_POWER; mret (setParsed (withExtra (setExpectedMin e)) st)
        else if bool_decide (name = "expectMax") then
          e ← CalculateExpectedValue value MAX_POWER; mret (setParsed (withExtra (setExpectedMax e)) st)
        else if bool_decide (name = "expectSim") then
          e ← CalculateExpectedValue value SIM_POWER; mret (setParsed (withExtra (setExpectedSim e)) st)
        else if bool_decide (name = "permit") || bool_decide (name = "prohibit") then
          let alias := match macros value with Some m => powerAlias m | None => "" end in
          let family := if IsEmpty alias then value else alias in
          mret (setParsed (fun p => set_relativeFriendly (bool_decide (name = "permit")) (withExtra (setFamily family) p)) st)
        else mret st);
  mret (addText (String.append name (String "@" value)) st).

(** The definition of the macro [m] called [name]. *)
Definition macroParameter (name : text) (m : CPower) (st : powerParse) : powerParse :=
  let st := addFamilyText (String "," name) st in
  let st := if IsEmpty (family m) then st else addFamilyText (String "," (family m)) st in
  setParsed (fun p =>
    let p := set_simVoltage (simVoltage m) (set_maxVoltage (maxVoltage m) (set_minVoltage (minVoltage m) p)) in
    let p := match extraData m with
             | Some _ => withExtra (fun x => setFamily (family m) (setExpectedSim (expectedSim m)
                           (setExpectedMax (expectedMax m) (setExpectedMin (expectedMin m) x)))) p
             | None => p
             end in
    setAlias name (set_typeBit HIZ_BIT (typeBit m HIZ_BIT) (set_relativeFriendly (relativeFriendly m) p))) st.

(** A word without [@]. *)
Definition plainParameter (thePowerString : text) (myAliasBegin : Z) (name : text) (st : powerParse)
    : M voltageState powerParse :=
  let st := addText name st in
  if bool_decide (name = "input") then mret (setParsed (set_typeBit INPUT_BIT true) st)
  else if bool_decide (name = "power") then
    let st := setParsed (set_typeBit POWER_BIT true) st in
    if IsEmpty (powerAlias (parsed st)) then
      p ← lift (SetPowerAlias thePowerString myAliasBegin (parsed st)); mret (setParsed (fun _ => p) st)
    else mret st
  else if bool_decide (name = "analog") then mret (setParsed (set_typeBit ANALOG_BIT true) st)
  else if bool_decide (name = "resistor") then mret (setParsed (set_typeBit RESISTOR_BIT true) st)
  else if bool_decide (name = "open") then
    mret (setParsed (fun p => set_simVoltage UNKNOWN_VOLTAGE (set_typeBit HIZ_BIT true p)) st)
  else if IsValidVoltage_ name then
    v ← lift (n ← String_to_Voltage name; fits (- 2 ^ 15) (2 ^ 15 - 1) n);
    mret (setParsed (fun p => set_minVoltage v (set_maxVoltage v (set_simVoltage v p))) st)
  else match macros name with
       | Some m => mret (macroParameter name m st)
       | None =>
           sim ← CalculateVoltage macros fuel name SIM_POWER false true;
           max ← CalculateVoltage macros fuel name MAX_POWER false true;
           min ← CalculateVoltage macros fuel name MIN_POWER false true;
           family ← gets Model.Model.implicitFamily;
           mret (addFamilyText family
                   (setParsed (fun p => set_minVoltage min (set_maxVoltage max (set_simVoltage sim p))) st))
       end.

(** The words after the signal; [myStringEnd] is the end of the last word read. *)
Fixpoint definitionLoop (words : nat) (s : text) (myAliasBegin myStringEnd : Z) (st : powerParse)
    : M voltageState powerParse :=
  match words with
  | O => raise OutOfFuel
  | S words =>
      if myStringEnd <? size s then
        let myStringBegin := find_first_not_of s blanksOfLine myStringEnd in
        let myStringEnd := find_first_of s blanksOfLine myStringBegin in
        let myAtIndex := findChar s "@" myStringBegin in
        st ← (if myAtIndex <? myStringEnd then
                name ← lift (substr s myStringBegin (u64 (myAtIndex - myStringBegin)));
                value ← lift (substr s (u64 (myAtIndex + 1)) (u64 (myStringEnd - (myAtIndex + 1))));
                namedParameter name value st
              else
                name ← lift (substr s myStringBegin (u64 (myStringEnd - myStringBegin)));
                plainParameter s myAliasBegin name st);
        definitionLoop words s myAliasBegin myStringEnd st
      else mret st
  end.

(** What follows the loop. *)
Definition finishPower (st : powerParse) : CPower :=
  let p := set_definition (parsedText st) (parsed st) in
  let p := if typeBit p HIZ_BIT && IsEmpty (family p) then withExtra (setFamily "cvc-noleak") p else p in
  if bool_decide (parsedFamily st = "") then p
  else withExtra (setImplicitFamily (dropText 1 (parsedFamily st))) p.

(** [CPower::CPower(string, CPowerPtrMap &, CModelListMap &)]. *)
Definition startPower (signal : text) (myPowerId : Z) : CPower :=
  mkPower UNKNOWN_VOLTAGE UNKNOWN_VOLTAGE UNKNOWN_VOLTAGE myPowerId UNKNOWN_NET UNKNOWN_NET UNKNOWN_NET UNKNOWN_NET
    "" (Some (setPowerSignal signal newExtraPowerData)) 0 0
    UNKNOWN_CALCULATION UNKNOWN_CALCULATION UNKNOWN_CALCULATION true false.

Definition CPower_text (thePowerString : text) (myPowerId : Z) : M voltageState CPower :=
  s ← lift (trim_ thePowerString);
  let myStringBegin := find_first_not_of s blanksOfLine 0 in
  let myStringEnd := find_first_of s blanksOfLine myStringBegin in
  let myAliasBegin := findAlias 0 s in
  signal ← lift (substr s myStringBegin (Z.min myStringEnd myAliasBegin));
  st ← definitionLoop (S (String.length s)) s myAliasBegin myStringEnd (mkParse (startPower signal myPowerId) "" "");
  mret (finishPower st).
End Reading.

(** ** Printing a definition *)

Definition StandardDefinition (p : CPower) : text :=
  let level name bit v :=
    if v =? UNKNOWN_VOLTAGE then ""
    else String.append name (String.append (if typeBit p bit then "=" else "@") (PrintParameter v)) in
  let expected name e := if IsEmpty e then "" else String.append name e in
  let flag bit name := if typeBit p bit then name else "" in
  foldr String.append ""
   [if negb (simVoltage p =? UNKNOWN_VOLTAGE) && (minVoltage p =? simVoltage p) && (simVoltage p =? maxVoltage p)
       && typeBit p POWER_BIT
    then String " " (PrintParameter (minVoltage p))
    else foldr String.append ""
           [level " min" MIN_CALCULATED_BIT (minVoltage p); level " sim" SIM_CALCULATED_BIT (simVoltage p);
            level " max" MAX_CALCULATED_BIT (maxVoltage p)];
    expected " expectMin@" (expectedMin p); expected " expectSim@" (expectedSim p);
    expected " expectMax@" (expectedMax p);
    flag HIZ_BIT " open"; flag INPUT_BIT " input"; flag POWER_BIT " power"; flag RESISTOR_BIT " resistor";
    if IsEmpty (family p) then ""
    else String.append (if relativeFriendly p then " permit@" else " prohibit@") (family p)].

(** ** Families *)

Abbreviation CPowerFamilyMap := (gmap text CSet).

Fixpoint familyLoop (fuel : nat) (s : text) (myFamilyName : text) (myStringEnd : Z) (m : CPowerFamilyMap)
    : outcome CPowerFamilyMap :=
  match fuel with
  | O => throw OutOfFuel
  | S fuel =>
      if myStringEnd <? size s then
        let myStringBegin := find_first_not_of s (String "," blanksOfLine) myStringEnd in
        let myStringEnd := find_first_of s "," myStringBegin in
        m ← (if myStringBegin <? myStringEnd then
               myRelativeName ← substr s myStringBegin (u64 (myStringEnd - myStringBegin));
               Ok (<[myFamilyName := {[myRelativeName]} ∪ default ∅ (m !! myFamilyName)]> m)
             else Ok m);
        familyLoop fuel s myFamilyName myStringEnd m
      else Ok m
  end.

(** [CPowerFamilyMap::AddFamily].  The member [definition] the text is compared
    with is never assigned. *)
Definition familyDefinition : text := "".

Definition AddFamily (thePowerString : text) (m : CPowerFamilyMap) : outcome CPowerFamilyMap :=
  let s := thePowerString in
  let myStringBegin := find_first_not_of s blanksOfLine 0 in
  let myStringEnd := find_first_of s blanksOfLine myStringBegin in
  keyword ← substr s myStringBegin (u64 (myStringEnd - myStringBegin));
  _ ← assert_ (bool_decide (keyword = "family"));
  let myStringBegin := find_first_not_of s blanksOfLine myStringEnd in
  let myStringEnd := find_first_of s blanksOfLine myStringBegin in
  myFamilyName ← substr s myStringBegin (u64 (myStringEnd - myStringBegin));
  myDefinition ← substr s myStringEnd npos;
  match m !! myFamilyName with
  | Some _ => _ ← assert_ (bool_decide (familyDefinition = myDefinition)); Ok m
  | None => familyLoop (S (String.length s)) s myFamilyName myStringEnd m
  end.

(** The members of the family [name], or [name] itself. *)
Definition members (m : CPowerFamilyMap) (name : text) : CSet := default {[name]} (m !! name).

(** The names of a family list, which both branches of the source read in the
    same way. *)
Fixpoint relativesLoop (fuel : nat) (m : CPowerFamilyMap) (s : text) (myStringBegin myStringEnd : Z) (r : CSet)
    : outcome CSet :=
  match fuel with
  | O => throw OutOfFuel
  | S fuel =>
      if myStringBegin <? size s then
        myRelativeName ← substr s myStringBegin (u64 (myStringEnd - myStringBegin));
        let myStringBegin := find_first_not_of s "," myStringEnd in
        relativesLoop fuel m s myStringBegin (find_first_of s "," myStringBegin) (r ∪ members m myRelativeName)
      else Ok r
  end.

Definition readFamilies (m : CPowerFamilyMap) (s : text) (p : CPower) : outcome CPower :=
  let myStringBegin := find_first_not_of s "," 0 in
  r ← relativesLoop (S (String.length s)) m s myStringBegin (find_first_of s "," myStringBegin) (relatives p);
  Ok (withExtra (setRelativeSet r) p).

(** [CPowerPtrList::SetFamilies], for one power and for the list. *)
Definition setFamilies (m : CPowerFamilyMap) (p : CPower) : outcome CPower :=
  if negb (IsEmpty (family p)) then readFamilies m (family p) p
  else if negb (IsEmpty (implicitFamily p)) then readFamilies m (implicitFamily p) p
  else Ok p.

Fixpoint SetFamilies (m : CPowerFamilyMap) (l : list CPower) : outcome (list CPower) :=
  match l with
  | [] => Ok []
  | p :: l => p ← setFamilies m p; l ← SetFamilies m l; Ok (p :: l)
  end.

(** ** The words of a text *)

Fixpoint splitWords (sep : ascii -> bool) (s : text) : list text :=
  match s with
  | EmptyString => []
  | String c s' =>
      if sep c then splitWords sep s'
      else match s' with
           | EmptyString => [String c ""]
           | String d _ =>
               if sep d then String c "" :: splitWords sep s'
               else match splitWords sep s' with
                    | w :: ws => String c w :: ws
                    | [] => [String c ""]
                    end
           end
  end.

(** The characters of [w] are no separators. *)
Definition unbroken (sep : ascii -> bool) (w : text) : Prop :=
  forall c, c ∈ String.list_ascii_of_string w -> sep c = false.
Definition startsSep (sep : ascii -> bool) (s : text) : Prop :=
  match s with EmptyString => True | String c _ => sep c = true end.

Lemma splitWords_sep sep c s : sep c = true -> splitWords sep (String c s) = splitWords sep s.
Proof. intros H. cbn. by rewrite H. Qed.

Lemma splitWords_word sep w rest : w <> "" -> unbroken sep w -> startsSep sep rest ->
  splitWords sep (String.append w rest) = w :: splitWords sep rest.
Proof.
  induction w as [| c w IH]; [done |]. intros _ Hw Hr. rewrite append_cons. cbn [splitWords].
  rewrite (Hw c) by (by left). destruct w as [| d w].
  - rewrite append_nil. destruct rest as [| e rest]; [done |]. cbn in Hr. by rewrite Hr.
  - assert (unbroken sep (String d w)) as Hw' by (intros x Hx; apply Hw; by right).
    specialize (IH ltac:(done) Hw' Hr). rewrite append_cons in *. rewrite (Hw' d) by (by left). by rewrite IH.
Qed.

(** A text is separators, a word, and a rest that starts with a separator. *)
Lemma splitWords_cut sep t :
  match splitWords sep t with
  | [] => forall c, c ∈ String.list_ascii_of_string t -> sep c = true
  | w :: ws => exists blank rest, t = String.append blank (String.append w rest) /\ w <> "" /\ unbroken sep w /\
      (forall c, c ∈ String.list_ascii_of_string blank -> sep c = true) /\ startsSep sep rest /\ splitWords sep rest = ws
  end.
Proof.
  induction t as [| c t IH]; [by intros c ?%elem_of_nil |]. cbn [splitWords]. destruct (sep c) eqn:Ec.
  - destruct (splitWords sep t) as [| w ws].
    + intros x [-> | Hx]%elem_of_cons; auto.
    + destruct IH as (blank & rest & -> & Hw & Hu & Hb & Hr & E). exists (String c blank), rest.
      split_and!; try done. intros x [-> | Hx]%elem_of_cons; auto.
  - destruct t as [| d t].
    + exists "", "". split_and!; try done; try (by intros x ?%elem_of_nil); intros x [-> | ?%elem_of_nil]%elem_of_cons; done.
    + destruct (sep d) eqn:Ed.
      * exists "", (String d t). split_and!; try done; try (by intros x ?%elem_of_nil); intros x [-> | ?%elem_of_nil]%elem_of_cons; done.
      * destruct (splitWords sep (String d t)) as [| w ws] eqn:E.
        { specialize (IH d ltac:(by left)). congruence. }
        destruct IH as (blank & rest & Et & Hw & Hu & Hb & Hr & Es).
        destruct blank as [| b blank];
          [| injection Et as <- Et; specialize (Hb d ltac:(by left)); congruence].
        exists "", rest. rewrite append_nil in *. rewrite append_cons, <- Et. split_and!; try done.
        intros x [-> | Hx]%elem_of_cons; [done | by apply Hu].
Qed.

(** ** Positions and words *)

Lemma firstFrom_all p k a : (forall c, c ∈ String.list_ascii_of_string a -> p c = false) -> firstFrom p k a = npos.
Proof.
  revert k. induction a as [| c a IH]; intros k Ha; [done |]. cbn [firstFrom]. rewrite (Ha c) by (by left).
  apply IH. intros x Hx. apply Ha. by right.
Qed.

Lemma searchFrom_npos p s : size s <= npos -> searchFrom p s npos = npos.
Proof. intros H. unfold searchFrom. by rewrite (proj2 (Z.leb_le _ _)). Qed.

(** A search that starts after [a], passes [w] and stops at [rest]. *)
Lemma searchFrom_past p a w rest : w <> "" \/ rest <> "" ->
  (forall c, c ∈ String.list_ascii_of_string w -> p c = false) ->
  (match rest with EmptyString => True | String c _ => p c = true end) ->
  searchFrom p (String.append a (String.append w rest)) (size a) =
  match rest with EmptyString => npos | _ => size (String.append a w) end.
Proof.
  intros Hne Hw Hr. rewrite searchFrom_append by (destruct w, rest; naive_solver).
  rewrite firstFrom_skip by done. destruct rest as [| c rest]; [done |]. cbn [firstFrom]. by rewrite Hr, size_append.
Qed.

Lemma npos_sub b : 0 <= b <= npos -> u64 (npos - b) = npos - b.
Proof. unfold npos. intros H. apply u64_id. lia. Qed.

(** The text between two positions. *)
Lemma substr_word a w rest : size (String.append a (String.append w rest)) < npos ->
  substr (String.append a (String.append w rest)) (size a)
    (u64 (match rest with EmptyString => npos | _ => size (String.append a w) end - size a)) = Ok w.
Proof.
  intros Hs. pose proof (size_nonneg a). pose proof (size_nonneg w). rewrite !size_append in Hs.
  destruct rest as [| c rest].
  - rewrite append_empty in *. apply substr_append. assert (size "" = 0) by done. rewrite npos_sub by lia. lia.
  - rewrite (size_append _ w). replace (_ + size w - _) with (size w) by lia.
    rewrite u64_id by (unfold npos in *; pose proof (size_nonneg (String c rest)); lia).
    apply substr_middle.
Qed.

(** The word a search finds after position [size a]. *)
Lemma next_word sep a t : size (String.append a t) < npos -> t <> "" ->
  let s := String.append a t in
  let b := searchFrom (fun c => negb (sep c)) s (size a) in
  let e := searchFrom sep s b in
  match splitWords sep t with
  | [] => b = npos
  | w :: ws => exists blank rest, t = String.append blank (String.append w rest) /\ w <> "" /\ unbroken sep w /\
      startsSep sep rest /\ splitWords sep rest = ws /\ b = size (String.append a blank) /\
      e = match rest with EmptyString => npos | _ => size (String.append (String.append a blank) w) end /\
      substr s b (u64 (e - b)) = Ok w
  end.
Proof.
  intros Hs Ht s b e. pose proof (splitWords_cut sep t) as Hc. destruct (splitWords sep t) as [| w ws].
  - unfold b, s. rewrite searchFrom_append by done. apply firstFrom_all. intros c Hx. by rewrite (Hc c Hx).
  - destruct Hc as (blank & rest & E & Hw & Hu & Hb & Hr & Ews). exists blank, rest.
    assert (b = size (String.append a blank)) as Eb.
    { unfold b, s. rewrite E. rewrite searchFrom_past.
      - destruct w; [done |]. done.
      - right. by destruct w.
      - intros c Hx. by rewrite (Hb c Hx).
      - destruct w as [| c w]; [done |]. rewrite append_cons. by rewrite (Hu c ltac:(by left)). }
    assert (s = String.append (String.append a blank) (String.append w rest)) as Es by (unfold s; by rewrite E, append_assoc).
    assert (e = match rest with EmptyString => npos | _ => size (String.append (String.append a blank) w) end) as Ee.
    { unfold e. rewrite Eb, Es. apply searchFrom_past; [by left | done |]. by destruct rest. }
    split_and!; try done. clearbody s b e. subst b e s. apply substr_word. by rewrite E, <- append_assoc in Hs.
Qed.

(** ** Families are unions *)

Definition comma : ascii -> bool := charIn ",".

(** The relatives a family list names. *)
Definition relativesOf (m : CPowerFamilyMap) (s : text) : CSet := ⋃ (members m <$> splitWords comma s).

Lemma relativesLoop_words m fuel : forall a t pos r, size (String.append a t) < npos -> (String.length t < fuel)%nat ->
  pos = size a \/ t = "" /\ pos = npos ->
  let s := String.append a t in
  let b := find_first_not_of s "," pos in
  relativesLoop fuel m s b (find_first_of s "," b) r = Ok (r ∪ relativesOf m t).
Proof.
  induction fuel as [| fuel IH]; intros a t pos r Hs Hf Hp s b; [lia |]. cbn [relativesLoop].
  assert (forall t, splitWords comma t = [] -> b = npos ->
            (if b <? size s then throw UndefinedBehaviour else Ok r) = Ok (r ∪ relativesOf m t)) as Hend.
  { intros t' Et ->. unfold relativesOf. rewrite Et, (proj2 (Z.ltb_ge _ _)) by (unfold s; lia). cbn.
    by rewrite (right_id_L ∅ (∪)). }
  assert (b = npos -> (b <? size s) = false) as Hb by (intros ->; apply Z.ltb_ge; unfold s; lia).
  destruct (decide (t = "")) as [-> | Ht].
  - assert (b = npos) as E.
    { unfold b, s, find_first_not_of, searchFrom. rewrite append_empty in *.
      rewrite (proj2 (Z.leb_le _ _)) by (destruct Hp as [-> | [_ ->]]; lia). done. }
    rewrite Hb by done. specialize (Hend "" eq_refl E). by rewrite Hb in Hend.
  - destruct Hp as [-> | [? _]]; [| done]. pose proof (next_word comma a t Hs Ht) as Hn.
    cbv zeta in Hn. destruct (splitWords comma t) as [| w ws] eqn:Ew.
    + specialize (Hend t Ew Hn). rewrite Hb by done. by rewrite Hb in Hend.
    + destruct Hn as (blank & rest & Et & Hw & Hu & Hr & Ers & Eb & Ee & Esub).
      change (b = size (String.append a blank)) in Eb. fold s in Ee, Esub.
      change (find_first_of s "," b = match rest with "" => npos | _ => size (String.append (String.append a blank) w) end) in Ee.
      assert (0 < size w) by (destruct w; [done |]; unfold size; cbn; lia).
      assert (s = String.append (String.append (String.append a blank) w) rest) as Es by (unfold s; by rewrite Et, !append_assoc).
      rewrite (proj2 (Z.ltb_lt b _)) by (rewrite Eb, Es, !size_append; pose proof (size_nonneg rest); lia).
      change (substr s b (u64 (find_first_of s "," b - b)) = Ok w) in Esub. rewrite Esub. cbn [mbind outcome_bind].
      specialize (IH (String.append (String.append a blank) w) rest (find_first_of s "," b) (r ∪ members m w)).
      cbv zeta in IH. rewrite <- Es in IH. rewrite IH.
      * unfold relativesOf. rewrite Ew, Ers. cbn [fmap list_fmap union_list foldr]. by rewrite (assoc_L (∪)).
      * done.
      * subst t. rewrite !append_length in Hf. destruct w; [done |]. cbn in Hf. lia.
      * rewrite Ee. destruct rest; auto.
Qed.

(** The list [SetFamilies] reads: the explicit one, else the implicit one. *)
Definition familyList (p : CPower) : text := if IsEmpty (family p) then implicitFamily p else family p.

Lemma setFamilies_relatives m p : size (familyList p) < npos ->
  exists p', setFamilies m p = Ok p' /\ relatives p' = relatives p ∪ relativesOf m (familyList p) /\
    (p' = p \/ p' = withExtra (setRelativeSet (relatives p')) p).
Proof.
  unfold setFamilies, familyList. intros Hs.
  assert (forall s, size s < npos -> exists p', readFamilies m s p = Ok p' /\ relatives p' = relatives p ∪ relativesOf m s /\
    (p' = p \/ p' = withExtra (setRelativeSet (relatives p')) p)) as H.
  { intros s Hsz. unfold readFamilies.
    pose proof (relativesLoop_words m (S (String.length s)) "" s 0 (relatives p)) as E.
    rewrite append_nil in E. cbv zeta in E. rewrite E by (auto; lia). eexists. split; [reflexivity |].
    assert (forall r, relatives (withExtra (setRelativeSet r) p) = r) as Er by (by destruct p).
    rewrite Er. auto. }
  destruct (IsEmpty (family p)) eqn:Ef; cbn [negb]; [| by apply H].
  destruct (IsEmpty (implicitFamily p)) eqn:Ei; cbn [negb]; [| by apply H].
  exists p. split_and!; [done | | by left]. apply bool_decide_eq_true in Ei. rewrite Ei. cbn.
  by rewrite (right_id_L ∅ (∪)).
Qed.

(** C23: [SetFamilies] gives every power of the list, whatever its family text, the
    union of what the names of its family list stand for: the members of a defined
    family, the name itself otherwise; an explicit list ([permit@], [prohibit@])
    hides the implicit one.  Nothing else of a power changes, and the position loops
    of the source end for every text. *)
Theorem SetFamilies_relatives m l : (forall p, p ∈ l -> size (familyList p) < npos) ->
  exists l', SetFamilies m l = Ok l' /\
    Forall2 (fun p p' => relatives p' = relatives p ∪ relativesOf m (familyList p) /\
                         (p' = p \/ p' = withExtra (setRelativeSet (relatives p')) p)) l l'.
Proof.
  induction l as [| p l IH]; intros H; [by exists [] |].
  destruct (setFamilies_relatives m p) as (p' & E & Hp); [apply H; by left |].
  destruct IH as (l' & El & Hl); [intros q Hq; apply H; by right |].
  exists (p' :: l'). cbn [SetFamilies]. rewrite E. cbn. rewrite El. auto.
Qed.

Definition familyPower (explicit implicit : text) : CPower :=
  withExtra (fun x => setFamily explicit (setImplicitFamily implicit x)) (startPower "VDDX" 0).
Definition exampleFamilies : CPowerFamilyMap := {["vdd" := {["VDD"; "VDDIO"]}]}.

Lemma SetFamilies_relatives_witness :
  exists l, SetFamilies exampleFamilies [familyPower "vdd,,VSS" "VBB"; familyPower "" "VBB,vdd"] = Ok l /\
    map relatives l = [{["VDD"; "VDDIO"; "VSS"]}; {["VBB"; "VDD"; "VDDIO"]}].
Proof.
  destruct (SetFamilies_relatives exampleFamilies [familyPower "vdd,,VSS" "VBB"; familyPower "" "VBB,vdd"])
    as (l & E & H).
  { intros p [-> | [-> | ?%elem_of_nil]%elem_of_cons]%elem_of_cons; try done; reflexivity. }
  exists l. split; [done |].
  destruct l as [| p1 [| p2 [| ? ?]]]; [by inversion H | by inversion H as [| ? ? ? ? ? H'] ; inversion H' | |
    inversion H as [| ? ? ? ? ? H']; inversion H' as [| ? ? ? ? ? H'']; inversion H''].
  apply Forall2_cons_1 in H as [[H1 _] H]. apply Forall2_cons_1 in H as [[H2 _] _].
  cbn [map]. rewrite H1, H2. reflexivity.
Defined.

(** A second definition of a family always fails: the text it is compared with is
    the empty member [definition], and the text of a definition starts with a blank. *)
Lemma familyLoop_frame fuel s name : forall e m m', familyLoop fuel s name e m = Ok m' ->
  forall n, n <> name -> m' !! n = m !! n.
Proof.
  induction fuel as [| fuel IH]; intros e m m' H n Hn; [done |]. cbn [familyLoop] in H.
  destruct (e <? size s); [| by injection H as <-].
  destruct (_ <? find_first_of s "," _); [| by apply (IH _ _ _ H)].
  cbn in H. destruct (substr _ _ _) as [t |]; [| done]. cbn in H.
  rewrite (IH _ _ _ H n Hn). by apply lookup_insert_ne.
Qed.

Lemma searchFrom_nonneg p s pos : 0 <= pos -> 0 <= searchFrom p s pos.
Proof. intros H. destruct (searchFrom_spec p s pos H) as [-> | ?]; [done | lia]. Qed.

Lemma AddFamily_fresh s m m' : size s < npos -> AddFamily s m = Ok m' ->
  exists name, m !! name = None /\ forall n, n <> name -> m' !! n = m !! n.
Proof.
  intros Hs H. unfold AddFamily in H. inv_ok H. inv_ok H. inv_ok H. inv_ok H.
  set (b := find_first_not_of s blanksOfLine (find_first_of s blanksOfLine _)) in *.
  set (e := find_first_of s blanksOfLine b) in *.
  destruct (m !! a1) eqn:Em; [| exists a1; split; [done | by apply (familyLoop_frame _ _ _ _ _ _ H)]].
  exfalso. inv_ok H. destruct a3. apply assert_Ok, bool_decide_eq_true in Ha3. subst a2.
  assert (0 <= b) as Hb by (repeat apply searchFrom_nonneg; lia).
  unfold substr in Ha2. destruct (size s <? e) eqn:Ee; [done |]. apply Z.ltb_ge in Ee. injection Ha2 as Ha2.
  destruct (searchFrom_spec (charIn blanksOfLine) s b Hb) as [Hn | [Hn _]].
  - change (e = npos) in Hn. lia.
  - change (b <= e < size s) in Hn. pose proof (dropText_size (Z.to_nat e) s) as Hd.
    destruct (dropText (Z.to_nat e) s) as [| ch t]; [change (size "") with 0 in Hd; lia |].
    destruct (Z.to_nat (Z.min npos (size s - e))) eqn:Ez; [unfold npos in Ez; lia | done].
Qed.

(** ** A definition is read word by word *)

Abbreviation blank := (charIn blanksOfLine).

Definition wordParameter (macros : text -> option CPower) (fuel : nat) (s : text) (myAliasBegin : Z) (w : text)
    (st : powerParse) : M voltageState powerParse :=
  let at_ := findChar w "@" 0 in
  if at_ <? size w
  then namedParameter macros fuel (takeText (Z.to_nat at_) w) (dropText (Z.to_nat (at_ + 1)) w) st
  else plainParameter macros fuel s myAliasBegin w st.

Fixpoint wordsLoop (macros : text -> option CPower) (fuel : nat) (s : text) (myAliasBegin : Z) (ws : list text)
    (st : powerParse) : M voltageState powerParse :=
  match ws with
  | [] => mret st
  | w :: ws => st ← wordParameter macros fuel s myAliasBegin w st; wordsLoop macros fuel s myAliasBegin ws st
  end.

(** Where the first [c] of a text is. *)
Lemma findChar_cut c w :
  (findChar w c 0 = npos /\ forall x, x ∈ String.list_ascii_of_string w -> Ascii.eqb x c = false) \/
  (exists u v, w = String.append u (String c v) /\ findChar w c 0 = size u /\
     forall x, x ∈ String.list_ascii_of_string u -> Ascii.eqb x c = false).
Proof.
  pose proof (splitWords_cut (fun x => negb (Ascii.eqb x c)) w) as H.
  assert (forall u v, (forall x, x ∈ String.list_ascii_of_string u -> Ascii.eqb x c = false) ->
            findChar (String.append u (String c v)) c 0 = size u) as Hat.
  { intros u v Hu. change (String.append u (String c v)) with (String.append "" (String.append u (String c v))).
    unfold findChar. change 0 with (size ""). rewrite searchFrom_past; [done | by right | done | apply Ascii.eqb_refl]. }
  destruct (splitWords _ w) as [| w' ws].
  - left. assert (forall x, x ∈ String.list_ascii_of_string w -> Ascii.eqb x c = false) as H'.
    { intros x Hx. by apply negb_true_iff, H. }
    split; [| done]. unfold findChar, searchFrom. destruct (_ <=? 0); [done |]. by apply firstFrom_all.
  - right. destruct H as (u & rest & -> & Hw & Hu & Hb & _). destruct w' as [| d w']; [done |].
    pose proof (Hu d ltac:(by left)) as Hd. apply negb_false_iff, Ascii.eqb_eq in Hd as ->.
    exists u, (String.append w' rest). rewrite append_cons.
    assert (forall x, x ∈ String.list_ascii_of_string u -> Ascii.eqb x c = false) by (intros x Hx; by apply negb_true_iff, Hb).
    auto.
Qed.

(** The text ends with a separator. *)
Fixpoint endsWith (sep : ascii -> bool) (t : text) : bool :=
  match t with
  | EmptyString => false
  | String c EmptyString => sep c
  | String _ t => endsWith sep t
  end.

Lemma endsWith_append sep a t : t <> "" -> endsWith sep (String.append a t) = endsWith sep t.
Proof.
  intros Ht. induction a as [| c a IH]; [done |]. rewrite append_cons. cbn [endsWith].
  destruct (String.append a t) eqn:E; [| exact IH]. destruct a; [by destruct t | done].
Qed.

Lemma endsWith_last sep t : t <> "" -> (forall c, c ∈ String.list_ascii_of_string t -> sep c = true) -> endsWith sep t = true.
Proof.
  induction t as [| c t IH]; [done |]. intros _ H. destruct t as [| d t]; [apply H; by left |].
  change (endsWith sep (String d t) = true). apply IH; [done |]. intros x Hx. apply H. by right.
Qed.

Section Words.
Context (macros : text -> option CPower) (fuel : nat).

(** The two branches of the loop for the word [w] found after [a]. *)
Lemma loop_word s a w rest myAliasBegin st :
  s = String.append a (String.append w rest) -> size s < npos -> w <> "" -> startsSep blank rest ->
  let e := match rest with EmptyString => npos | _ => size (String.append a w) end in
  let at_ := findChar s "@" (size a) in
  substr s (size a) (u64 (e - size a)) = Ok w ->
  (if at_ <? e then
     name ← lift (substr s (size a) (u64 (at_ - size a)));
     value ← lift (substr s (u64 (at_ + 1)) (u64 (e - (at_ + 1))));
     namedParameter macros fuel name value st
   else
     name ← lift (substr s (size a) (u64 (e - size a)));
     plainParameter macros fuel s myAliasBegin name st) =
  wordParameter macros fuel s myAliasBegin w st.
Proof.
  intros Es Hs Hw Hr e at_ Esub. unfold wordParameter.
  pose proof (size_nonneg a). pose proof (size_nonneg w). pose proof (size_nonneg rest).
  assert (size s = size a + (size w + size rest)) as Hsz by (by rewrite Es, !size_append).
  destruct (findChar_cut "@" w) as [[E0 Hno] | (u & v & Ew & E0 & Hu)].
  - rewrite E0, (proj2 (Z.ltb_ge npos _)) by lia. rewrite (proj2 (Z.ltb_ge at_ e)).
    { rewrite Esub. reflexivity. }
    unfold e, at_, findChar. rewrite Es. destruct rest as [| c rest].
    + rewrite searchFrom_past; [done | by left | done | done].
    + rewrite searchFrom_append by (by destruct w). rewrite firstFrom_skip by done. rewrite size_append.
      pose proof (searchFrom_append (fun x => Ascii.eqb x "@") (String.append a w) (String c rest) ltac:(done)) as E2.
      rewrite size_append in E2. rewrite <- E2.
      destruct (searchFrom_spec (fun x => Ascii.eqb x "@") (String.append (String.append a w) (String c rest)) (size a + size w))
        as [-> | ?]; lia.
  - assert (at_ = size a + size u) as Eat.
    { unfold at_, findChar. rewrite Es, Ew, append_assoc, append_cons.
      rewrite searchFrom_past; [by rewrite size_append | by right | done | done]. }
    assert (size w = size u + 1 + size v) as Esw by (rewrite Ew, size_append; unfold size; cbn; lia).
    pose proof (size_nonneg u). pose proof (size_nonneg v).
    rewrite E0, (proj2 (Z.ltb_lt (size u) _)) by lia.
    assert (e = npos /\ rest = "" \/ e = size a + size w) as He.
    { unfold e. destruct rest; [by left | right; by rewrite size_append]. }
    rewrite (proj2 (Z.ltb_lt at_ e)) by lia.
    rewrite Eat. replace (size a + size u - size a) with (size u) by lia.
    unfold npos in Hs. rewrite (u64_id (size u)), (u64_id (size a + size u + 1)) by lia.
    replace (substr s (size a) (size u)) with (Ok u)
      by (rewrite Es, Ew, append_assoc; symmetry; apply substr_middle).
    replace (substr s (size a + size u + 1) (u64 (e - (size a + size u + 1)))) with (Ok v).
    + rewrite Ew. unfold size. rewrite Nat2Z.id, takeText_append.
      replace (Z.to_nat (Z.of_nat (String.length u) + 1)) with (String.length (String.append u "@"))
        by (rewrite append_length; cbn; lia).
      replace (String.append u (String "@" v)) with (String.append (String.append u "@") v) by (by rewrite append_assoc).
      by rewrite dropText_append.
    + replace (size a + size u + 1) with (size (String.append (String.append a u) "@")) by (by rewrite !size_append).
      rewrite Es, Ew. replace (String.append a (String.append (String.append u (String "@" v)) rest))
        with (String.append (String.append (String.append a u) "@") (String.append v rest)) by (by rewrite !append_assoc).
      rewrite !size_append. change (size "@") with 1. destruct He as [[-> ->] | ->].
      * rewrite append_empty, npos_sub by (unfold npos; lia).
        change 1 with (size "@") at 1. rewrite <- !size_append. rewrite substr_append; [done |]. rewrite !size_append.
        unfold npos. change (size "@") with 1. lia.
      * replace (size a + size w - (size a + size u + 1)) with (size v) by lia. rewrite u64_id by lia.
        change 1 with (size "@"). rewrite <- !size_append. symmetry. apply substr_middle.
Qed.

Lemma definitionLoop_words s myAliasBegin : size s < npos -> forall n a t pos st vs,
  s = String.append a t -> (String.length t < n)%nat -> endsWith blank t = false ->
  pos = size a \/ t = "" /\ pos = npos ->
  definitionLoop macros fuel n s myAliasBegin pos st vs = wordsLoop macros fuel s myAliasBegin (splitWords blank t) st vs.
Proof.
  intros Hs. induction n as [| n IH]; intros a t pos st vs Es Hn He Hp; [lia |]. cbn [definitionLoop].
  destruct (decide (t = "")) as [-> | Ht].
  - rewrite append_empty in Es. subst a. rewrite (proj2 (Z.ltb_ge pos _)) by lia. done.
  - destruct Hp as [-> | [? _]]; [| done].
    assert (0 < size t) by (destruct t; [done |]; unfold size; cbn; lia).
    rewrite (proj2 (Z.ltb_lt (size a) _)) by (rewrite Es, size_append; lia).
    pose proof (next_word blank a t ltac:(by rewrite <- Es) Ht) as Hw. cbv zeta in Hw. rewrite <- Es in Hw.
    fold (find_first_not_of s blanksOfLine (size a)) in Hw.
    fold (find_first_of s blanksOfLine (find_first_not_of s blanksOfLine (size a))) in Hw.
    destruct (splitWords blank t) as [| w ws] eqn:Ew.
    { pose proof (splitWords_cut blank t) as Hcut. rewrite Ew in Hcut. by rewrite endsWith_last in He. }
    destruct Hw as (bl & rest & Et & Hne & Hu & Hr & Ers & Eb & Ee & Esub). rewrite Ee, Eb in Esub |- *.
    cbn [wordsLoop].
    rewrite (loop_word s (String.append a bl) w rest) by (done || by rewrite Es, Et, append_assoc).
    unfold mbind, M_bind. destruct (wordParameter macros fuel s myAliasBegin w st vs) as [[st' vs'] |]; [| done].
    rewrite (IH (String.append (String.append a bl) w) rest).
    + by rewrite Ers.
    + by rewrite Es, Et, !append_assoc.
    + rewrite Et, !append_length in Hn. destruct w; [done |]. cbn in Hn. lia.
    + destruct rest as [| c rest]; [done |]. by rewrite Et, <- append_assoc, endsWith_append in He.
    + destruct rest; auto.
Qed.
End Words.

(** ** A definition made of words *)

Fixpoint joinWords (ws : list text) : text :=
  match ws with
  | [] => ""
  | w :: ws => String " " (String.append w (joinWords ws))
  end.

Lemma joinWords_app l l' : joinWords (l ++ l') = String.append (joinWords l) (joinWords l').
Proof. induction l as [| w l IH]; [done |]. cbn [joinWords app]. by rewrite IH, append_cons, append_assoc. Qed.

(** A word has no blanks and no part of an alias delimiter. *)
Definition notPlain : ascii -> bool := charIn (String "~" blanks).
Definition plainWord (w : text) : Prop := w <> "" /\ unbroken notPlain w.

Lemma notPlain_blank c : notPlain c = false -> blank c = false /\ charIn blanks c = false /\ Ascii.eqb c "~" = false.
Proof.
  unfold notPlain. cbn. destruct (Ascii.eqb c "~"), (Ascii.eqb c " "), (Ascii.eqb c "009"), (Ascii.eqb c "010"); done.
Qed.

Lemma unbroken_weaken (sep sep' : ascii -> bool) w :
  (forall c, sep' c = false -> sep c = false) -> unbroken sep' w -> unbroken sep w.
Proof. intros H Hw c Hc. auto. Qed.

Lemma splitWords_join ws : Forall plainWord ws -> splitWords blank (joinWords ws) = ws.
Proof.
  induction 1 as [| w ws [Hne Hw] Hws IH]; [done |]. cbn [joinWords]. rewrite splitWords_sep by done.
  rewrite splitWords_word; [by rewrite IH | done | | by destruct ws].
  eapply unbroken_weaken, Hw. intros c Hc. by apply notPlain_blank.
Qed.

Lemma endsWith_unbroken sep w : w <> "" -> unbroken sep w -> endsWith sep w = false.
Proof.
  induction w as [| c w IH]; [done |]. intros _ H. destruct w as [| d w]; [apply H; by left |].
  change (endsWith sep (String d w) = false). apply IH; [done |]. intros x Hx. apply H. by right.
Qed.

Lemma endsWith_join sep ws : (forall c, notPlain c = false -> sep c = false) -> Forall plainWord ws ->
  endsWith sep (joinWords ws) = false.
Proof.
  intros Hsep. induction 1 as [| w ws [Hne Hw] Hws IH]; [done |]. cbn [joinWords].
  change (String " " (String.append w (joinWords ws))) with (String.append " " (String.append w (joinWords ws))).
  rewrite endsWith_append by (by destruct w). destruct ws as [| w' ws].
  - cbn [joinWords]. rewrite append_empty. apply endsWith_unbroken; [done |]. by eapply unbroken_weaken.
  - by rewrite endsWith_append.
Qed.

Lemma lastNotOf_end cs t : t <> "" -> endsWith (charIn cs) t = false ->
  forall k found, lastNotOf cs k found t = k + size t - 1.
Proof.
  induction t as [| c t IH]; [done |]. intros _ H k found. cbn [lastNotOf]. destruct t as [| d t].
  - cbn in *. rewrite H. unfold size. cbn. lia.
  - rewrite IH by done. unfold size. cbn [String.length]. lia.
Qed.

Lemma trim_id t : t <> "" -> size t < npos -> charIn blanks (firstChar t) = false -> endsWith (charIn blanks) t = false ->
  trim_ t = Ok t.
Proof.
  intros Hne Hs Hf He. unfold trim_, find_last_not_of. rewrite lastNotOf_end by done.
  assert (0 < size t) by (destruct t; [done |]; unfold size; cbn; lia). unfold npos in Hs.
  replace (0 + size t - 1 + 1) with (size t) by lia. rewrite u64_id by lia.
  pose proof (substr_middle "" t "") as E. rewrite append_nil, append_empty in E. change (size "") with 0 in E.
  rewrite E. cbn [mbind outcome_bind]. replace (find_first_not_of t blanks 0) with 0.
  - pose proof (substr_append "" t npos) as E2. rewrite append_nil in E2. apply E2. unfold npos. lia.
  - destruct t as [| c t]; [done |]. unfold find_first_not_of, searchFrom. rewrite (proj2 (Z.leb_gt _ _)) by lia.
    change (dropText (Z.to_nat 0) (String c t)) with (String c t). cbn [firstChar] in Hf. unfold firstFrom. by rewrite Hf.
Qed.

Lemma findAlias_none t : (forall c, c ∈ String.list_ascii_of_string t -> Ascii.eqb c "~" = false) ->
  forall k, findAlias k t = npos.
Proof.
  induction t as [| c t IH]; intros H k; [done |]. pose proof (H c ltac:(by left)) as Hc.
  assert (findAlias k (String c t) = findAlias (k + 1) t) as ->.
  { cbn [findAlias]. destruct c as [[] [] [] [] [] [] [] []]; try done; by destruct t as [| [[] [] [] [] [] [] [] []] t]. }
  apply IH. intros x Hx. apply H. by right.
Qed.

Lemma chars_append a b : String.list_ascii_of_string (String.append a b) =
  String.list_ascii_of_string a ++ String.list_ascii_of_string b.
Proof. induction a as [| c a IH]; [done |]. rewrite append_cons. cbn. by rewrite IH. Qed.

Lemma joinWords_chars ws : Forall plainWord ws -> forall c, c ∈ String.list_ascii_of_string (joinWords ws) -> Ascii.eqb c "~" = false.
Proof.
  induction 1 as [| w ws [_ Hw] _ IH]; intros c Hc; [by apply elem_of_nil in Hc |].
  cbn [joinWords String.list_ascii_of_string] in Hc. apply elem_of_cons in Hc as [-> | Hc]; [done |].
  rewrite chars_append in Hc.
  apply elem_of_app in Hc as [Hc | Hc]; [apply notPlain_blank; by apply Hw | by apply IH].
Qed.

Lemma lift_Ok_bind {S A B} (a : A) (f : A -> M S B) s : (lift (Ok a) ≫= f) s = f a s.
Proof. done. Qed.

(** The constructor for a signal and words: the words are handled in order. *)
Lemma CPower_text_words macros fuel signal ws id vs :
  let s := String.append signal (joinWords ws) in
  plainWord signal -> Forall plainWord ws -> size s < npos ->
  CPower_text macros fuel s id vs =
  (st ← wordsLoop macros fuel s npos ws (mkParse (startPower signal id) "" ""); mret (finishPower st)) vs.
Proof.
  intros s [Hne Hsig] Hws Hs. unfold CPower_text.
  assert (endsWith (charIn blanks) s = false) as He.
  { unfold s. destruct ws as [| w ws].
    - cbn [joinWords]. rewrite append_empty. apply endsWith_unbroken; [done |].
      eapply unbroken_weaken, Hsig. intros c Hc. by apply notPlain_blank.
    - rewrite endsWith_append by done. apply endsWith_join; [| done]. intros c Hc. by apply notPlain_blank. }
  assert (charIn blanks (firstChar s) = false) as Hf.
  { unfold s. destruct signal as [| c signal]; [done |]. rewrite append_cons. apply notPlain_blank, Hsig. by left. }
  assert (s <> "") as Hs0 by (unfold s; by destruct signal).
  rewrite trim_id by done. rewrite lift_Ok_bind. cbv zeta.
  assert (unbroken blank signal) as Hub by (eapply unbroken_weaken, Hsig; intros c Hc; by apply notPlain_blank).
  assert (find_first_not_of s blanksOfLine 0 = 0) as ->.
  { pose proof (searchFrom_past (fun c => negb (blank c)) "" "" s) as E. rewrite !append_nil in E.
    change (size "") with 0 in E. unfold find_first_not_of. rewrite E.
    - unfold s. by destruct signal.
    - by right.
    - by intros c ?%elem_of_nil.
    - unfold s. destruct signal as [| c signal]; [done |]. rewrite append_cons. by rewrite (Hub c ltac:(by left)). }
  assert (find_first_of s blanksOfLine 0 = match joinWords ws with EmptyString => npos | _ => size signal end) as ->.
  { pose proof (searchFrom_past blank "" signal (joinWords ws)) as E. rewrite !append_nil in E.
    apply E; [by left | done | by destruct ws]. }
  assert (findAlias 0 s = npos) as ->.
  { apply findAlias_none. unfold s. intros c Hc. rewrite chars_append in Hc.
    apply elem_of_app in Hc as [Hc | Hc]; [by apply notPlain_blank, Hsig | by apply (joinWords_chars ws)]. }
  set (e := match joinWords ws with EmptyString => npos | _ => size signal end).
  assert (substr s 0 (Z.min e npos) = Ok signal) as Esub.
  { unfold s, e. pose proof (size_nonneg (joinWords ws)). unfold s in Hs. rewrite size_append in Hs.
    pose proof (substr_middle "" signal (joinWords ws)) as E. change (size "") with 0 in E. rewrite append_nil in E.
    destruct (joinWords ws) as [| c t]; [| by rewrite Z.min_l by lia].
    rewrite append_empty. pose proof (substr_append "" signal npos) as E2. rewrite append_nil in E2.
    rewrite Z.min_id. apply E2. lia. }
  rewrite Esub, lift_Ok_bind. unfold mbind, M_bind.
  rewrite (definitionLoop_words macros fuel s npos Hs _ signal (joinWords ws)).
  - by rewrite splitWords_join.
  - done.
  - unfold s. rewrite append_length. destruct signal; [done |]. cbn. lia.
  - apply endsWith_join; [| done]. intros c Hc. by apply notPlain_blank.
  - unfold e. destruct (joinWords ws); auto.
Qed.

(** ** Printing and reading back *)

Definition opt (b : bool) (w : text) : list text := if b then [w] else [].

(** The words of [StandardDefinition]. *)
Definition standardWords (p : CPower) : list text :=
  let level name bit v := opt (IsKnownVoltage_ v) (String.append name (String.append (if typeBit p bit then "=" else "@") (PrintParameter v))) in
  let expected name e := opt (negb (IsEmpty e)) (String.append name e) in
  (if IsKnownVoltage_ (simVoltage p) && (minVoltage p =? simVoltage p) && (simVoltage p =? maxVoltage p) && typeBit p POWER_BIT
   then [PrintParameter (minVoltage p)]
   else level "min" MIN_CALCULATED_BIT (minVoltage p) ++ level "sim" SIM_CALCULATED_BIT (simVoltage p) ++
        level "max" MAX_CALCULATED_BIT (maxVoltage p)) ++
  expected "expectMin@" (expectedMin p) ++ expected "expectSim@" (expectedSim p) ++ expected "expectMax@" (expectedMax p) ++
  opt (typeBit p HIZ_BIT) "open" ++ opt (typeBit p INPUT_BIT) "input" ++ opt (typeBit p POWER_BIT) "power" ++
  opt (typeBit p RESISTOR_BIT) "resistor" ++
  opt (negb (IsEmpty (family p))) (String.append (if relativeFriendly p then "permit@" else "prohibit@") (family p)).

Lemma joinWords_opt b w : joinWords (opt b w) = if b then String " " w else "".
Proof. destruct b; cbn; [by rewrite append_empty | done]. Qed.

Lemma StandardDefinition_words p : StandardDefinition p = joinWords (standardWords p).
Proof.
  unfold StandardDefinition, standardWords. rewrite !joinWords_app, !joinWords_opt. cbn [foldr]. f_equal.
  - fold (IsKnownVoltage_ (simVoltage p)). destruct (IsKnownVoltage_ (simVoltage p) && _ && _ && _).
    + cbn [joinWords]. by rewrite append_empty.
    + rewrite !joinWords_app, !joinWords_opt. unfold IsKnownVoltage_.
      f_equal; [by destruct (minVoltage p =? UNKNOWN_VOLTAGE) |].
      f_equal; [by destruct (simVoltage p =? UNKNOWN_VOLTAGE) |]. rewrite append_empty.
      by destruct (maxVoltage p =? UNKNOWN_VOLTAGE).
  - f_equal; [by destruct (IsEmpty (expectedMin p)) |]. f_equal; [by destruct (IsEmpty (expectedSim p)) |].
    f_equal; [by destruct (IsEmpty (expectedMax p)) |]. do 4 f_equal. rewrite append_empty.
    by destruct (IsEmpty (family p)), (relativeFriendly p).
Qed.

(** What a definition says of a power: the fields [IsSamePower] compares, and the signal. *)
Record shown : Type := mkShown {
  shType : Z; shMin : Z; shSim : Z; shMax : Z; shExpectedMin : text; shExpectedSim : text; shExpectedMax : text;
  shFamily : text; shFriendly : bool; shSignal : text }.
Definition view (p : CPower) : shown :=
  mkShown (type p) (minVoltage p) (simVoltage p) (maxVoltage p) (expectedMin p) (expectedSim p) (expectedMax p)
    (family p) (relativeFriendly p) (powerSignal p).

Definition showLevels (min sim max : Z) (x : shown) : shown :=
  mkShown (shType x) min sim max (shExpectedMin x) (shExpectedSim x) (shExpectedMax x) (shFamily x) (shFriendly x) (shSignal x).
Definition showExpected (min sim max : text) (x : shown) : shown :=
  mkShown (shType x) (shMin x) (shSim x) (shMax x) min sim max (shFamily x) (shFriendly x) (shSignal x).
Definition showBit (b : powerType_t) (x : shown) : shown :=
  mkShown (status_set (shType x) (powerBit b) true) (shMin x) (shSim x) (shMax x) (shExpectedMin x) (shExpectedSim x)
    (shExpectedMax x) (shFamily x) (shFriendly x) (shSignal x).
Definition showFamily (f : text) (b : bool) (x : shown) : shown :=
  mkShown (shType x) (shMin x) (shSim x) (shMax x) (shExpectedMin x) (shExpectedSim x) (shExpectedMax x) f b (shSignal x).

(** A voltage whose printed text is read as the same voltage, by [CalculateVoltage]
    ("min@...") and by [String_to_Voltage]. *)
Definition isPlain (w : text) : bool :=
  negb (bool_decide (w = "")) && forallb (fun c => negb (notPlain c)) (String.list_ascii_of_string w).
Definition readsAs (v : Z) (o : outcome Z) : bool := match o with Ok n => n =? v | Err _ => false end.
Definition readsBack (v : Z) : bool :=
  let w := PrintParameter v in
  isPlain w && (size w <? npos) && IsValidVoltage_ w && negb (isalpha (firstChar w)) && negb (Equation.Equation.occursIn Equation.Equation.machineOperators w)
  && forallb (fun c => negb (Ascii.eqb c "@")) (String.list_ascii_of_string w)
  && readsAs v (x ← from_string_float w; Model.Model.finalVoltage [x])
  && readsAs v (n ← String_to_Voltage w; fits (- 2 ^ 15) (2 ^ 15 - 1) n).

Lemma unbroken_check sep w : forallb (fun c => negb (sep c)) (String.list_ascii_of_string w) = true -> unbroken sep w.
Proof. rewrite forallb_forall. intros H c Hc. apply negb_true_iff, H. by apply list_elem_of_In. Qed.

Lemma isPlain_spec w : isPlain w = true -> plainWord w.
Proof.
  unfold isPlain. rewrite andb_true_iff, negb_true_iff, bool_decide_eq_false.
  intros [Hne H]. split; [done | by apply unbroken_check].
Qed.

Section Back.
Context (macros : text -> option CPower) (fuel : nat) (s : text) (Hs : size s < npos).

(** Reading the words [ws] succeeds and changes what is shown by [f]. *)
Definition reads (ws : list text) (f : shown -> shown) : Prop := forall st vs, exists st' vs',
  wordsLoop macros (S fuel) s npos ws st vs = Ok (st', vs') /\ view (parsed st') = f (view (parsed st)) /\
  parsedFamily st' = parsedFamily st.

Lemma reads_nil : reads [] id.
Proof. intros st vs. by exists st, vs. Qed.

Lemma wordsLoop_app ws ws' st vs : wordsLoop macros (S fuel) s npos (ws ++ ws') st vs =
  (st ← wordsLoop macros (S fuel) s npos ws st; wordsLoop macros (S fuel) s npos ws' st) vs.
Proof.
  revert st vs. induction ws as [| w ws IH]; intros st vs; [done |]. cbn [app wordsLoop].
  unfold mbind, M_bind in *. destruct (wordParameter _ _ _ _ _ _ _) as [[st' vs'] |]; [apply IH | done].
Qed.

Lemma reads_app ws ws' f f' : reads ws f -> reads ws' f' -> reads (ws ++ ws') (fun x => f' (f x)).
Proof.
  intros H H' st vs. destruct (H st vs) as (st1 & vs1 & E1 & V1 & F1). destruct (H' st1 vs1) as (st2 & vs2 & E2 & V2 & F2).
  exists st2, vs2. rewrite wordsLoop_app. unfold mbind, M_bind. rewrite E1. split_and!; [done | by rewrite V2, V1 | by rewrite F2].
Qed.

Lemma reads_opt b w f : (b = true -> reads [w] f) -> reads (opt b w) (fun x => if b then f x else x).
Proof. intros H. destruct b; [by apply H | apply reads_nil]. Qed.

(** One word. *)
Lemma reads_word w f : (forall st vs, exists st' vs', wordParameter macros (S fuel) s npos w st vs = Ok (st', vs') /\
    view (parsed st') = f (view (parsed st)) /\ parsedFamily st' = parsedFamily st) -> reads [w] f.
Proof.
  intros H st vs. destruct (H st vs) as (st' & vs' & E & V). exists st', vs'. split; [| done].
  cbn [wordsLoop]. unfold mbind, M_bind. by rewrite E.
Qed.

Lemma wordParameter_named name value st : unbroken (fun c => Ascii.eqb c "@") name ->
  wordParameter macros (S fuel) s npos (String.append name (String "@" value)) st = namedParameter macros (S fuel) name value st.
Proof.
  intros H. unfold wordParameter. assert (findChar (String.append name (String "@" value)) "@" 0 = size name) as E.
  { pose proof (searchFrom_past (fun c => Ascii.eqb c "@") "" name (String "@" value)) as E. rewrite append_nil in E.
    apply E; [by right | done | done]. }
  rewrite E, (proj2 (Z.ltb_lt _ _)) by (rewrite size_append; unfold size; cbn; lia).
  unfold size. rewrite Nat2Z.id, takeText_append.
  replace (Z.to_nat (Z.of_nat (String.length name) + 1)) with (String.length (String.append name "@"))
    by (rewrite append_length; cbn; lia).
  replace (String.append name (String "@" value)) with (String.append (String.append name "@") value) by (by rewrite append_assoc).
  by rewrite dropText_append.
Qed.

Lemma wordParameter_plain w st : size w < npos -> unbroken (fun c => Ascii.eqb c "@") w ->
  wordParameter macros (S fuel) s npos w st = plainParameter macros (S fuel) s npos w st.
Proof.
  intros Hw H. unfold wordParameter. destruct (findChar_cut "@" w) as [[-> _] | (u & v & -> & _)].
  - by rewrite (proj2 (Z.ltb_ge npos _)) by lia.
  - specialize (H "@"%char). rewrite chars_append in H. discriminate H. apply elem_of_app. right. by left.
Qed.

(** Reading a printed voltage. *)
Lemma CalculateVoltage_printed v t vs : readsBack v = true -> exists vs',
  CalculateVoltage macros (S fuel) (PrintParameter v) t false true vs = Ok (v, vs') /\ Model.Model.implicitFamily vs' = "".
Proof.
  unfold readsBack. rewrite !andb_true_iff, !negb_true_iff. intros [[[[[[[_ _] Hvalid] Halpha] Hop] _] Hfinal] _].
  exists (mkVoltageState "" (voltageModels vs)). split; [| done]. set (w := PrintParameter v) in *. clearbody w. cbn [CalculateVoltage]. unfold mbind, M_bind, when, modify.
  rewrite Hvalid. unfold mret, M_ret. cbn [Equation.Equation.machine].
  rewrite Hop. unfold mbind, M_bind, Model.Model.voltageToken. rewrite Halpha, Hvalid. unfold lift.
  destruct (from_string_float w) as [x |]; [| done]. cbn [mbind outcome_bind readsAs] in Hfinal. unfold mret, M_ret.
  destruct (Model.Model.finalVoltage [x]) as [n |]; [| done]. by apply Z.eqb_eq in Hfinal as ->.
Qed.

Lemma String_to_Voltage_printed v : readsBack v = true ->
  (n ← String_to_Voltage (PrintParameter v); fits (- 2 ^ 15) (2 ^ 15 - 1) n) = Ok v.
Proof.
  unfold readsBack. intros H. apply andb_true_iff in H as [_ H]. unfold readsAs in H.
  destruct (_ ← String_to_Voltage _; _) as [n |]; [| done]. by apply Z.eqb_eq in H as ->.
Qed.

Lemma readsBack_word v : readsBack v = true -> size (PrintParameter v) < npos /\ plainWord (PrintParameter v) /\
  unbroken (fun c => Ascii.eqb c "@") (PrintParameter v) /\ IsValidVoltage_ (PrintParameter v) = true /\
  isalpha (firstChar (PrintParameter v)) = false.
Proof.
  unfold readsBack. rewrite !andb_true_iff, !negb_true_iff. intros [[[[[[[Hp Hw] Hv] Ha] _] Hat] _] _].
  split_and!; [by apply Z.ltb_lt | by apply isPlain_spec | by apply unbroken_check | done | done].
Qed.

(** The words of the levels. *)
Lemma reads_level name v f : readsBack v = true -> unbroken (fun c => Ascii.eqb c "@") name ->
  (name = "min" /\ f = (fun x => showLevels v (shSim x) (shMax x) x) \/
   name = "sim" /\ f = (fun x => showLevels (shMin x) v (shMax x) x) \/
   name = "max" /\ f = (fun x => showLevels (shMin x) (shSim x) v x)) ->
  reads [String.append name (String "@" (PrintParameter v))] f.
Proof.
  intros Hv Hn Hf. apply reads_word. intros st vs. rewrite wordParameter_named by done.
  destruct Hf as [[-> ->] | [[-> ->] | [-> ->]]];
    [destruct (CalculateVoltage_printed v MIN_POWER vs Hv) as (vs' & E & Ei)
    |destruct (CalculateVoltage_printed v SIM_POWER vs Hv) as (vs' & E & Ei)
    |destruct (CalculateVoltage_printed v MAX_POWER vs Hv) as (vs' & E & Ei)];
  unfold namedParameter; repeat (rewrite bool_decide_false by done); rewrite bool_decide_true by done;
  unfold levelParameter, mbind, M_bind; rewrite E; unfold gets, mret, M_ret; rewrite Ei;
  (eexists _, _; split; [reflexivity |]); destruct st as [q ? ?]; destruct q; cbn; by rewrite append_empty.
Qed.

Lemma reads_value v : readsBack v = true -> reads [PrintParameter v] (showLevels v v v).
Proof.
  intros Hv. destruct (readsBack_word v Hv) as (Hw & _ & Hat & Hvalid & Halpha).
  pose proof (String_to_Voltage_printed v Hv) as E. apply reads_word. intros st vs. rewrite wordParameter_plain by done.
  unfold plainParameter.
  assert (forall t, isalpha (firstChar t) = true -> bool_decide (PrintParameter v = t) = false) as Hne.
  { intros t Ht. apply bool_decide_eq_false. intros <-. congruence. }
  rewrite !Hne by done. rewrite Hvalid, E, lift_Ok_bind.
  eexists _, _. split; [reflexivity |]. by destruct st as [[] ? ?].
Qed.

(** Expected values that are kept as they are. *)
Definition keptExpected (e : text) : Prop :=
  e = "open" \/ macros e <> None \/ IsValidVoltage_ e = true.

Lemma CalculateExpectedValue_kept e t vs : keptExpected e -> CalculateExpectedValue macros (S fuel) e t vs = Ok (e, vs).
Proof.
  intros H. unfold CalculateExpectedValue. case_bool_decide; [done |].
  destruct (macros e) eqn:E; [done |]. destruct H as [? | [? | ->]]; done.
Qed.

Lemma reads_expected name e f : keptExpected e -> unbroken (fun c => Ascii.eqb c "@") name ->
  (name = "expectMin" /\ f = (fun x => showExpected e (shExpectedSim x) (shExpectedMax x) x) \/
   name = "expectSim" /\ f = (fun x => showExpected (shExpectedMin x) e (shExpectedMax x) x) \/
   name = "expectMax" /\ f = (fun x => showExpected (shExpectedMin x) (shExpectedSim x) e x)) ->
  reads [String.append name (String "@" e)] f.
Proof.
  intros He Hn Hf. apply reads_word. intros st vs. rewrite wordParameter_named by done.
  destruct Hf as [[-> ->] | [[-> ->] | [-> ->]]];
  unfold namedParameter; repeat (rewrite bool_decide_false by done); rewrite bool_decide_true by done;
  unfold mbind, M_bind; rewrite CalculateExpectedValue_kept by done;
  (eexists _, _; split; [reflexivity |]); destruct st as [q ? ?]; by destruct q as [? ? ? ? ? ? ? ? ? []].
Qed.

(** Flags; the alias that "power" sets is not shown. *)
Lemma SetPowerAlias_Ok p : exists a, SetPowerAlias s npos p = Ok (setAlias a p).
Proof.
  unfold SetPowerAlias. rewrite (proj2 (Z.ltb_ge npos (size s))) by lia.
  set (h := lastOf "/" 0 npos (powerSignal p)).
  assert (exists a, (if h <? size (powerSignal p) then if h =? 0 then substr (powerSignal p) (h + 1) npos else Ok ""
                     else Ok (powerSignal p)) = Ok a) as (a & ->).
  { destruct (h <? size (powerSignal p)) eqn:E; [| eauto]. destruct (h =? 0) eqn:E0; [| eauto].
    apply Z.eqb_eq in E0. apply Z.ltb_lt in E. unfold substr. rewrite (proj2 (Z.ltb_ge _ _)) by lia. eauto. }
  cbn [mbind outcome_bind]. destruct (_ <? size a).
  - unfold substr. rewrite (proj2 (Z.ltb_ge _ _)) by apply size_nonneg. eexists. reflexivity.
  - eexists. reflexivity.
Qed.

Lemma reads_power : reads ["power"] (showBit POWER_BIT).
Proof.
  apply reads_word. intros st vs. rewrite wordParameter_plain; [| done |].
  - unfold plainParameter. rewrite bool_decide_false by done. rewrite bool_decide_true by done. destruct (IsEmpty _).
    + destruct (SetPowerAlias_Ok (parsed (setParsed (set_typeBit POWER_BIT true) (addText "power" st)))) as (a & E).
      rewrite E, lift_Ok_bind. eexists _, _. split; [reflexivity |]. destruct st as [q ? ?]. by destruct q as [? ? ? ? ? ? ? ? ? []].
    + eexists _, _. split; [reflexivity |]. by destruct st as [[] ? ?].
  - by apply unbroken_check.
Qed.

Lemma reads_flag w f :
  (w = "input" /\ f = showBit INPUT_BIT \/ w = "resistor" /\ f = showBit RESISTOR_BIT \/
   w = "open" /\ f = (fun x => showLevels (shMin x) UNKNOWN_VOLTAGE (shMax x) (showBit HIZ_BIT x))) ->
  reads [w] f.
Proof.
  intros Hf. apply reads_word. intros st vs. rewrite wordParameter_plain.
  - unfold plainParameter. destruct Hf as [[-> ->] | [[-> ->] | [-> ->]]];
      repeat (rewrite bool_decide_false by done); rewrite bool_decide_true by done;
      (eexists _, _; split; [reflexivity |]); by destruct st as [[] ? ?].
  - by destruct Hf as [[-> _] | [[-> _] | [-> _]]].
  - destruct Hf as [[-> _] | [[-> _] | [-> _]]]; by apply unbroken_check.
Qed.

(** A family name that no macro replaces by its alias. *)
Definition keptFamily (f : text) : Prop := forall m, macros f = Some m -> powerAlias m = "" \/ powerAlias m = f.

Lemma reads_family (f : text) (b : bool) : keptFamily f ->
  reads [String.append (if b then "permit@" else "prohibit@") f] (showFamily f b).
Proof.
  intros Hf. apply reads_word. intros st vs.
  replace (String.append (if b then "permit@" else "prohibit@") f)
    with (String.append (if b then "permit" else "prohibit") (String "@" f)) by (by destruct b).
  rewrite wordParameter_named.
  - assert ((if IsEmpty match macros f with Some m => powerAlias m | None => "" end then f
             else match macros f with Some m => powerAlias m | None => "" end) = f) as Ea.
    { destruct (macros f) as [m |] eqn:E; [| done]. destruct (Hf m E) as [-> | ->]; [done |]. by destruct (IsEmpty f). }
    unfold namedParameter. cbv zeta. rewrite Ea. destruct b;
      repeat (rewrite bool_decide_false by done); rewrite bool_decide_true by done; cbn [orb];
      (eexists _, _; split; [reflexivity |]); destruct st as [q ? ?]; by destruct q as [? ? ? ? ? ? ? ? ? []].
  - destruct b; by apply unbroken_check.
Qed.
End Back.

(** The powers whose standard definition is a definition: levels that are read back,
    the four types that are printed, texts without blanks. *)
Record printable (macros : text -> option CPower) (p : CPower) : Prop := mkPrintable {
  pr_type : 0 <= type p < 16;
  pr_levels : forall v, v ∈ [minVoltage p; simVoltage p; maxVoltage p] -> v = UNKNOWN_VOLTAGE \/ readsBack v = true;
  pr_open : typeBit p HIZ_BIT = true -> simVoltage p = UNKNOWN_VOLTAGE /\ family p <> "";
  pr_expected : forall e, e ∈ [expectedMin p; expectedSim p; expectedMax p] -> e = "" \/ plainWord e /\ keptExpected macros e;
  pr_family : if decide (family p = "") then relativeFriendly p = true else plainWord (family p) /\ keptFamily macros (family p)
}.

Lemma status_bits t : 0 <= t < 16 ->
  let bit b (x : Z) := if status_get t (powerBit b) then status_set x (powerBit b) true else x in
  bit RESISTOR_BIT (bit POWER_BIT (bit INPUT_BIT (bit HIZ_BIT 0))) = t /\
  (forall b, powerBit b > 3 -> status_get t (powerBit b) = false).
Proof.
  intros H. assert (t ∈ [0; 1; 2; 3; 4; 5; 6; 7; 8; 9; 10; 11; 12; 13; 14; 15]) as Ht.
  { rewrite !elem_of_cons. lia. }
  repeat (apply elem_of_cons in Ht as [-> | Ht]; [split; [reflexivity | by intros []] |]). by apply elem_of_nil in Ht.
Qed.

Section Standard.
Context (macros : text -> option CPower) (fuel : nat) (s : text) (Hs : size s < npos).

(** Reading [ws] takes a power that shows [x] to one that shows [y]. *)
Definition readsTo (ws : list text) (x y : shown) : Prop := forall st vs, view (parsed st) = x -> exists st' vs',
  wordsLoop macros (S fuel) s npos ws st vs = Ok (st', vs') /\ view (parsed st') = y /\ parsedFamily st' = parsedFamily st.

Lemma readsTo_app ws ws' x y z : readsTo ws x y -> readsTo ws' y z -> readsTo (ws ++ ws') x z.
Proof.
  intros H H' st vs V. destruct (H st vs V) as (st1 & vs1 & E1 & V1 & F1).
  destruct (H' st1 vs1 V1) as (st2 & vs2 & E2 & V2 & F2). exists st2, vs2. rewrite wordsLoop_app.
  unfold mbind, M_bind. rewrite E1. split_and!; [done | done | by rewrite F2].
Qed.

Lemma reads_To ws f x y : reads macros fuel s ws f -> f x = y -> readsTo ws x y.
Proof. intros H <- st vs <-. apply H. Qed.

Lemma readsTo_opt (b : bool) w f x y : (b = true -> reads macros fuel s [w] f /\ f x = y) -> (b = false -> x = y) ->
  readsTo (opt b w) x y.
Proof.
  intros H H'. destruct b; [destruct H as [H E]; [done | by eapply reads_To] |].
  rewrite H' by done. intros st vs V. by exists st, vs.
Qed.

(** The optional words, one by one; a word that is not printed has the default. *)
Definition levelOk (v : Z) : Prop := v = UNKNOWN_VOLTAGE \/ readsBack v = true.
Definition expectedOk (e : text) : Prop := e = "" \/ plainWord e /\ keptExpected macros e.

Lemma known_reads v : levelOk v -> IsKnownVoltage_ v = true -> readsBack v = true.
Proof. by intros [-> | H]. Qed.
Lemma unknown_voltage v : IsKnownVoltage_ v = false -> v = UNKNOWN_VOLTAGE.
Proof. unfold IsKnownVoltage_. rewrite negb_false_iff. apply Z.eqb_eq. Qed.

Lemma readsTo_min v x : levelOk v -> shMin x = UNKNOWN_VOLTAGE ->
  readsTo (opt (IsKnownVoltage_ v) (String.append "min" (String "@" (PrintParameter v)))) x (showLevels v (shSim x) (shMax x) x).
Proof.
  intros Hv Hx. eapply readsTo_opt; [intros E; split; [eapply reads_level; [by apply known_reads | by apply unbroken_check | by left] | done] |].
  intros ->%unknown_voltage. rewrite <- Hx. by destruct x.
Qed.
Lemma readsTo_sim v x : levelOk v -> shSim x = UNKNOWN_VOLTAGE ->
  readsTo (opt (IsKnownVoltage_ v) (String.append "sim" (String "@" (PrintParameter v)))) x (showLevels (shMin x) v (shMax x) x).
Proof.
  intros Hv Hx. eapply readsTo_opt;
    [intros E; split; [eapply reads_level; [by apply known_reads | by apply unbroken_check | by right; left] | done] |].
  intros ->%unknown_voltage. rewrite <- Hx. by destruct x.
Qed.
Lemma readsTo_max v x : levelOk v -> shMax x = UNKNOWN_VOLTAGE ->
  readsTo (opt (IsKnownVoltage_ v) (String.append "max" (String "@" (PrintParameter v)))) x (showLevels (shMin x) (shSim x) v x).
Proof.
  intros Hv Hx. eapply readsTo_opt;
    [intros E; split; [eapply reads_level; [by apply known_reads | by apply unbroken_check | by right; right] | done] |].
  intros ->%unknown_voltage. rewrite <- Hx. by destruct x.
Qed.

Lemma expected_kept e : expectedOk e -> negb (IsEmpty e) = true -> keptExpected macros e.
Proof. by intros [-> | [_ H]]. Qed.
Lemma unexpected e : negb (IsEmpty e) = false -> e = "".
Proof. rewrite negb_false_iff. apply bool_decide_eq_true. Qed.

Lemma readsTo_expectMin e x : expectedOk e -> shExpectedMin x = "" ->
  readsTo (opt (negb (IsEmpty e)) (String.append "expectMin@" e)) x (showExpected e (shExpectedSim x) (shExpectedMax x) x).
Proof.
  intros He Hx. eapply readsTo_opt;
    [intros E; split; [eapply (reads_expected _ _ _ "expectMin"); [by apply expected_kept | by apply unbroken_check | by left] | done] |].
  intros ->%unexpected. rewrite <- Hx. by destruct x.
Qed.
Lemma readsTo_expectSim e x : expectedOk e -> shExpectedSim x = "" ->
  readsTo (opt (negb (IsEmpty e)) (String.append "expectSim@" e)) x (showExpected (shExpectedMin x) e (shExpectedMax x) x).
Proof.
  intros He Hx. eapply readsTo_opt;
    [intros E; split; [eapply (reads_expected _ _ _ "expectSim"); [by apply expected_kept | by apply unbroken_check | by right; left] | done] |].
  intros ->%unexpected. rewrite <- Hx. by destruct x.
Qed.
Lemma readsTo_expectMax e x : expectedOk e -> shExpectedMax x = "" ->
  readsTo (opt (negb (IsEmpty e)) (String.append "expectMax@" e)) x (showExpected (shExpectedMin x) (shExpectedSim x) e x).
Proof.
  intros He Hx. eapply readsTo_opt;
    [intros E; split; [eapply (reads_expected _ _ _ "expectMax"); [by apply expected_kept | by apply unbroken_check | by right; right] | done] |].
  intros ->%unexpected. rewrite <- Hx. by destruct x.
Qed.

(** The flags. *)
Definition bitOf (p : CPower) (b : powerType_t) (x : shown) : shown := if typeBit p b then showBit b x else x.

Lemma readsTo_open p x : (typeBit p HIZ_BIT = true -> shSim x = UNKNOWN_VOLTAGE) ->
  readsTo (opt (typeBit p HIZ_BIT) "open") x (bitOf p HIZ_BIT x).
Proof.
  unfold bitOf. intros Hx. eapply readsTo_opt; [intros E; split; [apply reads_flag; by right; right |] | by intros ->].
  rewrite E. destruct x. cbn in *. by rewrite Hx.
Qed.
Lemma readsTo_input p x : readsTo (opt (typeBit p INPUT_BIT) "input") x (bitOf p INPUT_BIT x).
Proof.
  unfold bitOf. eapply readsTo_opt; [intros E; split; [apply reads_flag; by left | by rewrite E] | by intros ->].
Qed.
Lemma readsTo_power p x : readsTo (opt (typeBit p POWER_BIT) "power") x (bitOf p POWER_BIT x).
Proof. unfold bitOf. eapply readsTo_opt; [intros E; split; [by apply reads_power | by rewrite E] | by intros ->]. Qed.
Lemma readsTo_resistor p x : readsTo (opt (typeBit p RESISTOR_BIT) "resistor") x (bitOf p RESISTOR_BIT x).
Proof.
  unfold bitOf. eapply readsTo_opt; [intros E; split; [apply reads_flag; by right; left | by rewrite E] | by intros ->].
Qed.

(** The levels of the standard definition. *)
Lemma readsTo_levels p signal : printable macros p ->
  let U := UNKNOWN_VOLTAGE in
  let level name bit v := opt (IsKnownVoltage_ v) (String.append name (String.append (if typeBit p bit then "=" else "@") (PrintParameter v))) in
  readsTo
    (if IsKnownVoltage_ (simVoltage p) && (minVoltage p =? simVoltage p) && (simVoltage p =? maxVoltage p) && typeBit p POWER_BIT
     then [PrintParameter (minVoltage p)]
     else level "min" MIN_CALCULATED_BIT (minVoltage p) ++ level "sim" SIM_CALCULATED_BIT (simVoltage p) ++
          level "max" MAX_CALCULATED_BIT (maxVoltage p))
    (mkShown 0 U U U "" "" "" "" true signal)
    (mkShown 0 (minVoltage p) (simVoltage p) (maxVoltage p) "" "" "" "" true signal).
Proof.
  intros Hp U level. pose proof (pr_levels _ _ Hp) as Hl.
  destruct (status_bits (type p) (pr_type _ _ Hp)) as [_ Hbits].
  destruct (IsKnownVoltage_ (simVoltage p) && _ && _ && _) eqn:E.
  - rewrite !andb_true_iff, !Z.eqb_eq in E. destruct E as [[[Hk E1] E2] _].
    destruct (Hl (minVoltage p)) as [Hu | Hv]; [by left | |].
    { exfalso. unfold IsKnownVoltage_ in Hk. apply negb_true_iff, Z.eqb_neq in Hk. congruence. }
    eapply reads_To; [by apply reads_value |]. unfold showLevels. cbn. by rewrite <- E2, <- E1.
  - unfold level. change (typeBit p MIN_CALCULATED_BIT) with (status_get (type p) (powerBit MIN_CALCULATED_BIT)).
    change (typeBit p SIM_CALCULATED_BIT) with (status_get (type p) (powerBit SIM_CALCULATED_BIT)).
    change (typeBit p MAX_CALCULATED_BIT) with (status_get (type p) (powerBit MAX_CALCULATED_BIT)).
    rewrite !Hbits by done. cbn [String.append].
    eapply readsTo_app; [apply readsTo_min; [apply Hl; by left | done] |].
    eapply readsTo_app; [apply readsTo_sim; [apply Hl; by right; left | done] |].
    apply (readsTo_max (maxVoltage p) (mkShown 0 (minVoltage p) (simVoltage p) U "" "" "" "" true signal)); [| done].
    apply Hl. by right; right; left.
Qed.

Lemma shown_bits p a b c d e f g h i : 0 <= type p < 16 ->
  bitOf p RESISTOR_BIT (bitOf p POWER_BIT (bitOf p INPUT_BIT (bitOf p HIZ_BIT (mkShown 0 a b c d e f g h i)))) =
  mkShown (type p) a b c d e f g h i.
Proof.
  intros H. destruct (status_bits (type p) H) as [Ht _]. revert Ht. cbv zeta. unfold bitOf, typeBit.
  destruct (status_get (type p) (powerBit HIZ_BIT)), (status_get (type p) (powerBit INPUT_BIT)),
    (status_get (type p) (powerBit POWER_BIT)), (status_get (type p) (powerBit RESISTOR_BIT)); by intros <-.
Qed.

Lemma readsTo_standard p signal : printable macros p ->
  readsTo (standardWords p) (view (startPower signal 0))
    (mkShown (type p) (minVoltage p) (simVoltage p) (maxVoltage p) (expectedMin p) (expectedSim p) (expectedMax p)
       (family p) (relativeFriendly p) signal).
Proof.
  intros Hp. pose proof (pr_expected _ _ Hp) as He. pose proof (pr_family _ _ Hp) as Hf. unfold standardWords.
  eapply readsTo_app; [by apply readsTo_levels |].
  eapply readsTo_app; [apply readsTo_expectMin; [apply He; by left | done] |].
  eapply readsTo_app; [apply readsTo_expectSim; [apply He; by right; left | done] |].
  eapply readsTo_app; [apply readsTo_expectMax; [apply He; by right; right; left | done] |].
  eapply readsTo_app; [apply readsTo_open; intros E; by destruct (pr_open _ _ Hp E) |].
  eapply readsTo_app; [apply readsTo_input |]. eapply readsTo_app; [apply readsTo_power |].
  eapply readsTo_app; [apply readsTo_resistor |].
  unfold showExpected. cbn [shType shMin shSim shMax shExpectedMin shExpectedSim shExpectedMax shFamily shFriendly shSignal].
  rewrite shown_bits by apply (pr_type _ _ Hp).
  eapply readsTo_opt.
  - intros E. apply negb_true_iff, bool_decide_eq_false in E. rewrite decide_False in Hf by done.
    destruct Hf as [_ Hf]. split; [by apply reads_family | done].
  - intros E%unexpected. rewrite decide_True in Hf by done. by rewrite E, Hf.
Qed.
End Standard.

Lemma plainWord_append a b : plainWord a -> unbroken notPlain b -> plainWord (String.append a b).
Proof.
  intros [Ha Hu] Hb. split; [by destruct a |]. intros c Hc. rewrite chars_append in Hc.
  apply elem_of_app in Hc as [Hc | Hc]; auto.
Qed.
Lemma plain_opt (b : bool) w : (b = true -> plainWord w) -> Forall plainWord (opt b w).
Proof. intros H. destruct b; cbn [opt]; auto using Forall. Qed.

Lemma standardWords_plain macros p : printable macros p -> Forall plainWord (standardWords p).
Proof.
  intros Hp. destruct (status_bits (type p) (pr_type _ _ Hp)) as [_ Hbits].
  assert (forall a b, isPlain a = true -> unbroken notPlain b -> plainWord (String.append a b)) as Happ.
  { intros a b Ha. apply plainWord_append. by apply isPlain_spec. }
  assert (forall v, v ∈ [minVoltage p; simVoltage p; maxVoltage p] -> IsKnownVoltage_ v = true -> plainWord (PrintParameter v)) as Hl.
  { intros v Hv Hk. apply readsBack_word. apply known_reads; [by apply (pr_levels _ _ Hp) | done]. }
  assert (forall name e, isPlain name = true -> e ∈ [expectedMin p; expectedSim p; expectedMax p] ->
            Forall plainWord (opt (negb (IsEmpty e)) (String.append name e))) as He.
  { intros name e Hn Hin. apply plain_opt. intros Hne. apply Happ; [done |].
    destruct (pr_expected _ _ Hp e Hin) as [-> | [[_ ?] _]]; done. }
  assert (forall name bit v, isPlain name = true -> powerBit bit > 3 -> v ∈ [minVoltage p; simVoltage p; maxVoltage p] ->
    Forall plainWord (opt (IsKnownVoltage_ v) (String.append name (String.append (if typeBit p bit then "=" else "@") (PrintParameter v))))) as Hlev.
  { intros name bit v Hn Hbit Hin. apply plain_opt. intros Hk. unfold typeBit. rewrite Hbits by done.
    apply Happ; [done |]. by apply (plainWord_append "@"); [apply isPlain_spec | apply Hl]. }
  unfold standardWords. rewrite !Forall_app. split_and!; try (by apply plain_opt; intros _; apply isPlain_spec).
  - destruct (IsKnownVoltage_ _ && _ && _ && _) eqn:E.
    + constructor; [| done]. rewrite !andb_true_iff, !Z.eqb_eq in E. destruct E as [[[Hk E1] _] _].
      apply Hl; [by left | by rewrite E1].
    + rewrite !Forall_app. split_and!; apply Hlev; try done; [by left | by right; left | by right; right; left].
  - apply He; [done | by left].
  - apply He; [done | by right; left].
  - apply He; [done | by right; right; left].
  - apply plain_opt. intros Hne. apply negb_true_iff, bool_decide_eq_false in Hne.
    pose proof (pr_family _ _ Hp) as Hf. rewrite decide_False in Hf by done. destruct Hf as [[_ Hf] _].
    destruct (relativeFriendly p); by apply Happ.
Qed.


(** The power of a text, without macros and models. *)
Definition powerOf (s : text) : outcome CPower :=
  match CPower_text (fun _ => None) 1 s 0 (mkVoltageState "" []) with Ok (p, _) => Ok p | Err e => Err e end.

(** An open input with limits and a permitted family. *)
Definition examplePower : CPower :=
  mkPower 0 UNKNOWN_VOLTAGE 1200 0 UNKNOWN_NET UNKNOWN_NET UNKNOWN_NET UNKNOWN_NET
    " min@0.0 max@1.2 open input expectSim@open permit@VSS"
    (Some (mkExtraPowerData "open" "" "" "VSS" "" ∅ "A1" "" UNKNOWN_VOLTAGE UNKNOWN_VOLTAGE)) 6 0
    NO_CALCULATION UNKNOWN_CALCULATION NO_CALCULATION true false.

Example examplePower_text : powerOf " A1 min@0.0 max@1.2 open input expectSim@open permit@VSS " = Ok examplePower.
Proof. vm_compute. reflexivity. Qed.
Example examplePower_standard : StandardDefinition examplePower = " min@0.0 max@1.2 expectSim@open open input permit@VSS".
Proof. vm_compute. reflexivity. Qed.


(** What the standard definition loses: "analog" is not printed, and "open" after a
    simulation level discards the level. *)
Example analog_lost :
  (p ← powerOf "A1 sim@1.0 analog"; q ← powerOf (String.append "A1" (StandardDefinition p)); Ok (IsSamePower p q)) = Ok false.
Proof. vm_compute. reflexivity. Qed.
Example open_level_lost :
  (p ← powerOf "A1 open sim@1.0"; q ← powerOf (String.append "A1" (StandardDefinition p)); Ok (simVoltage p, simVoltage q))
  = Ok (1000, UNKNOWN_VOLTAGE).
Proof. vm_compute. reflexivity. Qed.

(** A macro with an unknown level makes an expected value of 32.767 V. *)
Example expected_unknown :
  (p ← powerOf "A min@0.0"; 
   match CPower_text (fun n => if bool_decide (n = "A") then Some p else None) 1 "B expectMax@A+0.1" 0 (mkVoltageState "" []) with
   | Ok (q, _) => Ok (expectedMax q) | Err e => Err e end) = Ok "32.767".
Proof. vm_compute. reflexivity. Qed.

End PowerText.
