(* ===== verification/PowerFile.v ===== *)
(** * Reading model and power files (CCvcParameters.cc)

    [LoadModels] and [LoadPower] read their files line by line.  A power line is
    a definition, a macro ("#define"), a family or the name of an instance with a
    power file of its own; every definition of a net also becomes a macro, so that
    later lines may refer to it.  Files are a function from names to lines.

    C++11 leaves open which side of [macros[name] = new CPower(...)] is evaluated
    first; it is modelled with the right side first, which C++17 requires. *)

From S2P Require Import Prelude CvcTypes Power Text Model PowerText.
From stdpp Require Import base list strings gmap sets.
From Stdlib Require Import ZArith Lia Ascii.
#[local] Open Scope string_scope.
#[local] Open Scope list_scope.
#[local] Open Scope Z_scope.

Module PowerFile.
Import Power.Power Text.Text PowerText.PowerText.
Import Model.Model (voltageState, mkVoltageState, voltageModels, CalculateVoltage, CModelList, AddModel).

Inductive returnCode_t : Set := OK | SKIP | FAIL.

(** [new CInstancePower(...)]. *)
Record CInstancePower : Type := mkInstancePower { instanceName : text; powerFile : text; powerList : list text }.

Definition newInstancePower (theDefinition : text) : outcome CInstancePower :=
  s ← trim_ theDefinition;
  let myStringEnd := find_first_of s blanksOfLine 0 in
  let myStringBegin := find_first_not_of s blanksOfLine myStringEnd in
  let myStringEnd := find_first_of s blanksOfLine myStringBegin in
  name ← substr s myStringBegin (u64 (myStringEnd - myStringBegin));
  let myStringBegin := find_first_not_of s blanksOfLine myStringEnd in
  let myStringEnd := find_first_of s blanksOfLine myStringBegin in
  file ← substr s myStringBegin (u64 (myStringEnd - myStringBegin));
  Ok (mkInstancePower name file []).

(** The tables of [CCvcParameters] the power file fills, [CPower::powerCount], the
    models with the macros' [implicitFamily], and the two flags of the loop. *)
Record powerTables : Type := mkTables {
  cvcPowerPtrList : list CPower;
  cvcExpectedLevels : list CPower;
  cvcPowerFamilyMap : CPowerFamilyMap;
  cvcPowerMacroPtrMap : gmap text CPower;
  cvcInstancePowerPtrList : list CInstancePower;
  tablesCount : Z;
  tablesVoltages : voltageState;
  myPowerErrorFlag : bool;
  myAutoMacroFlag : bool
}.

Definition set_lists (ps es : list CPower) (t : powerTables) : powerTables :=
  mkTables ps es (cvcPowerFamilyMap t) (cvcPowerMacroPtrMap t) (cvcInstancePowerPtrList t) (tablesCount t)
    (tablesVoltages t) (myPowerErrorFlag t) (myAutoMacroFlag t).
Definition set_familyMap (m : CPowerFamilyMap) (t : powerTables) : powerTables :=
  mkTables (cvcPowerPtrList t) (cvcExpectedLevels t) m (cvcPowerMacroPtrMap t) (cvcInstancePowerPtrList t) (tablesCount t)
    (tablesVoltages t) (myPowerErrorFlag t) (myAutoMacroFlag t).
Definition set_macros (m : gmap text CPower) (t : powerTables) : powerTables :=
  mkTables (cvcPowerPtrList t) (cvcExpectedLevels t) (cvcPowerFamilyMap t) m (cvcInstancePowerPtrList t) (tablesCount t)
    (tablesVoltages t) (myPowerErrorFlag t) (myAutoMacroFlag t).
Definition set_instances (l : list CInstancePower) (t : powerTables) : powerTables :=
  mkTables (cvcPowerPtrList t) (cvcExpectedLevels t) (cvcPowerFamilyMap t) (cvcPowerMacroPtrMap t) l (tablesCount t)
    (tablesVoltages t) (myPowerErrorFlag t) (myAutoMacroFlag t).
Definition set_voltages (n : Z) (v : voltageState) (t : powerTables) : powerTables :=
  mkTables (cvcPowerPtrList t) (cvcExpectedLevels t) (cvcPowerFamilyMap t) (cvcPowerMacroPtrMap t) (cvcInstancePowerPtrList t) n v
    (myPowerErrorFlag t) (myAutoMacroFlag t).
Definition set_flags (e a : bool) (t : powerTables) : powerTables :=
  mkTables (cvcPowerPtrList t) (cvcExpectedLevels t) (cvcPowerFamilyMap t) (cvcPowerMacroPtrMap t) (cvcInstancePowerPtrList t)
    (tablesCount t) (tablesVoltages t) e a.

(** An [EPowerError] is reported and sets the error flag. *)
Definition powerError (t : powerTables) : powerTables := set_flags true (myAutoMacroFlag t) t.

Section Files.
Context (fuel : nat).

(** [new CPower(theText, cvcPowerMacroPtrMap, cvcModelListMap)], [None] for an
    [EPowerError]: the count has then been taken; a threshold that was calculated on
    the way is calculated again when it is next asked for. *)
Definition newPower (theText : text) (t : powerTables) : outcome (option CPower * powerTables) :=
  let count := u32 (tablesCount t + 1) in
  match CPower_text (fun k => cvcPowerMacroPtrMap t !! k) fuel theText (tablesCount t) (tablesVoltages t) with
  | Ok (p, v) => Ok (Some p, set_voltages count v t)
  | Err EPowerError => Ok (None, powerError (set_voltages count (tablesVoltages t) t))
  | Err e => Err e
  end.

(** No special characters in macro names. *)
Definition isMacroName (name : text) : bool :=
  (size name <? find_first_of name "(<[}/*@+-" 0) && isalpha (firstChar name).

Definition defineMacro (myMacroName myMacroDefinition : text) (t : powerTables) : outcome powerTables :=
  if isMacroName myMacroName then
    match cvcPowerMacroPtrMap t !! myMacroName with
    | Some _ => Ok (if myAutoMacroFlag t then powerError t else t)
    | None =>
        '(p, t) ← newPower myMacroDefinition t;
        Ok (match p with Some p => set_macros (<[myMacroName := p]> (cvcPowerMacroPtrMap t)) t | None => t end)
    end
  else Ok t.

Definition expects (p : CPower) : bool := negb (IsEmpty (expectedMin p) && IsEmpty (expectedSim p) && IsEmpty (expectedMax p)).
Definition defines (p : CPower) : bool :=
  negb (type p =? NO_TYPE) || IsKnownVoltage_ (minVoltage p) || IsKnownVoltage_ (simVoltage p) || IsKnownVoltage_ (maxVoltage p).

Definition firstWord (s : text) : outcome text := substr s 0 (find_first_of s blanksOfLine 0).

(** [myInput.substr(1)] for a name of the top level. *)
Definition topName (signal : text) : text := match signal with String "/" name => name | name => name end.

(** The line defines a net. *)
Definition netLine (myInput : text) (t : powerTables) : outcome powerTables :=
  '(p, t) ← newPower myInput t;
  match p with
  | None => Ok t
  | Some p =>
      let t := set_lists (if defines p then cvcPowerPtrList t ++ [p] else cvcPowerPtrList t)
                 (if expects p then cvcExpectedLevels t ++ [p] else cvcExpectedLevels t) t in
      defineMacro (topName (powerSignal p)) myInput t
  end.

(** The line starts with "#define". *)
Definition macroLine (myInput : text) (t : powerTables) : outcome powerTables :=
  myMacroDefinition ← substr myInput (find_first_not_of myInput blanks 7) npos;
  w ← firstWord myMacroDefinition;
  if bool_decide (w = "family") then
    m ← AddFamily myMacroDefinition (cvcPowerFamilyMap t); Ok (set_familyMap m t)
  else defineMacro w myMacroDefinition t.

(** The body of the loop of [LoadPower]. *)
Definition powerLine (myInput : text) (t : powerTables) : outcome powerTables :=
  w ← firstWord myInput;
  let myIsMacro := bool_decide (w = "#define") in
  let myIsInstance := bool_decide (w = "#instance") in
  let t := if bool_decide (myInput = "#NO AUTO MACROS") then set_flags (myPowerErrorFlag t) false t else t in
  if Ascii.eqb (firstChar myInput) "#" && negb (myIsMacro || myIsInstance) then Ok t
  else if size myInput <? find_first_not_of myInput blanks 0 then Ok t
  else
    s ← trim_ myInput;
    if myIsMacro then macroLine s t
    else if myIsInstance then
      i ← newInstancePower s; Ok (set_instances (cvcInstancePowerPtrList t ++ [i]) t)
    else netLine s t.

Fixpoint powerLines (lines : list text) (t : powerTables) : outcome powerTables :=
  match lines with
  | [] => Ok t
  | l :: lines => t ← powerLine l t; powerLines lines t
  end.

(** The power file of an instance: comments and blank lines are skipped. *)
Fixpoint instanceLines (lines : list text) (i : CInstancePower) : outcome CInstancePower :=
  match lines with
  | [] => Ok i
  | l :: lines =>
      if Ascii.eqb (firstChar l) "#" || (size l <? find_first_not_of l blanks 0) then instanceLines lines i
      else s ← trim_ l; instanceLines lines (mkInstancePower (instanceName i) (powerFile i) (powerList i ++ [s]))
  end.

(** [None] when a file is missing; the instances before it have been read. *)
Fixpoint readInstances (files : text -> option (list text)) (l : list CInstancePower)
    : outcome (bool * list CInstancePower) :=
  match l with
  | [] => Ok (true, [])
  | i :: l =>
      match files (powerFile i) with
      | None => Ok (false, i :: l)
      | Some lines => i ← instanceLines lines i; '(ok, l) ← readInstances files l; Ok (ok, i :: l)
      end
  end.

(** What [LoadPower] clears: the list of instances is not cleared. *)
Definition clearTables (t : powerTables) : powerTables :=
  mkTables [] [] ∅ ∅ (cvcInstancePowerPtrList t) (tablesCount t) (tablesVoltages t) false true.

Definition LoadPower (gSetup_cvc : bool) (files : text -> option (list text)) (cvcPowerFilename : text) (t : powerTables)
    : outcome (returnCode_t * powerTables) :=
  let t := clearTables t in
  match files cvcPowerFilename with
  | None => Ok (if gSetup_cvc then OK else FAIL, t)
  | Some lines =>
      t ← powerLines lines t;
      '(ok, l) ← readInstances files (cvcInstancePowerPtrList t);
      let t := set_instances l t in
      Ok (if negb ok then FAIL else if myPowerErrorFlag t then SKIP else OK, t)
  end.

(** [LoadModels]: the models, and their state. *)
Fixpoint modelLines (validRegex : text -> bool) (lines : list text) (m : list (text * CModelList)) (hasError : bool)
    : outcome (list (text * CModelList) * bool) :=
  match lines with
  | [] => Ok (m, hasError)
  | l :: lines =>
      if Ascii.eqb (firstChar l) "#" || (size l <? find_first_not_of l blanks 0) then modelLines validRegex lines m hasError
      else '(m, hasError) ← AddModel validRegex m hasError l; modelLines validRegex lines m hasError
  end.

Definition LoadModels (validRegex : text -> bool) (gSetup_cvc : bool) (files : text -> option (list text)) (cvcModelFilename : text)
    : outcome (returnCode_t * list (text * CModelList)) :=
  match files cvcModelFilename with
  | None => Ok (if gSetup_cvc then OK else FAIL, [])
  | Some lines => '(m, hasError) ← modelLines validRegex lines [] false; Ok (if (hasError : bool) then SKIP else OK, m)
  end.

(** [CPower::RelativeVoltage]: the level of the first of the relatives; [first] is
    the first element in the order of the unordered set.  Every exception is caught;
    what the calculation did to the models is then done again by the next one. *)
Definition RelativeVoltage (first : CSet -> option text) (macros : text -> option CPower) (theType : netStatus_t) (p : CPower)
    (v : voltageState) : outcome (Z * voltageState) :=
  if IsEmpty (family p) then Ok (UNKNOWN_VOLTAGE, v)
  else
    match first (relatives p) with
    | None => throw UndefinedBehaviour
    | Some name =>
        match CalculateVoltage macros fuel name theType false true v with
        | Ok r => Ok r
        | Err UndefinedBehaviour => throw UndefinedBehaviour
        | Err OutOfFuel => throw OutOfFuel
        | Err _ => Ok (UNKNOWN_VOLTAGE, v)
        end
    end.

(** [SetHiZPropagation], for one power and for the list. *)
Definition hiZPropagation (first : CSet -> option text) (macros : text -> option CPower) (p : CPower) (v : voltageState)
    : outcome (CPower * voltageState) :=
  if typeBit p HIZ_BIT && negb (IsEmpty (family p)) then
    '(min, v) ← RelativeVoltage first macros MIN_POWER p v;
    let p := if min =? minVoltage p then set_activeBit MIN_IGNORE true p else p in
    '(max, v) ← RelativeVoltage first macros MAX_POWER p v;
    Ok (if max =? maxVoltage p then set_activeBit MAX_IGNORE true p else p, v)
  else Ok (p, v).

Fixpoint SetHiZPropagation (first : CSet -> option text) (macros : text -> option CPower) (l : list CPower) (v : voltageState)
    : outcome (list CPower * voltageState) :=
  match l with
  | [] => Ok ([], v)
  | p :: l =>
      '(p, v) ← hiZPropagation first macros p v;
      '(l, v) ← SetHiZPropagation first macros l v; Ok (p :: l, v)
  end.

(** ** What a power file leaves *)

(** The lists hold what belongs there, macros have plain names, and as long as there was no
    error every power of the list can be referred to by its name. *)
Record loaded (t : powerTables) : Prop := mkLoaded {
  ld_powers : forall p, p ∈ cvcPowerPtrList t -> defines p = true;
  ld_expected : forall p, p ∈ cvcExpectedLevels t -> expects p = true;
  ld_names : forall k p, cvcPowerMacroPtrMap t !! k = Some p -> isMacroName k = true;
  ld_macros : myPowerErrorFlag t = false -> forall p, p ∈ cvcPowerPtrList t ->
    isMacroName (topName (powerSignal p)) = true -> is_Some (cvcPowerMacroPtrMap t !! topName (powerSignal p))
}.

(** [t'] has what the lists of [t] have, more macros, and an error if [t] has one. *)
Record grown (t t' : powerTables) : Prop := mkGrown {
  gr_powers : cvcPowerPtrList t' = cvcPowerPtrList t;
  gr_expected : cvcExpectedLevels t' = cvcExpectedLevels t;
  gr_macros : forall k, is_Some (cvcPowerMacroPtrMap t !! k) -> is_Some (cvcPowerMacroPtrMap t' !! k);
  gr_names : forall k p, cvcPowerMacroPtrMap t' !! k = Some p -> is_Some (cvcPowerMacroPtrMap t !! k) \/ isMacroName k = true;
  gr_error : myPowerErrorFlag t = true -> myPowerErrorFlag t' = true
}.

Lemma grown_refl t t' : cvcPowerPtrList t' = cvcPowerPtrList t -> cvcExpectedLevels t' = cvcExpectedLevels t ->
  cvcPowerMacroPtrMap t' = cvcPowerMacroPtrMap t -> (myPowerErrorFlag t = true -> myPowerErrorFlag t' = true) -> grown t t'.
Proof. intros H1 H2 H3 H4. constructor; rewrite ?H3; eauto. Qed.

Lemma loaded_grown t t' : loaded t -> grown t t' -> loaded t'.
Proof.
  intros [L1 L2 L3 L4] [G1 G2 G3 G4 G5]. constructor; rewrite ?G1, ?G2; auto.
  - intros k p H. destruct (G4 k p H) as [[q Hq] | ?]; eauto.
  - intros He p Hp Hn. apply G3, L4; auto. destruct (myPowerErrorFlag t); [by rewrite G5 in He | done].
Qed.

Lemma newPower_tables s t p t' : newPower s t = Ok (p, t') ->
  cvcPowerPtrList t' = cvcPowerPtrList t /\ cvcExpectedLevels t' = cvcExpectedLevels t /\
  cvcPowerMacroPtrMap t' = cvcPowerMacroPtrMap t /\
  myPowerErrorFlag t' = match p with Some _ => myPowerErrorFlag t | None => true end.
Proof.
  unfold newPower. destruct (CPower_text _ _ _ _ _) as [[q v] | e]; [by intros [= <- <-] |].
  destruct e; try done. by intros [= <- <-].
Qed.

(** Defining a macro: afterwards the name is there, unless there was an error. *)
Lemma defineMacro_grown name d t t' : defineMacro name d t = Ok t' ->
  grown t t' /\ (isMacroName name = true -> myPowerErrorFlag t' = false -> is_Some (cvcPowerMacroPtrMap t' !! name)).
Proof.
  unfold defineMacro. destruct (isMacroName name) eqn:En.
  - destruct (cvcPowerMacroPtrMap t !! name) as [q |] eqn:El.
    + intros [= <-]. split; [by apply grown_refl; destruct (myAutoMacroFlag t) |].
      destruct (myAutoMacroFlag t); [done |]. rewrite El. eauto.
    + intros H. inv_ok H. destruct a as [[q |] t1]; injection H as <-;
        destruct (newPower_tables _ _ _ _ Ha) as (H1 & H2 & H3 & H4).
      * split; [constructor; cbn; rewrite ?H1, ?H2, ?H3, ?H4; auto |].
        { intros k [x Hx]. destruct (decide (k = name)) as [-> | ?]; [rewrite lookup_insert_eq; eauto |].
          rewrite lookup_insert_ne by done. eauto. }
        { intros k x Hx. destruct (decide (k = name)) as [-> | ?]; [by right |].
          rewrite lookup_insert_ne in Hx by done. eauto. }
        { intros _ _. cbn. rewrite lookup_insert_eq. eauto. }
      * split; [by apply grown_refl | congruence].
  - intros [= <-]. split; [by apply grown_refl | done].
Qed.

Lemma netLine_loaded s t t' : loaded t -> netLine s t = Ok t' -> loaded t'.
Proof.
  intros L H. unfold netLine in H. inv_ok H. destruct a as [[p |] t1];
    destruct (newPower_tables _ _ _ _ Ha) as (H1 & H2 & H3 & H4).
  - apply defineMacro_grown in H as [G Hn]. destruct G as [G1 G2 G3 G4 G5]. destruct L as [L1 L2 L3 L4].
    cbn in G1, G2, G3, G4, G5. rewrite H1, H2, H3, H4 in *.
    assert (forall q, q ∈ cvcPowerPtrList t' -> q ∈ cvcPowerPtrList t \/ q = p /\ defines p = true) as Hp.
    { rewrite G1. destruct (defines p); [| auto]. intros q [? | ->%list_elem_of_singleton]%elem_of_app; auto. }
    constructor.
    + intros q [? | [-> ?]]%Hp; auto.
    + rewrite G2. destruct (expects p) eqn:Ee; [| auto]. intros q [? | ->%list_elem_of_singleton]%elem_of_app; auto.
    + intros k q Hk. destruct (G4 k q Hk) as [[x Hx] | ?]; eauto.
    + intros He q Hq Hm. destruct (Hp q Hq) as [Hq' | [-> _]]; [| by apply Hn].
      apply G3, L4; auto. destruct (myPowerErrorFlag t); [by rewrite G5 in He | done].
  - injection H as <-. eapply loaded_grown; [done |]. apply grown_refl; auto.
Qed.

Lemma powerLine_loaded s t t' : loaded t -> powerLine s t = Ok t' -> loaded t'.
Proof.
  intros L H. unfold powerLine in H. inv_ok H. clear Ha.
  set (t1 := if bool_decide (s = "#NO AUTO MACROS") then set_flags (myPowerErrorFlag t) false t else t) in H.
  assert (loaded t1) as L1 
    by (apply (loaded_grown t); [done |]; apply grown_refl; unfold t1; by destruct (bool_decide _)).
  clearbody t1. destruct (_ && negb _); [by injection H as <- |]. destruct (size s <? _); [by injection H as <- |].
  inv_ok H. case_bool_decide.
  - unfold macroLine in H. inv_ok H. inv_ok H. case_bool_decide.
    + inv_ok H. injection H as <-. eapply loaded_grown; [done |]. by apply grown_refl.
    + apply defineMacro_grown in H as [G _]. by eapply loaded_grown.
  - case_bool_decide; [| by eapply netLine_loaded].
    inv_ok H. injection H as <-. eapply loaded_grown; [done |]. by apply grown_refl.
Qed.

Lemma powerLines_loaded l : forall t t', loaded t -> powerLines l t = Ok t' -> loaded t'.
Proof.
  induction l as [| s l IH]; intros t t' L H; [by injection H as <- |]. cbn in H. inv_ok H.
  eapply IH, H. by eapply powerLine_loaded.
Qed.

(** C24: Whatever the file holds and whatever was loaded before: after [LoadPower]
    the power list holds only powers that define something and the list of expected
    levels only powers that expect something, macros have names without special
    characters, and when the result is [OK] every power whose name may be a macro can
    be referred to by that name in the definitions that follow. *)
Theorem LoadPower_loaded gSetup files name t rc t' : LoadPower gSetup files name t = Ok (rc, t') ->
  loaded t' /\
  (rc = OK -> forall p, p ∈ cvcPowerPtrList t' -> isMacroName (topName (powerSignal p)) = true ->
     is_Some (cvcPowerMacroPtrMap t' !! topName (powerSignal p))).
Proof.
  unfold LoadPower. assert (loaded (clearTables t)) as L0.
  { constructor; cbn; try (intros ? ?%elem_of_nil; done); [| intros _ ? ?%elem_of_nil; done].
    intros k p. by rewrite lookup_empty. }
  intros H. destruct (files name) as [lines |].
  - inv_ok H. apply powerLines_loaded in Ha; [| done]. inv_ok H. destruct a0 as [ok l]. injection H as <- <-.
    assert (loaded (set_instances l a)) as L by (eapply loaded_grown; [done |]; by apply grown_refl).
    split; [done |]. intros Hrc. apply (ld_macros _ L).
    revert Hrc. destruct ok; [| done]. cbn. by destruct (myPowerErrorFlag a).
  - injection H as <- <-. split; [done |]. intros _. by apply (ld_macros _ L0).
Qed.
End Files.

(** A power file with a macro, a reference to it, a family and an instance. *)
Definition exampleFiles (name : text) : option (list text) :=
  if bool_decide (name = "power") then
    Some ["# supplies"; "#define low 0.0"; "VSS low power"; "/VDD 1.2 power"; "A1 min@VSS max@VDD+0.1 expectSim@VDD input";
          "#define family supply VDD,VSS"; "#instance X1 cell"]
  else if bool_decide (name = "cell") then Some ["#comment"; " IN input "] else None.
Definition noTables : powerTables := mkTables [] [] ∅ ∅ [] 0 (mkVoltageState "" []) false true.
Definition loadExample (t : powerTables) : outcome (returnCode_t * powerTables) := LoadPower 3 false exampleFiles "power" t.

Definition tablesOf (t : powerTables) : list (text * Z * Z) * list text * list (text * list text) :=
  (map (fun p => (powerSignal p, minVoltage p, maxVoltage p)) (cvcPowerPtrList t), map powerSignal (cvcExpectedLevels t),
   map (fun i => (instanceName i, powerList i)) (cvcInstancePowerPtrList t)).

Example loadExample_tables :
  ('(rc, t) ← loadExample noTables; Ok (rc, tablesOf t)) =
  Ok (OK, ([("VSS", 0, 0); ("/VDD", 1200, 1200); ("A1", 0, 1300)], ["A1"], [("X1", ["IN input"])])).
Proof. vm_compute. reflexivity. Qed.

(** The list of instances is never cleared: loading the file of the next mode reads the
    instances of the one before again, twice as many lines. *)
Example instances_accumulate :
  ('(_, t) ← loadExample noTables; '(rc, t) ← loadExample t;
   Ok (rc, map (fun i => (instanceName i, powerList i)) (cvcInstancePowerPtrList t))) =
  Ok (OK, [("X1", ["IN input"; "IN input"]); ("X1", ["IN input"])]).
Proof. vm_compute. reflexivity. Qed.

Lemma LoadPower_loaded_witness :
  exists rc t, loadExample noTables = Ok (rc, t) /\ loaded t /\ map powerSignal (cvcPowerPtrList t) = ["VSS"; "/VDD"; "A1"] /\
    (forall p, p ∈ cvcPowerPtrList t -> isMacroName (topName (powerSignal p)) = true ->
       is_Some (cvcPowerMacroPtrMap t !! topName (powerSignal p))).
Proof.
  destruct (loadExample noTables) as [[rc t] | e] eqn:E; [| vm_compute in E; discriminate E].
  destruct (LoadPower_loaded 3 false exampleFiles "power" noTables rc t E) as [L H].
  pose proof loadExample_tables as Et. rewrite E in Et. cbn [mbind outcome_bind] in Et. injection Et as Erc Ep _ _.
  exists rc, t. split_and!; [done | done | | auto].
  transitivity (map (fun x => x.1.1) (map (fun p => (powerSignal p, minVoltage p, maxVoltage p)) (cvcPowerPtrList t)));
    [by rewrite map_map | by rewrite Ep].
Defined.

End PowerFile.
