(* ===== verification/Names.v ===== *)
(** * Names in the hierarchy (CCvcDb_print.cc, CCvcDb_interactive.cc, CCvcDb_utility.cc)

    A net or device of the flattened netlist is printed as the path of its
    instance and its name in the circuit, "/X1/X2/net"; the ports of the top
    circuit have no path.  [FindNet] and [FindDevice] read such names.

    [cvcHierarchyDelimiters] is "/", which only an interactive command changes. *)

From S2P Require Import Prelude CvcTypes Power Text Model Db PowerText.
From stdpp Require Import base list strings gmap pretty.
From Stdlib Require Import ZArith Lia Ascii.
#[local] Open Scope string_scope.
#[local] Open Scope list_scope.
#[local] Open Scope Z_scope.

Module Names.
Import Power.Power Text.Text Db.Db.
Import PowerText.PowerText (lastOf, findChar).

Abbreviation text := String.string.

(** [internalSignal_v]: the names of a circuit after its ports; for the top circuit
    [AssignTopGlobalIDs] stores all names. *)
Definition internalSignal_v (isTop : bool) (c : CCircuit) : list text :=
  if isTop then signalName_v c else drop (Z.to_nat (portCount c)) (signalName_v c).

(** [GetLocalSubcircuitId], [GetLocalDeviceId] and [localSignalIdMap]: the number of
    a name.  Reading rejects repeated names, so that the last is the only one. *)
Fixpoint lastNumber (name : text) (k : Z) (found : option Z) (l : list text) : option Z :=
  match l with
  | [] => found
  | n :: l => lastNumber name (k + 1) (if bool_decide (n = name) then Some k else found) l
  end.
Definition GetLocalSubcircuitId (c : CCircuit) (name : text) : option Z :=
  lastNumber name 0 None (map subcircuitName (subcircuitPtr_v c)).
Definition GetLocalDeviceId (c : CCircuit) (name : text) : option Z :=
  lastNumber name 0 None (map deviceName (devicePtr_v c)).
Definition localSignalId (c : CCircuit) (name : text) : option Z := lastNumber name 0 None (signalName_v c).

Definition pathAppend (a b : text) : text := String.append a (String "/" b).

Section Hierarchy.
Context (nl : CNetlist) (cs : list CCircuit).

Definition instanceOf (i : Z) : outcome CInstance := vget (instancePtr_v nl) i.
Definition masterOf (x : CInstance) : outcome CCircuit := vget cs (master_p x).

(** ** Printing *)

Fixpoint hierarchyName (fuel : nat) (thePrintCircuitFlag thePrintHierarchyFlag : bool) (theInstanceId : Z) : outcome text :=
  match fuel with
  | O => throw OutOfFuel
  | S fuel =>
      if theInstanceId =? 0 then Ok ""
      else
        x ← instanceOf theInstanceId;
        y ← instanceOf (parentId x);
        c ← masterOf y;
        s ← vget (subcircuitPtr_v c) (u32 (theInstanceId - firstSubcircuitId y));
        let myCircuitName := if thePrintCircuitFlag then String.append "(" (String.append (masterName s) ")") else "" in
        if thePrintCircuitFlag && negb thePrintHierarchyFlag then Ok myCircuitName
        else
          path ← hierarchyName fuel thePrintCircuitFlag thePrintHierarchyFlag (parentId x);
          Ok (pathAppend path (String.append (subcircuitName s) myCircuitName))
  end.

(** A parent has a smaller number than its instances. *)
Definition pathFuel : nat := S (length (instancePtr_v nl)).
Definition HierarchyName (thePrintCircuitFlag thePrintHierarchyFlag : bool) (theInstanceId : Z) : outcome text :=
  hierarchyName pathFuel thePrintCircuitFlag thePrintHierarchyFlag theInstanceId.

(** [NetAlias]: the alias of the power at the net. *)
Definition NetAlias (h : powerHeap) (v : CPowerPtrVector) (theNetId : Z) (thePrintCircuitFlag : bool) : outcome text :=
  a ← vget v theNetId;
  p ← pointee h a;
  Ok (match p with
      | Some p =>
          if thePrintCircuitFlag && negb (IsEmpty (powerAlias p)) && negb (bool_decide (powerAlias p = powerSignal p))
          then String.append "~>" (powerAlias p) else ""
      | None => ""
      end).

Definition NetName (h : powerHeap) (v : CPowerPtrVector) (thePrintCircuitFlag thePrintHierarchyFlag : bool) (theNetId : Z)
    : outcome text :=
  if theNetId =? UNKNOWN_NET then Ok "unknown"
  else
    myParentId ← vget (netParent_v nl) theNetId;
    x ← instanceOf myParentId;
    c ← masterOf x;
    alias ← NetAlias h v theNetId thePrintCircuitFlag;
    if (myParentId =? 0) && (theNetId <? portCount c) then
      name ← vget (internalSignal_v true c) theNetId; Ok (String.append name alias)
    else
      path ← HierarchyName thePrintCircuitFlag thePrintHierarchyFlag myParentId;
      name ← vget (internalSignal_v (myParentId =? 0) c) (u32 (theNetId - firstNetId x));
      Ok (String.append (pathAppend path name) alias).

(** [NetName] of a power. *)
Definition PowerNetName (h : powerHeap) (v : CPowerPtrVector) (thePrintCircuitFlag thePrintHierarchyFlag : bool) (p : CPower)
    : outcome text :=
  if netId p =? UNKNOWN_NET then Ok "unknown" else NetName h v thePrintCircuitFlag thePrintHierarchyFlag (netId p).

Definition DeviceName (thePrintCircuitFlag thePrintHierarchyFlag : bool) (theDeviceId : Z) : outcome text :=
  myParentId ← vget (deviceParent_v nl) theDeviceId;
  x ← instanceOf myParentId;
  c ← masterOf x;
  d ← vget (devicePtr_v c) (u32 (theDeviceId - firstDeviceId x));
  path ← HierarchyName thePrintCircuitFlag thePrintHierarchyFlag myParentId;
  Ok (pathAppend path (deviceName d)).

(** ** Reading *)

(** [erase] from the first "(", which throws when there is none. *)
Definition withoutCircuit (name : text) : text :=
  let p := find_first_of name "(" 0 in if p <? size name then takeText (Z.to_nat p) name else name.

(** The instance reached and [myUnmatchedHierarchy].  A name that is not found is
    tried together with the next: flattened netlists have names with "/". *)
Fixpoint hierarchyLoop (fuel : nat) (s : text) (myStringBegin : Z) (theCurrentInstanceId : Z) (myUnmatchedHierarchy : text)
    : outcome (Z * text) :=
  match fuel with
  | O => throw OutOfFuel
  | S fuel =>
      if size s <? myStringBegin then Ok (theCurrentInstanceId, myUnmatchedHierarchy)
      else
        let myStringEnd := find_first_of s "/" myStringBegin in
        name ← substr s myStringBegin (u64 (myStringEnd - myStringBegin));
        let name := withoutCircuit name in
        let myInstanceName := if IsEmpty myUnmatchedHierarchy then name else pathAppend myUnmatchedHierarchy name in
        x ← instanceOf theCurrentInstanceId;
        '(i, u) ← (if bool_decide (myInstanceName = "..") then Ok (parentId x, "")
                   else c ← masterOf x;
                        Ok (match GetLocalSubcircuitId c myInstanceName with
                            | Some k => (u32 (firstSubcircuitId x + k), "")
                            | None => (theCurrentInstanceId, myInstanceName)
                            end));
        hierarchyLoop fuel s (find_first_not_of s "/" myStringEnd) i u
  end.

Definition FindHierarchy (theCurrentInstanceId : Z) (theHierarchy : text) (theAllowPartialMatch : bool) : outcome Z :=
  let isAbsolute := find_first_of theHierarchy "/" 0 =? 0 in
  let start := if isAbsolute then 0 else theCurrentInstanceId in
  s ← (if isAbsolute then substr theHierarchy 1 npos else Ok theHierarchy);
  '(i, u) ← hierarchyLoop (S (S (String.length s))) s 0 start "";
  Ok (if IsEmpty u || theAllowPartialMatch then i else UNKNOWN_INSTANCE).

(** The instance a name is searched in and the name there; [None] when the lengths
    do not fit ([out_of_range]). *)
Definition searchPlace (theCurrentInstanceId : Z) (theName : text) : outcome (Z * option text) :=
  let last := lastOf "/" 0 npos theName in
  mySearchHierarchy ← (if last <? size theName then substr theName 0 last else Ok "");
  '(myInitialHierarchy, start) ←
    (if find_first_of theName "/" 0 =? 0 then Ok ("", 0)
     else path ← HierarchyName false true theCurrentInstanceId; Ok (pathAppend path "", theCurrentInstanceId));
  i ← FindHierarchy start mySearchHierarchy true;
  path ← HierarchyName false true i;
  Ok (i, match substr theName (u64 (size (pathAppend path "") - size myInitialHierarchy)) npos with
         | Ok name => Some name
         | Err _ => None
         end).

(** As in the source the test for a merged instance looks at the instance the
    search starts from. *)
Definition FindNet (theCurrentInstanceId : Z) (theNetName : text) : outcome Z :=
  '(i, name) ← searchPlace theCurrentInstanceId theNetName;
  x ← instanceOf theCurrentInstanceId;
  if IsParallelInstance x then Ok UNKNOWN_NET
  else
    y ← instanceOf i;
    c ← masterOf y;
    match name ≫= localSignalId c with
    | Some k => vget (localToGlobalNetId_v y) k
    | None => Ok UNKNOWN_NET
    end.

Definition FindDevice (theCurrentInstanceId : Z) (theDeviceName : text) : outcome Z :=
  '(i, name) ← searchPlace theCurrentInstanceId theDeviceName;
  x ← instanceOf theCurrentInstanceId;
  if IsParallelInstance x then Ok UNKNOWN_DEVICE
  else
    y ← instanceOf i;
    c ← masterOf y;
    match name ≫= GetLocalDeviceId c with
    | Some k => Ok (u32 (firstDeviceId y + k))
    | None => Ok UNKNOWN_DEVICE
    end.

(** [GetLocalNetName]: the name of the first local net of the instance that is the net. *)
Definition GetLocalNetName (theInstance theNet : Z) : outcome (option text) :=
  x ← instanceOf theInstance;
  c ← masterOf x;
  Ok (match list_find (fun n => n = theNet) (localToGlobalNetId_v x) with
      | Some (k, _) => signalName_v c !! k
      | None => None
      end).
End Hierarchy.

(** ** Texts of names *)

Fixpoint splitLoop (fuel : nat) (s : text) (myStringStart : Z) : outcome (list text) :=
  match fuel with
  | O => throw OutOfFuel
  | S fuel =>
      let myHierarchyOffset := findChar s "/" myStringStart in
      if myHierarchyOffset <=? size s then
        t ← substr s myStringStart (u64 (myHierarchyOffset - myStringStart));
        l ← splitLoop fuel s (myHierarchyOffset + 1);
        Ok (t :: l)
      else t ← substr s myStringStart npos; Ok [t]
  end.
Definition SplitHierarchy (theFullPath : text) : outcome (list text) :=
  if bool_decide (takeText 1 theFullPath = "/")
  then l ← splitLoop (S (String.length theFullPath)) theFullPath 1; Ok ("" :: l)
  else splitLoop (S (String.length theFullPath)) theFullPath 0.

(** The first of the four kinds of brackets that occurs, tried in this order. *)
Definition busBegin (s : text) : Z * text :=
  let at_ c := find_first_of s c 0 in
  if at_ "<" <=? size s then (at_ "<", ">")
  else if at_ "[" <=? size s then (at_ "[", "]")
  else if at_ "(" <=? size s then (at_ "(", ")")
  else (at_ "{", "}").

Definition ExpandBusNet (theBusName : text) : outcome (list text) :=
  let s := theBusName in
  let '(myBusBegin, myBusTerminator) := busBegin s in
  let myBusDelimiter := find_first_of s ":" 0 in
  let myBusEnd := find_first_of s myBusTerminator 0 in
  if (myBusBegin <? size s) && (myBusDelimiter <? size s) && (myBusEnd <=? size s) then
    myBaseSignal ← substr s 0 (myBusBegin + 1);
    first ← substr s (myBusBegin + 1) (u64 (myBusDelimiter - myBusBegin - 1));
    myFirstBusIndex ← Model.Model.from_string_int first;
    last ← substr s (myBusDelimiter + 1) (u64 (myBusEnd - myBusDelimiter - 1));
    myLastBusIndex ← Model.Model.from_string_int last;
    tail ← substr s myBusEnd npos;
    let low := Z.min myFirstBusIndex myLastBusIndex in
    let names := map (fun i => String.append myBaseSignal (String.append (pretty i) tail))
                   (seqZ low (Z.max myFirstBusIndex myLastBusIndex - low + 1)) in
    Ok (if myFirstBusIndex <? myLastBusIndex then names else reverse names)
  else Ok [s].
End Names.
