(* ===== verification/Paths.v ===== *)
(** * A printed name finds its net

    The path [HierarchyName] prints is followed by [FindHierarchy] to the same
    instance, and the name [NetName] prints is found by [FindNet], in every
    hierarchy whose names are words without "/" and "(". *)

From S2P Require Import Prelude CvcTypes Power Text Db Hierarchy Counting Flatten PowerText Names.
From stdpp Require Import base list strings gmap.
From Stdlib Require Import ZArith Lia Ascii.
#[local] Open Scope string_scope.
#[local] Open Scope list_scope.
#[local] Open Scope Z_scope.

Module Paths.
Import Power.Power Text.Text Db.Db Names.Names.
Import PowerText.PowerText (lastOf, unbroken, unbroken_check, searchFrom_past, npos_sub, chars_append, firstFrom_all, searchFrom_npos, substr_word).

(** ** Numbers of names *)

Lemma lastNumber_none name l : forall k found, name ∉ l -> lastNumber name k found l = found.
Proof.
  induction l as [| n l IH]; intros k found Hn; [done |]. rewrite not_elem_of_cons in Hn. destruct Hn as [Hne Hn].
  cbn [lastNumber]. rewrite bool_decide_false by congruence. by apply IH.
Qed.

Lemma lastNumber_at name l : forall k j found, NoDup l -> l !! j = Some name ->
  lastNumber name k found l = Some (k + Z.of_nat j).
Proof.
  induction l as [| n l IH]; intros k j found Hd Hj; [done |]. apply NoDup_cons in Hd as [Hn Hd]. cbn [lastNumber].
  destruct j as [| j].
  - injection Hj as ->. rewrite bool_decide_true, lastNumber_none by done. f_equal. lia.
  - cbn in Hj. rewrite (IH (k + 1) j) by done. f_equal. lia.
Qed.

(** ** Paths *)

(** A name that is one step of a path. *)
Definition component (n : text) : Prop := n <> "" /\ unbroken (charIn "/(") n /\ n <> "..".

Fixpoint joinPath (l : list text) : text :=
  match l with [] => "" | n :: l => String "/" (String.append n (joinPath l)) end.

Lemma joinPath_snoc l n : joinPath (l ++ [n]) = pathAppend (joinPath l) n.
Proof.
  unfold pathAppend. induction l as [| m l IH]; cbn [app joinPath]; [by rewrite append_empty |].
  by rewrite IH, append_cons, append_assoc.
Qed.

Lemma component_slash n : component n -> unbroken (charIn "/") n.
Proof.
  intros (_ & H & _) c Hc. specialize (H c Hc). cbn in *. by destruct (Ascii.eqb c "/").
Qed.

Lemma withoutCircuit_plain n : unbroken (charIn "(") n -> size n < npos -> withoutCircuit n = n.
Proof.
  intros H Hs. unfold withoutCircuit, find_first_of, searchFrom. destruct (size n <=? 0).
  - by rewrite (proj2 (Z.ltb_ge npos _)) by lia.
  - change (dropText (Z.to_nat 0) n) with n. rewrite firstFrom_all by done. by rewrite (proj2 (Z.ltb_ge npos _)) by lia.
Qed.

Lemma component_circuit n : component n -> unbroken (charIn "(") n.
Proof. intros (_ & H & _) c Hc. specialize (H c Hc). cbn in *. by destruct (Ascii.eqb c "/"). Qed.

Section Hierarchy.
Context (nl : CNetlist) (cs : list CCircuit).

Definition at_ (i : Z) (x : CInstance) (c : CCircuit) : Prop :=
  vlookup (instancePtr_v nl) i = Some x /\ vlookup cs (master_p x) = Some c.

(** The calls with the names [l] lead from instance [i] to instance [j]. *)
Inductive below : Z -> list text -> Z -> Prop :=
| below_here i : below i [] i
| below_call i x c k s l j : at_ i x c -> subcircuitPtr_v c !! k = Some s ->
    below (firstSubcircuitId x + Z.of_nat k) l j -> below i (subcircuitName s :: l) j.

(** Every circuit has distinct names, all of them components; instances are numbered
    after their parents, from where the call has its place. *)
Record named : Prop := mkNamed {
  nm_size : Z.of_nat (length (instancePtr_v nl)) < 2 ^ 32;
  nm_circuit i x : vlookup (instancePtr_v nl) i = Some x -> exists c, at_ i x c;
  nm_calls i x c : at_ i x c -> NoDup (map subcircuitName (subcircuitPtr_v c)) /\
    Forall component (map subcircuitName (subcircuitPtr_v c));
  nm_children i x c k : at_ i x c -> (k < length (subcircuitPtr_v c))%nat ->
    0 <= firstSubcircuitId x + Z.of_nat k < Z.of_nat (length (instancePtr_v nl));
  nm_parent i x : vlookup (instancePtr_v nl) i = Some x -> i <> 0 -> exists y c k s,
    at_ (parentId x) y c /\ parentId x < i /\ subcircuitPtr_v c !! k = Some s /\ i = firstSubcircuitId y + Z.of_nat k;
  nm_signals i x c : at_ i x c -> NoDup (signalName_v c) /\ Forall component (signalName_v c)
}.
Context (HN : named).

Lemma vget_at {A} (v : list A) i x : vlookup v i = Some x -> vget v i = Ok x.
Proof. apply vget_Ok. Qed.

Lemma subcircuit_number i x c k s : at_ i x c -> subcircuitPtr_v c !! k = Some s ->
  GetLocalSubcircuitId c (subcircuitName s) = Some (Z.of_nat k) /\ component (subcircuitName s).
Proof.
  intros Ha Hs. destruct (nm_calls HN i x c Ha) as [Hd Hf].
  assert (map subcircuitName (subcircuitPtr_v c) !! k = Some (subcircuitName s)) as E by (by rewrite list_lookup_fmap, Hs).
  split; [by apply (lastNumber_at _ _ 0) | by eapply Forall_lookup_1].
Qed.

Lemma child_number i x c k s : at_ i x c -> subcircuitPtr_v c !! k = Some s ->
  u32 (firstSubcircuitId x + Z.of_nat k) = firstSubcircuitId x + Z.of_nat k.
Proof.
  intros Ha Hs. apply lookup_lt_Some in Hs. pose proof (nm_children HN i x c k Ha Hs). pose proof (nm_size HN).
  apply u32_id. lia.
Qed.

(** Following a path. *)
Lemma hierarchyLoop_path i l j : below i l j -> l <> [] -> forall fuel a n rest s,
  l = n :: rest -> s = String.append a (String.append n (joinPath rest)) -> size s < npos ->
  (String.length (joinPath l) < fuel)%nat -> hierarchyLoop nl cs fuel s (size a) i "" = Ok (j, "").
Proof.
  induction 1 as [i | i x c k sub l j Ha Hk Hb IH]; [done |]. intros _ fuel a n rest s El Es Hs Hf.
  injection El as <- <-. destruct (subcircuit_number i x c k sub Ha Hk) as [Hnum Hcomp].
  destruct fuel as [| fuel]; [lia |]. cbn [hierarchyLoop]. set (n := subcircuitName sub) in *.
  assert (0 < size n) by (destruct Hcomp as [? _]; destruct n; [done |]; unfold size; cbn; lia).
  pose proof (size_nonneg a). pose proof (size_nonneg (joinPath l)).
  assert (size s = size a + (size n + size (joinPath l))) as Hsz by (by rewrite Es, !size_append).
  rewrite (proj2 (Z.ltb_ge (size s) (size a))) by lia.
  assert (find_first_of s "/" (size a) = match joinPath l with EmptyString => npos | _ => size (String.append a n) end) as Ee.
  { rewrite Es. apply searchFrom_past; [left; by destruct Hcomp | by apply component_slash | by destruct l]. }
  rewrite Ee. replace (substr s _ _) with (Ok n) by (rewrite Es; symmetry; apply substr_word; by rewrite <- Es).
  cbn [mbind outcome_bind]. change (IsEmpty "") with true. cbv match. rewrite withoutCircuit_plain by (by apply component_circuit || lia).
  destruct Ha as [Hx Hc]. unfold instanceOf, masterOf. rewrite (vget_at _ _ _ Hx). cbn [mbind outcome_bind].
  rewrite bool_decide_false by (by destruct Hcomp as (_ & _ & ?)).
  rewrite (vget_at _ _ _ Hc). cbn [mbind outcome_bind]. rewrite Hnum.
  rewrite (child_number i x c k sub (conj Hx Hc) Hk). destruct l as [| m l].
  - assert (firstSubcircuitId x + Z.of_nat k = j) as -> by (by inversion Hb). cbn [joinPath String.length] in *.
    destruct fuel as [| fuel]; [lia |]. cbn [hierarchyLoop].
    unfold find_first_not_of. rewrite searchFrom_npos by lia. by rewrite (proj2 (Z.ltb_lt _ npos)) by lia.
  - cbn [joinPath] in *.
    assert (s = String.append (String.append (String.append a n) "/") (String.append m (joinPath l))) as Es'
      by (by rewrite Es, !append_assoc).
    replace (find_first_not_of s "/" (size (String.append a n))) with (size (String.append (String.append a n) "/")).
    + apply (IH ltac:(done) fuel _ m l); [done | done | done |]. cbn [joinPath] in Hf |- *. cbn [String.length] in *.
      rewrite !append_length in *. cbn [String.length] in *. rewrite !append_length in *. lia.
    + symmetry. rewrite Es'. rewrite append_assoc.
      pose proof (searchFrom_past (fun c => negb (charIn "/" c)) (String.append a n) "/" (String.append m (joinPath l))) as E.
      unfold find_first_not_of. rewrite E; clear E.
      * inversion Hb as [| ? ? ? ? ? ? ? Ha' Hk']; subst. destruct (subcircuit_number _ _ _ _ _ Ha' Hk') as [_ Hm].
        destruct Hm as [Hm _]. by destruct (subcircuitName s0).
      * by left.
      * intros ch Hch. apply elem_of_cons in Hch as [-> | Hch]; [done | by apply elem_of_nil in Hch].
      * inversion Hb as [| ? ? ? ? ? ? ? Ha' Hk']; subst. destruct (subcircuit_number _ _ _ _ _ Ha' Hk') as [_ Hm].
        pose proof (component_slash _ Hm) as Hsl. destruct (subcircuitName s0) as [| ch t]; [by destruct Hm |].
        rewrite append_cons. by rewrite (Hsl ch ltac:(by left)).
Qed.

Lemma below_snoc i l j : below i l j -> forall x c k s, at_ j x c -> subcircuitPtr_v c !! k = Some s ->
  below i (l ++ [subcircuitName s]) (firstSubcircuitId x + Z.of_nat k).
Proof.
  induction 1 as [i | i y d m t l j Hy Ht Hb IH]; intros x c k s Ha Hk; cbn [app].
  - econstructor; [done | done | constructor].
  - econstructor; [done | done | by eapply IH].
Qed.

(** The printed path. *)
Lemma hierarchyName_path i x : vlookup (instancePtr_v nl) i = Some x ->
  exists l, below 0 l i /\ forall fuel, (Z.to_nat i < fuel)%nat -> hierarchyName nl cs fuel false true i = Ok (joinPath l).
Proof.
  intros Hx. pose proof (vlookup_range _ _ _ Hx) as Hi. revert x Hx.
  assert (0 <= i) as H0 by lia. clear Hi. pattern i. revert i H0. apply Zlt_0_ind.
  intros i IH Hi x Hx. destruct (Z.eq_dec i 0) as [-> | Hne].
  - exists []. split; [constructor |]. intros [| fuel] ?; [lia | done].
  - destruct (nm_parent HN i x Hx Hne) as (y & c & k & s & Ha & Hlt & Hs & Ei).
    pose proof (vlookup_range _ _ _ (proj1 Ha)) as Hp. destruct (IH (parentId x) ltac:(lia) y (proj1 Ha)) as (l & Hb & Hn).
    exists (l ++ [subcircuitName s]). split; [rewrite Ei; by eapply below_snoc |].
    intros [| fuel] Hf; [lia |]. cbn [hierarchyName]. rewrite (proj2 (Z.eqb_neq i 0)) by done.
    destruct Ha as [Hy Hc]. unfold instanceOf, masterOf. rewrite (vget_at _ _ _ Hx). cbn [mbind outcome_bind].
    rewrite (vget_at _ _ _ Hy). cbn [mbind outcome_bind]. rewrite (vget_at _ _ _ Hc). cbn [mbind outcome_bind].
    replace (i - firstSubcircuitId y) with (Z.of_nat k) by lia.
    assert (Z.of_nat k < 2 ^ 32) as Hk.
    { pose proof (nm_size HN). pose proof (lookup_lt_Some _ _ _ Hs) as Hlen.
      pose proof (nm_children HN _ _ _ 0 (conj Hy Hc) ltac:(lia)). pose proof (vlookup_range _ _ _ Hx). lia. }
    rewrite u32_id by lia. rewrite (vget_at _ _ s).
    2: { unfold vlookup. rewrite (proj2 (in_range_spec _ _)); [by rewrite Nat2Z.id |]. apply lookup_lt_Some in Hs. lia. }
    cbn [mbind outcome_bind andb]. rewrite Hn by lia. cbn [mbind outcome_bind]. by rewrite append_empty, joinPath_snoc.
Qed.

Lemma HierarchyName_path i x : vlookup (instancePtr_v nl) i = Some x ->
  exists l, below 0 l i /\ HierarchyName nl cs false true i = Ok (joinPath l).
Proof.
  intros Hx. destruct (hierarchyName_path i x Hx) as (l & Hb & Hn). exists l. split; [done |]. apply Hn.
  apply vlookup_range in Hx. unfold pathFuel. lia.
Qed.

(** A path is followed to the instance it names; the empty path stays. *)
Lemma FindHierarchy_path l i x0 c0 : at_ 0 x0 c0 -> below 0 l i -> size (joinPath l) < npos ->
  FindHierarchy nl cs 0 (joinPath l) true = Ok i.
Proof.
  intros Ha Hb Hs. unfold FindHierarchy. destruct l as [| n l].
  - assert (i = 0) as -> by (by inversion Hb). destruct Ha as [Hx Hc].
    change (find_first_of (joinPath []) "/" 0 =? 0) with false. cbn [joinPath mbind outcome_bind String.length].
    cbn [hierarchyLoop]. change (size "" <? 0) with false. cbv match.
    change (substr "" 0 (u64 (find_first_of "" "/" 0 - 0))) with (Ok ""). cbn [mbind outcome_bind].
    change (IsEmpty "") with true. change (withoutCircuit "") with "". cbv match.
    unfold instanceOf, masterOf. rewrite (vget_at _ _ _ Hx). cbn [mbind outcome_bind].
    rewrite bool_decide_false by done. rewrite (vget_at _ _ _ Hc). cbn [mbind outcome_bind].
    unfold GetLocalSubcircuitId. rewrite lastNumber_none.
    + reflexivity.
    + destruct (nm_calls HN 0 x0 c0 (conj Hx Hc)) as [_ Hf]. intros Hin.
      by destruct (proj1 (Forall_forall _ _) Hf "" Hin) as [? _].
  - cbn [joinPath] in *. set (t := String.append n (joinPath l)) in *.
    assert (size (String "/" t) = 1 + size t) as Hsz by (unfold size; cbn; lia). pose proof (size_nonneg t).
    assert (find_first_of (String "/" t) "/" 0 = 0) as ->.
    { unfold find_first_of, searchFrom. rewrite (proj2 (Z.leb_gt _ _)) by lia. reflexivity. }
    rewrite Z.eqb_refl.
    assert (substr (String "/" t) 1 npos = Ok t) as ->.
    { apply (substr_append "/" t npos). lia. }
    cbn [mbind outcome_bind].
    pose proof (hierarchyLoop_path 0 (n :: l) i Hb ltac:(done) (S (S (String.length t))) "" n l t eq_refl eq_refl) as E.
    change (size "") with 0 in E. rewrite E; [done | lia |]. cbn [joinPath String.length]. fold t. lia.
Qed.

(** ** Nets *)

Lemma lastOf_none c w : unbroken (fun x => Ascii.eqb x c) w -> forall k found, lastOf c k found w = found.
Proof.
  induction w as [| d w IH]; intros H k found; [done |]. cbn [lastOf]. rewrite (H d) by (by left).
  apply IH. intros x Hx. apply H. by right.
Qed.
Lemma lastOf_last c a w : unbroken (fun x => Ascii.eqb x c) w -> forall k found,
  lastOf c k found (String.append a (String c w)) = k + size a.
Proof.
  intros H. induction a as [| d a IH]; intros k found.
  - rewrite append_nil. cbn [lastOf]. rewrite Ascii.eqb_refl, lastOf_none by done. unfold size. cbn. lia.
  - rewrite append_cons. cbn [lastOf]. rewrite IH. unfold size. cbn [String.length]. lia.
Qed.

Lemma component_eqb n : component n -> unbroken (fun x => Ascii.eqb x "/") n.
Proof. intros H c Hc. pose proof (component_slash n H c Hc) as E. cbn in E. by destruct (Ascii.eqb c "/"). Qed.

Context (x0 : CInstance) (c0 : CCircuit) (H0 : at_ 0 x0 c0).

(** The name [name] below the instance with path [l]. *)
Lemma searchPlace_path l i x name : below 0 l i -> vlookup (instancePtr_v nl) i = Some x -> HierarchyName nl cs false true i = Ok (joinPath l) ->
  component name -> let t := pathAppend (joinPath l) name in size t < npos ->
  searchPlace nl cs 0 t = Ok (i, Some name).
Proof.
  intros Hb Hx Hpath Hname t Hs. unfold searchPlace, t, pathAppend in *. pose proof (size_nonneg (joinPath l)).
  pose proof (size_nonneg name).
  assert (size (String "/" name) = 1 + size name) as Hsn by (unfold size; cbn; lia).
  rewrite size_append in Hs. rewrite (lastOf_last "/" (joinPath l) name) by (by apply component_eqb).
  rewrite Z.add_0_l, (proj2 (Z.ltb_lt _ _)) by (rewrite size_append; lia).
  replace (substr (String.append (joinPath l) (String "/" name)) 0 (size (joinPath l))) with (Ok (joinPath l))
    by (symmetry; apply (substr_middle "" (joinPath l) (String "/" name))).
  cbn [mbind outcome_bind].
  assert (find_first_of (String.append (joinPath l) (String "/" name)) "/" 0 = 0) as ->.
  { unfold find_first_of, searchFrom. rewrite (proj2 (Z.leb_gt _ _)) by (rewrite size_append; lia).
    change (dropText (Z.to_nat 0) ?u) with u. by destruct l. }
  rewrite Z.eqb_refl. cbn [mbind outcome_bind]. rewrite (FindHierarchy_path l i x0 c0) by (done || lia).
  cbn [mbind outcome_bind]. rewrite Hpath. cbn [mbind outcome_bind]. do 2 f_equal.
  assert (size "" = 0) as E0 by done. unfold pathAppend. rewrite size_append, E0, Z.sub_0_r.
  change (size (String "/" "")) with 1. unfold npos in Hs. rewrite u64_id by lia.
  replace (String.append (joinPath l) (String "/" name)) with (String.append (String.append (joinPath l) "/") name)
    by (by rewrite append_assoc).
  replace (size (joinPath l) + 1) with (size (String.append (joinPath l) "/")) by (by rewrite size_append).
  rewrite substr_append by (unfold npos; lia). done.
Qed.

Lemma searchPlace_port name : component name -> size name < npos -> searchPlace nl cs 0 name = Ok (0, Some name).
Proof.
  intros Hname Hs. unfold searchPlace. rewrite lastOf_none by (by apply component_eqb).
  rewrite (proj2 (Z.ltb_ge npos _)) by lia. cbn [mbind outcome_bind].
  assert (find_first_of name "/" 0 = npos) as ->.
  { pose proof (searchFrom_past (charIn "/") "" name "") as E. rewrite append_nil, append_empty in E.
    apply E; [left; by destruct Hname | by apply component_slash | done]. }
  change (npos =? 0) with false. cbv match.
  assert (HierarchyName nl cs false true 0 = Ok "") as Hp by done. rewrite Hp. cbn [mbind outcome_bind].
  pose proof (FindHierarchy_path [] 0 x0 c0 H0 (below_here 0) eq_refl) as E0. cbn [joinPath] in E0. rewrite E0. cbn [mbind outcome_bind]. rewrite Hp. cbn [mbind outcome_bind].
  change (u64 (size (pathAppend "" "") - size (pathAppend "" ""))) with 0.
  pose proof (substr_append "" name npos ltac:(lia)) as E. rewrite append_nil in E. change (size "") with 0 in E. by rewrite E.
Qed.

(** Signal [k] of instance [i] is the net [n], which the instance owns. *)
Record owns (i : Z) (x : CInstance) (c : CCircuit) (k n : Z) : Prop := mkOwns {
  ow_name : 0 <= k < Z.of_nat (length (signalName_v c));
  ow_ports : 0 <= portCount c /\ (i <> 0 -> portCount c <= k) /\ (i = 0 -> firstNetId x = 0);
  ow_net : vlookup (localToGlobalNetId_v x) k = Some n;
  ow_parent : vlookup (netParent_v nl) n = Some i;
  ow_place : n = firstNetId x + (k - if i =? 0 then 0 else portCount c);
  ow_range : 0 <= n < UNKNOWN_NET /\ 0 <= firstNetId x
}.

(** The printed name of a net that an instance owns. *)
Lemma NetName_text h v i x c k n a p : at_ i x c -> owns i x c k n -> vlookup v n = Some a -> pointee h a = Ok p ->
  exists l name, signalName_v c !! Z.to_nat k = Some name /\ component name /\ localSignalId c name = Some k /\
    below 0 l i /\ HierarchyName nl cs false true i = Ok (joinPath l) /\
    NetName nl cs h v false true n = Ok (if (i =? 0) && (n <? portCount c) then name else pathAppend (joinPath l) name).
Proof.
  intros Ha Ho Hv Hp. destruct (nm_signals HN i x c Ha) as [Hd Hf]. destruct Ho as [Hk (Hpc & Hi & Htop) Hnet Hparent Hn Hr].
  destruct (lookup_lt_is_Some_2 (signalName_v c) (Z.to_nat k)) as [name Ename]; [lia |].
  assert (component name) as Hcomp by (by eapply Forall_lookup_1).
  destruct (HierarchyName_path i x (proj1 Ha)) as (l & Hb & Hpath). exists l, name.
  split_and!; [done | done | | done | done |].
  { unfold localSignalId. rewrite (lastNumber_at name _ 0 (Z.to_nat k)) by done. f_equal. lia. }
  unfold NetName. rewrite (proj2 (Z.eqb_neq n UNKNOWN_NET)) by lia. rewrite (vget_at _ _ _ Hparent). cbn [mbind outcome_bind].
  unfold instanceOf, masterOf. rewrite (vget_at _ _ _ (proj1 Ha)). cbn [mbind outcome_bind]. rewrite (vget_at _ _ _ (proj2 Ha)).
  cbn [mbind outcome_bind]. unfold NetAlias. rewrite (vget_at _ _ _ Hv). cbn [mbind outcome_bind]. rewrite Hp. cbn [mbind outcome_bind andb].
  assert (forall q : option CPower, match q with Some _ => "" | None => "" end = "") as Hq by (by intros []). rewrite Hq.
  assert (vget (internalSignal_v (i =? 0) c) (u32 (n - firstNetId x)) = Ok name) as Eint.
  { assert (0 <= n - firstNetId x) by (rewrite Hn; destruct (Z.eqb_spec i 0); lia).
    unfold UNKNOWN_NET, UINT32_MAX in Hr. rewrite u32_id by lia. apply vget_at.
    unfold internalSignal_v, vlookup. revert Hn. destruct (Z.eqb_spec i 0) as [Ei | Ei]; intros Hn.
    - rewrite (proj2 (in_range_spec _ _)) by lia. by replace (Z.to_nat (n - firstNetId x)) with (Z.to_nat k) by lia.
    - rewrite (proj2 (in_range_spec _ _)) by (rewrite length_drop; lia). rewrite lookup_drop.
      by replace (Z.to_nat (portCount c) + Z.to_nat (n - firstNetId x))%nat with (Z.to_nat k) by lia. }
  destruct ((i =? 0) && (n <? portCount c)) eqn:Etop.
  - apply andb_true_iff in Etop as [Ei%Z.eqb_eq _]. subst i. rewrite Z.eqb_refl in Eint.
    replace (u32 (n - firstNetId x)) with n in Eint by (rewrite Htop, Z.sub_0_r, u32_id by (unfold UNKNOWN_NET, UINT32_MAX in Hr; lia); done).
    rewrite Eint. cbn [mbind outcome_bind]. by rewrite append_empty.
  - rewrite Hpath. cbn [mbind outcome_bind]. rewrite Eint. cbn [mbind outcome_bind]. by rewrite append_empty.
Qed.

(** The name of a net that an instance owns is found. *)
Lemma FindNet_NetName h v i x c k n a p : IsParallelInstance x0 = false -> at_ i x c -> owns i x c k n ->
  vlookup v n = Some a -> pointee h a = Ok p ->
  exists t, NetName nl cs h v false true n = Ok t /\ (size t < npos -> FindNet nl cs 0 t = Ok n).
Proof.
  intros Hpar Ha Ho Hv Hp. destruct (NetName_text h v i x c k n a p) as (l & name & _ & Hcomp & Hid & Hb & Hpath & Et); try done.
  eexists. split; [exact Et |]. intros Hs.
  assert (forall t, searchPlace nl cs 0 t = Ok (i, Some name) -> FindNet nl cs 0 t = Ok n) as Hfind.
  { intros t E. unfold FindNet. rewrite E. cbn [mbind outcome_bind]. unfold instanceOf, masterOf.
    rewrite (vget_at _ _ _ (proj1 H0)). cbn [mbind outcome_bind]. rewrite Hpar.
    rewrite (vget_at _ _ _ (proj1 Ha)). cbn [mbind outcome_bind]. rewrite (vget_at _ _ _ (proj2 Ha)). cbn [mbind outcome_bind option_bind].
    rewrite Hid. apply vget_at, Ho. }
  apply Hfind. revert Hs. destruct ((i =? 0) && (n <? portCount c)) eqn:Etop; intros Hs.
  - apply andb_true_iff in Etop as [->%Z.eqb_eq _]. by apply searchPlace_port.
  - exact (searchPlace_path l i x name Hb (proj1 Ha) Hpath Hcomp Hs).
Qed.
End Hierarchy.

(** ** The hierarchy that flattening builds *)

Import Hierarchy.Hierarchy Counting.Counting Flatten.Flatten.

(** The netlist of a flat state: its instances and the parents of nets and devices. *)
Definition netlistOf (st : flatState) : CNetlist :=
  mkNetlist (omap id (slots st)) (deviceParents st) [] [] [] [] [] [] [] [] [] [] [] false [] ∅
    (flatDevices st) (flatNets st) (flatSubcircuits st) (netParents st).

Definition namedCircuit (c : CCircuit) : Prop :=
  NoDup (map subcircuitName (subcircuitPtr_v c)) /\ Forall component (map subcircuitName (subcircuitPtr_v c)) /\
  NoDup (signalName_v c) /\ Forall component (signalName_v c).

Section Flattened.
Context (cs : list CCircuit) (rank : Z -> nat) (R : Z -> Prop) (limit : Z) (HU : unmerged cs rank R limit).
Context (st : flatState) (HF : flattened cs R st) (Hnames : Forall namedCircuit cs).
Context (Hsize : Z.of_nat (length (slots st)) < 2 ^ 32) (Hnets : flatNets st <= UNKNOWN_NET).

(** Every place is filled. *)
Lemma instances_all : slots st = map Some (instancePtr_v (netlistOf st)).
Proof.
  destruct HF as [_ Hall]. cbn [instancePtr_v netlistOf].
  assert (Forall (fun o => is_Some o) (slots st)) as Hf.
  { apply Forall_lookup. intros k o Hk. destruct (Hall (Z.of_nat k)) as (y & Hy); [apply lookup_lt_Some in Hk; lia |].
    apply Prelude.vlookup_lookup in Hy. rewrite Nat2Z.id in Hy. assert (o = Some y) as -> by congruence. eauto. }
  clear -Hf. induction Hf as [| o v [y ->] _ IH]; [done |]. cbn. by rewrite <- IH.
Qed.

Lemma instances_filled i x : vlookup (instancePtr_v (netlistOf st)) i = Some x <-> filled st i x.
Proof.
  unfold filled. rewrite instances_all. unfold vlookup, in_range. rewrite length_map. destruct (_ && _); [| done].
  rewrite list_lookup_fmap. destruct (instancePtr_v (netlistOf st) !! Z.to_nat i); cbn; naive_solver.
Qed.

Lemma slots_length : length (instancePtr_v (netlistOf st)) = length (slots st).
Proof. by rewrite instances_all, length_map. Qed.

Lemma cell_members k c : vlookup (cells st) k = Some c -> exists c1, vlookup cs k = Some c1 /\
  subcircuitPtr_v c = subcircuitPtr_v c1 /\ signalName_v c = signalName_v c1 /\ portCount c = portCount c1.
Proof.
  intros Hc. destruct HF as [Hok _]. pose proof (ok_cells _ _ _ Hok) as Hs. pose proof (vlookup_range _ _ _ Hc) as Hr.
  rewrite <- (Forall2_length _ _ _ Hs) in Hr. destruct (proj2 (vlookup_is_Some cs k) Hr) as [c1 Hc1]. exists c1.
  destruct (ok_cell _ _ _ _ _ Hok Hc1) as (d & Hd & Hsame). assert (d = c) as -> by congruence.
  unfold sameCell in Hsame. by rewrite Hsame.
Qed.

Lemma at_filled i x c : at_ (netlistOf st) (cells st) i x c -> filled st i x /\ exists c1, vlookup cs (master_p x) = Some c1 /\
  subcircuitPtr_v c = subcircuitPtr_v c1 /\ signalName_v c = signalName_v c1 /\ portCount c = portCount c1.
Proof. intros [Hx Hc]. split; [by apply instances_filled | by apply cell_members]. Qed.

Lemma filled_at i x : filled st i x -> exists c c1, at_ (netlistOf st) (cells st) i x c /\ vlookup cs (master_p x) = Some c1 /\
  R (master_p x) /\ subcircuitPtr_v c = subcircuitPtr_v c1 /\ signalName_v c = signalName_v c1 /\ portCount c = portCount c1.
Proof.
  intros Hx. destruct HF as [Hok _]. destruct (ok_slots _ _ _ Hok i x Hx) as [_ [(c1 & HR & Hc1 & _) _ _]].
  destruct (ok_cell _ _ _ _ _ Hok Hc1) as (d & Hd & Hsame). exists d, c1.
  split; [split; [by apply instances_filled | done] |]. unfold sameCell in Hsame. by rewrite Hsame.
Qed.

Lemma named_member k c1 : vlookup cs k = Some c1 -> namedCircuit c1.
Proof. intros H. apply (proj1 (Forall_forall _ _) Hnames), (list_elem_of_lookup_2 _ (Z.to_nat k)). by apply Prelude.vlookup_lookup. Qed.

Lemma flattened_named : named (netlistOf st) (cells st).
Proof.
  pose proof (proj1 HF) as Hok. split.
  - by rewrite slots_length.
  - intros i x Hx%instances_filled. destruct (filled_at i x Hx) as (c & _ & Ha & _). eauto.
  - intros i x c Ha. destruct (at_filled i x c Ha) as (_ & c1 & Hc1 & -> & _). by destruct (named_member _ _ Hc1) as (? & ? & _).
  - intros i x c k Ha Hk. destruct (at_filled i x c Ha) as (Hx & c1 & Hc1 & E & _). rewrite E in Hk.
    destruct (ok_slots _ _ _ Hok i x Hx) as [_ [_ _ (P1 & _ & _ & P4)]]. specialize (P4 c1 Hc1).
    pose proof (ok_count _ _ _ Hok). pose proof (vlookup_range _ _ _ Hx). rewrite slots_length. lia.
  - intros i x Hx%instances_filled Hne. destruct (ok_slots _ _ _ Hok i x Hx) as [_ [(c1 & _ & _ & _ & Hp & _) _ _]].
    destruct Hp as [[? _] | (y & d & j & s & Hy & Hd & Hj & Ei & _)]; [done |].
    destruct (filled_at _ y Hy) as (cy & d1 & Ha & Hd1 & _ & Es & _). assert (d1 = d) as -> by congruence.
    exists y, cy, j, s. destruct (ok_slots _ _ _ Hok _ y Hy) as [_ [_ _ (P1 & _)]].
    split_and!; [done | lia | by rewrite Es | done].
  - intros i x c Ha. destruct (at_filled i x c Ha) as (_ & c1 & Hc1 & _ & -> & _). by destruct (named_member _ _ Hc1) as (_ & _ & ? & ?).
Qed.

(** The instance owns its signals after the ports, the top all of its signals. *)
Lemma flattened_owns i x c c1 k : filled st i x -> vlookup cs (master_p x) = Some c1 ->
  signalName_v c = signalName_v c1 -> portCount c = portCount c1 ->
  0 <= k < localSignalCount c1 -> (i <> 0 -> portCount c1 <= k) ->
  exists n, owns (netlistOf st) i x c k n.
Proof.
  intros Hx Hc1 Es Ep Hk Hi. pose proof (proj1 HF) as Hok.
  destruct (ok_slots _ _ _ Hok i x Hx) as [_ [(c2 & HR & Hc2 & Hlen & Hp & _) Hn (P1 & P2 & P3 & _)]].
  assert (c2 = c1) as -> by congruence. destruct (un_typed _ _ _ _ HU _ _ HR Hc1) as [Tp _ _ Tn].
  destruct (lookup_lt_is_Some_2 (localToGlobalNetId_v x) (Z.to_nat k)) as [n En]; [lia |].
  assert (vlookup (localToGlobalNetId_v x) k = Some n) as Evn.
  { unfold vlookup. by rewrite (proj2 (in_range_spec _ _)) by lia. }
  pose proof (proj1 (Forall_lookup _ _) Hn _ _ En) as Hrange. cbn in Hrange. exists n.
  assert (n = firstNetId x + (k - if i =? 0 then 0 else portCount c1) /\ vlookup (netParents st) n = Some i) as [E1 E2].
  { destruct Hp as [(-> & Enets & Hpar) | (y & d & j & s & Hy & Hd & Hj & Ei & Em & ports & Ports & Enets & Hpar)].
    - rewrite Enets in En. apply lookup_seqZ in En as [En _]. rewrite Z.eqb_refl, P3 by done.
      split; [lia |]. apply Hpar. lia.
    - destruct (ok_slots _ _ _ Hok _ y Hy) as [_ [_ _ (Q1 & _)]]. pose proof (vlookup_range _ _ _ Hy).
      rewrite (proj2 (Z.eqb_neq i 0)) by lia. specialize (Hi ltac:(lia)).
      assert (Z.of_nat (length ports) = portCount c1) as Hports.
      { rewrite Enets, length_app, length_map, length_seqZ in Hlen. lia. }
      rewrite Enets, lookup_app_r in En by lia. rewrite list_lookup_fmap in En.
      destruct (seqZ 0 _ !! _) as [q |] eqn:Eq; [| done]. apply lookup_seqZ in Eq as [-> Hlt]. injection En as <-.
      replace (0 + Z.of_nat (Z.to_nat k - length ports)) with (k - portCount c1) by lia. split; [lia | apply Hpar; lia]. }
  split; [rewrite Es; lia | rewrite Ep; auto with lia | done | done | by rewrite Ep | lia].
Qed.

End Flattened.

(** What names a circuit has is not changed by counting. *)
Lemma namedCircuit_shape c d : sameShape c d -> namedCircuit c -> namedCircuit d.
Proof.
  intros Hs. unfold namedCircuit. rewrite (sh_names _ _ Hs).
  assert (forall l, map subcircuitName l = map (fun x => x.1.1) (map callShape l)) as E by (intros; by rewrite map_map).
  rewrite !E, (sh_calls _ _ Hs). done.
Qed.

Definition isComponent (n : text) : bool :=
  negb (bool_decide (n = "")) && forallb (fun c => negb (charIn "/(" c)) (String.list_ascii_of_string n) && negb (bool_decide (n = "..")).
Lemma isComponent_spec n : isComponent n = true -> component n.
Proof.
  unfold isComponent. rewrite !andb_true_iff, !negb_true_iff, !bool_decide_eq_false. intros [[H1 H2] H3].
  split_and!; [done | by apply unbroken_check | done].
Qed.
Definition isNamed (c : CCircuit) : bool :=
  bool_decide (NoDup (map subcircuitName (subcircuitPtr_v c))) && forallb isComponent (map subcircuitName (subcircuitPtr_v c)) &&
  bool_decide (NoDup (signalName_v c)) && forallb isComponent (signalName_v c).
Lemma isNamed_spec cs : forallb isNamed cs = true -> Forall namedCircuit cs.
Proof.
  rewrite forallb_forall. intros H. apply Forall_forall. intros c Hc%list_elem_of_In%H. revert Hc. unfold isNamed, namedCircuit.
  rewrite !andb_true_iff, !bool_decide_eq_true, !forallb_forall. intros [[[H1 H2] H3] H4].
  split_and!; try done; apply Forall_forall; intros n Hn%list_elem_of_In; apply isComponent_spec; auto.
Qed.

(** The netlist of [exampleCells]: net 5 is the internal net of the first inverter of the
    first buffer. *)
Definition exampleNames (n : Z) : outcome (text * Z) :=
  '(t, cs) ← CountObjectsAndLinkSubcircuits 3 "top" exampleCells;
  st ← flatten 0 3 t cs;
  name ← NetName (netlistOf st) (cells st) exampleHeap (replicate 11 None) false true n;
  m ← FindNet (netlistOf st) (cells st) 0 name;
  Ok (name, m).

Example exampleNames_all : map exampleNames (seqZ 0 11) =
  map Ok [("a", 0); ("z", 1); ("vss", 2); ("/b", 3); ("/X1/n", 4); ("/X1/X1/mid", 5); ("/X1/X2/mid", 6); ("/X2/n", 7);
          ("/X2/X1/mid", 8); ("/X2/X2/mid", 9); ("/X3/mid", 10)].
Proof. vm_compute. reflexivity. Qed.

Definition exampleLinked : list CCircuit :=
  match CountObjectsAndLinkSubcircuits 3 "top" exampleCells with Ok (_, cs) => cs | Err _ => [] end.
Definition exampleState : flatState :=
  match flatten 0 3 2 exampleLinked with Ok st => st | Err _ => mkFlat [] [] 0 0 0 [] [] end.

Definition exampleUsed (k : Z) : Prop := in_range exampleCells k = true /\ k ∈ expand exampleCells Z.to_nat 2.

Lemma exampleState_flattened :
  unmerged exampleLinked Z.to_nat exampleUsed 0 /\ flattened exampleLinked exampleUsed exampleState.
Proof.
  assert (exampleCells = ltac:(let l := eval vm_compute in exampleCells in exact l)) as El by (vm_compute; reflexivity).
  destruct (vlookup exampleCells 2) as [c |] eqn:Ec; [| discriminate Ec].
  assert (portCount c = 3) as Hp by (vm_compute in Ec; injection Ec as <-; reflexivity).
  destruct (flatten_composed exampleCells Z.to_nat (fun k => in_range exampleCells k = true) 0
              (linkable_test exampleCells Z.to_nat ltac:(vm_compute; reflexivity))
              ltac:(intros k Hk%in_range_spec; change (Z.of_nat (length exampleCells)) with 3 in Hk;
                    assert (k = 0 \/ k = 1 \/ k = 2) as [-> | [-> | ->]] by lia; vm_compute; discriminate)
              ltac:(rewrite El; repeat constructor)
              ltac:(rewrite El; repeat constructor; cbn; lia) ltac:(rewrite El; repeat constructor) 3 "top" 2 c)
    as (cs & st & E1 & E2 & Hsh & HU & HF & H1 & H2 & H3);
    [reflexivity | reflexivity | exact Ec | cbn; lia | vm_compute; discriminate | vm_compute; discriminate
    | rewrite Hp; vm_compute; discriminate |].
  assert (cs = exampleLinked) as -> by (unfold exampleLinked; by rewrite E1).
  assert (st = exampleState) as -> by (unfold exampleState; by rewrite E2).
  exact (conj HU HF).
Qed.

(** Instance 4 is the first inverter of the first buffer. *)
Definition exampleInverter : CInstance :=
  ltac:(let v := eval vm_compute in (vlookup (slots exampleState) 4) in match v with Some (Some ?y) => exact y end).
Definition exampleInverterCell : CCircuit :=
  ltac:(let v := eval vm_compute in (vlookup exampleLinked (master_p exampleInverter)) in match v with Some ?y => exact y end).

Lemma nets_check l i x :
  forallb (fun o => match o with Some x => bool_decide (localToGlobalNetId_v x <> []) | None => true end) l = true ->
  vlookup l i = Some (Some x) -> localToGlobalNetId_v x <> [].
Proof.
  intros H Hx%Prelude.vlookup_lookup. rewrite forallb_forall in H.
  specialize (H (Some x) ltac:(apply list_elem_of_In; by eapply list_elem_of_lookup_2)). by apply bool_decide_eq_true in H.
Qed.
Lemma exampleState_nets : forall i x, filled exampleState i x -> localToGlobalNetId_v x <> [].
Proof. intros i x Hx. refine (nets_check _ i x _ Hx). vm_compute. reflexivity. Qed.

Lemma exampleState_powers : forall n, 0 <= n < flatNets exampleState ->
  exists a p, vlookup (replicate 11 (None : option Z)) n = Some a /\ pointee exampleHeap a = Ok p.
Proof.
  assert (flatNets exampleState = 11) as En by (vm_compute; reflexivity). intros n Hn. rewrite En in Hn.
  exists None, None. split; [by apply vlookup_replicate; lia | reflexivity].
Qed.


(** A relative name with ".." is not found: the printed path of the instance that is
    reached is shorter than the one the name is relative to, and the difference of
    their lengths wraps around.  "n" is found from instance 1. *)
Example FindNet_up :
  (FindNet (netlistOf exampleState) (cells exampleState) 1 "n", FindNet (netlistOf exampleState) (cells exampleState) 4 "../n")
  = (Ok 4, Ok UNKNOWN_NET).
Proof. vm_compute. reflexivity. Qed.

(** With merged instances the second buffer has no nets; a name in it is looked up in
    its empty vector, as only the instance the search starts from is tested. *)
Example FindNet_merged :
  match flattenAll 3 "top" exampleCells with
  | Ok st => FindNet (netlistOf st) (cells st) 0 "/X2/n"
  | Err e => Err e
  end = Err UndefinedBehaviour.
Proof. vm_compute. reflexivity. Qed.

End Paths.
