(* ===== verification/Search.v ===== *)
(** * Finding nets by patterns (CCvcDb_init.cc)

    A power definition names its nets by a path whose instances are names,
    patterns or circuits ("/X1/net", "/X*/net<3:0>", "*(cell)/net").
    [FindInstanceIds] follows the path and [FindUniqueNetIds] collects the nets.
    A text of the netlist is matched exactly, any other text is a pattern.

    [std::regex] is not modelled: [validRegex] tells whether a text is accepted
    and [regex_match] whether it matches.  [cdlText] holds the texts of the
    netlist, and [inside] is [IsSubcircuitOf]. *)

From S2P Require Import Prelude CvcTypes Power Text Db Model Hierarchy Counting Flatten PowerText Names Paths.
From stdpp Require Import base list strings gmap.
From Stdlib Require Import ZArith Lia Ascii.
#[local] Open Scope string_scope.
#[local] Open Scope list_scope.
#[local] Open Scope Z_scope.

Module Search.
Import Power.Power Text.Text Db.Db Names.Names.
Import Model.Model (FuzzyFilter).
Import PowerText.PowerText (lastOf, findChar).
Import Counting.Counting (FindCircuit).

Section Searches.
Context (validRegex : text -> bool) (regex_match : text -> text -> bool).
Context (cdlText : gset text) (nl : CNetlist) (cs : list CCircuit) (inside : Z -> Z -> outcome bool).

(** [regex mySearchPattern(FuzzyFilter(name))], [None] for a [regex_error]. *)
Definition searchPattern (name : text) : option text :=
  let p := FuzzyFilter validRegex name in if validRegex p then Some p else None.

(** A text of the netlist is compared, any other is a pattern. *)
Definition fitsName (name pattern x : text) : bool :=
  if bool_decide (name ∈ cdlText) then bool_decide (x = name) else regex_match pattern x.

(** ** Instances *)

(** The calls of a circuit, pushed in front of [found]. *)
Fixpoint matchingCalls (wanted : CSubcircuit -> bool) (myParentsFirstSubcircuitId k : Z) (l : list CSubcircuit) (found : list Z)
    : list Z :=
  match l with
  | [] => found
  | s :: l => matchingCalls wanted myParentsFirstSubcircuitId (k + 1) l
                (if wanted s then u32 (myParentsFirstSubcircuitId + k) :: found else found)
  end.

Fixpoint localSearch (wanted : CSubcircuit -> bool) (mySearchInstanceIdList found : list Z) : outcome (list Z) :=
  match mySearchInstanceIdList with
  | [] => Ok found
  | i :: l =>
      x ← instanceOf nl i;
      if IsParallelInstance x then localSearch wanted l found
      else c ← masterOf cs x; localSearch wanted l (matchingCalls wanted (firstSubcircuitId x) 0 (subcircuitPtr_v c) found)
  end.

(** [myFoundMatch] and the instances of the circuits with the name. *)
Definition globalSearch (name pattern : text) : bool * list Z :=
  match (if bool_decide (name ∈ cdlText) then FindCircuit cs name else None) ≫= vlookup cs with
  | Some c => (true, reverse (instanceId_v c))
  | None =>
      let l := foldl (fun l c => if regex_match pattern (circuitName c) then reverse (instanceId_v c) ++ l else l) [] cs in
      (negb (bool_decide (l = [])), l)
  end.

Definition isCircuitSearch (n : text) : bool :=
  bool_decide (takeText 2 n = "*(") && bool_decide (dropText (String.length n - 1) n = ")").

(** One name of the path; [None] ends the search with an error.  The name of the
    circuit is taken from the start of the whole path, as in the source. *)
Definition searchStep (theHierarchy n : text) (st : list Z * text) : outcome (option (list Z * text)) :=
  let '(l, myUnmatchedInstance) := st in
  if IsEmpty n then Ok (Some (0 :: l, myUnmatchedInstance))
  else if isCircuitSearch n then
    if negb (IsEmpty myUnmatchedInstance) then Ok None
    else
      myCellName ← substr theHierarchy 2 (u64 (size n - 3));
      match searchPattern myCellName with
      | None => Ok None
      | Some pattern =>
          '(myFoundMatch, l) ←
            (match l with
             | [] => Ok (globalSearch myCellName pattern)
             | _ => l ← localSearch (fun s => fitsName myCellName pattern (masterName s)) l [];
                    Ok (negb (bool_decide (l = [])), l)
             end);
          Ok (if myFoundMatch : bool then Some (l, myUnmatchedInstance) else None)
      end
  else if bool_decide (l = []) then Ok None
  else
    let myInstanceName := if IsEmpty myUnmatchedInstance then n else pathAppend myUnmatchedInstance n in
    match searchPattern myInstanceName with
    | None => Ok None
    | Some pattern =>
        new ← localSearch (fun s => fitsName myInstanceName pattern (subcircuitName s)) l [];
        Ok (Some (if bool_decide (new = []) then (l, myInstanceName) else (new, "")))
    end.

Fixpoint searchSteps (theHierarchy : text) (parts : list text) (st : list Z * text) : outcome (option (list Z * text)) :=
  match parts with
  | [] => Ok (Some st)
  | n :: parts =>
      r ← searchStep theHierarchy n st;
      match r with Some st => searchSteps theHierarchy parts st | None => Ok None end
  end.

(** Only the instances in the parent, in the opposite order. *)
Fixpoint insideParent (theParent : Z) (l found : list Z) : outcome (list Z) :=
  match l with
  | [] => Ok found
  | i :: l => b ← inside i theParent; insideParent theParent l (if b : bool then i :: found else found)
  end.

Definition FindInstanceIds (theHierarchy : text) (theParent : Z) : outcome (list Z) :=
  parts ← SplitHierarchy theHierarchy;
  r ← searchSteps theHierarchy parts ([], "");
  match r with
  | None => Ok []
  | Some (l, myUnmatchedInstance) =>
      l ← (if theParent =? 0 then Ok l else insideParent theParent l []);
      Ok (if IsEmpty myUnmatchedInstance then l else [])
  end.

(** ** Nets *)

(** [find_last_of("/", pos)]. *)
Definition lastSlash (s : text) (pos : Z) : Z := lastOf "/" 0 npos (takeText (Z.to_nat (Z.min (size s) (pos + 1))) s).

(** The loop over the ends of the path: the name of the signal and the instances. *)
Fixpoint placeLoop (fuel : nat) (thePowerSignal : text) (theParent mySearchEnd : Z) : outcome (text * list Z) :=
  match fuel with
  | O => throw OutOfFuel
  | S fuel =>
      let e := lastSlash thePowerSignal (u64 (mySearchEnd - 1)) in
      '(myInstanceName, mySignalName, e) ←
        (if size thePowerSignal <? e then Ok ("", thePowerSignal, 0)
         else a ← substr thePowerSignal 0 e; b ← substr thePowerSignal (e + 1) npos; Ok (a, b, e));
      l ← FindInstanceIds myInstanceName theParent;
      if bool_decide (l = []) && negb (bool_decide (myInstanceName = ""))
      then placeLoop fuel thePowerSignal theParent e
      else Ok (mySignalName, l)
  end.
Definition findPlace (thePowerSignal : text) (theParent : Z) : outcome (text * list Z) :=
  placeLoop (S (String.length thePowerSignal)) thePowerSignal theParent (size thePowerSignal).

(** Ports of the top circuit are named without a path, its other nets with one. *)
Definition isTopPlace (myCheckTopPort : bool) (i : Z) (c : CCircuit) (n : Z) : bool :=
  negb (myCheckTopPort && (i =? 0) && (portCount c <=? n)) && negb (negb myCheckTopPort && (i =? 0) && (n <? portCount c)).

(** The numbers of the signals of a circuit that are wanted. *)
Definition wantedSignals (name pattern : text) (c : CCircuit) : list Z :=
  if bool_decide (name ∈ cdlText) then option_list (localSignalId c name)
  else filter (fun k => match vlookup (signalName_v c) k with Some n => regex_match pattern n | None => false end = true)
         (seqZ 0 (Z.of_nat (length (signalName_v c)))).

Fixpoint globalNets (x : CInstance) (l : list Z) : outcome (list Z) :=
  match l with
  | [] => Ok []
  | k :: l => n ← vget (localToGlobalNetId_v x) k; ns ← globalNets x l; Ok (n :: ns)
  end.

Fixpoint signalNets (signals : CCircuit -> list Z) (myCheckTopPort : bool) (l : list Z) : outcome (list Z) :=
  match l with
  | [] => Ok []
  | i :: l =>
      x ← instanceOf nl i;
      if IsParallelInstance x then signalNets signals myCheckTopPort l
      else
        c ← masterOf cs x;
        ns ← globalNets x (signals c);
        rest ← signalNets signals myCheckTopPort l;
        Ok (filter (fun n => isTopPlace myCheckTopPort i c n = true) ns ++ rest)
  end.

(** [std::set::insert], the set as its increasing list. *)
Fixpoint setInsert (n : Z) (l : list Z) : list Z :=
  match l with
  | [] => [n]
  | m :: l' => if n <? m then n :: l else if n =? m then l else m :: setInsert n l'
  end.

(** The loop over the names of a bus; [None] for an exception. *)
Fixpoint namesLoop (myCheckTopPort : bool) (l : list Z) (names : list text) (myFoundNetMatch : bool) (nets : list Z)
    : outcome (option (bool * list Z)) :=
  match names with
  | [] => Ok (Some (myFoundNetMatch, nets))
  | n :: names =>
      match searchPattern n with
      | None => Ok None
      | Some pattern =>
          ns ← signalNets (wantedSignals n pattern) myCheckTopPort l;
          let found := myFoundNetMatch || negb (bool_decide (ns = [])) in
          if found then namesLoop myCheckTopPort l names found (foldr setInsert nets ns) else Ok None
      end
  end.

Definition FindUniqueNetIds (thePowerSignal : text) (theParent : Z) : outcome (list Z) :=
  '(mySignalName, l) ← findPlace thePowerSignal theParent;
  names ← ExpandBusNet mySignalName;
  r ← namesLoop (bool_decide (mySignalName = thePowerSignal)) l names false [];
  Ok (match r with Some (true, nets) => nets | _ => [] end).

(** [FindNetIds]: exact names only, in the opposite order and with repetitions. *)
Definition FindNetIds (thePowerSignal : text) (theParent : Z) : outcome (list Z) :=
  '(mySignalName, l) ← findPlace thePowerSignal theParent;
  if bool_decide (mySignalName ∈ cdlText) then
    ns ← signalNets (fun c => option_list (localSignalId c mySignalName)) (bool_decide (mySignalName = thePowerSignal)) l;
    Ok (reverse ns)
  else Ok [].
(** Without a parent the instances are not tested; the nets are increasing. *)
Lemma setInsert_sorted n l : Sorted.StronglySorted Z.lt l -> Sorted.StronglySorted Z.lt (setInsert n l).
Proof.
  assert (forall k x, x ∈ setInsert n k -> x = n \/ x ∈ k) as Hin.
  { induction k as [| m k IH]; cbn [setInsert]; intros x; [rewrite elem_of_cons; naive_solver |].
    destruct (n <? m); [| destruct (n =? m)]; rewrite ?elem_of_cons; naive_solver. }
  induction 1 as [| m l' Hs IH Hm]; [by repeat constructor |]. cbn [setInsert].
  destruct (Z.ltb_spec n m) as [Hlt | Hge]; [repeat constructor; try done; eapply Forall_impl; [done |]; cbn; intros; lia |].
  destruct (Z.eqb_spec n m) as [-> | Hne]; [by constructor |]. constructor; [done |]. apply Forall_forall. intros x Hx.
  destruct (Hin l' x Hx) as [-> | ?]; [lia |]. rewrite Forall_forall in Hm. by apply Hm.
Qed.

Lemma namesLoop_sorted checkTop l names : forall found nets b r, Sorted.StronglySorted Z.lt nets ->
  namesLoop checkTop l names found nets = Ok (Some (b, r)) -> Sorted.StronglySorted Z.lt r.
Proof.
  induction names as [| n names IH]; intros found nets b r Hs H; [by injection H as <- <- |]. cbn [namesLoop] in H.
  destruct (searchPattern n) as [pattern |]; [| done]. inv_ok H. destruct (_ || _); [| done]. eapply IH, H.
  assert (forall k, Sorted.StronglySorted Z.lt (foldr setInsert nets k)) as Hk; [| apply Hk].
  induction k as [| m k IHk]; [done |]. by apply setInsert_sorted.
Qed.

Lemma FindUniqueNetIds_sorted s theParent r : FindUniqueNetIds s theParent = Ok r -> Sorted.StronglySorted Z.lt r.
Proof.
  unfold FindUniqueNetIds. intros H. inv_ok H. destruct a as [name l]. inv_ok H. inv_ok H. injection H as <-.
  destruct a0 as [[[] nets] |]; [by eapply namesLoop_sorted; [constructor |] | constructor | constructor].
Qed.

(** ** Printed names

    Every name of the netlist is in [cdlText], so that it is compared exactly; the
    pattern that is built from it all the same is accepted. *)

Import Paths.Paths.
Import PowerText.PowerText (unbroken, searchFrom_past, substr_word).

Record searchable : Prop := mkSearchable {
  sr_named : named nl cs;
  sr_kept i x : vlookup (instancePtr_v nl) i = Some x -> IsParallelInstance x = false;
  sr_calls i x c s : Paths.at_ nl cs i x c -> s ∈ subcircuitPtr_v c ->
    subcircuitName s ∈ cdlText /\ is_Some (searchPattern (subcircuitName s));
  sr_signals i x c n : Paths.at_ nl cs i x c -> n ∈ signalName_v c ->
    n ∈ cdlText /\ is_Some (searchPattern n) /\ unbroken (charIn ":") n
}.
Context (HS : searchable).

Lemma component_size n : component n -> 0 < size n.
Proof. intros [H _]. destruct n; [done |]. unfold size. cbn [String.length]. lia. Qed.

Lemma splitLoop_path l : forall fuel a n, Forall component (n :: l) ->
  let s := String.append a (String.append n (joinPath l)) in size s < npos ->
  (length l < fuel)%nat -> splitLoop fuel s (size a) = Ok (n :: l).
Proof.
  induction l as [| m l IH]; intros fuel a n Hc s Hs Hf; destruct fuel as [| fuel]; try (cbn in Hf; lia);
    apply Forall_cons in Hc as [Hn Hc]; cbn [splitLoop]; unfold findChar;
    pose proof (component_size n Hn); pose proof (size_nonneg a).
  - unfold s in *. cbn [joinPath] in *. rewrite searchFrom_past;
      [| left; by destruct Hn | by apply component_eqb | done].
    rewrite (proj2 (Z.leb_gt npos _)) by lia. rewrite append_empty in *.
    rewrite substr_append; [done |]. rewrite size_append in Hs. lia.
  - assert (s = String.append a (String.append n (joinPath (m :: l)))) as Es by done.
    rewrite Es, searchFrom_past; [| left; by destruct Hn | by apply component_eqb | done]. cbn [joinPath].
    rewrite (proj2 (Z.leb_le _ _)) by (rewrite !size_append; pose proof (size_nonneg (String "/" (String.append m (joinPath l)))); lia).
    pose proof (substr_word a n (joinPath (m :: l)) Hs) as Ew. cbn [joinPath] in Ew. rewrite Ew. cbn [mbind outcome_bind].
    replace (size (String.append a n) + 1) with (size (String.append (String.append a n) "/")) by (by rewrite size_append).
    replace (String.append a (String.append n (String "/" (String.append m (joinPath l)))))
      with (String.append (String.append (String.append a n) "/") (String.append m (joinPath l))) by (by rewrite !append_assoc).
    rewrite IH; [done | done | | cbn in Hf; lia].
    unfold s in Hs. cbn [joinPath] in Hs. by rewrite !append_assoc.
Qed.

Lemma joinPath_length l : (length l <= String.length (joinPath l))%nat.
Proof. induction l as [| n l IH]; [done |]. cbn [joinPath length String.length]. rewrite append_length. lia. Qed.

Lemma SplitHierarchy_path l : Forall component l -> size (joinPath l) < npos -> SplitHierarchy (joinPath l) = Ok ("" :: l).
Proof.
  intros Hc Hs. destruct l as [| n l]; [reflexivity |]. unfold SplitHierarchy. cbn [joinPath] in *.
  rewrite bool_decide_true by done.
  pose proof (splitLoop_path l (S (String.length (String "/" (String.append n (joinPath l))))) "/" n Hc Hs) as E.
  change (size "/") with 1 in E. rewrite append_cons, append_nil in E. rewrite E; [done |].
  cbn [String.length]. rewrite append_length. pose proof (joinPath_length l). lia.
Qed.

(** Of calls with distinct names one has the name. *)
Lemma matchingCalls_none wanted f l : forall k found, Forall (fun s => wanted s = false) l ->
  matchingCalls wanted f k l found = found.
Proof.
  induction l as [| s l IH]; intros k found H; [done |]. apply Forall_cons in H as [Hs H]. cbn. rewrite Hs. by apply IH.
Qed.
Lemma matchingCalls_one name pattern f l : name ∈ cdlText -> NoDup (map subcircuitName l) ->
  forall j k s, l !! j = Some s -> subcircuitName s = name ->
  matchingCalls (fun s => fitsName name pattern (subcircuitName s)) f k l [] = [u32 (f + (k + Z.of_nat j))].
Proof.
  intros Hin. unfold fitsName. induction l as [| t l IH]; intros Hd j k s Hj Hs; [done |].
  apply NoDup_cons in Hd as [Hn Hd]. cbn [matchingCalls]. rewrite (bool_decide_true (name ∈ cdlText)) by done. destruct j as [| j].
  - injection Hj as ->. rewrite bool_decide_true by done. rewrite matchingCalls_none; [by rewrite Z.add_0_r |].
    apply Forall_forall. intros t Ht. apply bool_decide_eq_false. intros E. apply Hn. rewrite Hs, <- E.
    apply list_elem_of_In, in_map. by apply list_elem_of_In.
  - rewrite bool_decide_false.
    + rewrite bool_decide_true in IH by done. cbn in Hj. rewrite (IH Hd j (k + 1) s Hj Hs). do 2 f_equal. lia.
    + intros E. apply Hn. cbn in Hj. rewrite E, <- Hs. apply list_elem_of_In, in_map, list_elem_of_In.
      by eapply list_elem_of_lookup_2.
Qed.
Lemma localSearch_one i x c k s pattern : Paths.at_ nl cs i x c -> subcircuitPtr_v c !! k = Some s ->
  localSearch (fun t => fitsName (subcircuitName s) pattern (subcircuitName t)) [i] [] = Ok [firstSubcircuitId x + Z.of_nat k].
Proof.
  intros Ha Hk. destruct (nm_calls _ _ (sr_named HS) i x c Ha) as [Hd _].
  destruct (sr_calls HS i x c s Ha (list_elem_of_lookup_2 _ _ _ Hk)) as [Hin _]. cbn [localSearch]. unfold instanceOf, masterOf.
  rewrite (vget_at _ _ _ (proj1 Ha)). cbn [mbind outcome_bind]. rewrite (sr_kept HS i x (proj1 Ha)).
  rewrite (vget_at _ _ _ (proj2 Ha)). cbn [mbind outcome_bind].
  rewrite (matchingCalls_one _ _ _ _ Hin Hd k 0 s Hk eq_refl). by rewrite Z.add_0_l, (child_number nl cs (sr_named HS) i x c k s).
Qed.

Lemma component_search n : component n -> IsEmpty n = false /\ isCircuitSearch n = false.
Proof.
  intros H. split; [apply bool_decide_eq_false; by destruct H |]. unfold isCircuitSearch.
  destruct (bool_decide_reflect (takeText 2 n = "*(")) as [E |]; [| done]. pose proof (component_circuit n H) as Hu.
  destruct n as [| a [| b n]]; try discriminate E. injection E as -> ->. by specialize (Hu "("%char ltac:(right; left)).
Qed.

Lemma searchSteps_path theHierarchy i l j : below nl cs i l j -> searchSteps theHierarchy l ([i], "") = Ok (Some ([j], "")).
Proof.
  induction 1 as [i | i x c k s l j Ha Hk Hb IH]; [done |]. cbn [searchSteps].
  destruct (subcircuit_number nl cs (sr_named HS) i x c k s Ha Hk) as [_ Hcomp].
  destruct (component_search _ Hcomp) as [E1 E2]. unfold searchStep. rewrite E1, E2.
  rewrite bool_decide_false by done. change (IsEmpty "") with true. cbv match.
  destruct (sr_calls HS i x c s Ha (list_elem_of_lookup_2 _ _ _ Hk)) as [_ [pattern Ep]]. rewrite Ep.
  rewrite (localSearch_one i x c k s pattern Ha Hk). cbn [mbind outcome_bind]. by rewrite bool_decide_false.
Qed.

Lemma below_components i l j : below nl cs i l j -> Forall component l.
Proof.
  induction 1 as [| i x c k s l j Ha Hk Hb IH]; constructor; [| done].
  by destruct (subcircuit_number nl cs (sr_named HS) i x c k s Ha Hk).
Qed.

Lemma FindInstanceIds_path l i : below nl cs 0 l i -> size (joinPath l) < npos -> FindInstanceIds (joinPath l) 0 = Ok [i].
Proof.
  intros Hb Hs. unfold FindInstanceIds. rewrite SplitHierarchy_path by (done || by eapply below_components).
  cbn [mbind outcome_bind searchSteps searchStep]. change (IsEmpty "") with true. cbv match. cbn [mbind outcome_bind].
  by rewrite (searchSteps_path _ 0 l i Hb).
Qed.

(** The place of a printed name. *)
Lemma findPlace_path l i name : below nl cs 0 l i -> component name -> size (pathAppend (joinPath l) name) < npos ->
  findPlace (pathAppend (joinPath l) name) 0 = Ok (name, [i]).
Proof.
  intros Hb Hn Hs. pose proof (component_size name Hn). unfold findPlace. cbn [placeLoop]. set (t := pathAppend (joinPath l) name) in *.
  assert (size t = size (joinPath l) + (1 + size name)) as Et by (unfold t, pathAppend; rewrite size_append; unfold size; cbn [String.length]; lia).
  pose proof (size_nonneg (joinPath l)). unfold npos in Hs.
  assert (lastSlash t (u64 (size t - 1)) = size (joinPath l)) as El.
  { unfold lastSlash. rewrite u64_id by lia. rewrite Z.min_l by lia. unfold size at 1. rewrite Nat2Z.id.
    pose proof (takeText_append t "") as E. rewrite append_empty in E. rewrite E. unfold t, pathAppend.
    rewrite lastOf_last by (by apply component_eqb). lia. }
  rewrite El, (proj2 (Z.ltb_ge (size t) _)) by lia.
  replace (substr t 0 (size (joinPath l))) with (Ok (joinPath l)) by (symmetry; apply (substr_middle "" (joinPath l) (String "/" name))).
  cbn [mbind outcome_bind].
  replace (substr t (size (joinPath l) + 1) npos) with (Ok name); cycle 1.
  { symmetry. unfold t, pathAppend. replace (String.append (joinPath l) (String "/" name)) with (String.append (String.append (joinPath l) "/") name)
      by (by rewrite append_assoc).
    replace (size (joinPath l) + 1) with (size (String.append (joinPath l) "/")) by (by rewrite size_append).
    apply substr_append. unfold npos. lia. }
  cbn [mbind outcome_bind]. rewrite (FindInstanceIds_path l i Hb) by (unfold npos; lia). cbn [mbind outcome_bind].
  by rewrite bool_decide_false.
Qed.

Lemma findPlace_port name : component name -> size name < npos -> findPlace name 0 = Ok (name, [0]).
Proof.
  intros Hn Hs. pose proof (component_size name Hn). unfold findPlace. cbn [placeLoop]. unfold npos in Hs.
  assert (lastSlash name (u64 (size name - 1)) = npos) as El.
  { unfold lastSlash. rewrite u64_id by lia. rewrite Z.min_l by lia. unfold size at 1. rewrite Nat2Z.id.
    pose proof (takeText_append name "") as E. rewrite append_empty in E. rewrite E. by apply lastOf_none, component_eqb. }
  rewrite El, (proj2 (Z.ltb_lt (size name) npos)) by (unfold npos; lia). cbn [mbind outcome_bind].
  pose proof (FindInstanceIds_path [] 0 (below_here _ _ 0) ltac:(done)) as E. cbn [joinPath] in E. rewrite E. cbn [mbind outcome_bind].
  by rewrite bool_decide_false.
Qed.

Lemma ExpandBusNet_plain name : unbroken (charIn ":") name -> size name < npos -> ExpandBusNet name = Ok [name].
Proof.
  intros H Hs. unfold ExpandBusNet. destruct (busBegin name) as [b t].
  assert (find_first_of name ":" 0 = npos) as ->.
  { unfold find_first_of, searchFrom. destruct (size name <=? 0); [done |]. by apply PowerText.PowerText.firstFrom_all. }
  rewrite (proj2 (Z.ltb_ge npos (size name))) by lia. by rewrite andb_false_r.
Qed.
(** A net that instance [i] owns, searched by its name in the instance. *)
Lemma namesLoop_owned i x c k n name checkTop : Paths.at_ nl cs i x c -> owns nl i x c k n ->
  signalName_v c !! Z.to_nat k = Some name -> localSignalId c name = Some k -> isTopPlace checkTop i c n = true ->
  namesLoop checkTop [i] [name] false [] = Ok (Some (true, [n])).
Proof.
  intros Ha Ho Hname Hid Htop. destruct (sr_signals HS i x c name Ha (list_elem_of_lookup_2 _ _ _ Hname)) as (Hin & [pattern Ep] & _).
  cbn [namesLoop]. rewrite Ep. cbn [signalNets]. unfold instanceOf, masterOf.
  rewrite (vget_at _ _ _ (proj1 Ha)). cbn [mbind outcome_bind]. rewrite (sr_kept HS i x (proj1 Ha)).
  rewrite (vget_at _ _ _ (proj2 Ha)). cbn [mbind outcome_bind]. unfold wantedSignals. rewrite bool_decide_true, Hid by done.
  change (option_list (Some k)) with [k]. cbn [globalNets]. rewrite (vget_at _ _ _ (ow_net _ _ _ _ _ _ Ho)). cbn [mbind outcome_bind].
  rewrite filter_cons_True by done. reflexivity.
Qed.

Lemma FindUniqueNetIds_NetName h v i x c k n a p : Paths.at_ nl cs i x c -> owns nl i x c k n ->
  vlookup v n = Some a -> pointee h a = Ok p ->
  exists t, NetName nl cs h v false true n = Ok t /\ (size t < npos -> FindUniqueNetIds t 0 = Ok [n]).
Proof.
  intros Ha Ho Hv Hp.
  destruct (NetName_text nl cs (sr_named HS) h v i x c k n a p) as (l & name & Hname & Hcomp & Hid & Hb & _ & Et); try done.
  exists (if (i =? 0) && (n <? portCount c) then name else pathAppend (joinPath l) name). split; [exact Et |]. clear Et. intros Hs.
  destruct (sr_signals HS i x c name Ha (list_elem_of_lookup_2 _ _ _ Hname)) as (_ & _ & Hbus).
  unfold FindUniqueNetIds. revert Hs. destruct ((i =? 0) && (n <? portCount c)) eqn:Etop; intros Hs.
  - apply andb_true_iff in Etop as [->%Z.eqb_eq Hlt%Z.ltb_lt]. rewrite findPlace_port by done. cbn [mbind outcome_bind].
    rewrite ExpandBusNet_plain by done. cbn [mbind outcome_bind]. rewrite bool_decide_true by done.
    rewrite (namesLoop_owned 0 x c k n name true) by (done || unfold isTopPlace; cbn; by rewrite (proj2 (Z.leb_gt _ _))). done.
  - rewrite (findPlace_path l i name) by done. cbn [mbind outcome_bind].
    assert (size (pathAppend (joinPath l) name) = size (joinPath l) + (1 + size name)) as Esz
      by (unfold pathAppend; rewrite size_append; unfold size; cbn [String.length]; lia).
    pose proof (size_nonneg (joinPath l)). rewrite ExpandBusNet_plain by (done || lia). cbn [mbind outcome_bind].
    rewrite bool_decide_false by (intros E; rewrite <- E in Esz; lia).
    rewrite (namesLoop_owned i x c k n name false) by (done || unfold isTopPlace; cbn; by rewrite Etop). done.
Qed.
End Searches.

Lemma placeLoop_top validRegex regex_match cdlText nl cs inside inside' fuel s : forall e,
  placeLoop validRegex regex_match cdlText nl cs inside fuel s 0 e = placeLoop validRegex regex_match cdlText nl cs inside' fuel s 0 e.
Proof.
  induction fuel as [| fuel IH]; intros e; [done |]. cbn [placeLoop].
  destruct (if size s <? _ then _ else _) as [[[i n] e'] | f]; [| done]. cbn [mbind outcome_bind].
  change (FindInstanceIds validRegex regex_match cdlText nl cs inside i 0) with (FindInstanceIds validRegex regex_match cdlText nl cs inside' i 0).
  destruct (FindInstanceIds _ _ _ _ _ _ i 0); [| done]. cbn [mbind outcome_bind]. by rewrite IH.
Qed.
Lemma FindUniqueNetIds_top validRegex regex_match cdlText nl cs inside inside' s :
  FindUniqueNetIds validRegex regex_match cdlText nl cs inside s 0 = FindUniqueNetIds validRegex regex_match cdlText nl cs inside' s 0.
Proof. unfold FindUniqueNetIds, findPlace. by rewrite (placeLoop_top _ _ _ _ _ inside inside'). Qed.

(** ** The flattened hierarchy *)

Import Paths.Paths Hierarchy.Hierarchy Counting.Counting Flatten.Flatten.
Import PowerText.PowerText (unbroken).

Section Flattened.
Context (validRegex : text -> bool) (regex_match : text -> text -> bool) (cdlText : gset text) (inside : Z -> Z -> outcome bool).
Context (cs : list CCircuit) (rank : Z -> nat) (R : Z -> Prop) (limit : Z) (HU : unmerged cs rank R limit).
Context (st : flatState) (HF : flattened cs R st) (Hnames : Forall namedCircuit cs).
Context (Hsize : Z.of_nat (length (slots st)) < 2 ^ 32) (Hnets : flatNets st <= UNKNOWN_NET).

(** The names of a circuit are texts of the netlist, and the patterns made from them are
    accepted; signals are not buses. *)
Definition knownNames (c : CCircuit) : Prop :=
  (forall s, s ∈ subcircuitPtr_v c -> subcircuitName s ∈ cdlText /\ is_Some (searchPattern validRegex (subcircuitName s))) /\
  (forall n, n ∈ signalName_v c -> n ∈ cdlText /\ is_Some (searchPattern validRegex n) /\ unbroken (charIn ":") n).

Lemma flattened_searchable : Forall knownNames cs -> (forall i x, filled st i x -> localToGlobalNetId_v x <> []) ->
  searchable validRegex cdlText (netlistOf st) (cells st).
Proof.
  intros Hk Hn. assert (forall k c, vlookup cs k = Some c -> knownNames c) as Hkn.
  { intros k c Hc. apply (proj1 (Forall_forall _ _) Hk), (list_elem_of_lookup_2 _ (Z.to_nat k)). by apply Prelude.vlookup_lookup. }
  split.
  - by eapply flattened_named.
  - intros i x Hx. apply bool_decide_eq_false, (Hn i). by eapply instances_filled.
  - intros i x c s Ha Hs. destruct (at_filled cs R st HF i x c Ha) as (_ & c1 & Hc1 & E & _).
    rewrite E in Hs. by apply (Hkn _ _ Hc1).
  - intros i x c n Ha Hs. destruct (at_filled cs R st HF i x c Ha) as (_ & c1 & Hc1 & _ & E & _).
    rewrite E in Hs. by apply (Hkn _ _ Hc1).
Qed.

End Flattened.

(** The names of [exampleCells]. *)
Definition exampleTexts : gset text :=
  list_to_set (concat (map (fun c => circuitName c :: map subcircuitName (subcircuitPtr_v c) ++ signalName_v c) exampleLinked)).
Definition exampleFind (s : text) (theParent : Z) : outcome (list Z) :=
  FindUniqueNetIds (fun _ => true) (fun p n => bool_decide (p = n)) exampleTexts (netlistOf exampleState) (cells exampleState)
    (fun _ _ => Ok true) s theParent.

Definition isKnown (c : CCircuit) : bool :=
  forallb (fun s => bool_decide (subcircuitName s ∈ exampleTexts)) (subcircuitPtr_v c) &&
  forallb (fun n => bool_decide (n ∈ exampleTexts) && forallb (fun c => negb (charIn ":" c)) (String.list_ascii_of_string n)) (signalName_v c).
Lemma isKnown_spec cs : forallb isKnown cs = true -> Forall (knownNames (fun _ => true) exampleTexts) cs.
Proof.
  rewrite forallb_forall. intros H. apply Forall_forall. intros c Hc%list_elem_of_In%H. revert Hc. unfold isKnown, knownNames.
  rewrite andb_true_iff, !forallb_forall. intros [H1 H2]. split.
  - intros s Hs%list_elem_of_In%H1. apply bool_decide_eq_true in Hs. split; [done | by eexists].
  - intros n Hn%list_elem_of_In%H2. apply andb_true_iff in Hn as [Hn Hb]. apply bool_decide_eq_true in Hn.
    split_and!; [done | by eexists | by apply PowerText.PowerText.unbroken_check].
Qed.


(** All inverters at once; inside the first buffer the circuit is not found, as its name is
    cut from the start of the path: "/X1/*(inv)" searches the circuit "1/*". *)
Example circuit_search :
  (exampleFind "*(inv)/mid" 0, exampleFind "/X1/*(inv)/mid" 0, exampleFind "a" 0, exampleFind "/a" 0) =
  (Ok [5; 6; 8; 9; 10], Ok [], Ok [0], Ok []).
Proof. vm_compute. reflexivity. Qed.

(** A net that is not found is an error only as long as no bit before it was found. *)
Example missing_bit :
  let find s := FindUniqueNetIds (fun _ => true) (fun p n => bool_decide (p = n)) {["d<0>"; "d<2>"]}
                  (mkNetlist [mkInstance 0 1 0 0 [0; 1] 0 0 0] [] [] [] [] [] [] [] [] [] [] [] [] false [] ∅ 0 2 1 [0; 0])
                  [mkCircuit 0 "top" [] [] [] 2 1 [0] [] 2 [] true 0 0 0 ["d<0>"; "d<2>"]] (fun _ _ => Ok true) s 0 in
  (find "d<0:1>", find "d<1:0>") = (Ok [0], Ok []).
Proof. vm_compute. reflexivity. Qed.
End Search.
