(* ===== verification/ModePower.v ===== *)
(** * Power for a mode (CCvcDb_init.cc)

    [SetModePower] gives the nets of the netlist the powers of the power file: a
    definition goes to every net its signal names, the first as it is, the others
    as copies.  [SetInstancePower] does the same for the files of instances, whose
    power nets must already have a power in the parent and whose inputs become
    expected levels.  [SetExpectedPower] finds the nets of the expected levels.

    The names that are only printed are left out; of the reports remains the return
    code. *)

From S2P Require Import Prelude CvcTypes Power Text Db Model Flatten PowerText PowerFile Names Paths Search ExampleDb.
From stdpp Require Import base list strings gmap.
From Stdlib Require Import ZArith Lia Ascii.
#[local] Open Scope string_scope.
#[local] Open Scope list_scope.
#[local] Open Scope Z_scope.

Module ModePower.
Import Power.Power Text.Text Db.Db PowerText.PowerText Search.Search.
Import PowerFile.PowerFile (returnCode_t, OK, SKIP, CInstancePower, instanceName, powerList, expects).
Import Model.Model (voltageState).

Section Modes.
Context (validRegex : text -> bool) (regex_match : text -> text -> bool) (cdlText : gset text).

Definition insideOf (d : CCvcDb) (i theParent : Z) : outcome bool := '(b, _) ← IsSubcircuitOf i theParent d; Ok b.
Definition findNets (thePowerSignal : text) (theParent : Z) : DB (list Z) := fun d =>
  lift (FindUniqueNetIds validRegex regex_match cdlText (netlist d) (circuits d) (insideOf d) thePowerSignal theParent) d.
Definition findInstances (theHierarchy : text) : DB (list Z) := fun d =>
  lift (FindInstanceIds validRegex regex_match cdlText (netlist d) (circuits d) (insideOf d) theHierarchy 0) d.

(** ** [SetModePower] *)

(** A level the power [b] at the net lacks is taken from [p]; the result tells whether the
    levels differ. *)
Definition overrideLevel (level : CPower -> Z) (set : Z -> CPower -> CPower) (b : Z) (p q : CPower) : DB bool :=
  if level p =? UNKNOWN_VOLTAGE then mret false
  else if level q =? UNKNOWN_VOLTAGE then _ ← updateM (Some b) (set (level p)); mret false
  else mret (negb (level q =? level p)).

(** The assignments to [expectedMin()] and the others change a temporary. *)
Definition expectConflict (e : CPower -> text) (p q : CPower) : bool :=
  negb (bool_decide (e p = "")) && negb (bool_decide (e q = "")) && negb (bool_decide (e q = e p)).

Definition definitionConflict (b : Z) (p : CPower) : DB bool :=
  q ← derefM b;
  if bool_decide (definition p = definition q) then mret false
  else
    min ← overrideLevel minVoltage set_minVoltage b p q;
    sim ← overrideLevel simVoltage set_simVoltage b p q;
    max ← overrideLevel maxVoltage set_maxVoltage b p q;
    mret (expectConflict expectedMin p q || expectConflict expectedSim p q || expectConflict expectedMax p q
          || min || sim || max || negb (type p =? type q) || negb (bool_decide (family p = family q))).

Definition knownBit (v : Z) (n : Z) (b : netStatus_t) : DB unit :=
  if negb (v =? UNKNOWN_VOLTAGE) then setNetBit n b true else mret tt.

(** The power [a] at net [n]: whether there is a conflict, and the power used there, a copy
    when [a] already has a net. *)
Definition modeNet (a : Z) (isFirst : bool) (n : Z) : DB (bool * Z) :=
  p ← derefM a;
  myOtherPower ← powerAt n;
  myPowerConflict ← (match myOtherPower with Some b => definitionConflict b p | None => mret false end);
  a ← (if isFirst then _ ← updateM (Some a) (set_netId n); mret a else allocM (CPower_expand p n));
  _ ← (match myOtherPower with None => setPowerAt n (Some a) | Some _ => mret tt end);
  _ ← knownBit (minVoltage p) n MIN_POWER;
  _ ← knownBit (maxVoltage p) n MAX_POWER;
  _ ← knownBit (simVoltage p) n SIM_POWER;
  mret (myPowerConflict, a).

Fixpoint modeNets (a : Z) (isFirst : bool) (nets : list Z) : DB (bool * list Z) :=
  match nets with
  | [] => mret (false, [])
  | n :: nets =>
      '(e, a) ← modeNet a isFirst n;
      '(e', l) ← modeNets a false nets;
      mret (e || e', a :: l)
  end.

(** Whether there was an error, and the list with the copies after their original. *)
Fixpoint modePowers (l : list Z) : DB (bool * list Z) :=
  match l with
  | [] => mret (false, [])
  | a :: l =>
      p ← derefM a;
      nets ← findNets (powerSignal p) 0;
      '(e, new) ← modeNets a true nets;
      '(e', rest) ← modePowers l;
      mret (bool_decide (nets = []) || e || e', (if bool_decide (nets = []) then [a] else new) ++ rest)
  end.

Definition SetModePower : DB returnCode_t :=
  count ← nl netCount;
  _ ← modify (set_netVoltagePtr_v (ResetPowerPointerVector count));
  _ ← modify (set_netStatus_v (replicate (Z.to_nat count) 0));
  l ← gets cvcPowerPtrList;
  '(myPowerError, l) ← modePowers l;
  _ ← modify (set_cvcPowerPtrList l);
  mret (if myPowerError : bool then SKIP else OK).

(** ** [SetExpectedPower] *)

Definition voltageOf (s : text) : outcome Z := n ← String_to_Voltage s; fits (- 2 ^ 15) (2 ^ 15 - 1) n.

(** A net with another definition must have the expected simulation level. *)
Definition checkedElsewhere (p q : CPower) : outcome bool :=
  if bool_decide (definition p = definition q) || bool_decide (expectedSim p = "") then Ok true
  else if IsValidVoltage_ (expectedSim p) then v ← voltageOf (expectedSim p); Ok (simVoltage q =? v)
  else Ok false.

(** [None] for a conflict. *)
Definition expectedNet (a : Z) (isFirst : bool) (n : Z) : DB (option Z) :=
  p ← derefM a;
  o ← powerAt n;
  q ← pointeeM o;
  b ← (match q with Some q => lift (checkedElsewhere p q) | None => mret true end);
  if b : bool then
    if isFirst then _ ← updateM (Some a) (set_netId n); mret (Some a)
    else c ← allocM (CPower_expand p n); mret (Some c)
  else mret None.

Fixpoint expectedNets (a : Z) (isFirst : bool) (nets : list Z) : DB (bool * list Z) :=
  match nets with
  | [] => mret (false, [])
  | n :: nets =>
      r ← expectedNet a isFirst n;
      match r with
      | Some c => '(e, l) ← expectedNets c false nets; mret (e, if isFirst then l else c :: l)
      | None => '(_, l) ← expectedNets a false nets; mret (true, l)
      end
  end.

Fixpoint expectedPowers (l : list Z) : DB (bool * list Z) :=
  match l with
  | [] => mret (false, [])
  | a :: l =>
      p ← derefM a;
      nets ← (if netId p =? UNKNOWN_NET then findNets (powerSignal p) 0 else mret [netId p]);
      '(e, new) ← expectedNets a true nets;
      '(e', rest) ← expectedPowers l;
      mret (bool_decide (nets = []) || e || e', a :: new ++ rest)
  end.

Definition SetExpectedPower (cvcExpectedLevelPtrList : list Z) : DB (returnCode_t * list Z) :=
  '(myPowerError, l) ← expectedPowers cvcExpectedLevelPtrList;
  mret (if myPowerError : bool then SKIP else OK, l).

(** ** [SetInstancePower] *)

(** [myLocalMacroPtrMap], the models, [cvcExpectedLevelPtrList] and [myPowerError].  The macros
    are copies of powers that nothing changes meanwhile. *)
Record instanceState : Type := mkInstanceState {
  localMacros : gmap text CPower;
  instanceVoltages : voltageState;
  expectedLevels : list Z;
  instanceError : bool
}.
Definition set_localMacros (m : gmap text CPower) (st : instanceState) : instanceState :=
  mkInstanceState m (instanceVoltages st) (expectedLevels st) (instanceError st).
Definition set_instanceVoltages (v : voltageState) (st : instanceState) : instanceState :=
  mkInstanceState (localMacros st) v (expectedLevels st) (instanceError st).
Definition addExpected (a : Z) (st : instanceState) : instanceState :=
  mkInstanceState (localMacros st) (instanceVoltages st) (expectedLevels st ++ [a]) (instanceError st).
Definition instanceFails (st : instanceState) : instanceState :=
  mkInstanceState (localMacros st) (instanceVoltages st) (expectedLevels st) true.

(** The levels of an input are expected; [expectInput] is the power after the first three tests. *)
Definition expectInput (p : CPower) : CPower :=
  let level v (set : text -> CExtraPowerData -> CExtraPowerData) x := if v =? UNKNOWN_VOLTAGE then x else set (printVolts v) x in
  withExtra (fun x => level (maxVoltage p) setExpectedMax (level (simVoltage p) setExpectedSim
                        (level (minVoltage p) setExpectedMin x))) p.
Definition expectedOnly (p : CPower) : CPower :=
  let p := set_typeBit INPUT_BIT false (set_maxVoltage UNKNOWN_VOLTAGE (set_simVoltage UNKNOWN_VOLTAGE
             (set_minVoltage UNKNOWN_VOLTAGE p))) in
  set_definition (StandardDefinition p) p.

Definition instanceNet (myOriginalPower : text) (a : Z) (isFirst : bool) (n : Z) (st : instanceState) : DB (Z * instanceState) :=
  myNetId ← GetEquivalentNet n;
  p ← derefM a;
  a ← (if isFirst then _ ← updateM (Some a) (set_netId myNetId); mret a else allocM (CPower_expand p myNetId));
  p ← derefM a;
  o ← powerAt myNetId;
  q ← pointeeM o;
  if typeBit p POWER_BIT && isalpha (firstChar myOriginalPower) then
    mret (a, match q with
             | Some q => if typeBit q POWER_BIT then set_localMacros (<[myOriginalPower := q]> (localMacros st)) st
                         else instanceFails st
             | None => instanceFails st
             end)
  else if typeBit p INPUT_BIT then
    let p := expectInput p in
    if expects p then _ ← updateM (Some a) (fun _ => expectedOnly p); mret (a, addExpected a st)
    else _ ← updateM (Some a) (fun _ => p); mret (a, st)
  else
    match o with
    | Some _ => mret (a, st)
    | None =>
        _ ← modify (fun d => set_cvcPowerPtrList (cvcPowerPtrList d ++ [a]) d);
        _ ← setPowerAt myNetId (Some a);
        mret (a, st)
    end.

Fixpoint instanceNets (myOriginalPower : text) (a : Z) (isFirst : bool) (nets : list Z) (st : instanceState)
    : DB instanceState :=
  match nets with
  | [] => mret st
  | n :: nets => '(a, st) ← instanceNet myOriginalPower a isFirst n st; instanceNets myOriginalPower a false nets st
  end.

(** The name of a signal in the netlist. *)
Definition instanceSignal (path myOriginalPower : text) : text :=
  if bool_decide (takeText 1 myOriginalPower = "/") then String.append path myOriginalPower
  else if bool_decide (takeText 2 myOriginalPower = "*(") then myOriginalPower
  else Names.Names.pathAppend path myOriginalPower.

Section Instances.
Context (fuel : nat) (cvcPowerMacroPtrMap : gmap text CPower).

Definition instanceLine (i : Z) (line : text) (st : instanceState) : DB instanceState :=
  count ← gets (fun d => powerCount (powers d));
  '(p, v) ← lift (CPower_text (fun k => localMacros st !! k) fuel line count (instanceVoltages st));
  a ← allocM (fun _ => p);
  path ← (fun d => lift (Names.Names.HierarchyName (netlist d) (circuits d) false true i) d);
  let myOriginalPower := powerSignal p in
  let signal := instanceSignal path myOriginalPower in
  _ ← updateM (Some a) (withExtra (setPowerSignal signal));
  nets ← findNets signal i;
  instanceNets myOriginalPower a true nets (set_instanceVoltages v st).

Fixpoint instanceLines (i : Z) (lines : list text) (st : instanceState) : DB instanceState :=
  match lines with
  | [] => mret st
  | l :: lines => st ← instanceLine i l st; instanceLines i lines st
  end.

(** Macros of the top are those that name no net. *)
Fixpoint topMacros (l : list (text * CPower)) : DB (gmap text CPower) :=
  match l with
  | [] => mret ∅
  | (name, p) :: l =>
      n ← (fun d => lift (Names.Names.FindNet (netlist d) (circuits d) 0 name) d);
      m ← topMacros l;
      mret (if n =? UNKNOWN_NET then <[name := p]> m else m)
  end.

Fixpoint instanceIds (lines : list text) (ids : list Z) (st : instanceState) : DB instanceState :=
  match ids with
  | [] => mret st
  | i :: ids =>
      m ← topMacros (map_to_list cvcPowerMacroPtrMap);
      st ← instanceLines i lines (set_localMacros m st);
      instanceIds lines ids st
  end.

Fixpoint instancePowers (l : list CInstancePower) (st : instanceState) : DB instanceState :=
  match l with
  | [] => mret st
  | x :: l =>
      ids ← findInstances (instanceName x);
      st ← instanceIds (powerList x) ids st;
      instancePowers l st
  end.

Definition SetInstancePower (cvcInstancePowerPtrList : list CInstancePower) (cvcExpectedLevelPtrList : list Z) (v : voltageState)
    : DB (returnCode_t * list Z * voltageState) :=
  st ← instancePowers cvcInstancePowerPtrList (mkInstanceState ∅ v cvcExpectedLevelPtrList false);
  mret (if instanceError st then SKIP else OK, expectedLevels st, instanceVoltages st).
End Instances.
End Modes.

(** ** What [SetModePower] leaves at a net *)

(** The three levels of a power, with their bit of the net status. *)
Inductive sample : Set := Min | Sim | Max.
Definition level (s : sample) : CPower -> Z := match s with Min => minVoltage | Sim => simVoltage | Max => maxVoltage end.
Definition levelBit (s : sample) : netStatus_t := match s with Min => MIN_POWER | Sim => SIM_POWER | Max => MAX_POWER end.

(** The first known level of a list of definitions. *)
Fixpoint firstKnown (s : sample) (ps : list CPower) : Z :=
  match ps with
  | [] => UNKNOWN_VOLTAGE
  | p :: ps => if level s p =? UNKNOWN_VOLTAGE then firstKnown s ps else level s p
  end.

Lemma firstKnown_snoc s ps p : firstKnown s (ps ++ [p]) = if firstKnown s ps =? UNKNOWN_VOLTAGE then level s p else firstKnown s ps.
Proof.
  induction ps as [| q ps IH]; cbn [app firstKnown].
  - destruct (Z.eqb_spec (level s p) UNKNOWN_VOLTAGE) as [-> |]; by rewrite Z.eqb_refl.
  - rewrite IH. by destruct (Z.eqb_spec (level s q) UNKNOWN_VOLTAGE) as [| Hn%Z.eqb_neq]; [| rewrite Hn].
Qed.

(** [p] does not contradict [q]. *)
Definition agrees (p q : CPower) : Prop :=
  type p = type q /\ family p = family q /\ forall s, level s p <> UNKNOWN_VOLTAGE -> level s q = level s p.

(** Equal texts define equal powers. *)
Definition sameText (ps : list CPower) : Prop := forall p q, p ∈ ps -> q ∈ ps -> definition p = definition q ->
  type p = type q /\ family p = family q /\ forall s, level s p = level s q.

Lemma set_powers_same d : set_powers (powers d) d = d.
Proof. by destruct d. Qed.

Lemma powers_set h d : powers (set_powers h d) = h.
Proof. by destruct d. Qed.
Lemma set_powers_twice h h' d : set_powers h (set_powers h' d) = set_powers h d.
Proof. by destruct d. Qed.

(** [q] with the levels it lacks. *)
Definition pick (s : sample) (p q r : CPower) : CPower :=
  if level s p =? UNKNOWN_VOLTAGE then r
  else if level s q =? UNKNOWN_VOLTAGE then
    match s with Min => set_minVoltage | Sim => set_simVoltage | Max => set_maxVoltage end (level s p) r
  else r.
Definition fill (p q : CPower) : CPower := pick Max p q (pick Sim p q (pick Min p q q)).

Lemma fill_level s p q : level s (fill p q) = if level s q =? UNKNOWN_VOLTAGE then level s p else level s q.
Proof.
  unfold fill, pick.
  destruct s; cbn [level];
    destruct (Z.eqb_spec (minVoltage p) UNKNOWN_VOLTAGE), (Z.eqb_spec (simVoltage p) UNKNOWN_VOLTAGE),
      (Z.eqb_spec (maxVoltage p) UNKNOWN_VOLTAGE), (Z.eqb_spec (minVoltage q) UNKNOWN_VOLTAGE),
      (Z.eqb_spec (simVoltage q) UNKNOWN_VOLTAGE), (Z.eqb_spec (maxVoltage q) UNKNOWN_VOLTAGE); destruct q; cbn in *; congruence.
Qed.
Lemma pick_fields s p q r : netId (pick s p q r) = netId r /\ definition (pick s p q r) = definition r /\
  type (pick s p q r) = type r /\ family (pick s p q r) = family r.
Proof. unfold pick. destruct (level s p =? UNKNOWN_VOLTAGE), (level s q =? UNKNOWN_VOLTAGE); try done. by destruct s, r. Qed.
Lemma fill_fields p q : netId (fill p q) = netId q /\ definition (fill p q) = definition q /\ type (fill p q) = type q /\
  family (fill p q) = family q.
Proof.
  unfold fill. destruct (pick_fields Max p q (pick Sim p q (pick Min p q q))) as (-> & -> & -> & ->).
  destruct (pick_fields Sim p q (pick Min p q q)) as (-> & -> & -> & ->). apply pick_fields.
Qed.

Definition setLevel (s : sample) : Z -> CPower -> CPower :=
  match s with Min => set_minVoltage | Sim => set_simVoltage | Max => set_maxVoltage end.

Lemma overrideLevel_run s b p q r d : cells (powers d) !! b = Some r ->
  exists e h, overrideLevel (level s) (setLevel s) b p q d = Ok (e, set_powers h d) /\
    cells h = <[b := pick s p q r]> (cells (powers d)) /\ nextAddress h = nextAddress (powers d) /\
    (e = false -> level s p <> UNKNOWN_VOLTAGE -> level s q <> UNKNOWN_VOLTAGE -> level s q = level s p).
Proof.
  intros Hr. unfold overrideLevel, pick. destruct (Z.eqb_spec (level s p) UNKNOWN_VOLTAGE) as [Ep | Ep].
  { exists false, (powers d). rewrite set_powers_same, insert_id by done. done. }
  destruct (Z.eqb_spec (level s q) UNKNOWN_VOLTAGE) as [Eq | Eq].
  - exists false, (store (powers d) b (setLevel s (level s p) r)). split_and!; [| by destruct s | done | done].
    unfold updateM, mbind, M_bind. rewrite (update_deref _ _ _ r) by (unfold deref; by rewrite Hr). done.
  - exists (negb (level s q =? level s p)), (powers d). rewrite set_powers_same, insert_id by done.
    split_and!; [done | done | done |]. intros E%negb_false_iff%Z.eqb_eq _ _. done.
Qed.
Lemma definitionConflict_run b p q d : cells (powers d) !! b = Some q ->
  exists e h, definitionConflict b p d = Ok (e, set_powers h d) /\
    cells h = <[b := if bool_decide (definition p = definition q) then q else fill p q]> (cells (powers d)) /\
    nextAddress h = nextAddress (powers d) /\
    (e = false -> definition p <> definition q -> agrees p (fill p q)).
Proof.
  intros Hq. unfold definitionConflict. rewrite (M_run (derefM b) _ _ q d) by (unfold derefM, deref, lift; by rewrite Hq).
  case_bool_decide as Ed.
  { exists false, (powers d). rewrite set_powers_same, insert_id by done. done. }
  destruct (overrideLevel_run Min b p q q d Hq) as (e1 & h1 & E1 & C1 & N1 & A1).
  rewrite (M_run _ _ _ _ _ E1).
  destruct (overrideLevel_run Sim b p q (pick Min p q q) (set_powers h1 d)) as (e2 & h2 & E2 & C2 & N2 & A2);
    [by rewrite powers_set, C1, lookup_insert_eq |]. rewrite (M_run _ _ _ _ _ E2).
  destruct (overrideLevel_run Max b p q (pick Sim p q (pick Min p q q)) (set_powers h2 (set_powers h1 d))) as (e3 & h3 & E3 & C3 & N3 & A3);
    [by rewrite powers_set, C2, lookup_insert_eq |]. rewrite (M_run _ _ _ _ _ E3).
  rewrite !powers_set in C2, C3, N2, N3. rewrite !set_powers_twice. eexists _, h3. split_and!; [reflexivity | | congruence |].
  - rewrite C3, C2, C1, !insert_insert_eq. done.
  - intros He _. apply orb_false_iff in He as [He Ef]. apply orb_false_iff in He as [He Et].
    apply orb_false_iff in He as [He ->]. apply orb_false_iff in He as [He ->]. apply orb_false_iff in He as [_ ->].
    apply negb_false_iff, bool_decide_eq_true in Ef. apply negb_false_iff, Z.eqb_eq in Et.
    destruct (fill_fields p q) as (_ & _ & F1 & F2). split_and!; [congruence | congruence |]. intros s Hs.
    rewrite fill_level. destruct (Z.eqb_spec (level s q) UNKNOWN_VOLTAGE) as [| Hn]; [done |]. destruct s; auto.
Qed.

(** ** The invariant *)

(** The definitions of net [n] among those done. *)
Definition defsOf (n : Z) (done : list (CPower * Z)) : list CPower := map fst (filter (fun x => x.2 = n) done).

Lemma defsOf_snoc n done p m : defsOf n (done ++ [(p, m)]) = if bool_decide (m = n) then defsOf n done ++ [p] else defsOf n done.
Proof. unfold defsOf. rewrite filter_app, map_app, filter_cons, filter_nil. cbn. case_decide; case_bool_decide; (done || by rewrite app_nil_r). Qed.

(** The power at a net with the definitions [p0 :: ps]. *)
Record merged (n : Z) (p0 : CPower) (ps : list CPower) (q : CPower) (status : Z) : Prop := mkMerged {
  mg_net : netId q = n;
  mg_text : definition q = definition p0 /\ type q = type p0 /\ family q = family p0;
  mg_level s : level s q = firstKnown s (p0 :: ps);
  mg_bit s : status_get status (netBit (levelBit s)) = negb (level s q =? UNKNOWN_VOLTAGE)
}.

Definition netState (d : CCvcDb) (n : Z) (ps : list CPower) (ok : bool) : Prop :=
  match ps with
  | [] => vlookup (netVoltagePtr_v d) n = Some None /\ vlookup (netStatus_v d) n = Some 0
  | p0 :: ps => exists b q status, vlookup (netVoltagePtr_v d) n = Some (Some b) /\ cells (powers d) !! b = Some q /\
      vlookup (netStatus_v d) n = Some status /\ merged n p0 ps q status /\
      (ok = true -> forall p, p ∈ p0 :: ps -> agrees p q)
  end.

(** [done] are the definitions and nets handled so far, without an error if [ok]; the powers
    [todo] are as in the heap [h0] and not yet at a net. *)
Record placed (d0 : CCvcDb) (todo : list Z) (done : list (CPower * Z)) (ok : bool) (d : CCvcDb) : Prop := mkPlaced {
  pl_netlist : netlist d = netlist d0 /\ circuits d = circuits d0;
  pl_nets n : 0 <= n < netCount (netlist d0) -> netState d n (defsOf n done) ok;
  pl_length : Z.of_nat (length (netVoltagePtr_v d)) = netCount (netlist d0) /\
    Z.of_nat (length (netStatus_v d)) = netCount (netlist d0);
  pl_fresh a : is_Some (cells (powers d) !! a) -> a < nextAddress (powers d);
  pl_todo a : a ∈ todo -> cells (powers d) !! a = cells (powers d0) !! a /\ is_Some (cells (powers d) !! a);
  pl_apart n b : vlookup (netVoltagePtr_v d) n = Some (Some b) -> b ∉ todo /\ is_Some (cells (powers d) !! b)
}.
(** What [modeNet] changes. *)
Definition rewritten (d : CCvcDb) (h : powerHeap) (v : CPowerPtrVector) (st : list Z) : CCvcDb :=
  set_netStatus_v st (set_netVoltagePtr_v v (set_powers h d)).
Lemma rewritten_fields d h v st : netlist (rewritten d h v st) = netlist d /\ circuits (rewritten d h v st) = circuits d /\
  powers (rewritten d h v st) = h /\ netVoltagePtr_v (rewritten d h v st) = v /\ netStatus_v (rewritten d h v st) = st.
Proof. by destruct d. Qed.
Lemma rewritten_same d : rewritten d (powers d) (netVoltagePtr_v d) (netStatus_v d) = d.
Proof. by destruct d. Qed.
Lemma rewritten_powers d h v st h' : set_powers h' (rewritten d h v st) = rewritten d h' v st.
Proof. by destruct d. Qed.

Lemma vupdate_id {A} (v : list A) i x : vlookup v i = Some x -> vupdate v i x = v.
Proof. intros H%Prelude.vlookup_lookup. unfold vupdate. destruct (in_range v i); [by apply list_insert_id | done]. Qed.

Lemma knownBit_run d h v st w n s bit : vlookup st n = Some s ->
  knownBit w n bit (rewritten d h v st) =
  Ok (tt, rewritten d h v (vupdate st n (if negb (w =? UNKNOWN_VOLTAGE) then status_set s (netBit bit) true else s))).
Proof.
  intros Hs. unfold knownBit. destruct (negb (w =? UNKNOWN_VOLTAGE)).
  - unfold setNetBit, at_, mbind, M_bind, lift. destruct (rewritten_fields d h v st) as (_ & _ & _ & _ & ->).
    rewrite (proj2 (vget_Ok _ _ _) Hs). unfold modify. destruct (rewritten_fields d h v st) as (_ & _ & _ & _ & ->). by destruct d.
  - rewrite vupdate_id by done. done.
Qed.

Lemma netBit_levels s s' : netBit (levelBit s) = netBit (levelBit s') <-> s = s'.
Proof. by destruct s, s'; split. Qed.

(** The three status bits of a net. *)
Lemma knownBits_run d h v st p n s : vlookup st n = Some s -> exists s',
  (forall B (f : DB B), (_ ← knownBit (minVoltage p) n MIN_POWER; _ ← knownBit (maxVoltage p) n MAX_POWER;
     _ ← knownBit (simVoltage p) n SIM_POWER; f) (rewritten d h v st) = f (rewritten d h v (vupdate st n s'))) /\
  forall x, status_get s' (netBit (levelBit x)) = status_get s (netBit (levelBit x)) || negb (level x p =? UNKNOWN_VOLTAGE).
Proof.
  intros Hs. pose proof (vlookup_range _ _ _ Hs) as Hr. eexists. split.
  { intros B f. rewrite (M_run _ _ _ _ _ (knownBit_run d h v st (minVoltage p) n s MIN_POWER Hs)). cbv beta.
    set (s1 := if negb (minVoltage p =? UNKNOWN_VOLTAGE) then _ else _).
    rewrite (M_run _ _ _ _ _ (knownBit_run d h v _ (maxVoltage p) n s1 MAX_POWER (vlookup_vupdate_eq _ _ _ Hr))). cbv beta.
    set (s2 := if negb (maxVoltage p =? UNKNOWN_VOLTAGE) then _ else _). rewrite vupdate_vupdate.
    rewrite (M_run _ _ _ _ _ (knownBit_run d h v _ (simVoltage p) n s2 SIM_POWER (vlookup_vupdate_eq _ _ _ Hr))), vupdate_vupdate.
    subst s2 s1. reflexivity. }
  intros []; cbn [level levelBit];
    destruct (minVoltage p =? UNKNOWN_VOLTAGE), (maxVoltage p =? UNKNOWN_VOLTAGE), (simVoltage p =? UNKNOWN_VOLTAGE); cbn [negb];
    rewrite ?status_get_set, ?orb_false_r, ?orb_true_r by done; reflexivity.
Qed.
(** [p'] is [p] or a copy of it. *)
Definition copyOf (p p' : CPower) : Prop :=
  definition p' = definition p /\ type p' = type p /\ family p' = family p /\ forall s, level s p' = level s p.

Lemma copyOf_expand p p' n id : copyOf p p' -> copyOf p (CPower_expand p' n id) /\ netId (CPower_expand p' n id) = n.
Proof. intros (H1 & H2 & H3 & H4). split; [| done]. split_and!; [done | done | | intros []; apply (H4 Min) || apply (H4 Sim) || apply (H4 Max)].
  rewrite <- H3. unfold family, extra. cbn. by destruct (extraData p'). Qed.
Lemma copyOf_net p p' n : copyOf p p' -> copyOf p (set_netId n p') /\ netId (set_netId n p') = n.
Proof. intros (H1 & H2 & H3 & H4). destruct p'. split; [| done]. split_and!; [done .. | intros []; apply (H4 Min) || apply (H4 Sim) || apply (H4 Max)]. Qed.

(** The power used at the net: [a] itself for its first net, else a new copy. *)
Lemma usePower_run d h v st a p p' isFirst n : cells h !! a = Some p' -> copyOf p p' ->
  exists a' h' p'', (if isFirst : bool then _ ← updateM (Some a) (set_netId n); mret a else allocM (CPower_expand p' n)) (rewritten d h v st)
    = Ok (a', rewritten d h' v st) /\
  cells h' = <[a' := p'']> (cells h) /\ copyOf p p'' /\ netId p'' = n /\
  (if isFirst then a' = a /\ nextAddress h' = nextAddress h else a' = nextAddress h /\ nextAddress h' = nextAddress h + 1).
Proof.
  intros Ha Hc. destruct (rewritten_fields d h v st) as (_ & _ & Ep & _). destruct isFirst.
  - exists a, (store h a (set_netId n p')), (set_netId n p'). unfold updateM, mbind, M_bind.
    rewrite Ep, (update_deref _ _ _ p') by (unfold deref; by rewrite Ha). rewrite rewritten_powers.
    destruct (copyOf_net p p' n Hc). done.
  - destruct (copyOf_expand p p' n (powerCount h) Hc) as [H1 H2]. unfold allocM. rewrite Ep. cbn [alloc]. rewrite rewritten_powers.
    eexists _, _, _. split; [reflexivity |]. done.
Qed.

Lemma setPowerAt_run d h v st n a : 0 <= n < Z.of_nat (length v) ->
  setPowerAt n a (rewritten d h v st) = Ok (tt, rewritten d h (vupdate v n a) st).
Proof.
  intros Hn. unfold setPowerAt. destruct (rewritten_fields d h v st) as (_ & _ & _ & -> & _).
  rewrite vset_in_range by done. by destruct d.
Qed.
(** The power already at the net after a definition [p]. *)
Definition afterConflict (p q : CPower) : CPower := if bool_decide (definition p = definition q) then q else fill p q.
Definition otherCells (o : option Z) (p : CPower) (m : gmap Z CPower) : gmap Z CPower :=
  match o with
  | Some b => match m !! b with Some q => <[b := afterConflict p q]> m | None => m end
  | None => m
  end.

Lemma afterConflict_copy p p' q : copyOf p p' -> afterConflict p' q = afterConflict p q.
Proof.
  intros (H1 & _ & _ & H2). unfold afterConflict, fill, pick. by rewrite H1, !H2.
Qed.
Lemma agrees_copy p p' q : copyOf p p' -> agrees p' q -> agrees p q.
Proof.
  intros (_ & H1 & H2 & H3) (A1 & A2 & A3). split_and!; [congruence | congruence |]. intros s. rewrite <- H3. apply A3.
Qed.

Lemma modeNet_effect d a p p' isFirst n o s :
  cells (powers d) !! a = Some p' -> copyOf p p' -> vlookup (netVoltagePtr_v d) n = Some o -> vlookup (netStatus_v d) n = Some s ->
  (forall b, o = Some b -> is_Some (cells (powers d) !! b)) ->
  exists e a' h p'' s', modeNet a isFirst n d = Ok ((e, a'),
      rewritten d h (match o with Some _ => netVoltagePtr_v d | None => vupdate (netVoltagePtr_v d) n (Some a') end) (vupdate (netStatus_v d) n s')) /\
    cells h = <[a' := p'']> (otherCells o p (cells (powers d))) /\ copyOf p p'' /\ netId p'' = n /\
    (if isFirst then a' = a /\ nextAddress h = nextAddress (powers d)
     else a' = nextAddress (powers d) /\ nextAddress h = nextAddress (powers d) + 1) /\
    (forall x, status_get s' (netBit (levelBit x)) = status_get s (netBit (levelBit x)) || negb (level x p =? UNKNOWN_VOLTAGE)) /\
    (e = false -> forall b q, o = Some b -> cells (powers d) !! b = Some q -> definition p <> definition q -> agrees p (fill p q)).
Proof.
  intros Ha Hc Ho Hs Hb. unfold modeNet.
  rewrite (M_run (derefM a) _ _ p' d) by (unfold derefM, deref, lift; by rewrite Ha).
  rewrite (M_run (powerAt n) _ _ o d) by (unfold powerAt, at_, lift; by rewrite (proj2 (vget_Ok _ _ _) Ho)).
  assert (exists e h1, (match o with Some b => definitionConflict b p' | None => mret false end) d = Ok (e, set_powers h1 d) /\
    cells h1 = otherCells o p (cells (powers d)) /\ nextAddress h1 = nextAddress (powers d) /\ cells h1 !! a = Some p' /\
    (e = false -> forall b q, o = Some b -> cells (powers d) !! b = Some q -> definition p <> definition q -> agrees p (fill p q)))
    as (e & h1 & E1 & C1 & N1 & A1 & G1).
  { destruct o as [b |].
    - destruct (Hb b eq_refl) as [q Hq]. destruct (definitionConflict_run b p' q d Hq) as (e & h1 & E1 & C1 & N1 & G1).
      assert (cells h1 = <[b := afterConflict p q]> (cells (powers d))) as C2
        by (rewrite C1; f_equal; exact (afterConflict_copy p p' q Hc)).
      exists e, h1. cbn [otherCells]. rewrite Hq. split_and!; [done | done | done | |].
      { rewrite C2. destruct (decide (b = a)) as [-> | Hne]; [| by rewrite lookup_insert_ne]. rewrite lookup_insert_eq.
        assert (q = p') as -> by congruence. unfold afterConflict. rewrite bool_decide_true; [done | by destruct Hc]. }
      intros He b' q' [= <-] Hq' Hd. replace q' with q in * by congruence.
      assert (fill p q = fill p' q) as -> by (unfold fill, pick; destruct Hc as (_ & _ & _ & H2); by rewrite !H2).
      apply (agrees_copy p p' _ Hc), G1; [done |]. destruct Hc as (-> & _). done.
    - exists false, (powers d). rewrite set_powers_same. done. }
  rewrite (M_run _ _ _ _ _ E1). cbv beta.
  replace (set_powers h1 d) with (rewritten d h1 (netVoltagePtr_v d) (netStatus_v d)) by (by destruct d).
  destruct (usePower_run d h1 (netVoltagePtr_v d) (netStatus_v d) a p p' isFirst n A1 Hc) as (a' & h & p'' & E2 & C2 & Hc2 & Hn2 & Ha').
  rewrite (M_run _ _ _ _ _ E2). cbv beta. set (v' := match o with Some _ => netVoltagePtr_v d | None => vupdate (netVoltagePtr_v d) n (Some a') end).
  rewrite (M_run _ _ _ tt (rewritten d h v' (netStatus_v d))).
  2: { destruct o; [done |]. apply setPowerAt_run. by apply vlookup_range in Ho. }
  destruct (knownBits_run d h v' (netStatus_v d) p' n s Hs) as (s' & E3 & B3). rewrite E3.
  exists e, a', h, p'', s'. rewrite C2, C1, N1 in *. split_and!; try done. intros x. rewrite B3. destruct Hc as (_ & _ & _ & H2). by rewrite H2.
Qed.
Lemma agrees_after p1 p q : agrees p1 q -> agrees p1 (afterConflict p q).
Proof.
  intros (H1 & H2 & H3). unfold afterConflict. case_bool_decide; [done |]. destruct (fill_fields p q) as (_ & _ & F1 & F2).
  split_and!; [congruence | congruence |]. intros s Hs. rewrite fill_level, (H3 s Hs). by rewrite (proj2 (Z.eqb_neq _ _) Hs).
Qed.

(** One more definition for a net that has some. *)
Lemma merged_step ps n p0 l q s p s' : sameText ps -> p0 ∈ ps -> p ∈ ps -> merged n p0 l q s ->
  (forall x, status_get s' (netBit (levelBit x)) = status_get s (netBit (levelBit x)) || negb (level x p =? UNKNOWN_VOLTAGE)) ->
  merged n p0 (l ++ [p]) (afterConflict p q) s' /\ (definition p = definition q -> agrees p (afterConflict p q)).
Proof.
  intros Ht Hp0 Hp [M1 (M2 & M3 & M4) M5 M6] Hs'.
  assert (netId (afterConflict p q) = netId q /\ definition (afterConflict p q) = definition q /\ type (afterConflict p q) = type q /\
    family (afterConflict p q) = family q) as (F1 & F2 & F3 & F4)
    by (unfold afterConflict; case_bool_decide; [done | apply fill_fields]).
  assert (definition p = definition q -> forall x, level x p <> UNKNOWN_VOLTAGE -> level x q = level x p) as Hsame.
  { intros E x Hx. destruct (Ht p p0 Hp Hp0 ltac:(congruence)) as (_ & _ & Hl). rewrite M5. cbn [firstKnown].
    rewrite <- Hl. by rewrite (proj2 (Z.eqb_neq _ _) Hx). }
  assert (forall x, level x (afterConflict p q) = if level x q =? UNKNOWN_VOLTAGE then level x p else level x q) as Hl.
  { intros x. unfold afterConflict. case_bool_decide as E; [| apply fill_level].
    destruct (Z.eqb_spec (level x q) UNKNOWN_VOLTAGE) as [Eq | Eq]; [| done].
    destruct (Z.eq_dec (level x p) UNKNOWN_VOLTAGE) as [Ex | Ex]; [congruence |]. exfalso. apply Ex. rewrite <- (Hsame E x Ex). done. }
  split; [constructor |].
  - congruence.
  - split_and!; congruence.
  - intros x. rewrite Hl, M5, app_comm_cons, firstKnown_snoc. done.
  - intros x. rewrite Hs', M6, Hl. destruct (Z.eqb_spec (level x q) UNKNOWN_VOLTAGE) as [Eq | Eq]; [done |].
    by rewrite (proj2 (Z.eqb_neq _ _) Eq).
  - intros E. destruct (Ht p p0 Hp Hp0 ltac:(congruence)) as (T1 & T2 & _). split_and!; [congruence | congruence |].
    intros x Hx. rewrite Hl, (Hsame E x Hx). by rewrite (proj2 (Z.eqb_neq _ _) Hx).
Qed.
Lemma merged_first n p q s : copyOf p q -> netId q = n ->
  (forall x, status_get s (netBit (levelBit x)) = negb (level x p =? UNKNOWN_VOLTAGE)) -> merged n p [] q s /\ agrees p q.
Proof.
  intros (H1 & H2 & H3 & H4) Hn Hs. split; [constructor | by split_and!; try congruence; intros x _].
  - done.
  - done.
  - intros x. cbn [firstKnown]. rewrite H4. by destruct (Z.eqb_spec (level x p) UNKNOWN_VOLTAGE).
  - intros x. by rewrite H4.
Qed.
Section Placing.
Context (d0 : CCvcDb) (ps : list CPower) (Htext : sameText ps).

(** The cells a step leaves alone. *)
Lemma otherCells_ne o p m c : o <> Some c -> otherCells o p m !! c = m !! c.
Proof. intros H. destruct o as [b |]; [| done]. cbn [otherCells]. destruct (m !! b); [| done]. rewrite lookup_insert_ne; [done | congruence]. Qed.
Lemma otherCells_is_Some o p m c : is_Some (otherCells o p m !! c) <-> is_Some (m !! c).
Proof.
  destruct o as [b |]; [| done]. cbn [otherCells]. destruct (m !! b) as [q |] eqn:E; [| done].
  destruct (decide (b = c)) as [-> | Hne]; [rewrite lookup_insert_eq, E; naive_solver | by rewrite lookup_insert_ne].
Qed.

(** The net the definition is for. *)
Lemma netState_here d d' todo done ok e p p'' n o s a' s' :
  p ∈ ps -> (forall x, x ∈ done -> x.1 ∈ ps) -> placed d0 todo done ok d -> 0 <= n < netCount (netlist d0) ->
  vlookup (netVoltagePtr_v d) n = Some o -> vlookup (netStatus_v d) n = Some s ->
  vlookup (netVoltagePtr_v d') n = Some (match o with Some b => Some b | None => Some a' end) -> vlookup (netStatus_v d') n = Some s' ->
  cells (powers d') = <[a' := p'']> (otherCells o p (cells (powers d))) -> (forall b, o = Some b -> a' <> b) ->
  copyOf p p'' -> netId p'' = n ->
  (forall x, status_get s' (netBit (levelBit x)) = status_get s (netBit (levelBit x)) || negb (level x p =? UNKNOWN_VOLTAGE)) ->
  (e = false -> forall b q, o = Some b -> cells (powers d) !! b = Some q -> definition p <> definition q -> agrees p (fill p q)) ->
  netState d' n (defsOf n done ++ [p]) (ok && negb e).
Proof.
  intros Hp Hdone Hpl Hn Ho Hs Ho' Hs' C Hapart Hc' Hn' Hbits Hagree. pose proof (pl_nets _ _ _ _ _ Hpl n Hn) as P1.
  unfold netState. rewrite Ho', Hs', C. destruct (defsOf n done) as [| p0 l] eqn:Ed.
  - cbn [netState] in P1. destruct P1 as [Q1 Q2]. replace o with (@None Z) in * by congruence. replace s with 0 in * by congruence.
    exists a', p'', s'. rewrite lookup_insert_eq.
    destruct (merged_first n p p'' s' Hc' Hn') as [M A]; [intros x; rewrite Hbits; unfold status_get; by rewrite Z.bits_0 |].
    split_and!; try done. intros _ q ->%list_elem_of_singleton. done.
  - destruct P1 as (b & q & s1 & Q1 & Q2 & Q3 & Q4 & Q5). replace o with (Some b) in * by congruence. replace s1 with s in * by congruence.
    assert (p0 ∈ ps) as Hp0.
    { assert (p0 ∈ defsOf n done) as Hin by (rewrite Ed; by left). unfold defsOf in Hin.
      apply list_elem_of_In, in_map_iff in Hin as (x & <- & Hx). apply Hdone. by apply list_elem_of_In, list_elem_of_filter in Hx as [_ Hx]. }
    destruct (merged_step ps n p0 l q s p s' Htext Hp0 Hp Q4 Hbits) as [M A].
    exists b, (afterConflict p q), s'. rewrite lookup_insert_ne by auto. cbn [otherCells]. rewrite Q2, lookup_insert_eq.
    split_and!; try done. intros [Hok He%negb_true_iff]%andb_true_iff q1 Hq1.
    rewrite app_comm_cons in Hq1. apply elem_of_app in Hq1 as [Hq1 | ->%list_elem_of_singleton]; [by apply agrees_after, Q5 |].
    destruct (decide (definition p = definition q)) as [Edef | Edef]; [by apply A |].
    unfold afterConflict. rewrite bool_decide_false by done. by eapply Hagree.
Qed.

(** Every other net. *)
Lemma netState_elsewhere d d' todo done ok e p p'' n m o a' :
  placed d0 todo done ok d -> 0 <= n < netCount (netlist d0) -> 0 <= m < netCount (netlist d0) -> n <> m ->
  vlookup (netVoltagePtr_v d) n = Some o -> vlookup (netVoltagePtr_v d') m = vlookup (netVoltagePtr_v d) m ->
  vlookup (netStatus_v d') m = vlookup (netStatus_v d) m ->
  cells (powers d') = <[a' := p'']> (otherCells o p (cells (powers d))) ->
  (forall b, vlookup (netVoltagePtr_v d) m = Some (Some b) -> a' <> b) ->
  netState d' m (defsOf m done) (ok && negb e).
Proof.
  intros Hpl Hn Hm Hne Ho Hv Hs C Hapart. pose proof (pl_nets _ _ _ _ _ Hpl m Hm) as P1. unfold netState in *. rewrite Hv, Hs, C.
  destruct (defsOf m done) as [| p0 l]; [done |].
  destruct P1 as (b & q & s1 & Q1 & Q2 & Q3 & Q4 & Q5). exists b, q, s1.
  rewrite lookup_insert_ne by auto. rewrite otherCells_ne.
  2: { intros ->. specialize (pl_nets _ _ _ _ _ Hpl n Hn) as H. unfold netState in H. destruct (defsOf n done); [naive_solver |].
       destruct H as (b' & q' & s2 & R1 & R2 & _ & R4 & _). assert (q' = q) as -> by congruence.
       apply Hne. rewrite <- (mg_net _ _ _ _ _ R4). by rewrite (mg_net _ _ _ _ _ Q4). }
  split_and!; try done. intros [Hok _]%andb_true_iff. by apply Q5.
Qed.

Lemma modeNet_placed todo done ok d a p p' isFirst n :
  p ∈ ps -> (forall x, x ∈ done -> x.1 ∈ ps) -> placed d0 todo done ok d -> 0 <= n < netCount (netlist d0) ->
  cells (powers d) !! a = Some p' -> copyOf p p' -> a ∉ todo ->
  (isFirst = true -> forall m, vlookup (netVoltagePtr_v d) m <> Some (Some a)) ->
  exists e a' d' p'', modeNet a isFirst n d = Ok ((e, a'), d') /\ placed d0 todo (done ++ [(p, n)]) (ok && negb e) d' /\
    cells (powers d') !! a' = Some p'' /\ copyOf p p'' /\ a' ∉ todo.
Proof.
  intros Hp Hdone Hpl Hn Ha Hc Htodo Hfirst. pose proof Hpl as [[P0 P0'] P1 [P2 P2'] P3 P4 P5].
  destruct (proj2 (vlookup_is_Some (netVoltagePtr_v d) n) ltac:(lia)) as [o Ho].
  destruct (proj2 (vlookup_is_Some (netStatus_v d) n) ltac:(lia)) as [s Hs].
  destruct (modeNet_effect d a p p' isFirst n o s Ha Hc Ho Hs) as (e & a' & h & p'' & s' & E & C & Hc' & Hn' & Ha' & Hbits & Hagree).
  { intros b ->. by apply (P5 n). }
  set (v' := match o with Some _ => netVoltagePtr_v d | None => vupdate (netVoltagePtr_v d) n (Some a') end) in *.
  destruct (rewritten_fields d h v' (vupdate (netStatus_v d) n s')) as (F1 & F2 & F3 & F4 & F5).
  eexists e, a', _, p''. split; [exact E |].
  assert (forall m b, vlookup (netVoltagePtr_v d) m = Some (Some b) -> a' <> b) as Hapart.
  { intros m b Hb ->. destruct isFirst; destruct Ha' as [-> _]; [by eapply Hfirst |].
    destruct (P5 m _ Hb) as [_ Hx]. specialize (P3 _ Hx). lia. }
  assert (a' ∉ todo) as Ht'.
  { destruct isFirst; destruct Ha' as [-> _]; [done |]. intros Hin. destruct (P4 _ Hin) as [_ Hx]. specialize (P3 _ Hx). lia. }
  assert (forall m, vlookup v' m = if n =? m then Some (match o with Some b => Some b | None => Some a' end) else vlookup (netVoltagePtr_v d) m) as Hv'.
  { intros m. unfold v'. destruct o; [destruct (Z.eqb_spec n m); congruence |]. rewrite vlookup_vupdate.
    by rewrite (proj2 (in_range_spec _ _)) by lia. }
  split_and!; [| by rewrite F3, C, lookup_insert_eq | done | done].
  constructor; [by rewrite F1, F2 | intros m Hm | rewrite F4, F5; unfold v'; destruct o; by rewrite ?vupdate_length | | |].
  - rewrite defsOf_snoc. case_bool_decide as Emn.
    + subst m. eapply netState_here; try done; rewrite ?F3, ?F4, ?F5, ?Hv', ?Z.eqb_refl, ?vlookup_vupdate_eq by lia; try done.
      intros b ->. by apply (Hapart n).
    + apply (netState_elsewhere d _ todo done ok e p p'' n m o a'); try done; [| | by rewrite F3 | apply Hapart].
      * rewrite F4, Hv'. by rewrite (proj2 (Z.eqb_neq n m)).
      * rewrite F5. by apply vlookup_vupdate_ne.
  - rewrite F3, C. intros c. destruct (decide (a' = c)) as [<- | Hne].
    + intros _. destruct isFirst; destruct Ha' as [-> ->]; [apply P3; by rewrite Ha | lia].
    + rewrite lookup_insert_ne, otherCells_is_Some by done. intros Hx. specialize (P3 c Hx). destruct isFirst; lia.
  - rewrite F3, C. intros c Hin. rewrite lookup_insert_ne by congruence. rewrite otherCells_ne; [by apply P4 |].
    intros ->. by destruct (P5 n c Ho) as [? _].
  - rewrite F3, F4, C. intros m b Hb. rewrite Hv' in Hb.
    assert (vlookup (netVoltagePtr_v d) m = Some (Some b) \/ b = a') as [Hold | ->]
      by (destruct (Z.eqb_spec n m) as [<- | _]; [destruct o; naive_solver | by left]).
    + destruct (P5 m b Hold). split; [done |]. rewrite lookup_insert_ne by (by apply (Hapart m)). by apply otherCells_is_Some.
    + rewrite lookup_insert_eq. eauto.
Qed.

Lemma modeNets_placed nets : forall todo done ok d a p p' isFirst,
  p ∈ ps -> (forall x, x ∈ done -> x.1 ∈ ps) -> placed d0 todo done ok d -> Forall (fun n => 0 <= n < netCount (netlist d0)) nets ->
  cells (powers d) !! a = Some p' -> copyOf p p' -> a ∉ todo ->
  (isFirst = true -> forall m, vlookup (netVoltagePtr_v d) m <> Some (Some a)) ->
  exists e l d', modeNets a isFirst nets d = Ok ((e, l), d') /\ placed d0 todo (done ++ map (pair p) nets) (ok && negb e) d'.
Proof.
  induction nets as [| n nets IH]; intros todo done ok d a p p' isFirst Hp Hdone Hpl Hn Ha Hc Ht Hf.
  { exists false, [], d. cbn. by rewrite app_nil_r, andb_true_r. }
  apply Forall_cons in Hn as [Hn Hns]. cbn [modeNets map].
  destruct (modeNet_placed todo done ok d a p p' isFirst n) as (e & a' & d' & p'' & E & Hpl' & Ha' & Hc' & Ht'); try done.
  rewrite (M_run _ _ _ _ _ E).
  destruct (IH todo (done ++ [(p, n)]) (ok && negb e) d' a' p p'' false) as (e' & l & d'' & E' & Hpl''); try done.
  { intros x [? | ->%list_elem_of_singleton]%elem_of_app; auto. }
  rewrite (M_run _ _ _ _ _ E'). eexists (e || e'), _, d''. split; [reflexivity |].
  rewrite <- app_assoc in Hpl''. by rewrite <- andb_assoc, <- negb_orb in Hpl''.
Qed.

Context (validRegex : text -> bool) (regex_match : text -> text -> bool) (cdlText : gset text).

(** The nets of a definition in the netlist of [d0]. *)
Definition netsFor (p : CPower) : list Z :=
  match FindUniqueNetIds validRegex regex_match cdlText (netlist d0) (circuits d0) (insideOf d0) (powerSignal p) 0 with
  | Ok l => l
  | Err _ => []
  end.

Lemma findNets_run d p : netlist d = netlist d0 -> circuits d = circuits d0 ->
  (exists l, FindUniqueNetIds validRegex regex_match cdlText (netlist d0) (circuits d0) (insideOf d0) (powerSignal p) 0 = Ok l) ->
  findNets validRegex regex_match cdlText (powerSignal p) 0 d = Ok (netsFor p, d).
Proof.
  intros E1 E2 [l El]. unfold findNets, lift, netsFor. rewrite E1, E2, El.
  rewrite (FindUniqueNetIds_top _ _ _ _ _ (insideOf d) (insideOf d0)), El. done.
Qed.

Lemma modePowers_placed l : forall todo done ok d qs, placed d0 (l ++ todo) done ok d -> NoDup (l ++ todo) ->
  (forall x, x ∈ done -> x.1 ∈ ps) -> Forall2 (fun a p => cells (powers d0) !! a = Some p /\ p ∈ ps) l qs ->
  (forall p, p ∈ ps -> (exists l, FindUniqueNetIds validRegex regex_match cdlText (netlist d0) (circuits d0) (insideOf d0) (powerSignal p) 0 = Ok l) /\
     Forall (fun n => 0 <= n < netCount (netlist d0)) (netsFor p)) ->
  exists e l' d', modePowers validRegex regex_match cdlText l d = Ok ((e, l'), d') /\
    placed d0 todo (done ++ concat (map (fun p => map (pair p) (netsFor p)) qs)) (ok && negb e) d' /\
    (e = false -> Forall (fun p => netsFor p <> []) qs).
Proof.
  induction l as [| a l IH]; intros todo done ok d qs Hpl Hnd Hdone Hqs Hfind.
  { apply Forall2_nil_inv_l in Hqs as ->. exists false, [], d. cbn. rewrite app_nil_r, andb_true_r. done. }
  apply Forall2_cons_inv_l in Hqs as (p & qs' & [Ha Hp] & Hqs & ->). cbn [app] in Hnd, Hpl.
  apply NoDup_cons in Hnd as [Hna Hnd]. pose proof Hpl as [[P0 P0'] P1 P2 P3 P4 P5].
  destruct (P4 a ltac:(by left)) as [Ecell _]. rewrite Ha in Ecell.
  assert (placed d0 (l ++ todo) done ok d) as Hpl1.
  { constructor; try done; [intros b Hb; apply P4; by right |]. intros n b Hb. destruct (P5 n b Hb) as [Hn ?]. split; [set_solver | done]. }
  cbn [modePowers]. rewrite (M_run (derefM a) _ _ p d) by (unfold derefM, deref, lift; by rewrite Ecell).
  destruct (Hfind p Hp) as [Hok Hr]. rewrite (M_run _ _ _ _ _ (findNets_run d p P0 P0' Hok)).
  destruct (modeNets_placed (netsFor p) (l ++ todo) done ok d a p p true) as (e & new & d1 & E & Hpl2); try done.
  { intros _ m Hm. destruct (P5 m a Hm) as [Hx _]. set_solver. }
  rewrite (M_run _ _ _ _ _ E).
  destruct (IH todo (done ++ map (pair p) (netsFor p)) (ok && negb e) d1 qs') as (e' & rest & d2 & E' & Hpl3 & He'); try done.
  { intros x [? | Hx]%elem_of_app; [auto |]. by apply list_elem_of_In, in_map_iff in Hx as (n & <- & _). }
  rewrite (M_run _ _ _ _ _ E'). eexists _, _, d2. split; [reflexivity |]. split.
  - cbn [map concat]. rewrite app_assoc. destruct (bool_decide_reflect (netsFor p = [])) as [En | En]; cbn [orb].
    + destruct Hpl3 as [R0 R1 R2 R3 R4 R5]. constructor; try done. intros n Hn. specialize (R1 n Hn). rewrite andb_false_r.
      unfold netState in *. destruct (defsOf n _); [done |]. naive_solver.
    + by rewrite <- andb_assoc, <- negb_orb in Hpl3.
  - intros [[He%bool_decide_eq_false ->]%orb_false_iff ->]%orb_false_iff. constructor; [done | by apply He'].
Qed.

Lemma netsFor_NoDup p : NoDup (netsFor p).
Proof.
  unfold netsFor. destruct (FindUniqueNetIds _ _ _ _ _ _ _ _) as [l |] eqn:E; [| constructor]. apply FindUniqueNetIds_sorted in E.
  induction E as [| n l' _ IH Hn]; constructor; [| done]. intros Hin. rewrite Forall_forall in Hn. specialize (Hn n Hin). lia.
Qed.

Lemma defsOf_pairs n p l : NoDup l -> defsOf n (map (pair p) l) = if bool_decide (n ∈ l) then [p] else [].
Proof.
  unfold defsOf. induction l as [| m l IH]; intros Hd; [by rewrite bool_decide_false by (by intros ?%elem_of_nil) |].
  apply NoDup_cons in Hd as [Hm Hd]. cbn [map]. rewrite filter_cons. cbn [snd]. destruct (decide (m = n)) as [E | E].
  - subst n. cbn [map]. rewrite (IH Hd), bool_decide_false, bool_decide_true by (done || by left). done.
  - rewrite (IH Hd). by rewrite (bool_decide_ext (n ∈ m :: l) (n ∈ l)) by (rewrite elem_of_cons; naive_solver).
Qed.
Lemma defsOf_concat n qs : defsOf n (concat (map (fun p => map (pair p) (netsFor p)) qs)) = filter (fun p => n ∈ netsFor p) qs.
Proof.
  induction qs as [| p qs IH]; [done |]. cbn [map concat]. rewrite filter_cons, <- IH. unfold defsOf at 1. rewrite filter_app, map_app.
  fold (defsOf n (map (pair p) (netsFor p))). rewrite (defsOf_pairs n p _ (netsFor_NoDup p)).
  case_decide; case_bool_decide; done.
Qed.

Lemma placed_start : 0 <= netCount (netlist d0) -> (forall a, is_Some (cells (powers d0) !! a) -> a < nextAddress (powers d0)) ->
  Forall (fun a => is_Some (cells (powers d0) !! a)) (cvcPowerPtrList d0) ->
  placed d0 (cvcPowerPtrList d0) [] true
    (rewritten d0 (powers d0) (ResetPowerPointerVector (netCount (netlist d0))) (replicate (Z.to_nat (netCount (netlist d0))) 0)).
Proof.
  intros Hn Hf Hl. set (v := ResetPowerPointerVector _). set (st := replicate _ 0).
  destruct (rewritten_fields d0 (powers d0) v st) as (F1 & F2 & F3 & F4 & F5).
  constructor; unfold netState; cbn [defsOf filter map]; rewrite ?F1, ?F2, ?F3, ?F4, ?F5.
  - done.
  - intros n Hr. split; apply Flatten.Flatten.vlookup_replicate; lia.
  - unfold v, st, ResetPowerPointerVector. rewrite !length_replicate. lia.
  - done.
  - intros a Ha. rewrite Forall_forall in Hl. auto.
  - intros n b Hb. exfalso. apply Prelude.vlookup_lookup in Hb. unfold v, ResetPowerPointerVector in Hb. by apply lookup_replicate in Hb as [? _].
Qed.
End Placing.

(** C26: [SetModePower] gives every net the powers defined for it, merged: when the signals of
    the list can be searched and equal definition texts define equal levels, it returns, and a
    net without a definition has no power and no status bit; any other net has a power of its
    own number, with the text, type and family of the first definition, each level the first
    one known among its definitions, and a status bit for each known level.  The result is [OK]
    only when every definition has a net and no definition of a net contradicts its power. *)
Theorem SetModePower_merges validRegex regex_match cdlText d ps :
  let nets := netsFor d validRegex regex_match cdlText in
  0 <= netCount (netlist d) -> NoDup (cvcPowerPtrList d) ->
  (forall a, is_Some (cells (powers d) !! a) -> a < nextAddress (powers d)) ->
  Forall2 (fun a p => cells (powers d) !! a = Some p) (cvcPowerPtrList d) ps -> sameText ps ->
  (forall p, p ∈ ps ->
     (exists l, FindUniqueNetIds validRegex regex_match cdlText (netlist d) (circuits d) (insideOf d) (powerSignal p) 0 = Ok l) /\
     Forall (fun n => 0 <= n < netCount (netlist d)) (nets p)) ->
  exists e d', SetModePower validRegex regex_match cdlText d = Ok (if e : bool then SKIP else OK, d') /\
    (forall n, 0 <= n < netCount (netlist d) -> netState d' n (filter (fun p => n ∈ nets p) ps) (negb e)) /\
    (e = false -> Forall (fun p => nets p <> []) ps).
Proof.
  intros nets Hn Hnd Hf Hps Ht Hfind. unfold SetModePower. cbv [nl]. rewrite (M_run (gets _) _ _ (netCount (netlist d)) d) by done.
  set (d1 := rewritten d (powers d) (ResetPowerPointerVector (netCount (netlist d))) (replicate (Z.to_nat (netCount (netlist d))) 0)).
  rewrite (M_run (modify _) _ _ tt _) by reflexivity. cbv beta. rewrite (M_run (modify _) _ _ tt d1) by (unfold modify, d1; by destruct d).
  cbv beta. rewrite (M_run (gets _) _ _ (cvcPowerPtrList d) d1) by (unfold gets, d1; by destruct d).
  assert (placed d (cvcPowerPtrList d) [] true d1) as Hpl.
  { apply placed_start; try done. apply Forall_forall. intros a Ha. apply list_elem_of_lookup in Ha as [i Hi].
    destruct (Forall2_lookup_l _ _ _ _ _ Hps Hi) as (p & _ & Hp). eauto. }
  destruct (modePowers_placed d ps Ht validRegex regex_match cdlText (cvcPowerPtrList d) [] [] true d1 ps) as (e & l & d2 & E & Hpl2 & He).
  - by rewrite app_nil_r.
  - by rewrite app_nil_r.
  - by intros x ?%elem_of_nil.
  - apply Forall2_same_length_lookup_2; [by eapply Forall2_length |]. intros i a p Ha Hp. split; [| by eapply list_elem_of_lookup_2].
    by eapply Forall2_lookup_lr in Hps.
  - exact Hfind.
  - rewrite (M_run _ _ _ _ _ E). exists e, (set_cvcPowerPtrList l d2). split; [reflexivity |]. split; [| done]. intros n Hr.
    pose proof (pl_nets _ _ _ _ _ Hpl2 n Hr) as Hs. cbn [app] in Hs. rewrite defsOf_concat in Hs. by destruct d2.
Qed.
(** A port with two definitions and the nets of all inverters, in the netlist of [exampleCells]. *)
Import Paths.Paths (exampleState, netlistOf).

Definition namedPower (signal text_ : text) (min sim max : Z) : CPower :=
  set_definition text_ (set_maxVoltage max (set_simVoltage sim (set_minVoltage min (startPower signal 0)))).
Definition modeList : list CPower :=
  [namedPower "a" " min@0" 0 UNKNOWN_VOLTAGE UNKNOWN_VOLTAGE; namedPower "a" " max@1.2" UNKNOWN_VOLTAGE UNKNOWN_VOLTAGE 1200;
   namedPower "*(inv)/mid" " sim@0.6" UNKNOWN_VOLTAGE 600 UNKNOWN_VOLTAGE].
Definition modeDb : CCvcDb :=
  set_cvcPowerPtrList [0; 1; 2] (set_powers (mkHeap (list_to_map (zip [0; 1; 2] modeList)) 3 3)
    (set_circuits (Flatten.Flatten.cells exampleState) (set_netlist (netlistOf exampleState) ExampleDb.ExampleDb.exampleDb))).
Abbreviation anyRegex := (fun _ : text => true).
Abbreviation noMatch := (fun _ _ : text => false).

(** What is at a net: its status and the levels of its power. *)
Definition atNet (d : CCvcDb) (n : Z) : option Z * option (Z * Z * Z) :=
  (vlookup (netStatus_v d) n,
   p ← vlookup (netVoltagePtr_v d) n; a ← p; q ← cells (powers d) !! a; Some (minVoltage q, simVoltage q, maxVoltage q)).

Example modePower_example :
  match SetModePower anyRegex noMatch exampleTexts modeDb with
  | Ok (rc, d) => (rc, map (atNet d) [0; 1; 5; 10], length (cvcPowerPtrList d))
  | Err _ => (SKIP, [], 0%nat)
  end =
  (OK, [(Some (2 ^ netBit MIN_POWER + 2 ^ netBit MAX_POWER), Some (0, UNKNOWN_VOLTAGE, 1200)); (Some 0, None);
        (Some (2 ^ netBit SIM_POWER), Some (UNKNOWN_VOLTAGE, 600, UNKNOWN_VOLTAGE));
        (Some (2 ^ netBit SIM_POWER), Some (UNKNOWN_VOLTAGE, 600, UNKNOWN_VOLTAGE))], 7%nat).
Proof. vm_compute. reflexivity. Qed.

Lemma addresses_check (h : powerHeap) : bool_decide (map_Forall (fun a _ => a < nextAddress h) (cells h)) = true ->
  forall a, is_Some (cells h !! a) -> a < nextAddress h.
Proof. intros H%bool_decide_eq_true a [p Hp]. by eapply (map_Forall_lookup_1 _ _ _ _ H). Qed.

Definition netsKnown (d : CCvcDb) (p : CPower) : bool :=
  match FindUniqueNetIds anyRegex noMatch exampleTexts (netlist d) (circuits d) (insideOf d) (powerSignal p) 0 with
  | Ok l => forallb (fun n => (0 <=? n) && (n <? netCount (netlist d))) l
  | Err _ => false
  end.
Lemma netsKnown_spec d ps : forallb (netsKnown d) ps = true -> forall p, p ∈ ps ->
  (exists l, FindUniqueNetIds anyRegex noMatch exampleTexts (netlist d) (circuits d) (insideOf d) (powerSignal p) 0 = Ok l) /\
  Forall (fun n => 0 <= n < netCount (netlist d)) (netsFor d anyRegex noMatch exampleTexts p).
Proof.
  rewrite forallb_forall. intros H p Hp%list_elem_of_In%H. unfold netsKnown, netsFor in *.
  destruct (FindUniqueNetIds _ _ _ _ _ _ _ _) as [l | e]; [| done]. split; [by exists l |].
  rewrite forallb_forall in Hp. apply Forall_forall. intros n Hn%list_elem_of_In%Hp. lia.
Qed.

Definition sameTextTest (ps : list CPower) : bool :=
  forallb (fun p => forallb (fun q => negb (bool_decide (definition p = definition q)) ||
    (type p =? type q) && bool_decide (family p = family q) && forallb (fun s => level s p =? level s q) [Min; Sim; Max]) ps) ps.
Lemma sameTextTest_spec ps : sameTextTest ps = true -> sameText ps.
Proof.
  unfold sameTextTest. rewrite forallb_forall. intros H p q Hp%list_elem_of_In%H Hq%list_elem_of_In E. rewrite forallb_forall in Hp.
  specialize (Hp q Hq). rewrite bool_decide_true in Hp by done. cbn [negb orb] in Hp.
  apply andb_true_iff in Hp as [[E1 E2]%andb_true_iff E3]. rewrite forallb_forall in E3.
  split_and!; [by apply Z.eqb_eq | by apply bool_decide_eq_true in E2 |].
  intros s. apply Z.eqb_eq, E3. destruct s; cbn; auto.
Qed.

(** Net 0 is the port "a"; both definitions of it are in its state. *)
Lemma SetModePower_merges_witness : exists e d', SetModePower anyRegex noMatch exampleTexts modeDb = Ok (if e : bool then SKIP else OK, d') /\
  netState d' 0 (filter (fun p => 0 ∈ netsFor modeDb anyRegex noMatch exampleTexts p) modeList) (negb e).
Proof.
  destruct (SetModePower_merges anyRegex noMatch exampleTexts modeDb modeList) as (e & d' & E & Hn & _).
  - vm_compute. discriminate.
  - repeat constructor; rewrite ?elem_of_cons, ?elem_of_nil; lia.
  - apply addresses_check. vm_compute. reflexivity.
  - repeat constructor.
  - apply sameTextTest_spec. vm_compute. reflexivity.
  - apply netsKnown_spec. vm_compute. reflexivity.
  - exists e, d'. split; [exact E |]. apply Hn. vm_compute. split; [discriminate | reflexivity].
Defined.
End ModePower.
