(* ===== verification/InstancePower.v ===== *)
(** * Instance power adds to the mode power

    What [SetInstancePower] may change: it allocates powers and places them at nets
    that have none.  The powers of the power file are left as they are. *)

From S2P Require Import Prelude CvcTypes Power Text Db Model Flatten PowerText PowerFile Names Paths Search ExampleDb ModePower.
From stdpp Require Import base list strings gmap.
From Stdlib Require Import ZArith Lia Ascii.
#[local] Open Scope string_scope.
#[local] Open Scope list_scope.
#[local] Open Scope Z_scope.

Module InstancePower.
Import Power.Power Text.Text Db.Db PowerText.PowerText Search.Search ModePower.ModePower.
Import PowerFile.PowerFile (returnCode_t, OK, SKIP, CInstancePower, mkInstancePower, instanceName, powerList, expects).
Import Model.Model (voltageState, mkVoltageState).

(** [d] has the powers of [d0] as they were, and new ones at nets that had none. *)
Record added (d0 d : CCvcDb) : Prop := mkAdded {
  ad_netlist : netlist d = netlist d0 /\ circuits d = circuits d0 /\ netStatus_v d = netStatus_v d0;
  ad_next : nextAddress (powers d0) <= nextAddress (powers d);
  ad_cells a p : cells (powers d0) !! a = Some p -> cells (powers d) !! a = Some p;
  ad_fresh a : is_Some (cells (powers d) !! a) -> a < nextAddress (powers d);
  ad_kept n b : vlookup (netVoltagePtr_v d0) n = Some (Some b) -> vlookup (netVoltagePtr_v d) n = Some (Some b);
  ad_nets n b : vlookup (netVoltagePtr_v d) n = Some (Some b) -> is_Some (cells (powers d) !! b) /\
    (vlookup (netVoltagePtr_v d0) n = Some (Some b) \/
     vlookup (netVoltagePtr_v d0) n = Some None /\ nextAddress (powers d0) <= b /\
     exists q, cells (powers d) !! b = Some q /\ netId q = n);
  ad_length : length (netVoltagePtr_v d) = length (netVoltagePtr_v d0);
  ad_list : exists l, cvcPowerPtrList d = cvcPowerPtrList d0 ++ l /\ Forall (fun a => nextAddress (powers d0) <= a) l
}.

(** [a] is a new power that is at no net yet. *)
Definition unplaced (d0 d : CCvcDb) (a : Z) : Prop :=
  nextAddress (powers d0) <= a /\ is_Some (cells (powers d) !! a) /\
  forall n, vlookup (netVoltagePtr_v d) n <> Some (Some a).

Section Adding.
Context (d0 : CCvcDb) (Hwf : forall a, is_Some (cells (powers d0) !! a) -> a < nextAddress (powers d0)).

Lemma added_start : (forall n b, vlookup (netVoltagePtr_v d0) n = Some (Some b) -> is_Some (cells (powers d0) !! b)) -> added d0 d0.
Proof. intros Hv. constructor; eauto with lia. exists []. by rewrite app_nil_r. Qed.

Lemma fields_set_powers h d : netlist (set_powers h d) = netlist d /\ circuits (set_powers h d) = circuits d /\
  netStatus_v (set_powers h d) = netStatus_v d /\ netVoltagePtr_v (set_powers h d) = netVoltagePtr_v d /\
  cvcPowerPtrList (set_powers h d) = cvcPowerPtrList d /\ powers (set_powers h d) = h.
Proof. by destruct d. Qed.

(** Writing a cell that is new and at no net. *)
Lemma added_write d h a p : added d0 d -> nextAddress (powers d0) <= a -> a < nextAddress h ->
  (forall n, vlookup (netVoltagePtr_v d) n <> Some (Some a)) ->
  cells h = <[a := p]> (cells (powers d)) -> nextAddress (powers d) <= nextAddress h ->
  added d0 (set_powers h d) /\ unplaced d0 (set_powers h d) a.
Proof.
  intros [A1 A2 A3 A4 A5 A6 A7 A8] Ha Hn Hv Ec Hh. destruct (fields_set_powers h d) as (F1 & F2 & F3 & F4 & F5 & F6).
  split; [constructor; rewrite ?F1, ?F2, ?F3, ?F4, ?F5, ?F6, ?Ec; try done | unfold unplaced; rewrite F4, F6, Ec, lookup_insert_eq; eauto].
  - lia.
  - intros b q Hb. rewrite lookup_insert_ne; [auto |]. intros ->. specialize (Hwf b (ltac:(by eexists))). lia.
  - intros b Hb. destruct (decide (a = b)) as [-> | Hne]; [done |]. rewrite lookup_insert_ne in Hb by done. specialize (A4 b Hb). lia.
  - intros n b Hb. assert (a <> b) by (intros ->; by apply (Hv n)). rewrite lookup_insert_ne by done. auto.
Qed.

Lemma unplaced_fresh d : added d0 d -> forall n, vlookup (netVoltagePtr_v d) n <> Some (Some (nextAddress (powers d))).
Proof. intros A n Hn. destruct (ad_nets _ _ A n _ Hn) as [Hc _]. apply (ad_fresh _ _ A) in Hc. lia. Qed.

Lemma allocM_added p a d d' : allocM p d = Ok (a, d') -> added d0 d -> added d0 d' /\ unplaced d0 d' a.
Proof.
  intros H A. unfold allocM in H. cbn in H. injection H as <- <-.
  eapply (added_write d _ _ (p (powerCount (powers d)))); cbn; try done; try lia; [apply A | by apply unplaced_fresh].
Qed.

Lemma updateM_added a f x d d' : updateM (Some a) f d = Ok (x, d') -> added d0 d -> unplaced d0 d a ->
  added d0 d' /\ unplaced d0 d' a.
Proof.
  intros H A (U1 & [p Hp] & U3). unfold updateM in H. rewrite (update_deref _ _ _ p) in H by (unfold deref; by rewrite Hp).
  injection H as _ <-. eapply (added_write d _ a (f p)); try done. apply (ad_fresh _ _ A). eauto.
Qed.

(** Placing a power at its net. *)
Lemma placed_added n a d d' x : (_ ← modify (fun d => set_cvcPowerPtrList (cvcPowerPtrList d ++ [a]) d); setPowerAt n (Some a)) d = Ok (x, d') ->
  added d0 d -> unplaced d0 d a -> vlookup (netVoltagePtr_v d) n = Some None ->
  (exists q, cells (powers d) !! a = Some q /\ netId q = n) -> added d0 d'.
Proof.
  intros H [A1 A2 A3 A4 A5 A6 A7 A8] (U1 & U2 & U3) Hn Hq. unfold modify, mbind, M_bind, setPowerAt in H.
  pose proof (vlookup_range _ _ _ Hn) as Hr. replace (netVoltagePtr_v (set_cvcPowerPtrList _ d)) with (netVoltagePtr_v d) in H by (by destruct d).
  rewrite vset_in_range in H by done. injection H as _ <-.
  assert (forall v l, let e := set_netVoltagePtr_v v (set_cvcPowerPtrList l d) in
    netlist e = netlist d /\ circuits e = circuits d /\ netStatus_v e = netStatus_v d /\ powers e = powers d /\
    netVoltagePtr_v e = v /\ cvcPowerPtrList e = l) as F by (by destruct d).
  specialize (F (vupdate (netVoltagePtr_v d) n (Some a)) (cvcPowerPtrList d ++ [a])). destruct F as (F1 & F2 & F3 & F4 & F5 & F6).
  constructor; rewrite ?F1, ?F2, ?F3, ?F4, ?F5, ?F6; try done.
  - intros m b Hb. rewrite vlookup_vupdate_ne; [auto |]. intros <-. specialize (A5 n b Hb). congruence.
  - intros m b Hb. destruct (Z.eq_dec n m) as [<- | Hne].
    + rewrite vlookup_vupdate_eq in Hb by done. injection Hb as <-. split; [done |]. right. split; [| done].
      destruct (vlookup (netVoltagePtr_v d0) n) as [[b |] |] eqn:E0; [specialize (A5 n b E0); congruence | done |].
      pose proof (proj2 (vlookup_is_Some (netVoltagePtr_v d0) n) ltac:(lia)) as [? ?]. congruence.
    + rewrite vlookup_vupdate_ne in Hb by done. auto.
  - by rewrite vupdate_length.
  - destruct A8 as (l & -> & Hl). exists (l ++ [a]). rewrite app_assoc. split; [done |]. apply Forall_app. auto.
Qed.

Lemma GetEquivalentNet_reads n m d d' : GetEquivalentNet n d = Ok (m, d') -> d' = d.
Proof.
  unfold GetEquivalentNet. intros H. destruct (n =? UNKNOWN_NET); [by injection H as _ <- |].
  apply M_bind_inv in H as (fixed & e & R & H). apply gets_inv in R as [_ ->].
  apply M_bind_inv in H as (x & e & R & H). apply gets_inv in R as [_ ->].
  apply M_bind_inv in H as (k & e & R & H).
  assert (e = d) as -> by (destruct fixed; [by apply nlat_inv in R as [_ ->] | by apply lift_inv in R as [_ ->]]).
  apply M_bind_inv in H as (o & e & R1 & H). apply powerAt_inv in R1 as [_ ->].
  apply M_bind_inv in H as (q & e & R2 & H). apply pointeeM_inv in R2 as [_ ->].
  destruct q as [q |]; [destruct (netId q =? UNKNOWN_NET) |]; by injection H as _ <-.
Qed.

(** The power used at a net has the number of the net. *)
Lemma usePower_added a p isFirst m a' d d' :
  (if isFirst : bool then _ ← updateM (Some a) (set_netId m); mret a else allocM (CPower_expand p m)) d = Ok (a', d') ->
  added d0 d -> (isFirst = true -> unplaced d0 d a) ->
  added d0 d' /\ unplaced d0 d' a' /\ (exists q, cells (powers d') !! a' = Some q /\ netId q = m) /\ netVoltagePtr_v d' = netVoltagePtr_v d.
Proof.
  intros H A HU. destruct isFirst.
  - run_inv H. injection H as <- <-. destruct (updateM_added _ _ _ _ _ R A (HU eq_refl)) as [A' U']. split_and!; try done.
    + unfold updateM in R. destruct (update _ _ _) as [h |] eqn:E; [| done]. injection R as _ <-.
      apply update_Ok in E as (q & Hq & ->). rewrite powers_set. unfold store. cbn [cells]. rewrite lookup_insert_eq.
      eexists. split; [done | by destruct q].
    + unfold updateM in R. destruct (update _ _ _) as [h |] eqn:E; [| done]. injection R as _ <-. by destruct d.
  - destruct (allocM_added _ _ _ _ H A) as [A' U']. unfold allocM in H. cbn in H. injection H as <- <-. split_and!; try done.
    + rewrite powers_set. cbn [cells]. rewrite lookup_insert_eq. eexists. by split.
    + by destruct d.
Qed.

Lemma instanceNet_added name a isFirst n st a' st' d d' : instanceNet name a isFirst n st d = Ok ((a', st'), d') ->
  added d0 d -> (isFirst = true -> unplaced d0 d a) -> added d0 d'.
Proof.
  intros H A HU. unfold instanceNet in H. apply M_bind_inv in H as (m & e & R & H). apply GetEquivalentNet_reads in R as ->.
  apply M_bind_inv in H as (p & e & R & H). apply derefM_inv in R as [_ ->].
  apply M_bind_inv in H as (a1 & d1 & R & H). destruct (usePower_added a p isFirst m a1 d d1 R A HU) as (A1 & U1 & Hq & Ev). clear R.
  apply M_bind_inv in H as (p1 & e & R & H). apply derefM_inv in R as [_ ->].
  apply M_bind_inv in H as (o & e & R & H). apply powerAt_inv in R as [Ho ->].
  apply M_bind_inv in H as (q & e & R & H). apply pointeeM_inv in R as [_ ->].
  destruct (_ && isalpha _); [by injection H as _ _ <- |]. destruct (typeBit p1 INPUT_BIT).
  - cbv zeta in H. destruct (expects _); apply M_bind_inv in H as (? & d2 & R & H); injection H as _ _ <-;
      by destruct (updateM_added _ _ _ _ _ R A1 U1).
  - destruct o as [b |]; [by injection H as _ _ <- |].
    apply M_bind_inv in H as (x & d2 & R & H). apply M_bind_inv in H as (y & d3 & R' & H). injection H as _ _ <-.
    apply (placed_added m a1 d1 d3 y); try done. unfold mbind, M_bind. by rewrite R.
Qed.

Lemma instanceNets_added name nets : forall a isFirst st st' d d', instanceNets name a isFirst nets st d = Ok (st', d') ->
  added d0 d -> (isFirst = true -> unplaced d0 d a) -> added d0 d'.
Proof.
  induction nets as [| n nets IH]; intros a isFirst st st' d d' H A HU; [by injection H as _ <- |]. cbn [instanceNets] in H.
  apply M_bind_inv in H as ([a1 st1] & d1 & R & H). eapply IH; [exact H | by eapply instanceNet_added | done].
Qed.

Context (validRegex : text -> bool) (regex_match : text -> text -> bool) (cdlText : gset text).
Context (fuel : nat) (cvcPowerMacroPtrMap : gmap text CPower).

Lemma instanceLine_added i line st st' d d' :
  instanceLine validRegex regex_match cdlText fuel i line st d = Ok (st', d') -> added d0 d -> added d0 d'.
Proof.
  intros H A. unfold instanceLine in H. apply M_bind_inv in H as (c & e & R & H). apply gets_inv in R as [_ ->].
  apply M_bind_inv in H as ([p v] & e & R & H). apply lift_inv in R as [_ ->].
  apply M_bind_inv in H as (a & d1 & R & H). destruct (allocM_added _ _ _ _ R A) as [A1 U1].
  apply M_bind_inv in H as (path & e & R1 & H). apply lift_inv in R1 as [_ ->]. cbv zeta in H.
  apply M_bind_inv in H as (x & d2 & R2 & H). destruct (updateM_added _ _ _ _ _ R2 A1 U1) as [A2 U2].
  apply M_bind_inv in H as (nets & e & R3 & H). apply lift_inv in R3 as [_ ->]. by eapply instanceNets_added.
Qed.
Lemma instanceLines_added i lines : forall st st' d d',
  instanceLines validRegex regex_match cdlText fuel i lines st d = Ok (st', d') -> added d0 d -> added d0 d'.
Proof.
  induction lines as [| l lines IH]; intros st st' d d' H A; [by injection H as _ <- |]. cbn [instanceLines] in H.
  apply M_bind_inv in H as (st1 & d1 & R & H). eapply IH; [exact H |]. by eapply instanceLine_added.
Qed.
Lemma topMacros_reads l : forall m d d', topMacros l d = Ok (m, d') -> d' = d.
Proof.
  induction l as [| [name p] l IH]; intros m d d' H; [by injection H as _ <- |]. cbn [topMacros] in H.
  apply M_bind_inv in H as (n & e & R & H). apply lift_inv in R as [_ ->].
  apply M_bind_inv in H as (m1 & e & R & H). apply IH in R as ->. by injection H as _ <-.
Qed.
Lemma instanceIds_added lines ids : forall st st' d d',
  instanceIds validRegex regex_match cdlText fuel cvcPowerMacroPtrMap lines ids st d = Ok (st', d') -> added d0 d -> added d0 d'.
Proof.
  induction ids as [| i ids IH]; intros st st' d d' H A; [by injection H as _ <- |]. cbn [instanceIds] in H.
  apply M_bind_inv in H as (m & e & R & H). apply topMacros_reads in R as ->.
  apply M_bind_inv in H as (st1 & d1 & R & H). eapply IH; [exact H |]. by eapply instanceLines_added.
Qed.
Lemma instancePowers_added l : forall st st' d d',
  instancePowers validRegex regex_match cdlText fuel cvcPowerMacroPtrMap l st d = Ok (st', d') -> added d0 d -> added d0 d'.
Proof.
  induction l as [| x l IH]; intros st st' d d' H A; [by injection H as _ <- |]. cbn [instancePowers] in H.
  apply M_bind_inv in H as (ids & e & R & H). apply lift_inv in R as [_ ->].
  apply M_bind_inv in H as (st1 & d1 & R & H). eapply IH; [exact H |]. by eapply instanceIds_added.
Qed.
End Adding.

(** C27: [SetInstancePower] only adds to the power of the mode: whatever the files of the instances
    hold, every power that existed is unchanged, every net that had a power keeps it, a net that
    gets one had none and its new power carries the number of the net, and the powers of the
    list are those of before followed by new ones. *)
Theorem SetInstancePower_adds validRegex regex_match cdlText fuel macros l expected v r d d' :
  (forall a, is_Some (cells (powers d) !! a) -> a < nextAddress (powers d)) ->
  (forall n b, vlookup (netVoltagePtr_v d) n = Some (Some b) -> is_Some (cells (powers d) !! b)) ->
  SetInstancePower validRegex regex_match cdlText fuel macros l expected v d = Ok (r, d') -> added d d'.
Proof.
  intros Hwf Hv H. unfold SetInstancePower in H. apply M_bind_inv in H as (st & d1 & R & H). injection H as _ <-.
  eapply instancePowers_added; [exact Hwf | exact R | by apply added_start].
Qed.

(** The netlist of [exampleCells] with a supply at "vss", the third port. *)
Import Paths.Paths (exampleState, netlistOf).

Definition instanceNetlist : CNetlist :=
  let x := netlistOf exampleState in
  mkNetlist (instancePtr_v x) (deviceParent_v x) [] [] [] [] [] [] [] [] [] [] [] true (seqZ 0 11) ∅
    (deviceCount x) (netCount x) (subcircuitCount x) (netParent_v x).
Definition instanceDb : CCvcDb :=
  set_netVoltagePtr_v [None; None; Some 0; None; None; None; None; None; None; None; None]
   (set_netlist instanceNetlist
     (set_powers (mkHeap {[0 := set_netId 2 (set_typeBit POWER_BIT true (namedPower "vss" " 0 power" 0 0 0))]} 1 1) modeDb)).
Definition setInstances (lines : list text) : outcome ((returnCode_t * list Z * voltageState) * CCvcDb) :=
  SetInstancePower anyRegex noMatch exampleTexts 3 ∅ [mkInstancePower "/X1" "x1" lines] [] (mkVoltageState "" []) instanceDb.

(** Signal, type and levels of a power, and its expected levels. *)
Definition viewPower (d : CCvcDb) (a : Z) : option (text * Z * (Z * Z * Z) * (text * text * text)) :=
  q ← cells (powers d) !! a;
  Some (powerSignal q, netId q, (minVoltage q, simVoltage q, maxVoltage q), (expectedMin q, expectedSim q, expectedMax q)).
Definition viewInstances (lines : list text) :=
  match setInstances lines with
  | Ok ((rc, ex, _), d) => Some (rc, map (viewPower d) ex, map (viewPower d) (drop 3 (cvcPowerPtrList d)))
  | Err _ => None
  end.

(** The supply of the parent becomes a macro, an input is expected, an internal net gets a power. *)
Example instances_example : viewInstances ["vss 0.0 power"; "i min@vss max@1.2 input"; "/n 0.6"] =
  Some (OK, [Some ("/X1/i", 0, (UNKNOWN_VOLTAGE, UNKNOWN_VOLTAGE, UNKNOWN_VOLTAGE), ("0", "", "1.2"))],
        [Some ("/X1/n", 4, (600, 600, 600), ("", "", ""))]).
Proof. vm_compute. reflexivity. Qed.

(** For an input with several nets only the first is expected: the power loses its levels and
    its type, and what is copied to the next net becomes a power without levels. *)
Example instances_bus : viewInstances ["*(inv)/mid min@0 input"] =
  Some (OK, [Some ("*(inv)/mid", 5, (UNKNOWN_VOLTAGE, UNKNOWN_VOLTAGE, UNKNOWN_VOLTAGE), ("0", "", ""))],
        [Some ("*(inv)/mid", 6, (UNKNOWN_VOLTAGE, UNKNOWN_VOLTAGE, UNKNOWN_VOLTAGE), ("0", "", ""))]).
Proof. vm_compute. reflexivity. Qed.

Lemma pointers_check (d : CCvcDb) :
  forallb (fun o => match o with Some b => bool_decide (is_Some (cells (powers d) !! b)) | None => true end) (netVoltagePtr_v d) = true ->
  forall n b, vlookup (netVoltagePtr_v d) n = Some (Some b) -> is_Some (cells (powers d) !! b).
Proof.
  rewrite forallb_forall. intros H n b Hb%Prelude.vlookup_lookup. specialize (H (Some b)).
  apply (bool_decide_eq_true_1 _), H, list_elem_of_In. by eapply list_elem_of_lookup_2.
Qed.

Lemma SetInstancePower_adds_witness :
  exists r d', setInstances ["vss 0.0 power"; "i min@vss max@1.2 input"; "/n 0.6"] = Ok (r, d') /\ added instanceDb d'.
Proof.
  destruct (setInstances ["vss 0.0 power"; "i min@vss max@1.2 input"; "/n 0.6"]) as [[r d'] | e] eqn:E; [| vm_compute in E; discriminate E].
  exists r, d'. split; [reflexivity |].
  refine (SetInstancePower_adds anyRegex noMatch exampleTexts 3 ∅ _ [] _ r instanceDb d' _ _ E).
  - apply addresses_check. vm_compute. reflexivity.
  - apply pointers_check. vm_compute. reflexivity.
Defined.
End InstancePower.
