(* ===== verification/NonConducting.v ===== *)
(** * Non conducting resistors (CCvcDb_init.cc)

    A resistor that is the only connection of a net without power carries no
    current.  [ShortNonConductingResistors] attaches such a net to the other
    side of its resistor, in the virtual nets of all sample points and in the
    device lists, and goes on along the resistors for as long as the other
    side becomes such a net.

    [sourceDrainSet], which is only printed, is left out. *)

From S2P Require Import Prelude CvcTypes EventQueue VirtualNet Numeric Power Db ExampleDb.
From S2P Require Import Connection Netlist Links.
From stdpp Require Import base list strings gmap sets.
From Stdlib Require Import ZArith Lia.
#[local] Open Scope Z_scope.

Module NonConducting.
Import VirtualNet.VirtualNet Power.Power Db.Db Connection.Connection Netlist.Netlist Links.Links.

(** ** Operations *)

(** A resistor not yet shorted among the devices of a list; a second one is an error. *)
Definition connectedStep (myResultDeviceId device_it : Z) : DB (Z + Empty_set) :=
  t ← nlat deviceType_v device_it;
  b ← (if bool_decide (t = RESISTOR) then getDeviceBit device_it SIM_INACTIVE else mret true);
  if negb b then
    if negb (myResultDeviceId =? UNKNOWN_DEVICE) then raise EDatabaseError else mret (inl device_it)
  else mret (inl myResultDeviceId).

Definition loopResult {A} (r : A + Empty_set) : A := match r with inl a => a | inr e => match e with end end.
Definition connectedIn (first next : CNetlist -> list Z) (theNetId myResultDeviceId : Z) : DB Z :=
  r ← overDevicesWith first next theNetId myResultDeviceId connectedStep; mret (loopResult r).

Definition FindUniqueSourceDrainConnectedDevice (theNetId : Z) : DB Z :=
  r ← connectedIn firstSource_v nextSource_v theNetId UNKNOWN_DEVICE;
  connectedIn firstDrain_v nextDrain_v theNetId r.

(** The devices from [device_it] on move in front of the list of [theToNet]; the vectors
    are [theFirstDevice_v], [theNextDevice_v] and [theTerminal_v]. *)
Fixpoint mergeWalk (fuel : nat) (theToNet device_it : Z) (v : list Z * list Z * list Z)
    : outcome (list Z * list Z * list Z) :=
  match fuel with
  | O => throw OutOfFuel
  | S fuel =>
      if device_it =? UNKNOWN_DEVICE then Ok v
      else
        let '(first, next, terminal) := v in
        myNextDevice ← vget next device_it;
        f ← vget first theToNet;
        next ← vset next device_it f;
        first ← vset first theToNet device_it;
        terminal ← vset terminal device_it theToNet;
        mergeWalk fuel theToNet myNextDevice (first, next, terminal)
  end.

Definition MergeConnectionListByTerminals (theFromNet theToNet : Z) (v : list Z * list Z * list Z)
    : outcome (list Z * list Z * list Z) :=
  let '(first, next, _) := v in
  i ← vget first theFromNet;
  '(first, next, terminal) ← mergeWalk (S (length next)) theToNet i v;
  first ← vset first theFromNet UNKNOWN_DEVICE;
  Ok (first, next, terminal).

Fixpoint countFrom (fuel : nat) (next : list Z) (myCount device_it : Z) : outcome Z :=
  match fuel with
  | O => throw OutOfFuel
  | S fuel =>
      if device_it =? UNKNOWN_DEVICE then Ok myCount
      else n ← vget next device_it; countFrom fuel next (u32 (myCount + 1)) n
  end.
Definition RecountConnections (theNetId : Z) (first next : list Z) : outcome Z :=
  i ← vget first theNetId; countFrom (S (length next)) next 0 i.

Definition mergeTerminal (theFromNet theToNet : Z) (t : terminal_t) : DB unit :=
  modifyNl (fun x =>
    '(first, next, terminal) ← MergeConnectionListByTerminals theFromNet theToNet (firstAt t x, nextAt t x, netAt t x);
    Ok (set_nets t terminal (set_links t first next x))).

Definition set_gateCount (n : Z) (k : CConnectionCount) : CConnectionCount :=
  mkConnectionCount (sourceCount k) (drainCount k) n (sourceDrainType k).

Definition recountGates (theNetId : Z) : DB unit :=
  x ← gets netlist;
  n ← lift (RecountConnections theNetId (firstGate_v x) (nextGate_v x));
  countConnection theNetId (set_gateCount n).

Definition MergeConnectionLists (theFromNet theToNet : Z) : DB unit :=
  _ ← mergeTerminal theFromNet theToNet GATE;
  _ ← mergeTerminal theFromNet theToNet SOURCE;
  _ ← mergeTerminal theFromNet theToNet DRAIN;
  _ ← recountGates theFromNet;
  _ ← recountGates theToNet;
  k ← at_ connectionCount_v theFromNet;
  countConnection theToNet (fun x => set_sourceDrainType (Z.lor (sourceDrainType x) (sourceDrainType k)) x).

Definition dropSource (k : CConnectionCount) : CConnectionCount :=
  mkConnectionCount (u32 (sourceCount k - 1)) (drainCount k) (gateCount k) (sourceDrainType k).
Definition dropDrain (k : CConnectionCount) : CConnectionCount :=
  mkConnectionCount (sourceCount k) (u32 (drainCount k - 1)) (gateCount k) (sourceDrainType k).

(** [shortDirection_t]: the terminal on [theFirstNet] and the one on [theSecondNet]. *)
Definition dropEnd (t : terminal_t) : CConnectionCount -> CConnectionCount :=
  match t with SOURCE => dropSource | _ => dropDrain end.
Definition otherEnd (t : terminal_t) : terminal_t := match t with SOURCE => DRAIN | _ => SOURCE end.

Definition attachNet (q : eventQueue_t) (theFirstNet theSecondNet : Z) : DB unit :=
  t ← tickLastUpdate q; setNetM q theFirstNet theSecondNet 1 t.

(** The part of [ShortNonConductingResistor] before it goes on to the next resistor. *)
Definition shortResistor (theDeviceId theFirstNet theSecondNet : Z) (t : terminal_t) : DB unit :=
  _ ← deviceOf theDeviceId;
  _ ← setDeviceBit theDeviceId MAX_INACTIVE true;
  _ ← setDeviceBit theDeviceId MIN_INACTIVE true;
  _ ← setDeviceBit theDeviceId SIM_INACTIVE true;
  _ ← countConnection theFirstNet (dropEnd t);
  _ ← countConnection theSecondNet (dropEnd (otherEnd t));
  _ ← attachNet MIN_QUEUE theFirstNet theSecondNet;
  _ ← attachNet SIM_QUEUE theFirstNet theSecondNet;
  _ ← attachNet MAX_QUEUE theFirstNet theSecondNet;
  _ ← MergeConnectionLists theFirstNet theSecondNet;
  k ← at_ connectionCount_v theFirstNet;
  assertM (SourceDrainCount k =? 0).

(** [SourceDrainCount() == 1 && full == NULL]. *)
Definition isDeadEnd (theNetId : Z) : DB bool :=
  k ← at_ connectionCount_v theNetId;
  if SourceDrainCount k =? 1 then p ← powerAt theNetId; mret (bool_decide (p = None)) else mret false.

Fixpoint ShortNonConductingResistor (fuel : nat) (theDeviceId theFirstNet theSecondNet : Z) (t : terminal_t) : DB unit :=
  match fuel with
  | O => raise OutOfFuel
  | S fuel =>
      _ ← shortResistor theDeviceId theFirstNet theSecondNet t;
      b ← isDeadEnd theSecondNet;
      if (b : bool) then
        myConnectedDeviceId ← FindUniqueSourceDrainConnectedDevice theSecondNet;
        if negb (myConnectedDeviceId =? UNKNOWN_DEVICE) then
          s ← nlat sourceNet_v myConnectedDeviceId;
          dr ← nlat drainNet_v myConnectedDeviceId;
          if s =? theSecondNet then ShortNonConductingResistor fuel myConnectedDeviceId s dr SOURCE
          else if dr =? theSecondNet then ShortNonConductingResistor fuel myConnectedDeviceId dr s DRAIN
          else raise EDatabaseError
        else mret tt
      else mret tt
  end.

(** [topCircuit_p->portCount]. *)
Definition topPortCount : DB Z := x ← nlat instancePtr_v 0; c ← at_ circuits (master_p x); mret (portCount c).

Definition isDanglingNet (theNetId : Z) : DB bool :=
  p ← topPortCount;
  if p <=? theNetId then isDeadEnd theNetId else mret false.

(** One device of the loop; the recursion is as deep as there are devices at most. *)
Definition shortStep (device_it : Z) : DB unit :=
  n ← nl deviceCount;
  t ← nlat deviceType_v device_it;
  b ← (if bool_decide (t = RESISTOR) then getDeviceBit device_it SIM_INACTIVE else mret true);
  if (b : bool) then mret tt
  else
    s ← nlat sourceNet_v device_it;
    dr ← nlat drainNet_v device_it;
    b ← isDanglingNet s;
    if (b : bool) then ShortNonConductingResistor (S (Z.to_nat n)) device_it s dr SOURCE
    else
      b ← isDanglingNet dr;
      if (b : bool) then ShortNonConductingResistor (S (Z.to_nat n)) device_it dr s DRAIN
      else mret tt.

Definition ShortNonConductingResistors : DB unit := forAllDevices shortStep.
End NonConducting.
