(* ===== verification/DeadEnds.v ===== *)
(** * Shorting dead ends (CCvcDb_init.cc)

    What [ShortNonConductingResistors] does to a linked netlist: it ends without
    an error, the device lists, the connection counts and the virtual nets stay
    consistent with each other, and no resistor is left whose current could
    not flow. *)

From S2P Require Import Prelude CvcTypes EventQueue VirtualNet Numeric Power Db ExampleDb.
From S2P Require Import Connection Netlist Links NonConducting.
From stdpp Require Import base list strings gmap sets.
From Stdlib Require Import ZArith Lia.
#[local] Open Scope Z_scope.

Module DeadEnds.
Import VirtualNet.VirtualNet Power.Power Db.Db Connection.Connection Netlist.Netlist Links.Links NonConducting.NonConducting.

(** ** Counting with filters *)

Lemma filter_drop (f g : Z -> bool) l i : NoDup l -> i ∈ l -> f i = true -> g i = false ->
  (forall j, j ∈ l -> j <> i -> g j = f j) -> length (List.filter f l) = S (length (List.filter g l)).
Proof.
  intros Hnd Hi Hf Hg He. induction Hnd as [| x l Hx Hnd IH]; [by apply elem_of_nil in Hi |]. cbn [List.filter].
  destruct (decide (x = i)) as [-> | Hne].
  - rewrite Hf, Hg. cbn [length]. f_equal. f_equal. apply List.filter_ext_in. intros j Hj%list_elem_of_In.
    symmetry. apply He; [by right |]. by intros ->.
  - apply elem_of_cons in Hi as [-> | Hi]; [done |]. rewrite (He x) by (done || by left).
    specialize (IH Hi ltac:(intros; apply He; [by right | done])). destruct (f x); cbn [length]; lia.
Qed.

Lemma filter_two (f g : Z -> bool) l : (forall i, i ∈ l -> f i = true -> g i = false) ->
  (length (List.filter f l) + length (List.filter g l) = length (List.filter (fun i => f i || g i) l))%nat.
Proof.
  induction l as [| x l IH]; intros H; [done |]. cbn [List.filter].
  specialize (IH ltac:(intros; apply H; [by right | done])). specialize (H x ltac:(by left)).
  destruct (f x); [rewrite H by done |]; [| destruct (g x)]; cbn [orb length]; lia.
Qed.

Lemma filter_one (f : Z -> bool) l i j : length (List.filter f l) = 1%nat ->
  i ∈ l -> f i = true -> j ∈ l -> f j = true -> i = j.
Proof.
  intros H Hi Fi Hj Fj. assert (In i (List.filter f l)) as I by (apply List.filter_In; by rewrite <- list_elem_of_In).
  assert (In j (List.filter f l)) as J by (apply List.filter_In; by rewrite <- list_elem_of_In).
  destruct (List.filter f l) as [| x [|]]; try done. destruct I as [<- | []], J as [<- | []]. done.
Qed.

Lemma filter_length_le (f : Z -> bool) l : (length (List.filter f l) <= length l)%nat.
Proof. induction l as [| x l IH]; [done |]. cbn [List.filter length]. destruct (f x); cbn [length]; lia. Qed.

(** ** Merging two lists *)

Lemma mergeWalk_spec to l : forall fuel i first next nets L,
  devPath next i l -> NoDup l -> devicesOf first next to L -> (forall x, x ∈ l -> x ∉ L) -> (length l < fuel)%nat ->
  (forall x, x ∈ l -> is_Some (vlookup nets x)) ->
  exists first' next' nets', mergeWalk fuel to i (first, next, nets) = Ok (first', next', nets') /\
    length first' = length first /\ length next' = length next /\ length nets' = length nets /\
    devicesOf first' next' to (rev l ++ L) /\
    (forall m, m <> to -> vlookup first' m = vlookup first m) /\
    (forall k K, (forall x, x ∈ l -> x ∉ K) -> devPath next k K -> devPath next' k K) /\
    (forall x, vlookup nets' x = if decide (x ∈ l) then Some to else vlookup nets x).
Proof.
  induction l as [| i l IH]; intros fuel k first next nets L Hp Hnd HL Hd Hf Hn; destruct fuel as [| fuel]; try (cbn in Hf; lia);
    cbn [mergeWalk].
  { inversion Hp; subst. rewrite Z.eqb_refl. exists first, next, nets. split_and!; done. }
  inversion Hp as [| ? j ? Hi Ej Hl]; subst. rewrite (proj2 (Z.eqb_neq i UNKNOWN_DEVICE) Hi).
  apply NoDup_cons in Hnd as [Hil Hnd]. destruct HL as (f & Ef & HL).
  pose proof (Hd i ltac:(by left)) as HiL. pose proof (Hn i ltac:(by left)) as [m Em].
  pose proof (vlookup_range _ _ _ Ej). pose proof (vlookup_range _ _ _ Ef). pose proof (vlookup_range _ _ _ Em).
  rewrite (proj2 (vget_Ok _ _ _) Ej). cbn [mbind outcome_bind]. rewrite (proj2 (vget_Ok _ _ _) Ef). cbn [mbind outcome_bind].
  rewrite !vset_in_range by done. cbn [mbind outcome_bind].
  destruct (IH fuel j (vupdate first to i) (vupdate next i f) (vupdate nets i to) (i :: L))
    as (first' & next' & nets' & E & L1 & L2 & L3 & W1 & W2 & W3 & W4).
  - by apply devPath_update.
  - done.
  - exists i. split; [by apply vlookup_vupdate_eq |]. econstructor; [done | by apply vlookup_vupdate_eq | by apply devPath_update].
  - intros x Hx. apply not_elem_of_cons. split; [by intros -> |]. apply Hd. by right.
  - cbn in Hf. lia.
  - intros x Hx. rewrite vlookup_vupdate_ne by (by intros ->). apply Hn. by right.
  - exists first', next', nets'. rewrite !vupdate_length in *. split_and!; try done.
    + cbn [rev]. by rewrite <- app_assoc.
    + intros n Hne. rewrite W2 by done. by rewrite vlookup_vupdate_ne.
    + intros k K HK HP. apply W3; [intros; apply HK; by right |]. apply devPath_update; [| done]. apply HK. by left.
    + intros x. rewrite W4. destruct (decide (x ∈ l)) as [Hx | Hx].
      * by rewrite decide_True by (by right).
      * destruct (decide (x = i)) as [-> | Hne].
        -- rewrite decide_True by (by left). by apply vlookup_vupdate_eq.
        -- rewrite decide_False by (rewrite elem_of_cons; naive_solver). by rewrite vlookup_vupdate_ne.
Qed.

(** The devices of [D] are in the lists of their nets. *)
Definition filed (count : Z) (first next nets D : list Z) : Prop :=
  forall n, 0 <= n < count -> exists l, devicesOf first next n l /\ NoDup l /\
    forall i, i ∈ l <-> i ∈ D /\ vlookup nets i = Some n.

Definition moved (A B : Z) (o : option Z) : option Z := if bool_decide (o = Some A) then Some B else o.

Lemma merge_filed count first next nets D A B : filed count first next nets D ->
  0 <= A < count -> 0 <= B < count -> A <> B ->
  exists first' next' nets', MergeConnectionListByTerminals A B (first, next, nets) = Ok (first', next', nets') /\
    length next' = length next /\
    filed count first' next' nets' D /\ devicesOf first' next' A [] /\
    (forall m l, 0 <= m < count -> m <> A -> m <> B -> devicesOf first next m l -> devicesOf first' next' m l) /\
    (forall x, x ∈ D -> vlookup nets' x = moved A B (vlookup nets x)) /\
    (forall x, x ∉ D -> vlookup nets' x = vlookup nets x).
Proof.
  intros HF HA HB Hne. destruct (HF A HA) as (LA & (a & Ea & HpA) & HnA & HiA). destruct (HF B HB) as (LB & HdB & HnB & HiB).
  unfold MergeConnectionListByTerminals. rewrite (proj2 (vget_Ok _ _ _) Ea). cbn [mbind outcome_bind].
  assert (length LA <= length next)%nat by (apply NoDup_range_length; [done |]; intros j Hj; by eapply devPath_range).
  assert (forall m l, m <> A -> devicesOf first next m l -> 0 <= m < count -> forall x, x ∈ LA -> x ∉ l) as Hdis.
  { intros m l Hm Hl Hr x [_ Hx]%HiA Hxl. destruct (HF m Hr) as (l' & Hl' & _ & Hi'). rewrite (devicesOf_fun _ _ _ _ _ Hl Hl') in Hxl.
    apply Hi' in Hxl as [_ Hxl]. congruence. }
  destruct (mergeWalk_spec B LA (S (length next)) a first next nets LB) as (first' & next' & nets' & E & L1 & L2 & L3 & W1 & W2 & W3 & W4);
    [done | done | done | by apply (Hdis B) | lia | intros x [_ Hx]%HiA; by eexists |].
  rewrite E. cbn [mbind outcome_bind]. pose proof (vlookup_range _ _ _ Ea) as Hra.
  rewrite vset_in_range by lia. cbn [mbind outcome_bind]. eexists _, _, _. split; [done |].
  assert (forall m l, m <> A -> m <> B -> 0 <= m < count -> devicesOf first next m l -> devicesOf (vupdate first' A UNKNOWN_DEVICE) next' m l) as Hold.
  { intros m l HmA HmB Hr Hl. destruct (Hl) as (k & Ek & Hk). exists k. rewrite vlookup_vupdate_ne, W2 by done. split; [done |].
    apply W3; [by apply (Hdis m) | done]. }
  assert (devicesOf (vupdate first' A UNKNOWN_DEVICE) next' A []) as HdA.
  { exists UNKNOWN_DEVICE. split; [apply vlookup_vupdate_eq; lia | constructor]. }
  split_and!; [done | | done | | |].
  - intros n Hn. destruct (Z.eq_dec n A) as [-> | HnA'].
    { exists []. split_and!; [done | constructor |]. intros i. rewrite elem_of_nil. split; [done |]. intros [Hi Hv].
      rewrite W4 in Hv. destruct (decide (i ∈ LA)) as [| Hni]; [congruence |]. by apply Hni, HiA. }
    destruct (Z.eq_dec n B) as [-> | HnB'].
    { exists (rev LA ++ LB). split_and!.
      - destruct W1 as (k & Ek & Hk). exists k. by rewrite vlookup_vupdate_ne.
      - apply NoDup_app. split_and!; [by apply NoDup_ListNoDup, List.NoDup_rev, NoDup_ListNoDup | | done].
        intros x Hx. apply (Hdis B LB); try done. by rewrite list_elem_of_In, in_rev, <- list_elem_of_In.
      - intros i. assert (i ∈ rev LA <-> i ∈ LA) as Hrev by (by rewrite !list_elem_of_In, <- in_rev).
        rewrite elem_of_app, Hrev, W4, HiB.
        destruct (decide (i ∈ LA)) as [Hi | Hi]; [apply HiA in Hi |]; naive_solver congruence. }
    destruct (HF n Hn) as (l & Hl & Hnl & Hil). exists l. split_and!; [by apply Hold | done |].
    intros i. rewrite Hil, W4. destruct (decide (i ∈ LA)) as [Hi | Hi]; [| done]. apply HiA in Hi. naive_solver congruence.
  - intros m l Hr HmA HmB Hl. by apply Hold.
  - intros x Hx. rewrite W4. unfold moved. destruct (decide (x ∈ LA)) as [Hi | Hi].
    + rewrite bool_decide_true by (by apply HiA). done.
    + rewrite bool_decide_false; [done |]. intros Hv. by apply Hi, HiA.
  - intros x Hx. rewrite W4, decide_False; [done |]. intros Hi. by apply Hx, HiA.
Qed.

Lemma countFrom_spec next l : forall fuel c i, devPath next i l -> (length l < fuel)%nat -> 0 <= c ->
  c + Z.of_nat (length l) <= UNKNOWN_DEVICE -> countFrom fuel next c i = Ok (c + Z.of_nat (length l)).
Proof.
  induction l as [| x l IH]; intros fuel c i Hp Hf Hc Hl; destruct fuel as [| fuel]; try (cbn in Hf; lia); cbn [countFrom].
  - inversion Hp; subst. rewrite Z.eqb_refl. do 2 f_equal. cbn. lia.
  - inversion Hp as [| ? j ? Hi Ej Hl']; subst. rewrite (proj2 (Z.eqb_neq x UNKNOWN_DEVICE) Hi).
    rewrite (proj2 (vget_Ok _ _ _) Ej). cbn [mbind outcome_bind length] in *. unfold UNKNOWN_DEVICE, UINT32_MAX in Hl.
    rewrite u32_id by lia. rewrite IH; [f_equal; lia | done | lia | lia | unfold UNKNOWN_DEVICE, UINT32_MAX; lia].
Qed.

Lemma RecountConnections_spec n first next l : devicesOf first next n l -> NoDup l ->
  Z.of_nat (length next) <= UNKNOWN_DEVICE -> RecountConnections n first next = Ok (Z.of_nat (length l)).
Proof.
  intros (i & Ei & Hp) Hnd Hb. unfold RecountConnections. rewrite (proj2 (vget_Ok _ _ _) Ei). cbn [mbind outcome_bind].
  assert (length l <= length next)%nat by (apply NoDup_range_length; [done |]; intros j Hj; by eapply devPath_range).
  rewrite (countFrom_spec next l); [done | done | lia | lia | lia].
Qed.

(** ** Consistent netlists *)

Definition theEnds (t : terminal_t) : Prop := t = SOURCE \/ t = DRAIN.

(** The source and the drain of a device are on different nets. *)
Definition open (x : CNetlist) (i : Z) : bool :=
  match vlookup (sourceNet_v x) i, vlookup (drainNet_v x) i with Some s, Some dr => negb (s =? dr) | _, _ => false end.
Definition endAt (x : CNetlist) (t : terminal_t) (n i : Z) : bool :=
  open x i && bool_decide (vlookup (netAt t x) i = Some n).

(** A resistor that takes part in the propagation. *)
Definition resistor (d : CCvcDb) (i : Z) : Prop :=
  vlookup (deviceType_v (netlist d)) i = Some RESISTOR /\
  exists s, vlookup (deviceStatus_v d) i = Some s /\ status_get s (deviceBit SIM_INACTIVE) = false.

Section Population.
(** The devices linked by source and drain, and those linked by their gate. *)
Context (S_ G_ : list Z).
Definition linkedBy (t : terminal_t) : list Z := match t with GATE => G_ | SOURCE | DRAIN => S_ | BULK => [] end.

Definition endsAt (x : CNetlist) (t : terminal_t) (n : Z) : Z := Z.of_nat (length (List.filter (endAt x t n) S_)).
Definition work (x : CNetlist) : Z := Z.of_nat (length (List.filter (open x) S_)).

(** The connection counts of a net. *)
Definition counted (x : CNetlist) (n : Z) (k : CConnectionCount) : Prop :=
  (forall t, theEnds t -> countAt t k = endsAt x t n) /\
  forall l, devicesOf (firstGate_v x) (nextGate_v x) n l -> gateCount k = Z.of_nat (length l).

(** Nothing hangs on a net that is attached to another net. *)
Definition settled (x : CNetlist) (v : CVirtualNetVector) (n : Z) : Prop :=
  exists e, vlookup (nets v) n = Some e /\ stampable (lastUpdate_v v) n /\
    forall t i, t <> BULK -> i ∈ linkedBy t -> vlookup (netAt t x) i = Some n -> nextNetId e = n.

Record consistent (d : CCvcDb) : Prop := mkConsistent {
  co_sizes : deviceCount (netlist d) <= UNKNOWN_DEVICE /\ netCount (netlist d) <= UNKNOWN_NET /\
    Z.of_nat (length (nextGate_v (netlist d))) <= UNKNOWN_DEVICE;
  co_linked : NoDup S_ /\ NoDup G_ /\ Z.of_nat (length S_) <= UNKNOWN_DEVICE;
  co_lists t : t <> BULK -> filed (netCount (netlist d)) (firstAt t (netlist d)) (nextAt t (netlist d)) (netAt t (netlist d)) (linkedBy t);
  co_nets t i : t <> BULK -> i ∈ linkedBy t -> exists n, vlookup (netAt t (netlist d)) i = Some n /\ 0 <= n < netCount (netlist d);
  co_counts n : 0 <= n < netCount (netlist d) -> exists k, vlookup (connectionCount_v d) n = Some k /\ counted (netlist d) n k;
  co_resistors i : resistor d i -> i ∈ S_ /\ open (netlist d) i = true;
  co_rows i : 0 <= i < deviceCount (netlist d) ->
    is_Some (vlookup (deviceType_v (netlist d)) i) /\ is_Some (vlookup (deviceStatus_v d) i);
  co_devices i : i ∈ S_ -> 0 <= i < deviceCount (netlist d) /\ exists dev, deviceOf i d = Ok (dev, d);
  co_settled q n : 0 <= n < netCount (netlist d) -> settled (netlist d) (netsOf q d) n;
  co_stamps q : lastUpdate (netsOf q d) + work (netlist d) <= INT32_MAX;
  co_powers n : 0 <= n < netCount (netlist d) -> is_Some (vlookup (netVoltagePtr_v d) n);
  co_top : exists p, topPortCount d = Ok (p, d) /\ 0 <= p
}.

Lemma endAt_open x t n i : endAt x t n i = true -> open x i = true /\ vlookup (netAt t x) i = Some n.
Proof. unfold endAt. intros [H1 H2]%andb_true_iff. split; [done | by apply bool_decide_eq_true in H2]. Qed.

Lemma open_ends x i : open x i = true ->
  exists s dr, vlookup (netAt SOURCE x) i = Some s /\ vlookup (netAt DRAIN x) i = Some dr /\ s <> dr.
Proof.
  unfold open. cbn [netAt]. destruct (vlookup (sourceNet_v x) i), (vlookup (drainNet_v x) i); try done.
  intros H%negb_true_iff%Z.eqb_neq. eauto.
Qed.

(** With a single connection a net is an end of a single open device. *)
Lemma single_end d n k : consistent d -> 0 <= n < netCount (netlist d) -> vlookup (connectionCount_v d) n = Some k ->
  SourceDrainCount k = endsAt (netlist d) SOURCE n + endsAt (netlist d) DRAIN n /\
  (SourceDrainCount k = 1 -> forall i j t u, theEnds t -> theEnds u -> i ∈ S_ -> j ∈ S_ ->
     endAt (netlist d) t n i = true -> endAt (netlist d) u n j = true -> i = j /\ t = u).
Proof.
  intros C Hn Ek. destruct (co_counts _ C n Hn) as (k' & Ek' & Hk & _). rewrite Ek in Ek'. injection Ek' as <-.
  assert (forall i, endAt (netlist d) SOURCE n i = true -> endAt (netlist d) DRAIN n i = false) as Hex.
  { intros i [Ho Hs]%endAt_open. apply open_ends in Ho as (s & dr & Es & Ed & Hne). unfold endAt. rewrite Ed.
    rewrite bool_decide_false; [by rewrite andb_false_r | congruence]. }
  pose proof (filter_two _ (endAt (netlist d) DRAIN n) S_ (fun i _ => Hex i)) as H2.
  pose proof (filter_length_le (fun i => endAt (netlist d) SOURCE n i || endAt (netlist d) DRAIN n i) S_) as Hle.
  destruct (co_linked _ C) as (_ & _ & HS).
  assert (SourceDrainCount k = endsAt (netlist d) SOURCE n + endsAt (netlist d) DRAIN n) as Es.
  { unfold SourceDrainCount. pose proof (Hk SOURCE ltac:(by left)) as E1. pose proof (Hk DRAIN ltac:(by right)) as E2. cbn [countAt] in E1, E2.
    rewrite E1, E2. unfold endsAt in *. unfold UNKNOWN_DEVICE, UINT32_MAX in HS. rewrite u32_id by lia. done. }
  split; [done |]. rewrite Es. unfold endsAt. intros H1 i j t u Ht Hu Hi Hj Fi Fj.
  assert (i = j) as <-.
  { apply (filter_one (fun i => endAt (netlist d) SOURCE n i || endAt (netlist d) DRAIN n i) S_); [lia | done | | done |];
      [destruct Ht as [-> | ->]; rewrite Fi | destruct Hu as [-> | ->]; rewrite Fj]; by rewrite ?orb_true_r. }
  split; [done |]. destruct Ht as [-> | ->], Hu as [-> | ->]; try done; rewrite (Hex i) in *; congruence.
Qed.
End Population.

(** ** One short *)

Lemma setBit_run i b d s : vlookup (deviceStatus_v d) i = Some s ->
  setDeviceBit i b true d = Ok (tt, set_deviceStatus_v (vupdate (deviceStatus_v d) i (status_set s (deviceBit b) true)) d).
Proof. intros E. unfold setDeviceBit, mbind, M_bind, at_, lift. apply vget_Ok in E. by rewrite E. Qed.

Lemma deviceStatus_set v d : deviceStatus_v (set_deviceStatus_v v d) = v.
Proof. by destruct d. Qed.
Lemma connectionCount_set v d : connectionCount_v (set_connectionCount_v v d) = v.
Proof. by destruct d. Qed.

Definition markInactive (i : Z) : DB unit :=
  _ ← setDeviceBit i MAX_INACTIVE true; _ ← setDeviceBit i MIN_INACTIVE true; setDeviceBit i SIM_INACTIVE true.

Lemma markInactive_run i d s : vlookup (deviceStatus_v d) i = Some s -> exists s',
  markInactive i d = Ok (tt, set_deviceStatus_v (vupdate (deviceStatus_v d) i s') d) /\
  status_get s' (deviceBit SIM_INACTIVE) = true.
Proof.
  intros E. pose proof (vlookup_range _ _ _ E) as Hr. unfold markInactive. eexists.
  rewrite (M_run _ _ _ _ _ (setBit_run i MAX_INACTIVE d s E)).
  erewrite (M_run (setDeviceBit i MIN_INACTIVE true)) by
    (apply setBit_run; rewrite deviceStatus_set; by apply vlookup_vupdate_eq).
  erewrite setBit_run by (rewrite !deviceStatus_set; apply vlookup_vupdate_eq; by rewrite vupdate_length).
  rewrite !deviceStatus_set, !vupdate_vupdate. split; [by destruct d |]. rewrite status_get_set by (vm_compute; discriminate). by rewrite Z.eqb_refl.
Qed.

Lemma countConnection_run n f d k : vlookup (connectionCount_v d) n = Some k ->
  countConnection n f d = Ok (tt, set_connectionCount_v (vupdate (connectionCount_v d) n (f k)) d).
Proof. intros E. unfold countConnection, mbind, M_bind, at_, lift. apply vget_Ok in E. by rewrite E. Qed.

(** What the two counts become. *)
Definition dropped (x : CNetlist) (i n : Z) (k k' : CConnectionCount) : Prop :=
  gateCount k' = gateCount k /\
  forall u, theEnds u -> countAt u k' = if decide (vlookup (netAt u x) i = Some n) then u32 (countAt u k - 1) else countAt u k.

Lemma dropEnds_run i A B t d ka kb : theEnds t ->
  vlookup (netAt t (netlist d)) i = Some A -> vlookup (netAt (otherEnd t) (netlist d)) i = Some B -> A <> B ->
  vlookup (connectionCount_v d) A = Some ka -> vlookup (connectionCount_v d) B = Some kb ->
  exists cc, (_ ← countConnection A (dropEnd t); countConnection B (dropEnd (otherEnd t))) d = Ok (tt, set_connectionCount_v cc d) /\
    forall n k, vlookup (connectionCount_v d) n = Some k -> exists k', vlookup cc n = Some k' /\ dropped (netlist d) i n k k'.
Proof.
  intros Ht EA EB Hne Ea Eb. eexists. rewrite (M_run _ _ _ _ _ (countConnection_run A _ d ka Ea)).
  rewrite (countConnection_run B _ _ kb) by (rewrite connectionCount_set; by rewrite vlookup_vupdate_ne).
  rewrite connectionCount_set. split; [by destruct d |]. intros n k En.
  pose proof (vlookup_range _ _ _ Ea). pose proof (vlookup_range _ _ _ Eb).
  assert (forall v, vlookup (vupdate (vupdate (connectionCount_v d) A v) B (dropEnd (otherEnd t) kb)) B = Some (dropEnd (otherEnd t) kb)) as HB
    by (intros v; apply vlookup_vupdate_eq; by rewrite vupdate_length).
  destruct (Z.eq_dec n B) as [-> | HnB]; [| rewrite vlookup_vupdate_ne by done; destruct (Z.eq_dec n A) as [-> | HnA]].
  - exists (dropEnd (otherEnd t) kb). split; [apply HB |]. assert (k = kb) as -> by congruence.
    split; [by destruct Ht as [-> | ->] |]. intros u Hu.
    destruct Ht as [-> | ->], Hu as [-> | ->]; cbn [otherEnd dropEnd netAt] in *; rewrite ?EA, ?EB;
      (first [rewrite decide_True by done | rewrite decide_False by congruence]); done.
  - exists (dropEnd t ka). split; [by apply vlookup_vupdate_eq |]. assert (k = ka) as -> by congruence.
    split; [by destruct Ht as [-> | ->] |]. intros u Hu.
    destruct Ht as [-> | ->], Hu as [-> | ->]; cbn [otherEnd dropEnd netAt] in *; rewrite ?EA, ?EB;
      (first [rewrite decide_True by done | rewrite decide_False by congruence]); done.
  - exists k. rewrite vlookup_vupdate_ne by done. split; [done |]. split; [done |]. intros u Hu.
    destruct Ht as [-> | ->], Hu as [-> | ->]; cbn [otherEnd netAt] in *; rewrite ?EA, ?EB; by rewrite decide_False by congruence.
Qed.

(** Attaching a net that is an end to another one. *)
Definition attachedTo (v v' : CVirtualNetVector) (A B : Z) : Prop :=
  exists e', nets v' = vupdate (nets v) A e' /\ nextNetId e' = B /\ lastUpdate v' = lastUpdate v + 1 /\
    length (lastUpdate_v v') = length (lastUpdate_v v).

Lemma Set_attach v A B r t ea eb : vlookup (nets v) A = Some ea -> vlookup (nets v) B = Some eb -> nextNetId eb = B ->
  A <> B -> B <> UNKNOWN_NET -> stampable (lastUpdate_v v) A -> exists e',
  Set_ v A B r t = Ok (mkVirtualNetVector (vupdate (nets v) A e') t (vupdate (lastUpdate_v v) A t) (calculatedBit v)) /\ nextNetId e' = B.
Proof.
  intros Ea Eb Hb Hne HB Eu. unfold Set_. pose proof (vlookup_range _ _ _ Ea).
  rewrite (proj2 (vget_Ok _ _ _) Eb). cbn [mbind outcome_bind]. rewrite Hb. rewrite (proj2 (Z.eqb_neq B A)) by congruence. cbn [andb].
  rewrite (proj2 (vget_Ok _ _ _) Ea). cbn [mbind outcome_bind]. rewrite (vset_in_range (nets v)) by done. cbn [mbind outcome_bind].
  rewrite (proj2 (Z.eqb_neq B UNKNOWN_NET) HB).
  assert (exists f, chaseFuel = S (S f)) as [f ->] by (exists (chaseFuel - 2)%nat; pose proof chaseFuel_val; lia).
  cbn [chase]. erewrite (proj2 (vget_Ok (vupdate (nets v) A _) A _)) by (by apply vlookup_vupdate_eq). cbn [mbind outcome_bind nextNetId].
  rewrite (proj2 (Z.eqb_neq A B) Hne). cbn [Z.ltb Z.compare Z.add mbind outcome_bind].
  replace (vget (vupdate (nets v) A _) B) with (Ok eb) by (symmetry; apply vget_Ok; by rewrite vlookup_vupdate_ne).
  change (5000 <? 0 + 1) with false. cbn [mbind outcome_bind]. rewrite Hb, Z.eqb_refl. cbn [mbind outcome_bind].
  rewrite (vset_in_range (vupdate (nets v) A _)) by (by rewrite vupdate_length). cbn [mbind outcome_bind].
  rewrite (proj2 (stamp_Ok _ _ _ _) (conj Eu eq_refl)). cbn [mbind outcome_bind].
  rewrite vupdate_vupdate. eexists. split; [reflexivity | done].
Qed.

Lemma attachNet_run q A B d ea eb : vlookup (nets (netsOf q d)) A = Some ea -> vlookup (nets (netsOf q d)) B = Some eb ->
  nextNetId eb = B -> A <> B -> B <> UNKNOWN_NET -> stampable (lastUpdate_v (netsOf q d)) A ->
  lastUpdate (netsOf q d) < INT32_MAX ->
  exists v, attachNet q A B d = Ok (tt, set_netsOf q v d) /\ attachedTo (netsOf q d) v A B.
Proof.
  intros Ea Eb Hb Hne HB Eu Hl.
  assert (tickLastUpdate q d = Ok (lastUpdate (netsOf q d) + 1, set_netsOf q (set_lastUpdate (lastUpdate (netsOf q d) + 1) (netsOf q d)) d)) as Et.
  { unfold tickLastUpdate, lastUpdateM, mbind, M_bind, gets, modify. by rewrite (proj2 (Z.eqb_neq _ _)) by lia. }
  unfold attachNet. rewrite (M_run _ _ _ _ _ Et). unfold setNetM.
  replace (netsOf q (set_netsOf q _ d)) with (set_lastUpdate (lastUpdate (netsOf q d) + 1) (netsOf q d)) by (by destruct d, q).
  destruct (Set_attach (set_lastUpdate (lastUpdate (netsOf q d) + 1) (netsOf q d)) A B 1 (lastUpdate (netsOf q d) + 1) ea eb)
    as (e' & E & He); [by destruct (netsOf q d).. |]. rewrite E. eexists. split; [destruct d, q; reflexivity |].
  exists e'. split_and!; try done. cbn. rewrite vupdate_length. by destruct (netsOf q d).
Qed.

(** The lists of the three terminals, merged one after the other. *)
Section Merged.
Context (S_ G_ : list Z) (A B : Z).
Abbreviation D := (linkedBy S_ G_).

Definition same_static (x x' : CNetlist) : Prop :=
  deviceType_v x' = deviceType_v x /\ instancePtr_v x' = instancePtr_v x /\ deviceParent_v x' = deviceParent_v x /\
  netCount x' = netCount x /\ deviceCount x' = deviceCount x.

Definition mergedAt (x x' : CNetlist) (u : terminal_t) : Prop :=
  filed (netCount x) (firstAt u x') (nextAt u x') (netAt u x') (D u) /\
  length (nextAt u x') = length (nextAt u x) /\
  (forall m l, 0 <= m < netCount x -> m <> A -> m <> B ->
     devicesOf (firstAt u x) (nextAt u x) m l -> devicesOf (firstAt u x') (nextAt u x') m l) /\
  (forall j, j ∈ D u -> vlookup (netAt u x') j = moved A B (vlookup (netAt u x) j)).

Lemma mergeTerminal_run u d : u <> BULK -> 0 <= A < netCount (netlist d) -> 0 <= B < netCount (netlist d) -> A <> B ->
  filed (netCount (netlist d)) (firstAt u (netlist d)) (nextAt u (netlist d)) (netAt u (netlist d)) (D u) ->
  exists x', mergeTerminal A B u d = Ok (tt, set_netlist x' d) /\ same_static (netlist d) x' /\ mergedAt (netlist d) x' u /\
    forall t, t <> u -> firstAt t x' = firstAt t (netlist d) /\ nextAt t x' = nextAt t (netlist d) /\ netAt t x' = netAt t (netlist d).
Proof.
  intros Hu HA HB Hne HF. destruct (merge_filed _ _ _ _ _ A B HF HA HB Hne) as (first' & next' & nets' & E & L & F & _ & Hg & Hm & _).
  unfold mergeTerminal, modifyNl. rewrite E. cbn [mbind outcome_bind]. eexists. split; [done |]. split_and!; try done.
  - destruct u; try done; split_and!; done.
  - intros t Ht. by destruct u, t.
Qed.

Definition mergedLists (x x' : CNetlist) : Prop := same_static x x' /\ forall u, u <> BULK -> mergedAt x x' u.

Lemma mergeTerminals_run d : 0 <= A < netCount (netlist d) -> 0 <= B < netCount (netlist d) -> A <> B ->
  (forall u, u <> BULK -> filed (netCount (netlist d)) (firstAt u (netlist d)) (nextAt u (netlist d)) (netAt u (netlist d)) (D u)) ->
  exists x', (_ ← mergeTerminal A B GATE; _ ← mergeTerminal A B SOURCE; mergeTerminal A B DRAIN) d = Ok (tt, set_netlist x' d) /\
    mergedLists (netlist d) x'.
Proof.
  intros HA HB Hne HF.
  destruct (mergeTerminal_run GATE d) as (x1 & E1 & S1 & M1 & O1); [done.. | by apply HF |].
  destruct (mergeTerminal_run SOURCE (set_netlist x1 d)) as (x2 & E2 & S2 & M2 & O2); rewrite ?netlist_set.
  { done. } { by rewrite (proj1 (proj2 (proj2 (proj2 S1)))). } { by rewrite (proj1 (proj2 (proj2 (proj2 S1)))). } { done. }
  { destruct (O1 SOURCE ltac:(done)) as (-> & -> & ->). rewrite (proj1 (proj2 (proj2 (proj2 S1)))). by apply HF. }
  rewrite netlist_set in *.
  destruct (mergeTerminal_run DRAIN (set_netlist x2 d)) as (x3 & E3 & S3 & M3 & O3); rewrite ?netlist_set.
  { done. } { by rewrite (proj1 (proj2 (proj2 (proj2 S2)))), (proj1 (proj2 (proj2 (proj2 S1)))). }
  { by rewrite (proj1 (proj2 (proj2 (proj2 S2)))), (proj1 (proj2 (proj2 (proj2 S1)))). } { done. }
  { destruct (O2 DRAIN ltac:(done)) as (-> & -> & ->), (O1 DRAIN ltac:(done)) as (-> & -> & ->).
    rewrite (proj1 (proj2 (proj2 (proj2 S2)))), (proj1 (proj2 (proj2 (proj2 S1)))). by apply HF. }
  rewrite netlist_set in *. exists x3. split.
  - rewrite (M_run _ _ _ _ _ E1). replace (set_netlist x2 (set_netlist x1 d)) with (set_netlist x2 d) in E2 by (by destruct d).
    rewrite (M_run _ _ _ _ _ E2). rewrite E3. by destruct d.
  - unfold same_static in *. destruct S1 as (T1 & I1 & P1 & N1 & C1), S2 as (T2 & I2 & P2 & N2 & C2), S3 as (T3 & I3 & P3 & N3 & C3).
    split; [split_and!; congruence |]. intros u Hu. unfold mergedAt in *. destruct u; [| | | done].
    + destruct (O3 GATE ltac:(done)) as (-> & -> & ->), (O2 GATE ltac:(done)) as (-> & -> & ->). done.
    + destruct (O3 SOURCE ltac:(done)) as (-> & -> & ->), (O1 SOURCE ltac:(done)) as (e1 & e2 & e3). by rewrite <- e1, <- e2, <- e3, <- N1.
    + destruct (O2 DRAIN ltac:(done)) as (f1 & f2 & f3), (O1 DRAIN ltac:(done)) as (e1 & e2 & e3).
      by rewrite <- e1, <- e2, <- e3, <- f1, <- f2, <- f3, <- N1, <- N2.
Qed.
End Merged.

(** Grouped steps. *)
Lemma M_run2 {C} (a b : DB unit) (k : DB C) d d' : (_ ← a; b) d = Ok (tt, d') -> (_ ← a; _ ← b; k) d = k d'.
Proof. unfold mbind, M_bind. destruct (a d) as [[[] e] |]; [| done]. by intros ->. Qed.
Lemma M_run3 {C} (a b c : DB unit) (k : DB C) d d' : (_ ← a; _ ← b; c) d = Ok (tt, d') -> (_ ← a; _ ← b; _ ← c; k) d = k d'.
Proof.
  unfold mbind, M_bind. destruct (a d) as [[[] e] |]; [| done]. destruct (b e) as [[[] e'] |]; [| done]. by intros ->.
Qed.

Lemma recountGates_run n d l k : devicesOf (firstGate_v (netlist d)) (nextGate_v (netlist d)) n l -> NoDup l ->
  Z.of_nat (length (nextGate_v (netlist d))) <= UNKNOWN_DEVICE -> vlookup (connectionCount_v d) n = Some k ->
  recountGates n d = Ok (tt, set_connectionCount_v (vupdate (connectionCount_v d) n (set_gateCount (Z.of_nat (length l)) k)) d).
Proof.
  intros Hl Hnd Hs Ek. unfold recountGates, gets, lift. unfold mbind at 1, M_bind at 1. unfold mbind at 1, M_bind at 1.
  rewrite (RecountConnections_spec n _ _ l Hl Hnd Hs). by apply countConnection_run.
Qed.

Definition mergeCounts (A B : Z) : DB unit :=
  _ ← recountGates A; _ ← recountGates B; k ← at_ connectionCount_v A;
  countConnection B (fun x => set_sourceDrainType (Z.lor (sourceDrainType x) (sourceDrainType k)) x).

(** Only gate counts and device types change. *)
Definition regated (A B : Z) (lA lB : list Z) (n : Z) (k k' : CConnectionCount) : Prop :=
  (forall u, theEnds u -> countAt u k' = countAt u k) /\
  gateCount k' = if Z.eq_dec n A then Z.of_nat (length lA) else if Z.eq_dec n B then Z.of_nat (length lB) else gateCount k.

Lemma mergeCounts_run A B d lA lB kA kB : A <> B ->
  devicesOf (firstGate_v (netlist d)) (nextGate_v (netlist d)) A lA -> NoDup lA ->
  devicesOf (firstGate_v (netlist d)) (nextGate_v (netlist d)) B lB -> NoDup lB ->
  Z.of_nat (length (nextGate_v (netlist d))) <= UNKNOWN_DEVICE ->
  vlookup (connectionCount_v d) A = Some kA -> vlookup (connectionCount_v d) B = Some kB ->
  exists cc, mergeCounts A B d = Ok (tt, set_connectionCount_v cc d) /\
    forall n k, vlookup (connectionCount_v d) n = Some k -> exists k', vlookup cc n = Some k' /\ regated A B lA lB n k k'.
Proof.
  intros Hne HlA HnA HlB HnB Hs EA EB. pose proof (vlookup_range _ _ _ EA) as HA. pose proof (vlookup_range _ _ _ EB) as HB.
  assert (forall v, netlist (set_connectionCount_v v d) = netlist d) as En by (by destruct d).
  set (c1 := vupdate (connectionCount_v d) A (set_gateCount (Z.of_nat (length lA)) kA)).
  set (c2 := vupdate c1 B (set_gateCount (Z.of_nat (length lB)) kB)).
  assert (vlookup c1 B = Some kB) as E1 by (unfold c1; by rewrite vlookup_vupdate_ne).
  assert (vlookup c2 A = Some (set_gateCount (Z.of_nat (length lA)) kA)) as E2
    by (unfold c2, c1; rewrite vlookup_vupdate_ne by done; by apply vlookup_vupdate_eq).
  assert (vlookup c2 B = Some (set_gateCount (Z.of_nat (length lB)) kB)) as E3
    by (unfold c2; apply vlookup_vupdate_eq; unfold c1; by rewrite vupdate_length).
  unfold mergeCounts. rewrite (M_run _ _ _ _ _ (recountGates_run A d lA kA HlA HnA Hs EA)). fold c1.
  erewrite (M_run (recountGates B)) by (apply (recountGates_run B _ lB kB); rewrite ?En, ?connectionCount_set; done).
  rewrite connectionCount_set. fold c2. unfold at_, lift at 1. unfold mbind at 1, M_bind at 1.
  rewrite connectionCount_set, (proj2 (vget_Ok _ _ _) E2).
  erewrite countConnection_run by (rewrite connectionCount_set; exact E3). rewrite connectionCount_set.
  eexists. split; [by destruct d |]. intros n k Ek.
  destruct (Z.eq_dec n B) as [-> | HnB']; [| rewrite vlookup_vupdate_ne by done; destruct (Z.eq_dec n A) as [-> | HnA']].
  - eexists. split; [apply vlookup_vupdate_eq; unfold c2, c1; by rewrite !vupdate_length |]. assert (k = kB) as -> by congruence.
    split; [by intros u [-> | ->] |]. destruct (Z.eq_dec B A); [congruence |]. by destruct (Z.eq_dec B B).
  - eexists. split; [exact E2 |]. assert (k = kA) as -> by congruence. split; [by intros u [-> | ->] |]. by destruct (Z.eq_dec A A).
  - exists k. unfold c2, c1. rewrite !vlookup_vupdate_ne by done. split; [done |]. split; [done |].
    by destruct (Z.eq_dec n A), (Z.eq_dec n B).
Qed.

(** ** The effect of a short *)

Section Short.
Context (S_ G_ : list Z).

Record shortDone (i A B : Z) (d d' : CCvcDb) : Prop := mkShortDone {
  sd_merged : mergedLists S_ G_ A B (netlist d) (netlist d');
  sd_powers : netVoltagePtr_v d' = netVoltagePtr_v d;
  sd_circuits : circuits d' = circuits d;
  sd_status j : vlookup (deviceStatus_v d') j = vlookup (deviceStatus_v d) j \/ j = i;
  sd_marked : exists s, vlookup (deviceStatus_v d') i = Some s /\ status_get s (deviceBit SIM_INACTIVE) = true;
  sd_counts n k : vlookup (connectionCount_v d) n = Some k -> 0 <= n < netCount (netlist d) ->
    exists k', vlookup (connectionCount_v d') n = Some k' /\
      (forall u, theEnds u -> countAt u k' = if decide (vlookup (netAt u (netlist d)) i = Some n) then u32 (countAt u k - 1) else countAt u k) /\
      (n = A \/ n = B -> forall l, devicesOf (firstGate_v (netlist d')) (nextGate_v (netlist d')) n l -> gateCount k' = Z.of_nat (length l)) /\
      (n <> A -> n <> B -> gateCount k' = gateCount k);
  sd_nets q : attachedTo (netsOf q d) (netsOf q d') A B
}.

(** The net [A] can be attached to [B]. *)
Definition attachable (v : CVirtualNetVector) (A B : Z) : Prop :=
  is_Some (vlookup (nets v) A) /\ (exists e, vlookup (nets v) B = Some e /\ nextNetId e = B) /\
  stampable (lastUpdate_v v) A /\ lastUpdate v < INT32_MAX.

Lemma attach_run A B d : A <> B -> B <> UNKNOWN_NET -> (forall q, attachable (netsOf q d) A B) ->
  exists v1 v2 v3, (_ ← attachNet MIN_QUEUE A B; _ ← attachNet SIM_QUEUE A B; attachNet MAX_QUEUE A B) d =
      Ok (tt, set_maxNet_v v3 (set_simNet_v v2 (set_minNet_v v1 d))) /\
    attachedTo (minNet_v d) v1 A B /\ attachedTo (simNet_v d) v2 A B /\ attachedTo (maxNet_v d) v3 A B.
Proof.
  intros Hne HB H.
  destruct (H MIN_QUEUE) as ([? ?] & (? & ? & ?) & ? & ?). edestruct (attachNet_run MIN_QUEUE A B d) as (v1 & E1 & W1); try eassumption.
  destruct (H SIM_QUEUE) as ([? ?] & (? & ? & ?) & ? & ?).
  edestruct (attachNet_run SIM_QUEUE A B (set_minNet_v v1 d)) as (v2 & E2 & W2); try eassumption; try (destruct d; eassumption).
  destruct (H MAX_QUEUE) as ([? ?] & (? & ? & ?) & ? & ?).
  edestruct (attachNet_run MAX_QUEUE A B (set_simNet_v v2 (set_minNet_v v1 d))) as (v3 & E3 & W3); try eassumption; try (destruct d; eassumption).
  exists v1, v2, v3. rewrite (M_run _ _ _ _ _ E1). cbn [set_netsOf] in *. rewrite (M_run _ _ _ _ _ E2). cbn [set_netsOf] in *. rewrite E3.
  split_and!; [done | done | by destruct d | by destruct d].
Qed.

Lemma fields d st cc v1 v2 v3 x cc' :
  let d' := set_connectionCount_v cc' (set_netlist x (set_maxNet_v v3 (set_simNet_v v2 (set_minNet_v v1
              (set_connectionCount_v cc (set_deviceStatus_v st d)))))) in
  netlist d' = x /\ deviceStatus_v d' = st /\ connectionCount_v d' = cc' /\ minNet_v d' = v1 /\ simNet_v d' = v2 /\ maxNet_v d' = v3 /\
  netVoltagePtr_v d' = netVoltagePtr_v d /\ circuits d' = circuits d.
Proof. by destruct d. Qed.

Lemma attachable_settled d A B q : consistent S_ G_ d -> 0 <= A < netCount (netlist d) -> 0 <= B < netCount (netlist d) ->
  (exists t i, t <> BULK /\ i ∈ linkedBy S_ G_ t /\ vlookup (netAt t (netlist d)) i = Some B) -> 0 < work S_ (netlist d) ->
  attachable (netsOf q d) A B.
Proof.
  intros C HA HB (t & i & Ht & Hi & Ei) Hw. destruct (co_settled _ _ _ C q A HA) as (ea & Ea & Ua & _).
  destruct (co_settled _ _ _ C q B HB) as (eb & Eb & Ub & Hb). pose proof (co_stamps _ _ _ C q).
  split_and!; [by eexists | exists eb; eauto | done | lia].
Qed.

(** The terminals of a device that is shorted. *)
Record between (d : CCvcDb) (i A B : Z) (t : terminal_t) : Prop := mkBetween {
  bt_end : theEnds t;
  bt_resistor : resistor d i;
  bt_first : vlookup (netAt t (netlist d)) i = Some A;
  bt_second : vlookup (netAt (otherEnd t) (netlist d)) i = Some B
}.

Lemma between_facts d i A B t : consistent S_ G_ d -> between d i A B t ->
  i ∈ S_ /\ A <> B /\ 0 <= A < netCount (netlist d) /\ 0 <= B < netCount (netlist d) /\ 0 < work S_ (netlist d).
Proof.
  intros C [Ht Hr EA EB]. destruct (co_resistors _ _ _ C i Hr) as [Hi Ho].
  assert (theEnds (otherEnd t)) as Ht' by (destruct Ht as [-> | ->]; [by right | by left]).
  assert (forall u n, theEnds u -> vlookup (netAt u (netlist d)) i = Some n -> 0 <= n < netCount (netlist d)) as Hr'.
  { intros u n Hu En. destruct (co_nets _ _ _ C u i) as (m & Em & Hm); [by destruct Hu as [-> | ->].. |]. congruence. }
  destruct (open_ends _ _ Ho) as (s & dr & Es & Ed & Hne). pose proof (Hr' _ _ Ht EA). pose proof (Hr' _ _ Ht' EB).
  split_and!; [done | | lia | lia | lia | lia |].
  - destruct Ht as [-> | ->]; cbn [otherEnd] in EB; congruence.
  - unfold work. assert (In i (List.filter (open (netlist d)) S_)) as Hin by (apply List.filter_In; by rewrite <- list_elem_of_In).
    destruct (List.filter _ _); [done | cbn; lia].
Qed.

Lemma shortResistor_run d i A B t : consistent S_ G_ d -> between d i A B t ->
  exists d', shortResistor i A B t d = (k ← at_ connectionCount_v A; assertM (SourceDrainCount k =? 0)) d' /\ shortDone i A B d d'.
Proof.
  intros C Hb. destruct (between_facts d i A B t C Hb) as (Hi & Hne & HA & HB & Hw). destruct Hb as [Ht Hr EA EB].
  destruct (co_devices _ _ _ C i Hi) as (Hir & dev & Edev). destruct (co_rows _ _ _ C i Hir) as [_ [s Es]].
  destruct (co_sizes _ _ _ C) as (_ & Hnc & Hgl).
  destruct (co_counts _ _ _ C A HA) as (ka & Eka & _ & _). destruct (co_counts _ _ _ C B HB) as (kb & Ekb & _ & _).
  destruct (markInactive_run i d s Es) as (s' & E1 & Hs'). set (d1 := set_deviceStatus_v _ d) in E1.
  destruct (dropEnds_run i A B t d1 ka kb) as (cc & E2 & Hcc); [by destruct d.. |]. set (d2 := set_connectionCount_v cc d1) in E2.
  assert (i ∈ linkedBy S_ G_ (otherEnd t)) as Hit by (by destruct Ht as [-> | ->]).
  destruct (attach_run A B d2) as (v1 & v2 & v3 & E3 & H1 & H2 & H3); [done | lia | |].
  { intros q. replace (netsOf q d2) with (netsOf q d) by (by destruct d, q). apply attachable_settled; try done.
    exists (otherEnd t), i. split_and!; [by destruct Ht as [-> | ->] | done | done]. }
  set (d3 := set_maxNet_v v3 _) in E3. assert (netlist d3 = netlist d) as En3 by (by destruct d).
  destruct (mergeTerminals_run S_ G_ A B d3) as (x' & E4 & Hm); rewrite ?En3; try done; [by apply C |].
  rewrite En3 in Hm. set (d4 := set_netlist x' d3) in E4.
  destruct Hm as [Hst Hmt]. destruct (Hmt GATE ltac:(done)) as (Hf & Hl & Hg & _). cbn [firstAt nextAt netAt] in Hf, Hl, Hg.
  destruct (Hf A HA) as (lA & HlA & HnA & _). destruct (Hf B HB) as (lB & HlB & HnB & _).
  assert (netlist d4 = x' /\ connectionCount_v d4 = cc) as [En4 Ec4] by (by destruct d).
  assert (connectionCount_v d1 = connectionCount_v d /\ netlist d1 = netlist d) as [Ec1 En1] by (by destruct d). rewrite Ec1 in Hcc.
  destruct (Hcc A ka Eka) as (ka' & Ea' & _). destruct (Hcc B kb Ekb) as (kb' & Eb' & _).
  destruct (mergeCounts_run A B d4 lA lB ka' kb') as (cc' & E5 & Hcc'); rewrite ?En4, ?Ec4; try done; [by rewrite Hl |].
  exists (set_connectionCount_v cc' d4). split.
  - unfold shortResistor, MergeConnectionLists. rewrite (M_run _ _ _ _ _ Edev). rewrite (M_run3 _ _ _ _ _ _ E1). rewrite (M_run2 _ _ _ _ _ E2).
    rewrite (M_run3 _ _ _ _ _ _ E3). unfold mbind at 1, M_bind at 1. rewrite (M_run3 _ _ _ _ _ _ E4). fold (mergeCounts A B). by rewrite E5.
  - destruct (fields d (vupdate (deviceStatus_v d) i s') cc v1 v2 v3 x' cc') as (F1 & F2 & F3 & F4 & F5 & F6 & F7 & F8).
    fold d1 d2 d3 d4 in F1, F2, F3, F4, F5, F6, F7, F8. pose proof (vlookup_range _ _ _ Es) as Hrs.
    constructor; rewrite ?F1, ?F2, ?F3; try done.
    + intros j. destruct (Z.eq_dec j i) as [-> | Hj]; [by right | left]. by rewrite vlookup_vupdate_ne.
    + exists s'. split; [by apply vlookup_vupdate_eq | done].
    + intros n k En Hn. destruct (Hcc n k En) as (k1 & En1' & Hg1 & Hd1). rewrite Ec4 in Hcc'.
      destruct (Hcc' n k1 En1') as (k2 & En2 & Hu2 & Hg2). exists k2. rewrite En1 in Hd1. split_and!; [done | | |].
      * intros u Hu. rewrite Hu2 by done. by apply Hd1.
      * intros Hor l Hl'. rewrite Hg2. destruct (Z.eq_dec n A) as [-> |]; [by rewrite (devicesOf_fun _ _ _ _ _ Hl' HlA) |].
        destruct (Z.eq_dec n B) as [-> |]; [by rewrite (devicesOf_fun _ _ _ _ _ Hl' HlB) | naive_solver].
      * intros HnA' HnB'. rewrite Hg2, <- Hg1. by destruct (Z.eq_dec n A), (Z.eq_dec n B).
    + assert (minNet_v d2 = minNet_v d /\ simNet_v d2 = simNet_v d /\ maxNet_v d2 = maxNet_v d) as (e1 & e2 & e3) by (by destruct d).
      rewrite e1, e2, e3 in *. intros []; cbn [netsOf]; rewrite ?F4, ?F5, ?F6; done.
Qed.

Lemma topPortCount_frame d d' p : instancePtr_v (netlist d') = instancePtr_v (netlist d) -> circuits d' = circuits d ->
  topPortCount d = Ok (p, d) -> topPortCount d' = Ok (p, d').
Proof.
  intros E1 E3. unfold topPortCount, mbind, M_bind, nlat, at_, lift. rewrite E1.
  destruct (vget (instancePtr_v (netlist d)) 0); [| done]. rewrite E3. destruct (vget (circuits d) (master_p a)); [| done].
  intros H. by injection H as ->.
Qed.

Section Step.
Context (d d' : CCvcDb) (i A B : Z) (t : terminal_t) (kA : CConnectionCount).
Context (C : consistent S_ G_ d) (Hb : between d i A B t) (H : shortDone i A B d d').
Context (EkA : vlookup (connectionCount_v d) A = Some kA) (HkA : SourceDrainCount kA = 1).
Abbreviation x := (netlist d).
Abbreviation x' := (netlist d').

Lemma sh_static : same_static x x'.
Proof. apply (sd_merged _ _ _ _ _ H). Qed.
Lemma sh_moved u j : u <> BULK -> j ∈ linkedBy S_ G_ u -> vlookup (netAt u x') j = moved A B (vlookup (netAt u x) j).
Proof. intros Hu Hj. by apply (proj2 (sd_merged _ _ _ _ _ H) u Hu). Qed.
Lemma sh_nobody u j : u <> BULK -> j ∈ linkedBy S_ G_ u -> vlookup (netAt u x') j <> Some A.
Proof.
  intros Hu Hj. rewrite sh_moved by done. unfold moved. destruct (bool_decide _) eqn:E.
  - destruct (between_facts d i A B t C Hb) as (_ & ? & _). congruence.
  - by apply bool_decide_eq_false in E.
Qed.

Lemma sh_single u j : theEnds u -> j ∈ S_ -> open x j = true -> vlookup (netAt u x) j = Some A -> j = i.
Proof.
  intros Hu Hj Ho Ej. destruct (between_facts d i A B t C Hb) as (Hi & _ & HA & _).
  destruct (single_end _ _ d A kA C HA EkA) as [_ Hs].
  apply (Hs HkA j i u t Hu (bt_end _ _ _ _ _ Hb) Hj Hi); unfold endAt; [by rewrite Ho, bool_decide_true |].
  rewrite (proj2 (co_resistors _ _ _ C i (bt_resistor _ _ _ _ _ Hb))), bool_decide_true; [done |]. apply Hb.
Qed.

Lemma sh_kept u j : theEnds u -> j ∈ S_ -> open x j = true -> j <> i -> vlookup (netAt u x') j = vlookup (netAt u x) j.
Proof.
  intros Hu Hj Ho Hne. rewrite sh_moved by (by destruct Hu as [-> | ->]). unfold moved. rewrite bool_decide_false; [done |].
  intros E. by apply Hne, (sh_single u).
Qed.

Lemma sh_open j : j ∈ S_ -> open x' j = open x j && negb (j =? i).
Proof.
  intros Hj. pose proof (sh_moved SOURCE j ltac:(done) Hj) as Es. pose proof (sh_moved DRAIN j ltac:(done) Hj) as Ed. cbn [netAt] in Es, Ed.
  destruct (Z.eqb_spec j i) as [-> | Hne].
  - rewrite andb_false_r. unfold open. rewrite Es, Ed. destruct Hb as [Ht _ EA EB]. destruct (between_facts d i A B t C Hb) as (_ & Hne & _).
    destruct Ht as [-> | ->]; cbn [netAt otherEnd] in EA, EB; rewrite EA, EB; unfold moved;
      rewrite (bool_decide_true (Some A = Some A)), (bool_decide_false (Some B = Some A)) by congruence; cbn; by rewrite Z.eqb_refl.
  - rewrite andb_true_r. destruct (open x j) eqn:Ho.
    + pose proof (sh_kept SOURCE j ltac:(by left) Hj Ho Hne) as E1. pose proof (sh_kept DRAIN j ltac:(by right) Hj Ho Hne) as E2.
      cbn [netAt] in E1, E2. unfold open in *. by rewrite E1, E2.
    + destruct (co_nets _ _ _ C SOURCE j) as (s & E1 & _); [done.. |]. destruct (co_nets _ _ _ C DRAIN j) as (dr & E2 & _); [done.. |].
      cbn [netAt] in E1, E2. unfold open in *. rewrite Es, Ed. rewrite E1, E2 in *. apply negb_false_iff, Z.eqb_eq in Ho as ->.
      destruct (moved A B (Some dr)); [by rewrite Z.eqb_refl | done].
Qed.

Lemma sh_endAt u n j : theEnds u -> j ∈ S_ -> endAt x' u n j = endAt x u n j && negb (j =? i).
Proof.
  intros Hu Hj. unfold endAt. rewrite sh_open by done. destruct (open x j) eqn:Ho; [| done].
  destruct (Z.eqb_spec j i) as [| Hne]; cbn [negb andb]; [by rewrite andb_false_r |]. by rewrite andb_true_r, sh_kept.
Qed.

Lemma sh_endsAt u n : theEnds u ->
  endsAt S_ x u n = endsAt S_ x' u n + if decide (vlookup (netAt u x) i = Some n) then 1 else 0.
Proof.
  intros Hu. destruct (between_facts d i A B t C Hb) as (Hi & _). unfold endsAt.
  pose proof (proj2 (co_resistors _ _ _ C i (bt_resistor _ _ _ _ _ Hb))) as Ho.
  destruct (decide _) as [E | E].
  - rewrite (filter_drop (endAt x u n) (endAt x' u n) S_ i); [lia | apply C | done | | |].
    + unfold endAt. by rewrite Ho, bool_decide_true.
    + rewrite sh_endAt, Z.eqb_refl, andb_false_r by done. done.
    + intros j Hj Hne. rewrite sh_endAt by done. by rewrite (proj2 (Z.eqb_neq j i)), andb_true_r by done.
  - rewrite Z.add_0_r. f_equal. f_equal. apply List.filter_ext_in. intros j Hj%list_elem_of_In. rewrite sh_endAt by done.
    destruct (Z.eqb_spec j i) as [-> |]; [| by rewrite andb_true_r]. unfold endAt. by rewrite bool_decide_false, !andb_false_r by done.
Qed.

Lemma sh_work : work S_ x = work S_ x' + 1.
Proof.
  destruct (between_facts d i A B t C Hb) as (Hi & _). unfold work.
  rewrite (filter_drop (open x) (open x') S_ i); [lia | apply C | done | apply C, Hb | |].
  - rewrite sh_open, Z.eqb_refl, andb_false_r by done. done.
  - intros j Hj Hne. rewrite sh_open by done. by rewrite (proj2 (Z.eqb_neq j i)), andb_true_r by done.
Qed.

Lemma sh_resistor j : resistor d' j -> resistor d j /\ j <> i.
Proof.
  intros (Et & s & Es & Hs). assert (j <> i) as Hne.
  { intros ->. destruct (sd_marked _ _ _ _ _ H) as (s' & Es' & Hs'). congruence. }
  split; [| done]. destruct sh_static as (T & _). rewrite T in Et. split; [done |].
  destruct (sd_status _ _ _ _ _ H j) as [E |]; [| done]. rewrite E in Es. by exists s.
Qed.

Lemma sh_settled q n : 0 <= n < netCount x -> settled S_ G_ x' (netsOf q d') n.
Proof.
  intros Hn. destruct (between_facts d i A B t C Hb) as (Hi & Hne & HA & HB & _).
  destruct (co_settled _ _ _ C q n Hn) as (e & Ee & Eu & He). destruct (sd_nets _ _ _ _ _ H q) as (e' & En & Hn' & _ & El).
  pose proof (stampable_length _ _ _ El Eu) as Eu'.
  destruct (Z.eq_dec n A) as [-> | HnA].
  - exists e'. rewrite En, vlookup_vupdate_eq by (by eapply vlookup_range). split_and!; try done.
    intros v j Hv Hj E. by apply sh_nobody in E.
  - exists e. rewrite En, vlookup_vupdate_ne by done. split_and!; try done. intros v j Hv Hj E. rewrite sh_moved in E by done.
    unfold moved in E. destruct (bool_decide _).
    + injection E as <-. destruct (bt_end _ _ _ _ _ Hb) as [-> | ->]; pose proof (bt_second _ _ _ _ _ Hb) as EB; cbn [otherEnd] in EB;
        [by apply (He DRAIN i) | by apply (He SOURCE i)].
    + by apply (He v j).
Qed.

Lemma sh_counts n : 0 <= n < netCount x -> exists k, vlookup (connectionCount_v d') n = Some k /\ counted S_ x' n k.
Proof.
  intros Hn. destruct (co_counts _ _ _ C n Hn) as (k & Ek & Hk & Hg). destruct (sd_counts _ _ _ _ _ H n k Ek Hn) as (k' & Ek' & Hu & Hor & Hno).
  exists k'. split; [done |]. split.
  - intros u Hu'. rewrite Hu, Hk by done. pose proof (sh_endsAt u n Hu') as E. destruct (decide _); [| lia].
    destruct (co_linked _ _ _ C) as (_ & _ & HS). unfold endsAt, UNKNOWN_DEVICE, UINT32_MAX in *.
    pose proof (filter_length_le (endAt x u n) S_). rewrite u32_id by lia. lia.
  - destruct (decide (n = A \/ n = B)) as [| Hne]; [by apply Hor |]. apply Decidable.not_or in Hne as [HnA HnB]. intros l Hl.
    rewrite Hno by done. destruct (co_lists _ _ _ C GATE ltac:(done) n Hn) as (l0 & Hl0 & _).
    rewrite (Hg l0 Hl0). do 2 f_equal. eapply devicesOf_fun; [| exact Hl].
    destruct (proj2 (sd_merged _ _ _ _ _ H) GATE ltac:(done)) as (_ & _ & Hd & _). by apply Hd.
Qed.

Lemma sh_consistent : consistent S_ G_ d'.
Proof.
  destruct sh_static as (T & I & P & N & D). destruct (between_facts d i A B t C Hb) as (Hi & Hne & HA & HB & _).
  constructor; rewrite ?D, ?N.
  - destruct (proj2 (sd_merged _ _ _ _ _ H) GATE ltac:(done)) as (_ & El & _). cbn [nextAt] in El. rewrite El. apply C.
  - apply C.
  - intros u Hu. rewrite <- N. destruct (proj2 (sd_merged _ _ _ _ _ H) u Hu) as (Hf & _). by rewrite N.
  - intros u j Hu Hj. rewrite sh_moved by done. destruct (co_nets _ _ _ C u j Hu Hj) as (n & -> & Hn). unfold moved.
    destruct (bool_decide _); [by exists B | by exists n].
  - apply sh_counts.
  - intros j [Hr Hj]%sh_resistor. destruct (co_resistors _ _ _ C j Hr) as [Hs Ho]. split; [done |].
    rewrite sh_open, Ho by done. by rewrite (proj2 (Z.eqb_neq j i)).
  - intros j Hj. destruct (co_rows _ _ _ C j Hj) as [H1 H2]. rewrite T. split; [done |].
    destruct (sd_status _ _ _ _ _ H j) as [-> | ->]; [done |]. destruct (sd_marked _ _ _ _ _ H) as (s & -> & _). by eexists.
  - intros j Hj. destruct (co_devices _ _ _ C j Hj) as (Hr & dev & E). split; [done |]. exists dev.
    apply (deviceOf_frame d); try done. apply H.
  - intros q n Hn. by apply sh_settled.
  - intros q. pose proof (co_stamps _ _ _ C q). pose proof sh_work. destruct (sd_nets _ _ _ _ _ H q) as (_ & _ & _ & -> & _). lia.
  - rewrite (sd_powers _ _ _ _ _ H). apply C.
  - destruct (co_top _ _ _ C) as (p & E & Hp). exists p. split; [| done]. apply (topPortCount_frame d); try done. apply H.
Qed.

Lemma sh_first k : vlookup (connectionCount_v d') A = Some k -> SourceDrainCount k = 0.
Proof.
  intros Ek. destruct (between_facts d i A B t C Hb) as (_ & _ & HA & _). destruct sh_static as (_ & _ & _ & N & _).
  destruct (single_end _ _ d' A k sh_consistent) as [-> _]; [by rewrite N | done |].
  assert (forall u, theEnds u -> endsAt S_ x' u A = 0) as H0; [| by rewrite (H0 SOURCE (or_introl eq_refl)), (H0 DRAIN (or_intror eq_refl))].
  intros u Hu. unfold endsAt. destruct (List.filter _ S_) as [| j l] eqn:E; [done |].
  assert (In j (List.filter (endAt x' u A) S_)) as [Hj He]%List.filter_In by (rewrite E; by left).
  apply endAt_open in He as [_ He]. destruct (sh_nobody u j); [by destruct Hu as [-> | ->] | | done].
  apply list_elem_of_In in Hj. by destruct Hu as [-> | ->].
Qed.
End Step.
End Short.
End DeadEnds.
