(* ===== verification/Shorting.v ===== *)
(** * The loop over the non conducting resistors (CCvcDb_init.cc)

    The recursion of [ShortNonConductingResistor] and the loop over the
    resistors, on the steps of DeadEnds.v. *)

From S2P Require Import Prelude CvcTypes EventQueue VirtualNet Numeric Power Db ExampleDb.
From S2P Require Import Connection Netlist Links NonConducting DeadEnds.
From stdpp Require Import base list strings gmap sets.
From Stdlib Require Import ZArith Lia.
#[local] Open Scope Z_scope.

Module Shorting.
Import VirtualNet.VirtualNet Power.Power Db.Db Connection.Connection Netlist.Netlist Links.Links NonConducting.NonConducting.
Import DeadEnds.DeadEnds.

Section Loop.
Context (S_ G_ : list Z).

(** ** The resistor of a dead end *)

Definition isResistor (d : CCvcDb) (i : Z) : bool :=
  match vlookup (deviceType_v (netlist d)) i, vlookup (deviceStatus_v d) i with
  | Some t, Some s => bool_decide (t = RESISTOR) && negb (status_get s (deviceBit SIM_INACTIVE))
  | _, _ => false
  end.
Lemma isResistor_spec d i : isResistor d i = true <-> resistor d i.
Proof.
  unfold isResistor, resistor. destruct (vlookup (deviceType_v _) i) as [t |]; [| naive_solver].
  destruct (vlookup (deviceStatus_v d) i) as [s |]; [| naive_solver].
  rewrite andb_true_iff, bool_decide_eq_true, negb_true_iff. naive_solver.
Qed.
Lemma isResistor_no d i : isResistor d i = false <-> ~ resistor d i.
Proof. rewrite <- isResistor_spec. by destruct (isResistor d i). Qed.

Definition hasRow (d : CCvcDb) (i : Z) : Prop :=
  is_Some (vlookup (deviceType_v (netlist d)) i) /\ is_Some (vlookup (deviceStatus_v d) i).

Lemma connectedStep_run d a i : hasRow d i ->
  connectedStep a i d = if isResistor d i then if negb (a =? UNKNOWN_DEVICE) then Err EDatabaseError else Ok (inl i, d)
                        else Ok (inl a, d).
Proof.
  intros [[t Et] [s Es]]. unfold connectedStep, isResistor. rewrite Et, Es.
  unfold nlat, lift, mbind at 1, M_bind at 1. rewrite (proj2 (vget_Ok _ _ _) Et).
  destruct (bool_decide (t = RESISTOR)); [| done]. unfold getDeviceBit, at_, lift, mbind, M_bind.
  rewrite (proj2 (vget_Ok _ _ _) Es). unfold mret, M_ret. by destruct (status_get s (deviceBit SIM_INACTIVE)), (a =? UNKNOWN_DEVICE).
Qed.

Lemma connectedStep_keeps a i : keepsLinks (connectedStep a i).
Proof.
  intros d r d' H. unfold connectedStep in H. apply M_bind_inv in H as (t & e & R & H). apply nlat_inv in R as [_ ->].
  apply M_bind_inv in H as (b & e & R & H).
  assert (e = d) as ->. { destruct (bool_decide _); [| by injection R as _ <-]. apply M_bind_inv in R as (s & e' & R & R').
    apply at_inv in R as [_ ->]. by injection R' as _ <-. }
  destruct (negb b); [destruct (negb _) |]; try done; by injection H as _ <-.
Qed.

(** Looking for a resistor in a list that holds one at most. *)
Lemma overList_find d l : forall a, (forall i, i ∈ l -> hasRow d i /\ i <> UNKNOWN_DEVICE) -> NoDup l ->
  (forall i j, i ∈ l -> j ∈ l -> resistor d i -> resistor d j -> i = j) ->
  (a <> UNKNOWN_DEVICE -> forall i, i ∈ l -> ~ resistor d i) ->
  exists r, overList l connectedStep a d = Ok (inl r, d) /\
    ((r = a /\ forall i, i ∈ l -> ~ resistor d i) \/ (r ∈ l /\ resistor d r)).
Proof.
  induction l as [| i l IH]; intros a Hr Hnd Hu Ha; cbn [overList].
  { exists a. split; [done |]. left. split; [done |]. by intros i ?%elem_of_nil. }
  apply NoDup_cons in Hnd as [Hil Hnd]. destruct (Hr i ltac:(by left)) as [Hrow Hi].
  unfold mbind, M_bind. rewrite connectedStep_run by done.
  assert (forall a', (a' <> UNKNOWN_DEVICE -> forall j, j ∈ l -> ~ resistor d j) -> exists r, overList l connectedStep a' d = Ok (inl r, d) /\
    ((r = a' /\ forall j, j ∈ l -> ~ resistor d j) \/ (r ∈ l /\ resistor d r))) as IH'.
  { intros a' Ha'. apply IH; [intros; apply Hr; by right | done | intros; apply Hu; (by right || done) | done]. }
  destruct (isResistor d i) eqn:E.
  - apply isResistor_spec in E. destruct (Z.eqb_spec a UNKNOWN_DEVICE) as [-> | Hne]; [| by destruct (Ha Hne i ltac:(by left))]. cbn [negb].
    destruct (IH' i) as (r & Er & Hr'). { intros _ j Hj Rj. apply Hil. by rewrite (Hu i j ltac:(by left) ltac:(by right) E Rj). }
    exists r. split; [done |]. right. destruct Hr' as [[-> _] | [H1 H2]]; split; try done; [by left | by right].
  - apply isResistor_no in E. destruct (IH' a) as (r & Er & Hr'). { intros Hne j Hj. apply Ha; [done | by right]. }
    exists r. split; [done |]. destruct Hr' as [[-> Hn] | [H1 H2]]; [left | right; split; [by right | done]].
    split; [done |]. intros j [-> | Hj]%elem_of_cons; [done | by apply Hn].
Qed.

Lemma connectedIn_run d t n l a : theEnds t -> devicesOf (firstAt t (netlist d)) (nextAt t (netlist d)) n l -> NoDup l ->
  (forall i, i ∈ l -> hasRow d i /\ i <> UNKNOWN_DEVICE) ->
  (forall i j, i ∈ l -> j ∈ l -> resistor d i -> resistor d j -> i = j) ->
  (a <> UNKNOWN_DEVICE -> forall i, i ∈ l -> ~ resistor d i) ->
  exists r, connectedIn (firstAt t) (nextAt t) n a d = Ok (r, d) /\
    ((r = a /\ forall i, i ∈ l -> ~ resistor d i) \/ (r ∈ l /\ resistor d r)).
Proof.
  intros Ht Hl Hnd Hr Hu Ha. destruct (overList_find d l a Hr Hnd Hu Ha) as (r & E & H). exists r. split; [| done].
  assert (overDevicesWith (firstAt t) (nextAt t) n a connectedStep d = Ok (inl r, d)) as Eo.
  { rewrite (overDevicesWith_list _ _ _ _ _ l); [done | apply connectedStep_keeps | done | done]. }
  unfold connectedIn. by rewrite (M_run _ _ _ _ _ Eo).
Qed.

Lemma listed d t n (l : list Z) i : consistent S_ G_ d -> theEnds t -> 0 <= n < netCount (netlist d) ->
  (forall i, i ∈ l <-> i ∈ linkedBy S_ G_ t /\ vlookup (netAt t (netlist d)) i = Some n) -> i ∈ l ->
  i ∈ S_ /\ (hasRow d i /\ i <> UNKNOWN_DEVICE) /\ (resistor d i -> endAt (netlist d) t n i = true).
Proof.
  intros C Ht Hn Hl Hi. apply Hl in Hi as [Hi En]. assert (i ∈ S_) as Hs by (by destruct Ht as [-> | ->]). split; [done |].
  destruct (co_devices _ _ _ C i Hs) as [Hr _]. destruct (co_sizes _ _ _ C) as (Hd & _). split; [split; [by apply C | lia] |].
  intros R. destruct (co_resistors _ _ _ C i R) as [_ Ho]. unfold endAt. by rewrite Ho, bool_decide_true.
Qed.

Lemma FindUnique_run d n k : consistent S_ G_ d -> 0 <= n < netCount (netlist d) ->
  vlookup (connectionCount_v d) n = Some k -> SourceDrainCount k = 1 ->
  exists r, FindUniqueSourceDrainConnectedDevice n d = Ok (r, d) /\
    ((r = UNKNOWN_DEVICE /\ forall u i, theEnds u -> resistor d i -> vlookup (netAt u (netlist d)) i <> Some n) \/
     (resistor d r /\ exists u, theEnds u /\ vlookup (netAt u (netlist d)) r = Some n)).
Proof.
  intros C Hn Ek Hk. destruct (single_end _ _ d n k C Hn Ek) as [_ Hs]. specialize (Hs Hk).
  destruct (co_lists _ _ _ C SOURCE ltac:(done) n Hn) as (ls & Hls & Hns & His).
  destruct (co_lists _ _ _ C DRAIN ltac:(done) n Hn) as (ld & Hld & Hnd & Hid).
  pose proof (fun i => listed d SOURCE n ls i C ltac:(by left) Hn His) as Ls.
  pose proof (fun i => listed d DRAIN n ld i C ltac:(by right) Hn Hid) as Ld.
  assert (forall u i, theEnds u -> resistor d i -> vlookup (netAt u (netlist d)) i = Some n -> i ∈ ls \/ i ∈ ld) as Hin.
  { intros u i [-> | ->] R E; destruct (co_resistors _ _ _ C i R); [left; by apply His | right; by apply Hid]. }
  destruct (connectedIn_run d SOURCE n ls UNKNOWN_DEVICE) as (r & Er & Hr); try done; [by left | intros; by apply Ls | |].
  { intros i j Hi Hj Ri Rj. destruct (Ls i Hi) as (Si & _ & Ei), (Ls j Hj) as (Sj & _ & Ej).
    by apply (Hs i j SOURCE SOURCE (or_introl eq_refl) (or_introl eq_refl) Si Sj (Ei Ri) (Ej Rj)). }
  destruct (connectedIn_run d DRAIN n ld r) as (r' & Er' & Hr'); try done; [by right | intros; by apply Ld | | |].
  { intros i j Hi Hj Ri Rj. destruct (Ld i Hi) as (Si & _ & Ei), (Ld j Hj) as (Sj & _ & Ej).
    by apply (Hs i j DRAIN DRAIN (or_intror eq_refl) (or_intror eq_refl) Si Sj (Ei Ri) (Ej Rj)). }
  { intros Hne i Hi Ri. destruct Hr as [[-> _] | [Hr Rr]]; [done |]. destruct (Ls r Hr) as (Sr & _ & Er0), (Ld i Hi) as (Si & _ & Ei).
    by destruct (Hs r i SOURCE DRAIN (or_introl eq_refl) (or_intror eq_refl) Sr Si (Er0 Rr) (Ei Ri)). }
  exists r'. split; [unfold FindUniqueSourceDrainConnectedDevice; by rewrite (M_run _ _ _ _ _ Er) |].
  destruct Hr' as [[-> Hno'] | [Hr' Rr']]; [| right; split; [done |]; exists DRAIN; split; [by right | by apply Hid]].
  destruct Hr as [[-> Hno] | [Hr Rr]]; [left; split; [done |] | right; split; [done |]; exists SOURCE; split; [by left | by apply His]].
  intros u i Hu R E. destruct (Hin u i Hu R E) as [Hi | Hi]; [by apply (Hno i) | by apply (Hno' i)].
Qed.

(** ** What a run of shorts keeps *)

Record kept (d d' : CCvcDb) : Prop := mkKept {
  kp_static : same_static (netlist d) (netlist d') /\ netVoltagePtr_v d' = netVoltagePtr_v d /\ circuits d' = circuits d;
  kp_resistors i : resistor d' i ->
    resistor d i /\ forall u, theEnds u -> vlookup (netAt u (netlist d')) i = vlookup (netAt u (netlist d)) i;
  kp_powered q n a : vlookup (netVoltagePtr_v d) n = Some (Some a) ->
    vlookup (nets (netsOf q d')) n = vlookup (nets (netsOf q d)) n;
  kp_paths q n f r k : path (nets (netsOf q d)) n f r k ->
    exists m r1 k1 r2 k2, path (nets (netsOf q d')) n m r1 k1 /\ path (nets (netsOf q d')) f m r2 k2;
  kp_devices u i : u <> BULK -> i ∈ linkedBy S_ G_ u -> exists n m, vlookup (netAt u (netlist d)) i = Some n /\
    vlookup (netAt u (netlist d')) i = Some m /\ forall q, exists r k, path (nets (netsOf q d')) n m r k
}.

Lemma kept_refl d : consistent S_ G_ d -> kept d d.
Proof.
  intros C. constructor; try done.
  - intros q n f r k P. destruct (path_terminal _ _ _ _ _ P) as (e & Ee & He). exists f, r, k, (resistance e), 0%nat.
    split; [done | by constructor].
  - intros u i Hu Hi. destruct (co_nets _ _ _ C u i Hu Hi) as (n & En & Hn). exists n, n. split_and!; try done.
    intros q. destruct (co_settled _ _ _ C q n Hn) as (e & Ee & _ & He). exists (resistance e), 0%nat.
    constructor; [done | by apply (He u i)].
Qed.

Lemma kept_trans d1 d2 d3 : kept d1 d2 -> kept d2 d3 -> kept d1 d3.
Proof.
  intros H K. constructor.
  - destruct (kp_static _ _ H) as ((T1 & I1 & P1 & N1 & D1) & V1 & C1), (kp_static _ _ K) as ((T2 & I2 & P2 & N2 & D2) & V2 & C2).
    split_and!; try congruence. split_and!; congruence.
  - intros i R3. destruct (kp_resistors _ _ K i R3) as [R2 E2]. destruct (kp_resistors _ _ H i R2) as [R1 E1]. split; [done |].
    intros u Hu. by rewrite E2, E1.
  - intros q n a Ha. rewrite (kp_powered _ _ K q n a), (kp_powered _ _ H q n a); [done | done |].
    by rewrite (proj1 (proj2 (kp_static _ _ H))).
  - intros q n f r k P. destruct (kp_paths _ _ H q n f r k P) as (m & r1 & k1 & r2 & k2 & P1 & P2).
    destruct (kp_paths _ _ K q n m r1 k1 P1) as (m3 & ? & ? & ? & ? & Q1 & Q2).
    destruct (kp_paths _ _ K q f m r2 k2 P2) as (m4 & ? & ? & ? & ? & Q3 & Q4).
    destruct (path_fun _ _ _ _ _ _ _ _ Q2 Q4) as [-> _]. eauto 10.
  - intros u i Hu Hi. destruct (kp_devices _ _ H u i Hu Hi) as (n & m & E1 & E2 & P).
    destruct (kp_devices _ _ K u i Hu Hi) as (m' & m3 & E2' & E3 & P'). assert (m' = m) as -> by congruence.
    exists n, m3. split_and!; try done. intros q. destruct (P q) as (r & k & Pq), (P' q) as (r' & k' & Pq').
    destruct (kp_paths _ _ K q n m r k Pq) as (m4 & r1 & k1 & r2 & k2 & Q1 & Q2).
    destruct (path_fun _ _ _ _ _ _ _ _ Pq' Q2) as [-> _]. eauto.
Qed.

(** Paths through the net that is attached. *)
Lemma path_attach v v' A B ea eb : attachedTo v v' A B -> A <> B -> vlookup (nets v) A = Some ea -> nextNetId ea = A ->
  vlookup (nets v) B = Some eb -> nextNetId eb = B ->
  forall n f r k, path (nets v) n f r k -> exists m r1 k1 r2 k2, path (nets v') n m r1 k1 /\ path (nets v') f m r2 k2.
Proof.
  intros (e' & En & He' & _) Hne Ea Ha Eb Hb n f r k P. pose proof (vlookup_range _ _ _ Ea) as Hr.
  assert (path (nets v') B B (resistance eb) 0) as PB by (constructor; [by rewrite En, vlookup_vupdate_ne | done]).
  assert (path (nets v') A B (resistance e' + resistance eb) 1) as PA.
  { econstructor; [rewrite En; by apply vlookup_vupdate_eq | congruence | by rewrite He']. }
  induction P as [n e Ee Hn | n e f r k Ee Hn P (m & r1 & k1 & r2 & k2 & P1 & P2)];
    (destruct (Z.eq_dec n A) as [-> | HnA]; [| assert (vlookup (nets v') n = Some e) as Ee' by (by rewrite En, vlookup_vupdate_ne)]).
  - eauto 10.
  - exists n, (resistance e), 0%nat, (resistance e), 0%nat. by split; constructor.
  - rewrite Ea in Ee. by injection Ee as <-.
  - exists m, (resistance e + r1), (S k1), r2, k2. split; [by econstructor | done].
Qed.

Lemma kept_short d d' i A B t kA : consistent S_ G_ d -> between d i A B t -> shortDone S_ G_ i A B d d' ->
  vlookup (connectionCount_v d) A = Some kA -> SourceDrainCount kA = 1 -> vlookup (netVoltagePtr_v d) A = Some None -> kept d d'.
Proof.
  intros C Hb H EkA HkA HpA. destruct (between_facts _ _ d i A B t C Hb) as (Hi & Hne & HA & HB & _).
  assert (forall u, theEnds u -> u <> BULK /\ linkedBy S_ G_ u = S_) as Hends by (by intros u [-> | ->]).
  assert (forall q u n, theEnds u -> vlookup (netAt u (netlist d)) i = Some n -> 0 <= n < netCount (netlist d) ->
    exists e, vlookup (nets (netsOf q d)) n = Some e /\ nextNetId e = n) as Hset.
  { intros q u n Hu Eu Hn. destruct (co_settled _ _ _ C q n Hn) as (e & Ee & _ & He). exists e. split; [done |].
    destruct (Hends u Hu) as [Hub Hl]. apply (He u i Hub); [by rewrite Hl | done]. }
  destruct Hb as [Ht Hr EA EB] eqn:EHb. clear EHb. assert (theEnds (otherEnd t)) as Ht' by (destruct Ht as [-> | ->]; [by right | by left]).
  assert (forall q n f r k, path (nets (netsOf q d)) n f r k ->
    exists m r1 k1 r2 k2, path (nets (netsOf q d')) n m r1 k1 /\ path (nets (netsOf q d')) f m r2 k2) as Hpaths.
  { intros q. destruct (Hset q t A Ht EA HA) as (ea & Ea & Ha), (Hset q (otherEnd t) B Ht' EB HB) as (eb & Eb & Hb').
    by eapply (path_attach _ _ A B); [apply H | ..]. }
  constructor.
  - split_and!; [apply (sd_merged _ _ _ _ _ _ _ H) | by destruct H | by destruct H].
  - intros j R. destruct (sh_resistor _ _ d d' i A B H j R) as [Rj Hj]. split; [done |]. intros u Hu.
    destruct (co_resistors _ _ _ C j Rj) as [Hs Ho]. by apply (sh_kept _ _ d d' i A B t kA C Hb H EkA HkA).
  - intros q n a Ha. destruct (sd_nets _ _ _ _ _ _ _ H q) as (e' & -> & _). apply vlookup_vupdate_ne. congruence.
  - done.
  - intros u j Hu Hj. destruct (co_nets _ _ _ C u j Hu Hj) as (n & En & Hn).
    pose proof (sh_moved _ _ d d' i A B H u j Hu Hj) as Em. rewrite En in Em. unfold moved in Em.
    destruct (bool_decide (Some n = Some A)) eqn:E.
    + apply bool_decide_eq_true in E. injection E as ->. exists A, B. split_and!; try done. intros q.
      destruct (Hset q t A Ht EA HA) as (ea & Ea & Ha), (Hset q (otherEnd t) B Ht' EB HB) as (eb & Eb & Hb').
      destruct (sd_nets _ _ _ _ _ _ _ H q) as (e' & Enn & He' & _). pose proof (vlookup_range _ _ _ Ea).
      eexists _, _. eapply path_step; [rewrite Enn; by apply vlookup_vupdate_eq | congruence |]. rewrite He'.
      constructor; [by rewrite Enn, vlookup_vupdate_ne | done].
    + apply bool_decide_eq_false in E. exists n, n. split_and!; try done. intros q.
      destruct (sd_nets _ _ _ _ _ _ _ H q) as (e' & Enn & He' & _).
      destruct (co_settled _ _ _ C q n Hn) as (e & Ee & _ & He). exists (resistance e), 0%nat.
      constructor; [rewrite Enn; rewrite vlookup_vupdate_ne; [done | congruence] | by apply (He u j)].
Qed.

(** ** Dead ends *)

Definition deadEnd (d : CCvcDb) (n : Z) : Prop :=
  (exists k, vlookup (connectionCount_v d) n = Some k /\ SourceDrainCount k = 1) /\ vlookup (netVoltagePtr_v d) n = Some None.

(** A net that the loop shorts: no port of the top circuit, a dead end, at the end of a resistor. *)
Definition dangling (d : CCvcDb) (n : Z) : Prop :=
  (exists p, topPortCount d = Ok (p, d) /\ p <= n) /\ deadEnd d n /\
  exists u i, theEnds u /\ resistor d i /\ vlookup (netAt u (netlist d)) i = Some n.

Lemma isDeadEnd_run d n : consistent S_ G_ d -> 0 <= n < netCount (netlist d) ->
  exists b : bool, isDeadEnd n d = Ok (b, d) /\ (b = true <-> deadEnd d n).
Proof.
  intros C Hn. destruct (co_counts _ _ _ C n Hn) as (k & Ek & _). destruct (co_powers _ _ _ C n Hn) as [p Ep].
  unfold isDeadEnd, powerAt, at_, lift, mbind, M_bind. rewrite (proj2 (vget_Ok _ _ _) Ek). unfold deadEnd. rewrite Ek, Ep.
  destruct (Z.eqb_spec (SourceDrainCount k) 1) as [E | E].
  - rewrite (proj2 (vget_Ok _ _ _) Ep). eexists. split; [reflexivity |]. rewrite bool_decide_eq_true. split; [intros ->; eauto | by intros [_ [= ->]]].
  - exists false. split; [done |]. split; [done |]. intros [(k' & [= <-] & ?) _]. done.
Qed.

Lemma deadEnd_inv d n : deadEnd d n ->
  exists k, vlookup (connectionCount_v d) n = Some k /\ SourceDrainCount k = 1 /\ vlookup (netVoltagePtr_v d) n = Some None.
Proof. intros [(k & Ek & Hk) Hp]. eauto. Qed.

(** After a short only the second net can have become a dead end. *)
Lemma dangling_short d d' i A B t kA n : consistent S_ G_ d -> between d i A B t -> shortDone S_ G_ i A B d d' ->
  vlookup (connectionCount_v d) A = Some kA -> SourceDrainCount kA = 1 ->
  dangling d' n -> n <> A /\ (n <> B -> dangling d n).
Proof.
  intros C Hb H EkA HkA ((p & Ep & Hp) & [(k' & Ek' & Hk') HV] & u & j & Hu & R & Ej).
  destruct (sh_static _ _ d d' i A B H) as (T & I & P & N & D).
  pose proof (sh_consistent _ _ d d' i A B t kA C Hb H EkA HkA) as C'.
  destruct (co_resistors _ _ _ C' j R) as [Hj _].
  assert (u <> BULK /\ j ∈ linkedBy S_ G_ u) as [Hub Hjl] by (by destruct Hu as [-> | ->]). split.
  { intros ->. by apply (sh_nobody _ _ d d' i A B t C Hb H u j). }
  intros HnB. destruct (sh_resistor _ _ d d' i A B H j R) as [Rj Hne]. destruct (co_resistors _ _ _ C j Rj) as [_ Ho].
  rewrite (sh_kept _ _ d d' i A B t kA C Hb H EkA HkA) in Ej by done.
  assert (0 <= n < netCount (netlist d)) as Hn.
  { destruct (co_nets _ _ _ C u j Hub Hjl) as (m & Em & Hm). congruence. }
  assert (n <> A) as HnA. { intros ->. apply Hne. by apply (sh_single _ _ d i A B t kA C Hb EkA HkA u). }
  split_and!.
  - destruct (co_top _ _ _ C) as (p0 & E0 & _). exists p0. split; [done |].
    assert (topPortCount d' = Ok (p0, d')) as E' by (apply (topPortCount_frame d); try done; apply H). rewrite E' in Ep. by injection Ep as <-.
  - split; [| by rewrite <- (sd_powers _ _ _ _ _ _ _ H)]. destruct (co_counts _ _ _ C n Hn) as (k & Ek & _). exists k. split; [done |].
    destruct (sd_counts _ _ _ _ _ _ _ H n k Ek Hn) as (k2 & Ek2 & Hc & _). assert (k2 = k') as -> by congruence. rewrite <- Hk'.
    destruct Hb as [Ht _ EA EB]. unfold SourceDrainCount.
    pose proof (Hc SOURCE ltac:(by left)) as E1. pose proof (Hc DRAIN ltac:(by right)) as E2. cbn [countAt netAt] in E1, E2.
    destruct Ht as [-> | ->]; cbn [netAt otherEnd] in EA, EB; rewrite EA, EB in *; rewrite decide_False in E1 by congruence;
      rewrite decide_False in E2 by congruence; by rewrite E1, E2.
  - by exists u, j.
Qed.

(** ** The recursion *)

Lemma shortResistor_ok d i A B t kA : consistent S_ G_ d -> between d i A B t ->
  vlookup (connectionCount_v d) A = Some kA -> SourceDrainCount kA = 1 ->
  exists d', shortResistor i A B t d = Ok (tt, d') /\ shortDone S_ G_ i A B d d' /\ consistent S_ G_ d'.
Proof.
  intros C Hb EkA HkA. destruct (shortResistor_run _ _ d i A B t C Hb) as (d' & -> & H).
  pose proof (sh_consistent _ _ d d' i A B t kA C Hb H EkA HkA) as C'. exists d'. split_and!; try done.
  destruct (between_facts _ _ d i A B t C Hb) as (_ & _ & HA & _). destruct (sh_static _ _ d d' i A B H) as (_ & _ & _ & N & _).
  destruct (co_counts _ _ _ C' A ltac:(by rewrite N)) as (k & Ek & _). unfold at_, lift, mbind, M_bind.
  rewrite (proj2 (vget_Ok _ _ _) Ek), (sh_first _ _ d d' i A B t kA C Hb H EkA HkA k Ek). done.
Qed.

Definition shortsTo (d d' : CCvcDb) : Prop := consistent S_ G_ d' /\ kept d d'.

Lemma Short_run fuel : forall d i A B t, consistent S_ G_ d -> between d i A B t -> deadEnd d A ->
  (Z.to_nat (work S_ (netlist d)) <= fuel)%nat ->
  exists d', ShortNonConductingResistor fuel i A B t d = Ok (tt, d') /\ shortsTo d d' /\ ~ resistor d' i /\
    forall n, dangling d' n -> dangling d n /\ n <> A.
Proof.
  induction fuel as [| fuel IH]; intros d i A B t C Hb HA Hf;
    destruct (between_facts _ _ d i A B t C Hb) as (Hi & Hne & HAr & HBr & Hw); [lia |]. cbn [ShortNonConductingResistor].
  destruct (deadEnd_inv d A HA) as (kA & EkA & HkA & HpA).
  destruct (shortResistor_ok d i A B t kA C Hb EkA HkA) as (d1 & E1 & H & C1). rewrite (M_run _ _ _ _ _ E1).
  pose proof (kept_short d d1 i A B t kA C Hb H EkA HkA HpA) as K.
  destruct (sh_static _ _ d d1 i A B H) as (_ & _ & _ & N & _). pose proof (sh_work _ _ d d1 i A B t kA C Hb H EkA HkA) as Ew.
  assert (~ resistor d1 i) as Hni by (by intros [_ ?]%(sh_resistor _ _ d d1 i A B H)).
  pose proof (fun n => dangling_short d d1 i A B t kA n C Hb H EkA HkA) as Hd.
  destruct (isDeadEnd_run d1 B C1 ltac:(by rewrite N)) as (b & Eb & HbB). rewrite (M_run _ _ _ _ _ Eb).
  assert ((forall n, dangling d1 n -> n <> B) -> forall n, dangling d1 n -> dangling d n /\ n <> A) as Hstop.
  { intros HB n Hn. destruct (Hd n Hn) as [? Hn']. split; [| done]. by apply Hn', HB. }
  destruct b; [| exists d1; split_and!; try done; apply Hstop; intros n (_ & He & _) ->; by apply HbB in He].
  destruct (deadEnd_inv d1 B (proj1 HbB eq_refl)) as (kB & EkB & HkB & HpB).
  destruct (FindUnique_run d1 B kB C1 ltac:(by rewrite N) EkB HkB) as (r & Er & Hr). rewrite (M_run _ _ _ _ _ Er).
  destruct Hr as [[-> Hno] | (Rr & u & Hu & Eu)].
  { rewrite Z.eqb_refl. cbn [negb]. exists d1. split_and!; try done. apply Hstop. intros n (_ & _ & u & j & Hu & Rj & Ej) ->. by apply (Hno u j). }
  destruct (co_resistors _ _ _ C1 r Rr) as [Hrs Hro]. destruct (open_ends _ _ Hro) as (s & dr & Es & Edr & Hsd).
  destruct (co_devices _ _ _ C1 r Hrs) as [Hrr _]. destruct (co_sizes _ _ _ C1) as (Hdc & _).
  rewrite (proj2 (Z.eqb_neq r UNKNOWN_DEVICE)) by lia. cbn [negb]. cbn [netAt] in Es, Edr.
  unfold nlat, lift. unfold mbind at 1, M_bind at 1. rewrite (proj2 (vget_Ok _ _ _) Es).
  unfold mbind at 1, M_bind at 1. rewrite (proj2 (vget_Ok _ _ _) Edr).
  assert (forall A' B' t', between d1 r A' B' t' -> A' = B -> exists d', ShortNonConductingResistor fuel r A' B' t' d1 = Ok (tt, d') /\
    shortsTo d d' /\ ~ resistor d' i /\ forall n, dangling d' n -> dangling d n /\ n <> A) as Hgo.
  { intros A' B' t' Hb' ->. destruct (IH d1 r B B' t' C1 Hb' (proj1 HbB eq_refl) ltac:(lia)) as (d' & E' & [C' K'] & _ & Hd').
    exists d'. split_and!; [done | split; [done | by eapply kept_trans] | by intros [? _]%(kp_resistors _ _ K') |].
    intros n [Hn HnB]%Hd'. destruct (Hd n Hn) as [? Hn']. split; [by apply Hn' | done]. }
  destruct (Z.eqb_spec s B) as [HsB | HsB]; [apply Hgo; [by constructor; [left | ..] | done] |].
  destruct (Z.eqb_spec dr B) as [HdB | HdB]; [apply Hgo; [by constructor; [right | ..] | done] |].
  destruct Hu as [-> | ->]; cbn [netAt] in Eu; congruence.
Qed.

(** ** The loop *)

Lemma nlat_run {A} (f : CNetlist -> list A) i d a : vlookup (f (netlist d)) i = Some a -> nlat f i d = Ok (a, d).
Proof. intros E. unfold nlat, lift. by rewrite (proj2 (vget_Ok _ _ _) E). Qed.

Lemma isDanglingNet_run d n : consistent S_ G_ d -> 0 <= n < netCount (netlist d) ->
  exists b : bool, isDanglingNet n d = Ok (b, d) /\
    (b = true <-> (exists p, topPortCount d = Ok (p, d) /\ p <= n) /\ deadEnd d n).
Proof.
  intros C Hn. destruct (co_top _ _ _ C) as (p & Ep & _). unfold isDanglingNet. rewrite (M_run _ _ _ _ _ Ep).
  destruct (Z.leb_spec p n) as [Hp | Hp].
  - destruct (isDeadEnd_run d n C Hn) as (b & -> & Hb). exists b. split; [done |]. rewrite Hb. naive_solver.
  - exists false. split; [done |]. split; [done |]. intros [(p' & Ep' & ?) _]. rewrite Ep in Ep'. injection Ep' as <-. lia.
Qed.

(** The nets of the resistors before [j] do not dangle. *)
Definition settledBefore (d : CCvcDb) (j : Z) : Prop :=
  forall i u n, 0 <= i < j -> resistor d i -> theEnds u -> vlookup (netAt u (netlist d)) i = Some n -> ~ dangling d n.

Lemma work_bound d : consistent S_ G_ d -> (Z.to_nat (work S_ (netlist d)) <= S (Z.to_nat (deviceCount (netlist d))))%nat.
Proof.
  intros C. unfold work. pose proof (filter_length_le (DeadEnds.DeadEnds.open (netlist d)) S_).
  assert (length S_ <= Z.to_nat (deviceCount (netlist d)))%nat; [| lia].
  apply NoDup_range_length; [apply C |]. intros i Hi. destruct (co_devices _ _ _ C i Hi) as [? _]. lia.
Qed.

Lemma shortStep_run d i : consistent S_ G_ d -> 0 <= i < deviceCount (netlist d) ->
  exists d', shortStep i d = Ok (tt, d') /\ shortsTo d d' /\ (forall n, dangling d' n -> dangling d n) /\
    (resistor d' i -> forall u n, theEnds u -> vlookup (netAt u (netlist d')) i = Some n -> ~ dangling d' n).
Proof.
  intros C Hi. destruct (co_rows _ _ _ C i Hi) as [[ty Et] [s Es]]. unfold shortStep, nl.
  rewrite (M_run (gets _) _ _ (deviceCount (netlist d)) d) by done.
  rewrite (M_run _ _ _ _ _ (nlat_run _ _ _ _ Et)).
  assert ((if bool_decide (ty = RESISTOR) then getDeviceBit i SIM_INACTIVE else mret true) d = Ok (negb (isResistor d i), d)) as Eb.
  { unfold isResistor. rewrite Et, Es. destruct (bool_decide (ty = RESISTOR)); [| done]. unfold getDeviceBit, at_, lift, mbind, M_bind.
    rewrite (proj2 (vget_Ok _ _ _) Es). unfold mret, M_ret. cbn [andb]. by rewrite negb_involutive. }
  rewrite (M_run _ _ _ _ _ Eb). destruct (isResistor d i) eqn:ER; cbn [negb].
  2: { apply isResistor_no in ER. exists d. split_and!; try done. split; [done | by apply kept_refl]. }
  apply isResistor_spec in ER. destruct (co_resistors _ _ _ C i ER) as [Hs Ho]. destruct (open_ends _ _ Ho) as (a & b & Ea & Eb' & Hab).
  destruct (co_nets _ _ _ C SOURCE i ltac:(done) Hs) as (a' & Ea' & Ha). destruct (co_nets _ _ _ C DRAIN i ltac:(done) Hs) as (b' & Eb2 & Hb).
  assert (a' = a) as -> by congruence. assert (b' = b) as -> by congruence. clear Ea' Eb2. cbn [netAt] in Ea, Eb'.
  rewrite (M_run _ _ _ _ _ (nlat_run _ _ _ _ Ea)), (M_run _ _ _ _ _ (nlat_run _ _ _ _ Eb')).
  assert (forall A B t, between d i A B t -> deadEnd d A -> exists d',
    ShortNonConductingResistor (S (Z.to_nat (deviceCount (netlist d)))) i A B t d = Ok (tt, d') /\ shortsTo d d' /\
    (forall n, dangling d' n -> dangling d n) /\
    (resistor d' i -> forall u n, theEnds u -> vlookup (netAt u (netlist d')) i = Some n -> ~ dangling d' n)) as Hgo.
  { intros A B t Hbt HA. destruct (Short_run _ d i A B t C Hbt HA (work_bound d C)) as (d' & E' & Hsh & Hni & Hd').
    exists d'. split_and!; [done | done | by intros n [? _]%Hd' | done]. }
  destruct (isDanglingNet_run d a C Ha) as (ba & Eba & Hba). rewrite (M_run _ _ _ _ _ Eba).
  destruct ba; [apply Hgo; [by constructor; [left | ..] | by apply Hba] |].
  destruct (isDanglingNet_run d b C Hb) as (bb & Ebb & Hbb). rewrite (M_run _ _ _ _ _ Ebb).
  destruct bb; [apply Hgo; [by constructor; [right | ..] | by apply Hbb] |].
  exists d. split_and!; [done | split; [done | by apply kept_refl] | done |].
  intros _ u n Hu En (Hp & Hdead & _). destruct Hu as [-> | ->]; cbn [netAt] in En.
  - assert (n = a) as -> by congruence. assert (false = true) by (by apply Hba). done.
  - assert (n = b) as -> by congruence. assert (false = true) by (by apply Hbb). done.
Qed.

Lemma shortLoop_run d0 count : forall j d, consistent S_ G_ d -> kept d0 d -> settledBefore d j -> 0 <= j ->
  j + Z.of_nat count = deviceCount (netlist d) ->
  exists d', forRange count j shortStep d = Ok (tt, d') /\ consistent S_ G_ d' /\ kept d0 d' /\ settledBefore d' (j + Z.of_nat count).
Proof.
  induction count as [| count IH]; intros j d C K Hs Hj Hn; cbn [forRange].
  { exists d. split_and!; try done. by rewrite Z.add_0_r. }
  destruct (shortStep_run d j C ltac:(lia)) as (d1 & E1 & [C1 K1] & Hd & Hr). rewrite (M_run _ _ _ _ _ E1).
  destruct (kp_static _ _ K1) as ((_ & _ & _ & _ & D) & _). replace (j + Z.of_nat (S count)) with (j + 1 + Z.of_nat count) by lia.
  apply IH; [done | by eapply kept_trans | | lia | lia].
  intros i u n Hi R Hu En. destruct (Z.eq_dec i j) as [-> | Hne]; [by apply (Hr R u n) |]. intros Hdn.
  destruct (kp_resistors _ _ K1 i R) as [R0 E0]. rewrite E0 in En by done. by apply (Hs i u n ltac:(lia) R0 Hu En), Hd.
Qed.

(** C11: [ShortNonConductingResistors] ends without an error on a linked netlist, however the
    resistors hang together: its recursion is no deeper than there are devices, its assertion
    holds and no net has a second resistor.  The lists, the counts and the virtual nets stay
    consistent: every terminal is moved to the net at which the chain of its old net ends, the
    same at all three sample points.  Nets with a power keep their links.  No net that dangles
    (internal, without power, with the end of a resistor as its only connection) is left. *)
Theorem ShortNonConductingResistors_exhausts d :
  consistent S_ G_ d -> 0 <= deviceCount (netlist d) ->
  exists d', ShortNonConductingResistors d = Ok (tt, d') /\ consistent S_ G_ d' /\ kept d d' /\ forall n, ~ dangling d' n.
Proof.
  intros C Hn. destruct (shortLoop_run d (Z.to_nat (deviceCount (netlist d))) 0 d C (kept_refl d C)) as (d' & E & C' & K & Hs);
    [intros i u n ?; lia | lia | lia |]. exists d'. split_and!; try done.
  intros n Hd. pose proof Hd as (_ & _ & u & i & Hu & R & En). destruct (co_resistors _ _ _ C' i R) as [Hi _].
  destruct (co_devices _ _ _ C' i Hi) as [Hr _]. destruct (kp_static _ _ K) as ((_ & _ & _ & _ & D) & _).
  apply (Hs i u n); try done. rewrite D in Hr. lia.
Qed.
End Loop.

(** ** After linking

    What [LinkDevices] leaves is consistent, with the devices it has linked. *)

Definition linkedEnds (x : CNetlist) (order : list Z) (t : terminal_t) : list Z :=
  List.filter (fun i => match vlookup (deviceType_v x) i with Some ty => linksAt t ty && DeadEnds.DeadEnds.open x i | None => false end) order.

Lemma onTerminal_split x order t n i : In i (attached x order t n) <-> i ∈ linkedEnds x order t /\ vlookup (netAt t x) i = Some n.
Proof.
  unfold attached, linkedEnds. rewrite <- in_rev, list_elem_of_In, !List.filter_In. unfold onTerminal, DeadEnds.DeadEnds.open.
  destruct (vlookup (deviceType_v x) i) as [ty |]; [| naive_solver].
  destruct (vlookup (netAt t x) i) as [m |], (vlookup (sourceNet_v x) i) as [s |], (vlookup (drainNet_v x) i) as [dr |];
    rewrite ?andb_false_r; rewrite ?andb_true_iff, ?Z.eqb_eq; naive_solver.
Qed.

Lemma attached_count x order t n : theEnds t -> linkedEnds x order t = linkedEnds x order SOURCE ->
  length (attached x order t n) = length (List.filter (endAt x t n) (linkedEnds x order SOURCE)).
Proof.
  intros Ht <-. unfold attached, linkedEnds. rewrite length_rev. induction order as [| i l IH]; [done |]. cbn [List.filter].
  assert (onTerminal x t n i = match vlookup (deviceType_v x) i with Some ty => linksAt t ty && DeadEnds.DeadEnds.open x i | None => false end
    && endAt x t n i) as E.
  { unfold onTerminal, endAt, DeadEnds.DeadEnds.open. destruct (vlookup (deviceType_v x) i) as [ty |]; [| done].
    destruct (vlookup (netAt t x) i) as [m |], (vlookup (sourceNet_v x) i) as [s |], (vlookup (drainNet_v x) i) as [dr |];
      rewrite ?andb_false_r; try done; destruct (linksAt t ty), (negb (s =? dr)); cbn [andb]; rewrite ?andb_false_r, ?andb_true_r; try done.
    symmetry. destruct (Z.eqb_spec m n) as [-> | Hne]; [by apply bool_decide_true | apply bool_decide_false; congruence]. }
  rewrite E. destruct (match vlookup (deviceType_v x) i with Some ty => _ | None => false end); cbn [andb List.filter];
    destruct (endAt x t n i); cbn [length]; lia.
Qed.

Lemma linked_consistent d order :
  let x := netlist d in let S_ := linkedEnds x order SOURCE in let G_ := linkedEnds x order GATE in
  links_ok d (fun _ => order) -> NoDup order ->
  (deviceCount x <= UNKNOWN_DEVICE /\ netCount x <= UNKNOWN_NET /\ Z.of_nat (length (nextGate_v x)) <= UNKNOWN_DEVICE) ->
  (forall t i, t <> BULK -> i ∈ linkedEnds x order t -> exists n, vlookup (netAt t x) i = Some n /\ 0 <= n < netCount x) ->
  (forall i, resistor d i -> i ∈ S_ /\ DeadEnds.DeadEnds.open x i = true) ->
  (forall i, 0 <= i < deviceCount x -> is_Some (vlookup (deviceType_v x) i) /\ is_Some (vlookup (deviceStatus_v d) i)) ->
  (forall i, i ∈ S_ -> 0 <= i < deviceCount x /\ exists dev, deviceOf i d = Ok (dev, d)) ->
  (forall q n, 0 <= n < netCount x -> exists e, vlookup (nets (netsOf q d)) n = Some e /\
     stampable (lastUpdate_v (netsOf q d)) n /\ nextNetId e = n) ->
  (forall q, lastUpdate (netsOf q d) + deviceCount x <= INT32_MAX) ->
  (forall n, 0 <= n < netCount x -> is_Some (vlookup (netVoltagePtr_v d) n)) ->
  (exists p, topPortCount d = Ok (p, d) /\ 0 <= p) -> Z.of_nat (length order) <= deviceCount x ->
  consistent S_ G_ d.
Proof.
  intros x S_ G_ HL Hnd Hsz Hn Hr Hrow Hdev Hset Hst Hpow Htop Hlen.
  assert (forall t, NoDup (linkedEnds x order t)) as Hnds by (intros t; by apply NoDup_ListNoDup, List.NoDup_filter, NoDup_ListNoDup).
  assert (forall t, theEnds t -> linkedEnds x order t = S_) as Hends.
  { intros t Ht. apply List.filter_ext. intros i. destruct (vlookup _ i) as [ty |]; [| done]. destruct Ht as [-> | ->]; [done |].
    unfold linksAt. by destruct (kindOf ty). }
  assert (forall t, t <> BULK -> linkedBy S_ G_ t = linkedEnds x order t) as Hby.
  { intros [] Ht; cbn [linkedBy]; done. }
  assert (length S_ <= length order)%nat as HlS by apply filter_length_le.
  constructor; fold x; try done.
  - split_and!; [apply Hnds | apply Hnds | lia].
  - intros t Ht n Hr'. rewrite Hby by done. exists (attached x order t n). split_and!.
    + by apply (lo_lists _ _ HL).
    + by apply attached_NoDup.
    + intros i. by rewrite list_elem_of_In, onTerminal_split.
  - intros t i Ht Hi. rewrite Hby in Hi by done. by apply Hn.
  - intros n Hr'. destruct (lo_counts _ _ HL n Hr') as (k & Ek & Hk). fold x in Hk. exists k. split; [done |].
    assert (forall t, (length (attached x order t n) <= length order)%nat) as Hle
      by (intros t; unfold attached; rewrite length_rev; apply filter_length_le).
    unfold UNKNOWN_DEVICE, UINT32_MAX in Hsz. split.
    + intros t Ht. rewrite Hk by (by destruct Ht as [-> | ->]). specialize (Hle t). rewrite u32_id by lia.
      unfold endsAt. f_equal. apply attached_count; [done | by apply Hends].
    + intros l Hl. pose proof (Hk GATE ltac:(done)) as Eg. cbn [countAt] in Eg. rewrite Eg. specialize (Hle GATE). rewrite u32_id by lia.
      do 2 f_equal. eapply devicesOf_fun; [by apply (lo_lists _ _ HL GATE) | exact Hl].
  - intros q n Hr'. destruct (Hset q n Hr') as (e & Ee & Eu & He). exists e. by split_and!.
  - intros q. specialize (Hst q). unfold work. pose proof (filter_length_le (DeadEnds.DeadEnds.open x) S_). lia.
Qed.

(** ** A chain of resistors

    Port A, then three resistors to a net that only a gate is on. *)

Definition chainDevices : list CDevice :=
  [mkDevice "R0" [0; 1] (ExampleDb.plainModel "res" RESISTOR 0 "R") "R=1000" 0;
   mkDevice "R1" [1; 2] (ExampleDb.plainModel "res" RESISTOR 0 "R") "R=1000" 1;
   mkDevice "R2" [3; 2] (ExampleDb.plainModel "res" RESISTOR 0 "R") "R=1000" 2;
   mkDevice "MN0" [4; 3; 0; 0] (ExampleDb.plainModel "nch" NMOS 300 "M") "L=1 W=1" 3].
Definition chainCircuit : CCircuit :=
  mkCircuit UNKNOWN_DEVICE "top" chainDevices ExampleDb.zeros4 ExampleDb.zeros4 1 1 [0] [] 5 [UNKNOWN_DEVICE] true 5 4 1
    ["A"; "B"; "C"; "D"; "E"].
Definition chainDb : CCvcDb :=
  set_netVoltagePtr_v [Some 0; None; None; None; None] (set_circuits [chainCircuit] ExampleDb.exampleDb).
Definition chainOrder : list Z := [0; 1; 2; 3].
Definition linkedChain : CCvcDb := match LinkDevices chainDb with Ok (_, d) => d | Err _ => chainDb end.

Lemma chain_ready : netlist_ready chainDb.
Proof.
  constructor; try (vm_compute; split; congruence); try (vm_compute; congruence).
  - apply Forall_singleton. intros _. apply Forall_singleton. by eexists.
  - apply (bool_decide_unpack _). vm_compute. exact I.
  - let l := eval vm_compute in (linkItems chainDb) in change (linkItems chainDb) with l.
    repeat (apply Forall_cons; split; [split; [vm_compute; split; congruence |] |]); [.. | apply Forall_nil_2].
    all: eexists _, _, _, _; split; [vm_compute; reflexivity |].
    all: intros _ []; vm_compute; (discriminate || (intros _; split; congruence)).
Qed.

Lemma chain_linked : LinkDevices chainDb = Ok (tt, linkedChain) /\ links_ok linkedChain (fun _ => chainOrder).
Proof.
  destruct (LinkDevices_run chainDb chain_ready) as (d' & E & _ & HL & _). unfold linkedChain. rewrite E. split; [done |].
  replace chainOrder with (map itemId (linkItems chainDb)) by (vm_compute; reflexivity). exact HL.
Qed.

(** A statement about the numbers below [n] is checked for each. *)
Lemma below_check (n : Z) (P : Z -> Prop) : 0 <= n -> Forall P (seqZ 0 n) -> forall i, 0 <= i < n -> P i.
Proof. intros Hn H i Hi. rewrite Forall_forall in H. apply H, elem_of_seqZ. lia. Qed.

Ltac each := repeat (apply Forall_cons; split); [.. | apply Forall_nil_2].
Ltac eachBelow n := match goal with |- forall i, 0 <= i < _ -> @?P i => refine (below_check n P _ _) end; [lia |];
  (let l := eval vm_compute in (seqZ 0 n) in change (seqZ 0 n) with l); each.

Lemma chain_consistent :
  consistent (linkedEnds (netlist linkedChain) chainOrder SOURCE) (linkedEnds (netlist linkedChain) chainOrder GATE) linkedChain.
Proof.
  destruct chain_linked as [_ HL]. apply linked_consistent; [exact HL | | | | | | | | | | |].
  - apply (bool_decide_unpack _). vm_compute. exact I.
  - vm_compute. split_and!; discriminate.
  - intros t i Ht Hi.
    assert (Forall (fun i => exists n, vlookup (netAt t (netlist linkedChain)) i = Some n /\ 0 <= n < netCount (netlist linkedChain))
      (linkedEnds (netlist linkedChain) chainOrder t)) as HF.
    { destruct t; try done; match goal with |- Forall ?P ?l => let l' := eval vm_compute in l in change (Forall P l') end;
        each; (eexists; split; [vm_compute; reflexivity | vm_compute; split; congruence]). }
    rewrite Forall_forall in HF. by apply HF.
  - intros i [Et (s & Es & Hs)]. pose proof (vlookup_range _ _ _ Et) as Hr. revert i Hr Et s Es Hs.
    change (Z.of_nat (length (deviceType_v (netlist linkedChain)))) with 4. eachBelow 4.
    all: intros Et; vm_compute in Et; first [discriminate Et | intros _ _ _; split; [apply (bool_decide_unpack _); vm_compute; exact I | vm_compute; reflexivity]].
  - change (deviceCount (netlist linkedChain)) with 4. eachBelow 4. all: vm_compute; split; eexists; reflexivity.
  - intros i Hi.
    assert (Forall (fun i => 0 <= i < deviceCount (netlist linkedChain) /\ exists dev, deviceOf i linkedChain = Ok (dev, linkedChain))
      (linkedEnds (netlist linkedChain) chainOrder SOURCE)) as HF.
    { match goal with |- Forall ?P ?l => let l' := eval vm_compute in l in change (Forall P l') end.
      each; (split; [vm_compute; split; congruence | eexists; vm_compute; reflexivity]). }
    rewrite Forall_forall in HF. by apply HF.
  - intros q. change (netCount (netlist linkedChain)) with 5. revert q. intros []; eachBelow 5.
    all: eexists; split_and!; [vm_compute; reflexivity | right; vm_compute; by eexists | vm_compute; reflexivity].
  - intros []; vm_compute; discriminate.
  - change (netCount (netlist linkedChain)) with 5. eachBelow 5. all: vm_compute; eexists; reflexivity.
  - eexists. split; [vm_compute; reflexivity | vm_compute; discriminate].
  - vm_compute. discriminate.
Qed.

(** All nets of the chain end at the port, and the gate is moved there. *)
Lemma ShortNonConductingResistors_exhausts_witness :
  exists d', ShortNonConductingResistors linkedChain = Ok (tt, d') /\ gateNet_v (netlist d') = [UNKNOWN_NET; UNKNOWN_NET; UNKNOWN_NET; 0] /\
    map nextNetId (nets (simNet_v d')) = [0; 0; 1; 2; 4] /\ forall n, ~ dangling d' n.
Proof.
  destruct (ShortNonConductingResistors_exhausts _ _ linkedChain chain_consistent ltac:(vm_compute; discriminate))
    as (d' & E & _ & _ & H).
  exists d'. split_and!; [exact E | | | exact H]; vm_compute in E; injection E as <-; vm_compute; reflexivity.
Defined.

(** The loop leaves ports alone, the recursion does not: a port without power between two
    resistors is shorted when the net on one side dangles. *)
Definition portDevices (first : list Z) : list CDevice :=
  [mkDevice "R0" first (ExampleDb.plainModel "res" RESISTOR 0 "R") "R=1000" 0;
   mkDevice "R1" [0; 2] (ExampleDb.plainModel "res" RESISTOR 0 "R") "R=1000" 1;
   mkDevice "R2" [2; 3] (ExampleDb.plainModel "res" RESISTOR 0 "R") "R=1000" 2;
   mkDevice "R3" [3; 4] (ExampleDb.plainModel "res" RESISTOR 0 "R") "R=1000" 3].
Definition shortedPort (first : list Z) : option (list Z) :=
  let c := mkCircuit UNKNOWN_DEVICE "top" (portDevices first) ExampleDb.zeros4 ExampleDb.zeros4 1 1 [0] [] 5 [UNKNOWN_DEVICE] true 5 4 1
             ["A"; "B"; "C"; "D"; "E"] in
  match (_ ← LinkDevices; ShortNonConductingResistors)
          (set_netVoltagePtr_v [None; None; Some 2; None; None] (set_circuits [c] ExampleDb.exampleDb)) with
  | Ok (_, d) => Some (map nextNetId (nets (simNet_v d)))
  | Err _ => None
  end.
Example port_is_shorted : (shortedPort [1; 0], shortedPort [1; 1]) = (Some [2; 0; 2; 2; 3], Some [0; 1; 2; 2; 3]).
Proof. vm_compute. reflexivity. Qed.
End Shorting.
