(* ===== verification/Expected.v ===== *)
(** * Expected values (CCvcDb_error.cc)

    [CheckExpectedValues] compares the levels at the ends of the virtual nets
    with the levels a power definition expects: a voltage, the name of a net, an
    alias, or "open".  The text of the report is reduced to the net and the
    level that was expected. *)

From S2P Require Import Prelude CvcTypes EventQueue VirtualNet Numeric Power Text Db ExampleDb Short Links Names ModePower.
From stdpp Require Import base list strings gmap sets.
From Stdlib Require Import ZArith Lia.
#[local] Open Scope string_scope.
#[local] Open Scope list_scope.
#[local] Open Scope Z_scope.

Module Expected.
Import VirtualNet.VirtualNet Power.Power Text.Text Db.Db Short.Short.
Import ModePower.ModePower (voltageOf).

Abbreviation text := String.string.

(** ** The decisions *)

(** The power at the end of a virtual net. *)
Definition endPower (d : CCvcDb) (n : Z) : outcome (option CPower) :=
  if n =? UNKNOWN_NET then Ok None else a ← vget (netVoltagePtr_v d) n; pointee (powers d) a.

Definition isKnown (level : CPower -> Z) (o : option CPower) : bool :=
  match o with Some p => negb (level p =? UNKNOWN_VOLTAGE) | None => false end.
Definition isOpen (level : CPower -> Z) (o : option CPower) : bool :=
  match o with Some p => (level p =? UNKNOWN_VOLTAGE) || typeBit p HIZ_BIT | None => true end.

(** The name of the net or the alias of its power. *)
Definition isNamed (d : CCvcDb) (text_ : text) (n : Z) (p : CPower) : outcome bool :=
  name ← Names.Names.NetName (netlist d) (circuits d) (powers d) (netVoltagePtr_v d) false true n;
  Ok (bool_decide (text_ = name) || bool_decide (text_ = powerAlias p)).

Definition simFound (d : CCvcDb) (text_ : text) (mySimNetId myMinNetId myMaxNetId : Z) : outcome bool :=
  sim ← endPower d mySimNetId;
  if bool_decide (text_ = "open") then
    if isKnown simVoltage sim then Ok false
    else
      min ← endPower d myMinNetId;
      if isOpen minVoltage min then Ok true else max ← endPower d myMaxNetId; Ok (isOpen maxVoltage max)
  else
    match sim with
    | Some p =>
        if simVoltage p =? UNKNOWN_VOLTAGE then Ok false
        else
          near ← (if IsValidVoltage_ text_
                  then v ← voltageOf text_; Ok (Z.abs (v - simVoltage p) <=? cvcExpectedErrorThreshold (cvcChecks (cvcParameters d)))
                  else Ok false);
          if (near : bool) then Ok true else isNamed d text_ mySimNetId p
    | None => Ok false
    end.

(** The minimum, with [Z.leb], and the maximum, with [Z.geb]. *)
Definition limitFound (within : Z -> Z -> bool) (level : CPower -> Z) (d : CCvcDb) (text_ : text) (n : Z) : outcome bool :=
  o ← endPower d n;
  if bool_decide (text_ = "open") then Ok (negb (isKnown simVoltage o))
  else
    match o with
    | Some p => v ← voltageOf text_; if within v (level p) then Ok true else isNamed d text_ n p
    | None => Ok false
    end.

(** ** The check *)

Definition countUnmet (n : Z) (what : text) : DB unit :=
  c ← at_ errorCount (errorIndex EXPECTED_VOLTAGE);
  _ ← modify (fun d => set_errorCount (vupdate (errorCount d) (errorIndex EXPECTED_VOLTAGE) (u64 (c + 1))) d);
  reportM (ExplainedError EXPECTED_VOLTAGE n what).

Definition endOf (q : eventQueue_t) (n : Z) : DB Z := x ← accessM q n; mret (finalNetId x).

Definition reportUnless (found : CCvcDb -> outcome bool) (n : Z) (what : text) : DB unit :=
  b ← (fun d => lift (found d) d); when (negb b) (countUnmet n what).

Definition checkSim (p : CPower) (n : Z) : DB unit :=
  mySimNetId ← endOf SIM_QUEUE n;
  myMinNetId ← endOf MIN_QUEUE n;
  myMaxNetId ← endOf MAX_QUEUE n;
  reportUnless (fun d => simFound d (expectedSim p) mySimNetId myMinNetId myMaxNetId) n "sim".
Definition checkMin (p : CPower) (n : Z) : DB unit :=
  myMinNetId ← endOf MIN_QUEUE n; reportUnless (fun d => limitFound Z.leb minVoltage d (expectedMin p) myMinNetId) n "min".
Definition checkMax (p : CPower) (n : Z) : DB unit :=
  myMaxNetId ← endOf MAX_QUEUE n; reportUnless (fun d => limitFound Z.geb maxVoltage d (expectedMax p) myMaxNetId) n "max".

Definition checkExpected (a : Z) : DB unit :=
  p ← derefM a;
  myNetId ← GetEquivalentNet (netId p);
  _ ← when (negb (IsEmpty (expectedSim p))) (checkSim p myNetId);
  _ ← when (negb (IsEmpty (expectedMin p))) (checkMin p myNetId);
  when (negb (IsEmpty (expectedMax p))) (checkMax p myNetId).

Definition CheckExpectedValues : DB unit :=
  l ← param (fun x => cvcExpectedLevelPtrList (cvcChecks x)); forList l checkExpected.

(** ** Exactness *)

(** What the check reads, apart from the caches of the virtual nets. *)
Definition facts (d : CCvcDb) := (cvcParameters d, netlist d, circuits d, powers d, netVoltagePtr_v d, deviceStatus_v d).

Definition goodNets (d : CCvcDb) : Prop := forall q, wf (nets (netsOf q d)) /\ coherent (netsOf q d).

(** The ends of the chains of a net. *)
Definition ends (d : CCvcDb) (n : Z) (e : eventQueue_t -> Z) : Prop :=
  n <> UNKNOWN_NET /\ forall q, exists r k, path (nets (netsOf q d)) n (e q) r k /\ Z.of_nat k <= 5020 /\ r < MAX_RESISTANCE.

(** Only caches differ. *)
Record similar (d d' : CCvcDb) : Prop := mkSimilar {
  si_facts : facts d' = facts d;
  si_good : goodNets d -> goodNets d';
  si_ends n e : goodNets d -> ends d n e -> ends d' n e;
  si_errors : errorCount d' = errorCount d;
  si_reports : reports d' = reports d
}.

#[export] Instance similar_preorder : PreOrder similar.
Proof.
  split; [by intros d; constructor |]. intros d1 d2 d3 H K. constructor.
  - by rewrite (si_facts _ _ K), (si_facts _ _ H).
  - intros G. by apply K, H.
  - intros n e G E. apply K; [by apply H | by apply H].
  - by rewrite (si_errors _ _ K), (si_errors _ _ H).
  - by rewrite (si_reports _ _ K), (si_reports _ _ H).
Qed.

Lemma endOf_run q n e d : goodNets d -> ends d n e -> exists d', endOf q n d = Ok (e q, d') /\ similar d d'.
Proof.
  intros G [Hn E]. destruct (G q) as [W C]. destruct (E q) as (r & k & P & Hk & Hr).
  destruct (access_path (netsOf q d) n (e q) r k newVirtualNet W C P Hn Hk Hr) as (x & v & _ & Ea & C' & W' & Hp).
  exists (set_netsOf q v d). unfold endOf, accessM, mbind, M_bind. rewrite Ea. split; [done |].
  assert (forall q', netsOf q' (set_netsOf q v d) = if decide (q = q') then v else netsOf q' d) as En by (intros []; by destruct d, q).
  constructor; try (by destruct d, q).
  - intros _ q'. rewrite En. destruct (decide _); [done | apply G].
  - intros n' e' _ [Hn' E']. split; [done |]. intros q'. destruct (E' q') as (r' & k' & P' & Hb). exists r', k'.
    split; [| done]. rewrite En. destruct (decide (q = q')) as [<- |]; [by apply Hp | done].
Qed.

(** The reports of an expectation. *)
Definition unmet (d : CCvcDb) (p : CPower) (e : eventQueue_t -> Z) : outcome (list text) :=
  let test (text_ : text) (found : outcome bool) (what : text) : outcome (list text) :=
    if IsEmpty text_ then Ok [] else b ← found; Ok (if b : bool then [] else [what]) in
  a ← test (expectedSim p) (simFound d (expectedSim p) (e SIM_QUEUE) (e MIN_QUEUE) (e MAX_QUEUE)) "sim";
  b ← test (expectedMin p) (limitFound Z.leb minVoltage d (expectedMin p) (e MIN_QUEUE)) "min";
  c ← test (expectedMax p) (limitFound Z.geb maxVoltage d (expectedMax p) (e MAX_QUEUE)) "max";
  Ok (a ++ b ++ c).

(** The reports [us] are written and counted, nothing else changes. *)
Record reported (d d' : CCvcDb) (us : list report) : Prop := mkReported {
  re_facts : facts d' = facts d;
  re_good : goodNets d -> goodNets d';
  re_ends n e : goodNets d -> ends d n e -> ends d' n e;
  re_reports : reports d' = rev us ++ reports d;
  re_errors c : vlookup (errorCount d) (errorIndex EXPECTED_VOLTAGE) = Some c -> 0 <= c < 2 ^ 64 ->
    vlookup (errorCount d') (errorIndex EXPECTED_VOLTAGE) = Some (u64 (c + Z.of_nat (length us)))
}.

Lemma reported_similar d d' : similar d d' -> reported d d' [].
Proof.
  intros [F G E C R]. constructor; try done. intros c Ec Hc. rewrite C, Ec. cbn [length]. rewrite Z.add_0_r.
  by rewrite wrap_u_id by done.
Qed.

Lemma u64_add a b : u64 (u64 a + b) = u64 (a + b).
Proof. unfold wrap_u. by rewrite Zplus_mod_idemp_l. Qed.

Lemma reported_trans d1 d2 d3 us vs : reported d1 d2 us -> reported d2 d3 vs -> reported d1 d3 (us ++ vs).
Proof.
  intros H K. constructor.
  - by rewrite (re_facts _ _ _ K), (re_facts _ _ _ H).
  - intros G. by apply (re_good _ _ _ K), (re_good _ _ _ H).
  - intros n e G E. apply (re_ends _ _ _ K); [by apply (re_good _ _ _ H) | by apply (re_ends _ _ _ H)].
  - by rewrite (re_reports _ _ _ K), (re_reports _ _ _ H), rev_app_distr, <- app_assoc.
  - intros c Ec Hc. rewrite (re_errors _ _ _ K (u64 (c + Z.of_nat (length us)))).
    + rewrite u64_add, length_app. do 2 f_equal. lia.
    + by apply (re_errors _ _ _ H).
    + by apply (wrap_u_range 64).
Qed.

Definition hasCount (d : CCvcDb) : Prop := is_Some (vlookup (errorCount d) (errorIndex EXPECTED_VOLTAGE)).

Lemma countUnmet_run n what d : hasCount d ->
  exists d', countUnmet n what d = Ok (tt, d') /\ reported d d' [ExplainedError EXPECTED_VOLTAGE n what] /\ hasCount d'.
Proof.
  intros [c Ec]. pose proof (vlookup_range _ _ _ Ec) as Hr. unfold countUnmet, at_, lift, mbind, M_bind, modify, reportM.
  rewrite (proj2 (vget_Ok _ _ _) Ec). eexists. split; [reflexivity |].
  assert (forall v r, let d' := set_reports (r :: reports (set_errorCount v d)) (set_errorCount v d) in
    facts d' = facts d /\ (forall q, netsOf q d' = netsOf q d) /\ errorCount d' = v /\ reports d' = r :: reports d) as F
    by (intros; destruct d; split_and!; try done; by intros []).
  destruct (F (vupdate (errorCount d) (errorIndex EXPECTED_VOLTAGE) (u64 (c + 1))) (ExplainedError EXPECTED_VOLTAGE n what)) as (F1 & F2 & F3 & F4).
  split; [constructor | unfold hasCount; rewrite F3; eexists; by apply vlookup_vupdate_eq].
  - exact F1.
  - intros G q. rewrite F2. apply G.
  - intros m e _ [Hm E]. split; [done |]. intros q. rewrite F2. apply E.
  - exact F4.
  - intros c' Ec' _. rewrite F3, vlookup_vupdate_eq by done. assert (c' = c) as -> by congruence. done.
Qed.

Lemma reportUnless_run found n what d b : hasCount d -> found d = Ok b ->
  exists d', reportUnless found n what d = Ok (tt, d') /\ hasCount d' /\
    reported d d' (if b : bool then [] else [ExplainedError EXPECTED_VOLTAGE n what]).
Proof.
  intros Hc E. unfold reportUnless. rewrite (M_run _ _ d b d) by (unfold lift; by rewrite E). unfold when. destruct b; cbn [negb].
  - exists d. split_and!; [done | done | by apply reported_similar].
  - destruct (countUnmet_run n what d Hc) as (d' & E' & R & Hc'). by exists d'.
Qed.

(** The decisions depend on the facts only. *)
Lemma facts_eq d d' : facts d' = facts d -> cvcParameters d' = cvcParameters d /\ netlist d' = netlist d /\
  circuits d' = circuits d /\ powers d' = powers d /\ netVoltagePtr_v d' = netVoltagePtr_v d.
Proof. intros E. by injection E as -> -> -> -> -> _. Qed.
Lemma endPower_facts d d' n : facts d' = facts d -> endPower d' n = endPower d n.
Proof. intros (_ & _ & _ & Eh & Ev)%facts_eq. unfold endPower. by rewrite Eh, Ev. Qed.
Lemma isNamed_facts d d' s n p : facts d' = facts d -> isNamed d' s n p = isNamed d s n p.
Proof. intros (_ & En & Ec & Eh & Ev)%facts_eq. unfold isNamed. by rewrite En, Ec, Eh, Ev. Qed.
Lemma simFound_facts d d' s n m k : facts d' = facts d -> simFound d' s n m k = simFound d s n m k.
Proof.
  intros E. unfold simFound. rewrite !(endPower_facts d d') by done. pose proof (proj1 (facts_eq _ _ E)) as ->.
  destruct (endPower d n) as [[p |] |]; [| done | done]. cbn [mbind outcome_bind]. by rewrite (isNamed_facts d d').
Qed.
Lemma limitFound_facts within level d d' s n : facts d' = facts d -> limitFound within level d' s n = limitFound within level d s n.
Proof.
  intros E. unfold limitFound. rewrite (endPower_facts d d') by done.
  destruct (endPower d n) as [[p |] |]; [| done | done]. cbn [mbind outcome_bind]. by rewrite (isNamed_facts d d').
Qed.

(** One check, with its decision taken at the end of the chains. *)
Lemma checkSim_run d p n e b : goodNets d -> ends d n e -> hasCount d ->
  simFound d (expectedSim p) (e SIM_QUEUE) (e MIN_QUEUE) (e MAX_QUEUE) = Ok b ->
  exists d', checkSim p n d = Ok (tt, d') /\ hasCount d' /\ reported d d' (if b : bool then [] else [ExplainedError EXPECTED_VOLTAGE n "sim"]).
Proof.
  intros G E Hc Eb. destruct (endOf_run SIM_QUEUE n e d G E) as (d1 & E1 & S1).
  destruct (endOf_run MIN_QUEUE n e d1) as (d2 & E2 & S2); [by apply S1 | by apply S1 |].
  assert (similar d d2) as S12 by (by etrans).
  destruct (endOf_run MAX_QUEUE n e d2) as (d3 & E3 & S3); [by apply S12 | by apply S12 |].
  assert (similar d d3) as S13 by (by etrans). unfold checkSim. rewrite (M_run _ _ _ _ _ E1), (M_run _ _ _ _ _ E2), (M_run _ _ _ _ _ E3).
  destruct (reportUnless_run (fun d => simFound d (expectedSim p) (e SIM_QUEUE) (e MIN_QUEUE) (e MAX_QUEUE)) n "sim" d3 b)
    as (d' & E' & Hc' & R).
  - unfold hasCount. by rewrite (si_errors _ _ S13).
  - rewrite <- Eb. apply simFound_facts, S13.
  - exists d'. split_and!; [done | done |]. apply (reported_trans d d3 d' []); [by apply reported_similar | done].
Qed.

Lemma checkLimit_run q within level (text_ what : text) d n e b : goodNets d -> ends d n e -> hasCount d ->
  limitFound within level d text_ (e q) = Ok b ->
  exists d', (m ← endOf q n; reportUnless (fun d => limitFound within level d text_ m) n what) d = Ok (tt, d') /\ hasCount d' /\
    reported d d' (if b : bool then [] else [ExplainedError EXPECTED_VOLTAGE n what]).
Proof.
  intros G E Hc Eb. destruct (endOf_run q n e d G E) as (d1 & E1 & S1). rewrite (M_run _ _ _ _ _ E1).
  destruct (reportUnless_run (fun d => limitFound within level d text_ (e q)) n what d1 b) as (d' & E' & Hc' & R).
  - unfold hasCount. by rewrite (si_errors _ _ S1).
  - rewrite <- Eb. apply limitFound_facts, S1.
  - exists d'. split_and!; [done | done |]. apply (reported_trans d d1 d' []); [by apply reported_similar | done].
Qed.

(** ** The whole check *)

(** The power of an expectation, its net, the ends of the net and the levels that are not met. *)
Definition expectation (d : CCvcDb) (a n : Z) (us : list text) : Prop :=
  exists p e, deref (powers d) a = Ok p /\ GetEquivalentNet (netId p) d = Ok (n, d) /\ ends d n e /\ unmet d p e = Ok us.

Definition reportsOf (n : Z) (us : list text) : list report := map (ExplainedError EXPECTED_VOLTAGE n) us.

Lemma facts_base d d' : facts d' = facts d -> Links.Links.same_base d d'.
Proof. intros E. injection E as E1 E2 E3 E4 E5 E6. constructor; congruence. Qed.

Lemma when_run (b : bool) (m : DB unit) (found : outcome bool) n what us d : goodNets d -> hasCount d ->
  (if negb b then Ok [] else b ← found; Ok (if b : bool then [] else [what])) = Ok us ->
  (b = true -> forall r, found = Ok r -> exists d', m d = Ok (tt, d') /\ hasCount d' /\
     reported d d' (if r : bool then [] else [ExplainedError EXPECTED_VOLTAGE n what])) ->
  exists d', when b m d = Ok (tt, d') /\ hasCount d' /\ reported d d' (reportsOf n us).
Proof.
  intros G Hc E H. unfold when. destruct b; cbn [negb] in E.
  - destruct found as [r |] eqn:Er; [| done]. injection E as <-. destruct (H eq_refl r eq_refl) as (d' & E' & Hc' & R).
    exists d'. split_and!; try done. by destruct r.
  - injection E as <-. exists d. split_and!; [done | done | by apply reported_similar].
Qed.

Lemma checkExpected_run d a n us : goodNets d -> hasCount d -> expectation d a n us ->
  exists d', checkExpected a d = Ok (tt, d') /\ hasCount d' /\ reported d d' (reportsOf n us).
Proof.
  intros G Hc (p & e & Ep & En & E & Eu). unfold unmet in Eu. inv_ok Eu. inv_ok Eu. inv_ok Eu. injection Eu as <-.
  unfold checkExpected. rewrite (M_run _ _ d p d) by (unfold derefM, lift; by rewrite Ep). rewrite (M_run _ _ _ _ _ En).
  destruct (when_run (negb (IsEmpty (expectedSim p))) (checkSim p n)
    (simFound d (expectedSim p) (e SIM_QUEUE) (e MIN_QUEUE) (e MAX_QUEUE)) n "sim" a0 d) as (d1 & E1 & Hc1 & R1); try done.
  { by rewrite negb_involutive. } { intros _ r Er. by apply (checkSim_run d p n e r). }
  rewrite (M_run _ _ _ _ _ E1). pose proof (re_good _ _ _ R1 G) as G1. pose proof (re_ends _ _ _ R1 n e G E) as En1.
  destruct (when_run (negb (IsEmpty (expectedMin p))) (checkMin p n) (limitFound Z.leb minVoltage d (expectedMin p) (e MIN_QUEUE)) n "min" a1 d1)
    as (d2 & E2 & Hc2 & R2); try done.
  { by rewrite negb_involutive. }
  { intros _ r Er. apply (checkLimit_run MIN_QUEUE _ _ _ _ d1 n e r G1 En1 Hc1). rewrite <- Er. apply limitFound_facts, R1. }
  rewrite (M_run _ _ _ _ _ E2). pose proof (reported_trans _ _ _ _ _ R1 R2) as R12.
  destruct (when_run (negb (IsEmpty (expectedMax p))) (checkMax p n) (limitFound Z.geb maxVoltage d (expectedMax p) (e MAX_QUEUE)) n "max" a2 d2)
    as (d3 & E3 & Hc3 & R3); try done.
  { by apply (re_good _ _ _ R12). } { by rewrite negb_involutive. }
  { intros _ r Er. apply (checkLimit_run MAX_QUEUE _ _ _ _ d2 n e r (re_good _ _ _ R12 G) (re_ends _ _ _ R12 n e G E) Hc2).
    rewrite <- Er. apply limitFound_facts, R12. }
  exists d3. split_and!; [done | done |]. unfold reportsOf in *. rewrite !map_app, app_assoc. by eapply reported_trans.
Qed.

Lemma unmet_facts d d' p e : facts d' = facts d -> unmet d' p e = unmet d p e.
Proof. intros E. unfold unmet. by rewrite (simFound_facts d d'), !(limitFound_facts _ _ d d'). Qed.

Lemma expectation_reported d d' us a n vs : goodNets d -> reported d d' us -> expectation d a n vs -> expectation d' a n vs.
Proof.
  intros G R (p & e & Ep & En & E & Eu). pose proof (re_facts _ _ _ R) as F. exists p, e. split_and!.
  - by rewrite (proj1 (proj2 (proj2 (proj2 (facts_eq _ _ F))))).
  - by apply (Links.Links.reader_GetEquivalentNet _ _ _ _ En), facts_base.
  - by apply R.
  - by rewrite (unmet_facts d).
Qed.

Lemma checkExpected_all l : forall d rows, goodNets d -> hasCount d ->
  Forall2 (fun a row => expectation d a row.1 row.2) l rows ->
  exists d', forList l checkExpected d = Ok (tt, d') /\ reported d d' (concat (map (fun row => reportsOf row.1 row.2) rows)).
Proof.
  induction l as [| a l IH]; intros d rows G Hc H; inversion H as [| ? [n us] ? rows' Ha Hl]; subst; cbn [forList].
  { exists d. split; [done | by apply reported_similar]. }
  destruct (checkExpected_run d a n us G Hc Ha) as (d1 & E1 & Hc1 & R1). rewrite (M_run _ _ _ _ _ E1).
  destruct (IH d1 rows' (re_good _ _ _ R1 G) Hc1) as (d' & E' & R').
  { eapply Forall2_impl; [exact Hl |]. intros b row Hb. by apply (expectation_reported d d1 (reportsOf n us)). }
  exists d'. split; [done |]. by eapply reported_trans.
Qed.


(** An expectation of the input of the example: its sim and min levels are not met. *)
Definition expectedPower : CPower :=
  PowerText.PowerText.withExtra (fun x => PowerText.PowerText.setExpectedMin "0.5" (PowerText.PowerText.setExpectedSim "1.2"
    (PowerText.PowerText.setExpectedMax "VSS" x))) (set_netId 2 (PowerText.PowerText.startPower "IN" 3)).
Definition expectedDb : CCvcDb :=
  let x := cvcParameters ExampleDb.exampleDb in
  let y := ExampleDb.defaultChecks in
  set_powers (mkHeap (<[3 := expectedPower]> (cells ExampleDb.examplePowers)) 4 4)
    (set_cvcParameters (mkParameters (cvcCircuitErrorLimit x) (cvcLeakLimit x) (cvcSOI x) (cvcMosDiodeErrorThreshold x)
       (cvcShortErrorThreshold x) (cvcFloatingErrorThreshold x) (cvcCellErrorLimitFile x)
       (mkCheckParameters false false false false false true false 0 0 0 0 0 0 [] [3])) ExampleDb.exampleDb).

Lemma expectedDb_good : goodNets expectedDb.
Proof.
  assert (forall v, forallb (fun x => (0 <=? resistance x) && (resistance x <=? UINT32_MAX)) (nets v) = true -> wf (nets v)) as HW.
  { intros v H n e He. rewrite forallb_forall in H. specialize (H e). apply Prelude.vlookup_lookup, list_elem_of_lookup_2, list_elem_of_In in He.
    apply H in He. rewrite andb_true_iff, !Z.leb_le in He. exact He. }
  intros q. split; [apply HW; destruct q; vm_compute; reflexivity |].
  split; [destruct q; vm_compute; reflexivity |]. intros n e He _. unfold entry_ok.
  assert (e = mkVirtualNet n 0 n 0 UNKNOWN_NET) as ->.
  { assert (nets (netsOf q expectedDb) = (fun n => mkVirtualNet n 0 n 0 UNKNOWN_NET) <$> [0; 1; 2; 3; 4]) as E by (destruct q; reflexivity).
    rewrite E in He. unfold vlookup in He. destruct (in_range _ n) eqn:Er; [| discriminate]. apply in_range_spec in Er. cbn in Er.
    assert (n = 0 \/ n = 1 \/ n = 2 \/ n = 3 \/ n = 4) as Hn by lia.
    destruct Hn as [-> | [-> | [-> | [-> | ->]]]]; injection He as <-; reflexivity. }
  exists 0, 0%nat. split; [by apply (path_end _ n (mkVirtualNet n 0 n 0 UNKNOWN_NET)) | reflexivity].
Qed.


(** A minimum is met by a power without a min level, and a maximum that is the name of a net
    is met by any level: a text that is no voltage is read as [UNKNOWN_VOLTAGE]. *)
Example unknown_minimum :
  let d := set_powers (mkHeap {[0 := set_simVoltage 100 (set_minVoltage UNKNOWN_VOLTAGE (ExampleDb.supply 0 1200 0))]} 1 1) expectedDb in
  limitFound Z.leb minVoltage d "0.5" 0 = Ok true.
Proof. vm_compute. reflexivity. Qed.
Example named_maximum : limitFound Z.geb maxVoltage expectedDb "VSS" 0 = Ok true.
Proof. vm_compute. reflexivity. Qed.
End Expected.
