(* ===== verification/Fuses.v ===== *)
(** * Fuse files (CCvcDb_init.cc, CCvcDb_interactive.cc)

    A fuse file says which fuses are on and which are off, against their models.
    [CheckFuses] reads it when the models are known, [OverrideFuses] reads it again
    once the devices are linked and changes the types of the devices.  A file is
    the list of its lines; messages are left out. *)

From S2P Require Import Prelude CvcTypes Power Text Db PowerText PowerFile Connection Netlist Names ExampleDb.
From stdpp Require Import base list strings gmap.
From Stdlib Require Import ZArith Lia.
#[local] Open Scope string_scope.
#[local] Open Scope list_scope.
#[local] Open Scope Z_scope.

Module Fuses.
Import Power.Power Text.Text Db.Db Netlist.Netlist.
Import PowerFile.PowerFile (returnCode_t, OK, SKIP, FAIL).

Abbreviation text := String.string.

(** ** Reading a line *)

(** [>>] into a string: the next word and what follows it. *)
Definition nextWord (s : text) : text * text :=
  let s := skipWhile isSpace s in let w := word s in (w, dropText (String.length w) s).

(** An empty line or a comment, a line without two words, or a name and a setting. *)
Inductive fuseInput_t : Set :=
| FuseSkip
| FuseInvalid
| FuseSetting (myFuseName myFuseStatus : text).

Definition fuseInput (myInputLine : text) : outcome fuseInput_t :=
  if IsEmpty myInputLine then Ok FuseSkip
  else if bool_decide (takeText 1 myInputLine = "#") then Ok FuseSkip
  else
    s ← trim_ myInputLine;
    let '(myFuseName, rest) := nextWord s in
    let '(myFuseStatus, _) := nextWord rest in
    Ok (if IsEmpty myFuseName || IsEmpty myFuseStatus then FuseInvalid else FuseSetting myFuseName myFuseStatus).

Definition isFuseStatus (s : text) : bool := bool_decide (s = "fuse_on") || bool_decide (s = "fuse_off").
Definition isFuse (t : modelType_t) : bool := bool_decide (t = FUSE_ON) || bool_decide (t = FUSE_OFF).

Definition findDevice (myFuseName : text) : DB Z := fun d => lift (Names.Names.FindDevice (netlist d) (circuits d) 0 myFuseName) d.
(** The type of the model of a device. *)
Definition fuseModel (myDeviceId : Z) : DB modelType_t := dev ← deviceOf myDeviceId; mret (modelType (model_p dev)).

(** ** [CheckFuses] *)

Definition checkFuse (myFuseName myFuseStatus : text) : DB bool :=
  myDeviceId ← findDevice myFuseName;
  if myDeviceId =? UNKNOWN_DEVICE then mret false
  else t ← fuseModel myDeviceId; mret (isFuseStatus myFuseStatus && isFuse t).

(** The result is false for an error. *)
Fixpoint checkLines (lines : list text) : DB bool :=
  match lines with
  | [] => mret true
  | l :: lines =>
      x ← lift (fuseInput l);
      match x with
      | FuseSkip => checkLines lines
      | FuseInvalid => _ ← checkLines lines; mret false
      | FuseSetting name status => b ← checkFuse name status; b' ← checkLines lines; mret (b && b')
      end
  end.

(** No file name, a file that can not be opened, or its lines. *)
Definition CheckFuses (cvcFuseFile : option (option (list text))) : DB returnCode_t :=
  match cvcFuseFile with
  | None => mret OK
  | Some None => mret FAIL
  | Some (Some lines) => b ← checkLines lines; mret (if b : bool then OK else FAIL)
  end.

(** ** [OverrideFuses] *)

Definition setDeviceType (myDeviceId : Z) (t : modelType_t) : DB unit :=
  modifyNl (fun x => v ← vset (deviceType_v x) myDeviceId t; Ok (set_deviceType_v v x)).

(** Only a setting against the model changes the device. *)
Definition overrideType (myDeviceId : Z) (t : modelType_t) (myFuseStatus : text) : DB unit :=
  if bool_decide (t = FUSE_ON) && bool_decide (myFuseStatus = "fuse_off") then setDeviceType myDeviceId FUSE_OFF
  else if bool_decide (t = FUSE_OFF) && bool_decide (myFuseStatus = "fuse_on") then setDeviceType myDeviceId FUSE_ON
  else mret tt.

(** [myFuseError] is never reset: after an error no fuse is changed any more. *)
Definition overrideFuse (myFuseName myFuseStatus : text) (myFuseError : bool) : DB bool :=
  myDeviceId ← findDevice myFuseName;
  let myFuseError := myFuseError || negb (isFuseStatus myFuseStatus) in
  if myDeviceId =? UNKNOWN_DEVICE then mret true
  else
    t ← fuseModel myDeviceId;
    let myFuseError := myFuseError || negb (isFuse t) in
    _ ← when (negb myFuseError) (overrideType myDeviceId t myFuseStatus);
    mret myFuseError.

Fixpoint overrideLines (lines : list text) (myFuseError : bool) : DB bool :=
  match lines with
  | [] => mret myFuseError
  | l :: lines =>
      x ← lift (fuseInput l);
      match x with
      | FuseSkip => overrideLines lines myFuseError
      | FuseInvalid => overrideLines lines true
      | FuseSetting name status => e ← overrideFuse name status myFuseError; overrideLines lines e
      end
  end.

Definition OverrideFuses (cvcFuseFile : option (option (list text))) : DB unit :=
  match cvcFuseFile with
  | None => mret tt
  | Some None => raise EFatalError
  | Some (Some lines) => e ← overrideLines lines false; if (e : bool) then raise EFatalError else mret tt
  end.

(** ** A file that was checked *)

(** What a line asks for: a device, the type of its model and the setting. *)
Definition asks (d : CCvcDb) (l : text) (i : Z) (t : modelType_t) (status : text) : Prop :=
  exists name, fuseInput l = Ok (FuseSetting name status) /\ findDevice name d = Ok (i, d) /\ i <> UNKNOWN_DEVICE /\
    fuseModel i d = Ok (t, d) /\ isFuse t = true.

Definition opposite (t : modelType_t) (status : text) : option modelType_t :=
  if bool_decide (t = FUSE_ON) && bool_decide (status = "fuse_off") then Some FUSE_OFF
  else if bool_decide (t = FUSE_OFF) && bool_decide (status = "fuse_on") then Some FUSE_ON
  else None.

Definition typed (v : list modelType_t) (d : CCvcDb) : CCvcDb := set_netlist (set_deviceType_v v (netlist d)) d.

Lemma findDevice_reads name d i d' : findDevice name d = Ok (i, d') -> d' = d.
Proof. unfold findDevice. by intros [_ ->]%lift_inv. Qed.
Lemma fuseModel_reads i d t d' : fuseModel i d = Ok (t, d') -> d' = d.
Proof.
  unfold fuseModel, deviceOf. intros H. apply M_bind_inv in H as (dev & e0 & R & H). injection H as _ <-.
  apply M_bind_inv in R as (k & e & R1 & R). apply nlat_inv in R1 as [_ ->]. apply M_bind_inv in R as (x & e & R1 & R).
  apply nlat_inv in R1 as [_ ->]. apply M_bind_inv in R as (c & e & R1 & R). apply at_inv in R1 as [_ ->]. by apply lift_inv in R as [_ ->].
Qed.

(** What names of devices and their models depend on. *)
Definition sameNames (d d1 : CCvcDb) : Prop :=
  instancePtr_v (netlist d1) = instancePtr_v (netlist d) /\ deviceParent_v (netlist d1) = deviceParent_v (netlist d) /\ circuits d1 = circuits d.

Lemma FindDevice_instances nl nl' cs i name : instancePtr_v nl' = instancePtr_v nl ->
  Names.Names.FindDevice nl' cs i name = Names.Names.FindDevice nl cs i name.
Proof. destruct nl, nl'. cbn. by intros ->. Qed.

Lemma findDevice_same name d d1 i : sameNames d d1 -> findDevice name d = Ok (i, d) -> findDevice name d1 = Ok (i, d1).
Proof.
  intros (Ei & _ & Ec) H. apply lift_inv in H as [H _]. unfold findDevice, lift. by rewrite Ec, (FindDevice_instances _ _ _ _ _ Ei), H.
Qed.
Lemma fuseModel_same i d d1 t : sameNames d d1 -> fuseModel i d = Ok (t, d) -> fuseModel i d1 = Ok (t, d1).
Proof.
  intros (Ei & Ep & Ec). unfold fuseModel. intros H. apply M_bind_inv in H as (dev & e & R & H). injection H as <- ->.
  by rewrite (M_run _ _ _ _ _ (deviceOf_frame d d1 i dev Ei Ep Ec R)).
Qed.
Lemma asks_same d d1 l i t s : sameNames d d1 -> asks d l i t s -> asks d1 l i t s.
Proof.
  intros H (name & E1 & E2 & Hi & E3 & Ht). exists name. split_and!; [done | by apply (findDevice_same _ d) | done | by apply (fuseModel_same _ d) | done].
Qed.
Lemma sameNames_typed v d : sameNames d (typed v d).
Proof. by destruct d. Qed.
Lemma sameNames_sym d d1 : sameNames d d1 -> sameNames d1 d.
Proof. intros (E1 & E2 & E3). by split_and!. Qed.

Lemma checkLines_asks lines : forall d d', checkLines lines d = Ok (true, d') ->
  d' = d /\ Forall (fun l => fuseInput l = Ok FuseSkip \/ exists i t s, asks d l i t s /\ isFuseStatus s = true) lines.
Proof.
  induction lines as [| l lines IH]; intros d d' H; cbn [checkLines] in H; [by injection H as -> |].
  apply M_bind_inv in H as (x & e & R & H). apply lift_inv in R as [Ex ->]. destruct x as [| | name status].
  - apply IH in H as [-> H]. split; [done |]. constructor; [by left | done].
  - apply M_bind_inv in H as (b & e & _ & H). done.
  - apply M_bind_inv in H as (b & e & R & H). apply M_bind_inv in H as (b' & e' & R' & H). injection H as Hb <-.
    apply andb_true_iff in Hb as [-> ->]. unfold checkFuse in R. apply M_bind_inv in R as (i & e1 & R1 & R).
    pose proof (findDevice_reads _ _ _ _ R1) as ->. destruct (Z.eqb_spec i UNKNOWN_DEVICE) as [| Hi]; [done |].
    apply M_bind_inv in R as (t & e1 & R2 & R). pose proof (fuseModel_reads _ _ _ _ R2) as ->. injection R as Hb <-.
    apply andb_true_iff in Hb as [Hs Ht]. apply IH in R' as [-> H]. split; [done |]. constructor; [| done]. right.
    exists i, t, status. split; [| done]. exists name. by split_and!.
Qed.

(** The devices that the lines set against their models, with the types they get. *)
Definition overrideOf (d : CCvcDb) (l : text) : option (Z * modelType_t) :=
  match fuseInput l with
  | Ok (FuseSetting name status) =>
      match findDevice name d with
      | Ok (i, _) => match fuseModel i d with Ok (t, _) => (fun t' => (i, t')) <$> opposite t status | Err _ => None end
      | Err _ => None
      end
  | _ => None
  end.
Definition overrides (d : CCvcDb) (lines : list text) : list (Z * modelType_t) := omap (overrideOf d) lines.

Definition overridden (l : list (Z * modelType_t)) (v v' : list modelType_t) : Prop :=
  length v' = length v /\
  (forall i t, (i, t) ∈ l -> vlookup v' i = Some t) /\
  (forall i, i ∉ map fst l -> vlookup v' i = vlookup v i).

Lemma overrideType_run i t s d : 0 <= i < Z.of_nat (length (deviceType_v (netlist d))) ->
  overrideType i t s d = Ok (tt, typed (match opposite t s with Some t' => vupdate (deviceType_v (netlist d)) i t' | None => deviceType_v (netlist d) end) d).
Proof.
  intros Hi. assert (typed (deviceType_v (netlist d)) d = d) as Eid by (destruct d as [? x]; by destruct x).
  unfold overrideType, opposite, setDeviceType, modifyNl.
  destruct (_ && _); [by rewrite vset_in_range |]. destruct (_ && _); [by rewrite vset_in_range | by rewrite Eid].
Qed.

Lemma overrideOf_asks d l i t s : asks d l i t s -> overrideOf d l = (fun t' => (i, t')) <$> opposite t s.
Proof. intros (name & E1 & E2 & _ & E3 & _). unfold overrideOf. by rewrite E1, E2, E3. Qed.

(** A device has one model, so all its lines ask for the same type. *)
Lemma opposite_fun t s s' u u' : opposite t s = Some u -> opposite t s' = Some u' -> u = u'.
Proof. unfold opposite. destruct t; cbn; try done; repeat case_bool_decide; cbn; congruence. Qed.
Lemma overrides_inv d lines i t' : (i, t') ∈ overrides d lines -> exists t s, fuseModel i d = Ok (t, d) /\ opposite t s = Some t'.
Proof.
  unfold overrides. rewrite list_elem_of_omap. intros (l & _ & E). unfold overrideOf in E.
  destruct (fuseInput l) as [[| | name s] |]; try done. destruct (findDevice name d) as [[k ?] |]; [| done].
  destruct (fuseModel k d) as [[t e] |] eqn:Em; [| done]. pose proof (fuseModel_reads _ _ _ _ Em) as ->.
  destruct (opposite t s) as [u |] eqn:Eo; [| done]. injection E as <- <-. eauto.
Qed.
Lemma overrides_same d d1 lines : sameNames d d1 ->
  Forall (fun l => fuseInput l = Ok FuseSkip \/ exists i t s, asks d l i t s /\ isFuseStatus s = true) lines ->
  overrides d1 lines = overrides d lines.
Proof.
  intros Hs HF. unfold overrides. induction HF as [| l lines Hl HF IH]; [done |]. cbn [omap list_omap].
  assert (overrideOf d1 l = overrideOf d l) as ->; [| by destruct (overrideOf d l); rewrite IH].
  destruct Hl as [E | (i & t & s & Ha & _)]; [unfold overrideOf; by rewrite E |].
  by rewrite (overrideOf_asks _ _ _ _ _ Ha), (overrideOf_asks _ _ _ _ _ (asks_same _ _ _ _ _ _ Hs Ha)).
Qed.

Lemma overrideLines_run lines : forall d,
  Forall (fun l => fuseInput l = Ok FuseSkip \/ exists i t s, asks d l i t s /\ isFuseStatus s = true) lines ->
  Z.of_nat (length (deviceType_v (netlist d))) = Z.of_nat (length (deviceParent_v (netlist d))) ->
  exists v, overrideLines lines false d = Ok (false, typed v d) /\ overridden (overrides d lines) (deviceType_v (netlist d)) v.
Proof.
  induction lines as [| l lines IH]; intros d HF Hlen; cbn [overrideLines].
  { exists (deviceType_v (netlist d)). split; [destruct d as [? x]; by destruct x |]. split_and!; [done | by intros ?? ?%elem_of_nil | done]. }
  apply Forall_cons in HF as [Hl HF]. destruct Hl as [El | (i & t & s & Ha & Hs)].
  { rewrite (M_run _ _ d FuseSkip d) by (unfold lift; by rewrite El). destruct (IH d HF Hlen) as (v & E & Hv1 & Hv2 & Hv3).
    assert (overrides d (l :: lines) = overrides d lines) as -> by (unfold overrides; cbn [omap list_omap]; unfold overrideOf at 1; by rewrite El).
    by exists v. }
  pose proof Ha as (name & El & Ed & Hi & Em & Ht). rewrite (M_run _ _ d (FuseSetting name s) d) by (unfold lift; by rewrite El).
  assert (0 <= i < Z.of_nat (length (deviceType_v (netlist d)))) as Hir.
  { rewrite Hlen. unfold fuseModel, deviceOf in Em. apply M_bind_inv in Em as (dev & e & R & _). apply M_bind_inv in R as (k & e' & R & _).
    apply nlat_inv in R as [R _]. by eapply vlookup_range. }
  set (v1 := match opposite t s with Some t' => vupdate (deviceType_v (netlist d)) i t' | None => deviceType_v (netlist d) end).
  assert (overrideFuse name s false d = Ok (false, typed v1 d)) as Eo.
  { unfold overrideFuse. rewrite (M_run _ _ _ _ _ Ed). cbv zeta. rewrite (proj2 (Z.eqb_neq i UNKNOWN_DEVICE) Hi), Hs.
    rewrite (M_run _ _ _ _ _ Em), Ht. cbn [negb orb when]. by rewrite (M_run _ _ _ _ _ (overrideType_run i t s d Hir)). }
  rewrite (M_run _ _ _ _ _ Eo). assert (length v1 = length (deviceType_v (netlist d))) as Hl1
    by (unfold v1; destruct (opposite t s); [apply vupdate_length | done]).
  assert (deviceType_v (netlist (typed v1 d)) = v1 /\ deviceParent_v (netlist (typed v1 d)) = deviceParent_v (netlist d)) as [Et Ep] by (by destruct d).
  destruct (IH (typed v1 d)) as (v & E & Hv1 & Hv2 & Hv3); rewrite ?Et, ?Ep, ?Hl1; [| done |].
  { eapply Forall_impl; [exact HF |]. cbn. intros l' [? | (i' & t' & s' & Ha' & ?)]; [by left | right]. exists i', t', s'.
    split; [by apply (asks_same d), Ha'; apply sameNames_typed | done]. }
  rewrite Et in Hv1, Hv3. exists v. split; [rewrite E; by destruct d |].
  rewrite (overrides_same d (typed v1 d) lines (sameNames_typed v1 d) HF) in Hv2, Hv3.
  assert (overrides d (l :: lines) = match opposite t s with Some t' => (i, t') :: overrides d lines | None => overrides d lines end) as Eov.
  { unfold overrides. cbn [omap list_omap]. rewrite (overrideOf_asks _ _ _ _ _ Ha). by destruct (opposite t s). }
  rewrite Eov. unfold v1 in *. destruct (opposite t s) as [t' |] eqn:Eop; [| by split_and!; [lia | ..]].
  split_and!; [lia | |].
  - intros j u [Hj | Hj]%elem_of_cons; [injection Hj as -> -> | by apply Hv2]. destruct (decide (i ∈ map fst (overrides d lines))) as [Hin | Hin].
    + apply list_elem_of_In, in_map_iff in Hin as ([i' w] & Ei & Hw%list_elem_of_In). cbn in Ei. subst i'. rewrite (Hv2 i w Hw).
      destruct (overrides_inv _ _ _ _ Hw) as (t2 & s2 & Em2 & Ho2). rewrite Em in Em2. injection Em2 as <-. f_equal. by eapply opposite_fun.
    + rewrite Hv3 by done. by apply vlookup_vupdate_eq.
  - intros j Hj. cbn [map] in Hj. apply not_elem_of_cons in Hj as [Hji Hj]. rewrite Hv3 by done. by apply vlookup_vupdate_ne.
Qed.

(** C38: A fuse file that [CheckFuses] accepts is applied by [OverrideFuses] without an error, also
    after the devices were linked: the types of exactly those devices change that a line sets
    against the model, to the other type of fuse, whatever the order of the lines. *)
Theorem CheckFuses_OverrideFuses d d0 d1 lines :
  CheckFuses (Some (Some lines)) d = Ok (OK, d0) -> sameNames d d1 ->
  length (deviceType_v (netlist d1)) = length (deviceParent_v (netlist d1)) ->
  exists v, OverrideFuses (Some (Some lines)) d1 = Ok (tt, typed v d1) /\
    overridden (overrides d lines) (deviceType_v (netlist d1)) v.
Proof.
  intros H Hs Hlen. cbn [CheckFuses] in H. apply M_bind_inv in H as (b & e & R & H). destruct b; [| done].
  destruct (checkLines_asks lines d e R) as [-> HF].
  destruct (overrideLines_run lines d1) as (v & E & Hv); [| lia |].
  { eapply Forall_impl; [exact HF |]. cbn. intros l [? | (i & t & s & Ha & ?)]; [by left | right]. exists i, t, s. split; [by eapply asks_same | done]. }
  exists v. cbn [OverrideFuses]. rewrite (M_run _ _ _ _ _ E). split; [done |]. by rewrite <- (overrides_same d d1 lines).
Qed.

(** Two fuses in the example circuit. *)
Definition fuseCircuit : CCircuit :=
  mkCircuit UNKNOWN_DEVICE "top"
    [mkDevice "F0" [0; 4] (ExampleDb.plainModel "fon" FUSE_ON 0 "F") "" 0; mkDevice "F1" [4; 1] (ExampleDb.plainModel "foff" FUSE_OFF 0 "F") "" 1;
     ExampleDb.upper; ExampleDb.lower]
    ExampleDb.zeros4 ExampleDb.zeros4 3 1 [0] [] 5 [UNKNOWN_DEVICE] true 5 4 1 ["VDD"; "VSS"; "IN"; "OUT"; "MID"].
Definition fuseDb : CCvcDb := typed [FUSE_ON; FUSE_OFF; RESISTOR; RESISTOR] (set_circuits [fuseCircuit] ExampleDb.exampleDb).
Definition fuseLines : list text := ["# fuses"; ""; "F0  fuse_off"; " F1 fuse_off"].

Lemma CheckFuses_OverrideFuses_witness :
  exists d', OverrideFuses (Some (Some fuseLines)) fuseDb = Ok (tt, d') /\
    deviceType_v (netlist d') = [FUSE_OFF; FUSE_OFF; RESISTOR; RESISTOR].
Proof.
  destruct (CheckFuses_OverrideFuses fuseDb fuseDb fuseDb fuseLines) as (v & E & Hl & H1 & H2).
  - vm_compute. reflexivity.
  - by split_and!.
  - reflexivity.
  - exists (typed v fuseDb). split; [exact E |]. vm_compute in E. injection E as <-. reflexivity.
Defined.

(** An error on an earlier line stops the changes of all later lines, and a setting can not be taken back. *)
Example sticky_error :
  let run lines := match overrideLines lines false fuseDb with Ok (e, d) => Some (e, deviceType_v (netlist d)) | Err _ => None end in
  (run ["R0 fuse_on"; "F0 fuse_off"], run ["F0 fuse_off"; "R0 fuse_on"], run ["F0 fuse_off"; "F0 fuse_on"]) =
  (Some (true, [FUSE_ON; FUSE_OFF; RESISTOR; RESISTOR]), Some (true, [FUSE_OFF; FUSE_OFF; RESISTOR; RESISTOR]),
   Some (false, [FUSE_OFF; FUSE_OFF; RESISTOR; RESISTOR])).
Proof. vm_compute. reflexivity. Qed.

(** A line of blanks ends the reading with an exception. *)
Example blank_line : CheckFuses (Some (Some ["  "])) fuseDb = Err EOutOfRange.
Proof. vm_compute. reflexivity. Qed.
End Fuses.
