(* ===== verification/CheckFiles.v ===== *)
(** * Files of checks (CCvcDb_init.cc)

    Four files add to the database before it is analysed: error limits and
    checksums of cells, nets to be checked and checks of models.  A file is the
    list of its lines; messages are left out.  An exception that the code does
    not catch ends the run: a line without a name in the last two files. *)

From S2P Require Import Prelude CvcTypes Power Text Db Model Counting PowerText PowerFile ExampleDb.
From stdpp Require Import base list strings gmap.
From Stdlib Require Import ZArith Lia Ascii.
#[local] Open Scope string_scope.
#[local] Open Scope list_scope.
#[local] Open Scope Z_scope.

Module CheckFiles.
Import Power.Power Text.Text Db.Db.
Import Model.Model (CModelList, from_string_int).
Abbreviation CModelListMap := (list (String.string * CModelList)).
Import PowerText.PowerText (lastOf).
Import PowerFile.PowerFile (returnCode_t, OK, SKIP, FAIL).

Abbreviation text := String.string.

(** No file name, a file that can not be opened, or its lines. *)
Abbreviation inputFile := (option (option (list text))).

(** Positions are kept in an [int]; [npos] becomes -1. *)
Definition asInt (pos : Z) : Z := s32 pos.
Definition asSize (i : Z) : Z := u64 i.

(** ** Error limits of cells *)

Definition set_errorLimit (n : Z) (c : CCircuit) : CCircuit :=
  mkCircuit n (circuitName c) (devicePtr_v c) (deviceErrorCount_v c) (devicePrintCount_v c) (portCount c) (instanceCount c)
    (instanceId_v c) (subcircuitPtr_v c) (localSignalCount c) (instanceHashId_v c) (linked c)
    (totalNets c) (totalDevices c) (totalSubcircuits c) (signalName_v c).

Definition findCell (cs : list CCircuit) (name : text) : outcome Z :=
  match Counting.Counting.FindCircuit cs name with Some k => Ok k | None => throw EOutOfRange end.

(** The cell and the limit of a line. *)
Definition limitLine (cs : list CCircuit) (myInput : text) : outcome (Z * Z) :=
  let myCellNameStart := asInt (find_first_not_of myInput blanks 0) in
  let myCellNameEnd := asInt (find_first_of myInput blanks (asSize myCellNameStart)) in
  myCellName ← substr myInput (asSize myCellNameStart) (asSize (myCellNameEnd - myCellNameStart));
  rest ← substr myInput (asSize myCellNameEnd) npos;
  myErrorLimit ← from_string_int rest;
  k ← findCell cs myCellName;
  Ok (k, u32 myErrorLimit).

(** Any exception ends the file; limits already set stay. *)
Fixpoint limitLines (lines : list text) (cs : list CCircuit) : outcome (returnCode_t * list CCircuit) :=
  match lines with
  | [] => Ok (OK, cs)
  | l :: lines =>
      match limitLine cs l with
      | Err UndefinedBehaviour => throw UndefinedBehaviour
      | Err OutOfFuel => throw OutOfFuel
      | Err _ => Ok (FAIL, cs)
      | Ok (k, n) =>
          match vlookup cs k with
          | Some c => limitLines lines (vupdate cs k (set_errorLimit n c))
          | None => throw UndefinedBehaviour
          end
      end
  end.

Definition LoadCellErrorLimits (cvcCellErrorLimitFile : inputFile) (cs : list CCircuit) : outcome (returnCode_t * list CCircuit) :=
  match cvcCellErrorLimitFile with
  | None => Ok (OK, cs)
  | Some None => throw EFatalError
  | Some (Some lines) => limitLines lines cs
  end.

(** ** Checksums of cells *)

(** [checksum] of the circuits, by their number; cells that are not found are skipped. *)
Definition checksumLine (cs : list CCircuit) (myInput : text) (m : gmap Z text) : outcome (gmap Z text) :=
  if bool_decide (takeText 1 myInput = "#") then Ok m
  else
    let myCellNameStart := asInt (lastOf " "%char 0 npos myInput) in
    myCellName ← substr myInput (asSize (myCellNameStart + 1)) npos;
    match Counting.Counting.FindCircuit cs myCellName with
    | Some k => checksum ← substr myInput 0 (asSize myCellNameStart); Ok (<[k := checksum]> m)
    | None => Ok m
    end.
Fixpoint checksumLines (cs : list CCircuit) (lines : list text) (m : gmap Z text) : outcome (gmap Z text) :=
  match lines with
  | [] => Ok m
  | l :: lines => m ← checksumLine cs l m; checksumLines cs lines m
  end.
Definition LoadCellChecksums (cvcCellChecksumFile : inputFile) (cs : list CCircuit) (m : gmap Z text) : outcome (gmap Z text) :=
  match cvcCellChecksumFile with
  | None => Ok m
  | Some None => throw EFatalError
  | Some (Some lines) => checksumLines cs lines m
  end.

(** ** Checks of nets *)

(** The word of a line from a position on, and its end. *)
Definition wordAt (s : text) (pos : Z) : outcome (text * Z) :=
  let myStringBegin := find_first_not_of s blanksOfLine pos in
  let myStringEnd := find_first_of s blanksOfLine myStringBegin in
  w ← substr s myStringBegin (u64 (myStringEnd - myStringBegin)); Ok (w, myStringEnd).

(** [inverterInputOutputCheckList] and [oppositeLogicList]. *)
Definition netChecks : Type := list text * list (text * text).

(** The second net of [opposite_logic] is in the instance of the first. *)
Definition oppositeNet (myNetName myOpposite : text) : outcome text :=
  let myDelimiter := lastOf "/"%char 0 npos myNetName in
  if myDelimiter <? npos then path ← substr myNetName 0 myDelimiter; Ok (String.append path (String.append "/" myOpposite))
  else Ok myOpposite.

Definition netCheckLine (FindUniqueNetIds : text -> outcome (list Z)) (myInput : text) (st : netChecks) : outcome netChecks :=
  if bool_decide (takeText 1 myInput = "#") then Ok st
  else
    '(myNetName, e) ← wordAt myInput 0;
    _ ← FindUniqueNetIds myNetName;
    '(myOperation, e) ← wordAt myInput e;
    if bool_decide (myOperation = "inverter_input=output") then Ok (myNetName :: st.1, st.2)
    else if bool_decide (myOperation = "opposite_logic") then
      '(myOpposite, _) ← wordAt myInput e;
      myOpposite ← oppositeNet myNetName myOpposite;
      Ok (st.1, (myNetName, myOpposite) :: st.2)
    else Ok st.
Fixpoint netCheckLines (FindUniqueNetIds : text -> outcome (list Z)) (lines : list text) (st : netChecks) : outcome netChecks :=
  match lines with
  | [] => Ok st
  | l :: lines => st ← netCheckLine FindUniqueNetIds l st; netCheckLines FindUniqueNetIds lines st
  end.
Definition LoadNetChecks (FindUniqueNetIds : text -> outcome (list Z)) (cvcNetCheckFile : inputFile) (st : netChecks) : outcome netChecks :=
  match cvcNetCheckFile with
  | None => Ok st
  | Some None => throw EFatalError
  | Some (Some lines) => netCheckLines FindUniqueNetIds lines st
  end.

(** ** Checks of models *)

(** The key of the first list of models with the name. *)
Fixpoint FindModelList (m : CModelListMap) (theModelName : text) : outcome (option text) :=
  match m with
  | [] => Ok None
  | (k, _) :: m => name ← substr k 2 npos; if bool_decide (name = theModelName) then Ok (Some k) else FindModelList m theModelName
  end.

(** [SetValue] of a parameter that is a voltage; other texts must be numbers. *)
Definition checkVoltage (theParameter : text) : outcome Z :=
  if IsEmpty theParameter then Ok 0
  else if IsValidVoltage_ theParameter
  then v ← from_string_float theParameter; n ← scaledVoltage v; fits (- 2 ^ 15) (2 ^ 15 - 1) n
  else _ ← from_string_float theParameter; Ok 0.
Definition newModelCheck (myCheck myValue : text) : outcome CModelCheck :=
  v ← checkVoltage myValue; Ok (mkModelCheck "Vb" myValue "" myValue "" v 0 v 0).

(** The checks pushed to the models of a list, by its key. *)
Definition modelCheckLine (m : CModelListMap) (myInput : text) (checks : gmap text (list CModelCheck))
    : outcome (gmap text (list CModelCheck)) :=
  if bool_decide (takeText 1 myInput = "#") then Ok checks
  else
    '(myModelName, e) ← wordAt myInput 0;
    myModelList_p ← FindModelList m myModelName;
    match myModelList_p with
    | None => Ok checks
    | Some k =>
        let b := find_first_not_of myInput blanksOfLine e in
        myCheck ← substr myInput b (u64 (find_first_of myInput blanksOfLine b - b));
        let e := find_first_of myInput (String.append blanksOfLine "=<>") b in
        myParameter ← substr myInput b (u64 (e - b));
        let b := find_first_of myInput "=<>" e in
        let e := find_first_not_of myInput "=<>" b in
        myOperation ← substr myInput b (u64 (e - b));
        let b := find_first_not_of myInput "=<>" e in
        myValue ← substr myInput b (u64 (find_first_of myInput blanksOfLine b - b));
        if bool_decide (myParameter = "Vb") && bool_decide (myOperation = "=") then
          c ← newModelCheck myCheck myValue; Ok (<[k := c :: default [] (checks !! k)]> checks)
        else Ok checks
    end.
Fixpoint modelCheckLines (m : CModelListMap) (lines : list text) (checks : gmap text (list CModelCheck))
    : outcome (gmap text (list CModelCheck)) :=
  match lines with
  | [] => Ok checks
  | l :: lines => checks ← modelCheckLine m l checks; modelCheckLines m lines checks
  end.
Definition LoadModelChecks (cvcModelCheckFile : inputFile) (m : CModelListMap) (checks : gmap text (list CModelCheck))
    : outcome (gmap text (list CModelCheck)) :=
  match cvcModelCheckFile with
  | None => Ok checks
  | Some None => throw EFatalError
  | Some (Some lines) => modelCheckLines m lines checks
  end.

(** ** What a file changes *)

Lemma map_update_same {A B} (f : A -> B) (v : list A) i x y : vlookup v i = Some x -> f y = f x -> map f (vupdate v i y) = map f v.
Proof.
  intros E Ef. unfold vupdate. destruct (in_range v i); [| done]. apply Prelude.vlookup_lookup in E. revert E.
  generalize (Z.to_nat i) as k. induction v as [| z v IH]; intros [| k] E; try done; cbn in *.
  - injection E as ->. by rewrite Ef.
  - f_equal. by apply IH.
Qed.

(** Error limits change nothing but error limits, whether the file is read to its end or not. *)
Lemma limitLines_only lines : forall cs r cs', limitLines lines cs = Ok (r, cs') ->
  map (set_errorLimit 0) cs' = map (set_errorLimit 0) cs.
Proof.
  induction lines as [| l lines IH]; intros cs r cs' H; cbn [limitLines] in H; [by injection H as _ <- |].
  destruct (limitLine cs l) as [[k n] |]; [| destruct e; try done; by injection H as _ <-].
  destruct (vlookup cs k) as [c |] eqn:E; [| done]. apply IH in H. rewrite H. by apply (map_update_same _ _ _ _ _ E).
Qed.

(** The example circuit gets a limit; a name without a limit or a blank line fails the file. *)
Example limits :
  let run lines := match LoadCellErrorLimits (Some (Some lines)) [ExampleDb.top] with Ok (r, cs) => Some (r, map errorLimit cs) | Err _ => None end in
  (run ["top 12"], run ["top 12"; "top"], run ["top 7"; ""]) = (Some (OK, [12]), Some (FAIL, [12]), Some (FAIL, [7])).
Proof. vm_compute. reflexivity. Qed.

(** An empty line in the file of net checks is not skipped but ends the run. *)
Example net_checks :
  let run lines := LoadNetChecks (fun _ => Ok []) (Some (Some lines)) ([], []) in
  (run ["/X1/a opposite_logic b"; "# x"; "c inverter_input=output"], run ["c inverter_input=output"; ""]) =
  (Ok (["c"], [("/X1/a", "/X1/b")]), Err EOutOfRange).
Proof. vm_compute. reflexivity. Qed.
End CheckFiles.
