(* ===== verification/Environment.v ===== *)
(** * Settings of a mode (CCvcParameters.cc)

    A resource file (cvcrc) assigns shell variables; those CVC knows are members of
    [CCvcParameters].  The value of an assignment is what the shell echoes for its right
    side.  [PrintEnvironment] and [PrintDefaultEnvironment] write the members as
    assignments.  The shell is a parameter: the text that [echo] prints, under the
    variables set so far. *)

From S2P Require Import Prelude CvcTypes Numeric Power Text Model PowerText.
From stdpp Require Import base list strings pretty.
From Stdlib Require Import ZArith Lia Ascii Floats.SpecFloat.
#[local] Open Scope string_scope.
#[local] Open Scope list_scope.
#[local] Open Scope Z_scope.

Module Environment.
Import Numeric.Numeric Text.Text PowerText.PowerText Model.Model.

Abbreviation text := String.string.

(** ** The members, by their type *)

Inductive textMember : Set :=
| cvcParamterFilename | cvcTopBlock | cvcNetlistFilename | cvcMode | cvcModelFilename | cvcPowerFilename
| cvcFuseFilename | cvcReportFilename | cvcReportDirectory | cvcReportName | cvcLockFile | cvcReportTitle
| cvcCellErrorLimitFile | cvcCellChecksumFile | cvcNetCheckFile | cvcModelCheckFile
| cvcLastTopBlock | cvcLastNetlistFilename.
Inductive flagMember : Set :=
| cvcSOI | cvcSCRC | cvcVthGates | cvcMinVthGates | cvcIgnoreVthFloating | cvcIgnoreNoLeakFloating
| cvcLeakOvervoltage | cvcLogicDiodes | cvcAnalogGates | cvcBackupResults | cvcLastSOI.
Inductive thresholdMember : Set :=
| cvcMosDiodeErrorThreshold | cvcShortErrorThreshold | cvcBiasErrorThreshold | cvcForwardErrorThreshold
| cvcFloatingErrorThreshold | cvcGateErrorThreshold | cvcLeakErrorThreshold | cvcExpectedErrorThreshold
| cvcOvervoltageErrorThreshold.
Inductive countMember : Set :=
| cvcCircuitErrorLimit | cvcSearchLimit | cvcParallelCircuitPortLimit | cvcLargeCircuitSize.

#[export] Instance textMember_eq : EqDecision textMember.
Proof. solve_decision. Defined.
#[export] Instance flagMember_eq : EqDecision flagMember.
Proof. solve_decision. Defined.
#[export] Instance thresholdMember_eq : EqDecision thresholdMember.
Proof. solve_decision. Defined.
#[export] Instance countMember_eq : EqDecision countMember.
Proof. solve_decision. Defined.

Record parameters : Type := mkParameters {
  texts : textMember -> text;
  flags : flagMember -> bool;
  thresholds : thresholdMember -> Z;
  counts : countMember -> Z;
  cvcLeakLimit : spec_float
}.

Definition update {A B} `{EqDecision A} (f : A -> B) (x : A) (v : B) : A -> B := fun y => if decide (y = x) then v else f y.
Definition set_text (x : textMember) (v : text) (e : parameters) : parameters :=
  mkParameters (update (texts e) x v) (flags e) (thresholds e) (counts e) (cvcLeakLimit e).
Definition set_flag (x : flagMember) (v : bool) (e : parameters) : parameters :=
  mkParameters (texts e) (update (flags e) x v) (thresholds e) (counts e) (cvcLeakLimit e).
Definition set_threshold (x : thresholdMember) (v : Z) (e : parameters) : parameters :=
  mkParameters (texts e) (flags e) (update (thresholds e) x v) (counts e) (cvcLeakLimit e).
Definition set_count (x : countMember) (v : Z) (e : parameters) : parameters :=
  mkParameters (texts e) (flags e) (thresholds e) (update (counts e) x v) (cvcLeakLimit e).
Definition set_cvcLeakLimit (v : spec_float) (e : parameters) : parameters :=
  mkParameters (texts e) (flags e) (thresholds e) (counts e) v.

(** ** Reuse of the netlist *)

Definition IsSameDatabase (e : parameters) : bool :=
  bool_decide (texts e cvcLastTopBlock = texts e cvcTopBlock)
  && bool_decide (texts e cvcLastNetlistFilename = texts e cvcNetlistFilename)
  && Bool.eqb (flags e cvcLastSOI) (flags e cvcSOI).
Definition SaveDatabaseParameters (e : parameters) : parameters :=
  set_flag cvcLastSOI (flags e cvcSOI)
    (set_text cvcLastNetlistFilename (texts e cvcNetlistFilename) (set_text cvcLastTopBlock (texts e cvcTopBlock) e)).

(** ** Defaults *)

Definition defaultLeakLimit : spec_float := toSingle (decimal 53 1024 false 200 (-6)).
Definition defaultFlag (x : flagMember) : bool :=
  match x with cvcLeakOvervoltage | cvcAnalogGates => true | _ => false end.
Definition defaultCount (x : countMember) : Z :=
  match x with
  | cvcCircuitErrorLimit => 100 | cvcSearchLimit => 100 | cvcParallelCircuitPortLimit => 0 | cvcLargeCircuitSize => 10000000
  end.

(** The members [ResetEnvironment] does not assign. *)
Definition keptText (x : textMember) : bool :=
  match x with
  | cvcParamterFilename | cvcMode | cvcReportDirectory | cvcReportName | cvcLockFile | cvcLastTopBlock
  | cvcLastNetlistFilename => true
  | _ => false
  end.
Definition ResetEnvironment (e : parameters) : parameters :=
  mkParameters (fun x => if keptText x then texts e x else "")
    (fun x => match x with cvcLastSOI => flags e x | _ => defaultFlag x end)
    (fun _ => 0)
    (fun x => match x with cvcSearchLimit => counts e x | _ => defaultCount x end)
    defaultLeakLimit.

(** ** Printing *)

(** The six significant digits of [n / d > 0] and their exponent; [%g]. *)
Definition significant6 (n d : Z) : Z * Z :=
  let x := if n <? d then exponentDown 60 n d else exponentUp 60 n d in
  let m := if x <=? 5 then divRoundEven (n * 10 ^ (5 - x)) d else divRoundEven n (d * 10 ^ (x - 5)) in
  if m =? 1000000 then (100000, x + 1) else (m, x).
Definition formatG (f : spec_float) : text :=
  match f with
  | S754_finite s m e =>
      let n := if 0 <=? e then Z.pos m * 2 ^ e else Z.pos m in
      let d := if 0 <=? e then 1 else 2 ^ (- e) in
      let '(m, x) := significant6 n d in
      let sign := if s then "-" else "" in
      let point (t : text) := if bool_decide (t = "") then "" else String.append "." t in
      if (x <? 6) && (-4 <=? x) then
        let p := 10 ^ (5 - x) in
        String.append sign (String.append (pretty (m / p)) (point (stripLast 9 (digits (Z.to_nat (5 - x)) (m mod p)))))
      else
        String.append sign (String.append (pretty (m / 100000)) (String.append (point (stripLast 5 (digits 5 (m mod 100000))))
          (String.append (if x <? 0 then "e-" else "e+") (digits 2 (Z.abs x)))))
  | S754_zero s => if s then "-0" else "0"
  | S754_infinity s => if s then "-inf" else "inf"
  | S754_nan => "nan"
  end.

Inductive target : Set :=
| Text (x : textMember) | Flag (x : flagMember) | Threshold (x : thresholdMember) | Count (x : countMember) | LeakLimit.

#[export] Instance target_eq : EqDecision target.
Proof. solve_decision. Defined.

Definition printValue (t : target) (e : parameters) : text :=
  match t with
  | Text x => texts e x
  | Flag x => if flags e x then "true" else "false"
  | Threshold x => printVolts (thresholds e x)
  | Count x => pretty (counts e x)
  | LeakLimit => formatG (cvcLeakLimit e)
  end.

(** The assignments in the order they are printed. *)
Definition printed : list (text * target) :=
  [("CVC_TOP", Text cvcTopBlock); ("CVC_NETLIST", Text cvcNetlistFilename); ("CVC_MODE", Text cvcMode);
   ("CVC_MODEL_FILE", Text cvcModelFilename); ("CVC_POWER_FILE", Text cvcPowerFilename);
   ("CVC_FUSE_FILE", Text cvcFuseFilename); ("CVC_REPORT_FILE", Text cvcReportFilename);
   ("CVC_REPORT_TITLE", Text cvcReportTitle); ("CVC_CIRCUIT_ERROR_LIMIT", Count cvcCircuitErrorLimit);
   ("CVC_SEARCH_LIMIT", Count cvcSearchLimit); ("CVC_LEAK_LIMIT", LeakLimit); ("CVC_SOI", Flag cvcSOI);
   ("CVC_SCRC", Flag cvcSCRC); ("CVC_VTH_GATES", Flag cvcVthGates); ("CVC_MIN_VTH_GATES", Flag cvcMinVthGates);
   ("CVC_IGNORE_VTH_FLOATING", Flag cvcIgnoreVthFloating);
   ("CVC_IGNORE_NO_LEAK_FLOATING", Flag cvcIgnoreNoLeakFloating); ("CVC_LEAK_OVERVOLTAGE", Flag cvcLeakOvervoltage);
   ("CVC_LOGIC_DIODES", Flag cvcLogicDiodes); ("CVC_ANALOG_GATES", Flag cvcAnalogGates);
   ("CVC_BACKUP_RESULTS", Flag cvcBackupResults);
   ("CVC_MOS_DIODE_ERROR_THRESHOLD", Threshold cvcMosDiodeErrorThreshold);
   ("CVC_SHORT_ERROR_THRESHOLD", Threshold cvcShortErrorThreshold);
   ("CVC_BIAS_ERROR_THRESHOLD", Threshold cvcBiasErrorThreshold);
   ("CVC_FORWARD_ERROR_THRESHOLD", Threshold cvcForwardErrorThreshold);
   ("CVC_FLOATING_ERROR_THRESHOLD", Threshold cvcFloatingErrorThreshold);
   ("CVC_GATE_ERROR_THRESHOLD", Threshold cvcGateErrorThreshold);
   ("CVC_LEAK?_ERROR_THRESHOLD", Threshold cvcLeakErrorThreshold);
   ("CVC_EXPECTED_ERROR_THRESHOLD", Threshold cvcExpectedErrorThreshold);
   ("CVC_OVERVOLTAGE_ERROR_THRESHOLD", Threshold cvcOvervoltageErrorThreshold);
   ("CVC_PARALLEL_CIRCUIT_PORT_LIMIT", Count cvcParallelCircuitPortLimit);
   ("CVC_CELL_ERROR_LIMIT_FILE", Text cvcCellErrorLimitFile); ("CVC_CELL_CHECKSUM_FILE", Text cvcCellChecksumFile);
   ("CVC_LARGE_CIRCUIT_SIZE", Count cvcLargeCircuitSize); ("CVC_NET_CHECK_FILE", Text cvcNetCheckFile);
   ("CVC_MODEL_CHECK_FILE", Text cvcModelCheckFile)].

Definition assignment (name value : text) : text := String.append name (String.append " = '" (String.append value "'")).
Definition settings (e : parameters) : list text := (fun '(name, t) => assignment name (printValue t e)) <$> printed.
Definition PrintEnvironment (e : parameters) : list text :=
  [String.append "Using the following parameters for CVC (Circuit Validation Check) from " (texts e cvcParamterFilename)]
  ++ settings e ++ ["End of parameters"; ""].

(** The file default.cvcrc; [exists_] tells whether it is there already. *)
Definition PrintDefaultEnvironment (exists_ : bool) (e : parameters) : option (list text) :=
  if exists_ then None else Some (settings e).

(** ** Reading *)

(** [from_string] for the unsigned types of [w] bits. *)
Definition from_string_unsigned (w : Z) (s : text) : outcome Z :=
  let s := skipWhile isSpace s in
  let '(n, c, rest) := leadingDigits 0 0 (skipSign s) in
  if bool_decide (c = 0%nat) then Ok 0
  else if 2 ^ w - 1 <? n then Ok (2 ^ w - 1)
  else
    let n := if minusFirst s then (- n) mod 2 ^ w else n in
    let mySuffix := word (skipWhile isSpace rest) in
    if bool_decide (mySuffix = "") then Ok n
    else f ← atMap (SISuffix mySuffix); z ← truncate (fmul (single n) f); fits 0 (2 ^ w - 1) z.

(** [strcasecmp] with "true". *)
Definition isTrue (s : text) : bool := bool_decide (toupper_ s = "TRUE").

Definition MAX_PARALLEL_CIRCUIT_PORT_LIMIT : Z := 10.

Definition readCount (x : countMember) (s : text) : outcome Z :=
  match x with
  | cvcCircuitErrorLimit => from_string_unsigned 32 s
  | cvcSearchLimit => n ← from_string_int s; Ok (u64 n)
  | cvcParallelCircuitPortLimit =>
      n ← from_string_int s;
      Ok (if MAX_PARALLEL_CIRCUIT_PORT_LIMIT <? u64 n then MAX_PARALLEL_CIRCUIT_PORT_LIMIT else u64 n)
  | cvcLargeCircuitSize => from_string_unsigned 64 s
  end.

(** The parts of a file name before and after its last slash of either kind. *)
Definition isSlash (c : ascii) : bool := Ascii.eqb c "\" || Ascii.eqb c "/".
Fixpoint lastSlash (k found : Z) (s : text) : Z :=
  match s with
  | EmptyString => found
  | String c s => lastSlash (k + 1) (if isSlash c then k else found) s
  end.
Definition splitReport (s : text) (e : parameters) : outcome parameters :=
  if searchFrom isSlash s 0 <? size s then
    directory ← substr s 0 (u64 (lastSlash 0 npos s + 1));
    name ← substr s (u64 (lastSlash 0 npos s + 1)) npos;
    Ok (set_text cvcReportName name (set_text cvcReportDirectory directory e))
  else Ok (set_text cvcReportName s (set_text cvcReportDirectory "" e)).

Definition assign (t : target) (myBuffer : text) (e : parameters) : outcome parameters :=
  match t with
  | Text cvcReportFilename => splitReport myBuffer (set_text cvcReportFilename myBuffer e)
  | Text x => Ok (set_text x myBuffer e)
  | Flag x => Ok (set_flag x (isTrue myBuffer) e)
  | Threshold x => v ← String_to_Voltage myBuffer; v ← fits (- 2 ^ 15) (2 ^ 15 - 1) v; Ok (set_threshold x v e)
  | Count x => n ← readCount x myBuffer; Ok (set_count x n e)
  | LeakLimit => f ← from_string_float myBuffer; Ok (set_cvcLeakLimit f e)
  end.
(** The names that are read are those that are printed: the chain of tests finds the
    first, and no name is there twice. *)
Fixpoint targetOf (name : text) (l : list (text * target)) : option target :=
  match l with
  | [] => None
  | (x, t) :: l => if bool_decide (name = x) then Some t else targetOf name l
  end.

(** [fgets] into 1024 bytes: up to the end of the line, which is kept. *)
Fixpoint fgets (n : nat) (s : text) : text :=
  match n, s with
  | S n, String c s => if Ascii.eqb c "010" then String c "" else String c (fgets n s)
  | _, _ => ""
  end.
(** What [strlen] counts. *)
Fixpoint cString (s : text) : text :=
  match s with
  | String c s => if Ascii.eqb c "000" then "" else String c (cString s)
  | EmptyString => ""
  end.

(** The members, the shell variables set so far (the last one first), and the buffer,
    which holds nothing defined before the first line is read. *)
Record loadState : Type := mkLoadState {
  loaded : parameters;
  environ : list (text * text);
  myBuffer : option text
}.

Section Loading.
(** What the shell prints for a command, under the variables of [setenv]. *)
Context (shell : list (text * text) -> text -> text).

(** The buffer after [fgets], without its last character.  When nothing was printed the
    buffer is as it was. *)
Definition echo (myValue : text) (st : loadState) : outcome text :=
  let out := fgets 1023 (shell (environ st) (String.append "echo " myValue)) in
  b ← (if bool_decide (out = "") then match myBuffer st with Some b => Ok b | None => throw UndefinedBehaviour end
       else Ok (cString out));
  if bool_decide (b = "") then throw UndefinedBehaviour else Ok (takeText (String.length b - 1) b).

Definition loadLine (myTuple : text) (st : loadState) : outcome loadState :=
  if Ascii.eqb (firstChar myTuple) "#" then Ok st
  else if size myTuple <? find_first_not_of myTuple blanks 0 then Ok st
  else
    let equal := find_first_of myTuple "=" 0 in
    if size myTuple <? equal then throw EBadEnvironment
    else
      myVariable ← substr myTuple 0 equal;
      myVariable ← trim_ myVariable;
      myValue ← substr myTuple (equal + 1) npos;
      myValue ← trim_ myValue;
      buffer ← echo myValue st;
      e ← match targetOf myVariable printed with Some t => assign t buffer (loaded st) | None => Ok (loaded st) end;
      Ok (mkLoadState e ((myVariable, buffer) :: environ st) (Some buffer)).

Fixpoint loadLines (lines : list text) (st : loadState) : outcome loadState :=
  match lines with
  | [] => Ok st
  | l :: lines => st ← loadLine l st; loadLines lines st
  end.

(** The names of the report and of its lock. *)
Definition nameReport (theReportPrefix : text) (e : parameters) : parameters :=
  let name := if bool_decide (theReportPrefix = "") then texts e cvcReportName
              else String.append theReportPrefix (String.append "-" (texts e cvcReportName)) in
  let e := set_text cvcReportName name e in
  let e := set_text cvcReportFilename (String.append (texts e cvcReportDirectory) name) e in
  set_text cvcLockFile (String.append (texts e cvcReportDirectory) (String.append "." name)) e.

(** The file with its lines, [None] when it can not be opened; the result also has the
    variables that are left in the environment of the process. *)
Definition LoadEnvironment (theEnvironmentFilename : text) (file : option (list text)) (theReportPrefix : text)
    (environ0 : list (text * text)) (e : parameters) : outcome (parameters * list (text * text)) :=
  match file with
  | None => throw EFatalError
  | Some lines =>
      st ← loadLines lines (mkLoadState (set_text cvcParamterFilename theEnvironmentFilename e) environ0 None);
      Ok (nameReport theReportPrefix (loaded st), environ st)
  end.
End Loading.

(** ** Reading what was printed *)

(** Characters [echo] prints as they are between single quotes. *)
Definition isPlainChar (c : ascii) : bool :=
  negb (Ascii.eqb c "'") && negb (Ascii.eqb c "\") && negb (Ascii.eqb c "010") && negb (Ascii.eqb c "000").
(** An option of [echo] is a minus sign and letters. *)
Definition isOption (s : text) : bool := minusFirst s && negb (isDigit (firstChar (dropText 1 s))).
Definition quotable (s : text) : bool :=
  forallb isPlainChar (String.list_ascii_of_string s) && negb (isOption s) && (size s <? 1023).

Definition newline : text := String "010" "".
Definition quote (s : text) : text := String.append "'" (String.append s "'").

Lemma fgets_line n s : forallb isPlainChar (String.list_ascii_of_string s) = true -> (String.length s < n)%nat ->
  fgets n (String.append s newline) = String.append s newline.
Proof.
  revert n. induction s as [| c s IH]; intros [| n] H Hn; [simpl in *; lia | done | simpl in *; lia |].
  cbn [String.list_ascii_of_string forallb] in H. apply andb_true_iff in H as [Hc H]. rewrite append_cons. cbn [fgets].
  unfold isPlainChar in Hc. rewrite !andb_true_iff, !negb_true_iff in Hc. destruct Hc as [[_ ->] _].
  rewrite IH; [done | done | simpl in Hn; lia].
Qed.
Lemma cString_line s : forallb isPlainChar (String.list_ascii_of_string s) = true ->
  cString (String.append s newline) = String.append s newline.
Proof.
  induction s as [| c s IH]; intros H; [done |]. cbn [String.list_ascii_of_string forallb] in H.
  apply andb_true_iff in H as [Hc H]. rewrite append_cons. cbn [cString].
  unfold isPlainChar in Hc. rewrite !andb_true_iff, !negb_true_iff in Hc. destruct Hc as [_ ->]. by rewrite IH.
Qed.

(** [trim_] takes the blanks of both sides away. *)
Lemma lastNotOf_blanks cs t b : (forall c, c ∈ String.list_ascii_of_string b -> charIn cs c = true) ->
  forall k found, lastNotOf cs k found (String.append t b) = lastNotOf cs k found t.
Proof.
  intros Hb. induction t as [| c t IH]; intros k found; [| rewrite append_cons; cbn [lastNotOf]; apply IH].
  rewrite append_nil. revert k. induction b as [| c b IH]; intros k; [done |]. cbn [lastNotOf]. rewrite (Hb c) by (by left).
  apply IH. intros x Hx. apply Hb. by right.
Qed.
Lemma trim_blanks a t b : t <> "" -> charIn blanks (firstChar t) = false -> endsWith (charIn blanks) t = false ->
  (forall c, c ∈ String.list_ascii_of_string a -> charIn blanks c = true) ->
  (forall c, c ∈ String.list_ascii_of_string b -> charIn blanks c = true) ->
  size (String.append a (String.append t b)) < npos -> trim_ (String.append a (String.append t b)) = Ok t.
Proof.
  intros Hne Hf He Ha Hb Hs. pose proof (size_nonneg a). pose proof (size_nonneg b). pose proof (size_nonneg t).
  rewrite !size_append in Hs. unfold npos in Hs. unfold trim_, find_last_not_of. rewrite <- append_assoc, lastNotOf_blanks by done.
  assert (String.append a t <> "") as Hat by (by destruct a).
  rewrite lastNotOf_end by (done || by rewrite endsWith_append).
  replace (0 + size (String.append a t) - 1 + 1) with (size (String.append a t)) by lia. rewrite u64_id by (rewrite size_append; lia).
  pose proof (substr_middle "" (String.append a t) b) as E. rewrite append_nil in E. change (size "") with 0 in E.
  rewrite E. cbn [mbind outcome_bind]. unfold find_first_not_of.
  replace (searchFrom (fun c => negb (charIn blanks c)) (String.append (String.append a t) b) 0) with (size a); [apply substr_append; unfold npos; lia |].
  rewrite append_assoc. destruct t as [| c t]; [done |]. unfold searchFrom.
  rewrite (proj2 (Z.leb_gt _ _)) by (rewrite !size_append; unfold size in *; cbn in *; lia).
  change (dropText (Z.to_nat 0) ?x) with x. rewrite firstFrom_skip by (intros x Hx; by rewrite Ha).
  rewrite append_cons. cbn [firstFrom firstChar] in *. rewrite Hf. cbn [negb]. lia.
Qed.

(** The digits of a number are read as the number. *)
Lemma digit_char d : (d < 10)%N -> isDigit (pretty_N_char d) = true /\ Z.of_nat (nat_of_ascii (pretty_N_char d) - 48) = Z.of_N d.
Proof.
  intros Hd. assert (d = 0 \/ d = 1 \/ d = 2 \/ d = 3 \/ d = 4 \/ d = 5 \/ d = 6 \/ d = 7 \/ d = 8 \/ d = 9)%N as H by lia.
  by repeat destruct H as [-> | H]; [.. | subst].
Qed.
Lemma leading_go n : forall s v c, exists k j, leadingDigits v c (pretty_N_go n s) = leadingDigits (v * 10 ^ k + Z.of_N n) (c + j) s /\
  0 <= k /\ ((0 < n)%N -> (0 < j)%nat).
Proof.
  induction n as [n IH] using (well_founded_induction N.lt_wf_0). intros s v c. destruct (decide (n = 0)%N) as [-> | Hn].
  { exists 0, 0%nat. rewrite pretty_N_go_0. split_and!; [f_equal; lia | done | done]. }
  rewrite pretty_N_go_step by lia. assert (n / 10 < n)%N as Hlt by (apply N.div_lt; lia).
  destruct (IH _ Hlt (String (pretty_N_char (n mod 10)) s) v c) as (k & j & E & Hk & _). exists (k + 1), (j + 1)%nat.
  rewrite E. cbn [leadingDigits]. destruct (digit_char (n mod 10)) as [-> ->]; [by apply N.mod_lt |].
  split_and!; [| lia | lia]. rewrite Z.pow_add_r by lia. f_equal; [| lia].
  pose proof (N.div_mod n 10 ltac:(done)). rewrite Z.pow_1_r. nia.
Qed.
Lemma leading_pretty n : 0 <= n -> exists j, leadingDigits 0 0 (pretty n) = (n, S j, "").
Proof.
  intros Hn. destruct n as [| p | p]; [by exists 0%nat | | lia].
  destruct (leading_go (N.pos p) "" 0 0%nat) as (k & j & E & _ & Hj).
  destruct j as [| j]; [specialize (Hj eq_refl); lia |]. exists j. exact E.
Qed.

Lemma pretty_digit n : 0 <= n -> isDigit (firstChar (pretty n)) = true.
Proof.
  intros Hn. destruct (leading_pretty n Hn) as [j E]. destruct (pretty n) as [| c s]; [done |]. cbn [leadingDigits firstChar] in *.
  by destruct (isDigit c).
Qed.
Lemma digit_first s : isDigit (firstChar s) = true -> skipWhile isSpace s = s /\ skipSign s = s /\ minusFirst s = false.
Proof.
  destruct s as [| c s]; [done |]. cbn [firstChar]. intros Hd. apply bool_decide_eq_true in Hd.
  assert (forall x, (nat_of_ascii x < 48)%nat -> Ascii.eqb c x = false) as Hx.
  { intros x Hx. apply Ascii.eqb_neq. intros ->. lia. }
  assert (isSpace c = false) as Hs by (apply bool_decide_eq_false; lia).
  assert (Ascii.eqb c "+" = false /\ Ascii.eqb c "-" = false) as [H1 H2] by (split; apply Hx, Nat.ltb_lt; reflexivity).
  cbn [skipWhile skipSign]. rewrite Hs. unfold minusFirst, startsWith. cbn [charIn firstChar]. by rewrite H1, H2.
Qed.
Lemma int_pretty n : 0 <= n < 2 ^ 31 -> from_string_int (pretty n) = Ok n.
Proof.
  intros Hn. destruct (leading_pretty n ltac:(lia)) as [j E]. destruct (digit_first _ (pretty_digit n ltac:(lia))) as (H1 & H2 & H3).
  unfold from_string_int, readInt. rewrite H1, H2, H3, E. cbn [skipWhile word]. rewrite bool_decide_false by done.
  by rewrite !(proj2 (Z.ltb_ge _ _)) by lia.
Qed.
Lemma unsigned_pretty w n : 0 <= n < 2 ^ w -> from_string_unsigned w (pretty n) = Ok n.
Proof.
  intros Hn. destruct (leading_pretty n ltac:(lia)) as [j E]. destruct (digit_first _ (pretty_digit n ltac:(lia))) as (H1 & H2 & H3).
  unfold from_string_unsigned. rewrite H1, H2, H3, E. rewrite bool_decide_false by done.
  by rewrite !(proj2 (Z.ltb_ge _ _)) by lia.
Qed.

(** ** The members are read back *)

Definition sameMember (t : target) (e e' : parameters) : Prop :=
  match t with
  | Text x => texts e x = texts e' x
  | Flag x => flags e x = flags e' x
  | Threshold x => thresholds e x = thresholds e' x
  | Count x => counts e x = counts e' x
  | LeakLimit => cvcLeakLimit e = cvcLeakLimit e'
  end.
Definition countRange (x : countMember) : Z :=
  match x with
  | cvcCircuitErrorLimit => 2 ^ 32 | cvcSearchLimit => 2 ^ 31
  | cvcParallelCircuitPortLimit => MAX_PARALLEL_CIRCUIT_PORT_LIMIT + 1 | cvcLargeCircuitSize => 2 ^ 64
  end.
(** A member whose printed value is read as the same value. *)
Definition readable (t : target) (e : parameters) : Prop :=
  match t with
  | Text x => True
  | Flag x => True
  | Threshold x => (v ← String_to_Voltage (printVolts (thresholds e x)); fits (- 2 ^ 15) (2 ^ 15 - 1) v) = Ok (thresholds e x)
  | Count x => 0 <= counts e x < countRange x
  | LeakLimit => from_string_float (formatG (cvcLeakLimit e)) = Ok (cvcLeakLimit e)
  end.
Definition isReportPart (t : target) : bool := match t with Text (cvcReportDirectory | cvcReportName | cvcLockFile) => true | _ => false end.

Lemma readCount_pretty x n : 0 <= n < countRange x -> readCount x (pretty n) = Ok n.
Proof.
  intros Hn. destruct x; cbn [readCount countRange] in *; unfold MAX_PARALLEL_CIRCUIT_PORT_LIMIT in *.
  - by apply unsigned_pretty.
  - rewrite int_pretty by done. cbn [mbind outcome_bind]. by rewrite u64_id by lia.
  - rewrite int_pretty by lia. cbn [mbind outcome_bind]. rewrite u64_id by lia. by rewrite (proj2 (Z.ltb_ge _ _)) by lia.
  - by apply unsigned_pretty.
Qed.

Lemma take_drop_text n s : String.append (takeText n s) (dropText n s) = s.
Proof. revert n. induction s as [| c s IH]; intros [| n]; try done. cbn [takeText dropText]. by rewrite append_cons, IH. Qed.
Lemma takeText_all n s : (String.length s <= n)%nat -> takeText n s = s.
Proof. revert n. induction s as [| c s IH]; intros [| n] H; simpl in H; try done; try lia. cbn [takeText]. rewrite IH; [done | lia]. Qed.
Lemma substr_split s i : 0 <= i <= size s -> size s < npos ->
  exists a b, substr s 0 i = Ok a /\ substr s i npos = Ok b /\ String.append a b = s.
Proof.
  intros Hi Hs. exists (takeText (Z.to_nat i) s), (dropText (Z.to_nat i) s). split_and!; [| | apply take_drop_text]; unfold substr.
  - rewrite (proj2 (Z.ltb_ge _ _)) by lia. change (dropText (Z.to_nat 0) s) with s. do 3 f_equal. lia.
  - rewrite (proj2 (Z.ltb_ge _ _)) by lia. f_equal. apply takeText_all.
    pose proof (dropText_size (Z.to_nat i) s) as H. unfold size in *. lia.
Qed.
Lemma lastSlash_range s : forall k found, lastSlash k found s = found \/ k <= lastSlash k found s < k + size s.
Proof.
  induction s as [| c s IH]; intros k found; [by left |]. cbn [lastSlash].
  assert (size (String c s) = size s + 1) as E by (unfold size; cbn [String.length]; lia). rewrite E. pose proof (size_nonneg s).
  destruct (isSlash c); [destruct (IH (k + 1) k) | destruct (IH (k + 1) found)]; auto; right; lia.
Qed.
Lemma splitReport_text s e : size s < npos -> exists e', splitReport s e = Ok e' /\
  String.append (texts e' cvcReportDirectory) (texts e' cvcReportName) = s /\
  forall t, isReportPart t = false -> sameMember t e e'.
Proof.
  intros Hs. assert (forall a b, forall t, isReportPart t = false -> sameMember t e (set_text cvcReportName b (set_text cvcReportDirectory a e))) as Ht.
  { intros a b [x | | | |] Hx; try done. destruct x; by try discriminate Hx. }
  unfold splitReport. destruct (_ <? size s).
  - assert (0 <= u64 (lastSlash 0 npos s + 1) <= size s) as Hr.
    { pose proof (size_nonneg s). destruct (lastSlash_range s 0 npos) as [-> | Hl]; [done |].
      rewrite u64_id; unfold npos in *; lia. }
    destruct (substr_split s _ Hr Hs) as (a & b & -> & -> & E). cbn [mbind outcome_bind]. eexists. split; [done |]. split; [exact E | apply Ht].
  - eexists. split; [done |]. split; [done | apply Ht].
Qed.

Lemma update_eq {A B} `{EqDecision A} (f : A -> B) x v : update f x v x = v.
Proof. unfold update. by rewrite decide_True. Qed.
Lemma update_ne {A B} `{EqDecision A} (f : A -> B) x v y : y <> x -> update f x v y = f y.
Proof. intros H. unfold update. by rewrite decide_False. Qed.
(** The setters change one member. *)
Lemma same_trans u e e' e'' : sameMember u e e' -> sameMember u e' e'' -> sameMember u e e''.
Proof. destruct u; cbn; congruence. Qed.
Lemma other_text x v u e : u <> Text x -> sameMember u e (set_text x v e).
Proof. intros Hu. destruct u; cbn; [rewrite update_ne by congruence |..]; done. Qed.
Lemma other_flag x v u e : u <> Flag x -> sameMember u e (set_flag x v e).
Proof. intros Hu. destruct u; cbn; [| rewrite update_ne by congruence |..]; done. Qed.
Lemma other_threshold x v u e : u <> Threshold x -> sameMember u e (set_threshold x v e).
Proof. intros Hu. destruct u; cbn; [| | rewrite update_ne by congruence |..]; done. Qed.
Lemma other_count x v u e : u <> Count x -> sameMember u e (set_count x v e).
Proof. intros Hu. destruct u; cbn; [| | | rewrite update_ne by congruence |..]; done. Qed.
Lemma other_limit v u e : u <> LeakLimit -> sameMember u e (set_cvcLeakLimit v e).
Proof. intros Hu. by destruct u. Qed.

Lemma assign_back t e e0 : isReportPart t = false -> readable t e -> size (printValue t e) < npos -> exists e1,
  assign t (printValue t e) e0 = Ok e1 /\ sameMember t e e1 /\ (forall u, u <> t -> isReportPart u = false -> sameMember u e0 e1) /\
  (if decide (t = Text cvcReportFilename) then String.append (texts e1 cvcReportDirectory) (texts e1 cvcReportName) = texts e cvcReportFilename
   else texts e1 cvcReportDirectory = texts e0 cvcReportDirectory /\ texts e1 cvcReportName = texts e0 cvcReportName).
Proof.
  intros Hp Hr Hs. destruct (decide (t = Text cvcReportFilename)) as [-> | Hne].
  { destruct (splitReport_text (texts e cvcReportFilename) (set_text cvcReportFilename (texts e cvcReportFilename) e0) Hs) as (e1 & E & Ea & Ht).
    exists e1. cbn [assign printValue]. split; [done |]. split; [exact (Ht (Text cvcReportFilename) eq_refl) |]. split; [| done].
    intros u Hu Hup. eapply same_trans; [by apply other_text | by apply Ht]. }
  assert (forall x v, Text x <> Text cvcReportFilename -> assign (Text x) v e0 = Ok (set_text x v e0)) as Ha by (intros []; naive_solver).
  destruct t as [x | x | x | x |]; cbn [printValue readable isReportPart] in *.
  - rewrite Ha by done. eexists. split; [done |]. split_and!; [cbn; by rewrite update_eq | intros; by apply other_text |..];
      cbn; rewrite update_ne; try done; intros <-; done.
  - cbn [assign]. eexists. split; [done |]. split_and!; [| intros; by apply other_flag | done..]. cbn. rewrite update_eq. by destruct (flags e x).
  - cbn [assign]. destruct (String_to_Voltage _) as [v |]; [| done]. cbn [mbind outcome_bind] in *. rewrite Hr. cbn [mbind outcome_bind].
    eexists. split; [done |]. split_and!; [cbn; by rewrite update_eq | intros; by apply other_threshold | done..].
  - cbn [assign]. assert (readCount x (pretty (counts e x)) = Ok (counts e x)) as ->.
    { by apply readCount_pretty. }
    eexists. split; [done |]. split_and!; [cbn; by rewrite update_eq | intros; by apply other_count | done..].
  - cbn [assign]. rewrite Hr. eexists. split; [done |]. split_and!; [done | intros; by apply other_limit | done..].
Qed.

Section Printed.
Context (shell : list (text * text) -> text -> text).
Hypothesis shell_echo : forall vars s, quotable s = true -> shell vars (String.append "echo " (quote s)) = String.append s newline.

Lemma echo_quote s st : quotable s = true -> echo shell (quote s) st = Ok s.
Proof.
  intros Hq. pose proof Hq as H. unfold quotable in H. rewrite !andb_true_iff in H. destruct H as [[H _] Hs%Z.ltb_lt].
  unfold echo. rewrite shell_echo by done. rewrite fgets_line by (done || unfold size in Hs; lia).
  assert (String.append s newline <> "") as Hne by (by destruct s).
  rewrite bool_decide_false by done. rewrite cString_line by done. cbn [mbind outcome_bind].
  rewrite bool_decide_false by done. rewrite append_length. cbn [String.length newline].
  replace (String.length s + 1 - 1)%nat with (String.length s) by lia. by rewrite takeText_append.
Qed.

Definition isNameChar (c : ascii) : bool := negb (charIn blanks c) && negb (Ascii.eqb c "=").
Definition isName (name : text) : bool :=
  negb (bool_decide (name = "")) && forallb isNameChar (String.list_ascii_of_string name) && negb (Ascii.eqb (firstChar name) "#")
  && (size name <? 1000).

Lemma loadLine_assignment name s st : isName name = true -> quotable s = true ->
  loadLine shell (assignment name s) st =
  (e ← match targetOf name printed with Some t => assign t s (loaded st) | None => Ok (loaded st) end;
   Ok (mkLoadState e ((name, s) :: environ st) (Some s))).
Proof.
  intros Hn Hq. pose proof Hn as H. unfold isName in H. rewrite !andb_true_iff, !negb_true_iff, bool_decide_eq_false in H.
  destruct H as [[[Hne Hc] Hh] Hl%Z.ltb_lt]. pose proof Hq as H. unfold quotable in H. rewrite !andb_true_iff in H.
  destruct H as [_ Hs%Z.ltb_lt]. rewrite forallb_forall in Hc.
  assert (forall c, c ∈ String.list_ascii_of_string name -> charIn blanks c = false /\ Ascii.eqb c "=" = false) as Hnc.
  { intros c Hx%list_elem_of_In. specialize (Hc c Hx). unfold isNameChar in Hc. by rewrite andb_true_iff, !negb_true_iff in Hc. }
  assert (charIn blanks (firstChar name) = false) as Hb by (destruct name; [done |]; apply Hnc; by left).
  assert (size (quote s) < 2000) as Hqs by (unfold quote; rewrite !size_append; change (size "'") with 1; lia).
  assert (assignment name s = String.append name (String.append " " (String.append "= " (quote s)))) as El by done.
  assert (assignment name s = String.append (String.append name " =") (String.append " " (quote s))) as El' by (by rewrite append_assoc).
  assert (size (assignment name s) = size name + 3 + size (quote s)) as Hsl.
  { rewrite El, !size_append. change (size " ") with 1. change (size "= ") with 2. lia. }
  assert (size (String.append name " ") = size name + 1) as Hsn by (rewrite size_append; change (size " ") with 1; lia).
  pose proof (size_nonneg name). pose proof (size_nonneg (quote s)).
  unfold loadLine. replace (firstChar (assignment name s)) with (firstChar name) by (rewrite El; by destruct name).
  rewrite Hh. replace (find_first_not_of (assignment name s) blanks 0) with 0.
  2: { rewrite El. destruct name as [| c name]; [done |]. unfold find_first_not_of, searchFrom.
       rewrite <- El, (proj2 (Z.leb_gt _ _)) by lia. rewrite El. change (dropText (Z.to_nat 0) ?x) with x.
       rewrite append_cons. cbn [firstFrom firstChar] in *. by rewrite Hb. }
  rewrite (proj2 (Z.ltb_ge _ _)) by lia.
  replace (find_first_of (assignment name s) "=" 0) with (size (String.append name " ")).
  2: { rewrite El. unfold find_first_of, searchFrom. rewrite <- El, (proj2 (Z.leb_gt _ _)) by lia. rewrite El.
       change (dropText (Z.to_nat 0) ?x) with x. rewrite <- append_assoc, firstFrom_skip; [cbn [firstFrom String.append]; done |].
       intros c. rewrite chars_append, elem_of_app. intros [Hx%Hnc | Hx]; [cbn; by destruct Hx as [_ ->] |]. apply list_elem_of_singleton in Hx as ->. done. }
  rewrite (proj2 (Z.ltb_ge _ _)) by lia.
  pose proof (substr_middle "" (String.append name " ") (String.append "= " (quote s))) as E1.
  rewrite append_nil, append_assoc, <- El in E1. change (size "") with 0 in E1. rewrite E1. cbn [mbind outcome_bind].
  pose proof (trim_blanks "" name " ") as T1. rewrite append_nil in T1.
  rewrite T1; [| done | done | | by intros ? Hx; inversion Hx | by intros c Hx; apply list_elem_of_singleton in Hx as -> | unfold npos; lia].
  2: { apply endsWith_unbroken; [done |]. intros c Hx. by apply Hnc. }
  cbn [mbind outcome_bind]. pose proof (substr_append (String.append name " =") (String.append " " (quote s)) npos) as E2.
  rewrite <- El' in E2. replace (size (String.append name " =")) with (size (String.append name " ") + 1) in E2 by (rewrite !size_append; change (size " =") with 2; change (size " ") with 1; lia).
  rewrite E2 by (rewrite size_append; change (size " ") with 1; unfold npos; lia). cbn [mbind outcome_bind].
  pose proof (trim_blanks " " (quote s) "") as T2. rewrite append_empty in T2.
  rewrite T2; [| done | done | | by intros c Hx; apply list_elem_of_singleton in Hx as -> | by intros ? Hx; inversion Hx | rewrite size_append; change (size " ") with 1; unfold npos; lia].
  2: { unfold quote. rewrite <- append_assoc. by rewrite endsWith_append. }
  cbn [mbind outcome_bind]. by rewrite echo_quote.
Qed.

Lemma nameReport_same u e e' :
  String.append (texts e' cvcReportDirectory) (texts e' cvcReportName) = texts e cvcReportFilename ->
  isReportPart u = false -> sameMember u e e' -> sameMember u e (nameReport "" e').
Proof. intros Hr Hp H. destruct u as [x | | | |]; try exact H. destruct x; try exact H; try discriminate Hp. symmetry. exact Hr. Qed.
Lemma printed_parts : Forall (fun '(name, t) => isName name = true /\ targetOf name printed = Some t /\ isReportPart t = false) printed.
Proof. repeat constructor. Qed.
Lemma printed_NoDup : NoDup printed.*2.
Proof. apply (bool_decide_eq_true_1 (NoDup _)). vm_compute. reflexivity. Qed.

(** What the lines of [l] do to the members. *)
Record loadedFrom (e : parameters) (l : list (text * target)) (st st' : loadState) : Prop := {
  lf_read t : t ∈ l.*2 -> sameMember t e (loaded st');
  lf_kept u : u ∉ l.*2 -> isReportPart u = false -> sameMember u (loaded st) (loaded st');
  lf_report : if decide (Text cvcReportFilename ∈ l.*2)
              then String.append (texts (loaded st') cvcReportDirectory) (texts (loaded st') cvcReportName) = texts e cvcReportFilename
              else texts (loaded st') cvcReportDirectory = texts (loaded st) cvcReportDirectory /\
                   texts (loaded st') cvcReportName = texts (loaded st) cvcReportName;
  lf_environ : environ st' = rev ((fun '(name, t) => (name, printValue t e)) <$> l) ++ environ st
}.

Lemma load_settings e l : forall st,
  Forall (fun '(name, t) => isName name = true /\ targetOf name printed = Some t /\ isReportPart t = false) l ->
  Forall (fun '(name, t) => quotable (printValue t e) = true /\ readable t e) l -> NoDup l.*2 ->
  exists st', loadLines shell ((fun '(name, t) => assignment name (printValue t e)) <$> l) st = Ok st' /\ loadedFrom e l st st'.
Proof.
  induction l as [| [name t] l IH]; intros st Hl Hv Hn.
  { exists st. split; [done |]. constructor; [by intros t ?%not_elem_of_nil | by intros []; cbn | | done].
    rewrite decide_False; [done | apply not_elem_of_nil]. }
  apply Forall_cons in Hl as [(H1 & H2 & H3) Hl]. apply Forall_cons in Hv as [(V1 & V2) Hv]. apply NoDup_cons in Hn as [Hnt Hn].
  assert (size (printValue t e) < npos) as Hs.
  { unfold quotable in V1. rewrite !andb_true_iff in V1. destruct V1 as [_ V1%Z.ltb_lt]. unfold npos. lia. }
  destruct (assign_back t e (loaded st) H3 V2 Hs) as (e1 & E1 & A1 & A2 & A3).
  rewrite !fmap_cons. cbn [loadLines]. rewrite loadLine_assignment by done. rewrite H2, E1. cbn [mbind outcome_bind].
  destruct (IH (mkLoadState e1 ((name, printValue t e) :: environ st) (Some (printValue t e))) Hl Hv Hn) as (st' & -> & L).
  exists st'. split; [done |]. destruct L as [L1 L2 L3 L4]. cbn [loaded environ] in *. constructor; rewrite ?fmap_cons; cbn [snd].
  - intros u [-> | Hu]%elem_of_cons; [| by apply L1]. eapply same_trans; [exact A1 | by apply L2].
  - intros u [Hu1 Hu2]%not_elem_of_cons Hp. eapply same_trans; [by apply A2 | by apply L2].
  - destruct (decide (Text cvcReportFilename ∈ l.*2)) as [Hi | Hi].
    { rewrite decide_True by (by right). exact L3. }
    destruct L3 as [-> ->]. destruct (decide (t = Text cvcReportFilename)) as [-> | Hne].
    + rewrite decide_True by (by left). exact A3.
    + rewrite decide_False; [done | by intros [? | ?]%elem_of_cons].
  - rewrite L4. cbn [rev]. by rewrite <- app_assoc.
Qed.

End Printed.

(** A shell that knows nothing but [echo] of a quoted text. *)
Definition exampleShell (vars : list (text * text)) (command : text) : text :=
  String.append (takeText (String.length command - 7) (dropText 6 command)) newline.
Lemma exampleShell_echo vars s : quotable s = true -> exampleShell vars (String.append "echo " (quote s)) = String.append s newline.
Proof.
  intros _. unfold exampleShell. change (String.append "echo " (quote s)) with (String.append "echo '" (String.append s "'")).
  rewrite (dropText_append "echo '"), !append_length. cbn [String.length].
  replace (6 + (String.length s + 1) - 7)%nat with (String.length s) by lia. by rewrite takeText_append.
Qed.

(** Settings of a mode that were changed, and others that are overwritten. *)
Definition anyParameters : parameters := mkParameters (fun _ => "old") (fun _ => true) (fun _ => 1) (fun _ => 1) (S754_zero false).
Definition exampleParameters : parameters :=
  set_text cvcReportFilename "log/top.log" (set_text cvcTopBlock "TOP" (set_flag cvcSOI true
    (set_threshold cvcLeakErrorThreshold (-125) (set_count cvcCircuitErrorLimit 25 (ResetEnvironment anyParameters))))).


(** ** Examples *)

(** What is not assigned is kept from the mode before: the report of that mode is named again. *)
Example report_kept :
  match LoadEnvironment exampleShell "b.cvcrc" (Some ["CVC_TOP = 'B'"]) "" []
      (ResetEnvironment (set_text cvcReportDirectory "log/" (set_text cvcReportName "a.log" anyParameters))) with
  | Ok (e, _) => (texts e cvcReportFilename, texts e cvcMode, counts e cvcSearchLimit) = ("log/a.log", "old", 1)
  | Err _ => False
  end.
Proof. vm_compute. reflexivity. Qed.
(** An assignment without a value ends in the exception of [trim_]. *)
Example empty_value : LoadEnvironment exampleShell "b.cvcrc" (Some ["CVC_FUSE_FILE ="]) "" [] anyParameters = Err EOutOfRange.
Proof. vm_compute. reflexivity. Qed.
(** What [PrintEnvironment] writes is not a resource file. *)
Example heading_is_no_setting :
  LoadEnvironment exampleShell "b.cvcrc" (Some (PrintEnvironment exampleParameters)) "" [] anyParameters = Err EBadEnvironment.
Proof. vm_compute. reflexivity. Qed.
End Environment.
