(* ===== verification/Driver.v ===== *)
(** * One mode, from the netlist to the checks (CCvcDb_main.cc, CCvcDb_init.cc)

    [VerifyCircuitForAllModes] runs the passes of the other files one after the other
    for every resource file on its command line.  This file has the reset between the
    modes and the stages 2 to 7 of the loop body as one computation on the database,
    for a netlist that is flattened and powers that [SetModePower] has given to the
    nets.  Left out are the progress reports and the commands between the stages. *)

From S2P Require Import Prelude CvcTypes EventQueue VirtualNet Power Text Db Model PowerText PowerFile ModePower.
From S2P Require Import Short Equivalent Netlist Links Fuses NonConducting Resistor MinMax SimPower Analog Latch.
From S2P Require Import Overvoltage InverterCheck GateSource Bias Diode Leak Expected Inverter.
From stdpp Require Import base list strings gmap.
From Stdlib Require Import ZArith Lia.
#[local] Open Scope Z_scope.

Module Driver.
Import EventQueue.EventQueue VirtualNet.VirtualNet Power.Power Db.Db PowerText.PowerText.
Import PowerFile.PowerFile (returnCode_t, OK, SKIP, CInstancePower).
Import Model.Model (voltageState).
Import Short.Short Equivalent.Equivalent Netlist.Netlist Links.Links Fuses.Fuses NonConducting.NonConducting Resistor.Resistor.
Import MinMax.MinMax SimPower.SimPower Latch.Latch Overvoltage.Overvoltage InverterCheck.InverterCheck GateSource.GateSource.
Import Bias.Bias Diode.Diode Leak.Leak Expected.Expected Inverter.Inverter.

Definition ERROR_TYPE_COUNT : Z := 19.

(** ** [ResetMinSimMaxAndQueues] *)

(** [ResetVector] and [ClearUpdateArray]: new nets, and no update array. *)
Definition resetNets (q : eventQueue_t) : DB unit :=
  n ← nl netCount;
  modify (fun d => set_netsOf q (ClearUpdateArray (resize (VirtualNet.VirtualNet.set_nets [] (netsOf q d)) n)) d).

Definition selfNet (net_it : Z) : DB unit :=
  _ ← setNetM MIN_QUEUE net_it net_it 0 0;
  _ ← setNetM SIM_QUEUE net_it net_it 0 0;
  setNetM MAX_QUEUE net_it net_it 0 0.

Definition ResetMinSimMaxAndQueues : DB unit :=
  _ ← modify (fun d => set_netlist (set_isFixedEquivalentNet false (netlist d)) d);
  _ ← resetNets MAX_QUEUE;
  _ ← resetNets MIN_QUEUE;
  _ ← resetNets SIM_QUEUE;
  _ ← forNets selfNet;
  n ← nl deviceCount;
  _ ← modify (set_deviceStatus_v (replicate (Z.to_nat n) 0));
  _ ← resetSide MIN_QUEUE;
  _ ← resetSide MAX_QUEUE;
  _ ← modify (fun d => set_isFixedMaxNet false (set_isFixedMinNet false d));
  _ ← modify (set_isFixedSimNet false);
  _ ← modify (set_leakVoltageSet false);
  modify (set_errorCount (replicate (Z.to_nat ERROR_TYPE_COUNT) 0)).

(** ** The stages *)

(** A function on the powers of the list, applied to the powers it points to. *)
Fixpoint storePowers (l : list Z) (ps : list CPower) : DB unit :=
  match l, ps with
  | a :: l, p :: ps => _ ← updateM (Some a) (fun _ => p); storePowers l ps
  | _, _ => mret tt
  end.
Fixpoint readPowers (l : list Z) : DB (list CPower) :=
  match l with
  | [] => mret []
  | a :: l => p ← derefM a; ps ← readPowers l; mret (p :: ps)
  end.
Definition onPowers (f : list CPower -> outcome (list CPower)) : DB unit :=
  l ← gets cvcPowerPtrList;
  ps ← readPowers l;
  ps ← lift (f ps);
  storePowers l ps.

Definition setExpectedLevels (l : list Z) : DB unit :=
  modify (fun d =>
    let x := cvcParameters d in let k := cvcChecks x in
    set_cvcParameters (mkParameters (cvcCircuitErrorLimit x) (cvcLeakLimit x) (cvcSOI x) (cvcMosDiodeErrorThreshold x)
      (cvcShortErrorThreshold x) (cvcFloatingErrorThreshold x) (cvcCellErrorLimitFile x)
      (mkCheckParameters (cvcVthGates k) (cvcMinVthGates k) (cvcIgnoreVthFloating k) (cvcIgnoreNoLeakFloating k)
        (cvcLeakOvervoltage k) (cvcLogicDiodes k) (cvcAnalogGates k) (cvcBiasErrorThreshold k) (cvcForwardErrorThreshold k)
        (cvcGateErrorThreshold k) (cvcLeakErrorThreshold k) (cvcExpectedErrorThreshold k) (cvcOvervoltageErrorThreshold k)
        (cvcModelListMap k) l)) d).

(** What the files and the command line give for a mode, besides the database. *)
Record mode_t : Type := mkMode {
  gSetup_cvc : bool;
  detectErrorFlag : bool;
  cvcSCRC : bool;
  cvcFuseFile : option (option (list String.string));
  cvcInstancePowerPtrList : list CInstancePower;
  cvcPowerFamilyMap : CPowerFamilyMap;
  cvcPowerMacroPtrMap : gmap String.string CPower;
  inverterChecks : list (list Z);
  oppositeChecks : list (list Z * list Z)
}.

(** Where a mode ends. *)
Inductive stage_t : Set := PowerProblem | SetupComplete | Complete.

Section Stages.
Context (validRegex : String.string -> bool) (regex_match : String.string -> String.string -> bool)
  (cdlText : gset String.string) (orderOf : CDependencyMap -> list Z) (firstRelative : CSet -> option String.string)
  (fuel : nat) (m : mode_t) (v : voltageState).

Definition isOK (rc : returnCode_t) : bool := match rc with OK => true | _ => false end.

(** Stage 2: false when the power files have a problem. *)
Definition setPowers : DB bool :=
  l ← param (fun x => cvcExpectedLevelPtrList (cvcChecks x));
  '(rc, l, v) ← ModePower.ModePower.SetInstancePower validRegex regex_match cdlText fuel (cvcPowerMacroPtrMap m)
                  (cvcInstancePowerPtrList m) l v;
  _ ← setExpectedLevels l;
  if negb (isOK rc) then mret false
  else
    '(rc, l) ← ModePower.ModePower.SetExpectedPower validRegex regex_match cdlText l;
    _ ← setExpectedLevels l;
    if negb (isOK rc) then mret false
    else
      _ ← onPowers (SetFamilies (cvcPowerFamilyMap m));
      _ ← onPowers (fun ps => '(ps, _) ← PowerFile.PowerFile.SetHiZPropagation fuel firstRelative
                                  (fun k => cvcPowerMacroPtrMap m !! k) ps v; Ok ps);
      mret true.

Definition createDatabase : DB bool :=
  _ ← ResetMinSimMaxAndQueues;
  _ ← SetEquivalentNets;
  b ← setPowers;
  if negb b then mret false
  else
    _ ← LinkDevices;
    _ ← OverrideFuses (cvcFuseFile m);
    mret true.

(** Stage 3. *)
Definition resistorStage : DB unit := _ ← ShortNonConductingResistors; SetResistorVoltagesByPower.

(** Stage 4. *)
Definition unlessSOI (check : DB unit) : DB unit := soi ← param cvcSOI; when (negb soi) check.
Definition firstMinMaxStage : DB unit :=
  _ ← ResetMinMaxPower orderOf fuel;
  _ ← SetAnalogNets;
  logic ← checks cvcLogicDiodes;
  when (detectErrorFlag m)
    (_ ← when (negb logic) FindForwardBiasDiodes;
     _ ← unlessSOI (_ ← FindNmosSourceVsBulkErrors (gSetup_cvc m); mret tt);
     _ ← when (negb (gSetup_cvc m)) (FindNmosGateVsSourceErrors (inverterChecks m) (oppositeChecks m));
     _ ← unlessSOI (_ ← FindPmosSourceVsBulkErrors (gSetup_cvc m); mret tt);
     when (negb (gSetup_cvc m)) (FindPmosGateVsSourceErrors (inverterChecks m) (oppositeChecks m))).

(** Stage 5. *)
Definition firstSimStage : DB unit :=
  _ ← SaveMinMaxLeakVoltages;
  _ ← SetSimPower fuel POWER_NETS_ONLY ∅;
  _ ← PrintAndResetCircuitErrors 0 [];
  _ ← unlessSOI CheckConnections;
  SaveInitialVoltages.

(** Stage 6; [fuel] also bounds the number of latch passes. *)
Fixpoint latchPasses (n : nat) (myPassCount : Z) (myIgnoreNet_v : list bool) : DB unit :=
  match n with
  | O => raise OutOfFuel
  | S n =>
      '(more, myIgnoreNet_v, myNewNetSet) ← SetLatchPower (myPassCount + 1) myIgnoreNet_v;
      if (more : bool) then
        _ ← SetSimPower fuel ALL_NETS_AND_FUSE myNewNetSet;
        latchPasses n (myPassCount + 1) myIgnoreNet_v
      else mret tt
  end.
Definition secondSimStage : DB unit :=
  _ ← when (cvcSCRC m) SetSCRCPower;
  _ ← SetSimPower fuel ALL_NETS_AND_FUSE ∅;
  n ← gets (fun d => length (nets (simNet_v d)));
  _ ← latchPasses fuel 0 (replicate n false);
  _ ← PrintAndResetCircuitErrors 0 [];
  when (detectErrorFlag m) FindLDDErrors.

(** Stage 7. *)
Definition secondMinMaxStage : DB unit :=
  _ ← ResetMinMaxPower orderOf fuel;
  _ ← SetInverters;
  logic ← checks cvcLogicDiodes;
  when (detectErrorFlag m)
    (_ ← when logic FindForwardBiasDiodes;
     _ ← FindAllOverVoltageErrors;
     _ ← FindNmosPossibleLeakErrors;
     _ ← FindPmosPossibleLeakErrors;
     _ ← FindFloatingInputErrors;
     CheckExpectedValues).

Definition VerifyMode : DB stage_t :=
  b ← createDatabase;
  if negb b then mret PowerProblem
  else
    _ ← resistorStage;
    _ ← firstMinMaxStage;
    if gSetup_cvc m then mret SetupComplete
    else
      _ ← firstSimStage;
      _ ← secondSimStage;
      _ ← secondMinMaxStage;
      mret Complete.
End Stages.
End Driver.
