(* ===== verification/Quiet.v ===== *)
(** * Passes that queue nothing

    A predicate in the class [Quiet] does not look at anything but the queues, the
    pending bits and the links of the virtual nets.  Every pass of the driver that
    leaves these alone, or changes links by [Set] only, keeps all such predicates. *)

From S2P Require Import Prelude CvcTypes EventQueue VirtualNet Power Db Model PowerText PowerFile ModePower.
From S2P Require Import Connection Short Enqueue Propagate Simulate Resistor Logic Pending Forest.
From S2P Require Import Equivalent Netlist Links Names Fuses NonConducting MinMax SimPower Analog Latch.
From S2P Require Import Overvoltage InverterCheck GateSource Bias Diode Leak Expected Inverter Driver.
From stdpp Require Import base list strings gmap.
From Stdlib Require Import ZArith Lia.
#[local] Open Scope Z_scope.

Module Quiet.
Import EventQueue.EventQueue VirtualNet.VirtualNet Power.Power Db.Db Connection.Connection Short.Short Enqueue.Enqueue.
Import Propagate.Propagate Simulate.Simulate Resistor.Resistor Logic.Logic Pending.Pending.
Import Equivalent.Equivalent Netlist.Netlist Links.Links Fuses.Fuses NonConducting.NonConducting.
Import MinMax.MinMax SimPower.SimPower Latch.Latch Overvoltage.Overvoltage InverterCheck.InverterCheck GateSource.GateSource.
Import Bias.Bias Diode.Diode Leak.Leak Expected.Expected Inverter.Inverter Driver.Driver.

(** Changes of the netlist that leave the numbers of devices and nets alone. *)
Definition sameSize (v w : CNetlist) : Prop := deviceCount v = deviceCount w /\ netCount v = netCount w.

Class Quiet (P : CCvcDb -> Prop) : Prop := {
  quiet_stable :: Stable P;
  quiet_netlist v d : sameSize v (netlist d) -> P d -> P (set_netlist v d);
  quiet_parameters v d : P d -> P (set_cvcParameters v d);
  quiet_highLow v d : P d -> P (set_highLow_v v d);
  quiet_initialPtr v d : P d -> P (set_initialVoltagePtr_v v d);
  quiet_fixedSim v d : P d -> P (set_isFixedSimNet v d);
  quiet_leakSet v d : P d -> P (set_leakVoltageSet v d);
  quiet_inactive i b v : notPending b -> keeps P (setDeviceBit i b v);
  quiet_ignore i : keeps P (IgnoreDevice i);
  quiet_updates q u d : P d -> P (set_netsOf q (set_lastUpdate_v u (netsOf q d)) d);
  quiet_backup q d : P d -> P (set_netsOf q (BackupVirtualNets (netsOf q d)) d)
}.

Lemma notPending_inactive : notPending MIN_INACTIVE /\ notPending SIM_INACTIVE /\ notPending MAX_INACTIVE.
Proof. split_and!; [apply (inactiveOf_notPending MIN_QUEUE) | apply (inactiveOf_notPending SIM_QUEUE) | apply (inactiveOf_notPending MAX_QUEUE)]. Qed.

(** [keep], unfolding the definition of a computation it knows nothing about. *)
Ltac headOf t := lazymatch t with ?f _ => headOf f | _ => t end.
Ltac unfoldRun := match goal with |- keeps_ _ _ ?m => let h := headOf m in
  lazymatch h with @modify => fail | @lift => fail | @gets => fail | @queueM => fail | @modifyNl => fail | @setDeviceBit => fail | _ => unfold h; cbv beta end end;
  match goal with |- keeps_ _ _ ?m => let h := headOf m in tryif is_fix h then fail else idtac end.
Ltac quiet := repeat (cbv zeta; first
  [ apply keeps_inactive; solve [typeclasses eauto] | keep_loop
  | match goal with |- keeps_ _ _ ((let '(_, _) := ?x in _) _) => destruct x end
  | keep_step | unfoldRun ]).

Lemma calm_push a b n i : calm (push a b n i).
Proof. unfold push. calm. Qed.
Lemma calm_mergeWalk fuel : forall i n v, calm (mergeWalk fuel i n v).
Proof. induction fuel; intros; simpl; calm. Qed.
#[local] Hint Resolve calm_push calm_mergeWalk : calm.
Lemma calm_Merge a b x : calm (MergeConnectionListByTerminals a b x).
Proof. unfold MergeConnectionListByTerminals. calm. Qed.
Lemma calm_countFrom fuel : forall a i n, calm (countFrom fuel a i n).
Proof. induction fuel; intros; simpl; calm. Qed.
#[local] Hint Resolve calm_Merge calm_countFrom : calm.
Lemma calm_Recount n a b : calm (RecountConnections n a b).
Proof. unfold RecountConnections. calm. Qed.
#[local] Hint Resolve calm_Recount : calm.

Lemma calm_searchChain fuel v t : forall n, calm (searchChain fuel v t n).
Proof. induction fuel; intros; simpl; calm. Qed.
#[local] Hint Resolve calm_searchChain : calm.
Lemma calm_collectChain fuel v : forall s n, calm (collectChain fuel v s n).
Proof. induction fuel; intros; simpl; calm. Qed.
#[local] Hint Resolve calm_collectChain : calm.
Lemma calm_PathContains v n m : calm (PathContains v n m).
Proof. unfold PathContains. calm. Qed.
Lemma calm_PathCrosses v n w m : calm (PathCrosses v n w m).
Proof. unfold PathCrosses. calm. Qed.
Lemma calm_SetDiodeConnections p c : calm (SetDiodeConnections p c).
Proof. unfold SetDiodeConnections, pinTerminal. calm. Qed.
#[local] Hint Resolve calm_PathContains calm_PathCrosses calm_SetDiodeConnections : calm.
Lemma calm_logicSets fuel inv : forall b s i n, calm (logicSets fuel inv b s i n).
Proof. induction fuel; intros; simpl; calm. Qed.
Lemma calm_oppositeWalk fuel inv s i : forall b n, calm (oppositeWalk fuel inv s i b n).
Proof. induction fuel; intros; simpl; calm. Qed.
#[local] Hint Resolve calm_logicSets calm_oppositeWalk : calm.
Lemma calm_areOpposite inv a b : calm (areOpposite inv a b).
Proof. unfold areOpposite. calm. Qed.
#[local] Hint Resolve calm_areOpposite : calm.

Lemma calm_SetInverterHighLow fuel inv : forall n k h s, calm (SetInverterHighLow fuel inv n k h s).
Proof. induction fuel; intros; simpl; calm. Qed.
Lemma calm_SetInverterInput fuel : forall n k inv s, calm (SetInverterInput fuel n k inv s).
Proof. induction fuel; intros; simpl; calm. Qed.
#[local] Hint Resolve calm_SetInverterHighLow calm_SetInverterInput : calm.
Lemma calm_highLowStep a b c : calm (highLowStep a b c).
Proof. unfold highLowStep. calm. Qed.
Lemma calm_inputStep a b : calm (inputStep a b).
Proof. unfold inputStep. calm. Qed.
#[local] Hint Resolve calm_highLowStep calm_inputStep : calm.

Ltac quiet_set := cbv zeta; repeat first
  [ assumption | simple apply quiet_netlist; [solve [match goal with d : CCvcDb |- _ => destruct d; split; reflexivity end] |] | simple apply quiet_parameters | simple apply quiet_highLow
  | simple apply quiet_initialPtr | simple apply quiet_fixedSim | simple apply quiet_leakSet | simple apply quiet_updates
  | simple apply quiet_backup | simple apply stable_powers | simple apply stable_netVoltagePtr | simple apply stable_powerList
  | simple apply stable_circuits | simple apply stable_netStatus | simple apply stable_connectionCount
  | simple apply stable_errorCount | simple apply stable_cellErrors | simple apply stable_reports
  | simple apply stable_unknownGates | simple apply stable_minDependencies | simple apply stable_maxDependencies
  | simple apply stable_inverterNet | simple apply stable_leakPtr | simple apply stable_fixed ].

Ltac sameDevices := let E := fresh in
  intros ? ? E; unfold mbind, outcome_bind in E; repeat case_match; simplify_eq; split; reflexivity.

Lemma preserves_lift {A} P (o : outcome A) : preserves P (lift o).
Proof. intros d Hd. unfold lift. by destruct o. Qed.
Lemma preserves_lift_state {A} P (f : CCvcDb -> outcome A) : preserves P (fun d => lift (f d) d).
Proof. intros d Hd. unfold lift. by destruct (f d). Qed.

Lemma calm_addNmos x v : calm (addNmos x v).
Proof. unfold addNmos, addMos. calm. Qed.
Lemma calm_addPmos x v : calm (addPmos x v).
Proof. unfold addPmos, addMos. calm. Qed.
#[local] Hint Resolve calm_addNmos calm_addPmos : calm.

Lemma calm_sides dev i : calm (sourceDrainSignals dev i).
Proof. unfold sourceDrainSignals. calm. Qed.
Lemma calm_allDependents check m v k l : (forall l, calm (check l)) -> calm (Dependency.Dependency.allDependents check m v k l).
Proof. intros Hc. induction l as [| n l IH]; cbn [Dependency.Dependency.allDependents]; calm. Qed.
Lemma calm_CheckEstimate fuel m v k : forall l, calm (Dependency.Dependency.CheckEstimateDependency fuel m v k l).
Proof. induction fuel; intros l; simpl; calm. by apply calm_allDependents. Qed.
#[local] Hint Resolve calm_CheckEstimate calm_sides calm_addNmos calm_addPmos : calm.
Lemma calm_checkPass order m k : forall v, calm (Dependency.Dependency.checkPass order m k v).
Proof. induction order as [| n order IH]; intros v; cbn [Dependency.Dependency.checkPass]; calm. Qed.
#[local] Hint Resolve calm_checkPass : calm.

Section Quiet.
Context (P : CCvcDb -> Prop) `{!Quiet P}.

#[local] Instance quiet_marking : Marking P.
Proof.
  split; [apply _ |]. intros q i d Hd. unfold mbind, M_bind, gets. by apply quiet_inactive; [apply inactiveBit_notPending |].
Qed.

Lemma quiet_setInactive {strict} i b v : b = MIN_INACTIVE \/ b = SIM_INACTIVE \/ b = MAX_INACTIVE -> keeps_ strict P (setDeviceBit i b v).
Proof. intros [-> | [-> | ->]]; apply keeps_weaken, quiet_inactive; apply notPending_inactive. Qed.
#[local] Hint Extern 1 (keeps_ _ _ (setDeviceBit _ _ _)) => apply quiet_setInactive; tauto : keeps.

Lemma quiet_modifyNl {strict} f :
  (forall x, calm (f x)) -> (forall x y, f x = Ok y -> sameSize y x) -> keeps_ strict P (modifyNl f).
Proof.
  intros Hf Hc d Hd. unfold modifyNl. specialize (Hf (netlist d)). destruct (f (netlist d)) as [x | e] eqn:E.
  - apply quiet_netlist; [by apply Hc | done].
  - intros _ ->. by apply Hf.
Qed.
#[local] Hint Extern 1 (keeps_ _ _ (modifyNl _)) => apply quiet_modifyNl; [intros; solve [calm] | solve [sameDevices]] : keeps.
#[local] Hint Extern 1 (keeps_ _ _ (modify _)) => apply keeps_modify; intros; solve [quiet_set] : keeps.
Lemma quiet_IgnoreDevice {strict} i : keeps_ strict P (IgnoreDevice i).
Proof. apply keeps_weaken, quiet_ignore. Qed.
#[local] Hint Resolve quiet_IgnoreDevice : keeps.

Lemma quiet_allocM {strict} p : keeps_ strict P (allocM p).
Proof. apply keeps_allocM. apply _. Qed.
Lemma quiet_related {strict} q r a b x y : keeps_ strict P (fun d => lift (IsRelatedPower (powers d) (netVoltagePtr_v d) (netsOf q d) (netsOf r d) a b x y) d).
Proof. apply (keeps_reader P (fun d => IsRelatedPower _ _ _ _ _ _ _ _)). intros. calm. Qed.
#[local] Hint Resolve quiet_allocM : keeps.
#[local] Hint Extern 2 (keeps_ _ _ (fun d => lift (IsRelatedPower _ _ (simNet_v d) _ _ _ _ _) d)) =>
  apply (quiet_related SIM_QUEUE SIM_QUEUE) : keeps.

(** ** Equivalent nets and links *)

Lemma quiet_foldList {strict} {A B} (l : list A) (body : B -> A -> DB B) : (forall b x, keeps_ strict P (body b x)) ->
  forall b, keeps_ strict P (foldList l body b).
Proof. intros Hb. induction l as [| x l IH]; intros b; cbn [foldList]; quiet. Qed.
Lemma quiet_shortModel {strict} m u : keeps_ strict P (shortModel m u).
Proof. quiet. apply quiet_foldList; intros; quiet. apply quiet_foldList; intros; quiet. Qed.
Lemma quiet_fixNets {strict} n : keeps_ strict P (fixNets n).
Proof. induction n as [| n IH]; cbn [fixNets]; quiet. Qed.
#[local] Hint Resolve quiet_shortModel quiet_fixNets : keeps.
Lemma quiet_SetEquivalentNets {strict} : keeps_ strict P SetEquivalentNets.
Proof. quiet. apply quiet_foldList; intros; apply quiet_foldList; intros; quiet. Qed.

(** ** Links and resistors *)

Lemma quiet_linkDevicesFrom {strict} i l : forall k, keeps_ strict P (linkDevicesFrom i k l).
Proof. induction l as [| dev l IH]; intros k; cbn [linkDevicesFrom]; quiet. Qed.
#[local] Hint Resolve quiet_linkDevicesFrom : keeps.
Lemma quiet_LinkDevices {strict} : keeps_ strict P LinkDevices.
Proof. quiet. Qed.
#[local] Hint Resolve preserves_lift preserves_lift_state : keeps.
Lemma preserves_overrideLines l : forall e, preserves P (overrideLines l e).
Proof. induction l as [| x l IH]; intros e; cbn [overrideLines]; quiet. Qed.
#[local] Hint Resolve preserves_overrideLines : keeps.
Lemma preserves_OverrideFuses f : preserves P (OverrideFuses f).
Proof. quiet. Qed.
Lemma quiet_shortResistor {strict} i a b t : keeps_ strict P (shortResistor i a b t).
Proof. quiet. Qed.
#[local] Hint Resolve quiet_shortResistor : keeps.
Lemma quiet_ShortNonConductingResistor {strict} n : forall i a b t, keeps_ strict P (ShortNonConductingResistor n i a b t).
Proof. induction n as [| n IH]; intros i a b t; cbn [ShortNonConductingResistor]; quiet. Qed.
#[local] Hint Resolve quiet_ShortNonConductingResistor : keeps.
Lemma quiet_ShortNonConductingResistors {strict} : keeps_ strict P ShortNonConductingResistors.
Proof. quiet. Qed.

Lemma quiet_afterResistors {strict} : keeps_ strict P (_ ← CalculateResistorVoltages; PrintAndResetCircuitErrors 0 []).
Proof. quiet. Qed.

Lemma quiet_PrintAndReset {strict} l : keeps_ strict P (PrintAndResetCircuitErrors 0 l).
Proof. quiet. Qed.

(** ** Analog nets *)

Lemma quiet_PropagateAnalogNetType {strict} n : forall i k, keeps_ strict P (PropagateAnalogNetType n i k).
Proof. induction n as [| n IH]; intros i k; cbn [PropagateAnalogNetType]; cbv zeta; quiet. Qed.
#[local] Hint Resolve quiet_PropagateAnalogNetType : keeps.
Lemma quiet_SetAnalogNets {strict} : keeps_ strict P SetAnalogNets.
Proof. quiet. Qed.

(** ** Checks *)

Lemma quiet_forTerminals {strict} ts k check : (forall t, keeps_ strict P (check t)) -> keeps_ strict P (forTerminals ts k check).
Proof. intros Hc. induction ts as [| t ts IH]; cbn [forTerminals]; quiet. Qed.
#[local] Hint Extern 2 (keeps_ _ _ (forTerminals _ _ _)) => apply quiet_forTerminals; intros; solve [quiet] : keeps.
Lemma quiet_checkDiodes {strict} c l : keeps_ strict P (checkDiodes c l).
Proof. induction l as [| x l IH]; cbn [checkDiodes]; quiet. Qed.
#[local] Hint Resolve quiet_checkDiodes : keeps.
Lemma quiet_FindForwardBiasDiodes {strict} : keeps_ strict P FindForwardBiasDiodes.
Proof. quiet. Qed.
Lemma quiet_firstOf {strict} l : Forall (fun x => keeps_ strict P x.1) l -> keeps_ strict P (firstOf l).
Proof. induction 1 as [| [m v] l Hm Hl IH]; cbn [firstOf]; quiet. Qed.
Lemma quiet_biasLoop {strict} g e f v n : (forall c, keeps_ strict P (v c)) -> forall i s, keeps_ strict P (biasLoop g e f v n i s).
Proof. intros Hv. induction n as [| n IH]; intros i s; cbn [biasLoop]; quiet. Qed.
Lemma quiet_nmosBias {strict} c : keeps_ strict P (nmosBias c).
Proof. quiet. all: apply quiet_firstOf; repeat constructor; cbn [fst]; quiet. Qed.
Lemma quiet_pmosBias {strict} c : keeps_ strict P (pmosBias c).
Proof. quiet. all: apply quiet_firstOf; repeat constructor; cbn [fst]; quiet. Qed.
Lemma quiet_FindNmosSourceVsBulkErrors {strict} b : keeps_ strict P (FindNmosSourceVsBulkErrors b).
Proof. quiet. apply quiet_biasLoop. intros. apply quiet_nmosBias. Qed.
Lemma quiet_FindPmosSourceVsBulkErrors {strict} b : keeps_ strict P (FindPmosSourceVsBulkErrors b).
Proof. quiet. apply quiet_biasLoop. intros. apply quiet_pmosBias. Qed.
Lemma quiet_checkOpposites {strict} t l : forall k, keeps_ strict P (checkOpposites t l k).
Proof. induction l as [| n l IH]; intros [| o k]; cbn [checkOpposites]; quiet. Qed.
#[local] Hint Resolve quiet_checkOpposites : keeps.
Lemma quiet_addConnected {strict} n l : keeps_ strict P (addConnected n l).
Proof. quiet. Qed.
#[local] Hint Resolve quiet_addConnected : keeps.
Lemma quiet_stackDevices {strict} n q o f : forall i l, keeps_ strict P (stackDevices n q o f i l).
Proof. induction n as [| n IH]; intros i l; cbn [stackDevices]; quiet. Qed.
Lemma quiet_origins {strict} l : forall s, keeps_ strict P (origins l s).
Proof. induction l as [| i l IH]; intros s; cbn [origins]; quiet. Qed.
Lemma quiet_tristate {strict} l s : keeps_ strict P (tristate l s).
Proof. induction l as [| i l IH]; cbn [tristate]; quiet. Qed.
#[local] Hint Resolve quiet_stackDevices quiet_origins quiet_tristate : keeps.
Lemma quiet_FindNmosGateVsSourceErrors {strict} a b : keeps_ strict P (FindNmosGateVsSourceErrors a b).
Proof. quiet. Qed.
Lemma quiet_FindPmosGateVsSourceErrors {strict} a b : keeps_ strict P (FindPmosGateVsSourceErrors a b).
Proof. quiet. Qed.
Lemma quiet_FindLDDErrors {strict} : keeps_ strict P FindLDDErrors.
Proof. quiet. Qed.
Lemma quiet_FindAllOverVoltageErrors {strict} : keeps_ strict P FindAllOverVoltageErrors.
Proof. quiet. Qed.
Lemma quiet_FindNmosPossibleLeakErrors {strict} : keeps_ strict P FindNmosPossibleLeakErrors.
Proof. quiet. Qed.
Lemma quiet_FindPmosPossibleLeakErrors {strict} : keeps_ strict P FindPmosPossibleLeakErrors.
Proof. quiet. Qed.
Lemma quiet_FindFloatingInputErrors {strict} : keeps_ strict P FindFloatingInputErrors.
Proof. quiet. Qed.
Lemma preserves_CheckExpectedValues : preserves P CheckExpectedValues.
Proof. quiet. Qed.

(** ** Between the propagations *)

Lemma quiet_SetInverters {strict} : keeps_ strict P SetInverters.
Proof. quiet. Qed.
Lemma quiet_bulkCounts {strict} n : forall i k, keeps_ strict P (bulkCounts n i k).
Proof. induction n as [| n IH]; intros i k; cbn [bulkCounts]; quiet. Qed.
#[local] Hint Resolve quiet_bulkCounts : keeps.
Lemma quiet_CheckConnections {strict} : keeps_ strict P CheckConnections.
Proof. quiet. Qed.
Lemma quiet_SaveMinMaxLeakVoltages {strict} : keeps_ strict P SaveMinMaxLeakVoltages.
Proof.
  quiet; apply keeps_modify; intros d Hd; [by apply (quiet_backup MIN_QUEUE) | by apply (quiet_backup MAX_QUEUE)].
Qed.
Lemma quiet_SaveInitialVoltages {strict} : keeps_ strict P SaveInitialVoltages.
Proof. quiet. apply keeps_modify. intros d Hd. by apply (quiet_backup SIM_QUEUE). Qed.
Lemma quiet_scrcParent {strict} n : forall i b, keeps_ strict P (scrcParent n i b).
Proof. induction n as [| n IH]; intros i b; cbn [scrcParent]; quiet. Qed.
#[local] Hint Resolve quiet_scrcParent : keeps.
Lemma quiet_SetSCRCPower {strict} : keeps_ strict P SetSCRCPower.
Proof. quiet. Qed.
Lemma quiet_muxNext {strict} x v a l : forall f, keeps_ strict P (muxNext x v a l f).
Proof. induction l as [| y l IH]; intros f; cbn [muxNext]; quiet. Qed.
#[local] Hint Resolve quiet_muxNext : keeps.
Lemma quiet_muxPairs {strict} l : forall f, keeps_ strict P (muxPairs l f).
Proof. induction l as [| y l IH]; intros f; cbn [muxPairs]; [| destruct l]; quiet. Qed.
#[local] Hint Resolve quiet_muxPairs : keeps.
Lemma quiet_latchLoop {strict} k n : forall i v s, keeps_ strict P (latchLoop k n i v s).
Proof. induction n as [| n IH]; intros i v s; cbn [latchLoop]; quiet. Qed.
#[local] Hint Resolve quiet_latchLoop : keeps.
Lemma quiet_SetLatchPower {strict} a b : keeps_ strict P (SetLatchPower a b).
Proof. quiet. Qed.

(** ** Around the min/max and the simulation pass *)

Lemma quiet_deleteM {strict} x : keeps_ strict P (deleteM x).
Proof.
  apply (keeps_writer P (fun d => freePower (powers d) x) set_powers); intros; [unfold freePower; calm | by apply stable_powers].
Qed.
Lemma quiet_storeLeakCopy {strict} n p : keeps_ strict P (storeLeakCopy n p).
Proof.
  intros d Hd. unfold storeLeakCopy. destruct (allocCopy _ _). pose proof (calm_vset (leakVoltagePtr_v d) n (Some z)) as Hc.
  destruct (vset _ _ _) as [v | e]; [by apply stable_leakPtr, stable_powers | intros _ ->; by apply Hc].
Qed.
#[local] Hint Resolve quiet_deleteM quiet_storeLeakCopy : keeps.
Lemma quiet_resetDevice {strict} i : keeps_ strict P (resetDevice i).
Proof. quiet. Qed.
Lemma quiet_eraseCalculations {strict} i a : keeps_ strict P (eraseCalculations i a).
Proof. quiet. Qed.
Lemma quiet_resetLevels {strict} i : keeps_ strict P (resetLevels i).
Proof. quiet. Qed.
Lemma quiet_initUpdates {strict} q : keeps_ strict P (initUpdates q).
Proof. apply keeps_modify. intros d. apply quiet_updates. Qed.
Lemma quiet_clearUpdates {strict} q : keeps_ strict P (clearUpdates q).
Proof. apply keeps_modify. intros d. apply quiet_updates. Qed.

Lemma quiet_RemoveInvalidPower {strict} fuel : forall n k, keeps_ strict P (RemoveInvalidPower fuel n k).
Proof. induction fuel as [| fuel IH]; intros n k; cbn [RemoveInvalidPower]; quiet. Qed.
#[local] Hint Resolve quiet_RemoveInvalidPower : keeps.
Lemma quiet_removeAll {strict} n : forall i k, keeps_ strict P (removeAll n i k).
Proof. induction n as [| n IH]; intros i k; cbn [removeAll]; quiet. Qed.
#[local] Hint Resolve quiet_removeAll : keeps.
Lemma quiet_finishMinMax {strict} order : keeps_ strict P (finishMinMax order).
Proof. quiet. Qed.

(** ** Instance and expected powers *)

Section Powers.
Context (validRegex : String.string -> bool) (regex_match : String.string -> String.string -> bool)
  (cdlText : gset String.string).
Local Abbreviation pres := (preserves P).

Lemma preserves_findNets s i : pres (ModePower.ModePower.findNets validRegex regex_match cdlText s i).
Proof. apply preserves_lift_state. Qed.
Lemma preserves_findInstances s : pres (ModePower.ModePower.findInstances validRegex regex_match cdlText s).
Proof. apply preserves_lift_state. Qed.
#[local] Hint Resolve preserves_findNets preserves_findInstances : keeps.

Lemma preserves_expectedNets l : forall a b, pres (ModePower.ModePower.expectedNets a b l).
Proof. induction l as [| n l IH]; intros a b; cbn [ModePower.ModePower.expectedNets]; quiet. Qed.
#[local] Hint Resolve preserves_expectedNets : keeps.
Lemma preserves_expectedPowers l : pres (ModePower.ModePower.expectedPowers validRegex regex_match cdlText l).
Proof. induction l as [| a l IH]; cbn [ModePower.ModePower.expectedPowers]; quiet. Qed.
#[local] Hint Resolve preserves_expectedPowers : keeps.
Section Instances.
Context (fuel : nat) (macros : gmap String.string CPower).
Lemma preserves_instanceNets s l : forall a b st, pres (ModePower.ModePower.instanceNets s a b l st).
Proof. induction l as [| n l IH]; intros a b st; cbn [ModePower.ModePower.instanceNets]; quiet. Qed.
#[local] Hint Resolve preserves_instanceNets : keeps.
Lemma preserves_instanceLine i line st :
  pres (ModePower.ModePower.instanceLine validRegex regex_match cdlText fuel i line st).
Proof. quiet. Qed.
#[local] Hint Resolve preserves_instanceLine : keeps.
Lemma preserves_instanceLines i l : forall st,
  pres (ModePower.ModePower.instanceLines validRegex regex_match cdlText fuel i l st).
Proof. induction l as [| x l IH]; intros st; cbn [ModePower.ModePower.instanceLines]; quiet. Qed.
Lemma preserves_topMacros l : pres (ModePower.ModePower.topMacros l).
Proof. induction l as [| [x p] l IH]; cbn [ModePower.ModePower.topMacros]; quiet. Qed.
#[local] Hint Resolve preserves_instanceLines preserves_topMacros : keeps.
Lemma preserves_instanceIds lines l : forall st,
  pres (ModePower.ModePower.instanceIds validRegex regex_match cdlText fuel macros lines l st).
Proof. induction l as [| i l IH]; intros st; cbn [ModePower.ModePower.instanceIds]; quiet. Qed.
#[local] Hint Resolve preserves_instanceIds : keeps.
Lemma preserves_instancePowers l : forall st,
  pres (ModePower.ModePower.instancePowers validRegex regex_match cdlText fuel macros l st).
Proof. induction l as [| x l IH]; intros st; cbn [ModePower.ModePower.instancePowers]; quiet. Qed.
End Instances.

Lemma quiet_readPowers {strict} l : keeps_ strict P (readPowers l).
Proof. induction l as [| a l IH]; cbn [readPowers]; quiet. Qed.
Lemma quiet_storePowers {strict} l : forall ps, keeps_ strict P (storePowers l ps).
Proof. induction l as [| a l IH]; intros [| p ps]; cbn [storePowers]; quiet. Qed.
#[local] Hint Resolve quiet_readPowers quiet_storePowers : keeps.
Lemma preserves_onPowers f : pres (onPowers f).
Proof. quiet. Qed.
#[local] Hint Resolve preserves_onPowers : keeps.
Lemma preserves_setPowers firstRelative fuel m v :
  pres (setPowers validRegex regex_match cdlText firstRelative fuel m v).
Proof. quiet. apply preserves_instancePowers. Qed.
End Powers.
End Quiet.
End Quiet.
