(* ===== verification/Stages.v ===== *)
(** * The state between the stages of a mode

    The stages of Driver.v leave work for each other only in the database.  Between two
    of them it is at rest: the three event queues are empty and no device is pending, the
    virtual nets have an entry per net and end everywhere, and the vectors have the sizes
    the reset gave them. *)

From S2P Require Import Prelude CvcTypes EventQueue VirtualNet Power Db Model PowerText PowerFile ModePower.
From S2P Require Import Connection Short Enqueue Propagate Simulate Resistor Logic Pending Forest Work.
From S2P Require Import Equivalent Netlist Links Fuses NonConducting MinMax MinMaxReset MinMaxLoop SimPower Analog Latch.
From S2P Require Import Overvoltage InverterCheck GateSource Bias Diode Leak Expected Inverter Driver Quiet ExampleDb.
From stdpp Require Import base list strings gmap.
From Stdlib Require Import ZArith Lia.
#[local] Open Scope Z_scope.

Module Stages.
Import EventQueue.EventQueue VirtualNet.VirtualNet Power.Power Db.Db Connection.Connection Short.Short Enqueue.Enqueue.
Import Propagate.Propagate Simulate.Simulate Resistor.Resistor Logic.Logic Pending.Pending Forest.Forest Work.Work.
Import Equivalent.Equivalent Netlist.Netlist Links.Links Fuses.Fuses NonConducting.NonConducting.
Import MinMax.MinMax MinMaxReset.MinMaxReset MinMaxLoop.MinMaxLoop SimPower.SimPower Driver.Driver Quiet.Quiet.
Import Latch.Latch Overvoltage.Overvoltage InverterCheck.InverterCheck GateSource.GateSource.
Import Bias.Bias Diode.Diode Leak.Leak Expected.Expected Inverter.Inverter.

(** ** At rest *)

Definition restNets (d : CCvcDb) : Prop := forestInv d /\ sized d.
Definition counted (n : nat) (d : CCvcDb) : Prop := devicesAre n d /\ deviceCount (netlist d) = Z.of_nat n.
Definition empty (ok : eventQueue_t -> Prop) (d : CCvcDb) : Prop := forall q, ok q -> QueueSize (queueOf q d) = 0.
Definition idleQueues (d : CCvcDb) : Prop := pendInv nobody d /\ empty (fun _ => True) d.
Definition restQueues (n : nat) (d : CCvcDb) : Prop := idleQueues d /\ counted n d.
Definition atRest (n : nat) (d : CCvcDb) : Prop := restQueues n d /\ restNets d.

(** What the propagation in the queues [ok] keeps of it. *)
Definition restBut (ok : eventQueue_t -> Prop) (n : nat) (d : CCvcDb) : Prop :=
  empty (fun q => ~ ok q) d /\ counted n d /\ restNets d.

Lemma link_length {v w} : length w = length v -> forall j, is_Some (link w j) <-> is_Some (link v j).
Proof. intros E j. unfold link. by rewrite !fmap_is_Some, !vlookup_is_Some, E. Qed.

Lemma restNets_nets q v d : netsOk v -> length (nets v) = length (nets (netsOf q d)) -> restNets d -> restNets (set_netsOf q v d).
Proof.
  intros Hv El [Hf Hz]. split; [by apply forestInv_set |]. intros q' j. rewrite netsOf_set.
  replace (netlist (set_netsOf q v d)) with (netlist d) by by destruct d, q.
  destruct (decide _) as [<- |]; [| apply Hz]. by rewrite (link_length El).
Qed.
Lemma restNets_frame d d' : (forall q, nets (netsOf q d') = nets (netsOf q d)) -> netCount (netlist d') = netCount (netlist d) ->
  restNets d -> restNets d'.
Proof.
  intros En Ec [Hf Hz]. split; [intros q; destruct (Hf q) as [F L]; split; by rewrite En |].
  intros q j. by rewrite En, Ec.
Qed.

#[export] Instance restNets_stable : Stable restNets.
Proof.
  split; try (intros; eapply restNets_frame; [| | eassumption]; [intros [] |]; by destruct d); try (intros; by destruct d, q).
  - intros q n x v d E H. destruct (access_forest _ _ _ _ _ (proj1 H q) E). by apply restNets_nets.
  - intros q n m r t v d E H. destruct (Set_forest _ _ _ _ _ _ (proj1 H q) E). by apply restNets_nets.
  - intros q t d H. apply restNets_nets; [by destruct (proj1 H q) | done | done].
  - intros q n x d E H. apply restNets_nets; [apply netsOk_detach; [done | apply (proj1 H)] | simpl; by rewrite vupdate_length | done].
Qed.

(** Conjunctions. *)
Lemma safe_and {strict} {A} P P' (m : DB A) (Q Q' : A -> CCvcDb -> Prop) :
  safe_ strict P m Q -> safe_ false P' m Q' -> safe_ strict (fun d => P d /\ P' d) m (fun a d => Q a d /\ Q' a d).
Proof.
  intros H H' d [Hd Hd']. specialize (H d Hd). specialize (H' d Hd'). destruct (m d) as [[a d'] | e]; [by split | done].
Qed.
Lemma keeps_and {strict} {A} P P' (m : DB A) : keeps_ strict P m -> preserves P' m -> keeps_ strict (fun d => P d /\ P' d) m.
Proof. apply safe_and. Qed.
Ltac conj := intros; match goal with H : _ /\ _ |- _ => destruct H end; split.
#[export] Instance and_stable P Q `{!Stable P} `{!Stable Q} : Stable (fun d => P d /\ Q d).
Proof.
  split; conj; first [by eapply stable_access | by eapply stable_Set | by apply stable_tick | by apply stable_detach
    | by apply stable_powers | by apply stable_netVoltagePtr | by apply stable_powerList | by apply stable_circuits
    | by apply stable_netStatus | by apply stable_connectionCount | by apply stable_errorCount | by apply stable_cellErrors
    | by apply stable_reports | by apply stable_unknownGates | by apply stable_minDependencies | by apply stable_maxDependencies
    | by apply stable_inverterNet | by apply stable_leakPtr | by apply stable_fixed | by apply stable_leak].
Qed.
#[export] Instance and_quiet P Q `{!Quiet P} `{!Quiet Q} : Quiet (fun d => P d /\ Q d).
Proof.
  split; [apply _ | ..]; try (conj; first [by apply quiet_netlist | by apply quiet_parameters | by apply quiet_highLow
    | by apply quiet_initialPtr | by apply quiet_fixedSim | by apply quiet_leakSet | by apply quiet_updates | by apply quiet_backup]).
  - intros i b v Hb. apply keeps_and; [by apply quiet_inactive | by apply keeps_weaken, quiet_inactive].
  - intros i. apply keeps_and; [by apply quiet_ignore | by apply keeps_weaken, quiet_ignore].
Qed.
#[export] Instance and_loose ok P Q `{!LooseOn ok P} `{!LooseOn ok Q} : LooseOn ok (fun d => P d /\ Q d).
Proof.
  split; [apply _ | intros q o; apply (loose_closed (ok := ok) (P := P)) | ..]; conj;
    first [by apply (loose_queue (ok := ok)) | by apply (loose_status (ok := ok))].
Qed.

(** ** The parts *)

Lemma restNets_status v d : restNets d -> restNets (set_deviceStatus_v v d).
Proof. apply restNets_frame; [intros [] |]; by destruct d. Qed.
Lemma restNets_queue q x d : restNets d -> restNets (set_queueOf q x d).
Proof. apply restNets_frame; [intros [] |]; by destruct d, q. Qed.
Lemma vlookup_fmap {A B} (f : A -> B) (v : list A) i : vlookup (f <$> v) i = f <$> vlookup v i.
Proof. unfold vlookup, in_range. rewrite length_fmap. destruct (_ && _); [apply list_lookup_fmap | done]. Qed.
Lemma link_path v w : length w = length v -> (forall j e, vlookup v j = Some e -> exists e', vlookup w j = Some e' /\ nextNetId e' = nextNetId e) ->
  forest v -> forest w.
Proof.
  intros El Hw F j Hj. destruct (F j) as (f & r & k & P); [rewrite vlookup_is_Some, <- El; by apply vlookup_is_Some |].
  clear Hj. induction P as [n e He Hn | n e f r k He Hn P (f' & r' & k' & P')]; destruct (Hw _ _ He) as (e' & He' & E).
  - exists n, (resistance e'), 0%nat. constructor; [done | congruence].
  - exists f', (resistance e' + r'), (S k'). eapply path_step; [done | congruence | congruence].
Qed.
#[export] Instance restNets_quiet : Quiet restNets.
Proof.
  split; [apply _ | ..]; try (intros; eapply restNets_frame; [| | eassumption]; [intros [] |]; by destruct d).
  - intros v d [_ En] H. apply (restNets_frame d); [intros []; by destruct d | by destruct d | done].
  - intros i b v _. unfold setDeviceBit. keep. apply keeps_modify. intros d. apply restNets_status.
  - intros i. unfold IgnoreDevice. keep. apply keeps_modify. intros d. apply restNets_status.
  - intros q u d. apply restNets_frame; [| by destruct d, q]. intros q'. rewrite netsOf_set. by destruct (decide _) as [<- |].
  - intros q d H. destruct (proj1 H q) as [F L]. apply restNets_nets; [split | |]; simpl; rewrite ?length_fmap; try done.
    eapply link_path; [by rewrite length_fmap | | exact F]. intros j e He. exists (mkVirtualNet (nextNetId e) (resistance e) (finalNetId e) (finalResistance e) (nextNetId e)).
    by rewrite vlookup_fmap, He.
Qed.

Lemma devicesAre_frame n d d' : deviceStatus_v d' = deviceStatus_v d -> devicesAre n d -> devicesAre n d'.
Proof. unfold devicesAre. by intros ->. Qed.
Lemma counted_frame n d d' : length (deviceStatus_v d') = length (deviceStatus_v d) -> deviceCount (netlist d') = deviceCount (netlist d) ->
  counted n d -> counted n d'.
Proof. unfold counted, devicesAre. intros -> ->. done. Qed.
#[export] Instance counted_stable n : Stable (counted n).
Proof. split; try (intros; eapply counted_frame; [| | eassumption]; by destruct d); intros; eapply counted_frame; try eassumption; by destruct d, q. Qed.
#[export] Instance counted_quiet n : Quiet (counted n).
Proof.
  split; [apply _ | ..]; try (intros; eapply counted_frame; [| | eassumption]; by destruct d).
  - intros v d [Ec _] H. apply (counted_frame n d); [by destruct d | by destruct d | done].
  - intros i b v _. unfold setDeviceBit. keep. apply keeps_modify. intros d.
    apply counted_frame; destruct d; [apply vupdate_length | done].
  - intros i. unfold IgnoreDevice. keep. apply keeps_modify. intros d. apply counted_frame; destruct d; [apply vupdate_length | done].
  - intros q u d. apply counted_frame; by destruct d, q.
  - intros q d. apply counted_frame; by destruct d, q.
Qed.

Class closed (ok : eventQueue_t -> Prop) : Prop := closed_sides q o : ok q -> q <> SIM_QUEUE -> o <> SIM_QUEUE -> ok o.
#[export] Instance counted_loose ok n : closed ok -> LooseOn ok (counted n).
Proof.
  intros Hc. split; [apply _ | done | |].
  - intros q x d _. apply counted_frame; by destruct d, q.
  - intros v d E. apply counted_frame; by destruct d.
Qed.
#[export] Instance restNets_loose ok : closed ok -> LooseOn ok restNets.
Proof. intros Hc. split; [apply _ | done | |]; intros; [by apply restNets_queue | by apply restNets_status]. Qed.

Lemma empty_frame ok d d' : (forall q, ok q -> QueueSize (queueOf q d') = QueueSize (queueOf q d)) -> empty ok d -> empty ok d'.
Proof. intros E H q Hq. rewrite E by done. by apply H. Qed.
#[export] Instance empty_stable ok : Stable (empty ok).
Proof.
  apply queue_status_stable; [intros d d' E _; apply empty_frame; by intros; rewrite E |].
  intros q i a b d. apply empty_frame. intros q' _. rewrite queueOf_set. destruct (decide _) as [<- |]; [| done].
  unfold AddLeak. by repeat case_match.
Qed.
#[export] Instance empty_loose ok : closed ok -> LooseOn ok (empty (fun q => ~ ok q)).
Proof.
  intros Hc. split; [apply _ | done | |].
  - intros q x d Hq. apply empty_frame. intros q' Hq'. rewrite queueOf_set. by destruct (decide _) as [<- |].
  - intros v d _. apply empty_frame. intros q _. by rewrite queueOf_set_status.
Qed.
#[export] Instance empty_quiet ok : Quiet (empty ok).
Proof.
  split; [apply _ | ..]; try (intros; eapply empty_frame; [| eassumption]; intros []; by destruct d).
  - intros i b v _. unfold setDeviceBit. keep. apply keeps_modify. intros d. apply empty_frame. intros []; by destruct d.
  - intros i. unfold IgnoreDevice. keep. apply keeps_modify. intros d. apply empty_frame. intros []; by destruct d.
  - intros q u d. apply empty_frame. intros []; by destruct d, q.
  - intros q d. apply empty_frame. intros []; by destruct d, q.
Qed.

#[export] Instance restBut_loose ok n : closed ok -> LooseOn ok (restBut ok n).
Proof. intros Hc. unfold restBut. apply _. Qed.

(** ** Nothing is pending *)

Lemma rest_nothing d q : pendInv nobody d -> QueueSize (queueOf q d) = 0 -> agrees (queueOf q d) (deviceStatus_v d) q (nobody q) emptyQueue.
Proof.
  intros Hp H0. destruct (Hp q) as [A HA]. pose proof (QueueSize_queued _ _ (ag_inv _ _ _ _ _ HA)) as E.
  destruct A as [m l]. assert (m = [] /\ l = []) as [-> ->]; [| done].
  destruct (ag_inv _ _ _ _ _ HA) as [[_ _ Fm] [_ _ Fl] _ _ _ _]. unfold queued in E. simpl in *.
  rewrite length_app in E. split.
  - destruct m as [| [k [| x xs]] m]; [done | inversion_clear Fm; done | simpl in E; lia].
  - destruct l as [| [k [| x xs]] l]; [done | inversion_clear Fl; done | simpl in E; rewrite ?length_app in E; simpl in E; lia].
Qed.

Lemma idle_frame_all d d' : (forall q, queueOf q d' = queueOf q d) -> deviceStatus_v d' = deviceStatus_v d -> idleQueues d -> idleQueues d'.
Proof. intros Eq Es [Hp He]. split; [by eapply pendInv_frame | by eapply empty_frame; [intros; rewrite Eq |]]. Qed.
Lemma noBits d i q : idleQueues d -> ~ bitSet (deviceStatus_v d) i (pendingOf q).
Proof. intros [Hp He]. apply emptyQueue_idle; [done | by apply He]. Qed.
(** A queue that holds nothing, over status words without its pending bit. *)
Lemma agrees_empty x v w q : agrees x v q (nobody q) emptyQueue -> (forall i, ~ bitSet w i (pendingOf q)) ->
  agrees x w q (nobody q) emptyQueue.
Proof.
  intros [H1 H2 _ _] Hw. constructor; [done | done | | by intros i []].
  intros i. split; [by intros ?%Hw | intros [H | [[] _]]]. by apply not_elem_of_nil in H.
Qed.
#[export] Instance idle_quiet : Quiet idleQueues.
Proof.
  split; [apply _ | ..]; try (intros; eapply idle_frame_all; [| | eassumption]; [intros [] |]; by destruct d).
  - intros i b v Hb. apply keeps_and; [by apply keeps_setInactive | by apply keeps_weaken, quiet_inactive].
  - intros i. unfold IgnoreDevice. keep. apply keeps_modify. intros d Hd. pose proof (fun q i => noBits d i q Hd) as Hb.
    destruct Hd as [Hp He]. split; [| eapply empty_frame; [| done]; intros []; by destruct d].
    intros q. exists emptyQueue. rewrite queueOf_set_status, deviceStatus_set_status.
    eapply agrees_empty; [apply rest_nothing; [done | by apply He] |].
    intros j (s & Hs & Hg). rewrite vlookup_vupdate in Hs. destruct (i =? j); [| by apply (Hb q j); exists s].
    destruct (in_range _ i); [| done]. injection Hs as <-. by destruct q.
  - intros q u d. apply idle_frame_all; [intros [] |]; by destruct d, q.
  - intros q d. apply idle_frame_all; [intros [] |]; by destruct d, q.
Qed.

#[export] Instance atRest_quiet n : Quiet (atRest n).
Proof. unfold atRest, restQueues. apply _. Qed.

(** ** The propagations *)

Definition sides (q : eventQueue_t) : Prop := q <> SIM_QUEUE.
Definition onlySim (q : eventQueue_t) : Prop := q = SIM_QUEUE.
#[export] Instance sides_dec q : Decision (sides q).
Proof. unfold sides. apply _. Defined.
#[export] Instance onlySim_dec q : Decision (onlySim q).
Proof. unfold onlySim. apply _. Defined.
#[export] Instance closed_sides_ : closed sides.
Proof. unfold closed, sides. by intros q o. Qed.
#[export] Instance closed_sim : closed onlySim.
Proof. unfold closed, onlySim. by intros q o. Qed.

(** The state while the queues [ok] are being worked off. *)
Definition running (ok : eventQueue_t -> Prop) (n : nat) (d : CCvcDb) : Prop := pendInv nobody d /\ restBut ok n d.
Lemma keeps_running {A} ok n (m : DB A) : keeps (pendInv nobody) m -> preserves (restBut ok n) m -> preserves (running ok n) m.
Proof. intros H H'. apply keeps_and; [by apply keeps_weaken | done]. Qed.

Lemma atRest_split ok n d : atRest n d -> running ok n d.
Proof. intros [[[Hp He] Hc] Hn]. split; [done |]. split; [| done]. intros q _. by apply He. Qed.
Lemma atRest_join ok `{!forall q, Decision (ok q)} n d : running ok n d -> (forall q, ok q -> QueueSize (queueOf q d) = 0) -> atRest n d.
Proof.
  intros (Hp & He & Hc & Hn) Ho. split; [split; [split; [done |] | done] | done].
  intros q _. destruct (decide (ok q)); [by apply Ho | by apply He].
Qed.

Section Propagations.
Context (n : nat) (Hsmall : Z.of_nat n < 2 ^ 31).

Lemma resistorLoop_end fuel : forall d d', resistorLoop fuel d = Ok (tt, d') -> nextResistorQueue d' = None.
Proof.
  induction fuel as [| fuel IH]; intros d d' H; [done |]. simpl in H. unfold mbind, M_bind, gets in H.
  destruct (nextResistorQueue d) as [q |] eqn:En; [| by injection H as <-].
  destruct (PropagateResistorVoltages q d) as [[[] d1] |]; [by eapply IH | done].
Qed.

(** [keep] for both parts of [running]. *)
Ltac loose := match goal with |- keeps_ _ (restBut ?ok ?n) _ =>
  first [ apply (preserves_EnqueueByTerminal ok (restBut ok n)) | apply (preserves_EnqueueAttachedResistors ok (restBut ok n)) | apply (preserves_startQueue ok (restBut ok n))
    | apply (preserves_resistorLoop ok (restBut ok n)) | apply (preserves_PropagateMinMaxVoltages ok (restBut ok n)) | apply (preserves_PropagateSimVoltages ok (restBut ok n))
    | apply (preserves_enqueueDevice ok (restBut ok n)) | apply (loose_setDeviceBit ok (restBut ok n)) ]; solve [assumption | discriminate | reflexivity] end.
#[local] Hint Extern 1 (keeps_ _ (restBut _ _) _) => loose : keeps.
Ltac run := apply keeps_running; keep.

(** What [running] has become when its queues are empty. *)
Lemma run_ends {A} ok `{!forall q, Decision (ok q)} (m : DB A) : preserves (running ok n) m ->
  (forall d a d', running ok n d -> m d = Ok (a, d') -> running ok n d' -> forall q, ok q -> QueueSize (queueOf q d') = 0) ->
  safe_ false (running ok n) m (fun _ => atRest n).
Proof.
  intros Hk He d Hd. specialize (Hk d Hd). destruct (m d) as [[a d'] |] eqn:E; [| done].
  apply (atRest_join ok); [done | by apply (He d a)].
Qed.
Lemma running_small ok d : running ok n d -> Z.of_nat (length (deviceStatus_v d)) < 2 ^ 31.
Proof. intros (_ & _ & [-> _] & _). done. Qed.

Lemma rest_resistorLoop fuel : safe_ false (running sides n) (resistorLoop fuel) (fun _ => atRest n).
Proof.
  apply (run_ends sides); [run |]. intros d [] d' _ E H q Hq.
  apply nextResistorQueue_None; [apply H | by apply (running_small sides) | by eapply resistorLoop_end | done].
Qed.
Lemma rest_SetResistorVoltagesByPower : preserves (atRest n) SetResistorVoltagesByPower.
Proof.
  apply (safe_conseq _ (running sides n) _ _ (fun _ => atRest n)); [| apply atRest_split | done].
  unfold SetResistorVoltagesByPower, enqueuePower. do 5 (apply keeps_then; [run | intros ?]).
  eapply safe_bind; [apply rest_resistorLoop | intros ?]. apply quiet_afterResistors. apply _.
Qed.

(** ** The resets *)

Lemma rest_resetSide q : preserves (atRest n) (resetSide q).
Proof.
  intros d [[[Hp He] [Hv Hc]] Hn]. unfold resetSide, nl, gets, mbind, M_bind, modify. rewrite Hc.
  pose proof (rest_nothing d q Hp (He q I)) as Ha.
  assert (agrees (ResetQueue (queueOf q d) (Z.of_nat n)) (deviceStatus_v d) q (nobody q) emptyQueue) as Hr.
  { destruct Ha as [[[R1 _ _] [R2 _ _] _ _ _ _] Ht _ _]. apply Forall2_nil_inv_r in R1, R2.
    apply agrees_reset; [by rewrite Hv | unfold UNKNOWN_DEVICE, UINT32_MAX; lia | done..|].
    intros i. by apply noBits. }
  split; [split; [split |] | by apply restNets_queue].
  - intros q'. rewrite queueOf_set, deviceStatus_set_queueOf. destruct (decide _) as [<- |]; [by eexists | apply Hp].
  - intros q' _. rewrite queueOf_set. destruct (decide _) as [<- |]; [| by apply He].
    apply (QueueSize_queued _ _ (ag_inv _ _ _ _ _ Hr)).
  - eapply counted_frame; [| | by split]; by destruct d, q.
Qed.

(** The queues do not see the virtual nets. *)
Lemma restQueues_nets m d q v : restQueues m d -> restQueues m (set_netsOf q v d).
Proof.
  intros [Hi Hc]. split; [eapply idle_frame_all; [| | done]; [intros [] |] | eapply counted_frame; [| | done]]; by destruct d, q.
Qed.
Lemma restQueues_resetNet m i : preserves (restQueues m) (resetNet i).
Proof.
  assert (forall q i, preserves (restQueues m) (copyNet q i)) as Hc.
  { intros q j. unfold copyNet. keep. apply keeps_modify. intros d. apply restQueues_nets. }
  assert (forall q i, preserves (restQueues m) (resetFromResistors q i)) as Hr.
  { intros q j. unfold resetFromResistors. keep. apply keeps_modify. intros d. apply restQueues_nets. }
  assert (Quiet (restQueues m)) as Hq by (unfold restQueues; apply _).
  pose proof (fun i a => quiet_eraseCalculations (restQueues m) (strict := false) i a) as He.
  pose proof (fun i => quiet_resetLevels (restQueues m) (strict := false) i) as Hl.
  unfold resetNet, resetFromSim, followsSim, powerLevel. keep; auto.
Qed.

Lemma sized_length d q : sized d -> Z.of_nat (length (nets (netsOf q d))) = Z.max 0 (netCount (netlist d)).
Proof.
  intros Hz. assert (forall j, 0 <= j < Z.of_nat (length (nets (netsOf q d))) <-> 0 <= j < netCount (netlist d)) as H.
  { intros j. rewrite <- (Hz q j). unfold link. by rewrite fmap_is_Some, vlookup_is_Some. }
  pose proof (H (Z.of_nat (length (nets (netsOf q d))))). pose proof (H (netCount (netlist d))). pose proof (H 0). lia.
Qed.
Lemma link_same_length v w : (forall j, is_Some (link w j) <-> is_Some (link v j)) -> length w = length v.
Proof.
  intros H. assert (forall j, 0 <= j < Z.of_nat (length w) <-> 0 <= j < Z.of_nat (length v)) as Hj.
  { intros j. rewrite <- !vlookup_is_Some, <- !(fmap_is_Some nextNetId). apply H. }
  pose proof (Hj (Z.of_nat (length w))). pose proof (Hj (Z.of_nat (length v))). lia.
Qed.
Lemma sub_forest v w : (forall j, is_Some (link w j) <-> is_Some (link v j)) ->
  (forall j l, link w j = Some l -> l = j \/ link v j = Some l) -> forest v -> forest w.
Proof.
  intros Hd Hl F j Hj. assert (forall j, is_Some (vlookup v j) <-> is_Some (vlookup w j)) as Hs.
  { intros i. rewrite <- !(fmap_is_Some nextNetId). symmetry. apply Hd. }
  destruct (F j) as (f & r & k & P); [by apply Hs |].
  destruct (path_sub v w j f r k (fun i => proj1 (Hs i)) Hl P) as (f' & r' & k' & P' & _). eauto.
Qed.
Lemma restNets_sub d d' : restNets d -> sized d' -> (forall j, link (nets (simNet_v d')) j = link (nets (simNet_v d)) j) ->
  subLinks d' -> restNets d'.
Proof.
  intros [Hf Hz] Hz' Hs Hl. split; [| done].
  assert (length (nets (simNet_v d')) = length (nets (simNet_v d))) as Hc by (apply link_same_length; intros j; by rewrite Hs).
  assert (forall q, Z.of_nat (length (nets (netsOf q d'))) <= UNKNOWN_NET) as Hu.
  { intros q. pose proof (sized_length d' q Hz'). pose proof (sized_length d' SIM_QUEUE Hz').
    pose proof (nets_small _ (Hf SIM_QUEUE)). simpl in *. lia. }
  assert (forest (nets (simNet_v d'))) as F.
  { eapply sub_forest; [| | apply (Hf SIM_QUEUE)]; simpl; intros j; rewrite Hs; [done |]. by right. }
  intros q. split; [| apply Hu]. destruct (decide (q = SIM_QUEUE)) as [-> | Hq]; [done |].
  eapply sub_forest; [| | exact F]; [| intros j l; by apply Hl].
  intros j. by rewrite (Hz' q j), <- (Hz' SIM_QUEUE j).
Qed.

Lemma rest_resetState : preserves (atRest n) resetState.
Proof.
  intros d Hd. assert (safe_ false (atRest n) resetState (fun _ => restQueues n)) as Hq.
  { unfold resetState. do 2 (apply keeps_then; [apply rest_resetSide | intros ?]).
    do 2 (apply keeps_then; [apply quiet_initUpdates; apply _ | intros ?]).
    apply keeps_then; [| intros ?].
    { apply keeps_forAllDevices. intros i. apply quiet_resetDevice. apply _. }
    apply (safe_conseq _ (restQueues n) _ _ (fun _ => restQueues n)); [| by intros ? [] | done].
    apply keeps_forNets. intros i. apply restQueues_resetNet. }
  specialize (Hq d Hd). destruct (resetState d) as [[[] d'] |] eqn:E; [| done].
  split; [done |]. destruct Hd as [_ Hn]. destruct (resetState_run d d' (proj2 Hn) E) as (Hz & Hs & Hl).
  by apply (restNets_sub d).
Qed.

(** ** The min/max and the simulation pass *)

Lemma run_startMinMax : preserves (running sides n) startMinMax.
Proof. apply keeps_running; [apply keeps_startMinMax | apply (preserves_startMinMax sides _); discriminate]. Qed.
Lemma run_minMaxLoop fuel : forall s, preserves (running sides n) (minMaxLoop fuel s).
Proof.
  assert (forall q, sides q -> preserves (running sides n) (PropagateMinMaxVoltages q)) as Hp by (intros q Hq; run).
  assert (forall s, preserves (running sides n) (nextHead s)) as Hh.
  { intros s d Hd. unfold nextHead, lift. destruct (_ =? 0); [by destruct (chooseQueue d) | done]. }
  induction fuel as [| fuel IH]; intros s; simpl; unfold minMaxRound; keep; auto. apply Hp. by destruct b.
Qed.
Lemma rest_SetInitialMinMaxPower orderOf fuel : preserves (atRest n) (SetInitialMinMaxPower orderOf fuel).
Proof.
  assert (safe_ false (atRest n) (_ ← startMinMax; k ← gets queuedEvents; minMaxLoop fuel (mkLoop k 0 false)) (fun _ => atRest n)) as H.
  { intros d Hd. apply (atRest_split sides) in Hd as Hr. pose proof (run_startMinMax d Hr) as H1. unfold mbind, M_bind, gets.
    destruct (startMinMax d) as [[[] d1] |] eqn:E1; [| done].
    pose proof (run_minMaxLoop fuel (mkLoop (queuedEvents d1) 0 false) d1 H1) as H2.
    assert (loopInv (mkLoop (queuedEvents d1) 0 false) d1) as Hl.
    { apply (startMinMax_loopInv d); [apply Hr | by apply (running_small sides) | done]. }
    destruct (minMaxLoop_inv fuel _ _ Hl) as (k & d2 & _ & [[E He] | [(m & e & _ & _ & E) | [_ E]]]).
    all: rewrite E in H2 |- *. 2-3: done. apply (atRest_join sides); [done |]. intros q Hq. by apply (He q 0). }
  intros d Hd. specialize (H d Hd). unfold SetInitialMinMaxPower. revert H. unfold mbind, M_bind, gets.
  destruct (startMinMax d) as [[[] d1] |]; [| done]. destruct (minMaxLoop _ _ d1) as [[[] d2] |]; [| done].
  apply quiet_finishMinMax. apply _.
Qed.
Lemma rest_ResetMinMaxPower orderOf fuel : preserves (atRest n) (ResetMinMaxPower orderOf fuel).
Proof.
  unfold ResetMinMaxPower. pose proof rest_resetState. pose proof (rest_SetInitialMinMaxPower orderOf fuel).
  pose proof (fun q => quiet_clearUpdates (atRest n) (strict := false) q). keep; auto.
Qed.

Lemma run_enqueueSim t s i : preserves (running onlySim n) (enqueueSim t s i).
Proof. assert (Stable (running onlySim n)) by (unfold running; apply _). unfold enqueueSim. keep; run. Qed.
Lemma run_simLoop fuel t : preserves (running onlySim n) (simLoop fuel t).
Proof. induction fuel as [| fuel IH]; simpl; keep; run. Qed.
Lemma simLoop_end fuel t : forall d d', simLoop fuel t d = Ok (tt, d') -> QueueSize (simEventQueue d') <= 0.
Proof.
  induction fuel as [| fuel IH]; intros d d' H; [done |]. simpl in H. unfold mbind, M_bind, gets in H.
  destruct (Z.leb_spec (QueueSize (simEventQueue d)) 0); [by injection H as <- |].
  destruct (PropagateSimVoltages SIM_QUEUE t d) as [[[] d1] |]; [by eapply IH | done].
Qed.
Lemma rest_simLoop fuel t : safe_ false (running onlySim n) (simLoop fuel t) (fun _ => atRest n).
Proof.
  apply (run_ends onlySim); [apply run_simLoop |]. intros d [] d' _ E H q ->.
  pose proof (simLoop_end _ _ _ _ E). pose proof (QueueSize_nonneg d' SIM_QUEUE (proj1 H)). simpl in *. lia.
Qed.
Lemma rest_SetSimPower fuel t s : preserves (atRest n) (SetSimPower fuel t s).
Proof.
  unfold SetSimPower. apply keeps_then; [apply rest_resetSide | intros ?]. apply keeps_then; [apply quiet_initUpdates; apply _ | intros ?].
  apply keeps_then; [apply keeps_modify; intros d; apply quiet_fixedSim | intros ?].
  apply (safe_conseq _ (running onlySim n) _ _ (fun _ => atRest n)); [| apply atRest_split | done].
  apply keeps_then; [| intros ?].
  { assert (Stable (running onlySim n)) by (unfold running; apply _). apply keeps_forNets. intros i. apply run_enqueueSim. }
  apply keeps_then; [run | intros ?]. eapply safe_bind; [apply rest_simLoop | intros ?].
  pose proof (fun q => quiet_clearUpdates (atRest n) (strict := false) q). as_preserves. keep; auto.
  apply keeps_modify. intros d. apply quiet_fixedSim.
Qed.

(** ** The reset at the start of a mode *)

(** The queues hold nothing, and the numbers of devices and nets are below their ends. *)
Definition drained (d : CCvcDb) : Prop :=
  (forall q, queueType (queueOf q d) = q /\ qinv (queueOf q d) emptyQueue) /\ deviceCount (netlist d) = Z.of_nat n /\
  netCount (netlist d) <= UNKNOWN_NET.

Lemma atRest_drained d : atRest n d -> drained d.
Proof.
  intros [[[Hp He] [_ Hc]] [Hf Hz]]. split; [| split; [done |]].
  - intros q. destruct (rest_nothing d q Hp (He q I)). done.
  - pose proof (sized_length d SIM_QUEUE Hz). pose proof (nets_small _ (Hf SIM_QUEUE)). simpl in *. lia.
Qed.
Lemma drained_nets q v d : drained d -> drained (set_netsOf q v d).
Proof.
  intros (Hq & Hc & Hn). replace (netlist (set_netsOf q v d)) with (netlist d) by by destruct d, q.
  split; [| by destruct d, q]. intros q'. replace (queueOf q' (set_netsOf q v d)) with (queueOf q' d) by by destruct d, q, q'.
  done.
Qed.

(** The nets in [S] link to themselves. *)
Definition selfOn (S : eventQueue_t -> Z -> Prop) (d : CCvcDb) : Prop :=
  drained d /\ sized d /\ forall q j, S q j -> link (nets (netsOf q d)) j = Some j.

Lemma setSelf_link q k d d' q' j : setNetM q k k 0 0 d = Ok (tt, d') ->
  link (nets (netsOf q' d')) j = if decide (q = q' /\ j = k) then Some k else link (nets (netsOf q' d)) j.
Proof.
  unfold setNetM. intros H. destruct (Set_ _ _ _ _ _) as [v |] eqn:E; [| done]. injection H as <-.
  rewrite setNets_links. destruct (decide (q = q')) as [<- |].
  - rewrite (Set_self_link _ _ _ _ _ _ E). destruct (decide (j = k)) as [-> |].
    + by rewrite decide_True.
    + rewrite decide_False; [done | by intros []].
  - rewrite decide_False; [done | by intros []].
Qed.
Lemma self_setNetM S q k : safe_ false (selfOn S) (setNetM q k k 0 0) (fun _ => selfOn (fun q' j => S q' j \/ q' = q /\ j = k)).
Proof.
  intros d (Hd & Hz & Hs). destruct (setNetM q k k 0 0 d) as [[[] d'] |] eqn:E; [| done].
  pose proof (setSelf_link q k d d') as Hl. unfold setNetM in E. destruct (Set_ _ _ _ _ _) as [v |] eqn:Ev; [| done].
  injection E as <-. split; [by apply drained_nets |]. split.
  - intros q' j. rewrite Hl by (unfold setNetM; by rewrite Ev).
    replace (netlist (set_netsOf q v d)) with (netlist d) by by destruct d, q.
    destruct (decide _) as [[<- ->] |]; [| apply Hz]. rewrite <- (Hz q k). split; [intros _ | by eexists].
    destruct (Set_self_entry _ _ _ _ _ Ev) as [x Hx]. unfold link. rewrite Hx. by eexists.
  - intros q' j Hj. rewrite Hl by (unfold setNetM; by rewrite Ev).
    destruct (decide _) as [[<- ->] |]; [done |]. destruct Hj as [Hj | [-> ->]]; [by apply Hs | naive_solver].
Qed.
Lemma selfOn_less (S S' : eventQueue_t -> Z -> Prop) d : (forall q j, S' q j -> S q j) -> selfOn S d -> selfOn S' d.
Proof. intros H (Hd & Hz & Hs). split_and!; auto. Qed.
Lemma self_selfNets k : forall i, safe_ false (selfOn (fun _ j => 0 <= j < i)) (forRange k i selfNet)
  (fun _ => selfOn (fun _ j => 0 <= j < i + Z.of_nat k)).
Proof.
  induction k as [| k IH]; intros i; simpl.
  - apply safe_ret. intros d. apply selfOn_less. intros; lia.
  - eapply safe_bind; [| intros ?; eapply safe_conseq; [apply (IH (i + 1)) | |]].
    + unfold selfNet. eapply safe_bind; [apply self_setNetM | intros ?]. eapply safe_bind; [apply self_setNetM | intros ?].
      apply self_setNetM.
    + intros d. apply selfOn_less. intros q j Hj. destruct (decide (j = i)) as [-> |]; [destruct q; auto | left; left; left; lia].
    + intros ? d. apply selfOn_less. intros; lia.
Qed.
Lemma selfOn_restNets k d : selfOn (fun _ j => 0 <= j < k) d -> netCount (netlist d) <= k -> restNets d.
Proof.
  intros (Hd & Hz & Hs) Hk. split; [| done]. intros q. split.
  - intros j Hj. assert (0 <= j < netCount (netlist d)) as Hr by (apply (Hz q); unfold link; by apply fmap_is_Some).
    specialize (Hs q j ltac:(lia)). unfold link in Hs. destruct Hj as [e He]. rewrite He in Hs. injection Hs as Hs.
    exists j, (resistance e), 0%nat. by constructor.
  - rewrite (sized_length d q Hz). destruct Hd as (_ & _ & Hn). unfold UNKNOWN_NET, UINT32_MAX in *. lia.
Qed.

(** An entry per net in the vectors [S]. *)
Definition sizedOn (S : eventQueue_t -> Prop) (d : CCvcDb) : Prop :=
  drained d /\ forall q j, S q -> is_Some (link (nets (netsOf q d)) j) <-> 0 <= j < netCount (netlist d).
Lemma sized_resetNets S q : safe_ false (sizedOn S) (resetNets q) (fun _ => sizedOn (fun q' => S q' \/ q' = q)).
Proof.
  intros d [Hd Hs]. unfold resetNets, nl, gets, mbind, M_bind, modify. split; [by apply drained_nets |].
  intros q' j Hq. match goal with |- context [set_netsOf q ?v d] => set (w := v) end.
  replace (netlist (set_netsOf q w d)) with (netlist d) by by destruct d, q.
  rewrite netsOf_set. destruct (decide _) as [<- | Hne]; [| apply Hs; naive_solver].
  unfold link. rewrite fmap_is_Some, vlookup_is_Some. subst w. simpl.
  unfold vresize. rewrite take_nil, length_app, length_replicate. simpl. lia.
Qed.

Lemma zero_status i b k : ~ bitSet (replicate k 0) i b.
Proof.
  intros (s & Hs & Hg). unfold vlookup in Hs. destruct (in_range _ _); [| done].
  apply list_elem_of_lookup_2, elem_of_replicate in Hs as [-> _]. by destruct b.
Qed.
Lemma rest_status d : drained d -> restNets d -> atRest n (set_deviceStatus_v (replicate (Z.to_nat (deviceCount (netlist d))) 0) d).
Proof.
  intros (Hq & Hc & _) Hn. rewrite Hc, Nat2Z.id.
  assert (forall q, agrees (queueOf q d) (replicate n 0) q (nobody q) emptyQueue) as Ha.
  { intros q. destruct (Hq q) as [Ht Hi]. constructor; [done | done | | by intros i []].
    intros i. split; [by intros ?%zero_status | intros [H | [[] _]]]. by apply not_elem_of_nil in H. }
  split; [split; [split |] | by apply restNets_status].
  - intros q. exists emptyQueue. by rewrite queueOf_set_status, deviceStatus_set_status.
  - intros q _. rewrite queueOf_set_status. by apply (QueueSize_queued _ _ (ag_inv _ _ _ _ _ (Ha q))).
  - split; [unfold devicesAre; rewrite deviceStatus_set_status; apply length_replicate | by destruct d].
Qed.

Definition netsAre (c : Z) (d : CCvcDb) : Prop := netCount (netlist d) = c.
#[local] Instance netsAre_stable c : Stable (netsAre c).
Proof. unfold netsAre. split; intros; try by destruct d. all: by destruct d, q. Qed.
Lemma self_forNets : safe_ false (fun d => drained d /\ sized d) (forNets selfNet) (fun _ d => drained d /\ restNets d).
Proof.
  intros d [Hd Hz]. unfold forNets, nl, gets, mbind, M_bind. set (k := Z.to_nat (netCount (netlist d))).
  pose proof (self_selfNets k 0 d) as H. destruct (forRange k 0 selfNet d) as [[[] d'] |] eqn:E; [| done].
  assert (selfOn (fun _ j => 0 <= j < Z.of_nat k) d') as H' by (apply H; split_and!; [done | done |]; intros; lia).
  assert (netCount (netlist d') = netCount (netlist d)) as Hn.
  { assert (preserves (netsAre (netCount (netlist d))) (forRange k 0 selfNet)) as Hk by (apply keeps_forRange; intros; unfold selfNet; keep).
    specialize (Hk d eq_refl). by rewrite E in Hk. }
  split; [apply H' |]. apply (selfOn_restNets (Z.of_nat k)); [done | lia].
Qed.

Lemma rest_ResetMinSimMaxAndQueues : safe_ false drained ResetMinSimMaxAndQueues (fun _ => atRest n).
Proof.
  unfold ResetMinSimMaxAndQueues. eapply (safe_bind _ _ _ _ (fun _ => sizedOn (fun _ => False))).
  { intros d (Hq & Hc & Hn). split; [| by intros ? ? []]. split; [| by destruct d].
    intros q. replace (queueOf q _) with (queueOf q d) by by destruct d, q. apply Hq. }
  intros ?. do 3 (eapply safe_bind; [apply sized_resetNets | intros ?]).
  apply (safe_conseq _ (fun d => drained d /\ sized d) _ _ (fun _ => atRest n)); [| | done].
  2: { intros d [Hd Hz]. split; [done |]. intros q j. apply Hz. destruct q; auto. }
  eapply safe_bind; [apply self_forNets | intros ?].
  assert (preserves (atRest n) (_ ← resetSide MIN_QUEUE; _ ← resetSide MAX_QUEUE;
    _ ← modify (fun d => set_isFixedMaxNet false (set_isFixedMinNet false d)); _ ← modify (set_isFixedSimNet false);
    _ ← modify (set_leakVoltageSet false); modify (set_errorCount (replicate (Z.to_nat ERROR_TYPE_COUNT) 0)))) as Hk.
  { pose proof rest_resetSide. keep; auto; apply keeps_modify; intros d;
      [by apply quiet_fixedSim | by apply quiet_leakSet | by apply stable_errorCount]. }
  intros d [Hd Hn]. exact (Hk _ (rest_status d Hd Hn)).
Qed.
End Propagations.

(** ** The stages *)

Section Stages.
Context (validRegex : String.string -> bool) (regex_match : String.string -> String.string -> bool)
  (cdlText : gset String.string) (orderOf : CDependencyMap -> list Z) (firstRelative : CSet -> option String.string)
  (fuel : nat) (m : mode_t) (v : Model.Model.voltageState) (n : nat) (Hsmall : Z.of_nat n < 2 ^ 31).

Abbreviation rest := (preserves (atRest n)).

Lemma rest_createDatabase : safe_ false (drained n) (createDatabase validRegex regex_match cdlText firstRelative fuel m v) (fun _ => atRest n).
Proof.
  unfold createDatabase. eapply safe_bind; [by apply rest_ResetMinSimMaxAndQueues | intros ?]. as_preserves.
  pose proof (quiet_SetEquivalentNets (atRest n) (strict := false)). pose proof (quiet_LinkDevices (atRest n) (strict := false)).
  pose proof (preserves_OverrideFuses (atRest n) (cvcFuseFile m)).
  pose proof (preserves_setPowers (atRest n) validRegex regex_match cdlText firstRelative fuel m v). keep; auto.
Qed.
Lemma rest_resistorStage : rest resistorStage.
Proof.
  unfold resistorStage. pose proof (quiet_ShortNonConductingResistors (atRest n) (strict := false)).
  pose proof (rest_SetResistorVoltagesByPower n Hsmall). keep; auto.
Qed.
Lemma rest_unlessSOI (check : DB unit) : rest check -> rest (unlessSOI check).
Proof. intros H. unfold unlessSOI, param. keep; auto. Qed.
Ltac stage := keep; try (apply rest_unlessSOI; keep); auto.
Lemma rest_firstMinMaxStage : rest (firstMinMaxStage orderOf fuel m).
Proof.
  unfold firstMinMaxStage, checks, param. pose proof (rest_ResetMinMaxPower n Hsmall orderOf fuel).
  pose proof (quiet_SetAnalogNets (atRest n) (strict := false)). pose proof (quiet_FindForwardBiasDiodes (atRest n) (strict := false)).
  pose proof (fun b => quiet_FindNmosSourceVsBulkErrors (atRest n) (strict := false) b).
  pose proof (fun b => quiet_FindPmosSourceVsBulkErrors (atRest n) (strict := false) b).
  pose proof (fun a b => quiet_FindNmosGateVsSourceErrors (atRest n) (strict := false) a b).
  pose proof (fun a b => quiet_FindPmosGateVsSourceErrors (atRest n) (strict := false) a b).
  stage.
Qed.
Lemma rest_firstSimStage : rest (firstSimStage fuel).
Proof.
  unfold firstSimStage. pose proof (rest_SetSimPower n Hsmall fuel). 
  pose proof (quiet_SaveMinMaxLeakVoltages (atRest n) (strict := false)). pose proof (quiet_CheckConnections (atRest n) (strict := false)).
  pose proof (quiet_SaveInitialVoltages (atRest n) (strict := false)).
  pose proof (fun l => quiet_PrintAndReset (atRest n) (strict := false) l). stage.
Qed.
Lemma rest_latchPasses k : forall i l, rest (latchPasses fuel k i l).
Proof.
  pose proof (rest_SetSimPower n Hsmall fuel). pose proof (fun a b => quiet_SetLatchPower (atRest n) (strict := false) a b).
  induction k as [| k IH]; intros i l; simpl; stage.
Qed.
Lemma rest_secondSimStage : rest (secondSimStage fuel m).
Proof.
  unfold secondSimStage. pose proof (rest_SetSimPower n Hsmall fuel). pose proof rest_latchPasses.
  pose proof (quiet_SetSCRCPower (atRest n) (strict := false)). pose proof (quiet_FindLDDErrors (atRest n) (strict := false)).
  pose proof (fun l => quiet_PrintAndReset (atRest n) (strict := false) l). stage.
Qed.
Lemma rest_secondMinMaxStage : rest (secondMinMaxStage orderOf fuel m).
Proof.
  unfold secondMinMaxStage, checks, param. pose proof (rest_ResetMinMaxPower n Hsmall orderOf fuel).
  pose proof (quiet_SetInverters (atRest n) (strict := false)). pose proof (quiet_FindForwardBiasDiodes (atRest n) (strict := false)).
  pose proof (quiet_FindAllOverVoltageErrors (atRest n) (strict := false)).
  pose proof (quiet_FindNmosPossibleLeakErrors (atRest n) (strict := false)).
  pose proof (quiet_FindPmosPossibleLeakErrors (atRest n) (strict := false)).
  pose proof (quiet_FindFloatingInputErrors (atRest n) (strict := false)).
  pose proof (preserves_CheckExpectedValues (atRest n)). stage.
Qed.

Abbreviation create := (createDatabase validRegex regex_match cdlText firstRelative fuel m v).

(** C7: a mode starts and ends at rest, and so does each of its stages.  From queues
    that hold nothing, whatever nets, levels and status the last mode left and whatever
    the files of this one say, every state in which the stages of [VerifyMode] begin, and
    the one in which it returns, is at rest: the three queues are empty, no device is
    pending, the vectors have their sizes, and the virtual nets are forests with an entry
    per net.  In particular the next mode may begin. *)
Theorem modes_end_at_rest d r d' :
  drained n d -> VerifyMode validRegex regex_match cdlText orderOf firstRelative fuel m v d = Ok (r, d') ->
  atRest n d' /\ drained n d' /\
  (r = Complete -> exists d1 d2 d3 d4 d5, Forall (atRest n) [d1; d2; d3; d4; d5] /\
     create d = Ok (true, d1) /\ resistorStage d1 = Ok (tt, d2) /\ firstMinMaxStage orderOf fuel m d2 = Ok (tt, d3) /\
     firstSimStage fuel d3 = Ok (tt, d4) /\ secondSimStage fuel m d4 = Ok (tt, d5) /\
     secondMinMaxStage orderOf fuel m d5 = Ok (tt, d')).
Proof.
  intros Hd H. assert (forall A (c : DB A) x y z, rest c -> atRest n x -> c x = Ok (y, z) -> atRest n z) as Hk.
  { intros A c x y z Hc Hx E. specialize (Hc x Hx). by rewrite E in Hc. }
  unfold VerifyMode in H. apply M_bind_inv in H as (b & d1 & E1 & H).
  pose proof (rest_createDatabase d Hd) as H1. rewrite E1 in H1. destruct b; simpl in H.
  2: { injection H as <- <-. split_and!; [done | by apply atRest_drained | done]. }
  apply M_bind_inv in H as ([] & d2 & E2 & H). pose proof (Hk _ _ _ _ _ rest_resistorStage H1 E2) as H2.
  apply M_bind_inv in H as ([] & d3 & E3 & H). pose proof (Hk _ _ _ _ _ rest_firstMinMaxStage H2 E3) as H3.
  destruct (gSetup_cvc m).
  { injection H as <- <-. split_and!; [done | by apply atRest_drained | done]. }
  apply M_bind_inv in H as ([] & d4 & E4 & H). pose proof (Hk _ _ _ _ _ rest_firstSimStage H3 E4) as H4.
  apply M_bind_inv in H as ([] & d5 & E5 & H). pose proof (Hk _ _ _ _ _ rest_secondSimStage H4 E5) as H5.
  apply M_bind_inv in H as ([] & d6 & E6 & H). pose proof (Hk _ _ _ _ _ rest_secondMinMaxStage H5 E6) as H6.
  injection H as <- <-. split_and!; [done | by apply atRest_drained |]. intros _.
  exists d1, d2, d3, d4, d5. split; [| done]. do 5 (apply Forall_cons_2; [done |]). apply Forall_nil_2.
Qed.
End Stages.

Lemma exampleDb_drained : drained 4 ExampleDb.exampleDb.
Proof.
  split; [| done]. intros q. assert (QueueSize (queueOf q ExampleDb.exampleDb) = 0) as E by by destruct q.
  destruct (rest_nothing _ q exampleDb_pending E). done.
Qed.

(** A mode on the example circuit, with all its stages. *)
Definition exampleMode : mode_t := mkMode false true false None [] ∅ ∅ [] [].
Definition exampleRun : DB stage_t :=
  VerifyMode (fun _ => true) (fun _ _ => false) ∅ (fun k => (map_to_list k).*1) (fun _ => None) 60 exampleMode
    (Model.Model.mkVoltageState EmptyString []).

Lemma modes_end_at_rest_witness : exists d', exampleRun ExampleDb.exampleDb = Ok (Complete, d') /\ atRest 4 d' /\ drained 4 d'.
Proof.
  assert (match exampleRun ExampleDb.exampleDb with Ok (Complete, _) => true | _ => false end = true) as E by (vm_compute; reflexivity).
  destruct (exampleRun ExampleDb.exampleDb) as [[r d'] |] eqn:H; [| discriminate E]. destruct r; try discriminate E.
  exists d'. split; [reflexivity |].
  destruct (modes_end_at_rest (fun _ => true) (fun _ _ => false) ∅ (fun k => (map_to_list k).*1) (fun _ => None) 60 exampleMode
    (Model.Model.mkVoltageState EmptyString []) 4 ltac:(lia) ExampleDb.exampleDb Complete d' exampleDb_drained H) as (Hr & Hn & _).
  split; assumption.
Defined.
End Stages.
